(* ===== verification/_CoqProject ===== *)
-Q . S2P
Prelude.v
GoText.v
TimeText.v
NetAddr.v
NetFacts.v
Codec.v
Sha256.v
Json.v
Schema.v
SchemaFacts.v
Alloc.v
Enroll.v
EnrollFacts.v
Visibility.v
Admin.v
Acl.v
ExitNode.v
Invariants.v
Network.v
Dns.v
Users.v
Telemetry.v
TelemetryFacts.v
Reports.v
StoreMachine.v
HostPort.v
Psk.v
ClientIP.v
Candidates.v
Punch.v
PeerEntries.v
EntryFacts.v
RelayUdp.v
RelayFacts.v
Handlers.v
HandlerFacts.v
Path.v
PathFacts.v
Sync.v
Collect.v
CollectFacts.v
NetCidr.v
AgentSync.v
AgentSyncFacts.v
NumText.v
IpTables.v
OverlayAcl.v
HostNet.v
HostNetFacts.v
WsHub.v
WsHubFacts.v
Uapi.v
UapiFacts.v
AdminApi.v
Session.v
Aes.v
Mobile.v
Signal.v
Logs.v
AdminFacts.v
LocalCandidates.v
NatCheck.v
PortMap.v
Startup.v
Firewall.v
Secrets.v
HostDns.v
QuicFrames.v
Capture.v
ProxyTail.v
RelayControl.v
RateLimit.v
AgentRun.v
Stun.v
Migrate.v
Serve.v
AgentRelay.v
Iface.v
Gui.v
WinHost.v
