(* ===== verification/Prelude.v ===== *)
(** * wgmesh: a verification development of the mesh control plane and agent

    wgmesh is a WireGuard mesh.  A control server (cmd/server) keeps the mesh in
    a SQLite database (internal/store); agents (cmd/agent) enroll with a setup
    key, report every few seconds over HTTP, and are answered with the list of
    peers they may reach, from which they configure their WireGuard device; two
    agents that cannot reach each other directly are connected by a relay
    (internal/relay) that forwards datagrams between two ports.

    ** How the files correspond to the code

    Foundations (the language and its standard library, as far as used):
    - Prelude: errors, the transaction monad ([tx], [run_tx]: rollback on error);
    - GoText, TimeText, NetAddr, HostPort, Codec, Json, Sha256: strings,
      strconv, time.Format, net/netip, net.SplitHostPort, encoding/base64,
      encoding/json, crypto/sha256, crypto/hmac and crypto/hkdf; NetFacts has
      the round trips of addresses and prefixes.

    The store (internal/store, src/schema.sql):
    - Schema, SchemaFacts: the tables as records of rows with the constraints
      SQLite enforces (uniqueness, CHECKs, foreign keys), and [db_ok];
    - Alloc, Enroll, EnrollFacts, Visibility: store.go;
    - Admin: admin.go; Acl: acl.go; ExitNode: exit.go and static.go;
      Network: network.go; Dns: dns.go; Users: users.go;
      Telemetry, TelemetryFacts, Reports: telemetry.go, connections.go,
      proxy.go, audit.go;
    - Invariants, StoreMachine: every operation as one step of a machine, and
      the invariants of all reachable databases;
    - Migrate: the database file, [Open] with its schema and migrations
      (store.go).

    The server (cmd/server):
    - Psk: internal/psk and relayPairID; ClientIP: clientIP and the trusted
      proxies; Candidates: endpoint candidates of a pair;
      Punch: punch epochs; PeerEntries, EntryFacts: what an agent is
      sent; Handlers, HandlerFacts: POST /enroll, /report and /relay/pair.
    - AdminApi: admin.go, acl.go, users.go, the operators' handlers;
      Session: ui.go and the guards of admin.go and users.go; Aes: crypto/aes
      and crypto/cipher; Mobile: internal/keyseal and mobile.go;
      Signal: signal.go and the request ring of observability.go;
      Logs: the listings, the retention passes and the middleware that records a
      request (observability.go, report.go, connections.go, proxy.go,
      listener.go); AdminFacts: all that writes the store while a server runs,
      through its guards, against StoreMachine; RateLimit:
      internal/httpx/ratelimit.go;
      Serve: main.go's [runServe] from the flags to the listeners, the relay and
      certificates it chooses, and the table of routes with their guards; also
      the process of the stand-alone relay (cmd/relay).

    The relay (internal/relay):
    - RelayUdp, RelayFacts: relay.go; the two goroutines of a pair are
      interleaved steps (a receive, later the matching send).
    - WsHub, WsHubFacts: wshub.go, with the endpoints that admit to it
      (cmd/server/relayws.go, relayquic.go); each session's read, look-up and
      write are separate steps.
    - RelayControl: the stand-alone relay's control endpoint (cmd/relay) and the
      server's client of it; Stun: stun.go, with the NAT check of the agent.

    The agent (cmd/agent):
    - Path, PathFacts: relay.go, the state of one peer's path;
    - Sync: sync.go over the interface [WgBackend] of wgbackend.go;
    - Uapi, UapiFacts: the embedded device behind the same interface
      (wgbackend.go, wgbackend_windows.go), as text sent and read;
    - NetCidr, AgentSync, AgentSyncFacts: applySync (telemetry.go, main.go) over
      the class [HostOps] of what it asks of the system;
    - Collect, CollectFacts: link counters, flows and reports (telemetry.go);
    - IpTables, OverlayAcl: acl_linux.go over the class
      [IpTables]; HostNet, HostNetFacts: gateway_linux.go and exitnode_linux.go
      over [IpTables] and [NetHost];
    - LocalCandidates: candidates.go; NatCheck: stun.go and the periodic checks
      of telemetry.go; PortMap: portmap.go; Startup: enrollment and
      the retry loop of runner.go and main.go;
    - AgentRun: a whole run with its deferred clean-up (runner.go), mss_linux.go,
      the reporter's answers and teardown (telemetry.go), signal.go;
    - Iface: iface_linux.go and iface_windows.go over [NetLink] and [Netsh];
      HostDns: dns_linux.go over the class [DnsHost]; WinHost: dns_windows.go and
      service_windows.go over [WinDns] and [Scm]; Gui: status.go, gui_windows.go
      and gui_settings_windows.go;
    - AgentRelay: opening and closing relay transports (relay.go, relayws.go,
      relayquic.go); QuicFrames: the datagrams of relayquic.go; Capture: capture_linux.go and flows_linux.go; ProxyTail:
      proxytail.go;
    - Firewall: internal/firewall, shared with the relay and the server;
      Secrets: every key, token and secret file of the three programs, over the
      files of a disk ([Disk]);
    - NumText: numbers in texts, shared by several of these.

    ** What the theorems show

    Store: after any sequence of operations addresses are unique and inside the
    network, no key enrolls more peers than allowed, rules and routing are well
    formed; each operation's behaviour on success and on refusal.  Server:
    enrollment leads to a working identity and revocation ends it; the lists sent
    to two agents agree; policies are never widened; punching is bounded.
    Relay: only what one side sent reaches the other, and only that other side.
    Agent: the view of a path is coherent, the relay is left only on proof, and
    one sync brings the device in line.
    Together: every sequence of requests, connections and retention passes keeps
    the store's invariants ([server_refines_store]); what the server renders is
    what the device of the agent ends up with, or the device keeps what it had
    ([config_delivered]), and what its firewall enforces ([acl_enforced]); no
    counter is lost, and one is counted twice only when the answer to its report
    is ([telemetry_conserved]); relayed frames and signals stay between the peers
    whose tokens opened the connections; operators' changes are logged and
    announced; sessions end when they should; a device's configuration is
    reproducible and agrees with its gateway.
    The host: an accepted agent that can resolve the endpoints it is told comes up
    with what the server recorded ([agent_starts]); every way a run ends goes
    through the clean-ups of what it took, and only what a clean-up fails to remove
    stays ([run_leaves_nothing]); name servers and firewall rules are given back
    ([resolv_conf_restored], [firewall_restored]); keys survive restarts; captured
    and tailed telemetry is exact; QUIC frames carry packets unharmed; a remote
    relay behaves as the embedded one.
    Where a theorem needs a condition that the code does not ensure (an endpoint
    that resolves, flags that let a bucket refill, a proxy that is not started
    again, a firewall that counts its rules), its comment names it, and a lemma
    beside it shows what happens without it.
    Start-up: a database of any version is brought to the current schema
    ([schema_upgraded]) and a restarted server serves the mesh it left
    ([server_restarts]).  Lemmas without a claim id show the same kind of thing
    of the rest: the interface carries the agent's addresses
    ([self_address_carried]), a failed transport leaves nothing open
    ([startQUICRelay_balanced]), an update of the service never loses its binary
    ([update_safe]), the desktop program runs one agent at a time ([one_loop]).

    ** Bounds and fuel

    Loops over data are structural.  [free_walk] gets one step more than there
    are used addresses, which always suffices ([free_walk_total]); [bind_walk]
    gets one step per port of the range; the JSON readers get the length of the
    input; SHA-256 works on the padded message's blocks.  Integers are [Z]; where
    SQLite or Go would overflow (counter sums, ports, prefix lengths) the code's
    own check or wrap-around is in the definition.
    The loops that delete firewall rules until none is left get fuel; more than
    the chain has copies of the rule is proved to be enough, and every theorem
    says so.  Differences of byte counters wrap as Go's do ([i64], [u64]).

    ** Parameters

    Code that is not in the repository is an argument: Argon2 ([IDKey]),
    wgtypes.ParseKey and Key.String, net.ResolveUDPAddr (it may ask the DNS), the
    ports other processes hold and the port the system picks, and the WireGuard
    device ([WgBackend] with [WgBackendLaws]).
    Likewise the kernel's netfilter and routing tables ([IpTables], [NetHost]), the
    embedded device ([Uapi]), the rest of the agent's system ([HostOps]),
    strconv.Quote and time.ParseDuration where only their text or value is
    passed on, and the outcome of websocket and QUIC reads and writes.  So are
    tailscale's STUN codec ([StunCodec]), golang.org/x/time/rate ([TokenBucket],
    with the documented refilling as [TokenBucketLaws]),
    UPnP and NAT-PMP routers, the firewall tools ([FwHost]), the files and
    resolvectl behind the DNS takeover ([DnsHost]), what a run asks of the
    system ([RunHost]), netlink ([NetLink]), netsh, PowerShell and the service
    manager of Windows ([Netsh], [WinDns], [Scm]), Fyne's preferences
    ([Preferences]) and what [url.Parse] makes of a server's address.  A class with laws comes with an instance that satisfies
    them.

    ** Not modelled

    The flag parser, the accept loops of the listeners, ACME issuance and the
    contents of certificates, the bytes of HTTP, websocket and QUIC, SSDP
    discovery, build information, and the widgets, layout and images of the
    desktop program: they are I/O around the modelled operations or calls of
    libraries, and their results enter the model as arguments. *)
From stdpp Require Export prelude gmap strings pretty sorting.
From Stdlib Require Export ZArith Lia.

#[global] Open Scope Z_scope.
(** [lia] on goals with division and modulus by constants. *)
Ltac Zify.zify_post_hook ::= Z.to_euclidean_division_equations.

(** ** Errors

    The sentinel errors of the store package.  [fmt.Errorf("%w: detail", E)]
    is the constructor of the sentinel applied to the detail; an error with no
    sentinel inside is [ErrMsg]; a statement that SQLite refuses because of a
    constraint is [ErrConstraint]. *)
Inductive goerr : Type :=
| ErrUnauthorized (detail : string)
| ErrNotFound (detail : string)
| ErrInvalid (detail : string)
| ErrAddressInUse (detail : string)
| ErrPeerExists (detail : string)
| ErrUserExists (detail : string)
| ErrAuth
| ErrNoStoredConfig (detail : string)
| ErrMsg (msg : string)
| ErrConstraint (what : string).

#[export] Instance goerr_eq_dec : EqDecision goerr.
Proof. solve_decision. Defined.

(** A Go function returning [(T, error)]. *)
Inductive result (A : Type) : Type :=
| Ok (a : A)
| Err (e : goerr).
Arguments Ok {A} a.
Arguments Err {A} e.

#[export] Instance result_ret : MRet result := λ A a, Ok a.
#[export] Instance result_bind : MBind result :=
  λ A B f m, match m with Ok a => f a | Err e => Err e end.

Definition is_ok {A} (r : result A) : bool :=
  match r with Ok _ => true | Err _ => false end.

(** ** Transactions

    A body run between [BeginTx] and [Commit]: it threads the database and may
    return early with an error. *)
Definition tx (S A : Type) : Type := S → result (A * S).

#[export] Instance tx_ret {S} : MRet (tx S) := λ A a s, Ok (a, s).
#[export] Instance tx_bind {S} : MBind (tx S) :=
  λ A B f m s, match m s with Ok (a, s') => f a s' | Err e => Err e end.

Definition tx_fail {S A} (e : goerr) : tx S A := λ _, Err e.
Definition tx_get {S A} (f : S → A) : tx S A := λ s, Ok (f s, s).
Definition tx_put {S} (f : S → S) : tx S unit := λ s, Ok (tt, f s).
Definition tx_lift {S A} (r : result A) : tx S A :=
  λ s, match r with Ok a => Ok (a, s) | Err e => Err e end.
(** A read that may fail. *)
Definition tx_query {S A} (f : S → result A) : tx S A :=
  λ s, match f s with Ok a => Ok (a, s) | Err e => Err e end.
Definition tx_when {S} (b : bool) (m : tx S unit) : tx S unit :=
  if b then m else mret tt.

(** [defer tx.Rollback()]: an early return leaves the database as it was;
    reaching [Commit] publishes the new one. *)
Definition run_tx {S A} (m : tx S A) (s : S) : result A * S :=
  match m s with
  | Ok (a, s') => (Ok a, s')
  | Err e => (Err e, s)
  end.

Lemma tx_bind_Ok {S A B} (m : tx S A) (f : A → tx S B) s b s' :
  (m ≫= f) s = Ok (b, s') ↔ ∃ a s1, m s = Ok (a, s1) ∧ f a s1 = Ok (b, s').
Proof.
  unfold mbind, tx_bind. split.
  - intros H. destruct (m s) as [[a s1]|e] eqn:E; [eauto|done].
  - intros (a & s1 & -> & H). done.
Qed.

Lemma tx_query_Ok {S A} (f : S → result A) s a s' :
  tx_query f s = Ok (a, s') ↔ f s = Ok a ∧ s' = s.
Proof. unfold tx_query. destruct (f s); naive_solver. Qed.

Lemma run_tx_Ok {S A} (m : tx S A) s a s' :
  run_tx m s = (Ok a, s') ↔ m s = Ok (a, s').
Proof.
  unfold run_tx. split.
  - destruct (m s) as [[a0 s0]|e]; intros; by simplify_eq.
  - by intros ->.
Qed.

Lemma run_tx_Err {S A} (m : tx S A) s e s' :
  run_tx m s = (Err e, s') ↔ m s = Err e ∧ s' = s.
Proof.
  unfold run_tx. split.
  - destruct (m s) as [[a0 s0]|e0]; intros; by simplify_eq.
  - by intros [-> ->].
Qed.

(** The invariant rule for transactions: what the body preserves, the
    transaction preserves, on the error paths too. *)
Lemma run_tx_invariant {S A} (I : S → Prop) (m : tx S A) s :
  I s → (∀ a s', m s = Ok (a, s') → I s') → I (run_tx m s).2.
Proof.
  intros HI Hm. unfold run_tx. destruct (m s) as [[a s']|e] eqn:E; simpl; eauto.
Qed.

(** A Go loop that may return early: [for _, x := range l { ... }]. *)
Fixpoint tx_iter {S A} (f : A → tx S unit) (l : list A) : tx S unit :=
  match l with
  | [] => mret tt
  | x :: l => _ ← f x; tx_iter f l
  end.

Lemma tx_iter_invariant {S A} (I : S → Prop) (f : A → tx S unit) l s s' u :
  (∀ x s u s', I s → f x s = Ok (u, s') → I s') →
  I s → tx_iter f l s = Ok (u, s') → I s'.
Proof.
  intros Hf. revert s; induction l as [|x l IH]; intros s HI; simpl.
  - unfold mret, tx_ret. intros; by simplify_eq.
  - rewrite tx_bind_Ok. intros (a & s1 & H1 & H2). eauto.
Qed.

Lemma Ok_inj {A} (x y : A) : Ok x = Ok y → x = y.
Proof. by intros [= ->]. Qed.
Lemma pair_inj {A B} (x x' : A) (y y' : B) : (x, y) = (x', y') → x = x' ∧ y = y'.
Proof. by intros [= -> ->]. Qed.

(** Splits a successful run of a transaction into its steps. *)
Ltac tx_step H :=
  match type of H with
  | (_ ≫= _) _ = Ok _ =>
      let a := fresh "a" in let s := fresh "s" in let H1 := fresh "Hs" in
      apply tx_bind_Ok in H as (a & s & H1 & H)
  end.
Ltac tx_simpl :=
  repeat match goal with
  | H : mret _ _ = Ok _ |- _ => unfold mret, tx_ret in H
  | H : tx_fail _ _ = Ok _ |- _ => discriminate H
  | H : tx_get _ _ = Ok _ |- _ => unfold tx_get in H
  | H : tx_put _ _ = Ok _ |- _ => unfold tx_put in H
  | H : tx_lift ?r _ = Ok _ |- _ =>
      unfold tx_lift in H; let E := fresh "El" in destruct r eqn:E
  | H : tx_query ?f ?s = Ok _ |- _ =>
      unfold tx_query in H; let E := fresh "Eq" in destruct (f s) eqn:E
  | H : Err _ = Ok _ |- _ => discriminate H
  | H : Ok _ = Ok _ |- _ => apply Ok_inj in H
  | H : (_, _) = (_, _) |- _ => apply pair_inj in H as [? ?]
  | H : (_ ≫= _) _ = Ok _ |- _ => tx_step H
  end; simplify_eq/=.
Ltac tx_cases :=
  repeat (tx_simpl; try case_match; tx_simpl).

Lemma bind_Some {A B} (x : A) (f : A → option B) : (Some x ≫= f) = f x.
Proof. done. Qed.
