(* ===== verification/GoText.v ===== *)
(** * Go strings

    What the sources use of the packages [strings] and [strconv] and of the
    built-in string operators, on byte strings: [TrimSpace], [ToLower],
    [Split], [Join], [TrimSuffix], [CutPrefix], [Itoa], [ParseInt] and the
    byte-wise comparison of Go (and of SQLite's BINARY collation), with the
    lemmas the components share. *)
From S2P Require Import Prelude.
From Stdlib Require Import Ascii.

#[global] Open Scope string_scope.
#[global] Open Scope list_scope.
#[global] Open Scope Z_scope.

Definition byte_of (c : ascii) : Z := Z.of_N (N_of_ascii c).
Definition chr (z : Z) : ascii := ascii_of_N (Z.to_N z).

Definition chars (s : string) : list ascii := String.list_ascii_of_string s.
Definition text (l : list ascii) : string := String.string_of_list_ascii l.

(** Byte-wise comparison: Go's [<] on strings. *)
Definition str_lt (a b : string) : bool :=
  match String.compare a b with Lt => true | _ => false end.
Definition str_le (a b : string) : bool := negb (str_lt b a).

(** ** [strings.TrimSpace]

    [unicode.IsSpace] on UTF-8: the six ASCII blanks, and the encodings of
    U+0085, U+00A0, U+1680, U+2000..U+200A, U+2028, U+2029, U+202F, U+205F and
    U+3000. *)
Definition space1 (c : ascii) : bool :=
  let z := byte_of c in ((9 <=? z) && (z <=? 13)) || (z =? 32).
Definition space2 (c1 c2 : ascii) : bool :=
  (byte_of c1 =? 0xC2) && ((byte_of c2 =? 0x85) || (byte_of c2 =? 0xA0)).
Definition space3 (c1 c2 c3 : ascii) : bool :=
  let a := byte_of c1 in let b := byte_of c2 in let c := byte_of c3 in
  ((a =? 0xE1) && (b =? 0x9A) && (c =? 0x80)) ||
  ((a =? 0xE2) && (b =? 0x80) &&
     (((0x80 <=? c) && (c <=? 0x8A)) || (c =? 0xA8) || (c =? 0xA9) || (c =? 0xAF))) ||
  ((a =? 0xE2) && (b =? 0x81) && (c =? 0x9F)) ||
  ((a =? 0xE3) && (b =? 0x80) && (c =? 0x80)).

Fixpoint trim_left (l : list ascii) : list ascii :=
  match l with
  | c1 :: ((c2 :: ((c3 :: l3) as l2)) as l1) =>
      if space1 c1 then trim_left l1
      else if space2 c1 c2 then trim_left l2
      else if space3 c1 c2 c3 then trim_left l3 else l
  | c1 :: ((c2 :: []) as l1) =>
      if space1 c1 then trim_left l1
      else if space2 c1 c2 then [] else l
  | [c1] => if space1 c1 then [] else l
  | [] => []
  end.

(** The same from the right end: [l] is the reversed text, so an encoding is
    met last byte first. *)
Fixpoint trim_right_rev (l : list ascii) : list ascii :=
  match l with
  | c1 :: ((c2 :: ((c3 :: l3) as l2)) as l1) =>
      if space1 c1 then trim_right_rev l1
      else if space2 c2 c1 then trim_right_rev l2
      else if space3 c3 c2 c1 then trim_right_rev l3 else l
  | c1 :: ((c2 :: []) as l1) =>
      if space1 c1 then trim_right_rev l1
      else if space2 c2 c1 then [] else l
  | [c1] => if space1 c1 then [] else l
  | [] => []
  end.

Definition TrimSpace (s : string) : string :=
  text (rev (trim_right_rev (rev (trim_left (chars s))))).

(** ** [strings.ToLower]

    ASCII letters, and the two code points outside ASCII whose lower case is an
    ASCII letter (U+0130 and U+212A).  Every other multi-byte sequence maps to
    a multi-byte sequence; it is left in place here, which makes no difference
    to callers that go on to accept ASCII only. *)
Definition lower1 (c : ascii) : ascii :=
  if (65 <=? byte_of c) && (byte_of c <=? 90) then chr (byte_of c + 32) else c.

Fixpoint lower_chars (l : list ascii) : list ascii :=
  match l with
  | c1 :: ((c2 :: ((c3 :: l3) as l2)) as l1) =>
      if (byte_of c1 =? 0xC4) && (byte_of c2 =? 0xB0) then "i"%char :: lower_chars l2
      else if (byte_of c1 =? 0xE2) && (byte_of c2 =? 0x84) && (byte_of c3 =? 0xAA)
           then "k"%char :: lower_chars l3
           else lower1 c1 :: lower_chars l1
  | c1 :: ((c2 :: []) as l1) =>
      if (byte_of c1 =? 0xC4) && (byte_of c2 =? 0xB0) then ["i"%char]
      else lower1 c1 :: lower_chars l1
  | [c1] => [lower1 c1]
  | [] => []
  end.
Definition ToLower (s : string) : string := text (lower_chars (chars s)).

(** ** Splitting and joining *)
Fixpoint Split (s : string) (sep : ascii) : list string :=
  match s with
  | EmptyString => [""]
  | String a s' =>
      if decide (a = sep) then "" :: Split s' sep
      else match Split s' sep with
           | h :: t => String a h :: t
           | [] => [String a ""]
           end
  end.

Fixpoint Join (l : list string) (sep : string) : string :=
  match l with
  | [] => ""
  | [x] => x
  | x :: l => x +:+ sep +:+ Join l sep
  end.

Definition TrimSuffixChar (s : string) (c : ascii) : string :=
  match rev (chars s) with
  | a :: l => if decide (a = c) then text (rev l) else s
  | [] => s
  end.

Fixpoint CutPrefix (s prefix : string) {struct prefix} : option string :=
  match prefix, s with
  | EmptyString, _ => Some s
  | String p prefix, String a s => if decide (a = p) then CutPrefix s prefix else None
  | String _ _, EmptyString => None
  end.

Fixpoint str_exists (p : ascii → bool) (s : string) : bool :=
  match s with EmptyString => false | String a s => p a || str_exists p s end.
Definition str_forall (p : ascii → bool) (s : string) : bool :=
  negb (str_exists (λ c, negb (p c)) s).
Definition str_len (s : string) : Z := Z.of_nat (String.length s).

(** ** Numbers *)
Definition Itoa (z : Z) : string := pretty z.

Definition digit (c : ascii) : option Z :=
  if (48 <=? byte_of c) && (byte_of c <=? 57) then Some (byte_of c - 48) else None.

Fixpoint digits_from (acc : Z) (s : string) : option Z :=
  match s with
  | EmptyString => Some acc
  | String c s => d ← digit c; digits_from (10 * acc + d) s
  end.
Definition digits (s : string) : option Z :=
  match s with EmptyString => None | _ => digits_from 0 s end.

Definition int64_min : Z := - 2 ^ 63.
Definition int64_max : Z := 2 ^ 63 - 1.
Definition in_int64 (z : Z) : bool := (int64_min <=? z) && (z <=? int64_max).

(** [strconv.ParseInt(s, 10, 64)]. *)
Definition ParseInt (s : string) : option Z :=
  z ← match s with
      | String c s' =>
          if decide (c = "-"%char) then z ← digits s'; Some (- z)
          else if decide (c = "+"%char) then digits s'
          else digits s
      | EmptyString => None
      end;
  if in_int64 z then Some z else None.

(** ** Printable text *)
Definition plain (c : ascii) : bool := (33 <=? byte_of c) && (byte_of c <=? 126).

Create HintDb gotext.
Create Rewrite HintDb gotext.

Lemma chars_text l : chars (text l) = l.
Proof. apply String.list_ascii_of_string_of_list_ascii. Qed.
Lemma text_chars s : text (chars s) = s.
Proof. apply String.string_of_list_ascii_of_string. Qed.

Lemma str_exists_chars p s : str_exists p s = existsb p (chars s).
Proof. induction s as [|a s IH]; simpl; [done|]. by rewrite IH. Qed.

Lemma str_forall_chars p s : str_forall p s = forallb p (chars s).
Proof.
  unfold str_forall. rewrite str_exists_chars.
  induction (chars s) as [|a l IH]; simpl; [done|].
  rewrite negb_orb, negb_involutive, IH. done.
Qed.

Lemma str_forall_app p s t : str_forall p (s +:+ t) = str_forall p s && str_forall p t.
Proof.
  rewrite !str_forall_chars. induction s as [|a s IH]; simpl; [done|].
  rewrite IH. by rewrite andb_assoc.
Qed.

Lemma str_forall_cons p a s : str_forall p (String a s) = p a && str_forall p s.
Proof. rewrite !str_forall_chars. done. Qed.

Lemma str_forall_impl (p q : ascii → bool) s :
  (∀ c, p c = true → q c = true) → str_forall p s = true → str_forall q s = true.
Proof.
  rewrite !str_forall_chars, !forallb_forall. eauto.
Qed.

(** A string of printable ASCII bytes is untouched by [TrimSpace]. *)
Lemma plain_space1 c : plain c = true → space1 c = false.
Proof. unfold plain, space1. lia. Qed.
Lemma plain_space2 c d : plain c = true → space2 c d = false.
Proof. unfold plain, space2. lia. Qed.
Lemma plain_space2_r c d : plain c = true → space2 d c = false.
Proof. unfold plain, space2. lia. Qed.
Lemma plain_space3 c d e : plain c = true → space3 c d e = false.
Proof. unfold plain, space3. lia. Qed.
Lemma plain_space3_r c d e : plain c = true → space3 d e c = false.
Proof. unfold plain, space3. lia. Qed.
#[export] Hint Rewrite plain_space1 plain_space2 plain_space2_r plain_space3 plain_space3_r
  using done : gotext.

Lemma trim_left_plain c l : plain c = true → trim_left (c :: l) = c :: l.
Proof.
  intros Hc. destruct l as [|c2 [|c3 l]]; cbn [trim_left]; autorewrite with gotext; done.
Qed.

Lemma trim_right_rev_plain c l : plain c = true → trim_right_rev (c :: l) = c :: l.
Proof.
  intros Hc. destruct l as [|c2 [|c3 l]]; cbn [trim_right_rev]; autorewrite with gotext; done.
Qed.

Lemma TrimSpace_plain s : str_forall plain s = true → TrimSpace s = s.
Proof.
  rewrite str_forall_chars, forallb_forall. intros H. unfold TrimSpace.
  assert (trim_left (chars s) = chars s) as ->.
  { destruct (chars s) as [|c l] eqn:E; [done|]. apply trim_left_plain, H. by left. }
  assert (trim_right_rev (rev (chars s)) = rev (chars s)) as ->.
  { destruct (rev (chars s)) as [|c l] eqn:E; [done|]. apply trim_right_rev_plain, H.
    apply in_rev. rewrite E. by left. }
  rewrite rev_involutive. apply text_chars.
Qed.

(** One step of either trim: nothing to remove, or one to three bytes. *)
Lemma trim_left_step l :
  trim_left l = l ∨ ∃ k l', k ≠ [] ∧ l = k ++ l' ∧ trim_left l = trim_left l' ∧ ∀ r, trim_left (l ++ r) = trim_left (l' ++ r).
Proof.
  destruct l as [|c1 [|c2 [|c3 l]]]; cbn [trim_left].
  - by left.
  - destruct (space1 c1) eqn:E1; [right; exists [c1], []; split_and!; try done; intros [|? [|??]]; cbn; by rewrite E1|by left].
  - destruct (space1 c1) eqn:E1; [right; exists [c1], [c2]; split_and!; try done; intros [|? ?]; cbn; by rewrite E1|].
    destruct (space2 c1 c2) eqn:E2; [right; exists [c1; c2], []; split_and!; try done; intros [|? ?]; cbn; by rewrite E1, E2|by left].
  - destruct (space1 c1) eqn:E1; [right; exists [c1], (c2 :: c3 :: l); split_and!; try done; intros ?; cbn; by rewrite E1|].
    destruct (space2 c1 c2) eqn:E2; [right; exists [c1; c2], (c3 :: l); split_and!; try done; intros ?; cbn; by rewrite E1, E2|].
    destruct (space3 c1 c2 c3) eqn:E3; [right; exists [c1; c2; c3], l; split_and!; try done; intros ?; cbn; by rewrite E1, E2, E3|by left].
Qed.
Lemma trim_right_rev_step l :
  trim_right_rev l = l ∨ ∃ k l', k ≠ [] ∧ l = k ++ l' ∧ trim_right_rev l = trim_right_rev l'.
Proof.
  destruct l as [|c1 [|c2 [|c3 l]]]; cbn [trim_right_rev].
  - by left.
  - destruct (space1 c1) eqn:E1; [right; by exists [c1], []|by left].
  - destruct (space1 c1) eqn:E1; [right; by exists [c1], [c2]|].
    destruct (space2 c2 c1) eqn:E2; [right; by exists [c1; c2], []|by left].
  - destruct (space1 c1) eqn:E1; [right; by exists [c1], (c2 :: c3 :: l)|].
    destruct (space2 c2 c1) eqn:E2; [right; by exists [c1; c2], (c3 :: l)|].
    destruct (space3 c3 c2 c1) eqn:E3; [right; by exists [c1; c2; c3], l|by left].
Qed.
Lemma trim_rest (f : list ascii → list ascii) :
  (∀ l, f l = l ∨ ∃ k l', k ≠ [] ∧ l = k ++ l' ∧ f l = f l') →
  ∀ l, (∃ k, l = k ++ f l) ∧ f (f l) = f l.
Proof.
  intros Hf.
  assert (∀ n l, length l ≤ n → (∃ k, l = k ++ f l) ∧ f (f l) = f l)%nat as H; [|eauto].
  intros n. induction n as [|n IH]; intros l Hn; destruct (Hf l) as [E|(k & l' & Hk & -> & E)].
  1, 3: rewrite !E; split; [by exists []|done].
  - destruct k; [done|cbn in Hn; lia].
  - rewrite E. destruct (IH l') as [(k' & Hk') Hi]; [rewrite length_app in Hn; destruct k; [done|cbn in Hn; lia]|].
    split; [|done]. exists (k ++ k'). by rewrite <- app_assoc, <- Hk'.
Qed.
Lemma trim_left_prefix l k : trim_left (l ++ k) = l ++ k → trim_left l = l.
Proof.
  intros H. destruct (trim_left_step l) as [E|(p & l' & Hp & -> & _ & E)]; [done|].
  rewrite E in H. destruct (trim_rest trim_left) with (l := l' ++ k) as [(q & Hq) _].
  { intros x. destruct (trim_left_step x) as [?|(? & ? & ? & ? & ? & _)]; [by left|right; eauto]. }
  rewrite H in Hq. apply (f_equal length) in Hq. rewrite !length_app in Hq. destruct p; [done|cbn in Hq; lia].
Qed.
Lemma TrimSpace_idem s : TrimSpace (TrimSpace s) = TrimSpace s.
Proof.
  unfold TrimSpace. rewrite chars_text. set (m := trim_left (chars s)).
  destruct (trim_rest trim_right_rev trim_right_rev_step (rev m)) as [(k & Hk) Hr].
  assert (trim_left m = m) as Hm.
  { apply (trim_rest trim_left). intros x. destruct (trim_left_step x) as [?|(? & ? & ? & ? & ? & _)]; [by left|right; eauto]. }
  assert (trim_left (rev (trim_right_rev (rev m))) = rev (trim_right_rev (rev m))) as ->.
  { apply (trim_left_prefix _ (rev k)). rewrite <- rev_app_distr, <- Hk, rev_involutive. done. }
  by rewrite rev_involutive, Hr.
Qed.

(** Bytes below 128 that are not capital letters are fixed by [ToLower]. *)
Definition lowered (c : ascii) : bool :=
  (byte_of c <? 128) && negb ((65 <=? byte_of c) && (byte_of c <=? 90)).

Lemma lower1_lowered c : lowered c = true → lower1 c = c.
Proof. unfold lowered, lower1. intros. case_match; [lia|done]. Qed.

Lemma lower_chars_lowered l : forallb lowered l = true → lower_chars l = l.
Proof.
  assert (∀ c, lowered c = true → (byte_of c =? 0xC4) = false ∧ (byte_of c =? 0xE2) = false)
    as Hx by (unfold lowered; intros; lia).
  induction l as [|c1 l IH]; [done|]. cbn [forallb]. intros [H1 H2]%andb_prop.
  specialize (IH H2). destruct (Hx _ H1) as [Ha Hb].
  destruct l as [|c2 [|c3 l]]; cbn [lower_chars]; rewrite ?Ha, ?Hb; cbn [andb];
    rewrite lower1_lowered by done; [done| |]; f_equal; exact IH.
Qed.

Lemma ToLower_lowered s : str_forall lowered s = true → ToLower s = s.
Proof.
  rewrite str_forall_chars. intros H. unfold ToLower.
  rewrite lower_chars_lowered by done. apply text_chars.
Qed.

(** ** Split and Join *)
Definition no_char (c : ascii) (s : string) : bool := str_forall (λ a, bool_decide (a ≠ c)) s.

Lemma no_char_app c s t : no_char c (s +:+ t) = no_char c s && no_char c t.
Proof. unfold no_char. apply str_forall_app. Qed.

Lemma Split_ne_nil s c : Split s c ≠ [].
Proof. destruct s; simpl; [done|]. repeat case_match; done. Qed.

Lemma Split_no_char c s : no_char c s = true → Split s c = [s].
Proof.
  unfold no_char. induction s as [|a s IH]; simpl; [done|].
  rewrite str_forall_cons. intros [H1%bool_decide_eq_true H2]%andb_prop.
  rewrite decide_False by done. by rewrite IH.
Qed.

Lemma Split_app c s t :
  no_char c s = true → Split (s +:+ String c t) c = s :: Split t c.
Proof.
  unfold no_char. induction s as [|a s IH]; simpl; intros H.
  - by rewrite decide_True.
  - rewrite str_forall_cons in H. apply andb_prop in H as [H1%bool_decide_eq_true H2].
    rewrite decide_False by done. by rewrite IH.
Qed.

Lemma Split_Join c l :
  l ≠ [] → Forall (λ s, no_char c s = true) l → Split (Join l (String c "")) c = l.
Proof.
  induction l as [|x l IH]; [done|]. intros _ [Hx Hl]%Forall_cons.
  destruct l as [|y l]; simpl; [by apply Split_no_char|].
  change (String c "" +:+ ?t) with (String c t).
  rewrite Split_app by done. f_equal. by apply IH.
Qed.

Lemma str_app_cons a (s t : string) : String a s +:+ t = String a (s +:+ t).
Proof. done. Qed.
Lemma str_app_nil_l (t : string) : "" +:+ t = t.
Proof. done. Qed.
Lemma str_app_nil_r (s : string) : s +:+ "" = s.
Proof. induction s as [|a s IH]; [done|]. by rewrite str_app_cons, IH. Qed.
Lemma str_app_assoc (s t u : string) : (s +:+ t) +:+ u = s +:+ (t +:+ u).
Proof. induction s as [|a s IH]; [done|]. by rewrite !str_app_cons, IH. Qed.
#[export] Hint Rewrite str_app_cons str_app_nil_l str_app_nil_r str_app_assoc : gotext.

(** [CutPrefix] inverts prefixing. *)
Lemma CutPrefix_app p s : CutPrefix (p +:+ s) p = Some s.
Proof.
  induction p as [|a p IH]; [done|]. rewrite str_app_cons. cbn [CutPrefix].
  case_decide; [exact IH|done].
Qed.

Lemma CutPrefix_Some s p r : CutPrefix s p = Some r ↔ s = p +:+ r.
Proof.
  split; [|intros ->; apply CutPrefix_app].
  revert s. induction p as [|a p IH]; intros s; simpl; [by intros [= ->]|].
  destruct s as [|b s]; [done|]. case_decide; [|done]. subst. intros H. by rewrite (IH s).
Qed.

Lemma str_app_inj_l (p s t : string) : p +:+ s = p +:+ t → s = t.
Proof. induction p as [|a p IH]; simpl; [done|]. intros [=]; auto. Qed.

(** ** Order *)
Lemma str_compare_refl s : String.compare s s = Eq.
Proof.
  induction s as [|a s IH]; simpl; [done|]. unfold Ascii.compare. by rewrite N.compare_refl.
Qed.

Lemma str_lt_irrefl s : str_lt s s = false.
Proof. unfold str_lt. by rewrite str_compare_refl. Qed.

Lemma str_lt_antisym a b : str_lt a b = true → str_lt b a = false.
Proof.
  unfold str_lt. rewrite (String.compare_antisym b a). by destruct (String.compare a b).
Qed.

Lemma str_lt_total a b : str_lt a b = false → str_lt b a = false → a = b.
Proof.
  unfold str_lt. rewrite (String.compare_antisym b a).
  destruct (String.compare a b) eqn:E; simpl; try done.
  intros _ _. by apply String.compare_eq_iff in E.
Qed.

Lemma str_compare_cons a s b t :
  String.compare (String a s) (String b t) =
  match Z.compare (byte_of a) (byte_of b) with Eq => String.compare s t | c => c end.
Proof. unfold byte_of. simpl. unfold Ascii.compare. by rewrite N2Z.inj_compare. Qed.

Lemma str_lt_cons a s b t :
  str_lt (String a s) (String b t) =
  (byte_of a <? byte_of b) || ((byte_of a =? byte_of b) && str_lt s t).
Proof.
  unfold str_lt. rewrite str_compare_cons.
  destruct (Z.compare_spec (byte_of a) (byte_of b)) as [Hab|Hab|Hab].
  - rewrite Hab, Z.ltb_irrefl, Z.eqb_refl. done.
  - rewrite (proj2 (Z.ltb_lt _ _)) by done. done.
  - rewrite (proj2 (Z.ltb_ge _ _)), (proj2 (Z.eqb_neq _ _)) by lia. done.
Qed.

Lemma str_lt_trans a b c : str_lt a b = true → str_lt b c = true → str_lt a c = true.
Proof.
  revert b c. induction a as [|x a IH]; intros [|y b] [|z c]; try done.
  rewrite !str_lt_cons. intros H1 H2.
  destruct (byte_of x <? byte_of y) eqn:E1, (byte_of y <? byte_of z) eqn:E2; simpl in *.
  all: repeat match goal with H : _ && _ = true |- _ => apply andb_prop in H as [? ?] end.
  all: apply orb_true_iff; try (left; lia).
  right. apply andb_true_intro. split; [lia|]. eauto.
Qed.
