(* ===== verification/TimeText.v ===== *)
(** * Timestamps as text

    The store keeps every instant as text in one fixed-width layout and lets
    SQLite compare the texts.  This file models [time.Time.Format] and
    [time.Parse] for that layout ([timeFormat] of internal/store/store.go), on
    instants given as nanoseconds since the Unix epoch, and shows that the
    comparison of texts is the comparison of instants (at the millisecond) and
    that parsing inverts formatting. *)
From S2P Require Import Prelude GoText.
From Stdlib Require Import Ascii.

(** ** Durations, in nanoseconds *)
Definition Millisecond : Z := 1000000.
Definition Second : Z := 1000 * Millisecond.
Definition Minute : Z := 60 * Second.
Definition Hour : Z := 60 * Minute.

(** ** The proleptic Gregorian calendar

    Day numbers count from 1970-01-01.  A date is found as [time.Time] finds
    it: whole cycles of 400, 100, 4 and 1 years, then the day of the year. *)
Definition leap (y : Z) : bool := (y mod 4 =? 0) && (negb (y mod 100 =? 0) || (y mod 400 =? 0)).
Definition year_len (y : Z) : Z := if leap y then 366 else 365.

(** Days before January 1st of year [y], counted from 0001-01-01. *)
Definition year_start (y : Z) : Z := 365 * (y - 1) + (y - 1) / 4 - (y - 1) / 100 + (y - 1) / 400.

Definition year_yday (n : Z) : Z * Z :=
  let n400 := n / 146097 in
  let r := n mod 146097 in
  let n100 := Z.min (r / 36524) 3 in
  let r := r - 36524 * n100 in
  let n4 := r / 1461 in
  let r := r mod 1461 in
  let n1 := Z.min (r / 365) 3 in
  (400 * n400 + 100 * n100 + 4 * n4 + n1 + 1, r - 365 * n1).

Definition month_len (lp : bool) (m : Z) : Z :=
  if m =? 2 then (if lp then 29 else 28)
  else if (m =? 4) || (m =? 6) || (m =? 9) || (m =? 11) then 30 else 31.

(** Month and day of the [yd]-th day (from 0), scanning from month [m]. *)
Fixpoint month_day (fuel : nat) (lp : bool) (m yd : Z) : Z * Z :=
  match fuel with
  | O => (m, yd + 1)
  | S fuel =>
      if yd <? month_len lp m then (m, yd + 1)
      else month_day fuel lp (m + 1) (yd - month_len lp m)
  end.
Fixpoint month_start (lp : bool) (k : nat) : Z :=
  match k with
  | O => 0
  | S k => month_start lp k + month_len lp (Z.of_nat k + 1)
  end.

Definition civil_from_days (z : Z) : Z * Z * Z :=
  let '(y, yd) := year_yday (z + 719162) in
  let '(m, d) := month_day 11 (leap y) 1 yd in
  (y, m, d).
Definition days_from_civil (y m d : Z) : Z :=
  year_start y + month_start (leap y) (Z.to_nat (m - 1)) + (d - 1) - 719162.

(** ** Fixed-width numbers *)
Fixpoint pad (k : nat) (n : Z) (rest : string) : string :=
  match k with
  | O => rest
  | S k => pad k (n / 10) (String (chr (48 + n mod 10)) rest)
  end.

Fixpoint take_num (k : nat) (acc : Z) (s : string) : option (Z * string) :=
  match k with
  | O => Some (acc, s)
  | S k => match s with
           | String c s => d ← digit c; take_num k (10 * acc + d) s
           | EmptyString => None
           end
  end.

Definition expect (c : ascii) (s : string) : option string :=
  match s with
  | String a s => if decide (a = c) then Some s else None
  | EmptyString => None
  end.

(** ["2006-01-02T15:04:05.000Z"] *)
Definition fmt_clock (r : Z) : string :=
  pad 2 (r / 3600000) (String ":" (pad 2 (r / 60000 mod 60) (String ":"
    (pad 2 (r / 1000 mod 60) (String "." (pad 3 (r mod 1000) (String "Z" ""))))))).
Definition fmt_date (c : Z * Z * Z) (rest : string) : string :=
  let '(y, m, d) := c in
  pad 4 y (String "-" (pad 2 m (String "-" (pad 2 d (String "T" rest))))).
Definition fmt_time (ns : Z) : string :=
  let t := ns / Millisecond in
  fmt_date (civil_from_days (t / 86400000)) (fmt_clock (t mod 86400000)).

Definition parse_time (s : string) : option Z :=
  '(y, s) ← take_num 4 0 s; s ← expect "-" s;
  '(m, s) ← take_num 2 0 s; s ← expect "-" s;
  '(d, s) ← take_num 2 0 s; s ← expect "T" s;
  '(h, s) ← take_num 2 0 s; s ← expect ":" s;
  '(mi, s) ← take_num 2 0 s; s ← expect ":" s;
  '(sec, s) ← take_num 2 0 s; s ← expect "." s;
  '(ms, s) ← take_num 3 0 s; s ← expect "Z" s;
  if (1 <=? m) && (m <=? 12) && (1 <=? d) && (d <=? month_len (leap y) m)
     && (h <? 24) && (mi <? 60) && (sec <? 60) && bool_decide (s = "")
  then Some (Millisecond * (86400000 * days_from_civil y m d
                            + 3600000 * h + 60000 * mi + 1000 * sec + ms))
  else None.

(** Years 0000 to 9999, the range of the layout. *)
Definition four_digit_year (ns : Z) : bool :=
  (-62167219200000 <=? ns / Millisecond) && (ns / Millisecond <? 253402300800000).

(** ** Fixed-width numbers: order and round trip *)
Lemma byte_of_chr z : 0 ≤ z < 256 → byte_of (chr z) = z.
Proof.
  intros. unfold byte_of, chr. rewrite N_ascii_embedding by lia. lia.
Qed.

Lemma div10_bound n P : 0 ≤ n < 10 * P → 0 ≤ n / 10 < P.
Proof. lia. Qed.

Lemma str_lt_pad k m n s t :
  0 ≤ m < 10 ^ Z.of_nat k → 0 ≤ n < 10 ^ Z.of_nat k →
  str_lt (pad k m s) (pad k n t) = (m <? n) || ((m =? n) && str_lt s t).
Proof.
  revert m n s t. induction k as [|k IH]; intros m n s t Hm Hn.
  - change (10 ^ Z.of_nat 0) with 1 in *. cbn [pad].
    replace m with 0 by lia. replace n with 0 by lia. done.
  - rewrite Nat2Z.inj_succ, Z.pow_succ_r in Hm, Hn by lia. cbn [pad].
    rewrite IH by (by apply div10_bound).
    rewrite str_lt_cons, !byte_of_chr by lia.
    destruct (m <? n) eqn:E1, (m / 10 <? n / 10) eqn:E2, (m / 10 =? n / 10) eqn:E3,
      (48 + m mod 10 <? 48 + n mod 10) eqn:E4, (48 + m mod 10 =? 48 + n mod 10) eqn:E5,
      (m =? n) eqn:E6; simpl; try done; lia.
Qed.

Lemma str_lt_same c s t : str_lt (String c s) (String c t) = str_lt s t.
Proof. rewrite str_lt_cons, Z.ltb_irrefl, Z.eqb_refl. done. Qed.

Lemma digit_chr d : 0 ≤ d < 10 → digit (chr (48 + d)) = Some d.
Proof.
  intros. unfold digit. rewrite byte_of_chr by lia.
  destruct (_ && _) eqn:E; [f_equal|]; lia.
Qed.

Lemma take_num_S k acc s :
  take_num (S k) acc s =
  ('(a, s') ← take_num k acc s;
   match s' with String c s'' => d ← digit c; Some (10 * a + d, s'') | EmptyString => None end).
Proof.
  revert acc s. induction k as [|k IH]; intros acc s; [done|].
  change (take_num (S (S k)) acc s) with
    (match s with
     | String c s => d ← digit c; take_num (S k) (10 * acc + d) s | EmptyString => None end).
  destruct s as [|c s]; [done|]. simpl. destruct (digit c); [|done]. simpl. apply IH.
Qed.

Lemma take_num_pad k n s :
  0 ≤ n < 10 ^ Z.of_nat k → take_num k 0 (pad k n s) = Some (n, s).
Proof.
  revert n s. induction k as [|k IH]; intros n s Hn.
  - change (10 ^ Z.of_nat 0) with 1 in Hn. simpl. do 2 f_equal. lia.
  - rewrite Nat2Z.inj_succ, Z.pow_succ_r in Hn by lia.
    rewrite take_num_S. cbn [pad].
    rewrite IH by (by apply div10_bound). simpl.
    rewrite digit_chr by lia. simpl. do 2 f_equal. lia.
Qed.

Lemma expect_same c s : expect c (String c s) = Some s.
Proof. unfold expect. by rewrite decide_True. Qed.

(** ** The calendar *)
#[local] Arguments month_day : simpl never.
#[local] Arguments year_yday : simpl never.
#[local] Arguments civil_from_days : simpl never.
Lemma year_yday_spec n :
  let '(y, yd) := year_yday n in n = year_start y + yd ∧ 0 ≤ yd < year_len y.
Proof.
  unfold year_yday, year_start, year_len, leap.
  set (n400 := n / 146097). set (r := n mod 146097).
  assert (Hr : 0 ≤ r < 146097) by (subst r; lia).
  assert (Hn : n = 146097 * n400 + r) by (subst n400 r; lia).
  clearbody n400 r. subst n.
  set (n100 := Z.min (r / 36524) 3). set (q := r - 36524 * n100).
  assert (Hq : 0 ≤ n100 ≤ 3 ∧ 0 ≤ q ∧ q ≤ 36524 ∧ (n100 < 3 → q < 36524)) by lia.
  assert (Hr' : r = 36524 * n100 + q) by lia. clearbody n100 q. subst r.
  set (n4 := q / 1461). set (p := q mod 1461).
  assert (Hp : 0 ≤ p < 1461 ∧ q = 1461 * n4 + p) by (subst p n4; lia).
  clearbody n4 p. destruct Hp as [Hp ->].
  set (n1 := Z.min (p / 365) 3). set (w := p - 365 * n1).
  assert (Hw : 0 ≤ n1 ≤ 3 ∧ 0 ≤ w ∧ w ≤ 365 ∧ (n1 < 3 → w < 365) ∧ p = 365 * n1 + w) by lia.
  clearbody n1 w. destruct Hw as (H1 & H2 & H3 & H4 & ->).
  split; [lia|].
  assert (0 ≤ n4 ≤ 24) by lia.
  destruct (decide (n1 = 3)) as [->|]; [|case_match; lia].
  assert ((400 * n400 + 100 * n100 + 4 * n4 + 3 + 1) mod 4 = 0) as -> by lia.
  destruct (decide (n4 = 24)) as [->|].
  - replace ((400 * n400 + 100 * n100 + 4 * 24 + 3 + 1) mod 100) with 0 by lia.
    destruct (decide (n100 = 3)) as [->|]; [|case_match; lia].
    replace ((400 * n400 + 100 * 3 + 4 * 24 + 3 + 1) mod 400) with 0 by lia. simpl. lia.
  - replace ((400 * n400 + 100 * n100 + 4 * n4 + 3 + 1) mod 100) with (4 * n4 + 4)
      by (apply (Z.mod_unique _ _ (4 * n400 + n100)); lia).
    destruct (4 * n4 + 4 =? 0) eqn:E; simpl; lia.
Qed.

Lemma year_start_succ y : year_start (y + 1) = year_start y + year_len y.
Proof.
  unfold year_start, year_len, leap. replace (y + 1 - 1) with y by lia.
  destruct (y mod 4 =? 0) eqn:E4, (y mod 100 =? 0) eqn:E100, (y mod 400 =? 0) eqn:E400;
    simpl; lia.
Qed.

Lemma year_start_mono y1 y2 : y1 < y2 → year_start y1 + year_len y1 ≤ year_start y2.
Proof.
  rewrite <- year_start_succ. unfold year_start. intros. lia.
Qed.

Lemma year_yday_mono n1 n2 :
  n1 < n2 →
  (year_yday n1).1 < (year_yday n2).1 ∨
  (year_yday n1).1 = (year_yday n2).1 ∧ (year_yday n1).2 < (year_yday n2).2.
Proof.
  intros Hn. pose proof (year_yday_spec n1) as H1. pose proof (year_yday_spec n2) as H2.
  destruct (year_yday n1) as [y1 d1], (year_yday n2) as [y2 d2]. simpl.
  destruct (Z.lt_trichotomy y1 y2) as [?|[->|Hlt]]; [by left|right; lia|].
  apply year_start_mono in Hlt. lia.
Qed.

(** Facts of one year, checked day by day for both year lengths. *)
Fixpoint all_from (n : nat) (z : Z) (p : Z → bool) : bool :=
  match n with O => true | S n => p z && all_from n (z + 1) p end.

Lemma all_from_spec n z p :
  all_from n z p = true → ∀ x, z ≤ x < z + Z.of_nat n → p x = true.
Proof.
  revert z. induction n as [|n IH]; intros z; [lia|].
  cbn [all_from]. intros [H1 H2]%andb_prop x Hx.
  destruct (Z.eq_dec x z) as [->|Hne]; [done|]. apply (IH _ H2). lia.
Qed.

Definition yday_ok (lp : bool) (yd : Z) : bool :=
  let '(m, d) := month_day 11 lp 1 yd in
  let '(m', d') := month_day 11 lp 1 (yd + 1) in
  (1 <=? m) && (m <=? 12) && (1 <=? d) && (d <=? 31)
  && ((yd =? (if lp then 365 else 364)) || (31 * m + d <? 31 * m' + d'))
  && (d <=? month_len lp m) && (month_start lp (Z.to_nat (m - 1)) + (d - 1) =? yd).

Lemma yday_ok_all (lp : bool) yd : 0 ≤ yd < (if lp then 366 else 365) → yday_ok lp yd = true.
Proof.
  intros H. destruct lp.
  - apply (all_from_spec 366 0); [by vm_compute|lia].
  - apply (all_from_spec 365 0); [by vm_compute|lia].
Qed.

Lemma month_day_mono (lp : bool) n1 n2 :
  0 ≤ n1 → n1 < n2 < (if lp then 366 else 365) →
  31 * (month_day 11 lp 1 n1).1 + (month_day 11 lp 1 n1).2 <
  31 * (month_day 11 lp 1 n2).1 + (month_day 11 lp 1 n2).2.
Proof.
  intros H1 H2. assert (∃ k, Z.to_nat (n2 - n1 - 1) = k) as [k Ek] by eauto.
  revert n1 H1 H2 Ek. induction k as [|k IH]; intros n1 H1 H2 Ek.
  - replace n2 with (n1 + 1) in * by lia.
    assert (Hok : yday_ok lp n1 = true) by (apply yday_ok_all; lia).
    unfold yday_ok in Hok. destruct (month_day 11 lp 1 n1), (month_day 11 lp 1 (n1 + 1)).
    simpl. destruct lp; lia.
  - specialize (IH (n1 + 1) ltac:(lia) ltac:(lia) ltac:(lia)).
    assert (Hok : yday_ok lp n1 = true) by (apply yday_ok_all; lia).
    unfold yday_ok in Hok. destruct (month_day 11 lp 1 n1), (month_day 11 lp 1 (n1 + 1)).
    simpl in *. destruct lp; lia.
Qed.

Lemma civil_bounds z :
  let '(y, m, d) := civil_from_days z in
  1 ≤ m ≤ 12 ∧ 1 ≤ d ≤ 31 ∧ d ≤ month_len (leap y) m ∧ days_from_civil y m d = z.
Proof.
  unfold civil_from_days. pose proof (year_yday_spec (z + 719162)) as H.
  destruct (year_yday (z + 719162)) as [y yd]. destruct H as [Hz Hyd].
  assert (Hok : yday_ok (leap y) yd = true) by (apply yday_ok_all; done).
  unfold yday_ok in Hok. unfold days_from_civil.
  destruct (month_day 11 (leap y) 1 yd), (month_day 11 (leap y) 1 (yd + 1)). lia.
Qed.

(** A day later is a date later. *)
Lemma civil_mono z1 z2 :
  z1 < z2 →
  let '(y1, m1, d1) := civil_from_days z1 in
  let '(y2, m2, d2) := civil_from_days z2 in
  y1 < y2 ∨ y1 = y2 ∧ (m1 < m2 ∨ m1 = m2 ∧ d1 < d2).
Proof.
  intros Hz. pose proof (civil_bounds z1) as B1. pose proof (civil_bounds z2) as B2.
  unfold civil_from_days in *.
  pose proof (year_yday_mono (z1 + 719162) (z2 + 719162) ltac:(lia)) as Hm.
  pose proof (year_yday_spec (z1 + 719162)) as S1. pose proof (year_yday_spec (z2 + 719162)) as S2.
  destruct (year_yday (z1 + 719162)) as [y1 yd1], (year_yday (z2 + 719162)) as [y2 yd2].
  simpl in *. destruct Hm as [Hlt|[-> Hlt]].
  - destruct (month_day 11 (leap y1) 1 yd1), (month_day 11 (leap y2) 1 yd2). by left.
  - unfold year_len in S2. destruct S1 as [_ S1], S2 as [_ S2].
    pose proof (month_day_mono (leap y2) yd1 yd2 ltac:(lia) ltac:(lia)) as Hd.
    destruct (month_day 11 (leap y2) 1 yd1), (month_day 11 (leap y2) 1 yd2).
    simpl in *. right. lia.
Qed.

Lemma year_range t :
  -62167219200000 ≤ t < 253402300800000 →
  0 ≤ (civil_from_days (t / 86400000)).1.1 < 10000.
Proof.
  intros Ht. unfold civil_from_days.
  pose proof (year_yday_spec (t / 86400000 + 719162)) as H.
  destruct (year_yday (t / 86400000 + 719162)) as [y yd]. destruct H as [H1 H2].
  destruct (month_day 11 (leap y) 1 yd). simpl.
  assert (year_start 0 = -366 ∧ year_start 9999 + year_len 9999 = 3652059) as [Y0 Y9] by done.
  split.
  - destruct (Z.le_gt_cases 0 y) as [|Hy]; [done|].
    apply year_start_mono in Hy. lia.
  - destruct (Z.le_gt_cases 10000 y) as [Hy|]; [|done].
    pose proof (year_start_mono 9999 y ltac:(lia)). lia.
Qed.

(** ** Order and round trip of the texts *)
#[local] Arguments pad : simpl never.
#[local] Arguments take_num : simpl never.

Ltac text_lt := repeat first [rewrite str_lt_same | rewrite str_lt_pad by lia].

Lemma fmt_clock_lt r1 r2 :
  0 ≤ r1 < 86400000 → 0 ≤ r2 < 86400000 →
  str_lt (fmt_clock r1) (fmt_clock r2) = (r1 <? r2).
Proof.
  intros H1 H2. unfold fmt_clock. text_lt. rewrite str_lt_irrefl.
  destruct (Z.lt_trichotomy r1 r2) as [Hlt|[->|Hlt]].
  - rewrite (proj2 (Z.ltb_lt r1 r2)) by done. lia.
  - rewrite !Z.ltb_irrefl. lia.
  - rewrite (proj2 (Z.ltb_ge r1 r2)) by lia. lia.
Qed.

Lemma fmt_date_lt z1 z2 s t :
  0 ≤ (civil_from_days z1).1.1 < 10000 → 0 ≤ (civil_from_days z2).1.1 < 10000 →
  str_lt (fmt_date (civil_from_days z1) s) (fmt_date (civil_from_days z2) t) =
  (z1 <? z2) || ((z1 =? z2) && str_lt s t).
Proof.
  pose proof (civil_bounds z1) as B1. pose proof (civil_bounds z2) as B2.
  pose proof (civil_mono z1 z2) as M12. pose proof (civil_mono z2 z1) as M21.
  assert (E : z1 = z2 → civil_from_days z1 = civil_from_days z2) by (by intros ->).
  destruct (civil_from_days z1) as [[y1 m1] d1], (civil_from_days z2) as [[y2 m2] d2].
  simpl. intros Y1 Y2. text_lt.
  destruct (Z.lt_trichotomy z1 z2) as [Hlt|[Heq|Hlt]].
  - specialize (M12 Hlt). clear M21 E. destruct (str_lt s t); lia.
  - specialize (E Heq). simplify_eq. rewrite !Z.ltb_irrefl, !Z.eqb_refl. done.
  - specialize (M21 Hlt). clear M12 E. destruct (str_lt s t); lia.
Qed.

Lemma fmt_time_lt a b :
  four_digit_year a = true → four_digit_year b = true →
  str_lt (fmt_time a) (fmt_time b) = (a / Millisecond <? b / Millisecond).
Proof.
  unfold four_digit_year, fmt_time.
  generalize (a / Millisecond) as t1, (b / Millisecond) as t2. intros t2 t1 H1 H2.
  rewrite fmt_date_lt, fmt_clock_lt by (lia || (apply year_range; lia)). lia.
Qed.

Lemma parse_fmt_time ns :
  four_digit_year ns = true → parse_time (fmt_time ns) = Some (Millisecond * (ns / Millisecond)).
Proof.
  unfold four_digit_year, fmt_time, parse_time.
  generalize (ns / Millisecond) as t. intros t Ht.
  pose proof (year_range t ltac:(lia)) as Y. pose proof (civil_bounds (t / 86400000)) as B.
  destruct (civil_from_days (t / 86400000)) as [[y m] d]. simpl in Y. unfold fmt_date, fmt_clock.
  repeat first [rewrite take_num_pad by lia | rewrite expect_same | rewrite bind_Some].
  rewrite bool_decide_eq_true_2 by done. destruct B as (Hm & Hd & Hl & ->).
  case_match; [do 2 f_equal|]; lia.
Qed.
