(* ===== verification/NetAddr.v ===== *)
(** * IP addresses and prefixes

    What the sources use of [net/netip]: addresses of both families with their
    textual form, prefixes, [Masked], [Contains], [Next].  An address is its
    number; an IPv6 address carries its zone, [""] when it has none; the zero
    [Addr] is [NoAddr]. *)
From S2P Require Import Prelude GoText.
From Stdlib Require Import Ascii.

Inductive Addr : Type :=
| NoAddr
| V4 (z : Z)
| V6 (z : Z) (zone : string).

#[export] Instance Addr_eq_dec : EqDecision Addr.
Proof. solve_decision. Defined.

Definition Is4 (a : Addr) : bool := match a with V4 _ => true | _ => false end.
Definition Is6 (a : Addr) : bool := match a with V6 _ _ => true | _ => false end.
Definition addr_valid (a : Addr) : bool := match a with NoAddr => false | _ => true end.
Definition addr_width (a : Addr) : Z := match a with NoAddr => 0 | V4 _ => 32 | V6 _ _ => 128 end.
Definition addr_num (a : Addr) : Z := match a with NoAddr => 0 | V4 z => z | V6 z _ => z end.
Definition addr_zone (a : Addr) : string := match a with V6 _ zn => zn | _ => "" end.

(** The numbers that exist at the address's width. *)
Definition addr_wf (a : Addr) : bool := (0 <=? addr_num a) && (addr_num a <? 2 ^ addr_width a).

(** [Addr.Next]: the zero [Addr] after the last address. *)
Definition Next (a : Addr) : Addr :=
  match a with
  | NoAddr => NoAddr
  | V4 z => if z + 1 =? 2 ^ 32 then NoAddr else V4 (z + 1)
  | V6 z zn => if z + 1 =? 2 ^ 128 then NoAddr else V6 (z + 1) zn
  end.

(** ** Prefixes *)
Record Prefix : Type := mkPrefix { paddr : Addr; pbits : Z }.

#[export] Instance Prefix_eq_dec : EqDecision Prefix.
Proof. solve_decision. Defined.

(** The zero [Prefix] is invalid; a valid one has an address and a length
    within the address's width. *)
Definition no_prefix : Prefix := mkPrefix NoAddr (-1).
Definition prefix_valid (p : Prefix) : bool :=
  addr_valid (paddr p) && (0 <=? pbits p) && (pbits p <=? addr_width (paddr p)).

Definition host_span (p : Prefix) : Z := 2 ^ (addr_width (paddr p) - pbits p).

Definition mask_addr (a : Addr) (span : Z) : Addr :=
  match a with
  | NoAddr => NoAddr
  | V4 z => V4 (z / span * span)
  | V6 z _ => V6 (z / span * span) ""
  end.
Definition Masked (p : Prefix) : Prefix :=
  if prefix_valid p then mkPrefix (mask_addr (paddr p) (host_span p)) (pbits p) else no_prefix.

(** [Prefix.Contains]: families must agree, and an address with a zone is in no
    prefix. *)
Definition Contains (p : Prefix) (a : Addr) : bool :=
  prefix_valid p && bool_decide (addr_zone a = "") &&
  match paddr p, a with
  | V4 x, V4 y => x / host_span p =? y / host_span p
  | V6 x _, V6 y _ => x / host_span p =? y / host_span p
  | _, _ => false
  end.

(** ** Text *)
Definition hex_char (d : Z) : ascii := chr (if d <? 10 then 48 + d else 87 + d).
Definition hex_val (c : ascii) : option Z :=
  let b := byte_of c in
  if (48 <=? b) && (b <=? 57) then Some (b - 48)
  else if (97 <=? b) && (b <=? 102) then Some (b - 87)
  else if (65 <=? b) && (b <=? 70) then Some (b - 55) else None.

(** An octet in decimal and a 16-bit group in hexadecimal, before [rest]. *)
Definition dec8 (n : Z) (rest : string) : string :=
  let d x := chr (48 + x mod 10) in
  if n <? 10 then String (d n) rest
  else if n <? 100 then String (d (n / 10)) (String (d n) rest)
  else String (d (n / 100)) (String (d (n / 10)) (String (d n) rest)).
Definition hex16 (n : Z) (rest : string) : string :=
  let d x := hex_char (x mod 16) in
  if n <? 16 then String (d n) rest
  else if n <? 256 then String (d (n / 16)) (String (d n) rest)
  else if n <? 4096 then String (d (n / 256)) (String (d (n / 16)) (String (d n) rest))
  else String (d (n / 4096)) (String (d (n / 256)) (String (d (n / 16)) (String (d n) rest))).

Definition string4 (z : Z) : string :=
  dec8 (z / 2 ^ 24 mod 256) (String "." (dec8 (z / 2 ^ 16 mod 256) (String "."
    (dec8 (z / 2 ^ 8 mod 256) (String "." (dec8 (z mod 256) "")))))).

Definition groups (z : Z) : list Z :=
  (λ i, z / 2 ^ (16 * i) mod 65536) <$> [7; 6; 5; 4; 3; 2; 1; 0].
Definition ungroups (l : list Z) : Z := foldl (λ acc g, 65536 * acc + g) 0 l.

Fixpoint zero_run (l : list Z) : nat :=
  match l with x :: l => if x =? 0 then S (zero_run l) else O | [] => O end.
(** The first longest run of at least two zero groups: its start and length. *)
Fixpoint longest_run (i : nat) (l : list Z) (best : nat * nat) : nat * nat :=
  match l with
  | [] => best
  | _ :: l' =>
      let n := zero_run l in
      longest_run (S i) l' (if (2 <=? n)%nat && (best.2 <? n)%nat then (i, n) else best)
  end.

Fixpoint put_groups (l : list Z) (rest : string) : string :=
  match l with
  | [] => rest
  | [g] => hex16 g rest
  | g :: l => hex16 g (String ":" (put_groups l rest))
  end.
Definition string6 (z : Z) : string :=
  let gs := groups z in
  let '(start, len) := longest_run 0 gs (O, O) in
  if (len =? 0)%nat then put_groups gs ""
  else put_groups (take start gs) (String ":" (String ":" (put_groups (drop (start + len) gs) ""))).

Definition Is4In6 (z : Z) : bool := z / 2 ^ 32 =? 0xFFFF.

Definition addr_string (a : Addr) : string :=
  match a with
  | NoAddr => "invalid IP"
  | V4 z => string4 z
  | V6 z zone =>
      let body := if Is4In6 z then "::ffff:" +:+ string4 (z mod 2 ^ 32) else string6 z in
      if decide (zone = "") then body else body +:+ String "%" zone
  end.

Definition prefix_string (p : Prefix) : string :=
  if prefix_valid p then addr_string (paddr p) +:+ String "/" (Itoa (pbits p))
  else "invalid Prefix".

(** ** Parsing *)

(** [strings.IndexByte]: the text before and after the first [c]. *)
Fixpoint cut (c : ascii) (s : string) : option (string * string) :=
  match s with
  | EmptyString => None
  | String a s =>
      if decide (a = c) then Some ("", s)
      else '(x, y) ← cut c s; Some (String a x, y)
  end.

Definition parse_octet (s : string) : option Z :=
  match s with
  | String c (String _ _) => if decide (c = "0"%char) then None else
      z ← digits s; if z <=? 255 then Some z else None
  | _ => digits s
  end.
Definition parse4 (s : string) : option Z :=
  match Split s "." with
  | [a; b; c; d] =>
      a ← parse_octet a; b ← parse_octet b; c ← parse_octet c; d ← parse_octet d;
      Some (((a * 256 + b) * 256 + c) * 256 + d)
  | _ => None
  end.

(** One hexadecimal field: its value, how many digits it has, and the rest; at
    most four digits. *)
Fixpoint read_hex (n : nat) (off : nat) (acc : Z) (s : string) {struct s}
  : option (Z * nat * string) :=
  match s with
  | EmptyString => Some (acc, off, s)
  | String c s' =>
      match hex_val c with
      | None => Some (acc, off, s)
      | Some d => match n with
                  | O => None
                  | S n => read_hex n (S off) (16 * acc + d) s'
                  end
      end
  end.

(** The loop of [parseIPv6]: [n] groups are still to come, [acc] are the ones
    read, [ell] is where the ["::"] was met. *)
Fixpoint parse6_loop (n : nat) (acc : list Z) (ell : option nat) (s : string)
  : option (list Z * option nat) :=
  match n with
  | O => if decide (s = "") then Some (acc, ell) else None
  | S n =>
      '(v, off, s') ← read_hex 4 0 0 s;
      if (off =? 0)%nat then None else
      match s' with
      | EmptyString => Some (acc ++ [v], ell)
      | String c s'' =>
          if decide (c = "."%char) then
            if (bool_decide (ell = None) && negb (length acc =? 6)%nat) || (n =? 0)%nat then None
            else z ← parse4 s; Some (acc ++ [z / 65536; z mod 65536], ell)
          else if decide (c = ":"%char) then
            match s'' with
            | EmptyString => None
            | String d s''' =>
                if decide (d = ":"%char) then
                  match ell with
                  | Some _ => None
                  | None =>
                      if decide (s''' = "") then Some (acc ++ [v], Some (length (acc ++ [v])))
                      else parse6_loop n (acc ++ [v]) (Some (length (acc ++ [v]))) s'''
                  end
                else parse6_loop n (acc ++ [v]) ell s''
            end
          else None
      end
  end.

Definition expand6 (r : list Z * option nat) : option Z :=
  let '(l, ell) := r in
  if (length l <? 8)%nat then
    match ell with
    | None => None
    | Some e => Some (ungroups (take e l ++ replicate (8 - length l) 0 ++ drop e l))
    end
  else match ell with None => Some (ungroups l) | Some _ => None end.

Definition parse6 (s : string) : option Z :=
  match CutPrefix s "::" with
  | Some r => if decide (r = "") then Some 0
              else parse6_loop 8 [] (Some O) r ≫= expand6
  | None => parse6_loop 8 [] None s ≫= expand6
  end.

(** The first of ['.'], [':'] and ['%'] decides the family. *)
Fixpoint first_mark (s : string) : option ascii :=
  match s with
  | EmptyString => None
  | String c s =>
      if decide (c = "."%char ∨ c = ":"%char ∨ c = "%"%char) then Some c else first_mark s
  end.

Definition ParseAddr (s : string) : option Addr :=
  match first_mark s with
  | Some c =>
      if decide (c = "."%char) then z ← parse4 s; Some (V4 z)
      else if decide (c = ":"%char) then
        match cut "%" s with
        | None => z ← parse6 s; Some (V6 z "")
        | Some (body, zone) =>
            if decide (zone = "") then None else z ← parse6 body; Some (V6 z zone)
        end
      else None
  | None => None
  end.

(** [netip.ParsePrefix]: no zone, and a length with neither sign nor leading
    zero. *)
Definition parse_bits (s : string) : option Z :=
  match s with
  | String c (String _ _) => if decide (c = "0"%char) then None else digits s
  | _ => digits s
  end.
Definition ParsePrefix (s : string) : option Prefix :=
  '(x, y) ← cut "/" (text (rev (chars s)));
  a ← ParseAddr (text (rev (chars y)));
  if decide (addr_zone a = "") then
    b ← parse_bits (text (rev (chars x)));
    if b <=? addr_width a then Some (mkPrefix a b) else None
  else None.

Example string6_a : addr_string (V6 0xfd000100006400000000000000000001 "") = "fd00:100:64::1".
Proof. by vm_compute. Qed.
Example string6_b : addr_string (V6 (0xffff * 2 ^ 32 + 0x01020304) "") = "::ffff:1.2.3.4".
Proof. by vm_compute. Qed.
Example parse6_a : ParseAddr "fd00:100:64::1" = Some (V6 0xfd000100006400000000000000000001 "").
Proof. by vm_compute. Qed.
Example parse6_b : ParseAddr "::ffff:1.2.3.4" = Some (V6 (0xffff * 2 ^ 32 + 0x01020304) "").
Proof. by vm_compute. Qed.
Example parse6_c : ParseAddr "1:2:3:4:5:6:7::" = Some (V6 0x10002000300040005000600070000 "").
Proof. by vm_compute. Qed.
Example parse6_d : ParseAddr "1:2:3:4:5:6:7:8::" = None.
Proof. by vm_compute. Qed.
Example parse4_a : ParseAddr "100.64.0.17" = Some (V4 0x64400011).
Proof. by vm_compute. Qed.
Example parse4_b : ParseAddr "100.064.0.17" = None.
Proof. by vm_compute. Qed.
Example prefix_a : ParsePrefix "100.64.0.0/16" = Some (mkPrefix (V4 0x64400000) 16).
Proof. by vm_compute. Qed.
