(* ===== verification/NetFacts.v ===== *)
(** * Facts about addresses

    Parsing inverts printing for both families ([ParseAddr_string]), prefixes
    included, and the arithmetic of prefixes: which numbers a prefix contains,
    and how the walk by [Next] from its first address stays inside it. *)
From S2P Require Import Prelude GoText TimeText NetAddr.
From Stdlib Require Import Ascii.

(** ** Digits *)
Lemma hex_val_char d : 0 ≤ d < 16 → hex_val (hex_char d) = Some d.
Proof.
  intros. unfold hex_val, hex_char.
  destruct (d <? 10) eqn:E; rewrite byte_of_chr by lia; repeat case_match; try (f_equal; lia); lia.
Qed.

Definition not_hex (s : string) : Prop :=
  match s with String c _ => hex_val c = None | EmptyString => True end.

Lemma read_hex_stop n off acc s : not_hex s → read_hex n off acc s = Some (acc, off, s).
Proof. destruct s as [|c s]; simpl; [done|]. intros ->. by destruct n. Qed.

Lemma read_hex_digit n off acc d s :
  0 ≤ d < 16 →
  read_hex (S n) off acc (String (hex_char d) s) = read_hex n (S off) (16 * acc + d) s.
Proof. intros. cbn [read_hex]. by rewrite hex_val_char. Qed.

Lemma read_hex16 g s :
  0 ≤ g < 65536 → not_hex s →
  ∃ k, read_hex 4 0 0 (hex16 g s) = Some (g, S k, s).
Proof.
  intros Hg Hs. unfold hex16. repeat case_match.
  all: rewrite !read_hex_digit by lia; rewrite read_hex_stop by done.
  all: eexists; do 3 f_equal; lia.
Qed.

Lemma not_hex_colon s : not_hex (String ":" s).
Proof. done. Qed.

(** ** IPv4 *)
Lemma digits_from_chr acc d s :
  0 ≤ d < 10 → digits_from acc (String (chr (48 + d)) s) = digits_from (10 * acc + d) s.
Proof. intros. cbn [digits_from]. by rewrite digit_chr. Qed.

Lemma chr48_ne_0 d : 1 ≤ d < 10 → chr (48 + d) ≠ "0"%char.
Proof.
  intros Hd E. apply (f_equal byte_of) in E. rewrite byte_of_chr in E by lia.
  change (byte_of "0") with 48 in E. lia.
Qed.

Lemma parse_octet_dec8 n : 0 ≤ n < 256 → parse_octet (dec8 n "") = Some n.
Proof.
  intros Hn. unfold dec8. repeat case_match; unfold parse_octet, digits.
  - rewrite digits_from_chr by lia. simpl. f_equal. lia.
  - rewrite decide_False by (apply chr48_ne_0; lia).
    rewrite !digits_from_chr by lia. simpl. case_match; [f_equal|]; lia.
  - rewrite decide_False by (apply chr48_ne_0; lia).
    rewrite !digits_from_chr by lia. simpl. case_match; [f_equal|]; lia.
Qed.

Lemma no_char_cons c a s : no_char c (String a s) = bool_decide (a ≠ c) && no_char c s.
Proof. apply str_forall_cons. Qed.

Lemma chr_ne z c : 0 ≤ z < 256 → z ≠ byte_of c → chr z ≠ c.
Proof. intros Hz Hne E. apply Hne. by rewrite <- E, byte_of_chr. Qed.

(** A character that is neither a digit nor a hexadecimal letter. *)
Definition mark (c : ascii) : Prop := hex_val c = None.

Lemma mark_hex_char c d : mark c → 0 ≤ d < 16 → hex_char d ≠ c.
Proof. intros Hc Hd <-. unfold mark in Hc. by rewrite hex_val_char in Hc. Qed.

Lemma mark_dec_char c d : mark c → 0 ≤ d < 10 → chr (48 + d) ≠ c.
Proof.
  intros Hc Hd. replace (chr (48 + d)) with (hex_char d).
  - apply mark_hex_char; [done|lia].
  - unfold hex_char. by case_match; [|lia].
Qed.

Lemma no_char_dec8 c n s : mark c → 0 ≤ n < 256 → no_char c (dec8 n s) = no_char c s.
Proof.
  intros Hc Hn. unfold dec8. repeat case_match; rewrite !no_char_cons.
  all: rewrite !bool_decide_eq_true_2 by (apply mark_dec_char; [done|lia]); done.
Qed.

Lemma no_char_hex16 c n s : mark c → 0 ≤ n < 65536 → no_char c (hex16 n s) = no_char c s.
Proof.
  intros Hc Hn. unfold hex16. repeat case_match; rewrite !no_char_cons.
  all: rewrite !bool_decide_eq_true_2 by (apply mark_hex_char; [done|lia]); done.
Qed.

Lemma dec8_app n s : dec8 n s = dec8 n "" +:+ s.
Proof. unfold dec8. by repeat case_match. Qed.

Lemma string4_Split z :
  Split (string4 z) "." =
  [dec8 (z / 2 ^ 24 mod 256) ""; dec8 (z / 2 ^ 16 mod 256) "";
   dec8 (z / 2 ^ 8 mod 256) ""; dec8 (z mod 256) ""].
Proof.
  assert (∀ n, 0 ≤ n < 256 → no_char "." (dec8 n "") = true) as H.
  { intros n Hn. by rewrite no_char_dec8. }
  unfold string4.
  rewrite (dec8_app (z / 2 ^ 24 mod 256)), Split_app by (apply H; lia).
  rewrite (dec8_app (z / 2 ^ 16 mod 256)), Split_app by (apply H; lia).
  rewrite (dec8_app (z / 2 ^ 8 mod 256)), Split_app by (apply H; lia).
  by rewrite Split_no_char by (apply H; lia).
Qed.

Lemma parse4_string4 z : 0 ≤ z < 2 ^ 32 → parse4 (string4 z) = Some z.
Proof.
  intros Hz. unfold parse4. rewrite string4_Split, !parse_octet_dec8 by lia.
  simpl. f_equal. lia.
Qed.

(** ** IPv6 groups *)
Lemma groups_bound z : Forall (λ g, 0 ≤ g < 65536) (groups z).
Proof. unfold groups. simpl. repeat constructor; lia. Qed.

Lemma length_groups z : length (groups z) = 8%nat.
Proof. done. Qed.

Lemma group_step z i :
  0 ≤ i → 65536 * (z / 2 ^ (16 * (i + 1))) + z / 2 ^ (16 * i) mod 65536 = z / 2 ^ (16 * i).
Proof.
  intros Hi. replace (16 * (i + 1)) with (16 * i + 16) by lia.
  rewrite Z.pow_add_r, <- Z.div_div by lia. change (2 ^ 16) with 65536.
  generalize (z / 2 ^ (16 * i)). intros. lia.
Qed.

Lemma ungroups_groups z : 0 ≤ z < 2 ^ 128 → ungroups (groups z) = z.
Proof.
  intros Hz. unfold groups, ungroups. cbn [foldl fmap list_fmap].
  rewrite Z.mul_0_r, Z.add_0_l.
  rewrite (Z.mod_small (z / 2 ^ (16 * 7))) by (split; [lia|apply Z.div_lt_upper_bound; lia]).
  change (16 * 7) with (16 * (6 + 1)). rewrite group_step by lia.
  change (16 * 6) with (16 * (5 + 1)). rewrite group_step by lia.
  change (16 * 5) with (16 * (4 + 1)). rewrite group_step by lia.
  change (16 * 4) with (16 * (3 + 1)). rewrite group_step by lia.
  change (16 * 3) with (16 * (2 + 1)). rewrite group_step by lia.
  change (16 * 2) with (16 * (1 + 1)). rewrite group_step by lia.
  change (16 * 1) with (16 * (0 + 1)). rewrite group_step by lia.
  by rewrite Z.div_1_r.
Qed.

(** The run chosen for ["::"] is a run of zeros inside the groups. *)
Lemma zero_run_spec l : ∃ t, l = replicate (zero_run l) 0 ++ t.
Proof.
  induction l as [|x l [t IH]]; simpl; [by exists []|].
  destruct (x =? 0) eqn:E; [|by exists (x :: l)].
  exists t. simpl. f_equal; [lia|done].
Qed.

Definition run_of (l : list Z) (r : nat * nat) : Prop :=
  r = (O, O) ∨ (2 ≤ r.2)%nat ∧ l = take r.1 l ++ replicate r.2 0 ++ drop (r.1 + r.2) l
              ∧ (r.1 + r.2 ≤ length l)%nat.

Lemma run_of_here p l :
  (2 ≤ zero_run l)%nat → run_of (p ++ l) (length p, zero_run l).
Proof.
  intros H. right. cbn [fst snd]. split; [done|].
  destruct (zero_run_spec l) as [t Ht].
  assert (Hl : length l = (zero_run l + length t)%nat).
  { rewrite Ht at 1. by rewrite length_app, length_replicate. }
  split.
  - rewrite take_app_length. f_equal. rewrite Ht at 1. f_equal.
    rewrite <- drop_drop, drop_app_length.
    rewrite Ht at 2. rewrite drop_app_ge by (by rewrite length_replicate).
    by rewrite length_replicate, Nat.sub_diag, drop_0.
  - rewrite length_app. lia.
Qed.

Lemma longest_run_spec i p l best :
  length p = i → run_of (p ++ l) best → run_of (p ++ l) (longest_run i l best).
Proof.
  revert i p best. induction l as [|x l IH]; intros i p best Hp Hb; [done|].
  cbn [longest_run]. replace (p ++ x :: l) with ((p ++ [x]) ++ l) by (by rewrite <- app_assoc).
  apply IH; [rewrite length_app; simpl; lia|]. rewrite <- app_assoc. simpl.
  destruct (_ && _) eqn:E; [|done]. subst i. apply run_of_here.
  apply andb_prop in E as [E _]. by apply Nat.leb_le.
Qed.

(** ** The IPv6 parser on printed groups *)
Definition bounded (l : list Z) : Prop := Forall (λ g, 0 ≤ g < 65536) l.

Lemma put_groups_cons g l rest :
  put_groups (g :: l) rest =
  hex16 g (match l with [] => rest | _ => String ":" (put_groups l rest) end).
Proof. by destruct l. Qed.

Lemma hex16_head g s : 0 ≤ g < 65536 → ∃ d t, 0 ≤ d < 16 ∧ hex16 g s = String (hex_char d) t.
Proof.
  intros Hg. unfold hex16. repeat case_match; do 2 eexists; (split; [|done]); lia.
Qed.

Lemma hex_char_colon d : 0 ≤ d < 16 → hex_char d ≠ ":"%char.
Proof. by apply mark_hex_char. Qed.

Lemma put_groups_head g l rest :
  0 ≤ g < 65536 → ∃ d t, 0 ≤ d < 16 ∧ put_groups (g :: l) rest = String (hex_char d) t.
Proof. intros. rewrite put_groups_cons. by apply hex16_head. Qed.

Lemma parse6_loop_last n acc ell g :
  0 ≤ g < 65536 → parse6_loop (S n) acc ell (hex16 g "") = Some (acc ++ [g], ell).
Proof.
  intros Hg. destruct (read_hex16 g "" Hg I) as [k Hk]. cbn [parse6_loop].
  by rewrite Hk.
Qed.

Lemma parse6_loop_colon n acc ell g d t :
  0 ≤ g < 65536 → 0 ≤ d < 16 →
  parse6_loop (S n) acc ell (hex16 g (String ":" (String (hex_char d) t))) =
  parse6_loop n (acc ++ [g]) ell (String (hex_char d) t).
Proof.
  intros Hg Hd. destruct (read_hex16 g (String ":" (String (hex_char d) t)) Hg) as [k Hk]; [done|].
  cbn [parse6_loop]. rewrite Hk. simpl.
  by rewrite decide_False by (by apply hex_char_colon).
Qed.

Lemma parse6_loop_plain n acc ell l :
  bounded l → l ≠ [] → (length l ≤ n)%nat →
  parse6_loop n acc ell (put_groups l "") = Some (acc ++ l, ell).
Proof.
  revert n acc. induction l as [|g l IH]; [done|].
  intros n acc [Hg Hl]%Forall_cons _ Hn. destruct n as [|n]; [simpl in Hn; lia|].
  rewrite put_groups_cons. destruct l as [|h l].
  - by apply parse6_loop_last.
  - inversion Hl as [|?? Hh _]; subst.
    destruct (put_groups_head h l "" Hh) as (d & t & Hd & Ht). rewrite Ht.
    rewrite parse6_loop_colon by done. rewrite <- Ht, IH; [|done|done|simpl in *; lia].
    by rewrite <- app_assoc.
Qed.

Lemma parse6_loop_ellipsis n acc l rest :
  bounded l → l ≠ [] → (length l < n)%nat →
  parse6_loop n acc None (put_groups l (String ":" (String ":" rest))) =
  if decide (rest = "") then Some (acc ++ l, Some (length (acc ++ l)))
  else parse6_loop (n - length l) (acc ++ l) (Some (length (acc ++ l))) rest.
Proof.
  revert n acc. induction l as [|g l IH]; [done|].
  intros n acc [Hg Hl]%Forall_cons _ Hn. destruct n as [|n]; [simpl in Hn; lia|].
  rewrite put_groups_cons. destruct l as [|h l].
  - destruct (read_hex16 g (String ":" (String ":" rest)) Hg) as [k Hk]; [done|].
    cbn [parse6_loop]. rewrite Hk. simpl. by rewrite Nat.sub_0_r.
  - inversion Hl as [|?? Hh _]; subst.
    destruct (put_groups_head h l (String ":" (String ":" rest)) Hh) as (d & t & Hd & Ht).
    rewrite Ht, parse6_loop_colon by done. rewrite <- Ht, IH; [|done|done|simpl in *; lia].
    rewrite <- !app_assoc. done.
Qed.

Lemma CutPrefix_hex d t : 0 ≤ d < 16 → CutPrefix (String (hex_char d) t) "::" = None.
Proof. intros Hd. cbn [CutPrefix]. by rewrite decide_False by (by apply hex_char_colon). Qed.

Lemma put_groups_nonempty l : bounded l → l ≠ [] → put_groups l "" ≠ "".
Proof.
  destruct l as [|g l]; [done|]. intros [Hg _]%Forall_cons _.
  destruct (put_groups_head g l "" Hg) as (d & t & _ & ->). done.
Qed.

Lemma expand6_ell pre post n :
  (length pre + n + length post = 8)%nat → (1 ≤ n)%nat →
  expand6 (pre ++ post, Some (length pre)) = Some (ungroups (pre ++ replicate n 0 ++ post)).
Proof.
  intros Hl Hn. unfold expand6. rewrite length_app.
  rewrite (proj2 (Nat.ltb_lt _ _)) by lia.
  rewrite take_app_length, drop_app_length. do 5 f_equal. lia.
Qed.

Lemma parse6_printed pre post n :
  bounded pre → bounded post → (length pre + n + length post = 8)%nat → (2 ≤ n)%nat →
  parse6 (put_groups pre (String ":" (String ":" (put_groups post "")))) =
  Some (ungroups (pre ++ replicate n 0 ++ post)).
Proof.
  intros Bpre Bpost Hlen Hn. unfold parse6. destruct pre as [|g pre].
  - cbn [put_groups]. change (String ":" (String ":" ?r)) with ("::" +:+ r).
    rewrite CutPrefix_app. destruct post as [|h post].
    + simpl in Hlen. replace n with 8%nat by lia. done.
    + rewrite decide_False by (by apply put_groups_nonempty).
      rewrite parse6_loop_plain by (done || (simpl in *; lia)).
      rewrite bind_Some. by apply (expand6_ell []); [|lia].
  - inversion Bpre as [|?? Hg Bp]; subst.
    destruct (put_groups_head g pre (String ":" (String ":" (put_groups post ""))) Hg)
      as (d & t & Hd & Ht).
    rewrite Ht, CutPrefix_hex by done. rewrite <- Ht.
    rewrite parse6_loop_ellipsis by (done || (simpl in *; lia)).
    case_decide as Hp.
    + destruct post as [|h post]; [|exfalso; by apply (put_groups_nonempty (h :: post))].
      rewrite bind_Some. rewrite <- (app_nil_r ([] ++ g :: pre)) at 1.
      apply (expand6_ell (g :: pre) [] n); [done|lia].
    + assert (post ≠ []) by (by intros ->).
      rewrite parse6_loop_plain by (done || (simpl in *; lia)).
      rewrite bind_Some. apply (expand6_ell (g :: pre) post n); [done|lia].
Qed.

Lemma parse6_string6 z : 0 ≤ z < 2 ^ 128 → parse6 (string6 z) = Some z.
Proof.
  intros Hz. unfold string6.
  pose proof (longest_run_spec 0 [] (groups z) (O, O) eq_refl (or_introl eq_refl)) as Hr.
  pose proof (groups_bound z) as Hb. cbn [app] in Hr.
  rewrite <- (ungroups_groups z Hz) at 2.
  pose proof (length_groups z) as Hl. revert Hr Hb Hl.
  generalize (groups z) as gs. intros gs Hr Hb Hl.
  destruct (longest_run 0 gs (0%nat, 0%nat)) as [st len].
  destruct Hr as [[= -> ->]|(H2 & Hgs & Hlen)]; cbn [fst snd] in *.
  - cbn [Nat.eqb]. unfold parse6. destruct gs as [|g gs]; [done|].
    inversion Hb as [|?? Hg Hb']; subst.
    destruct (put_groups_head g gs "" Hg) as (d & t & Hd & Ht).
    rewrite Ht, CutPrefix_hex by done. rewrite <- Ht, parse6_loop_plain by (done || lia).
    rewrite bind_Some. cbn [app]. unfold expand6. by rewrite Hl.
  - rewrite (proj2 (Nat.eqb_neq len 0)) by lia.
    rewrite (parse6_printed _ _ len); [by rewrite <- Hgs|..|done].
    + by apply Forall_take.
    + by apply Forall_drop.
    + rewrite length_take, length_drop. lia.
Qed.

(** ** IPv4-mapped addresses *)
Lemma read_hex_dec8 n s :
  0 ≤ n < 256 → not_hex s → ∃ v k, read_hex 4 0 0 (dec8 n s) = Some (v, S k, s).
Proof.
  intros Hn Hs.
  assert (∀ x, 0 ≤ x < 10 → chr (48 + x) = hex_char x) as E.
  { intros x Hx. unfold hex_char. by case_match; [|lia]. }
  unfold dec8. repeat case_match; rewrite ?E by lia.
  all: rewrite !read_hex_digit by lia; rewrite read_hex_stop by done; eauto.
Qed.

Lemma string4_head z : ∃ d t, 0 ≤ d < 16 ∧ string4 z = String (hex_char d) t.
Proof.
  unfold string4, dec8 at 1.
  assert (∀ x, 0 ≤ x < 10 → chr (48 + x) = hex_char x) as E.
  { intros x Hx. unfold hex_char. by case_match; [|lia]. }
  repeat case_match; rewrite E by lia; do 2 eexists; (split; [|done]); lia.
Qed.

Lemma parse6_mapped w :
  0 ≤ w < 2 ^ 32 → parse6 ("::ffff:" +:+ string4 w) = Some (0xFFFF * 2 ^ 32 + w).
Proof.
  intros Hw. change ("::ffff:" +:+ string4 w) with ("::" +:+ ("ffff:" +:+ string4 w)).
  unfold parse6. rewrite CutPrefix_app, decide_False by done.
  destruct (string4_head w) as (d & t & Hd & Ht).
  change ("ffff:" +:+ string4 w) with (hex16 0xFFFF (String ":" (string4 w))).
  rewrite Ht, parse6_loop_colon by done. rewrite <- Ht.
  destruct (read_hex_dec8 (w / 2 ^ 24 mod 256) (String "." (dec8 (w / 2 ^ 16 mod 256) (String "."
    (dec8 (w / 2 ^ 8 mod 256) (String "." (dec8 (w mod 256) ""))))))) as (v & k & Hk); [lia|done|].
  cbn [parse6_loop]. fold (string4 w) in Hk. rewrite Hk, bind_Some.
  cbn -[parse4 string4 Z.div Z.modulo expand6]. rewrite parse4_string4 by done.
  etrans; [apply (expand6_ell [] [65535; w / 65536; w mod 65536] 5); (done || lia)|].
  unfold ungroups. cbn [foldl app replicate]. f_equal. lia.
Qed.

(** ** Whole addresses *)
Lemma no_char_string4 c z : mark c → c ≠ "."%char → no_char c (string4 z) = true.
Proof.
  intros Hc Hd. unfold string4.
  repeat first [rewrite no_char_dec8 by (done || lia)
               | rewrite no_char_cons, bool_decide_eq_true_2 by done; cbn [andb]].
  done.
Qed.

Lemma no_char_put_groups c l s :
  mark c → c ≠ ":"%char → bounded l → no_char c (put_groups l s) = no_char c s.
Proof.
  intros Hc Hd. induction l as [|g l IH]; [done|]. intros [Hg Hl]%Forall_cons.
  rewrite put_groups_cons, no_char_hex16 by done. destruct l; [done|].
  rewrite no_char_cons, bool_decide_eq_true_2 by done. by apply IH.
Qed.

Lemma no_char_string6 c z : mark c → c ≠ ":"%char → no_char c (string6 z) = true.
Proof.
  intros Hc Hd. unfold string6. pose proof (groups_bound z) as Hb.
  destruct (longest_run 0 (groups z) (0%nat, 0%nat)) as [st len]. case_match.
  - by rewrite no_char_put_groups.
  - rewrite no_char_put_groups by (done || by apply Forall_take).
    rewrite !no_char_cons, !bool_decide_eq_true_2 by done. cbn [andb].
    by rewrite no_char_put_groups by (done || by apply Forall_drop).
Qed.

Definition addr_body (a : Addr) : string :=
  match a with
  | V6 z _ => if Is4In6 z then "::ffff:" +:+ string4 (z mod 2 ^ 32) else string6 z
  | _ => addr_string a
  end.

Lemma parse6_body z zn : 0 ≤ z < 2 ^ 128 → parse6 (addr_body (V6 z zn)) = Some z.
Proof.
  intros Hz. unfold addr_body, Is4In6. destruct (z / 2 ^ 32 =? 65535) eqn:E.
  - rewrite parse6_mapped by lia. f_equal. lia.
  - by apply parse6_string6.
Qed.

Lemma no_char_body c a :
  mark c → c ≠ ":"%char → c ≠ "."%char → a ≠ NoAddr → no_char c (addr_body a) = true.
Proof.
  intros Hc H1 H2 Ha. destruct a as [|z|z zn]; [done| |]; unfold addr_body.
  - by apply no_char_string4.
  - case_match; [|by apply no_char_string6].
    change ("::ffff:" +:+ ?s) with (String ":" (String ":" (hex16 0xFFFF (String ":" s)))).
    rewrite !no_char_cons, !bool_decide_eq_true_2 by done. cbn [andb].
    rewrite no_char_hex16, no_char_cons, bool_decide_eq_true_2 by done.
    by apply no_char_string4.
Qed.

Lemma cut_no_char c s : no_char c s = true → cut c s = None.
Proof.
  induction s as [|a s IH]; [done|]. rewrite no_char_cons.
  intros [H1%bool_decide_eq_true H2]%andb_prop. cbn [cut]. rewrite decide_False by done.
  by rewrite IH.
Qed.
Lemma cut_app c s t : no_char c s = true → cut c (s +:+ String c t) = Some (s, t).
Proof.
  induction s as [|a s IH]; intros H.
  - rewrite str_app_nil_l. cbn [cut]. by rewrite decide_True.
  - rewrite no_char_cons in H. apply andb_prop in H as [H1%bool_decide_eq_true H2].
    rewrite str_app_cons. cbn [cut]. rewrite decide_False by done. by rewrite IH.
Qed.

Lemma first_mark_dec8 n s : 0 ≤ n < 256 → first_mark (dec8 n s) = first_mark s.
Proof.
  assert (∀ x t, 0 ≤ x < 10 → first_mark (String (chr (48 + x)) t) = first_mark t) as H.
  { intros x t Hx. cbn [first_mark]. rewrite decide_False; [done|].
    intros [E|[E|E]]; revert E; by apply mark_dec_char. }
  intros Hn. unfold dec8. repeat case_match; by rewrite !H by lia.
Qed.
Lemma first_mark_hex16 n s : 0 ≤ n < 65536 → first_mark (hex16 n s) = first_mark s.
Proof.
  assert (∀ x t, 0 ≤ x < 16 → first_mark (String (hex_char x) t) = first_mark t) as H.
  { intros x t Hx. cbn [first_mark]. rewrite decide_False; [done|].
    intros [E|[E|E]]; revert E; by apply mark_hex_char. }
  intros Hn. unfold hex16. repeat case_match; by rewrite !H by lia.
Qed.

Lemma first_mark_put_groups l s :
  bounded l → first_mark s = Some ":"%char ∨ (2 ≤ length l)%nat →
  first_mark (put_groups l s) = Some ":"%char.
Proof.
  destruct l as [|g [|h l]]; intros Hb Hs; simpl in Hs.
  - by destruct Hs; [|lia].
  - inversion Hb; subst. cbn [put_groups]. rewrite first_mark_hex16 by done. by destruct Hs; [|lia].
  - inversion Hb; subst. rewrite put_groups_cons, first_mark_hex16 by done. done.
Qed.

Lemma first_mark_body6 z zn : first_mark (addr_body (V6 z zn)) = Some ":"%char.
Proof.
  unfold addr_body. case_match; [done|]. unfold string6. pose proof (groups_bound z) as Hb.
  destruct (longest_run 0 (groups z) (0%nat, 0%nat)) as [st len]. case_match.
  - apply first_mark_put_groups; [done|]. right. rewrite length_groups. lia.
  - apply first_mark_put_groups; [by apply Forall_take|by left].
Qed.

Lemma first_mark_app s t c : first_mark s = Some c → first_mark (s +:+ t) = Some c.
Proof.
  induction s as [|a s IH]; [done|]. rewrite str_app_cons. cbn [first_mark].
  by case_decide; [|apply IH].
Qed.

(** Parsing inverts printing. *)
Lemma ParseAddr_string a :
  addr_valid a = true → addr_wf a = true → ParseAddr (addr_string a) = Some a.
Proof.
  intros Hv Hw. unfold addr_wf in Hw. destruct a as [|z|z zone]; [done| |].
  - assert (first_mark (string4 z) = Some "."%char) as Hm.
    { unfold string4. rewrite first_mark_dec8 by lia. done. }
    unfold ParseAddr, addr_string. rewrite Hm. simpl.
    cbn [addr_num addr_width] in Hw. by rewrite parse4_string4 by lia.
  - cbn [addr_num addr_width] in Hw.
    assert (addr_string (V6 z zone) =
      if decide (zone = "") then addr_body (V6 z zone)
      else addr_body (V6 z zone) +:+ String "%" zone) as -> by done.
    unfold ParseAddr. case_decide as Hz.
    + rewrite first_mark_body6, decide_False, decide_True by done.
      rewrite cut_no_char by (by apply no_char_body).
      subst zone. by rewrite parse6_body by lia.
    + rewrite (first_mark_app _ _ ":"%char) by apply first_mark_body6.
      rewrite decide_False, decide_True by done.
      rewrite cut_app by (by apply no_char_body). rewrite decide_False by done.
      by rewrite parse6_body by lia.
Qed.

Lemma addr_string_inj a b :
  addr_valid a = true → addr_wf a = true → addr_valid b = true → addr_wf b = true →
  addr_string a = addr_string b → a = b.
Proof.
  intros Ha Wa Hb Wb E. apply ParseAddr_string in Ha; [|done]. apply ParseAddr_string in Hb; [|done].
  rewrite E in Ha. congruence.
Qed.

(** ** Parsed addresses are well formed *)
Lemma digit_bound c d : digit c = Some d → 0 ≤ d < 10.
Proof. unfold digit. case_match; [|done]. intros [= <-]. lia. Qed.

Lemma digits_from_nonneg acc s z : 0 ≤ acc → digits_from acc s = Some z → 0 ≤ z.
Proof.
  revert acc. induction s as [|c s IH]; intros acc Ha; simpl; [intros; by simplify_eq|].
  destruct (digit c) as [d|] eqn:E; [|done]. apply digit_bound in E. simpl. apply IH. lia.
Qed.

Lemma digits_nonneg s z : digits s = Some z → 0 ≤ z.
Proof. unfold digits. destruct s; [done|]. by apply digits_from_nonneg. Qed.

Lemma parse_octet_bound s z : parse_octet s = Some z → 0 ≤ z < 256.
Proof.
  unfold parse_octet. destruct s as [|c [|c' s]]; [done| |].
  - unfold digits. cbn [digits_from]. destruct (digit c) as [d|] eqn:E; [|done].
    apply digit_bound in E. simpl. intros [= <-]. lia.
  - case_decide; [done|]. destruct (digits _) as [x|] eqn:E; [|done]. simpl.
    apply digits_nonneg in E. case_match; [|done]. intros [= <-]. lia.
Qed.

Lemma parse4_bound s z : parse4 s = Some z → 0 ≤ z < 2 ^ 32.
Proof.
  unfold parse4. destruct (Split s ".") as [|a [|b [|c [|d [|]]]]]; try done.
  destruct (parse_octet a) eqn:A, (parse_octet b) eqn:B, (parse_octet c) eqn:C,
    (parse_octet d) eqn:D; simpl; try done. intros [= <-].
  apply parse_octet_bound in A, B, C, D. lia.
Qed.

Lemma hex_val_bound c d : hex_val c = Some d → 0 ≤ d < 16.
Proof. unfold hex_val. repeat case_match; intros; simplify_eq; lia. Qed.

Lemma read_hex_bound n off acc s v k r :
  read_hex n off acc s = Some (v, k, r) → 0 ≤ acc → 0 ≤ v < (acc + 1) * 16 ^ Z.of_nat n.
Proof.
  revert n off acc. induction s as [|c s IH]; intros n off acc; cbn [read_hex].
  - intros [= <- <- <-] Ha. pose proof (Z.pow_pos_nonneg 16 (Z.of_nat n)). nia.
  - destruct (hex_val c) as [d|] eqn:E.
    + apply hex_val_bound in E. destruct n as [|n]; [done|]. intros H Ha.
      apply IH in H; [|lia]. rewrite Nat2Z.inj_succ, Z.pow_succ_r by lia.
      pose proof (Z.pow_pos_nonneg 16 (Z.of_nat n)). nia.
    + intros [= <- <- <-] Ha. pose proof (Z.pow_pos_nonneg 16 (Z.of_nat n)). nia.
Qed.

Lemma bounded_snoc l v : bounded l → 0 ≤ v < 65536 → bounded (l ++ [v]).
Proof. intros. apply Forall_app. split; [done|]. by apply Forall_singleton. Qed.

Lemma parse6_loop_bound n acc ell s l e :
  parse6_loop n acc ell s = Some (l, e) → bounded acc → (length acc + n = 8)%nat →
  bounded l ∧ (length l ≤ 8)%nat.
Proof.
  revert acc ell s. induction n as [|n IH]; intros acc ell s; cbn [parse6_loop].
  - case_decide; [|done]. intros [= <- <-] ? ?. split; [done|lia].
  - destruct (read_hex 4 0 0 s) as [[[v off] s']|] eqn:R; [|done].
    apply read_hex_bound in R; [|lia]. change ((0 + 1) * 16 ^ Z.of_nat 4) with 65536 in R.
    rewrite bind_Some. intros H Hb Hn. pose proof (bounded_snoc _ _ Hb R) as Hb'.
    assert (length (acc ++ [v]) + n = 8)%nat as Hn' by (rewrite length_app; simpl; lia).
    repeat case_match; simplify_eq; eauto.
    all: try (split; [done|lia]).
    destruct (parse4 s) as [z|] eqn:P; [|done]. apply parse4_bound in P. simpl in H. simplify_eq.
    match goal with E : _ || _ = false |- _ => apply orb_false_iff in E as [_ E%Nat.eqb_neq] end.
    split; [|rewrite length_app; simpl in *; lia].
    apply Forall_app; split; [done|]. apply Forall_cons; split; [lia|]. apply Forall_singleton; lia.
Qed.

Lemma foldl_groups_bound l acc P :
  bounded l → 0 ≤ acc < P →
  0 ≤ foldl (λ acc g, 65536 * acc + g) acc l < P * 65536 ^ Z.of_nat (length l).
Proof.
  revert acc P. induction l as [|g l IH]; intros acc P Hb Ha; [simpl; lia|].
  apply Forall_cons in Hb as [Hg Hb]. cbn [foldl length].
  rewrite Nat2Z.inj_succ, Z.pow_succ_r by lia.
  specialize (IH (65536 * acc + g) (P * 65536) Hb). nia.
Qed.

Lemma ungroups_bound l : bounded l → length l = 8%nat → 0 ≤ ungroups l < 2 ^ 128.
Proof.
  intros Hb Hl. pose proof (foldl_groups_bound l 0 1 Hb ltac:(lia)) as H.
  by rewrite Hl in H.
Qed.

Lemma expand6_bound l e z :
  bounded l → (length l ≤ 8)%nat → expand6 (l, e) = Some z → 0 ≤ z < 2 ^ 128.
Proof.
  intros Hb Hl. unfold expand6. destruct (Nat.ltb_spec (length l) 8).
  - destruct e as [e|]; [|done]. intros [= <-]. apply ungroups_bound.
    + apply Forall_app; split; [by apply Forall_take|].
      apply Forall_app; split; [apply Forall_replicate; lia|by apply Forall_drop].
    + rewrite !length_app, length_take, length_replicate, length_drop. lia.
  - destruct e; [done|]. intros [= <-]. apply ungroups_bound; [done|lia].
Qed.

Lemma parse6_bound s z : parse6 s = Some z → 0 ≤ z < 2 ^ 128.
Proof.
  unfold parse6. repeat case_match; intros; simplify_eq; [lia| |].
  all: destruct (parse6_loop _ _ _ _) as [[l e]|] eqn:P; [|done].
  all: apply parse6_loop_bound in P as [? ?]; [|by constructor|done].
  all: eapply expand6_bound; done.
Qed.

Lemma ParseAddr_wf s a : ParseAddr s = Some a → addr_valid a = true ∧ addr_wf a = true.
Proof.
  unfold ParseAddr, addr_wf. intros H. repeat case_match; try done.
  - destruct (parse4 s) eqn:P; [|done]. simpl in H. simplify_eq.
    apply parse4_bound in P. simpl. split; [done|lia].
  - destruct (parse6 _) eqn:P; [|done]. simpl in H. simplify_eq.
    apply parse6_bound in P. cbn [addr_num addr_width addr_valid]. split; [done|lia].
  - destruct (parse6 _) eqn:P; [|done]. simpl in H. simplify_eq.
    apply parse6_bound in P. cbn [addr_num addr_width addr_valid]. split; [done|lia].
Qed.

Lemma ParseAddr_print s a : ParseAddr s = Some a → ParseAddr (addr_string a) = Some a.
Proof. intros [? ?]%ParseAddr_wf. by apply ParseAddr_string. Qed.

(** ** Prefixes as text *)
Lemma chars_app s t : chars (s +:+ t) = chars s ++ chars t.
Proof. induction s as [|a s IH]; [done|]. rewrite str_app_cons. cbn. by f_equal. Qed.
Lemma text_app l k : text (l ++ k) = text l +:+ text k.
Proof.
  induction l as [|a l IH]; [done|].
  change (text ((a :: l) ++ k)) with (String a (text (l ++ k))). by rewrite IH.
Qed.
Lemma text_rev_rev s : text (rev (chars (text (rev (chars s))))) = s.
Proof. by rewrite chars_text, rev_involutive, text_chars. Qed.

Lemma no_char_rev c s : no_char c (text (rev (chars s))) = no_char c s.
Proof.
  unfold no_char. rewrite !str_forall_chars, chars_text. induction (chars s) as [|a l IH]; [done|].
  cbn [rev]. rewrite forallb_app. cbn [forallb]. rewrite IH. rewrite andb_true_r. apply andb_comm.
Qed.

Lemma bits_text b :
  0 ≤ b ≤ 128 → parse_bits (Itoa b) = Some b ∧ no_char "/" (Itoa b) = true.
Proof.
  intros Hb.
  assert (all_from 129 0 (λ b, bool_decide (parse_bits (Itoa b) = Some b)
                               && no_char "/" (Itoa b)) = true) as H by (by vm_compute).
  pose proof (all_from_spec _ _ _ H b ltac:(lia)) as [?%bool_decide_eq_true ?]%andb_prop. done.
Qed.

Lemma addr_body_string a : a ≠ NoAddr → addr_zone a = "" → addr_string a = addr_body a.
Proof. destruct a as [|z|z zn]; [done|done|]. simpl. by intros _ ->. Qed.

Lemma ParsePrefix_string p :
  prefix_valid p = true → addr_wf (paddr p) = true → addr_zone (paddr p) = "" →
  ParsePrefix (prefix_string p) = Some p.
Proof.
  intros Hv Hw Hz. unfold prefix_string. rewrite Hv. unfold ParsePrefix.
  destruct p as [a b]. unfold prefix_valid in Hv. cbn [paddr pbits] in *.
  assert (0 ≤ b ≤ 128) as Hb by (destruct a; cbn in Hv; lia).
  destruct (bits_text b Hb) as [Hp Hn].
  assert (text (rev (chars (addr_string a +:+ String "/" (Itoa b)))) =
    text (rev (chars (Itoa b))) +:+ String "/" (text (rev (chars (addr_string a))))) as ->.
  { rewrite chars_app, rev_app_distr.
    change (chars (String "/" (Itoa b))) with ("/"%char :: chars (Itoa b)).
    cbn [rev]. rewrite !text_app. autorewrite with gotext. done. }
  rewrite cut_app by (by rewrite no_char_rev). rewrite bind_Some, !text_rev_rev.
  rewrite ParseAddr_string by (done || by destruct a). rewrite bind_Some.
  rewrite decide_True by done. rewrite Hp. simpl. case_match; [done|]. destruct a; cbn in *; lia.
Qed.

(** ** Prefix arithmetic

    A network is a valid, masked prefix; its [k]-th address is [host p k]. *)
Definition net_ok (p : Prefix) : bool :=
  prefix_valid p && addr_wf (paddr p) && bool_decide (addr_zone (paddr p) = "")
  && (addr_num (paddr p) mod host_span p =? 0).

Definition with_num (a : Addr) (z : Z) : Addr :=
  match a with NoAddr => NoAddr | V4 _ => V4 z | V6 _ _ => V6 z "" end.
Definition host (p : Prefix) (k : Z) : Addr := with_num (paddr p) (addr_num (paddr p) + k).

Lemma host_span_pos p : prefix_valid p = true → 0 < host_span p.
Proof.
  unfold prefix_valid, host_span. intros. apply Z.pow_pos_nonneg; lia.
Qed.

Lemma net_ok_elim p :
  net_ok p = true →
  ∃ w, prefix_valid p = true ∧ addr_zone (paddr p) = "" ∧ addr_width (paddr p) = w
     ∧ 0 < host_span p ∧ 0 ≤ addr_num (paddr p) ∧ addr_num (paddr p) mod host_span p = 0
     ∧ addr_num (paddr p) + host_span p ≤ 2 ^ w.
Proof.
  unfold net_ok. intros H. rewrite !andb_true_iff in H. destruct H as [[[H ?] ?] ?].
  exists (addr_width (paddr p)). pose proof (host_span_pos _ H) as Hs.
  repeat match goal with E : bool_decide _ = true |- _ => apply bool_decide_eq_true in E end.
  unfold addr_wf in *. repeat split; try done; [lia|lia|].
  assert (2 ^ addr_width (paddr p) mod host_span p = 0) as Hm.
  { unfold host_span, prefix_valid in *.
    replace (addr_width (paddr p)) with
      (pbits p + (addr_width (paddr p) - pbits p)) at 1 by lia.
    rewrite Z.pow_add_r by lia. apply Z_mod_mult. }
  apply Z.mod_divide in Hm as [q Hq]; [|lia].
  assert (addr_num (paddr p) mod host_span p = 0) as [r Hr]%Z.mod_divide by lia; [|lia].
  assert (r < q) by nia. nia.
Qed.

Lemma Masked_net_ok p :
  prefix_valid p = true → addr_wf (paddr p) = true → net_ok (Masked p) = true.
Proof.
  intros Hv Hw. pose proof (host_span_pos _ Hv) as Hs. unfold Masked. rewrite Hv.
  destruct p as [a b]. unfold addr_wf in Hw. unfold net_ok.
  assert (host_span (mkPrefix (mask_addr a (host_span (mkPrefix a b))) b) = host_span (mkPrefix a b))
    as E by (by destruct a).
  unfold prefix_valid in *. cbn [paddr pbits] in *. rewrite E.
  destruct a as [|z|z zn]; [done| |]; cbn [mask_addr addr_num addr_width addr_zone] in *;
    unfold addr_wf; cbn [addr_num addr_width addr_zone] in *.
  all: rewrite Z_mod_mult, Z.eqb_refl, bool_decide_eq_true_2 by done.
  all: pose proof (Z.mul_div_le z (host_span _) Hs) as Hle.
  all: pose proof (Z.div_pos z (host_span _) ltac:(lia) Hs) as Hge.
  all: rewrite (Z.mul_comm (host_span _)) in Hle; rewrite !andb_true_r.
  all: apply andb_true_intro; split; [done|].
  all: apply andb_true_intro; split; [|lia]; apply Z.leb_le, Z.mul_nonneg_nonneg; lia.
Qed.

Lemma net_ok_Masked p : net_ok p = true → Masked p = p.
Proof.
  intros H. destruct (net_ok_elim _ H) as (w & Hv & Hz & _ & Hs & _ & Hm & _).
  unfold Masked. rewrite Hv. destruct p as [[|z|z zn] b]; cbn [paddr pbits addr_num addr_zone] in *.
  all: clear H Hv; revert Hs Hm; match goal with |- context [host_span ?p] => generalize (host_span p) end;
    intros s Hs Hm.
  all: f_equal; unfold mask_addr; f_equal; try done.
  all: apply Z.mod_divide in Hm as [q ->]; [|lia]; by rewrite Z.div_mul by lia.
Qed.

(** A number is in the prefix when it lies in the block of the base. *)
Lemma same_block b s x :
  0 < s → b mod s = 0 → (b / s =? x / s) = (b <=? x) && (x <? b + s).
Proof.
  intros Hs [q ->]%Z.mod_divide; [|lia]. rewrite Z.div_mul by lia.
  pose proof (Z.div_mod x s ltac:(lia)) as Hx. pose proof (Z.mod_pos_bound x s Hs) as Hr.
  destruct (Z.lt_trichotomy q (x / s)) as [H|[H|H]]; nia.
Qed.

Definition same_family (p : Prefix) (a : Addr) : bool :=
  match paddr p, a with V4 _, V4 _ | V6 _ _, V6 _ _ => true | _, _ => false end.

Lemma Contains_net p a :
  net_ok p = true →
  Contains p a = bool_decide (addr_zone a = "") && same_family p a
    && (addr_num (paddr p) <=? addr_num a) && (addr_num a <? addr_num (paddr p) + host_span p).
Proof.
  intros H. destruct (net_ok_elim _ H) as (w & Hv & Hz & _ & Hs & _ & Hm & _).
  unfold Contains, same_family. rewrite Hv.
  destruct (paddr p) as [|x|x zx], a as [|y|y zy]; cbn [addr_num addr_zone andb] in *;
    rewrite ?andb_false_r; try done.
  all: rewrite same_block by done; rewrite ?andb_true_r; by rewrite andb_assoc.
Qed.

Lemma Contains_host p k :
  net_ok p = true → Contains p (host p k) = (0 <=? k) && (k <? host_span p).
Proof.
  intros H. rewrite Contains_net by done. destruct (net_ok_elim _ H) as (w & Hv & Hz & _).
  unfold host, same_family. unfold prefix_valid in Hv.
  destruct (paddr p) as [|x|x zx]; [done|cbn [with_num addr_num addr_zone] in *..].
  all: rewrite bool_decide_eq_true_2 by done; lia.
Qed.

Lemma Contains_is_host p a :
  net_ok p = true → Contains p a = true → ∃ k, 0 ≤ k < host_span p ∧ a = host p k.
Proof.
  intros H Hc. rewrite Contains_net in Hc by done. destruct (net_ok_elim _ H) as (w & Hv & Hz & _).
  unfold same_family in Hc. repeat (apply andb_prop in Hc as [Hc ?]).
  apply bool_decide_eq_true in Hc. exists (addr_num a - addr_num (paddr p)). split; [lia|].
  unfold host. destruct (paddr p) as [|x|x zx], a as [|y|y zy]; try done;
    cbn [with_num addr_num addr_zone] in *; subst; f_equal; lia.
Qed.

Lemma host_0 p : net_ok p = true → host p 0 = paddr p.
Proof.
  intros (w & _ & Hz & _)%net_ok_elim. unfold host. rewrite Z.add_0_r.
  destruct (paddr p); simpl in *; by subst.
Qed.

Lemma host_inj p j k : net_ok p = true → host p j = host p k → j = k.
Proof.
  intros (w & Hv & _)%net_ok_elim. unfold host, prefix_valid in *.
  destruct (paddr p); [done|..]; cbn [with_num]; intros [= E]; lia.
Qed.

Lemma host_wf p k :
  net_ok p = true → 0 ≤ k < host_span p → addr_valid (host p k) = true ∧ addr_wf (host p k) = true.
Proof.
  intros (w & Hv & _ & Hw & _ & Hb & _ & Ht)%net_ok_elim Hk. unfold host, addr_wf, prefix_valid in *.
  destruct (paddr p); [done|..]; cbn [with_num addr_num addr_width addr_valid] in *; subst w.
  all: split; [done|]; apply andb_true_intro; split; [apply Z.leb_le|apply Z.ltb_lt]; lia.
Qed.

(** [ip = ip.Next()] moves to the next host, or out of the prefix. *)
Lemma Next_host p k :
  net_ok p = true → 0 ≤ k < host_span p →
  Next (host p k) = host p (k + 1) ∨ (k + 1 = host_span p ∧ Next (host p k) = NoAddr).
Proof.
  intros (w & Hv & _ & Hw & _ & Hb & _ & Ht)%net_ok_elim Hk. unfold host, prefix_valid in *.
  destruct (paddr p) as [|x|x zx]; [done|..]; cbn [with_num addr_num addr_width Next] in *;
    subst w; rewrite Z.add_assoc; case_match; try (by left); right; (split; [|done]); lia.
Qed.

Lemma Contains_NoAddr p : Contains p NoAddr = false.
Proof. unfold Contains. destruct (paddr p); by rewrite andb_false_r. Qed.

Lemma ParsePrefix_ok s p : ParsePrefix s = Some p → prefix_valid p = true ∧ addr_wf (paddr p) = true.
Proof.
  unfold ParsePrefix. destruct (cut "/" _) as [[x y]|]; [|done]. rewrite bind_Some.
  destruct (ParseAddr _) as [a|] eqn:Pa; [|done]. rewrite bind_Some. case_decide as Hz; [|done].
  destruct (parse_bits _) as [b|] eqn:Pb; [|done]. rewrite bind_Some.
  destruct (Z.leb_spec b (addr_width a)); [|done]. intros [= <-].
  apply ParseAddr_wf in Pa as [Hv Hw]. split; [|done].
  assert (0 ≤ b) as H0.
  { unfold parse_bits in Pb. repeat case_match; try done; by apply digits_nonneg in Pb. }
  unfold prefix_valid. cbn [paddr pbits]. rewrite Hv. cbn [andb]. lia.
Qed.
