(* ===== verification/Codec.v ===== *)
(** * Hexadecimal and base64

    [encoding/hex] and the variants of [encoding/base64] the program uses:
    URL-safe without padding (setup keys and peer tokens) and standard with
    padding (sealed keys).  A byte is a number in [0, 256). *)
From S2P Require Import Prelude GoText TimeText NetAddr.
From Stdlib Require Import Ascii.

Definition bytes_of (s : string) : list Z := byte_of <$> chars s.
Definition string_of_bytes (l : list Z) : string := text (chr <$> l).
Definition is_byte (z : Z) : bool := (0 <=? z) && (z <? 256).

(** [hex.EncodeToString] *)
Fixpoint hex_encode (l : list Z) : string :=
  match l with
  | [] => ""
  | b :: l => String (hex_char (b / 16)) (String (hex_char (b mod 16)) (hex_encode l))
  end.

(** The two alphabets differ at 62 and 63. *)
Definition b64_char (url : bool) (d : Z) : ascii :=
  chr (if d <? 26 then 65 + d else if d <? 52 then 71 + d else if d <? 62 then d - 4
       else if d =? 62 then (if url then 45 else 43) else (if url then 95 else 47)).
Definition b64_val (url : bool) (c : ascii) : option Z :=
  let b := byte_of c in
  if (65 <=? b) && (b <=? 90) then Some (b - 65)
  else if (97 <=? b) && (b <=? 122) then Some (b - 71)
  else if (48 <=? b) && (b <=? 57) then Some (b + 4)
  else if b =? (if url then 45 else 43) then Some 62
  else if b =? (if url then 95 else 47) then Some 63 else None.

Fixpoint b64_encode (url pad : bool) (l : list Z) : string :=
  let c d := b64_char url (d mod 64) in
  match l with
  | [] => ""
  | [x] => String (c (x / 4)) (String (c (x * 16)) (if pad then "==" else ""))
  | [x; y] =>
      String (c (x / 4)) (String (c (x * 16 + y / 16)) (String (c (y * 4)) (if pad then "=" else "")))
  | x :: y :: z :: l =>
      String (c (x / 4)) (String (c (x * 16 + y / 16))
        (String (c (y * 4 + z / 64)) (String (c z) (b64_encode url pad l))))
  end.

(** [StdEncoding.DecodeString]: carriage returns and line feeds are skipped,
    the text is a multiple of four characters, padding only ends it. *)
Definition drop_newlines (l : list ascii) : list ascii :=
  filter (λ c, c ≠ "010"%char ∧ c ≠ "013"%char) l.
Fixpoint b64_decode_chars (url : bool) (l : list ascii) : option (list Z) :=
  match l with
  | [] => Some []
  | a :: b :: c :: d :: l =>
      x ← b64_val url a; y ← b64_val url b;
      if decide (c = "="%char) then
        if decide (d = "="%char ∧ l = []) then Some [x * 4 + y / 16] else None
      else z ← b64_val url c;
      if decide (d = "="%char) then
        if decide (l = []) then Some [x * 4 + y / 16; y mod 16 * 16 + z / 4] else None
      else w ← b64_val url d; r ← b64_decode_chars url l;
      Some (x * 4 + y / 16 :: y mod 16 * 16 + z / 4 :: z mod 4 * 64 + w :: r)
  | _ => None
  end.
Definition b64_std_decode (s : string) : option (list Z) :=
  b64_decode_chars false (drop_newlines (chars s)).

Definition RawURLEncode (l : list Z) : string := b64_encode true false l.
Definition StdEncode (l : list Z) : string := b64_encode false true l.

Example b64_a : StdEncode [77; 97; 110; 1] = "TWFuAQ==".
Proof. by vm_compute. Qed.

(** ** Round trips *)
Lemma bytes_of_string l : forallb is_byte l = true → bytes_of (string_of_bytes l) = l.
Proof.
  intros H. unfold bytes_of, string_of_bytes. rewrite chars_text, <- list_fmap_compose.
  induction l as [|z l IH]; [done|]. cbn [forallb] in H. apply andb_prop in H as [Hz Hl].
  cbn. unfold is_byte in Hz. f_equal; [apply byte_of_chr; lia|by apply IH].
Qed.

Lemma string_of_bytes_of s : string_of_bytes (bytes_of s) = s.
Proof.
  unfold bytes_of, string_of_bytes. rewrite <- list_fmap_compose.
  rewrite <- (text_chars s) at 2. f_equal. induction (chars s) as [|c l IH]; [done|].
  cbn. f_equal; [|done]. unfold chr, byte_of. rewrite N2Z.id. apply ascii_N_embedding.
Qed.

Lemma bytes_of_is_byte s : forallb is_byte (bytes_of s) = true.
Proof.
  unfold bytes_of. induction (chars s) as [|c l IH]; [done|]. cbn. rewrite IH.
  unfold is_byte, byte_of. pose proof (N_ascii_bounded c). lia.
Qed.

Lemma b64_val_char url d : 0 ≤ d < 64 → b64_val url (b64_char url d) = Some d.
Proof.
  intros Hd.
  assert (all_from 64 0 (λ d, bool_decide (b64_val url (b64_char url d) = Some d)) = true) as H
    by (by destruct url; vm_compute).
  pose proof (all_from_spec _ _ _ H d ltac:(lia)) as E. by apply bool_decide_eq_true in E.
Qed.

Lemma b64_char_not (c : ascii) url d :
  b64_val url c = None → 0 ≤ d < 64 → b64_char url d ≠ c.
Proof. intros Hc Hd <-. by rewrite b64_val_char in Hc. Qed.

Lemma drop_newlines_cons url d l :
  0 ≤ d < 64 → drop_newlines (b64_char url d :: l) = b64_char url d :: drop_newlines l.
Proof.
  intros Hd. unfold drop_newlines. rewrite filter_cons, decide_True; [done|].
  split; by apply b64_char_not; destruct url.
Qed.

Ltac b64_step :=
  repeat first [rewrite b64_val_char by lia | rewrite bind_Some
               | rewrite decide_False by (apply b64_char_not; [done|lia])].

Lemma b64_decode_encode_chars l :
  forallb is_byte l = true →
  b64_decode_chars false (drop_newlines (chars (b64_encode false true l))) = Some l.
Proof.
  assert (∀ n l, length l ≤ n → forallb is_byte l = true →
    b64_decode_chars false (drop_newlines (chars (b64_encode false true l))) = Some l)%nat as H;
    [|by eauto].
  intros n. induction n as [|n IH]; intros k Hn Hk.
  { destruct k; [done|simpl in Hn; lia]. }
  destruct k as [|x [|y [|z k]]]; [done|..]; cbn [forallb] in Hk; unfold is_byte in Hk.
  all: cbn [b64_encode chars String.list_ascii_of_string]; rewrite !drop_newlines_cons by lia.
  - change (drop_newlines ["="; "="]%char) with ["="; "="]%char.
    cbn [b64_decode_chars]. b64_step. rewrite !decide_True by done. do 2 f_equal. lia.
  - change (drop_newlines ["="]%char) with ["="]%char.
    cbn [b64_decode_chars]. b64_step. rewrite !decide_True by done.
    do 2 f_equal; [|f_equal]; lia.
  - cbn [b64_decode_chars]. b64_step.
    fold (chars (b64_encode false true k)).
    rewrite !andb_true_iff in Hk. destruct_and!.
    rewrite (IH k) by (done || (simpl in Hn; lia)). rewrite bind_Some.
    do 2 f_equal; [|f_equal; [|f_equal]]; lia.
Qed.

Lemma b64_std_decode_encode l : forallb is_byte l = true → b64_std_decode (StdEncode l) = Some l.
Proof. apply b64_decode_encode_chars. Qed.

(** ** [base64.RawStdEncoding]: the standard alphabet without padding *)
Definition RawStdEncode (l : list Z) : string := b64_encode false false l.
Fixpoint b64_raw_decode_chars (url : bool) (l : list ascii) : option (list Z) :=
  match l with
  | [] => Some []
  | [_] => None
  | [a; b] => x ← b64_val url a; y ← b64_val url b; Some [x * 4 + y / 16]
  | [a; b; c] =>
      x ← b64_val url a; y ← b64_val url b; z ← b64_val url c;
      Some [x * 4 + y / 16; y mod 16 * 16 + z / 4]
  | a :: b :: c :: d :: l =>
      x ← b64_val url a; y ← b64_val url b; z ← b64_val url c; w ← b64_val url d;
      r ← b64_raw_decode_chars url l;
      Some (x * 4 + y / 16 :: y mod 16 * 16 + z / 4 :: z mod 4 * 64 + w :: r)
  end.
Definition RawStdDecode (s : string) : option (list Z) :=
  b64_raw_decode_chars false (drop_newlines (chars s)).

Definition RawURLDecode (s : string) : option (list Z) :=
  b64_raw_decode_chars true (drop_newlines (chars s)).

Lemma b64_raw_decode_encode url l :
  forallb is_byte l = true → b64_raw_decode_chars url (drop_newlines (chars (b64_encode url false l))) = Some l.
Proof.
  assert (∀ n l, length l ≤ n → forallb is_byte l = true →
    b64_raw_decode_chars url (drop_newlines (chars (b64_encode url false l))) = Some l)%nat as H;
    [|by eauto].
  intros n. induction n as [|n IH]; intros k Hn Hk.
  { destruct k; [done|simpl in Hn; lia]. }
  destruct k as [|x [|y [|z k]]]; [done|..]; cbn [forallb] in Hk; unfold is_byte in Hk.
  all: cbn [b64_encode chars String.list_ascii_of_string]; rewrite !drop_newlines_cons by lia.
  - change (drop_newlines []) with (@nil ascii). cbn [b64_raw_decode_chars]. b64_step.
    do 2 f_equal. lia.
  - change (drop_newlines []) with (@nil ascii). cbn [b64_raw_decode_chars]. b64_step.
    do 2 f_equal; [|f_equal]; lia.
  - cbn [b64_raw_decode_chars]. b64_step. fold (chars (b64_encode url false k)).
    rewrite !andb_true_iff in Hk. destruct_and!.
    rewrite (IH k) by (done || (simpl in Hn; lia)). rewrite bind_Some.
    do 2 f_equal; [|f_equal; [|f_equal]]; lia.
Qed.
Lemma RawStdDecode_encode l : forallb is_byte l = true → RawStdDecode (RawStdEncode l) = Some l.
Proof. apply b64_raw_decode_encode. Qed.
Lemma RawURLDecode_encode l : forallb is_byte l = true → RawURLDecode (RawURLEncode l) = Some l.
Proof. apply b64_raw_decode_encode. Qed.

(** A character outside the alphabet does not occur. *)
Lemma b64_encode_no_char c url l :
  b64_val url c = None → no_char c (b64_encode url false l) = true.
Proof.
  intros Hc.
  assert (∀ d s, no_char c (String (b64_char url (d mod 64)) s) = no_char c s) as Hs.
  { intros d s. unfold no_char. rewrite str_forall_cons, bool_decide_eq_true_2; [done|].
    apply b64_char_not; [done|]. pose proof (Z.mod_pos_bound d 64). lia. }
  assert (∀ n l, length l ≤ n → no_char c (b64_encode url false l) = true)%nat as H; [|by eauto].
  intros n. induction n as [|n IH]; intros k Hn.
  { destruct k; [done|simpl in Hn; lia]. }
  destruct k as [|x [|y [|z k]]]; [done|..]; cbn [b64_encode]; rewrite !Hs; [done|done|].
  apply IH. simpl in Hn. lia.
Qed.
