(* ===== verification/Sha256.v ===== *)
(** * SHA-256, HMAC and HKDF

    The digest behind [HashToken] and the key derivation of internal/psk and
    internal/keyseal, executable, on lists of bytes.  Words are numbers reduced
    modulo 2^32. *)
From S2P Require Import Prelude GoText Codec.

Definition w32 (z : Z) : Z := z mod 2 ^ 32.
Definition rotr (n x : Z) : Z := Z.lor (Z.shiftr x n) (w32 (Z.shiftl x (32 - n))).
Definition shr (n x : Z) : Z := Z.shiftr x n.
Definition Ch (x y z : Z) : Z := Z.lxor (Z.land x y) (Z.land (Z.lxor x 0xffffffff) z).
Definition Maj (x y z : Z) : Z := Z.lxor (Z.lxor (Z.land x y) (Z.land x z)) (Z.land y z).
Definition Sigma0 (x : Z) : Z := Z.lxor (Z.lxor (rotr 2 x) (rotr 13 x)) (rotr 22 x).
Definition Sigma1 (x : Z) : Z := Z.lxor (Z.lxor (rotr 6 x) (rotr 11 x)) (rotr 25 x).
Definition sigma0 (x : Z) : Z := Z.lxor (Z.lxor (rotr 7 x) (rotr 18 x)) (shr 3 x).
Definition sigma1 (x : Z) : Z := Z.lxor (Z.lxor (rotr 17 x) (rotr 19 x)) (shr 10 x).

Definition K256 : list Z :=
  [1116352408; 1899447441; 3049323471; 3921009573; 961987163; 1508970993; 2453635748; 2870763221;
   3624381080; 310598401; 607225278; 1426881987; 1925078388; 2162078206; 2614888103; 3248222580;
   3835390401; 4022224774; 264347078; 604807628; 770255983; 1249150122; 1555081692; 1996064986;
   2554220882; 2821834349; 2952996808; 3210313671; 3336571891; 3584528711; 113926993; 338241895;
   666307205; 773529912; 1294757372; 1396182291; 1695183700; 1986661051; 2177026350; 2456956037;
   2730485921; 2820302411; 3259730800; 3345764771; 3516065817; 3600352804; 4094571909; 275423344;
   430227734; 506948616; 659060556; 883997877; 958139571; 1322822218; 1537002063; 1747873779;
   1955562222; 2024104815; 2227730452; 2361852424; 2428436474; 2756734187; 3204031479; 3329325298].
Definition H256 : list Z :=
  [1779033703; 3144134277; 1013904242; 2773480762; 1359893119; 2600822924; 528734635; 1541459225].

(** The message schedule, newest word first. *)
Fixpoint schedule (n : nat) (w : list Z) : list Z :=
  match n with
  | O => w
  | S n =>
      let g i := nth i w 0 in
      schedule n (w32 (sigma1 (g 1%nat) + g 6%nat + sigma0 (g 14%nat) + g 15%nat) :: w)
  end.

Definition round (s : list Z) (kw : Z * Z) : list Z :=
  match s with
  | [a; b; c; d; e; f; g; h] =>
      let t1 := w32 (h + Sigma1 e + Ch e f g + kw.1 + kw.2) in
      let t2 := w32 (Sigma0 a + Maj a b c) in
      [w32 (t1 + t2); a; b; c; w32 (d + t1); e; f; g]
  | _ => s
  end.
Definition compress (h : list Z) (block : list Z) : list Z :=
  let w := rev (schedule 48 (rev block)) in
  zip_with (λ x y, w32 (x + y)) h (foldl round h (zip K256 w)).

Definition be_word (l : list Z) : Z := foldl (λ acc b, 256 * acc + b) 0 l.
Definition be_bytes (n : nat) (z : Z) : list Z :=
  (λ i, z / 2 ^ (8 * Z.of_nat i) mod 256) <$> rev (seq 0 n).

Fixpoint chunks {A} (fuel n : nat) (l : list A) : list (list A) :=
  match fuel with
  | O => []
  | S fuel => match l with [] => [] | _ => take n l :: chunks fuel n (drop n l) end
  end.

Definition pad_message (m : list Z) : list Z :=
  let n := length m in
  let zeros := ((119 - n mod 64) mod 64)%nat in
  m ++ [128] ++ replicate zeros 0 ++ be_bytes 8 (8 * Z.of_nat n).

Definition sha256 (m : list Z) : list Z :=
  let p := pad_message m in
  let blocks := chunks (length p) 64 p in
  let words b := be_word <$> chunks 16 4 b in
  mjoin (be_bytes 4 <$> foldl (λ h b, compress h (words b)) H256 blocks).

(** [crypto/hmac] and RFC 5869 as [crypto/hkdf.Key] runs it with a nil salt. *)
Definition hmac (key msg : list Z) : list Z :=
  let k := if (64 <? length key)%nat then sha256 key else key in
  let k := k ++ replicate (64 - length k) 0 in
  sha256 ((Z.lxor 0x5c <$> k) ++ sha256 ((Z.lxor 0x36 <$> k) ++ msg)).
Fixpoint hkdf_expand (n : nat) (i : Z) (prk prev info : list Z) : list Z :=
  match n with
  | O => []
  | S n => let t := hmac prk (prev ++ info ++ [i]) in t ++ hkdf_expand n (i + 1) prk t info
  end.
Definition hkdf_key (secret : list Z) (info : string) (len : nat) : list Z :=
  take len (hkdf_expand ((len + 31) / 32) 1 (hmac (replicate 32 0) secret) [] (bytes_of info)).

Example sha256_abc :
  hex_encode (sha256 (bytes_of "abc")) =
  "ba7816bf8f01cfea414140de5dae2223b00361a396177a9cb410ff61f20015ad".
Proof. by vm_compute. Qed.
Example sha256_two_blocks :
  hex_encode (sha256 (bytes_of "abcdbcdecdefdefgefghfghighijhijkijkljklmklmnlmnomnopnopq")) =
  "248d6a61d20638b8e5c026930c3e6039a33ce45964ff2167f6ecedd419db06c1".
Proof. by vm_compute. Qed.
