(* ===== verification/Json.v ===== *)
(** * JSON

    What the store and the server use of [encoding/json]: [Marshal] of lists of
    strings and of the agents' endpoint candidates, [Unmarshal] of the same.
    Texts are lists of bytes.  The encoder escapes the way Go does (HTML
    characters and U+2028/9 included, ill-formed UTF-8 replaced); the decoder
    reads any JSON text.  Go's limit of 10000 nested values is not modelled;
    object keys are matched to field names ignoring the case of ASCII letters. *)
From S2P Require Import Prelude GoText TimeText NetAddr Codec.
From Stdlib Require Import Ascii.

(** ** Encoding *)
Definition str_bytes (s : string) : list Z := bytes_of s.
Definition hex_byte (d : Z) : Z := if d <? 10 then 48 + d else 87 + d.

(** The length of the well-formed multi-byte UTF-8 sequence a text starts with,
    0 when there is none. *)
Definition cont (b : Z) : bool := (128 <=? b) && (b <? 192).
Definition within (lo hi b : Z) : bool := (lo <=? b) && (b <=? hi).
Definition utf8_len (l : list Z) : nat :=
  match l with
  | a :: b :: l =>
      if within 0xC2 0xDF a && cont b then 2%nat
      else match l with
      | c :: l =>
          if ((a =? 0xE0) && within 0xA0 0xBF b
              || (within 0xE1 0xEC a || within 0xEE 0xEF a) && cont b
              || (a =? 0xED) && within 0x80 0x9F b) && cont c then 3%nat
          else match l with
          | d :: _ =>
              if ((a =? 0xF0) && within 0x90 0xBF b || within 0xF1 0xF3 a && cont b
                  || (a =? 0xF4) && within 0x80 0x8F b) && cont c && cont d then 4%nat else 0%nat
          | [] => 0%nat
          end
      | [] => 0%nat
      end
  | _ => 0%nat
  end.

Definition escape_ascii (b : Z) : list Z :=
  if (b =? 34) || (b =? 92) then [92; b]
  else if b =? 8 then [92; 98] else if b =? 12 then [92; 102] else if b =? 10 then [92; 110]
  else if b =? 13 then [92; 114] else if b =? 9 then [92; 116]
  else if (b <? 32) || (b =? 38) || (b =? 60) || (b =? 62)
  then [92; 117; 48; 48; hex_byte (b / 16); hex_byte (b mod 16)] else [b].

(** [keep] bytes of a sequence already recognised are copied ([true]) or
    dropped. *)
Fixpoint escape (keep : nat) (copy : bool) (l : list Z) : list Z :=
  match l with
  | [] => []
  | b :: l' =>
      match keep with
      | S n => (if copy then [b] else []) ++ escape n copy l'
      | O =>
          if b <? 128 then escape_ascii b ++ escape 0 true l'
          else match utf8_len l with
          | O => [92; 117; 102; 102; 102; 100] ++ escape 0 true l'
          | S n =>
              match l with
              | 0xE2 :: 0x80 :: 0xA8 :: _ => [92; 117; 50; 48; 50; 56] ++ escape n false l'
              | 0xE2 :: 0x80 :: 0xA9 :: _ => [92; 117; 50; 48; 50; 57] ++ escape n false l'
              | _ => b :: escape n true l'
              end
          end
      end
  end.
Definition quote (l : list Z) : list Z := [34] ++ escape 0 true l ++ [34].

Fixpoint join_bytes (ls : list (list Z)) : list Z :=
  match ls with
  | [] => []
  | [x] => x
  | x :: ls => x ++ [44] ++ join_bytes ls
  end.

(** A nil slice is [null]. *)
Definition marshal_list {A} (enc : A → list Z) (l : list A) : list Z :=
  match l with
  | [] => str_bytes "null"
  | _ => [91] ++ join_bytes (enc <$> l) ++ [93]
  end.
Definition marshal_strings (l : list string) : string :=
  string_of_bytes (marshal_list (λ s, quote (str_bytes s)) l).

(** [proto.AgentCandidate] *)
Record AgentCandidate : Type := mkAgentCandidate { ac_Endpoint : string; ac_Type : string }.
Definition marshal_candidate (c : AgentCandidate) : list Z :=
  str_bytes "{" ++ quote (str_bytes "endpoint") ++ [58] ++ quote (str_bytes (ac_Endpoint c)) ++ [44]
  ++ quote (str_bytes "type") ++ [58] ++ quote (str_bytes (ac_Type c)) ++ str_bytes "}".
Definition marshal_candidates (l : list AgentCandidate) : string :=
  string_of_bytes (marshal_list marshal_candidate l).

(** ** Decoding *)
Inductive J : Type :=
| JNull
| JBool (b : bool)
| JNum (raw : list Z)
| JStr (s : list Z)
| JArr (l : list J)
| JObj (l : list (list Z * J)).

Definition is_ws (b : Z) : bool := (b =? 32) || (b =? 9) || (b =? 10) || (b =? 13).
Fixpoint skip_ws (l : list Z) : list Z :=
  match l with b :: l' => if is_ws b then skip_ws l' else l | [] => [] end.

(** UTF-8 of a code point. *)
Definition utf8 (r : Z) : list Z :=
  if r <? 0x80 then [r]
  else if r <? 0x800 then [0xC0 + r / 64; 0x80 + r mod 64]
  else if r <? 0x10000 then [0xE0 + r / 4096; 0x80 + r / 64 mod 64; 0x80 + r mod 64]
  else [0xF0 + r / 262144; 0x80 + r / 4096 mod 64; 0x80 + r / 64 mod 64; 0x80 + r mod 64].
Definition replacement : list Z := utf8 0xFFFD.

Definition hexv (b : Z) : option Z :=
  if within 48 57 b then Some (b - 48)
  else if within 97 102 b then Some (b - 87)
  else if within 65 70 b then Some (b - 55) else None.
Definition u4 (a b c d : Z) : option Z :=
  w ← hexv a; x ← hexv b; y ← hexv c; z ← hexv d; Some (((w * 16 + x) * 16 + y) * 16 + z).
Definition simple_escape (b : Z) : option Z :=
  if (b =? 34) || (b =? 92) || (b =? 47) then Some b
  else if b =? 98 then Some 8 else if b =? 102 then Some 12 else if b =? 110 then Some 10
  else if b =? 114 then Some 13 else if b =? 116 then Some 9 else None.

(** The rest of a string literal up to its closing quote, as raw text with the
    escapes resolved, and what follows it.  A high surrogate waits in [hi] for
    the low one; [keep] counts the bytes of a recognised UTF-8 sequence. *)
Definition flush (hi : option Z) : list Z := match hi with Some _ => replacement | None => [] end.
Fixpoint unquote (hi : option Z) (keep : nat) (l : list Z) : option (list Z * list Z) :=
  match l with
  | [] => None
  | b :: l' =>
      match keep with
      | S n => '(s, r) ← unquote None n l'; Some (b :: s, r)
      | O =>
          if b =? 34 then Some (flush hi, l')
          else if b <? 32 then None
          else if b =? 92 then
            match l' with
            | 117 :: a1 :: a2 :: a3 :: a4 :: l'' =>
                u ← u4 a1 a2 a3 a4;
                match hi with
                | Some h =>
                    if within 0xDC00 0xDFFF u then
                      '(s, r) ← unquote None 0 l'';
                      Some (utf8 (0x10000 + (h - 0xD800) * 0x400 + (u - 0xDC00)) ++ s, r)
                    else if within 0xD800 0xDBFF u then
                      '(s, r) ← unquote (Some u) 0 l''; Some (replacement ++ s, r)
                    else '(s, r) ← unquote None 0 l''; Some (replacement ++ utf8 u ++ s, r)
                | None =>
                    if within 0xD800 0xDBFF u then unquote (Some u) 0 l''
                    else if within 0xDC00 0xDFFF u then
                      '(s, r) ← unquote None 0 l''; Some (replacement ++ s, r)
                    else '(s, r) ← unquote None 0 l''; Some (utf8 u ++ s, r)
                end
            | e :: l'' =>
                c ← simple_escape e; '(s, r) ← unquote None 0 l''; Some (flush hi ++ c :: s, r)
            | [] => None
            end
          else if b <? 128 then '(s, r) ← unquote None 0 l'; Some (flush hi ++ b :: s, r)
          else
            match utf8_len l with
            | O => '(s, r) ← unquote None 0 l'; Some (flush hi ++ replacement ++ s, r)
            | S n => '(s, r) ← unquote None n l'; Some (flush hi ++ b :: s, r)
            end
      end
  end.

(** Numbers, as text. *)
Fixpoint take_digits (l : list Z) : list Z * list Z :=
  match l with
  | b :: l' => if within 48 57 b then let '(d, r) := take_digits l' in (b :: d, r) else ([], l)
  | [] => ([], [])
  end.
Definition take_int (l : list Z) : option (list Z * list Z) :=
  match l with
  | 48 :: r => Some ([48], r)
  | _ => match take_digits l with ([], _) => None | p => Some p end
  end.
Definition take_frac (l : list Z) : option (list Z * list Z) :=
  match l with
  | 46 :: l' => match take_digits l' with ([], _) => None | (d, r) => Some (46 :: d, r) end
  | _ => Some ([], l)
  end.
Definition take_exp (l : list Z) : option (list Z * list Z) :=
  match l with
  | e :: l' =>
      if (e =? 101) || (e =? 69) then
        let '(sg, l'') := match l' with
          | s :: r => if (s =? 43) || (s =? 45) then ([s], r) else ([], l')
          | [] => ([], [])
          end in
        match take_digits l'' with ([], _) => None | (d, r) => Some (e :: sg ++ d, r) end
      else Some ([], l)
  | [] => Some ([], [])
  end.
Definition parse_number (l : list Z) : option (J * list Z) :=
  let '(sg, l) := match l with 45 :: r => ([45], r) | _ => ([], l) end in
  '(i, l) ← take_int l; '(f, l) ← take_frac l; '(e, l) ← take_exp l;
  Some (JNum (sg ++ i ++ f ++ e), l).

Fixpoint strip (p l : list Z) : option (list Z) :=
  match p, l with
  | [], _ => Some l
  | a :: p, b :: l => if a =? b then strip p l else None
  | _ :: _, [] => None
  end.

Fixpoint parse_value (fuel : nat) (l : list Z) : option (J * list Z) :=
  match fuel with
  | O => None
  | S fuel =>
      match skip_ws l with
      | 34 :: r => '(s, r) ← unquote None 0 r; Some (JStr s, r)
      | 91 :: r =>
          match skip_ws r with
          | 93 :: r => Some (JArr [], r)
          | _ => '(vs, r) ← parse_elems fuel r; Some (JArr vs, r)
          end
      | 123 :: r =>
          match skip_ws r with
          | 125 :: r => Some (JObj [], r)
          | _ => '(ms, r) ← parse_members fuel r; Some (JObj ms, r)
          end
      | (110 :: _) as l => r ← strip (str_bytes "null") l; Some (JNull, r)
      | (116 :: _) as l => r ← strip (str_bytes "true") l; Some (JBool true, r)
      | (102 :: _) as l => r ← strip (str_bytes "false") l; Some (JBool false, r)
      | l => parse_number l
      end
  end
with parse_elems (fuel : nat) (l : list Z) : option (list J * list Z) :=
  match fuel with
  | O => None
  | S fuel =>
      '(v, r) ← parse_value fuel l;
      match skip_ws r with
      | 44 :: r => '(vs, r) ← parse_elems fuel r; Some (v :: vs, r)
      | 93 :: r => Some ([v], r)
      | _ => None
      end
  end
with parse_members (fuel : nat) (l : list Z) : option (list (list Z * J) * list Z) :=
  match fuel with
  | O => None
  | S fuel =>
      match skip_ws l with
      | 34 :: r =>
          '(k, r) ← unquote None 0 r;
          match skip_ws r with
          | 58 :: r =>
              '(v, r) ← parse_value fuel r;
              match skip_ws r with
              | 44 :: r => '(ms, r) ← parse_members fuel r; Some ((k, v) :: ms, r)
              | 125 :: r => Some ([(k, v)], r)
              | _ => None
              end
          | _ => None
          end
      | _ => None
      end
  end.

(** A whole text: one value and blanks.  Every call below consumes a byte or
    returns, so twice the length is more than enough fuel. *)
Definition parse_json (s : string) : option J :=
  let l := str_bytes s in
  '(v, r) ← parse_value (S (S (2 * length l))) l;
  match skip_ws r with [] => Some v | _ => None end.

(** [Unmarshal] into a slice that was nil: [null] keeps it nil, a [null]
    element is the zero value. *)
Definition unmarshal_list {A} (dec : J → option A) (s : string) : option (list A) :=
  v ← parse_json s;
  match v with
  | JNull => Some []
  | JArr vs => mapM dec vs
  | _ => None
  end.
Definition as_string (v : J) : option string :=
  match v with JStr s => Some (string_of_bytes s) | JNull => Some "" | _ => None end.
Definition unmarshal_strings (s : string) : option (list string) := unmarshal_list as_string s.

Definition lower_byte (b : Z) : Z := if within 65 90 b then b + 32 else b.
Definition key_is (name : string) (k : list Z) : bool :=
  bool_decide (lower_byte <$> k = str_bytes name).
Fixpoint set_fields (ms : list (list Z * J)) (c : AgentCandidate) : option AgentCandidate :=
  match ms with
  | [] => Some c
  | (k, v) :: ms =>
      if key_is "endpoint" k then
        match v with
        | JNull => set_fields ms c
        | JStr s => set_fields ms (mkAgentCandidate (string_of_bytes s) (ac_Type c))
        | _ => None
        end
      else if key_is "type" k then
        match v with
        | JNull => set_fields ms c
        | JStr s => set_fields ms (mkAgentCandidate (ac_Endpoint c) (string_of_bytes s))
        | _ => None
        end
      else set_fields ms c
  end.
Definition as_candidate (v : J) : option AgentCandidate :=
  match v with
  | JObj ms => set_fields ms (mkAgentCandidate "" "")
  | JNull => Some (mkAgentCandidate "" "")
  | _ => None
  end.
Definition unmarshal_candidates (s : string) : option (list AgentCandidate) :=
  unmarshal_list as_candidate s.

Example strings_text : marshal_strings ["1.1.1.1"; "a<b"] =
  string_of_bytes (str_bytes "[" ++ [34] ++ str_bytes "1.1.1.1" ++ [34] ++ str_bytes "," ++ [34]
    ++ str_bytes "a\u003cb" ++ [34] ++ str_bytes "]").
Proof. reflexivity. Qed.
Example strings_back : unmarshal_strings (marshal_strings ["1.1.1.1"; "a<b"]) = Some ["1.1.1.1"; "a<b"].
Proof. reflexivity. Qed.
Example candidates_back :
  unmarshal_candidates (marshal_candidates [mkAgentCandidate "10.0.0.1:51820" "host"])
  = Some [mkAgentCandidate "10.0.0.1:51820" "host"].
Proof. reflexivity. Qed.

(** ** Round trips

    For texts of printable ASCII, quotes, backslashes and HTML characters
    included: every value the program stores as JSON is such a text. *)
Definition printable (b : Z) : Prop := 32 ≤ b ≤ 126.

Definition escaped (b : Z) : Prop := b = 34 ∨ b = 92 ∨ b = 38 ∨ b = 60 ∨ b = 62.
Lemma unquote_escaped b l :
  escaped b → unquote None 0 (escape_ascii b ++ l) = '(s, r) ← unquote None 0 l; Some (b :: s, r).
Proof. intros [->|[->|[->|[->| ->]]]]; reflexivity. Qed.
Lemma unquote_plain b l :
  printable b → ¬ escaped b →
  unquote None 0 (escape_ascii b ++ l) = '(s, r) ← unquote None 0 l; Some (b :: s, r).
Proof.
  unfold printable, escaped. intros Hb Hs. assert (escape_ascii b = [b]) as ->.
  { unfold escape_ascii. repeat case_match; try done; lia. }
  cbn [app unquote]. destruct (Z.eqb_spec b 34); [lia|]. destruct (Z.ltb_spec b 32); [lia|].
  destruct (Z.eqb_spec b 92); [lia|]. by destruct (Z.ltb_spec b 128); [|lia].
Qed.
Lemma unquote_escape l r :
  Forall printable l → unquote None 0 (escape 0 true l ++ 34 :: r) = Some (l, r).
Proof.
  induction 1 as [|b l Hb Hl IH]; [done|].
  cbn [escape]. destruct (Z.ltb_spec b 128); [|unfold printable in Hb; lia].
  rewrite <-app_assoc.
  assert (Decision (escaped b)) as Hd by (unfold escaped; apply _).
  destruct (decide (escaped b)) as [Hs|Hs];
    [rewrite (unquote_escaped _ _ Hs)|rewrite (unquote_plain _ _ Hb Hs)]; by rewrite IH.
Qed.

Lemma parse_quote fuel s r :
  Forall printable s → parse_value (S fuel) (quote s ++ r) = Some (JStr s, r).
Proof.
  intros Hs. unfold quote. rewrite <- !app_assoc. cbn [app parse_value skip_ws].
  change (is_ws 34) with false. cbv iota. by rewrite unquote_escape.
Qed.

(** A list of values, each read back by [parse_value]. *)
Lemma parse_elems_join {A} (enc : A → list Z) (val : A → J) (n : nat) ls fuel r :
  (∀ a f r', a ∈ ls → parse_value (S (n + f)) (enc a ++ r') = Some (val a, r')) →
  ls ≠ [] → (length ls + n < fuel)%nat →
  parse_elems fuel (join_bytes (enc <$> ls) ++ 93 :: r) = Some (val <$> ls, r).
Proof.
  intros Hp. revert fuel. induction ls as [|a ls IH]; [done|]. intros fuel _ Hf.
  destruct fuel as [|fuel]; [lia|]. cbn [length] in Hf.
  assert (∀ r', parse_value fuel (enc a ++ r') = Some (val a, r')) as Ha.
  { intros r'. replace fuel with (S (n + (fuel - S n)))%nat by lia. apply Hp. left. }
  destruct ls as [|a' ls].
  - cbn [fmap list_fmap join_bytes parse_elems]. by rewrite Ha.
  - change (join_bytes (enc <$> a :: a' :: ls)) with (enc a ++ [44] ++ join_bytes (enc <$> a' :: ls)).
    rewrite <- !app_assoc. cbn [parse_elems].
    rewrite Ha, bind_Some. cbn [app skip_ws]. change (is_ws 44) with false. cbv iota.
    rewrite IH; [done|..|lia]; [|done]. intros; apply Hp. by right.
Qed.

Definition printable_text (s : string) : Prop := Forall printable (str_bytes s).

Lemma str_bytes_back s : string_of_bytes (str_bytes s) = s.
Proof. apply string_of_bytes_of. Qed.
Lemma escape_bytes keep copy l : forallb is_byte l = true → forallb is_byte (escape keep copy l) = true.
Proof.
  revert keep copy. induction l as [|b l IH]; intros keep copy H; [done|].
  pose proof H as Hbl. cbn [forallb] in H. apply andb_true_iff in H as [Hb Hl].
  assert (forallb is_byte (escape_ascii b) = true) as Ha.
  { unfold escape_ascii, is_byte, hex_byte in *. repeat case_match; cbn [forallb];
      rewrite ?andb_true_iff; repeat split; lia. }
  cbn [escape]. destruct keep as [|n].
  - destruct (b <? 128); [by rewrite forallb_app, Ha, IH|].
    destruct (utf8_len (b :: l)) as [|n]; [rewrite forallb_app, IH by done; reflexivity|].
    repeat case_match; rewrite ?forallb_app; cbn [forallb]; by rewrite ?Hb, IH.
  - destruct copy; cbn [app forallb]; by rewrite ?Hb, IH.
Qed.
Lemma quote_bytes l : forallb is_byte l = true → forallb is_byte (quote l) = true.
Proof. intros H. unfold quote. rewrite !forallb_app, escape_bytes by done. reflexivity. Qed.
Lemma join_bytes_bytes ls :
  (∀ l, l ∈ ls → forallb is_byte l = true) → forallb is_byte (join_bytes ls) = true.
Proof.
  induction ls as [|x ls IH]; [done|]. intros H. destruct ls as [|y ls]; [apply H; left|].
  change (join_bytes (x :: y :: ls)) with (x ++ [44] ++ join_bytes (y :: ls)).
  rewrite !forallb_app, IH, (H x) by (try left; intros; apply H; by right). reflexivity.
Qed.
Lemma marshal_list_bytes {A} (enc : A → list Z) l :
  (∀ a, forallb is_byte (enc a) = true) → forallb is_byte (marshal_list enc l) = true.
Proof.
  intros H. unfold marshal_list. destruct l; [reflexivity|].
  rewrite !forallb_app, join_bytes_bytes; [reflexivity|].
  intros x (y & -> & _)%list_elem_of_fmap. apply H.
Qed.

(** [Marshal] then [Unmarshal] of a list, given that its elements come back. *)
Lemma unmarshal_marshal {A} (enc : A → list Z) (val : A → J) dec (n : nat) (ls : list A) :
  (∀ a, forallb is_byte (enc a) = true) →
  (∀ a f r', a ∈ ls → parse_value (S (n + f)) (enc a ++ r') = Some (val a, r')) →
  (∀ a, a ∈ ls → dec (val a) = Some a) → (∀ a, a ∈ ls → (n < length (enc a))%nat) →
  unmarshal_list dec (string_of_bytes (marshal_list enc ls)) = Some ls.
Proof.
  intros Hb Hp Hd Hn. unfold unmarshal_list, parse_json, str_bytes.
  rewrite bytes_of_string by (by apply marshal_list_bytes).
  destruct ls as [|a ls]; [done|].
  assert (n + length (a :: ls) < length (join_bytes (enc <$> a :: ls)) + 2)%nat as Hlen.
  { clear Hp Hd Hb. revert a Hn. induction ls as [|b ls IH]; intros a Hn.
    - cbn. specialize (Hn a ltac:(left)). lia.
    - change (join_bytes (enc <$> a :: b :: ls)) with (enc a ++ [44] ++ join_bytes (enc <$> b :: ls)).
      rewrite !length_app. specialize (IH b ltac:(intros; apply Hn; by right)). cbn [length] in *. lia. }
  unfold marshal_list. set (body := join_bytes (enc <$> a :: ls)) in *.
  assert (length ([91] ++ body ++ [93]) = S (S (length body))) as Hl
    by (rewrite !length_app; cbn [length]; lia).
  rewrite Hl. cbn [app parse_value skip_ws]. change (is_ws 91) with false. cbv iota.
  assert (parse_elems (S (2 * S (S (length body)))) (body ++ [93]) = Some (val <$> a :: ls, [])) as Hpe.
  { apply (parse_elems_join enc val n); [done|done|]. cbn [length] in *. lia. }
  assert (∀ X Y, body ++ [93] = X → match skip_ws X with 93 :: _ => False | _ => True end → 
    match skip_ws X with 93 :: r => Some (JArr [], r) | _ => Y end = Y) as Hskip.
  { intros X Y _. repeat case_match; done. }
  rewrite (Hskip _ _ eq_refl).
  - rewrite Hpe, !bind_Some. cbn [skip_ws]. rewrite bind_Some.
    clear -Hd. induction (a :: ls) as [|x l IH]; [done|].
    cbn [fmap list_fmap]. cbn [mapM]. rewrite (Hd x) by left. rewrite bind_Some, IH; [done|].
    intros; apply Hd. by right.
  - cbn [parse_elems] in Hpe. repeat case_match; try done. exfalso.
    assert (parse_value (2 * S (S (length body))) (body ++ [93]) = None) as Hbad.
    { replace (2 * S (S (length body)))%nat with (S (S (2 * S (length body)))) by lia.
      cbn [parse_value]. by rewrite H. }
    rewrite Hbad in Hpe. done.
Qed.

Lemma unmarshal_marshal_strings ls :
  Forall printable_text ls → unmarshal_strings (marshal_strings ls) = Some ls.
Proof.
  intros Hs. apply (unmarshal_marshal _ (λ s, JStr (str_bytes s)) as_string 0).
  - intros a. apply quote_bytes, bytes_of_is_byte.
  - intros a f r Ha. apply parse_quote. rewrite Forall_forall in Hs. by apply Hs.
  - intros a _. cbn. by rewrite str_bytes_back.
  - intros a _. unfold quote. rewrite !length_app. cbn [length]. lia.
Qed.

Definition printable_candidate (c : AgentCandidate) : Prop :=
  printable_text (ac_Endpoint c) ∧ printable_text (ac_Type c).

(** One member of an object. *)
Lemma parse_member fuel k v r sep :
  Forall printable k → Forall printable v → sep = 44 ∨ sep = 125 →
  parse_members (S (S fuel)) (quote k ++ [58] ++ quote v ++ sep :: r) =
  if sep =? 125 then Some ([(k, JStr v)], r)
  else '(ms, r) ← parse_members (S fuel) r; Some ((k, JStr v) :: ms, r).
Proof.
  intros Hk Hv Hsep. unfold quote at 1. rewrite <- !app_assoc. cbn [app].
  cbn [parse_members skip_ws]. change (is_ws 34) with false. cbv iota.
  rewrite unquote_escape, bind_Some by done. cbn [skip_ws]. change (is_ws 58) with false. cbv iota.
  rewrite parse_quote, bind_Some by done. destruct Hsep as [->| ->]; reflexivity.
Qed.

Lemma parse_candidate f c r :
  printable_candidate c →
  parse_value (S (3 + f)) (marshal_candidate c ++ r) =
  Some (JObj [(str_bytes "endpoint", JStr (str_bytes (ac_Endpoint c)));
              (str_bytes "type", JStr (str_bytes (ac_Type c)))], r).
Proof.
  intros [He Ht].
  assert (∀ s, forallb (λ z, (32 <=? z) && (z <=? 126)) (str_bytes s) = true → printable_text s) as Hk.
  { intros s H. apply Forall_forall. intros z Hz. rewrite forallb_forall in H.
    specialize (H z ltac:(by apply list_elem_of_In)). unfold printable. lia. }
  unfold marshal_candidate. rewrite <- !app_assoc.
  change (str_bytes "{") with [123]. change (str_bytes "}") with [125].
  cbn [Nat.add]. cbn [app parse_value skip_ws]. change (is_ws 123) with false. cbv iota.
  unfold quote at 1. cbn [app skip_ws]. change (is_ws 34) with false. cbv iota.
  change (34 :: (escape 0 true (str_bytes "endpoint") ++ [34]) ++ ?x)
    with (quote (str_bytes "endpoint") ++ x).
  pose proof (parse_member (S f) (str_bytes "endpoint") (str_bytes (ac_Endpoint c))
    (quote (str_bytes "type") ++ [58] ++ quote (str_bytes (ac_Type c)) ++ 125 :: r) 44) as P1.
  cbn [app] in P1. rewrite P1 by (try done; try (by apply Hk); by left).
  pose proof (parse_member f (str_bytes "type") (str_bytes (ac_Type c)) r 125) as P2.
  cbn [app] in P2. rewrite P2 by (try done; try (by apply Hk); by right). reflexivity.
Qed.

Lemma unmarshal_marshal_candidates ls :
  Forall printable_candidate ls → unmarshal_candidates (marshal_candidates ls) = Some ls.
Proof.
  intros Hs. apply (unmarshal_marshal _ (λ c,
    JObj [(str_bytes "endpoint", JStr (str_bytes (ac_Endpoint c)));
          (str_bytes "type", JStr (str_bytes (ac_Type c)))]) as_candidate 3).
  - intros a. unfold marshal_candidate, str_bytes. rewrite !forallb_app.
    rewrite !quote_bytes, !bytes_of_is_byte by apply bytes_of_is_byte. reflexivity.
  - intros a f r Ha. apply parse_candidate. rewrite Forall_forall in Hs. by apply Hs.
  - intros a _. destruct a as [e t]. cbn -[str_bytes]. unfold as_candidate. cbn [set_fields].
    change (key_is "endpoint" (str_bytes "endpoint")) with true.
    change (key_is "endpoint" (str_bytes "type")) with false.
    change (key_is "type" (str_bytes "type")) with true. cbn [ac_Endpoint ac_Type].
    by rewrite !str_bytes_back.
  - intros a _. unfold marshal_candidate. rewrite !length_app. cbn [length]. 
    assert (length (str_bytes "{") = 1%nat) as -> by done. unfold quote. rewrite !length_app. cbn [length]. lia.
Qed.
