(* ===== verification/Schema.v ===== *)
(** * The database

    The tables of schema.sql and of the migrations in internal/store/store.go
    (schema version 18), as records, with the constraints SQLite enforces on
    them.  A table is the list of its rows in rowid order; [link_stats] and
    [peer_paths], whose primary key is a pair of peers, are finite maps; so is
    the key/value table [settings].  A NULL column is [None].

    SQLite's part is modelled by [insert_peer], [update_peers] and the like:
    they check UNIQUE, CHECK and foreign keys the way the schema declares them
    and fail with [ErrConstraint]; deleting a peer runs the foreign-key actions
    (CASCADE and SET NULL).  Disk and driver failures are not modelled. *)
From S2P Require Import Prelude GoText.
From Stdlib Require Export Sorted.

(** Table [setup_keys]. *)
Record SetupKey : Type := mkKey {
  k_id : Z;
  k_key : string;
  k_name : option string;
  k_created_at : string;
  k_expires_at : option string;
  k_revoked_at : option string;
  k_max_uses : option Z;
  k_uses_consumed : Z
}.

Definition set_k_uses_consumed (v : Z) (r : SetupKey) : SetupKey :=
  mkKey (k_id r) (k_key r) (k_name r) (k_created_at r) (k_expires_at r) (k_revoked_at r) (k_max_uses r) v.
Definition set_k_revoked_at (v : option string) (r : SetupKey) : SetupKey :=
  mkKey (k_id r) (k_key r) (k_name r) (k_created_at r) (k_expires_at r) v (k_max_uses r) (k_uses_consumed r).

(** Table [peers], with the columns the migrations add. *)
Record Peer : Type := mkPeer {
  p_id : Z;
  p_public_key : string;
  p_assigned_ip : string;
  p_hostname : option string;
  p_listen_port : option Z;
  p_last_seen_at : option string;
  p_created_at : string;
  p_revoked_at : option string;
  p_setup_key_id : Z;
  p_auth_token_hash : option string;
  p_observed_ip : option string;
  p_public_endpoint : option string;
  p_auth_token_issued_at : option string;
  p_assigned_ip6 : option string;
  p_peer_type : string;
  p_gateway_peer_id : option Z;
  p_private_key_enc : option string;
  p_gateway_endpoint : option string;
  p_candidates : option string;
  p_nat_type : option string;
  p_advertise_exit_node : bool;
  p_exit_node_peer_id : option Z;
  p_agent_version : option string
}.

Definition set_p_assigned_ip (v : string) (r : Peer) : Peer :=
  mkPeer (p_id r) (p_public_key r) v (p_hostname r) (p_listen_port r) (p_last_seen_at r) (p_created_at r) (p_revoked_at r) (p_setup_key_id r) (p_auth_token_hash r) (p_observed_ip r) (p_public_endpoint r) (p_auth_token_issued_at r) (p_assigned_ip6 r) (p_peer_type r) (p_gateway_peer_id r) (p_private_key_enc r) (p_gateway_endpoint r) (p_candidates r) (p_nat_type r) (p_advertise_exit_node r) (p_exit_node_peer_id r) (p_agent_version r).
Definition set_p_hostname (v : option string) (r : Peer) : Peer :=
  mkPeer (p_id r) (p_public_key r) (p_assigned_ip r) v (p_listen_port r) (p_last_seen_at r) (p_created_at r) (p_revoked_at r) (p_setup_key_id r) (p_auth_token_hash r) (p_observed_ip r) (p_public_endpoint r) (p_auth_token_issued_at r) (p_assigned_ip6 r) (p_peer_type r) (p_gateway_peer_id r) (p_private_key_enc r) (p_gateway_endpoint r) (p_candidates r) (p_nat_type r) (p_advertise_exit_node r) (p_exit_node_peer_id r) (p_agent_version r).
Definition set_p_listen_port (v : option Z) (r : Peer) : Peer :=
  mkPeer (p_id r) (p_public_key r) (p_assigned_ip r) (p_hostname r) v (p_last_seen_at r) (p_created_at r) (p_revoked_at r) (p_setup_key_id r) (p_auth_token_hash r) (p_observed_ip r) (p_public_endpoint r) (p_auth_token_issued_at r) (p_assigned_ip6 r) (p_peer_type r) (p_gateway_peer_id r) (p_private_key_enc r) (p_gateway_endpoint r) (p_candidates r) (p_nat_type r) (p_advertise_exit_node r) (p_exit_node_peer_id r) (p_agent_version r).
Definition set_p_last_seen_at (v : option string) (r : Peer) : Peer :=
  mkPeer (p_id r) (p_public_key r) (p_assigned_ip r) (p_hostname r) (p_listen_port r) v (p_created_at r) (p_revoked_at r) (p_setup_key_id r) (p_auth_token_hash r) (p_observed_ip r) (p_public_endpoint r) (p_auth_token_issued_at r) (p_assigned_ip6 r) (p_peer_type r) (p_gateway_peer_id r) (p_private_key_enc r) (p_gateway_endpoint r) (p_candidates r) (p_nat_type r) (p_advertise_exit_node r) (p_exit_node_peer_id r) (p_agent_version r).
Definition set_p_revoked_at (v : option string) (r : Peer) : Peer :=
  mkPeer (p_id r) (p_public_key r) (p_assigned_ip r) (p_hostname r) (p_listen_port r) (p_last_seen_at r) (p_created_at r) v (p_setup_key_id r) (p_auth_token_hash r) (p_observed_ip r) (p_public_endpoint r) (p_auth_token_issued_at r) (p_assigned_ip6 r) (p_peer_type r) (p_gateway_peer_id r) (p_private_key_enc r) (p_gateway_endpoint r) (p_candidates r) (p_nat_type r) (p_advertise_exit_node r) (p_exit_node_peer_id r) (p_agent_version r).
Definition set_p_auth_token_hash (v : option string) (r : Peer) : Peer :=
  mkPeer (p_id r) (p_public_key r) (p_assigned_ip r) (p_hostname r) (p_listen_port r) (p_last_seen_at r) (p_created_at r) (p_revoked_at r) (p_setup_key_id r) v (p_observed_ip r) (p_public_endpoint r) (p_auth_token_issued_at r) (p_assigned_ip6 r) (p_peer_type r) (p_gateway_peer_id r) (p_private_key_enc r) (p_gateway_endpoint r) (p_candidates r) (p_nat_type r) (p_advertise_exit_node r) (p_exit_node_peer_id r) (p_agent_version r).
Definition set_p_observed_ip (v : option string) (r : Peer) : Peer :=
  mkPeer (p_id r) (p_public_key r) (p_assigned_ip r) (p_hostname r) (p_listen_port r) (p_last_seen_at r) (p_created_at r) (p_revoked_at r) (p_setup_key_id r) (p_auth_token_hash r) v (p_public_endpoint r) (p_auth_token_issued_at r) (p_assigned_ip6 r) (p_peer_type r) (p_gateway_peer_id r) (p_private_key_enc r) (p_gateway_endpoint r) (p_candidates r) (p_nat_type r) (p_advertise_exit_node r) (p_exit_node_peer_id r) (p_agent_version r).
Definition set_p_public_endpoint (v : option string) (r : Peer) : Peer :=
  mkPeer (p_id r) (p_public_key r) (p_assigned_ip r) (p_hostname r) (p_listen_port r) (p_last_seen_at r) (p_created_at r) (p_revoked_at r) (p_setup_key_id r) (p_auth_token_hash r) (p_observed_ip r) v (p_auth_token_issued_at r) (p_assigned_ip6 r) (p_peer_type r) (p_gateway_peer_id r) (p_private_key_enc r) (p_gateway_endpoint r) (p_candidates r) (p_nat_type r) (p_advertise_exit_node r) (p_exit_node_peer_id r) (p_agent_version r).
Definition set_p_auth_token_issued_at (v : option string) (r : Peer) : Peer :=
  mkPeer (p_id r) (p_public_key r) (p_assigned_ip r) (p_hostname r) (p_listen_port r) (p_last_seen_at r) (p_created_at r) (p_revoked_at r) (p_setup_key_id r) (p_auth_token_hash r) (p_observed_ip r) (p_public_endpoint r) v (p_assigned_ip6 r) (p_peer_type r) (p_gateway_peer_id r) (p_private_key_enc r) (p_gateway_endpoint r) (p_candidates r) (p_nat_type r) (p_advertise_exit_node r) (p_exit_node_peer_id r) (p_agent_version r).
Definition set_p_assigned_ip6 (v : option string) (r : Peer) : Peer :=
  mkPeer (p_id r) (p_public_key r) (p_assigned_ip r) (p_hostname r) (p_listen_port r) (p_last_seen_at r) (p_created_at r) (p_revoked_at r) (p_setup_key_id r) (p_auth_token_hash r) (p_observed_ip r) (p_public_endpoint r) (p_auth_token_issued_at r) v (p_peer_type r) (p_gateway_peer_id r) (p_private_key_enc r) (p_gateway_endpoint r) (p_candidates r) (p_nat_type r) (p_advertise_exit_node r) (p_exit_node_peer_id r) (p_agent_version r).
Definition set_p_gateway_peer_id (v : option Z) (r : Peer) : Peer :=
  mkPeer (p_id r) (p_public_key r) (p_assigned_ip r) (p_hostname r) (p_listen_port r) (p_last_seen_at r) (p_created_at r) (p_revoked_at r) (p_setup_key_id r) (p_auth_token_hash r) (p_observed_ip r) (p_public_endpoint r) (p_auth_token_issued_at r) (p_assigned_ip6 r) (p_peer_type r) v (p_private_key_enc r) (p_gateway_endpoint r) (p_candidates r) (p_nat_type r) (p_advertise_exit_node r) (p_exit_node_peer_id r) (p_agent_version r).
Definition set_p_candidates (v : option string) (r : Peer) : Peer :=
  mkPeer (p_id r) (p_public_key r) (p_assigned_ip r) (p_hostname r) (p_listen_port r) (p_last_seen_at r) (p_created_at r) (p_revoked_at r) (p_setup_key_id r) (p_auth_token_hash r) (p_observed_ip r) (p_public_endpoint r) (p_auth_token_issued_at r) (p_assigned_ip6 r) (p_peer_type r) (p_gateway_peer_id r) (p_private_key_enc r) (p_gateway_endpoint r) v (p_nat_type r) (p_advertise_exit_node r) (p_exit_node_peer_id r) (p_agent_version r).
Definition set_p_nat_type (v : option string) (r : Peer) : Peer :=
  mkPeer (p_id r) (p_public_key r) (p_assigned_ip r) (p_hostname r) (p_listen_port r) (p_last_seen_at r) (p_created_at r) (p_revoked_at r) (p_setup_key_id r) (p_auth_token_hash r) (p_observed_ip r) (p_public_endpoint r) (p_auth_token_issued_at r) (p_assigned_ip6 r) (p_peer_type r) (p_gateway_peer_id r) (p_private_key_enc r) (p_gateway_endpoint r) (p_candidates r) v (p_advertise_exit_node r) (p_exit_node_peer_id r) (p_agent_version r).
Definition set_p_advertise_exit_node (v : bool) (r : Peer) : Peer :=
  mkPeer (p_id r) (p_public_key r) (p_assigned_ip r) (p_hostname r) (p_listen_port r) (p_last_seen_at r) (p_created_at r) (p_revoked_at r) (p_setup_key_id r) (p_auth_token_hash r) (p_observed_ip r) (p_public_endpoint r) (p_auth_token_issued_at r) (p_assigned_ip6 r) (p_peer_type r) (p_gateway_peer_id r) (p_private_key_enc r) (p_gateway_endpoint r) (p_candidates r) (p_nat_type r) v (p_exit_node_peer_id r) (p_agent_version r).
Definition set_p_exit_node_peer_id (v : option Z) (r : Peer) : Peer :=
  mkPeer (p_id r) (p_public_key r) (p_assigned_ip r) (p_hostname r) (p_listen_port r) (p_last_seen_at r) (p_created_at r) (p_revoked_at r) (p_setup_key_id r) (p_auth_token_hash r) (p_observed_ip r) (p_public_endpoint r) (p_auth_token_issued_at r) (p_assigned_ip6 r) (p_peer_type r) (p_gateway_peer_id r) (p_private_key_enc r) (p_gateway_endpoint r) (p_candidates r) (p_nat_type r) (p_advertise_exit_node r) v (p_agent_version r).
Definition set_p_agent_version (v : option string) (r : Peer) : Peer :=
  mkPeer (p_id r) (p_public_key r) (p_assigned_ip r) (p_hostname r) (p_listen_port r) (p_last_seen_at r) (p_created_at r) (p_revoked_at r) (p_setup_key_id r) (p_auth_token_hash r) (p_observed_ip r) (p_public_endpoint r) (p_auth_token_issued_at r) (p_assigned_ip6 r) (p_peer_type r) (p_gateway_peer_id r) (p_private_key_enc r) (p_gateway_endpoint r) (p_candidates r) (p_nat_type r) (p_advertise_exit_node r) (p_exit_node_peer_id r) v.

(** Table [acl_rules]; a NULL peer is "any". *)
Record AclRow : Type := mkAcl {
  r_id : Z;
  r_src_peer_id : option Z;
  r_dst_peer_id : option Z;
  r_created_at : string;
  r_name : option string;
  r_protocol : string;
  r_port_min : option Z;
  r_port_max : option Z
}.


(** Table [users]. *)
Record UserRow : Type := mkUser {
  u_id : Z;
  u_username : string;
  u_password_hash : string;
  u_auth_source : string;
  u_session_epoch : Z;
  u_created_at : string;
  u_updated_at : string
}.


(** An INTEGER column that is summed up: SQLite turns a sum that leaves the
    64-bit range into a REAL, which the program can no longer read as an
    integer.  The value of such a REAL is not followed. *)
Inductive sqlnum : Type := SInt (z : Z) | SReal.
Definition sql_add (a b : sqlnum) : sqlnum :=
  match a, b with
  | SInt x, SInt y => if in_int64 (x + y) then SInt (x + y) else SReal
  | _, _ => SReal
  end.

(** Table [link_stats] without its key. *)
Record LinkRow : Type := mkLink {
  l_rx_bytes : sqlnum;
  l_tx_bytes : sqlnum;
  l_last_handshake_at : option string;
  l_updated_at : string
}.


(** Table [peer_paths] without its key. *)
Record PathRow : Type := mkPath {
  pp_state : string;
  pp_endpoint : option string;
  pp_updated_at : string
}.


(** Table [connection_events]. *)
Record ConnEvent : Type := mkConn {
  ce_id : Z;
  ce_at : string;
  ce_reporter_peer_id : Z;
  ce_remote_peer_id : Z;
  ce_kind : string;
  ce_from_state : option string;
  ce_to_state : string
}.


(** Table [flows]. *)
Record FlowRec : Type := mkFlow {
  f_id : Z;
  f_peer_id : Z;
  f_protocol : Z;
  f_src_ip : string;
  f_src_port : Z;
  f_dst_ip : string;
  f_dst_port : Z;
  f_tx_bytes : Z;
  f_rx_bytes : Z;
  f_tx_packets : Z;
  f_rx_packets : Z;
  f_reported_at : string
}.


(** Table [proxy_events]. *)
Record ProxyRec : Type := mkProxy {
  pe_id : Z;
  pe_peer_id : option Z;
  pe_at : string;
  pe_method : option string;
  pe_host : option string;
  pe_path : option string;
  pe_status : Z;
  pe_duration_ms : Z;
  pe_req_bytes : Z;
  pe_resp_bytes : Z;
  pe_client_ip : option string;
  pe_service : option string
}.

Definition set_pe_peer_id (v : option Z) (r : ProxyRec) : ProxyRec :=
  mkProxy (pe_id r) v (pe_at r) (pe_method r) (pe_host r) (pe_path r) (pe_status r) (pe_duration_ms r) (pe_req_bytes r) (pe_resp_bytes r) (pe_client_ip r) (pe_service r).

(** Table [audit_log]. *)
Record AuditRec : Type := mkAudit {
  a_id : Z;
  a_at : string;
  a_event : string;
  a_peer_id : option Z;
  a_overlay_ip : option string;
  a_remote_ip : option string;
  a_forwarded_for : option string;
  a_user_agent : option string;
  a_method : option string;
  a_path : option string;
  a_status : Z;
  a_detail : option string
}.

Definition set_a_peer_id (v : option Z) (r : AuditRec) : AuditRec :=
  mkAudit (a_id r) (a_at r) (a_event r) v (a_overlay_ip r) (a_remote_ip r) (a_forwarded_for r) (a_user_agent r) (a_method r) (a_path r) (a_status r) (a_detail r).

(** The database. *)
Record DB : Type := mkDB {
  setup_keys : list SetupKey;
  peers : list Peer;
  acl_rules : list AclRow;
  settings : gmap string string;
  users : list UserRow;
  link_stats : gmap (Z * Z) LinkRow;
  peer_paths : gmap (Z * Z) PathRow;
  connection_events : list ConnEvent;
  flows : list FlowRec;
  proxy_events : list ProxyRec;
  audit_log : list AuditRec
}.

Definition set_setup_keys (v : list SetupKey) (r : DB) : DB :=
  mkDB v (peers r) (acl_rules r) (settings r) (users r) (link_stats r) (peer_paths r) (connection_events r) (flows r) (proxy_events r) (audit_log r).
Definition set_peers (v : list Peer) (r : DB) : DB :=
  mkDB (setup_keys r) v (acl_rules r) (settings r) (users r) (link_stats r) (peer_paths r) (connection_events r) (flows r) (proxy_events r) (audit_log r).
Definition set_acl_rules (v : list AclRow) (r : DB) : DB :=
  mkDB (setup_keys r) (peers r) v (settings r) (users r) (link_stats r) (peer_paths r) (connection_events r) (flows r) (proxy_events r) (audit_log r).
Definition set_settings (v : gmap string string) (r : DB) : DB :=
  mkDB (setup_keys r) (peers r) (acl_rules r) v (users r) (link_stats r) (peer_paths r) (connection_events r) (flows r) (proxy_events r) (audit_log r).
Definition set_users (v : list UserRow) (r : DB) : DB :=
  mkDB (setup_keys r) (peers r) (acl_rules r) (settings r) v (link_stats r) (peer_paths r) (connection_events r) (flows r) (proxy_events r) (audit_log r).
Definition set_link_stats (v : gmap (Z * Z) LinkRow) (r : DB) : DB :=
  mkDB (setup_keys r) (peers r) (acl_rules r) (settings r) (users r) v (peer_paths r) (connection_events r) (flows r) (proxy_events r) (audit_log r).
Definition set_peer_paths (v : gmap (Z * Z) PathRow) (r : DB) : DB :=
  mkDB (setup_keys r) (peers r) (acl_rules r) (settings r) (users r) (link_stats r) v (connection_events r) (flows r) (proxy_events r) (audit_log r).
Definition set_connection_events (v : list ConnEvent) (r : DB) : DB :=
  mkDB (setup_keys r) (peers r) (acl_rules r) (settings r) (users r) (link_stats r) (peer_paths r) v (flows r) (proxy_events r) (audit_log r).
Definition set_flows (v : list FlowRec) (r : DB) : DB :=
  mkDB (setup_keys r) (peers r) (acl_rules r) (settings r) (users r) (link_stats r) (peer_paths r) (connection_events r) v (proxy_events r) (audit_log r).
Definition set_proxy_events (v : list ProxyRec) (r : DB) : DB :=
  mkDB (setup_keys r) (peers r) (acl_rules r) (settings r) (users r) (link_stats r) (peer_paths r) (connection_events r) (flows r) v (audit_log r).
Definition set_audit_log (v : list AuditRec) (r : DB) : DB :=
  mkDB (setup_keys r) (peers r) (acl_rules r) (settings r) (users r) (link_stats r) (peer_paths r) (connection_events r) (flows r) (proxy_events r) v.

Definition empty_db : DB := mkDB [] [] [] ∅ [] ∅ ∅ [] [] [] [].

(** ** Statements *)

(** [SELECT ... WHERE f LIMIT 1] *)
Fixpoint select1 {A} (f : A → bool) (l : list A) : option A :=
  match l with [] => None | x :: l => if f x then Some x else select1 f l end.
(** [UPDATE ... SET g WHERE f], and [RowsAffected]. *)
Definition update_where {A} (f : A → bool) (g : A → A) (l : list A) : list A :=
  (λ x, if f x then g x else x) <$> l.
Definition count_where {A} (f : A → bool) (l : list A) : Z :=
  Z.of_nat (length (filter (λ x, Is_true (f x)) l)).
(** [DELETE FROM ... WHERE f] *)
Definition delete_where {A} (f : A → bool) (l : list A) : list A :=
  filter (λ x, ¬ Is_true (f x)) l.

(** The rowid SQLite gives the next row of an INTEGER PRIMARY KEY table. *)
Definition next_id {A} (id : A → Z) (l : list A) : Z := 1 + foldr Z.max 0 (id <$> l).

Definition peer_by_id (i : Z) (db : DB) : option Peer := select1 (λ p, p_id p =? i) (peers db).
Definition is_peer (db : DB) (i : Z) : bool := bool_decide (i ∈ (p_id <$> peers db)).
Definition null_or (f : Z → bool) (o : option Z) : bool :=
  match o with None => true | Some z => f z end.

(** ** Constraints *)
Definition port_check (p : Peer) : bool :=
  null_or (λ n, (1 <=? n) && (n <=? 65535)) (p_listen_port p).

Definition key_check (k : SetupKey) : bool :=
  null_or (λ m, 0 <=? m) (k_max_uses k) && (0 <=? k_uses_consumed k)
  && null_or (λ m, k_uses_consumed k <=? m) (k_max_uses k).

Definition keys_ok (l : list SetupKey) : bool :=
  bool_decide (NoDup (k_key <$> l)) && forallb key_check l.

Definition peers_unique (l : list Peer) : bool :=
  bool_decide (NoDup (p_public_key <$> l)) && bool_decide (NoDup (p_assigned_ip <$> l))
  && bool_decide (NoDup (omap p_assigned_ip6 l)).

Definition peer_refs (keys : list SetupKey) (l : list Peer) (p : Peer) : bool :=
  bool_decide (p_setup_key_id p ∈ (k_id <$> keys))
  && null_or (λ i, bool_decide (i ∈ (p_id <$> l))) (p_gateway_peer_id p)
  && null_or (λ i, bool_decide (i ∈ (p_id <$> l))) (p_exit_node_peer_id p).

Definition peers_ok (keys : list SetupKey) (l : list Peer) : bool :=
  peers_unique l && forallb port_check l && forallb (peer_refs keys l) l.

(** A statement that leaves table [peers] as [l]. *)
Definition put_peers (l : list Peer) : tx DB unit := λ db,
  if peers_ok (setup_keys db) l then Ok (tt, set_peers l db)
  else Err (ErrConstraint "peers").
Definition put_keys (l : list SetupKey) : tx DB unit := λ db,
  if keys_ok l then Ok (tt, set_setup_keys l db) else Err (ErrConstraint "setup_keys").

(** [INSERT INTO peers]: the row is given its rowid. *)
Definition insert_peer (mk : Z → Peer) : tx DB Z := λ db,
  let i := next_id p_id (peers db) in
  match put_peers (peers db ++ [mk i]) db with
  | Ok (_, db') => Ok (i, db')
  | Err e => Err e
  end.
Definition insert_key (mk : Z → SetupKey) : tx DB Z := λ db,
  let i := next_id k_id (setup_keys db) in
  match put_keys (setup_keys db ++ [mk i]) db with
  | Ok (_, db') => Ok (i, db')
  | Err e => Err e
  end.

(** The foreign-key actions of deleting the peers whose id satisfies [gone]. *)
Definition forget (gone : Z → bool) (o : option Z) : option Z :=
  match o with Some i => if gone i then None else Some i | None => None end.
Definition unlink_peer (gone : Z → bool) (p : Peer) : Peer :=
  set_p_gateway_peer_id (forget gone (p_gateway_peer_id p))
    (set_p_exit_node_peer_id (forget gone (p_exit_node_peer_id p)) p).
Definition rule_gone (gone : Z → bool) (r : AclRow) : bool :=
  negb (null_or (λ i, negb (gone i)) (r_src_peer_id r)
        && null_or (λ i, negb (gone i)) (r_dst_peer_id r)).
Definition delete_peers (gone : Z → bool) (db : DB) : DB :=
  mkDB (setup_keys db)
    (unlink_peer gone <$> delete_where (λ p, gone (p_id p)) (peers db))
    (delete_where (rule_gone gone) (acl_rules db))
    (settings db) (users db)
    (filter (λ kv, ¬ Is_true (gone kv.1.1 || gone kv.1.2)) (link_stats db))
    (filter (λ kv, ¬ Is_true (gone kv.1.1 || gone kv.1.2)) (peer_paths db))
    (delete_where (λ e, gone (ce_reporter_peer_id e) || gone (ce_remote_peer_id e))
       (connection_events db))
    (delete_where (λ f, gone (f_peer_id f)) (flows db))
    ((λ e, set_pe_peer_id (forget gone (pe_peer_id e)) e) <$> proxy_events db)
    ((λ a, set_a_peer_id (forget gone (a_peer_id a)) a) <$> audit_log db).

(** ** The invariant of the database *)
Definition ids_ok (l : list Z) : Prop := StronglySorted Z.lt l ∧ Forall (λ z, 1 ≤ z) l.

Record db_ok (db : DB) : Prop := {
  ok_key_ids : ids_ok (k_id <$> setup_keys db);
  ok_peer_ids : ids_ok (p_id <$> peers db);
  ok_keys : keys_ok (setup_keys db) = true;
  ok_peers : peers_ok (setup_keys db) (peers db) = true;
  ok_rule_ids : ids_ok (r_id <$> acl_rules db);
  ok_rules : ∀ r, r ∈ acl_rules db →
    null_or (is_peer db) (r_src_peer_id r) = true ∧ null_or (is_peer db) (r_dst_peer_id r) = true;
  ok_links : ∀ a b row, link_stats db !! (a, b) = Some row →
    is_peer db a = true ∧ is_peer db b = true;
  ok_paths : ∀ a b row, peer_paths db !! (a, b) = Some row →
    is_peer db a = true ∧ is_peer db b = true;
  ok_conns : ∀ e, e ∈ connection_events db →
    is_peer db (ce_reporter_peer_id e) = true ∧ is_peer db (ce_remote_peer_id e) = true;
  ok_flows : ∀ f, f ∈ flows db → is_peer db (f_peer_id f) = true;
  ok_proxy : ∀ e, e ∈ proxy_events db → null_or (is_peer db) (pe_peer_id e) = true;
  ok_audit : ∀ a, a ∈ audit_log db → null_or (is_peer db) (a_peer_id a) = true;
  ok_user_ids : ids_ok (u_id <$> users db);
  ok_usernames : NoDup (u_username <$> users db)
}.

(** ** Lists of rows *)
Lemma select1_Some {A} (f : A → bool) l x : select1 f l = Some x → x ∈ l ∧ f x = true.
Proof.
  induction l as [|y l IH]; [done|]. cbn [select1]. destruct (f y) eqn:E.
  - intros [= ->]. split; [left|done].
  - intros [? ?]%IH. split; [by right|done].
Qed.
Lemma select1_None {A} (f : A → bool) l : select1 f l = None ↔ ∀ x, x ∈ l → f x = false.
Proof.
  induction l as [|y l IH]; cbn [select1].
  - split; [|done]. intros _ x Hx. by apply elem_of_nil in Hx.
  - destruct (f y) eqn:E.
    + split; [done|]. intros H. specialize (H y ltac:(left)). congruence.
    + rewrite IH. setoid_rewrite elem_of_cons. naive_solver.
Qed.
Lemma select1_unique {A} (f : A → bool) l x :
  x ∈ l → f x = true → (∀ y, y ∈ l → f y = true → y = x) → select1 f l = Some x.
Proof.
  intros Hx Hf Hu. destruct (select1 f l) as [y|] eqn:E.
  - apply select1_Some in E as [? ?]. f_equal. by apply Hu.
  - rewrite select1_None in E. specialize (E _ Hx). congruence.
Qed.

Lemma elem_of_delete_where {A} (f : A → bool) l x : x ∈ delete_where f l ↔ x ∈ l ∧ f x = false.
Proof.
  unfold delete_where. rewrite list_elem_of_filter.
  destruct (f x); simpl; naive_solver.
Qed.
Lemma elem_of_update_where {A} (f : A → bool) g l x :
  x ∈ update_where f g l ↔ ∃ y, y ∈ l ∧ x = if f y then g y else y.
Proof. unfold update_where. rewrite list_elem_of_fmap. naive_solver. Qed.
Lemma fmap_update_where {A B} (h : A → B) (f : A → bool) g (l : list A) :
  (∀ x, x ∈ l → f x = true → h (g x) = h x) → h <$> update_where f g l = h <$> l.
Proof.
  intros H. unfold update_where. rewrite <- list_fmap_compose. apply list_fmap_ext.
  intros i x Hx. simpl. destruct (f x) eqn:E; [|done]. apply H; [|done].
  by eapply list_elem_of_lookup_2.
Qed.
Lemma omap_update_where {A B} (h : A → option B) (f : A → bool) g (l : list A) :
  (∀ x, x ∈ l → f x = true → h (g x) = h x) → omap h (update_where f g l) = omap h l.
Proof.
  induction l as [|x l IH]; [done|]. intros H.
  change (update_where f g (x :: l)) with ((if f x then g x else x) :: update_where f g l).
  assert (h (if f x then g x else x) = h x) as E.
  { destruct (f x) eqn:E; [|done]. by apply H; [left|]. }
  change (omap h (?y :: ?k)) with (match h y with Some z => z :: omap h k | None => omap h k end).
  rewrite E, IH; [done|]. intros y Hy. apply H. by right.
Qed.
Lemma update_where_id {A} (f : A → bool) g (l : list A) :
  (∀ x, x ∈ l → f x = true → g x = x) → update_where f g l = l.
Proof.
  intros H. rewrite <- (list_fmap_id (update_where f g l)), (fmap_update_where id) by done.
  by rewrite list_fmap_id.
Qed.
Lemma count_where_pos {A} (f : A → bool) l : 0 < count_where f l ↔ ∃ x, x ∈ l ∧ f x = true.
Proof.
  unfold count_where. split.
  - destruct (filter _ l) as [|x l'] eqn:E; [simpl; lia|]. intros _. exists x.
    assert (x ∈ filter (λ x, Is_true (f x)) l) as Hx by (rewrite E; left).
    apply list_elem_of_filter in Hx as [? ?]. split; [done|by apply Is_true_true].
  - intros (x & Hx & Hf). destruct (filter _ l) as [|y l'] eqn:E; [|simpl; lia].
    assert (x ∈ filter (λ x, Is_true (f x)) l) as Hx'.
    { apply list_elem_of_filter. split; [by apply Is_true_true|done]. }
    rewrite E in Hx'. by apply elem_of_nil in Hx'.
Qed.
Lemma count_where_zero {A} (f : A → bool) l : count_where f l = 0 ↔ ∀ x, x ∈ l → f x = false.
Proof.
  assert (0 ≤ count_where f l) by (unfold count_where; lia).
  pose proof (count_where_pos f l) as H1. split.
  - intros H0 x Hx. destruct (f x) eqn:E; [|done]. assert (0 < count_where f l); [|lia].
    apply H1. eauto.
  - intros Hf. destruct (decide (0 < count_where f l)) as [(x & ? & ?)%H1|]; [|lia].
    rewrite Hf in *; done.
Qed.

(** ** Rowids *)
Lemma foldr_max_ge l : Forall (λ z, z ≤ foldr Z.max 0 l) l ∧ 0 ≤ foldr Z.max 0 l.
Proof.
  induction l as [|z l [IH1 IH2]]; simpl; [by split|]. split; [|lia].
  constructor; [lia|]. eapply Forall_impl; [exact IH1|]. simpl. lia.
Qed.
Lemma next_id_fresh {A} (id : A → Z) l x : x ∈ l → id x < next_id id l.
Proof.
  intros Hx. unfold next_id. destruct (foldr_max_ge (id <$> l)) as [H _].
  rewrite Forall_forall in H. specialize (H (id x)). simpl in H.
  assert (id x ∈ (id <$> l)) by (by apply list_elem_of_fmap_2). lia.
Qed.
Lemma next_id_pos {A} (id : A → Z) l : 1 ≤ next_id id l.
Proof. unfold next_id. destruct (foldr_max_ge (id <$> l)) as [_ H]. lia. Qed.

Lemma StronglySorted_snoc (l : list Z) z :
  StronglySorted Z.lt l → Forall (λ x, x < z) l → StronglySorted Z.lt (l ++ [z]).
Proof.
  induction l as [|x l IH]; simpl; intros Hs Hf; [by repeat constructor|].
  apply StronglySorted_inv in Hs as [Hs Hx]. apply Forall_cons in Hf as [Hxz Hf].
  constructor; [by apply IH|]. apply Forall_app. split; [done|by apply Forall_singleton].
Qed.
Lemma ids_ok_insert {A} (id : A → Z) l x :
  ids_ok (id <$> l) → id x = next_id id l → ids_ok (id <$> (l ++ [x])).
Proof.
  intros [Hs Hp] Hx. rewrite fmap_app. simpl. rewrite Hx. split.
  - apply StronglySorted_snoc; [done|]. apply Forall_forall. intros z Hz.
    apply list_elem_of_fmap in Hz as (y & -> & Hy). by apply next_id_fresh.
  - apply Forall_app. split; [done|]. apply Forall_singleton, next_id_pos.
Qed.
Lemma ids_ok_filter {A} (id : A → Z) (P : A → Prop) `{!∀ x, Decision (P x)} l :
  ids_ok (id <$> l) → ids_ok (id <$> filter P l).
Proof.
  intros [Hs Hp]. split.
  - induction l as [|x l IH]; [constructor|]. cbn in Hs. apply StronglySorted_inv in Hs as [Hs Hx].
    apply Forall_cons in Hp as [_ Hp]. rewrite filter_cons. destruct (decide (P x)); [|by apply IH].
    cbn. constructor; [by apply IH|]. rewrite Forall_forall in Hx |- *.
    intros z (y & -> & [_ Hy]%list_elem_of_filter)%list_elem_of_fmap.
    apply Hx. by apply list_elem_of_fmap_2.
  - rewrite Forall_forall in Hp |- *.
    intros z (y & -> & [_ Hy]%list_elem_of_filter)%list_elem_of_fmap.
    apply Hp. by apply list_elem_of_fmap_2.
Qed.
Lemma ids_ok_inj {A} (id : A → Z) l x y :
  ids_ok (id <$> l) → x ∈ l → y ∈ l → id x = id y → x = y.
Proof.
  intros [Hs _]. induction l as [|z l IH]; [by intros ?%elem_of_nil|].
  cbn in Hs. apply StronglySorted_inv in Hs as [Hs Hz]. rewrite Forall_forall in Hz.
  assert (∀ w, w ∈ l → id z < id w) as Hlt by (intros; by apply Hz, list_elem_of_fmap_2).
  rewrite !elem_of_cons. intros [->|Hx] [->|Hy] E; [done|..].
  - apply Hlt in Hy. lia.
  - apply Hlt in Hx. lia.
  - by apply IH.
Qed.
Lemma select1_by_id {A} (id : A → Z) l x :
  ids_ok (id <$> l) → x ∈ l → select1 (λ y, id y =? id x) l = Some x.
Proof.
  intros Hi Hx. apply select1_unique; [done|lia|]. intros y Hy E.
  apply (ids_ok_inj id l); [done..|lia].
Qed.

Lemma is_peer_spec db i : is_peer db i = true ↔ ∃ p, p ∈ peers db ∧ p_id p = i.
Proof.
  unfold is_peer. rewrite bool_decide_eq_true, list_elem_of_fmap. naive_solver.
Qed.
Lemma peer_by_id_Some db i p : peer_by_id i db = Some p → p ∈ peers db ∧ p_id p = i.
Proof. unfold peer_by_id. intros [? ?]%select1_Some. split; [done|lia]. Qed.
Lemma peer_by_id_eq db p : db_ok db → p ∈ peers db → peer_by_id (p_id p) db = Some p.
Proof. intros H. apply select1_by_id, ok_peer_ids, H. Qed.
