(* ===== verification/SchemaFacts.v ===== *)
(** * Preservation of the database invariant by single statements

    One lemma per shape of statement: updating peers in place, adding a peer,
    adding or updating setup keys, deleting peers with their foreign-key
    actions. *)
From S2P Require Import Prelude GoText Schema.

Create HintDb mesh_db.

Lemma forallb_elem {A} (f : A → bool) l : forallb f l = true ↔ ∀ x, x ∈ l → f x = true.
Proof. rewrite forallb_forall. setoid_rewrite <- list_elem_of_In. done. Qed.

Lemma peers_ok_spec keys l :
  peers_ok keys l = true ↔
  NoDup (p_public_key <$> l) ∧ NoDup (p_assigned_ip <$> l) ∧ NoDup (omap p_assigned_ip6 l)
  ∧ (∀ p, p ∈ l → port_check p = true) ∧ (∀ p, p ∈ l → peer_refs keys l p = true).
Proof.
  unfold peers_ok, peers_unique. rewrite !andb_true_iff, !bool_decide_eq_true, !forallb_elem.
  tauto.
Qed.

Lemma keys_ok_spec l :
  keys_ok l = true ↔ NoDup (k_key <$> l) ∧ (∀ k, k ∈ l → key_check k = true).
Proof.
  unfold keys_ok. rewrite andb_true_iff, bool_decide_eq_true, forallb_elem. done.
Qed.

Lemma peer_refs_spec keys l p :
  peer_refs keys l p = true ↔
  p_setup_key_id p ∈ (k_id <$> keys)
  ∧ (∀ i, p_gateway_peer_id p = Some i → i ∈ (p_id <$> l))
  ∧ (∀ i, p_exit_node_peer_id p = Some i → i ∈ (p_id <$> l)).
Proof.
  unfold peer_refs. rewrite !andb_true_iff, bool_decide_eq_true.
  destruct (p_gateway_peer_id p), (p_exit_node_peer_id p); simpl;
    rewrite ?bool_decide_eq_true; naive_solver.
Qed.

(** References into [peers] survive when no id disappears. *)
Lemma is_peer_mono db db' i :
  (p_id <$> peers db) ⊆ (p_id <$> peers db') → is_peer db i = true → is_peer db' i = true.
Proof. unfold is_peer. rewrite !bool_decide_eq_true. set_solver. Qed.
Lemma null_or_mono (f g : Z → bool) o :
  (∀ i, f i = true → g i = true) → null_or f o = true → null_or g o = true.
Proof. destruct o; simpl; auto. Qed.

Lemma db_ok_peers db l :
  db_ok db → ids_ok (p_id <$> l) → (p_id <$> peers db) ⊆ (p_id <$> l) →
  peers_ok (setup_keys db) l = true → db_ok (set_peers l db).
Proof.
  intros H Hi Hs Hp.
  assert (∀ i, is_peer db i = true → is_peer (set_peers l db) i = true) as M.
  { intros i. by apply is_peer_mono. }
  constructor; try (done || apply H); simpl in *.
  - intros r Hr. destruct (ok_rules _ H r Hr). split; eapply null_or_mono; eauto.
  - intros a b row Hr. destruct (ok_links _ H a b row Hr). auto.
  - intros a b row Hr. destruct (ok_paths _ H a b row Hr). auto.
  - intros e He. destruct (ok_conns _ H e He). auto.
  - intros f Hf. apply M, (ok_flows _ H f Hf).
  - intros e He. eapply null_or_mono, (ok_proxy _ H e He). done.
  - intros a Ha. eapply null_or_mono, (ok_audit _ H a Ha). done.
Qed.

(** An update in place that keeps the ids. *)
Lemma db_ok_update_peers db l :
  db_ok db → p_id <$> l = p_id <$> peers db →
  peers_ok (setup_keys db) l = true → db_ok (set_peers l db).
Proof.
  intros H E Hp. apply db_ok_peers; [done|rewrite E; apply H|by rewrite E|done].
Qed.

(** ** The columns constraints look at *)
Definition same_constrained (p q : Peer) : Prop :=
  p_id p = p_id q ∧ p_public_key p = p_public_key q ∧ p_assigned_ip p = p_assigned_ip q
  ∧ p_assigned_ip6 p = p_assigned_ip6 q ∧ p_listen_port p = p_listen_port q
  ∧ p_setup_key_id p = p_setup_key_id q ∧ p_gateway_peer_id p = p_gateway_peer_id q
  ∧ p_exit_node_peer_id p = p_exit_node_peer_id q.

Lemma peers_ok_same keys (f : Peer → bool) g l :
  (∀ p, p ∈ l → f p = true → same_constrained (g p) p) →
  peers_ok keys (update_where f g l) = peers_ok keys l.
Proof.
  intros H.
  assert (∀ p, p ∈ l → f p = true → p_id (g p) = p_id p) as Hid by (intros; by apply H).
  assert (p_id <$> update_where f g l = p_id <$> l) as Eid by (by apply fmap_update_where).
  apply eq_bool_prop_intro. rewrite !Is_true_true, !peers_ok_spec.
  rewrite !(fmap_update_where p_public_key), !(fmap_update_where p_assigned_ip),
    (omap_update_where p_assigned_ip6) by (intros; by apply H).
  assert (∀ (P : Peer → Prop),
    (∀ p, p ∈ l → f p = true → P (g p) ↔ P p) →
    (∀ p, p ∈ update_where f g l → P p) ↔ (∀ p, p ∈ l → P p)) as Hall.
  { intros P HP. split; intros Hx p Hp.
    - specialize (Hx (if f p then g p else p)). destruct (f p) eqn:E.
      + apply HP; [done|done|]. apply Hx, elem_of_update_where. exists p. by rewrite E.
      + apply Hx, elem_of_update_where. exists p. by rewrite E.
    - apply elem_of_update_where in Hp as (q & Hq & ->). destruct (f q) eqn:E; [|by apply Hx].
      apply HP; [done..|by apply Hx]. }
  rewrite (Hall (λ p, port_check p = true)), (Hall (λ p, peer_refs keys (update_where f g l) p = true)).
  - unfold peer_refs. rewrite Eid. done.
  - intros p Hp Hf. destruct (H p Hp Hf) as (?&?&?&?&?&E1&E2&E3).
    unfold peer_refs. by rewrite E1, E2, E3.
  - intros p Hp Hf. destruct (H p Hp Hf) as (?&?&?&?&E&?).
    unfold port_check. by rewrite E.
Qed.

Lemma db_ok_update_same db (f : Peer → bool) g :
  db_ok db → (∀ p, p ∈ peers db → f p = true → same_constrained (g p) p) →
  db_ok (set_peers (update_where f g (peers db)) db).
Proof.
  intros H Hs. apply db_ok_update_peers; [done|..].
  - apply fmap_update_where. intros. by apply Hs.
  - rewrite peers_ok_same by done. apply H.
Qed.

(** ** Adding rows *)
Lemma db_ok_insert_peer db mk i db' :
  db_ok db → (∀ i, p_id (mk i) = i) → insert_peer mk db = Ok (i, db') → db_ok db'.
Proof.
  intros H Hmk. unfold insert_peer, put_peers. case_match eqn:E; [|done]. case_match; [|done].
  simplify_eq. intros; simplify_eq. apply db_ok_peers; [done|..|done].
  - apply ids_ok_insert; [apply H|apply Hmk].
  - rewrite fmap_app. set_solver.
Qed.

Lemma insert_peer_Ok db mk i db' :
  insert_peer mk db = Ok (i, db') →
  i = next_id p_id (peers db) ∧ db' = set_peers (peers db ++ [mk i]) db
  ∧ peers_ok (setup_keys db) (peers db ++ [mk i]) = true.
Proof.
  unfold insert_peer, put_peers. case_match eqn:E; [|done]. case_match; [|done].
  simplify_eq. intros; simplify_eq. done.
Qed.

Lemma db_ok_keys db l :
  db_ok db → ids_ok (k_id <$> l) → (k_id <$> setup_keys db) ⊆ (k_id <$> l) →
  keys_ok l = true → db_ok (set_setup_keys l db).
Proof.
  intros H Hi Hs Hk. constructor; try (done || apply H); simpl.
  pose proof (ok_peers _ H) as Ho. rewrite peers_ok_spec in Ho |- *. destruct Ho as (?&?&?&?&Hr).
  repeat split; [done..|]. intros p Hp. specialize (Hr p Hp).
  rewrite peer_refs_spec in Hr |- *. destruct Hr as (?&?&?). split; [set_solver|done].
Qed.

Lemma insert_key_Ok db mk i db' :
  insert_key mk db = Ok (i, db') →
  i = next_id k_id (setup_keys db) ∧ db' = set_setup_keys (setup_keys db ++ [mk i]) db
  ∧ keys_ok (setup_keys db ++ [mk i]) = true.
Proof.
  unfold insert_key, put_keys. case_match eqn:E; [|done]. case_match; [|done].
  simplify_eq. intros; simplify_eq. done.
Qed.

Lemma db_ok_insert_key db mk i db' :
  db_ok db → (∀ i, k_id (mk i) = i) → insert_key mk db = Ok (i, db') → db_ok db'.
Proof.
  intros H Hmk (-> & -> & Hk)%insert_key_Ok. apply db_ok_keys; [done|..|done].
  - apply ids_ok_insert; [apply H|apply Hmk].
  - rewrite fmap_app. set_solver.
Qed.

Lemma NoDup_snoc {A} (l : list A) x : NoDup (l ++ [x]) ↔ NoDup l ∧ x ∉ l.
Proof.
  rewrite NoDup_app. split.
  - intros (H1 & H2 & _). split; [done|]. intros Hx. by apply (H2 x Hx), list_elem_of_singleton.
  - intros [H1 H2]. split; [done|]. split; [|apply NoDup_singleton].
    intros y Hy ->%list_elem_of_singleton. done.
Qed.

(** When adding a peer is accepted. *)
Lemma peers_ok_snoc keys l p :
  peers_ok keys l = true →
  p_public_key p ∉ (p_public_key <$> l) → p_assigned_ip p ∉ (p_assigned_ip <$> l) →
  (∀ a, p_assigned_ip6 p = Some a → a ∉ omap p_assigned_ip6 l) →
  port_check p = true → p_setup_key_id p ∈ (k_id <$> keys) →
  (∀ i, p_gateway_peer_id p = Some i → i ∈ (p_id <$> l)) → p_exit_node_peer_id p = None →
  peers_ok keys (l ++ [p]) = true.
Proof.
  rewrite !peers_ok_spec. intros (H1&H2&H3&H4&H5) U1 U2 U3 Hp Hk Hg He.
  rewrite !fmap_app, omap_app. cbn [fmap list_fmap].
  repeat split.
  - by apply NoDup_snoc.
  - by apply NoDup_snoc.
  - simpl. destruct (p_assigned_ip6 p); [apply NoDup_snoc; eauto|by rewrite app_nil_r].
  - intros q [?| ->%list_elem_of_singleton]%elem_of_app; auto.
  - intros q [Hq| ->%list_elem_of_singleton]%elem_of_app; apply peer_refs_spec; rewrite fmap_app.
    + specialize (H5 q Hq). apply peer_refs_spec in H5 as (?&?&?). set_solver.
    + rewrite He. set_solver.
Qed.

(** ** Deleting peers *)
Lemma forget_Some gone o i : forget gone o = Some i ↔ o = Some i ∧ gone i = false.
Proof.
  unfold forget. destruct o as [j|]; [|split; [done|by intros [? ?]]].
  destruct (gone j) eqn:E; split; [done|intros [[= <-] ?]; congruence|intros [= <-]; done|].
  by intros [[= <-] ?].
Qed.

Lemma is_peer_delete gone db i :
  is_peer (delete_peers gone db) i = true ↔ is_peer db i = true ∧ gone i = false.
Proof.
  rewrite !is_peer_spec. cbn [delete_peers peers]. setoid_rewrite list_elem_of_fmap.
  setoid_rewrite elem_of_delete_where. split.
  - intros (p & (q & -> & Hq & Hg) & <-). simpl. eauto.
  - intros ((p & Hp & <-) & Hg). exists (unlink_peer gone p). split; [by eauto|done].
Qed.

Lemma fmap_sublist_of {A B} (f : A → B) (l k : list A) :
  l `sublist_of` k → (f <$> l) `sublist_of` (f <$> k).
Proof.
  induction 1 as [|x l k _ IH|x l k _ IH]; [done|by apply sublist_skip|by apply sublist_cons].
Qed.
Lemma NoDup_fmap_sublist {A B} (f : A → B) (l k : list A) :
  l `sublist_of` k → NoDup (f <$> k) → NoDup (f <$> l).
Proof. intros Hs Hn. eapply sublist_NoDup; [exact Hn|]. by apply fmap_sublist_of. Qed.

Lemma filter_sublist {A} (P : A → Prop) `{!∀ x, Decision (P x)} (l : list A) :
  filter P l `sublist_of` l.
Proof.
  induction l as [|x l IH]; [done|]. rewrite filter_cons.
  case_decide; [by apply sublist_skip|by apply sublist_cons].
Qed.

Lemma omap_sublist {A B} (f : A → option B) (l k : list A) :
  l `sublist_of` k → omap f l `sublist_of` omap f k.
Proof.
  induction 1 as [|x l k _ IH|x l k _ IH]; [done|..]; simpl; destruct (f x);
    [by apply sublist_skip|done|by apply sublist_cons|done].
Qed.

Lemma omap_fmap_unlink gone (l : list Peer) :
  omap p_assigned_ip6 (unlink_peer gone <$> l) = omap p_assigned_ip6 l.
Proof.
  induction l as [|p l IH]; [done|]. cbn [fmap list_fmap].
  change (omap p_assigned_ip6 (?y :: ?k)) with
    (match p_assigned_ip6 y with Some z => z :: omap p_assigned_ip6 k | None => omap p_assigned_ip6 k end).
  by rewrite IH.
Qed.

Lemma fmap_unlink {B} (h : Peer → B) gone (l : list Peer) :
  (∀ p, h (unlink_peer gone p) = h p) → h <$> (unlink_peer gone <$> l) = h <$> l.
Proof. intros H. rewrite <- list_fmap_compose. apply list_fmap_ext. intros i x _. apply H. Qed.

Lemma db_ok_delete_peers gone db : db_ok db → db_ok (delete_peers gone db).
Proof.
  intros H.
  assert (∀ o, null_or (is_peer db) o = true →
    null_or (is_peer (delete_peers gone db)) (forget gone o) = true) as Hf.
  { intros o Ho. destruct (forget gone o) as [i|] eqn:E; [|done].
    apply forget_Some in E as [-> Hg]. apply is_peer_delete. done. }
  pose proof (filter_sublist (λ p, ¬ Is_true (gone (p_id p))) (peers db)) as Hsub.
  constructor.
  - apply H.
  - simpl. rewrite (fmap_unlink p_id) by done. apply ids_ok_filter, H.
  - apply H.
  - pose proof (ok_peers _ H) as Ho. rewrite peers_ok_spec in Ho |- *.
    destruct Ho as (U1&U2&U3&Hp&Hr).
    cbn [delete_peers peers setup_keys].
    rewrite (fmap_unlink p_public_key), (fmap_unlink p_assigned_ip), omap_fmap_unlink by done.
    repeat split.
    + by eapply NoDup_fmap_sublist.
    + by eapply NoDup_fmap_sublist.
    + eapply sublist_NoDup; [exact U3|by apply omap_sublist].
    + intros p (q & -> & [Hq _]%elem_of_delete_where)%list_elem_of_fmap. apply (Hp q Hq).
    + intros p (q & -> & [Hq Hgq]%elem_of_delete_where)%list_elem_of_fmap.
      apply peer_refs_spec. specialize (Hr q Hq). apply peer_refs_spec in Hr as (?&Hgw&Hex).
      assert (∀ i, i ∈ (p_id <$> peers db) → gone i = false →
        i ∈ (p_id <$> (unlink_peer gone <$> delete_where (λ p, gone (p_id p)) (peers db)))) as Hin.
      { intros i (r & -> & Hin)%list_elem_of_fmap Hgi. rewrite <- list_fmap_compose.
        apply list_elem_of_fmap. exists r. split; [done|]. by apply elem_of_delete_where. }
      repeat split; [done|..].
      * simpl. intros i [? ?]%forget_Some. auto.
      * simpl. intros i [? ?]%forget_Some. auto.
  - apply ids_ok_filter, H.
  - intros r [Hr Hg]%elem_of_delete_where. destruct (ok_rules _ H r Hr) as [H1 H2].
    unfold rule_gone in Hg. apply negb_false_iff, andb_true_iff in Hg as [G1 G2].
    destruct (r_src_peer_id r), (r_dst_peer_id r); cbn [null_or] in *;
      rewrite ?is_peer_delete, ?negb_true_iff in *; done.
  - intros a b row [Hr Hg]%map_lookup_filter_Some. destruct (ok_links _ H a b row Hr).
    rewrite !is_peer_delete. simpl in Hg. destruct (gone a), (gone b); simpl in Hg; naive_solver.
  - intros a b row [Hr Hg]%map_lookup_filter_Some. destruct (ok_paths _ H a b row Hr).
    rewrite !is_peer_delete. simpl in Hg. destruct (gone a), (gone b); simpl in Hg; naive_solver.
  - intros e [He Hg]%elem_of_delete_where. destruct (ok_conns _ H e He).
    rewrite !is_peer_delete. apply orb_false_iff in Hg as [??]. done.
  - intros f [Hf' Hg]%elem_of_delete_where. rewrite is_peer_delete. split; [apply (ok_flows _ H f Hf')|done].
  - intros e (e' & -> & He)%list_elem_of_fmap. apply Hf, (ok_proxy _ H e' He).
  - intros a (a' & -> & Ha)%list_elem_of_fmap. apply Hf, (ok_audit _ H a' Ha).
  - apply H.
  - apply H.
Qed.

(** ** Updating one peer *)
Lemma update_by_id_none {A} (id : A → Z) g i (l : list A) :
  i ∉ (id <$> l) → update_where (λ x, id x =? i) g l = l.
Proof.
  intros Hn. apply update_where_id. intros x Hx E. destruct Hn. apply list_elem_of_fmap.
  exists x. split; [lia|done].
Qed.

(** One row gets a value no row has: the column stays free of duplicates. *)
Lemma NoDup_omap_update1 {A B} (id : A → Z) (h : A → option B) g i (l : list A) :
  NoDup (id <$> l) → NoDup (omap h l) →
  (∀ x, x ∈ l → id x = i → h (g x) = h x ∨ h (g x) = None ∨ ∃ a, h (g x) = Some a ∧ a ∉ omap h l) →
  NoDup (omap h (update_where (λ x, id x =? i) g l)).
Proof.
  induction l as [|x l IH]; [done|]. intros [Hx Hi]%NoDup_cons Hn Hg.
  change (update_where (λ x, id x =? i) g (x :: l)) with
    ((if id x =? i then g x else x) :: update_where (λ x, id x =? i) g l).
  assert (omap h (x :: l) = match h x with Some z => z :: omap h l | None => omap h l end) as El
    by done.
  rewrite El in *.
  change (omap h (?y :: ?k)) with (match h y with Some z => z :: omap h k | None => omap h k end).
  assert (NoDup (omap h l)) as Hnl by (destruct (h x); [by apply NoDup_cons in Hn as [_ ?]|done]).
  destruct (Z.eqb_spec (id x) i) as [E|E].
  - rewrite update_by_id_none by (by rewrite <- E).
    destruct (Hg x ltac:(left) E) as [->|[->|(a & -> & Ha)]]; [done|done|].
    apply NoDup_cons. split; [|done]. destruct (h x); set_solver.
  - assert (∀ y, y ∈ l → id y = i →
        h (g y) = h y ∨ h (g y) = None ∨ ∃ a, h (g y) = Some a ∧ a ∉ omap h l) as Hg'.
    { intros y Hy Ey. destruct (Hg y ltac:(by right) Ey) as [?|[?|(a & ? & ?)]]; [by left|by right; left|].
      right. right. exists a. split; [done|]. destruct (h x); set_solver. }
    specialize (IH Hi Hnl Hg'). destruct (h x) as [b|] eqn:Ex; [|done].
    apply NoDup_cons in Hn as [Hb _]. apply NoDup_cons. split; [|done].
    intros (y & Hy & Ey)%list_elem_of_omap. apply elem_of_update_where in Hy as (z & Hz & ->).
    destruct (Z.eqb_spec (id z) i) as [Ez|Ez].
    + destruct (Hg z ltac:(by right) Ez) as [F|[F|(a & F & Ha)]].
      * apply Hb, list_elem_of_omap. exists z. split; [done|congruence].
      * congruence.
      * apply Ha. assert (a = b) as -> by congruence. left.
    + apply Hb, list_elem_of_omap. eauto.
Qed.

Lemma fmap_omap {A B} (h : A → B) (l : list A) : h <$> l = omap (λ x, Some (h x)) l.
Proof. induction l as [|x l IH]; [done|]. cbn. by f_equal. Qed.

Lemma ids_NoDup (l : list Z) : ids_ok l → NoDup l.
Proof.
  intros [Hs _]. induction Hs as [|z l Hs IH Hz]; constructor; [|done].
  rewrite Forall_forall in Hz. intros Hin. specialize (Hz z Hin). lia.
Qed.

(** When an update of the peer with id [i] is accepted. *)
Lemma peers_ok_update1 keys l i g :
  peers_ok keys l = true → ids_ok (p_id <$> l) →
  (∀ p, p ∈ l → p_id p = i →
     p_id (g p) = i ∧ p_public_key (g p) = p_public_key p
     ∧ (p_assigned_ip (g p) = p_assigned_ip p ∨ p_assigned_ip (g p) ∉ (p_assigned_ip <$> l))
     ∧ (p_assigned_ip6 (g p) = p_assigned_ip6 p
        ∨ ∀ a, p_assigned_ip6 (g p) = Some a → a ∉ omap p_assigned_ip6 l)
     ∧ port_check (g p) = true ∧ peer_refs keys l (g p) = true) →
  peers_ok keys (update_where (λ p, p_id p =? i) g l) = true.
Proof.
  rewrite !peers_ok_spec. intros (U1&U2&U3&Hp&Hr) Hi Hg.
  assert (p_id <$> update_where (λ p, p_id p =? i) g l = p_id <$> l) as Eid.
  { apply fmap_update_where. intros x Hx E. transitivity i; [apply Hg; [done|lia]|lia]. }
  apply ids_NoDup in Hi.
  split; [|split; [|split; [|split]]].
  - rewrite (fmap_update_where p_public_key); [done|]. intros x Hx E. apply Hg; [done|lia].
  - rewrite !(fmap_omap p_assigned_ip) in *.
    apply (NoDup_omap_update1 p_id); [done..|]. intros x Hx E.
    destruct (Hg x Hx E) as (_&_&[->|Hn]&_); [by left|]. right. right. eauto.
  - apply (NoDup_omap_update1 p_id); [done..|]. intros x Hx E.
    destruct (Hg x Hx E) as (_&_&_&[->|Hn]&_); [by left|]. right.
    destruct (p_assigned_ip6 (g x)) as [a|]; [|by left]. right. eauto.
  - intros q (p & Hq & ->)%elem_of_update_where. destruct (Z.eqb_spec (p_id p) i); [|by apply Hp].
    by apply Hg.
  - intros q (p & Hq & ->)%elem_of_update_where. unfold peer_refs. rewrite Eid.
    destruct (Z.eqb_spec (p_id p) i); [by apply Hg|by apply Hr].
Qed.

Lemma db_ok_update1 db i g :
  db_ok db → (∀ p, p_id (g p) = p_id p) →
  peers_ok (setup_keys db) (update_where (λ p, p_id p =? i) g (peers db)) = true →
  db_ok (set_peers (update_where (λ p, p_id p =? i) g (peers db)) db).
Proof.
  intros H Hid Hp. apply db_ok_update_peers; [done|..|done]. apply fmap_update_where. auto.
Qed.

(** ** Counting rows *)
Lemma count_where_snoc {A} (f : A → bool) l x :
  count_where f (l ++ [x]) = count_where f l + if f x then 1 else 0.
Proof.
  unfold count_where. rewrite filter_app, length_app, (filter_cons _ x []).
  destruct (f x); simpl; lia.
Qed.
Lemma count_where_update {A} (h : A → bool) (f : A → bool) g (l : list A) :
  (∀ x, h (g x) = h x) → count_where h (update_where f g l) = count_where h l.
Proof.
  intros Hg. unfold count_where. induction l as [|x l IH]; [done|].
  change (update_where f g (x :: l)) with ((if f x then g x else x) :: update_where f g l).
  rewrite !filter_cons. assert (h (if f x then g x else x) = h x) as -> by (destruct (f x); auto).
  case_decide; simpl; lia.
Qed.
Lemma count_where_mono {A} (f g : A → bool) (l : list A) :
  (∀ x, x ∈ l → f x = true → g x = true) → count_where f l ≤ count_where g l.
Proof.
  intros H. unfold count_where. induction l as [|x l IH]; [done|]. rewrite !filter_cons.
  assert (∀ y, y ∈ l → f y = true → g y = true) as Hl by (intros y Hy; apply H; by right).
  specialize (IH Hl). specialize (H x ltac:(left)).
  destruct (f x), (g x); simpl in *; try lia.
Qed.
Lemma count_where_delete {A} (h f : A → bool) (l : list A) :
  count_where h (delete_where f l) ≤ count_where h l.
Proof.
  unfold count_where, delete_where. induction l as [|x l IH]; [done|].
  rewrite (filter_cons (λ x, ¬ Is_true (f x))), (filter_cons (λ x, Is_true (h x)) x l).
  case_decide; [rewrite filter_cons|]; case_decide; cbn [length]; lia.
Qed.

(** Two rows with the same value in a column without duplicates. *)
Lemma NoDup_omap_index {A B} (h : A → option B) (l : list A) i j x y a :
  NoDup (omap h l) → l !! i = Some x → l !! j = Some y → h x = Some a → h y = Some a → i = j.
Proof.
  revert i j. induction l as [|z l IH]; intros i j Hn Hi Hj Hx Hy; [done|].
  change (omap h (z :: l)) with (match h z with Some b => b :: omap h l | None => omap h l end) in Hn.
  assert (∀ k w, l !! k = Some w → h w = Some a → a ∈ omap h l) as Hin.
  { intros k w Hk Hw. apply list_elem_of_omap. exists w. split; [by eapply list_elem_of_lookup_2|done]. }
  destruct i as [|i], j as [|j]; cbn in Hi, Hj; [done|..].
  - injection Hi as ->. rewrite Hx in Hn. apply NoDup_cons in Hn as [Hn _]. destruct Hn. eauto.
  - injection Hj as ->. rewrite Hy in Hn. apply NoDup_cons in Hn as [Hn _]. destruct Hn. eauto.
  - f_equal. apply (IH i j); try done. destruct (h z); [by apply NoDup_cons in Hn as [_ ?]|done].
Qed.

(** ** A decision procedure for the invariant, for concrete databases *)
Fixpoint sortedb (l : list Z) : bool :=
  match l with [] => true | z :: l => forallb (λ y, z <? y) l && sortedb l end.
Definition ids_okb (l : list Z) : bool := sortedb l && forallb (λ z, 1 <=? z) l.
Definition db_okb (db : DB) : bool :=
  ids_okb (k_id <$> setup_keys db) && ids_okb (p_id <$> peers db)
  && keys_ok (setup_keys db) && peers_ok (setup_keys db) (peers db)
  && ids_okb (r_id <$> acl_rules db)
  && forallb (λ r, null_or (is_peer db) (r_src_peer_id r) && null_or (is_peer db) (r_dst_peer_id r))
       (acl_rules db)
  && forallb (λ kv, is_peer db kv.1.1 && is_peer db kv.1.2) (map_to_list (link_stats db))
  && forallb (λ kv, is_peer db kv.1.1 && is_peer db kv.1.2) (map_to_list (peer_paths db))
  && forallb (λ e, is_peer db (ce_reporter_peer_id e) && is_peer db (ce_remote_peer_id e))
       (connection_events db)
  && forallb (λ f, is_peer db (f_peer_id f)) (flows db)
  && forallb (λ e, null_or (is_peer db) (pe_peer_id e)) (proxy_events db)
  && forallb (λ a, null_or (is_peer db) (a_peer_id a)) (audit_log db)
  && ids_okb (u_id <$> users db) && bool_decide (NoDup (u_username <$> users db)).

Lemma ids_okb_ok l : ids_okb l = true → ids_ok l.
Proof.
  unfold ids_okb. intros [Hs Hp]%andb_true_iff. split.
  - clear Hp. induction l as [|z l IH]; [constructor|]. cbn [sortedb] in Hs.
    apply andb_true_iff in Hs as [Hz Hs]. constructor; [auto|]. apply Forall_forall.
    intros y Hy. rewrite forallb_elem in Hz. specialize (Hz y Hy). lia.
  - apply Forall_forall. intros z Hz. rewrite forallb_elem in Hp. specialize (Hp z Hz). lia.
Qed.

Lemma db_okb_ok db : db_okb db = true → db_ok db.
Proof.
  unfold db_okb. rewrite !andb_true_iff, !forallb_elem. setoid_rewrite andb_true_iff.
  setoid_rewrite elem_of_map_to_list'. intros Ho. repeat match goal with Ha : _ ∧ _ |- _ => destruct Ha end.
  constructor; try done; try (apply ids_okb_ok; by apply andb_true_iff); try by apply andb_true_iff.
  - intros a b row Hr. match goal with Hm : ∀ kv, link_stats _ !! _ = _ → _ |- _ => apply (Hm ((a, b), row) Hr) end.
  - intros a b row Hr. match goal with Hm : ∀ kv, peer_paths _ !! _ = _ → _ |- _ => apply (Hm ((a, b), row) Hr) end.
  - by eapply bool_decide_eq_true_1.
Qed.
