(* ===== verification/Alloc.v ===== *)
(** * Overlay address allocation

    [allocateAddr] of internal/store/store.go (the lowest free host of an
    overlay prefix) and [firstOverlayHosts] of internal/store/network.go (the
    first [n] hosts, for a migration).  Both walk
    [for ip := prefix.Addr().Next(); prefix.Contains(ip); ip = ip.Next()].

    The walk of [allocateAddr] is given one step more than there are used
    addresses, which is proved to be enough: every step but the last meets a
    different used address.  The walk of [firstOverlayHosts] is structural in
    the number of hosts wanted. *)
From S2P Require Import Prelude GoText NetAddr NetFacts Schema.

(** The loop of [allocateAddr]: [None] when the fuel runs out, [Some None] when
    the walk leaves the prefix. *)
Fixpoint free_walk (fuel : nat) (prefix : Prefix) (used : list Addr) (ip : Addr)
  : option (option Addr) :=
  match fuel with
  | O => None
  | S fuel =>
      if Contains prefix ip then
        if bool_decide (ip ∈ used) then free_walk fuel prefix used (Next ip) else Some (Some ip)
      else Some None
  end.

Fixpoint parse_column (column : string) (rows : list string) : result (list Addr) :=
  match rows with
  | [] => Ok []
  | raw :: rows =>
      match ParseAddr raw with
      | None => Err (ErrMsg ("parse " +:+ column +:+ " from database"))
      | Some addr => rest ← parse_column column rows; Ok (addr :: rest)
      end
  end.

Definition allocateAddr (prefix : Prefix) (name : string) (column : Peer → option string)
    (db : DB) : result string :=
  used ← parse_column name (omap column (peers db));
  match free_walk (S (length used)) prefix used (Next (paddr prefix)) with
  | Some (Some ip) => Ok (addr_string ip)
  | Some None => Err (ErrMsg ("overlay network " +:+ prefix_string prefix +:+ " has no free addresses"))
  | None => Err (ErrMsg "out of fuel")
  end.

Definition column_ip (p : Peer) : option string := Some (p_assigned_ip p).
Definition column_ip6 (p : Peer) : option string := p_assigned_ip6 p.

(** The first [n] hosts from [ip] on, or how many there are. *)
Fixpoint hosts_walk (n : nat) (prefix : Prefix) (ip : Addr) (found need : Z)
  : result (list string) :=
  match n with
  | O => Ok []
  | S n =>
      if Contains prefix ip then
        rest ← hosts_walk n prefix (Next ip) (found + 1) need; Ok (addr_string ip :: rest)
      else Err (ErrMsg ("overlay network " +:+ prefix_string prefix +:+ " has room for "
                        +:+ Itoa found +:+ " peer(s), need " +:+ Itoa need))
  end.
Definition firstOverlayHosts (prefix : Prefix) (n : nat) : result (list string) :=
  hosts_walk n prefix (Next (paddr prefix)) 0 (Z.of_nat n).

(** ** The walk *)
Section walk.
Context (p : Prefix) (Hnet : net_ok p = true).

(** Where the walk stands after [k] steps: at host [k], or out of the prefix. *)
Definition at_host (k : Z) (ip : Addr) : Prop :=
  (0 ≤ k < host_span p ∧ ip = host p k) ∨ (host_span p ≤ k ∧ Contains p ip = false).

Lemma at_host_next k : 0 ≤ k < host_span p → at_host (k + 1) (Next (host p k)).
Proof using Hnet.
  intros Hk. destruct (Next_host p k Hnet Hk) as [->|[E ->]].
  - destruct (decide (k + 1 < host_span p)); [left; split; [lia|done]|].
    right. split; [lia|]. rewrite Contains_host by done. lia.
  - right. split; [lia|]. apply Contains_NoAddr.
Qed.

Lemma at_host_1 : at_host 1 (Next (paddr p)).
Proof using Hnet.
  rewrite <- (host_0 p Hnet). apply (at_host_next 0).
  destruct (net_ok_elim p Hnet) as (w & _ & _ & _ & ? & _). lia.
Qed.

Lemma at_host_contains k ip :
  at_host k ip → Contains p ip = true → 0 ≤ k < host_span p ∧ ip = host p k.
Proof using Hnet. intros [?|[? E]] Hc; [done|congruence]. Qed.

Lemma at_host_out k ip : at_host k ip → Contains p ip = false → host_span p ≤ k.
Proof using Hnet.
  intros [[Hk ->]|[? _]] Hc; [|done]. rewrite Contains_host in Hc by done. lia.
Qed.

(** The walk returns the lowest host from [k] on that is not used, or says
    that there is none. *)
Lemma free_walk_spec fuel used k ip r :
  0 ≤ k → at_host k ip → free_walk fuel p used ip = Some r →
  match r with
  | Some a => ∃ j, k ≤ j < host_span p ∧ a = host p j ∧ (a ∉ used)
                 ∧ (∀ i, k ≤ i < j → host p i ∈ used)
  | None => ∀ i, k ≤ i < host_span p → host p i ∈ used
  end.
Proof using Hnet.
  revert k ip. induction fuel as [|fuel IH]; [done|]. intros k ip Hk Hat. cbn [free_walk].
  destruct (Contains p ip) eqn:Hc.
  - destruct (at_host_contains k ip Hat Hc) as [Hks ->].
    case_bool_decide as Hu.
    + intros Hw. specialize (IH (k + 1) _ ltac:(lia) (at_host_next k Hks) Hw).
      destruct r as [a|].
      * destruct IH as (j & Hj & -> & Hn & Hl). exists j. repeat split; [lia..|done|].
        intros i Hi. destruct (decide (i = k)) as [->|]; [done|]. apply Hl. lia.
      * intros i Hi. destruct (decide (i = k)) as [->|]; [done|]. apply IH. lia.
    + intros [= <-]. exists k. repeat split; [lia..|done|]. lia.
  - pose proof (at_host_out k ip Hat Hc). intros [= <-]. intros. lia.
Qed.

(** Every step but the last meets a different used address. *)
Lemma free_walk_fuel fuel used k ip :
  0 ≤ k → at_host k ip → NoDup (host p <$> seqZ k (Z.of_nat fuel)) →
  free_walk fuel p used ip = None → ∀ i, k ≤ i < k + Z.of_nat fuel → host p i ∈ used.
Proof using Hnet.
  revert k ip. induction fuel as [|fuel IH]; intros k ip Hk Hat Hnd; [lia|].
  cbn [free_walk]. destruct (Contains p ip) eqn:Hc; [|done].
  destruct (at_host_contains k ip Hat Hc) as [Hks ->]. case_bool_decide as Hu; [|done].
  intros Hw i Hi. destruct (decide (i = k)) as [->|]; [done|].
  apply (IH (k + 1) _ ltac:(lia) (at_host_next k Hks)); [|done|lia].
  rewrite Nat2Z.inj_succ, seqZ_cons in Hnd by lia.
  cbn in Hnd. apply NoDup_cons in Hnd as [_ Hnd].
  replace (Z.succ k) with (k + 1) in Hnd by lia.
  by replace (Z.pred (Z.succ (Z.of_nat fuel))) with (Z.of_nat fuel) in Hnd by lia.
Qed.

Lemma hosts_NoDup k n : NoDup (host p <$> seqZ k n).
Proof using Hnet.
  apply NoDup_fmap_2; [|apply NoDup_seqZ].
  intros i j. by apply host_inj.
Qed.

Lemma free_walk_total used ip :
  at_host 1 ip → free_walk (S (length used)) p used ip ≠ None.
Proof using Hnet.
  intros Hat Hw.
  assert (∀ a, a ∈ (host p <$> seqZ 1 (Z.of_nat (S (length used)))) → a ∈ used) as Hsub.
  { intros a (i & -> & Hi)%list_elem_of_fmap. apply elem_of_seqZ in Hi.
    eapply (free_walk_fuel (S (length used))); [..|exact Hw|]; [|done|apply hosts_NoDup|]; lia. }
  assert (length (host p <$> seqZ 1 (Z.of_nat (S (length used)))) ≤ length used)%nat as Hl.
  { apply submseteq_length, NoDup_submseteq; [apply hosts_NoDup|]. intros a. apply Hsub. }
  rewrite length_fmap, length_seqZ in Hl. lia.
Qed.

(** [firstOverlayHosts]: the hosts [1..n], all different, when they fit. *)
Lemma hosts_walk_Ok n k ip found need :
  0 ≤ k → at_host k ip → k + Z.of_nat n ≤ host_span p →
  hosts_walk n p ip found need = Ok ((λ i, addr_string (host p i)) <$> seqZ k (Z.of_nat n)).
Proof using Hnet.
  revert k ip found. induction n as [|n IH]; intros k ip found Hk Hat Hn; [done|].
  cbn [hosts_walk]. destruct Hat as [[Hks ->]|[? _]]; [|lia].
  assert (Contains p (host p k) = true) as -> by (rewrite Contains_host by done; lia).
  rewrite (IH (k + 1)) by (lia || by apply at_host_next). cbn [mbind result_bind].
  rewrite Nat2Z.inj_succ, (seqZ_cons k) by lia.
  by replace (Z.pred (Z.succ (Z.of_nat n))) with (Z.of_nat n) by lia.
Qed.

Lemma hosts_walk_Err n k ip found need :
  0 ≤ k → at_host k ip → host_span p < k + Z.of_nat n → (0 < n)%nat →
  ∃ e, hosts_walk n p ip found need = Err e.
Proof using Hnet.
  revert k ip found. induction n as [|n IH]; intros k ip found Hk Hat Hn H0; [lia|].
  cbn [hosts_walk]. destruct (Contains p ip) eqn:Hc; [|by eexists].
  destruct (at_host_contains k ip Hat Hc) as [Hks ->].
  destruct (IH (k + 1) _ (found + 1) ltac:(lia) (at_host_next k Hks)) as [e ->]; [lia..|].
  by exists e.
Qed.
End walk.

(** ** [allocateAddr] *)
Lemma parse_column_Ok c rows used :
  parse_column c rows = Ok used ↔ Forall2 (λ raw a, ParseAddr raw = Some a) rows used.
Proof.
  revert used. induction rows as [|raw rows IH]; intros used; cbn [parse_column].
  - split; [intros [= <-]; constructor|by inversion 1].
  - destruct (ParseAddr raw) as [a|] eqn:E.
    + destruct (parse_column c rows) as [l|e] eqn:P; cbn.
      * split; [intros [= <-]; constructor; [done|by apply IH]|].
        inversion 1 as [|?? ? ? E' F]; subst. apply IH in F. congruence.
      * split; [done|]. inversion 1 as [|?? ? ? E' F]; subst. apply IH in F. congruence.
    + split; [done|]. inversion 1; congruence.
Qed.

(** Every address of the column parses. *)
Definition column_parses (column : Peer → option string) (db : DB) : Prop :=
  ∀ p raw, p ∈ peers db → column p = Some raw → is_Some (ParseAddr raw).

Lemma column_parses_Ok c column db :
  column_parses column db → ∃ used, parse_column c (omap column (peers db)) = Ok used.
Proof.
  unfold column_parses. induction (peers db) as [|p l IH]; intros H; [by exists []|].
  assert (∀ q raw, q ∈ l → column q = Some raw → is_Some (ParseAddr raw)) as Hl.
  { intros q raw Hq. apply H. by right. }
  destruct (IH Hl) as [used Hu].
  change (omap column (p :: l)) with
    (match column p with Some z => z :: omap column l | None => omap column l end).
  destruct (column p) as [raw|] eqn:E; [|by exists used].
  destruct (H p raw ltac:(left) E) as [a Ha]. exists (a :: used). cbn [parse_column].
  by rewrite Ha, Hu.
Qed.

(** The addresses in use, and when a host is among them. *)
Definition addr_used (column : Peer → option string) (db : DB) (a : Addr) : Prop :=
  ∃ p raw, p ∈ peers db ∧ column p = Some raw ∧ ParseAddr raw = Some a.

Lemma parse_column_used c column db used a :
  parse_column c (omap column (peers db)) = Ok used → a ∈ used ↔ addr_used column db a.
Proof.
  rewrite parse_column_Ok. intros F. unfold addr_used. split.
  - intros Ha. apply list_elem_of_lookup in Ha as [i Hi].
    destruct (Forall2_lookup_r _ _ _ _ _ F Hi) as (raw & Hr & Hp).
    apply list_elem_of_lookup_2, list_elem_of_omap in Hr as (p & ? & ?). eauto.
  - intros (p & raw & Hp & Hc & Ha).
    assert (raw ∈ omap column (peers db)) as Hr by (apply list_elem_of_omap; eauto).
    apply list_elem_of_lookup in Hr as [i Hi].
    destruct (Forall2_lookup_l _ _ _ _ _ F Hi) as (a' & Ha' & Hp').
    assert (a' = a) as -> by congruence. by eapply list_elem_of_lookup_2.
Qed.

Lemma allocateAddr_Ok prefix name column db s :
  net_ok prefix = true → allocateAddr prefix name column db = Ok s →
  ∃ k, 1 ≤ k < host_span prefix ∧ s = addr_string (host prefix k)
     ∧ ¬ addr_used column db (host prefix k)
     ∧ (∀ i, 1 ≤ i < k → addr_used column db (host prefix i)).
Proof.
  intros Hnet. unfold allocateAddr.
  destruct (parse_column name (omap column (peers db))) as [used|e] eqn:P; [|done]. cbn [mbind result_bind].
  destruct (free_walk _ _ _ _) as [[ip|]|] eqn:W; [|done..]. intros [= <-].
  pose proof (free_walk_spec prefix Hnet _ used 1 _ _ ltac:(lia) (at_host_1 prefix Hnet) W)
    as (k & Hk & -> & Hn & Hl).
  exists k. rewrite <- (parse_column_used _ _ _ _ _ P).
  split; [lia|]. split; [done|]. split; [done|]. intros i Hi. apply (parse_column_used _ _ _ _ _ P). auto.
Qed.

Lemma allocateAddr_Err prefix name column db e :
  net_ok prefix = true → column_parses column db → allocateAddr prefix name column db = Err e →
  ∀ i, 1 ≤ i < host_span prefix → addr_used column db (host prefix i).
Proof.
  intros Hnet Hp. unfold allocateAddr. destruct (column_parses_Ok name column db Hp) as [used P].
  rewrite P. cbn [mbind result_bind]. pose proof (at_host_1 prefix Hnet) as Hat.
  destruct (free_walk _ _ _ _) as [[ip|]|] eqn:W; [done|intros _..].
  - pose proof (free_walk_spec prefix Hnet _ used 1 _ _ ltac:(lia) Hat W) as Hl.
    intros i Hi. apply (parse_column_used _ _ _ _ _ P). auto.
  - by destruct (free_walk_total prefix Hnet used _ Hat).
Qed.

(** The text that is allocated is in no row of the column. *)
Lemma allocateAddr_fresh prefix name column db s :
  net_ok prefix = true → allocateAddr prefix name column db = Ok s →
  s ∉ omap column (peers db).
Proof.
  intros Hnet H. destruct (allocateAddr_Ok _ _ _ _ _ Hnet H) as (k & Hk & -> & Hn & _).
  intros (p & Hp & Hc)%list_elem_of_omap. apply Hn. exists p, (addr_string (host prefix k)).
  destruct (host_wf prefix k Hnet ltac:(lia)). repeat split; [done..|]. by apply ParseAddr_string.
Qed.
