(* ===== verification/Enroll.v ===== *)
(** * Setup keys, enrollment and visibility

    internal/store/store.go: minting setup keys, [Enroll] with its idempotent
    path [reEnroll], [listVisible] (the ACL filter every peer list goes
    through), [PeersForID], [UpdatePeerCandidates] and [diagnoseKey].

    The clock and the random bytes are arguments: [now] is nanoseconds since
    the epoch, [raw] what [rand.Read] fills the buffer with. *)
From S2P Require Import Prelude GoText TimeText NetAddr NetFacts Codec Sha256 Schema SchemaFacts Alloc.

(** ** Store *)
Record Config : Type := mkConfig {
  network : Prefix;
  Network6 : Prefix;
  DefaultAllow : bool;
  TokenTTL : Z
}.
Record Store : Type := mkStore { cfg : Config; sdb : DB }.

Definition v6Enabled (c : Config) : bool := prefix_valid (Network6 c).
Definition setNetworks (network4 network6 : Prefix) (c : Config) : Config :=
  mkConfig (Masked network4) (Masked network6) (DefaultAllow c) (TokenTTL c).

(** The Go struct [PeerRow]: one peer as the rest of the server sees it. *)
Record PeerRow : Type := mkPeerRow {
  pr_ID : Z; pr_PublicKey : string; pr_Hostname : string;
  pr_AssignedIP : string; pr_AssignedIP6 : string; pr_PeerType : string;
  pr_GatewayPeerID : Z; pr_AdvertiseExitNode : bool; pr_ExitNodePeerID : Z;
  pr_PublicEndpoint : string; pr_ObservedIP : string; pr_ListenPort : Z;
  pr_CandidatesJSON : string; pr_NATType : string; pr_Version : string
}.
Record EnrollResult : Type := mkEnrollResult {
  er_Peer : PeerRow; er_Others : list PeerRow; er_Created : bool; er_AuthToken : string
}.

Definition nullable (s : string) : option string := if decide (s = "") then None else Some s.
Definition coalesce (o : option string) (d : string) : string := default d o.
(** [COALESCE(?, column)] in an UPDATE. *)
Definition keep {A} (new old : option A) : option A := match new with Some _ => new | None => old end.
Definition null_port (listenPort : Z) : option Z := if 0 <? listenPort then Some listenPort else None.

Definition HashToken (token : string) : string := hex_encode (sha256 (bytes_of token)).
Definition newAuthToken (raw : list Z) : string * string :=
  let token := RawURLEncode raw in (token, HashToken token).

(** ** Setup keys *)
Definition CreateNamedSetupKey (now : Z) (raw : list Z) (name : string) (maxUses expiresIn : Z)
  : tx DB string :=
  let key := RawURLEncode raw in
  let uses := if 0 <? maxUses then Some maxUses else None in
  let expires := if expiresIn =? 0 then None else Some (fmt_time (now + expiresIn)) in
  _ ← insert_key (λ i, mkKey i key (nullable name) (fmt_time now) expires None uses 0);
  mret key.
Definition CreateSetupKey (now : Z) (raw : list Z) (maxUses expiresIn : Z) : tx DB string :=
  CreateNamedSetupKey now raw "" maxUses expiresIn.

(** The WHERE clause of the consumption UPDATE. *)
Definition key_usable (setupKey now : string) (k : SetupKey) : bool :=
  bool_decide (k_key k = setupKey) && bool_decide (k_revoked_at k = None)
  && match k_expires_at k with None => true | Some e => str_lt now e end
  && null_or (λ m, k_uses_consumed k <? m) (k_max_uses k).

Definition consume_key (k : SetupKey) : SetupKey := set_k_uses_consumed (k_uses_consumed k + 1) k.

Definition diagnoseKey (setupKey now : string) (db : DB) : string :=
  match select1 (λ k, bool_decide (k_key k = setupKey)) (setup_keys db) with
  | None => "unknown setup key"
  | Some k =>
      match k_revoked_at k with
      | Some at_ => "setup key revoked at " +:+ at_
      | None =>
          if match k_expires_at k with Some e => str_le e now | None => false end
          then "setup key expired at " +:+ coalesce (k_expires_at k) ""
          else match k_max_uses k with
               | Some m =>
                   if m <=? k_uses_consumed k then
                     "setup key exhausted (" +:+ Itoa (k_uses_consumed k) +:+ "/" +:+ Itoa m +:+ " uses)"
                   else "setup key rejected for unknown reason"
               | None => "setup key rejected for unknown reason"
               end
      end
  end.

(** ** Visibility *)
Definition rule_matches (selfID : Z) (p : Peer) (r : AclRow) : bool :=
  null_or (λ i, (i =? selfID) || (i =? p_id p)) (r_src_peer_id r)
  && null_or (λ i, (i =? selfID) || (i =? p_id p)) (r_dst_peer_id r).

Definition visible (selfID : Z) (defaultAllow : bool) (db : DB) (p : Peer) : bool :=
  bool_decide (p_revoked_at p = None) && negb (p_id p =? selfID)
  && (defaultAllow
      || bool_decide (p_gateway_peer_id p = Some selfID)
      || bool_decide (p_exit_node_peer_id p = Some selfID)
      || match peer_by_id selfID db with
         | Some s => p_id p =? default 0 (p_exit_node_peer_id s)
         | None => false
         end
      || existsb (rule_matches selfID p) (acl_rules db)).

Definition peer_row (p : Peer) : PeerRow :=
  mkPeerRow (p_id p) (p_public_key p) (coalesce (p_hostname p) "")
    (p_assigned_ip p) (coalesce (p_assigned_ip6 p) "") (p_peer_type p)
    (default 0 (p_gateway_peer_id p)) (p_advertise_exit_node p) (default 0 (p_exit_node_peer_id p))
    (coalesce (p_public_endpoint p) "") (coalesce (p_observed_ip p) "") (default 0 (p_listen_port p))
    (coalesce (p_candidates p) "") (coalesce (p_nat_type p) "") "".

Definition listVisible (selfID : Z) (defaultAllow : bool) (db : DB) : list PeerRow :=
  peer_row <$> filter (λ p, Is_true (visible selfID defaultAllow db p)) (peers db).

(** [PeersForID]: the own row carries no hostname. *)
Definition self_row (p : Peer) : PeerRow :=
  mkPeerRow (p_id p) (p_public_key p) ""
    (p_assigned_ip p) (coalesce (p_assigned_ip6 p) "") (p_peer_type p)
    (default 0 (p_gateway_peer_id p)) (p_advertise_exit_node p) (default 0 (p_exit_node_peer_id p))
    (coalesce (p_public_endpoint p) "") (coalesce (p_observed_ip p) "") (default 0 (p_listen_port p))
    (coalesce (p_candidates p) "") (coalesce (p_nat_type p) "") "".
Definition PeersForID (c : Config) (id : Z) (db : DB) : result (PeerRow * list PeerRow) :=
  match peer_by_id id db with
  | None => Err (ErrMsg ("look up peer " +:+ Itoa id))
  | Some p => Ok (self_row p, listVisible id (DefaultAllow c) db)
  end.

(** ** Enrollment *)

(** The UPDATE of [reEnroll]. *)
Definition re_enroll_row (tokenHash at_ ip6 hostname observedIP publicEndpoint : string)
    (listenPort : Z) (p : Peer) : Peer :=
  mkPeer (p_id p) (p_public_key p) (p_assigned_ip p)
    (keep (nullable hostname) (p_hostname p))
    (keep (null_port listenPort) (p_listen_port p))
    (p_last_seen_at p) (p_created_at p) (p_revoked_at p) (p_setup_key_id p)
    (Some tokenHash)
    (keep (nullable observedIP) (p_observed_ip p))
    (keep (nullable publicEndpoint) (p_public_endpoint p))
    (Some at_)
    (keep (nullable ip6) (p_assigned_ip6 p))
    (p_peer_type p) (p_gateway_peer_id p) (p_private_key_enc p) (p_gateway_endpoint p)
    (p_candidates p) (p_nat_type p) (p_advertise_exit_node p) (p_exit_node_peer_id p)
    (p_agent_version p).

(** The row [Enroll] reads before it calls [reEnroll], with the fields that
    SELECT names; the others keep their zero value. *)
Definition existing_row (p : Peer) : PeerRow :=
  mkPeerRow (p_id p) "" "" (p_assigned_ip p) (coalesce (p_assigned_ip6 p) "") "" 0 false 0
    (coalesce (p_public_endpoint p) "") (coalesce (p_observed_ip p) "") (default 0 (p_listen_port p))
    "" "" "".

Definition if_set (new old : string) : string := if decide (new = "") then old else new.

Definition reEnroll (c : Config) (now : Z) (raw : list Z)
    (setupKey publicKey hostname : string) (existing : PeerRow) (enrolledKeyID : Z)
    (observedIP publicEndpoint : string) (listenPort : Z) : tx DB EnrollResult :=
  presented ← tx_get (λ db, select1 (λ k, bool_decide (k_key k = setupKey)) (setup_keys db));
  match presented with
  | None => tx_fail (ErrUnauthorized "re-enroll with unknown setup key")
  | Some k =>
      if bool_decide (k_revoked_at k ≠ None)
      then tx_fail (ErrUnauthorized "re-enroll with revoked setup key")
      else if negb (k_id k =? enrolledKeyID)
      then tx_fail (ErrUnauthorized "re-enroll setup key does not match original enrollment")
      else
        let '(token, tokenHash) := newAuthToken raw in
        ip6 ← (if v6Enabled c && bool_decide (pr_AssignedIP6 existing = "")
               then λ db, tx_lift (allocateAddr (Network6 c) "assigned_ip6" column_ip6 db) db
               else mret "");
        ps ← tx_get peers;
        _ ← put_peers (update_where (λ p, p_id p =? pr_ID existing)
              (re_enroll_row tokenHash (fmt_time now) ip6 hostname observedIP publicEndpoint listenPort)
              ps);
        others ← tx_get (listVisible (pr_ID existing) (DefaultAllow c));
        mret (mkEnrollResult
          (mkPeerRow (pr_ID existing) publicKey (pr_Hostname existing) (pr_AssignedIP existing)
             (if_set ip6 (pr_AssignedIP6 existing)) (pr_PeerType existing)
             (pr_GatewayPeerID existing) (pr_AdvertiseExitNode existing) (pr_ExitNodePeerID existing)
             (if_set publicEndpoint (pr_PublicEndpoint existing))
             (if_set observedIP (pr_ObservedIP existing))
             (if 0 <? listenPort then listenPort else pr_ListenPort existing)
             (pr_CandidatesJSON existing) (pr_NATType existing) (pr_Version existing))
          others false token)
  end.

(** The row a new peer is inserted with; columns the INSERT does not name take
    their defaults. *)
Definition new_peer_row (publicKey ip ip6 hostname : string) (listenPort keyID : Z)
    (tokenHash now observedIP publicEndpoint : string) (i : Z) : Peer :=
  mkPeer i publicKey ip (nullable hostname) (null_port listenPort) None now None keyID
    (Some tokenHash) (nullable observedIP) (nullable publicEndpoint) (Some now) (nullable ip6)
    "agent" None None None None None false None None.

Definition allocate_overlay (c : Config) : tx DB (string * string) := λ db,
  (ip ← allocateAddr (network c) "assigned_ip" column_ip db;
   if v6Enabled c then
     ip6 ← allocateAddr (Network6 c) "assigned_ip6" column_ip6 db; Ok (ip, ip6, db)
   else Ok (ip, "", db)).

Definition Enroll (c : Config) (now : Z) (raw : list Z)
    (setupKey publicKey hostname : string) (listenPort : Z)
    (observedIP publicEndpoint : string) : tx DB EnrollResult :=
  known ← tx_get (λ db, select1 (λ p, bool_decide (p_public_key p = publicKey)) (peers db));
  match known with
  | Some p =>
      reEnroll c now raw setupKey publicKey hostname (existing_row p) (p_setup_key_id p)
        observedIP publicEndpoint listenPort
  | None =>
      let at_ := fmt_time now in
      keys ← tx_get setup_keys;
      _ ← put_keys (update_where (key_usable setupKey at_) consume_key keys);
      if count_where (key_usable setupKey at_) keys =? 0 then
        reason ← tx_get (diagnoseKey setupKey at_); tx_fail (ErrUnauthorized reason)
      else
        k ← tx_get (λ db, select1 (λ k, bool_decide (k_key k = setupKey)) (setup_keys db));
        match k with
        | None => tx_fail (ErrMsg "look up setup key id")
        | Some k =>
            '(ip, ip6) ← allocate_overlay c;
            let '(token, tokenHash) := newAuthToken raw in
            peerID ← insert_peer (new_peer_row publicKey ip ip6 hostname listenPort (k_id k)
                                    tokenHash at_ observedIP publicEndpoint);
            others ← tx_get (listVisible peerID (DefaultAllow c));
            mret (mkEnrollResult
              (mkPeerRow peerID publicKey "" ip ip6 "" 0 false 0 publicEndpoint observedIP listenPort
                 "" "" "")
              others true token)
        end
  end.

(** [UpdatePeerCandidates]: an empty list is no update. *)
Definition UpdatePeerCandidates (peerID : Z) (candidatesJSON : string) : tx DB unit :=
  if decide (candidatesJSON = "") then mret tt
  else tx_put (λ db, set_peers (update_where (λ p, p_id p =? peerID)
                                  (set_p_candidates (Some candidatesJSON)) (peers db)) db).
