(* ===== verification/EnrollFacts.v ===== *)
(** * Enrollment: what it does and what it preserves

    The functional behaviour of [Enroll] on its three outcomes (new peer,
    retry of a known peer, refusal), that it preserves the invariant of the
    database, and the budget of setup keys. *)
From S2P Require Import Prelude GoText TimeText NetAddr NetFacts Codec Sha256 Schema SchemaFacts Alloc Enroll.

(** ** Setup keys *)

(** Two keys with the same text are the same row. *)
Lemma key_text_inj db k k' :
  db_ok db → k ∈ setup_keys db → k' ∈ setup_keys db → k_key k = k_key k' → k = k'.
Proof.
  intros H Hk Hk' E. pose proof (ok_keys _ H) as [Hn _]%keys_ok_spec.
  apply list_elem_of_lookup in Hk as [i Hi], Hk' as [j Hj].
  assert (i = j) as ->; [|congruence].
  eapply (NoDup_lookup (k_key <$> setup_keys db)); [done|..]; rewrite list_lookup_fmap.
  - by rewrite Hi.
  - rewrite Hj. simpl. by rewrite E.
Qed.
Lemma select_key db k :
  db_ok db → k ∈ setup_keys db →
  select1 (λ k', bool_decide (k_key k' = k_key k)) (setup_keys db) = Some k.
Proof.
  intros H Hk. apply select1_unique; [done|by apply bool_decide_eq_true|].
  intros y Hy E%bool_decide_eq_true. by apply (key_text_inj db).
Qed.

Lemma public_key_inj db p q :
  db_ok db → p ∈ peers db → q ∈ peers db → p_public_key p = p_public_key q → p = q.
Proof.
  intros H Hk Hk' E. pose proof (ok_peers _ H) as [Hn _]%peers_ok_spec.
  apply list_elem_of_lookup in Hk as [i Hi], Hk' as [j Hj].
  assert (i = j) as ->; [|congruence].
  eapply (NoDup_lookup (p_public_key <$> peers db)); [done|..]; rewrite list_lookup_fmap.
  - by rewrite Hi.
  - rewrite Hj. simpl. by rewrite E.
Qed.
Lemma select_public_key db p :
  db_ok db → p ∈ peers db →
  select1 (λ q, bool_decide (p_public_key q = p_public_key p)) (peers db) = Some p.
Proof.
  intros H Hk. apply select1_unique; [done|by apply bool_decide_eq_true|].
  intros y Hy E%bool_decide_eq_true. by apply (public_key_inj db).
Qed.

(** Consuming a usable key keeps the constraints: that is what the WHERE clause
    is for. *)
Lemma consume_keys_ok sk at_ l :
  keys_ok l = true → keys_ok (update_where (key_usable sk at_) consume_key l) = true.
Proof.
  rewrite !keys_ok_spec. intros [Hn Hc]. split.
  - by rewrite (fmap_update_where k_key).
  - intros k (k0 & Hk0 & ->)%elem_of_update_where. specialize (Hc k0 Hk0).
    destruct (key_usable sk at_ k0) eqn:U; [|done].
    unfold key_usable, key_check, consume_key, set_k_uses_consumed in *. simpl.
    destruct (k_max_uses k0); simpl in *; lia.
Qed.

Lemma db_ok_consume sk at_ db :
  db_ok db → db_ok (set_setup_keys (update_where (key_usable sk at_) consume_key (setup_keys db)) db).
Proof.
  intros H.
  assert (k_id <$> update_where (key_usable sk at_) consume_key (setup_keys db)
          = k_id <$> setup_keys db) as E by (by apply fmap_update_where).
  apply db_ok_keys; [done|rewrite E; apply H|by rewrite E|]. apply consume_keys_ok, H.
Qed.

Lemma CreateNamedSetupKey_db_ok now raw name m e db r db' :
  db_ok db → CreateNamedSetupKey now raw name m e db = Ok (r, db') → db_ok db'.
Proof.
  intros H. unfold CreateNamedSetupKey. intros H1. tx_simpl.
  by eapply (db_ok_insert_key db); [..|eassumption].
Qed.

(** ** The enrollment of a new peer *)
Section enroll.
Context (c : Config) (now : Z) (raw : list Z) (setupKey publicKey hostname : string)
  (listenPort : Z) (observedIP publicEndpoint : string).

Local Abbreviation enroll := (Enroll c now raw setupKey publicKey hostname listenPort observedIP publicEndpoint).
Local Abbreviation usable := (key_usable setupKey (fmt_time now)).

(** The database after a key was consumed and the new row added. *)
Definition enrolled (k : SetupKey) (ip ip6 : string) (db : DB) : DB :=
  set_peers (peers db ++ [new_peer_row publicKey ip ip6 hostname listenPort (k_id k)
      (newAuthToken raw).2 (fmt_time now) observedIP publicEndpoint (next_id p_id (peers db))])
    (set_setup_keys (update_where usable consume_key (setup_keys db)) db).

Definition enroll_reply (k : SetupKey) (ip ip6 : string) (db : DB) : EnrollResult :=
  let i := next_id p_id (peers db) in
  mkEnrollResult
    (mkPeerRow i publicKey "" ip ip6 "" 0 false 0 publicEndpoint observedIP listenPort "" "" "")
    (listVisible i (DefaultAllow c) (enrolled k ip ip6 db)) true (newAuthToken raw).1.

Definition unknown_peer (db : DB) : Prop := publicKey ∉ (p_public_key <$> peers db).

Lemma unknown_select db :
  unknown_peer db →
  select1 (λ p, bool_decide (p_public_key p = publicKey)) (peers db) = None.
Proof using.
  intros H. apply select1_None. intros p Hp. apply bool_decide_eq_false. intros E. apply H.
  apply list_elem_of_fmap. eauto.
Qed.

(** What [Enroll] computes for an unknown public key and a usable key. *)
Lemma Enroll_usable db k :
  db_ok db → unknown_peer db → k ∈ setup_keys db → usable k = true →
  enroll db =
  match allocate_overlay c db with
  | Err e => Err e
  | Ok (ip, ip6, _) =>
      if peers_ok (setup_keys (enrolled k ip ip6 db)) (peers (enrolled k ip ip6 db))
      then Ok (enroll_reply k ip ip6 db, enrolled k ip ip6 db)
      else Err (ErrConstraint "peers")
  end.
Proof using.
  intros H Hu Hk Us.
  assert (keys_ok (update_where usable consume_key (setup_keys db)) = true) as Hko
    by (apply consume_keys_ok, H).
  assert ((count_where usable (setup_keys db) =? 0) = false) as Hc.
  { apply Z.eqb_neq. intros E. rewrite count_where_zero in E. specialize (E k Hk). congruence. }
  assert (k_key k = setupKey) as Ek.
  { unfold key_usable in Us. apply andb_true_iff in Us as [Us1 _].
    apply andb_true_iff in Us1 as [Us1 _]. apply andb_true_iff in Us1 as [E _].
    by apply bool_decide_eq_true in E. }
  set (db1 := set_setup_keys (update_where usable consume_key (setup_keys db)) db).
  assert (select1 (λ k', bool_decide (k_key k' = setupKey)) (setup_keys db1) = Some (consume_key k)) as Hs.
  { assert (consume_key k ∈ setup_keys db1) as Hin.
    { apply elem_of_update_where. exists k. by rewrite Us. }
    pose proof (select_key db1 (consume_key k) (db_ok_consume _ _ _ H) Hin) as S1.
    simpl in S1. by rewrite Ek in S1. }
  unfold Enroll, mbind, tx_bind, tx_get, put_keys. rewrite (unknown_select db Hu), Hko, Hc.
  fold db1. rewrite Hs.
  unfold allocate_overlay. change (peers db1) with (peers db).
  assert (∀ net n col, allocateAddr net n col db1 = allocateAddr net n col db) as Ea by done.
  rewrite !Ea. unfold mbind, result_bind.
  destruct (allocateAddr (network c) _ _ db) as [ip|e]; [|done].
  destruct (v6Enabled c); [destruct (allocateAddr (Network6 c) _ _ db) as [ip6|e]; [|done]|];
    unfold insert_peer, put_peers, enroll_reply, enrolled, newAuthToken;
    cbn [peers setup_keys set_peers set_setup_keys db1 snd fst];
    by destruct (peers_ok _ _).
Qed.

(** Without a usable key the enrollment is refused, with the reason. *)
Lemma Enroll_refused db :
  db_ok db → unknown_peer db → (∀ k, k ∈ setup_keys db → usable k = false) →
  enroll db = Err (ErrUnauthorized (diagnoseKey setupKey (fmt_time now) db)).
Proof using.
  intros H Hu Hn.
  assert (update_where usable consume_key (setup_keys db) = setup_keys db) as E.
  { apply update_where_id. intros k Hk Us. rewrite Hn in Us; done. }
  assert (count_where usable (setup_keys db) = 0) as C by (by apply count_where_zero).
  unfold Enroll, mbind, tx_bind, tx_get, put_keys.
  rewrite (unknown_select db Hu), E, (ok_keys _ H), C. simpl.
  by destruct db.
Qed.

(** ** Overlay addresses *)

(** The networks are masked prefixes, the IPv6 one when there is one. *)
Definition nets_ok : Prop :=
  net_ok (network c) = true ∧ (v6Enabled c = true → net_ok (Network6 c) = true).

Lemma allocate_overlay_Ok db ip ip6 db' :
  allocate_overlay c db = Ok (ip, ip6, db') ↔
  allocateAddr (network c) "assigned_ip" column_ip db = Ok ip ∧ db' = db
  ∧ (if v6Enabled c then allocateAddr (Network6 c) "assigned_ip6" column_ip6 db = Ok ip6
     else ip6 = "").
Proof using.
  unfold allocate_overlay, mbind, result_bind.
  destruct (allocateAddr (network c) _ _ _); [|naive_solver].
  destruct (v6Enabled c); [|naive_solver].
  destruct (allocateAddr (Network6 c) _ _ _); naive_solver.
Qed.

Lemma addr_string_nonempty net n col db s :
  net_ok net = true → allocateAddr net n col db = Ok s → s ≠ "".
Proof using.
  intros Hn (k & Hk & -> & _)%allocateAddr_Ok; [|done]. intros E.
  destruct (host_wf net k Hn ltac:(lia)) as [Hw Hv].
  pose proof (ParseAddr_string (host net k) Hw Hv) as P. rewrite E in P. discriminate P.
Qed.

(** A row whose addresses were just allocated is accepted. *)
Lemma enrolled_ok db k ip ip6 db' :
  db_ok db → nets_ok → unknown_peer db → k ∈ setup_keys db → listenPort ≤ 65535 →
  allocate_overlay c db = Ok (ip, ip6, db') →
  peers_ok (setup_keys (enrolled k ip ip6 db)) (peers (enrolled k ip ip6 db)) = true.
Proof using.
  intros H [N4 N6] Hu Hk Hp (A4 & _ & A6)%allocate_overlay_Ok.
  pose proof (ok_peers _ (db_ok_consume setupKey (fmt_time now) db H)) as Hok.
  apply peers_ok_snoc; [exact Hok|exact Hu|..].
  - apply allocateAddr_fresh in A4; [|done]. intros (q & E & Hq)%list_elem_of_fmap.
    apply A4, list_elem_of_omap. exists q. split; [done|]. unfold column_ip. by rewrite <- E.
  - intros a. simpl. destruct (v6Enabled c).
    + apply allocateAddr_fresh in A6; [|auto]. unfold nullable. case_decide; [done|].
      intros [= <-]. exact A6.
    + by rewrite A6.
  - unfold port_check, new_peer_row, null_port. cbn [p_listen_port].
    destruct (Z.ltb_spec 0 listenPort); [|done]. cbn [null_or]. lia.
  - simpl. rewrite (fmap_update_where k_id) by done. by apply list_elem_of_fmap_2.
  - done.
  - done.
Qed.

(** A new peer with a usable key is enrolled as long as the overlay has room. *)
Lemma Enroll_new db k ip ip6 db1 :
  db_ok db → nets_ok → unknown_peer db → k ∈ setup_keys db → usable k = true →
  listenPort ≤ 65535 → allocate_overlay c db = Ok (ip, ip6, db1) →
  enroll db = Ok (enroll_reply k ip ip6 db, enrolled k ip ip6 db).
Proof using.
  intros H Hn Hu Hk Us Hp Ha. rewrite (Enroll_usable db k) by done. rewrite Ha.
  by rewrite (enrolled_ok db k ip ip6 db1).
Qed.

(** A successful enrollment of an unknown public key went through a usable key. *)
Lemma Enroll_new_inv db r db' :
  db_ok db → unknown_peer db → enroll db = Ok (r, db') →
  ∃ k ip ip6, k ∈ setup_keys db ∧ usable k = true
    ∧ allocate_overlay c db = Ok (ip, ip6, db)
    ∧ peers_ok (setup_keys (enrolled k ip ip6 db)) (peers (enrolled k ip ip6 db)) = true
    ∧ r = enroll_reply k ip ip6 db ∧ db' = enrolled k ip ip6 db.
Proof using.
  intros H Hu He. destruct (decide (Exists (λ k, usable k = true) (setup_keys db))) as [Hx|Hx].
  - apply Exists_exists in Hx as (k & Hk & Us). rewrite (Enroll_usable db k) in He by done.
    destruct (allocate_overlay c db) as [[[ip ip6] db1]|e] eqn:A; [|done].
    case_match eqn:P; [|done]. simplify_eq. pose proof A as (_ & -> & _)%allocate_overlay_Ok.
    eauto 10.
  - rewrite (Enroll_refused db) in He; [done..|]. intros k Hk.
    destruct (usable k) eqn:E; [|done]. destruct Hx. apply Exists_exists. eauto.
Qed.

Lemma enrolled_db_ok db k ip ip6 :
  db_ok db → peers_ok (setup_keys (enrolled k ip ip6 db)) (peers (enrolled k ip ip6 db)) = true →
  db_ok (enrolled k ip ip6 db).
Proof using.
  intros H P. apply (db_ok_peers (set_setup_keys _ db)); [by apply db_ok_consume|..|exact P].
  - apply (ids_ok_insert p_id); [apply H|done].
  - simpl. rewrite fmap_app. set_solver.
Qed.

(** ** The retry of a known peer *)
Definition re_enrolled (p : Peer) (ip6 : string) (db : DB) : DB :=
  set_peers (update_where (λ q, p_id q =? p_id p)
    (re_enroll_row (newAuthToken raw).2 (fmt_time now) ip6 hostname observedIP publicEndpoint listenPort)
    (peers db)) db.

Definition backfill (p : Peer) (db : DB) : result string :=
  if v6Enabled c && bool_decide (coalesce (p_assigned_ip6 p) "" = "")
  then allocateAddr (Network6 c) "assigned_ip6" column_ip6 db else Ok "".

(** A successful retry presented the unrevoked key of the first enrollment. *)
Lemma Enroll_known_inv db p r db' :
  db_ok db → p ∈ peers db → p_public_key p = publicKey → enroll db = Ok (r, db') →
  ∃ k ip6, k ∈ setup_keys db ∧ k_key k = setupKey ∧ k_revoked_at k = None
    ∧ k_id k = p_setup_key_id p ∧ backfill p db = Ok ip6
    ∧ peers_ok (setup_keys db) (peers (re_enrolled p ip6 db)) = true
    ∧ db' = re_enrolled p ip6 db
    ∧ pr_ID (er_Peer r) = p_id p ∧ pr_AssignedIP (er_Peer r) = p_assigned_ip p
    ∧ pr_PublicKey (er_Peer r) = publicKey
    ∧ er_Created r = false ∧ er_AuthToken r = (newAuthToken raw).1
    ∧ er_Others r = listVisible (p_id p) (DefaultAllow c) db'
    ∧ pr_AssignedIP6 (er_Peer r) = if_set ip6 (coalesce (p_assigned_ip6 p) "").
Proof using.
  intros H Hp Epk. pose proof (select_public_key db p H Hp) as Hs. rewrite Epk in Hs.
  unfold Enroll, reEnroll, mbind, tx_bind, tx_get. rewrite Hs.
  destruct (select1 _ (setup_keys db)) as [k|] eqn:Hk; [|done].
  apply select1_Some in Hk as [Hk Ek%bool_decide_eq_true].
  case_bool_decide as Hrev; [done|]. destruct (k_id k =? p_setup_key_id p) eqn:Eid; [|done].
  cbn [negb pr_AssignedIP6 existing_row]. unfold newAuthToken, tx_lift.
  assert (k_revoked_at k = None) as Er by (destruct (k_revoked_at k); [by destruct Hrev|done]).
  assert (k_id k = p_setup_key_id p) as Ei by lia.
  intros He. exists k.
  assert (∃ ip6, backfill p db = Ok ip6 ∧
    peers_ok (setup_keys db) (peers (re_enrolled p ip6 db)) = true ∧ db' = re_enrolled p ip6 db
    ∧ pr_ID (er_Peer r) = p_id p ∧ pr_AssignedIP (er_Peer r) = p_assigned_ip p
    ∧ pr_PublicKey (er_Peer r) = publicKey
    ∧ er_Created r = false ∧ er_AuthToken r = (newAuthToken raw).1
    ∧ er_Others r = listVisible (p_id p) (DefaultAllow c) db'
    ∧ pr_AssignedIP6 (er_Peer r) = if_set ip6 (coalesce (p_assigned_ip6 p) "")) as (ip6 & Hrest); [|by exists ip6].
  unfold backfill. destruct (v6Enabled c && _).
  - destruct (allocateAddr _ _ _ _) as [ip6|]; [|done]. exists ip6. split; [done|].
    unfold put_peers in He. destruct (peers_ok _ _) eqn:P; [|done].
    unfold mret, tx_ret in He. by simplify_eq.
  - exists "". split; [done|]. unfold mret, tx_ret, put_peers in He.
    destruct (peers_ok _ _) eqn:P; [|done]. by simplify_eq.
Qed.

(** The retry is accepted whenever the key is the one of the first enrollment
    and is not revoked; expiry and exhaustion play no part. *)
Lemma Enroll_known db p k ip6 :
  db_ok db → nets_ok → p ∈ peers db → p_public_key p = publicKey →
  k ∈ setup_keys db → k_key k = setupKey → k_revoked_at k = None → k_id k = p_setup_key_id p →
  listenPort ≤ 65535 → backfill p db = Ok ip6 →
  ∃ r, enroll db = Ok (r, re_enrolled p ip6 db).
Proof using.
  intros H [_ N6] Hp Epk Hk Ek Er Ei Hlp Hb.
  pose proof (select_public_key db p H Hp) as Hs. rewrite Epk in Hs.
  pose proof (select_key db k H Hk) as Hsk. rewrite Ek in Hsk.
  assert (peers_ok (setup_keys db) (peers (re_enrolled p ip6 db)) = true) as Hok.
  { apply peers_ok_update1; [apply H..|]. intros q Hq Eq.
    assert (q = p) as -> by (by apply (ids_ok_inj p_id (peers db)); [apply H|..]).
    pose proof (ok_peers _ H) as (_&_&_&Hpc&Hrf)%peers_ok_spec.
    split; [done|]. split; [done|]. split; [by left|]. split; [|split; [|apply (Hrf p Hp)]].
    - simpl. unfold nullable. case_decide as E0; [by left|]. right. intros a [= <-].
      unfold backfill in Hb. destruct (v6Enabled c) eqn:V; simpl in Hb; [|congruence].
      case_bool_decide; [|congruence]. by apply allocateAddr_fresh in Hb; [|auto].
    - specialize (Hpc p Hp). unfold port_check, re_enroll_row, null_port in *. cbn [p_listen_port].
      destruct (Z.ltb_spec 0 listenPort); [|done]. cbn [keep null_or]. lia. }
  unfold Enroll, reEnroll, mbind, tx_bind, tx_get. rewrite Hs, Hsk, bool_decide_eq_false_2 by (by intros F; apply F).
  rewrite Ei, Z.eqb_refl. cbn [negb pr_AssignedIP6 existing_row]. unfold newAuthToken, tx_lift.
  unfold backfill in Hb. destruct (v6Enabled c && _).
  - rewrite Hb. unfold put_peers.
    change (peers_ok (setup_keys db) (update_where _ _ (peers db)))
      with (peers_ok (setup_keys db) (peers (re_enrolled p ip6 db))).
    rewrite Hok. by eexists.
  - injection Hb as <-. unfold mret, tx_ret, put_peers.
    change (peers_ok (setup_keys db) (update_where _ _ (peers db)))
      with (peers_ok (setup_keys db) (peers (re_enrolled p "" db))).
    rewrite Hok. by eexists.
Qed.

(** A retry with any other key is refused. *)
Lemma Enroll_known_refused db p :
  db_ok db → p ∈ peers db → p_public_key p = publicKey →
  (∀ k, k ∈ setup_keys db → k_key k = setupKey →
     k_revoked_at k ≠ None ∨ k_id k ≠ p_setup_key_id p) →
  ∃ why, enroll db = Err (ErrUnauthorized why).
Proof using.
  intros H Hp Epk Hbad. pose proof (select_public_key db p H Hp) as Hs. rewrite Epk in Hs.
  unfold Enroll, reEnroll, mbind, tx_bind, tx_get. rewrite Hs.
  destruct (select1 _ (setup_keys db)) as [k|] eqn:Hk; [|by eexists].
  apply select1_Some in Hk as [Hk Ek%bool_decide_eq_true].
  case_bool_decide as Hrev; [by eexists|].
  destruct (Hbad k Hk Ek) as [?|Hid]; [done|].
  destruct (Z.eqb_spec (k_id k) (p_setup_key_id p)); [done|]. by eexists.
Qed.

Lemma known_or_unknown db : unknown_peer db ∨ ∃ p, p ∈ peers db ∧ p_public_key p = publicKey.
Proof using.
  destruct (decide (publicKey ∈ (p_public_key <$> peers db))) as [Hin|]; [|by left].
  right. apply list_elem_of_fmap in Hin as (p & -> & Hp). eauto.
Qed.

Lemma Enroll_db_ok db r db' : db_ok db → enroll db = Ok (r, db') → db_ok db'.
Proof using.
  intros H He. destruct (known_or_unknown db) as [Hu|(p & Hp & Epk)].
  - destruct (Enroll_new_inv db r db' H Hu He) as (k & ip & ip6 & ? & ? & ? & P & _ & ->).
    by apply enrolled_db_ok.
  - destruct (Enroll_known_inv db p r db' H Hp Epk He) as (k & ip6 & ? & ? & ? & ? & ? & P & -> & _).
    by apply db_ok_update1.
Qed.

(** ** The budget of a setup key

    Every peer enrolled with a key was paid for with one of its uses. *)
Definition key_budget (db : DB) : Prop :=
  ∀ k, k ∈ setup_keys db →
    count_where (λ p, p_setup_key_id p =? k_id k) (peers db) ≤ k_uses_consumed k.

Lemma Enroll_key_budget db r db' :
  db_ok db → key_budget db → enroll db = Ok (r, db') → key_budget db'.
Proof using.
  intros H Hb He. destruct (known_or_unknown db) as [Hu|(p & Hp & Epk)].
  - destruct (Enroll_new_inv db r db' H Hu He) as (k & ip & ip6 & Hk & Us & _ & _ & _ & ->).
    intros k' Hk'. cbn [enrolled setup_keys set_peers set_setup_keys] in Hk'.
    apply elem_of_update_where in Hk' as (k0 & Hk0 & ->).
    unfold enrolled. cbn [peers set_peers set_setup_keys].
    rewrite count_where_snoc. specialize (Hb k0 Hk0). cbn [p_setup_key_id new_peer_row].
    destruct (usable k0) eqn:U0; cbn [consume_key set_k_uses_consumed k_id k_uses_consumed].
    + destruct (k_id k =? k_id k0); lia.
    + destruct (Z.eqb_spec (k_id k) (k_id k0)) as [E|]; [|lia].
      assert (k = k0) as -> by (by apply (ids_ok_inj k_id (setup_keys db)); [apply H|..]). congruence.
  - destruct (Enroll_known_inv db p r db' H Hp Epk He) as (k & ip6 & ? & ? & ? & ? & ? & P & -> & _).
    intros k0 Hk0. unfold re_enrolled. cbn [peers set_peers setup_keys] in *.
    rewrite count_where_update by done. by apply Hb.
Qed.
End enroll.
