(* ===== verification/Visibility.v ===== *)
(** * Who sees whom, and the properties of enrollment

    [listVisible] against an abstract access relation, and the enrollment
    properties of internal/store/store.go. *)
From S2P Require Import Prelude GoText TimeText NetAddr NetFacts Codec Sha256 Schema SchemaFacts Alloc Enroll EnrollFacts.

(** ** The access relation

    What the rules mean: a rule connects two peers when each endpoint it names
    is one of them; an endpoint it leaves open is anyone. *)
Definition connects (r : AclRow) (a b : Z) : Prop :=
  (∀ i, r_src_peer_id r = Some i → i = a ∨ i = b)
  ∧ (∀ i, r_dst_peer_id r = Some i → i = a ∨ i = b).

Definition gateway_of (p : Peer) (i : Z) : Prop := p_gateway_peer_id p = Some i.
Definition exits_through (p : Peer) (i : Z) : Prop := p_exit_node_peer_id p = Some i.

Definition may_see (defaultAllow : bool) (db : DB) (self p : Peer) : Prop :=
  p_revoked_at p = None ∧ p_id p ≠ p_id self
  ∧ (defaultAllow = true ∨ gateway_of p (p_id self) ∨ exits_through p (p_id self)
     ∨ exits_through self (p_id p) ∨ ∃ r, r ∈ acl_rules db ∧ connects r (p_id self) (p_id p)).

Lemma rule_matches_connects a p r : rule_matches a p r = true ↔ connects r a (p_id p).
Proof.
  unfold rule_matches, connects. rewrite andb_true_iff.
  destruct (r_src_peer_id r), (r_dst_peer_id r); cbn [null_or];
    rewrite ?orb_true_iff, ?Z.eqb_eq; naive_solver.
Qed.

Lemma connects_sym r a b : connects r a b ↔ connects r b a.
Proof. unfold connects. naive_solver. Qed.

(** A rule with two different endpoints connects that pair and no other. *)
Lemma connects_pair r a b x y :
  r_src_peer_id r = Some a → r_dst_peer_id r = Some b → a ≠ b →
  connects r x y ↔ (x = a ∧ y = b) ∨ (x = b ∧ y = a).
Proof.
  intros Ea Eb Hne. unfold connects. rewrite Ea, Eb. split.
  - intros [H1 H2]. specialize (H1 a eq_refl). specialize (H2 b eq_refl). lia.
  - intros [[-> ->]|[-> ->]]; split; intros i [= <-]; auto.
Qed.

Lemma peer_id_pos db p : db_ok db → p ∈ peers db → 1 ≤ p_id p.
Proof.
  intros H Hp. destruct (ok_peer_ids _ H) as [_ F]. rewrite Forall_forall in F.
  by apply (F (p_id p)), list_elem_of_fmap_2.
Qed.

Lemma visible_may_see da db self p :
  db_ok db → self ∈ peers db → p ∈ peers db →
  visible (p_id self) da db p = true ↔ may_see da db self p.
Proof.
  intros H Hs Hp. unfold visible, may_see, gateway_of, exits_through.
  rewrite (peer_by_id_eq db self H Hs), !andb_true_iff, !orb_true_iff, negb_true_iff, Z.eqb_neq,
    !bool_decide_eq_true.
  pose proof (peer_id_pos db p H Hp) as Hpos.
  assert ((p_id p =? default 0 (p_exit_node_peer_id self)) = true
    ↔ p_exit_node_peer_id self = Some (p_id p)) as ->.
  { rewrite Z.eqb_eq. destruct (p_exit_node_peer_id self); simpl; [naive_solver|].
    split; [lia|done]. }
  assert (existsb (rule_matches (p_id self) p) (acl_rules db) = true
    ↔ ∃ r, r ∈ acl_rules db ∧ connects r (p_id self) (p_id p)) as ->.
  { rewrite existsb_exists. setoid_rewrite <- list_elem_of_In.
    setoid_rewrite rule_matches_connects. done. }
  tauto.
Qed.

Lemma listVisible_elem id da db row :
  row ∈ listVisible id da db ↔ ∃ p, p ∈ peers db ∧ visible id da db p = true ∧ row = peer_row p.
Proof.
  unfold listVisible. rewrite list_elem_of_fmap. setoid_rewrite list_elem_of_filter.
  setoid_rewrite Is_true_true. naive_solver.
Qed.

(** ** A sample network *)
Definition sample_cfg : Config :=
  mkConfig (mkPrefix (V4 1681915904) 30) no_prefix false (24 * Hour).
Definition sample_raw : list Z := [1; 2; 3].
Definition sample_now : Z := 1700000000 * Second.
Definition sample_key : SetupKey :=
  mkKey 1 "k1" None "2023-01-01T00:00:00.000Z" (Some "2024-01-01T00:00:00.000Z") None (Some 2) 1.
Definition sample_peer : Peer :=
  mkPeer 1 "pubA" "100.64.0.1" (Some "a") (Some 51820) None "2023-01-01T00:00:00.000Z" None 1
    (Some "h") None None (Some "2023-01-01T00:00:00.000Z") None "agent" None None None None None
    false None None.
Definition sample_db : DB :=
  mkDB [sample_key] [sample_peer] [] ∅ [] ∅ ∅ [] [] [] [].

(** ** Properties of enrollment *)

(** Some host of the prefix is in no row of the column. *)
Definition has_room (net : Prefix) (column : Peer → option string) (db : DB) : Prop :=
  ∃ i, 1 ≤ i < host_span net ∧ ¬ addr_used column db (host net i).

Lemma has_room_allocates net name column db :
  net_ok net = true → column_parses column db → has_room net column db →
  ∃ s, allocateAddr net name column db = Ok s.
Proof.
  intros Hn Hp (i & Hi & Hf). destruct (allocateAddr net name column db) as [s|e] eqn:A; [by exists s|].
  destruct Hf. by eapply allocateAddr_Err.
Qed.

Lemma has_room_overlay c db :
  nets_ok c → column_parses column_ip db → column_parses column_ip6 db →
  has_room (network c) column_ip db →
  (v6Enabled c = true → has_room (Network6 c) column_ip6 db) →
  ∃ ip ip6, allocate_overlay c db = Ok (ip, ip6, db).
Proof.
  intros [N4 N6] P4 P6 R4 R6.
  destruct (has_room_allocates _ "assigned_ip" _ _ N4 P4 R4) as [ip A4].
  destruct (v6Enabled c) eqn:V.
  - destruct (has_room_allocates _ "assigned_ip6" _ _ (N6 eq_refl) P6 (R6 eq_refl)) as [ip6 A6].
    exists ip, ip6. apply allocate_overlay_Ok. by rewrite V.
  - exists ip, "". apply allocate_overlay_Ok. by rewrite V.
Qed.

Lemma backfill_Ok c db p :
  nets_ok c → column_parses column_ip6 db →
  (v6Enabled c = true → coalesce (p_assigned_ip6 p) "" = "" → has_room (Network6 c) column_ip6 db) →
  ∃ ip6, backfill c p db = Ok ip6.
Proof.
  intros [_ N6] P6 R6. unfold backfill. destruct (v6Enabled c) eqn:V; [|by eexists].
  case_bool_decide; [|by eexists]. by apply has_room_allocates; auto.
Qed.

(** An unknown agent that presents a usable setup key is enrolled whenever
    the overlay has a free host: the transaction commits, the peer is added
    with the lowest free host address and the hash of its token, exactly one
    use of that key is consumed, every other row stays, and the database
    invariant holds afterwards. *)
Theorem enroll_new_peer c now raw setupKey publicKey hostname listenPort observedIP publicEndpoint db k :
  db_ok db → nets_ok c → column_parses column_ip db → column_parses column_ip6 db →
  publicKey ∉ (p_public_key <$> peers db) → k ∈ setup_keys db →
  key_usable setupKey (fmt_time now) k = true → listenPort ≤ 65535 →
  has_room (network c) column_ip db →
  (v6Enabled c = true → has_room (Network6 c) column_ip6 db) →
  ∃ r db' p j,
    run_tx (Enroll c now raw setupKey publicKey hostname listenPort observedIP publicEndpoint) db
      = (Ok r, db')
    ∧ er_Created r = true ∧ er_AuthToken r = RawURLEncode raw
    ∧ peers db' = peers db ++ [p] ∧ p_id p = pr_ID (er_Peer r)
    ∧ p_public_key p = publicKey ∧ p_setup_key_id p = k_id k
    ∧ p_auth_token_hash p = Some (HashToken (er_AuthToken r))
    ∧ p_revoked_at p = None ∧ p_peer_type p = "agent"
    ∧ 1 ≤ j < host_span (network c) ∧ p_assigned_ip p = addr_string (host (network c) j)
    ∧ ¬ addr_used column_ip db (host (network c) j)
    ∧ (∀ i, 1 ≤ i < j → addr_used column_ip db (host (network c) i))
    ∧ setup_keys db' = update_where (λ k', k_id k' =? k_id k) consume_key (setup_keys db)
    ∧ db_ok db'.
Proof.
  intros H Hn P4 P6 Hu Hk Us Hlp R4 R6.
  destruct (has_room_overlay c db Hn P4 P6 R4 R6) as (ip & ip6 & A).
  pose proof (Enroll_new c now raw setupKey publicKey hostname listenPort observedIP publicEndpoint
    db k ip ip6 db H Hn Hu Hk Us Hlp A) as E.
  pose proof A as (A4 & _ & _)%allocate_overlay_Ok.
  destruct (allocateAddr_Ok _ _ _ _ _ (proj1 Hn) A4) as (j & Hj & Eip & Hfree & Hlow).
  eexists _, _, _, j. split; [apply run_tx_Ok, E|]. repeat (split; [done|]).
  split; [|by eapply Enroll_db_ok].
  cbn [enrolled setup_keys set_peers set_setup_keys].
  apply list_fmap_ext. intros i k' Hk'%list_elem_of_lookup_2. simpl.
  destruct (Z.eqb_spec (k_id k') (k_id k)) as [Ek|Ek].
  - assert (k' = k) as -> by (by apply (ids_ok_inj k_id (setup_keys db)); [apply H|..]). by rewrite Us.
  - destruct (key_usable setupKey (fmt_time now) k') eqn:U'; [|done]. destruct Ek. f_equal.
    apply (key_text_inj db); [done..|]. unfold key_usable in *.
    rewrite !andb_true_iff, !bool_decide_eq_true in *. naive_solver.
Qed.

(** An unknown agent without a usable setup key is refused with
    [ErrUnauthorized], the database is left exactly as it was, and the reason
    given is the one [diagnoseKey] finds. *)
Theorem enroll_unauthorized c now raw setupKey publicKey hostname listenPort observedIP publicEndpoint db :
  db_ok db → publicKey ∉ (p_public_key <$> peers db) →
  (∀ k, k ∈ setup_keys db → key_usable setupKey (fmt_time now) k = false) →
  run_tx (Enroll c now raw setupKey publicKey hostname listenPort observedIP publicEndpoint) db
  = (Err (ErrUnauthorized (diagnoseKey setupKey (fmt_time now) db)), db).
Proof. intros H Hu Hn. apply run_tx_Err. split; [by apply Enroll_refused|done]. Qed.

(** Re-enrolling is idempotent: a known public key that presents the
    unrevoked setup key it first enrolled with gets the same peer id and
    overlay address back, no key is consumed and no peer is added, whether or
    not the key has expired or is used up since. *)
Theorem re_enroll_idempotent c now raw setupKey publicKey hostname listenPort observedIP publicEndpoint db p k :
  db_ok db → nets_ok c → p ∈ peers db → p_public_key p = publicKey →
  k ∈ setup_keys db → k_key k = setupKey → k_revoked_at k = None → k_id k = p_setup_key_id p →
  listenPort ≤ 65535 → column_parses column_ip6 db →
  (v6Enabled c = true → coalesce (p_assigned_ip6 p) "" = "" → has_room (Network6 c) column_ip6 db) →
  ∃ r db',
    run_tx (Enroll c now raw setupKey publicKey hostname listenPort observedIP publicEndpoint) db
      = (Ok r, db')
    ∧ er_Created r = false ∧ pr_ID (er_Peer r) = p_id p ∧ pr_AssignedIP (er_Peer r) = p_assigned_ip p
    ∧ setup_keys db' = setup_keys db ∧ length (peers db') = length (peers db)
    ∧ (∀ q, q ∈ peers db → p_id q ≠ p_id p → q ∈ peers db')
    ∧ ∃ p', p' ∈ peers db' ∧ p_id p' = p_id p ∧ p_assigned_ip p' = p_assigned_ip p
          ∧ p_auth_token_hash p' = Some (HashToken (er_AuthToken r)).
Proof.
  intros H Hn Hp Epk Hk Ek Er Ei Hlp P6 V6.
  destruct (backfill_Ok c db p Hn P6 V6) as [ip6 Hb].
  destruct (Enroll_known c now raw setupKey publicKey hostname listenPort observedIP publicEndpoint
    db p k ip6 H Hn Hp Epk Hk Ek Er Ei Hlp Hb) as [r E].
  pose proof (Enroll_known_inv c now raw setupKey publicKey hostname listenPort observedIP
    publicEndpoint db p r _ H Hp Epk E) as (k' & ip6' & _ & _ & _ & _ & _ & _ & _ & I1 & I2 & _ & I3 & I4 & _).
  exists r, (re_enrolled now raw hostname listenPort observedIP publicEndpoint p ip6 db).
  split; [by apply run_tx_Ok|]. repeat (split; [done|]).
  split; [unfold re_enrolled, update_where; cbn [peers set_peers]; by rewrite length_fmap|]. split.
  - intros q Hq Hne. apply elem_of_update_where. exists q. split; [done|].
    destruct (Z.eqb_spec (p_id q) (p_id p)); done.
  - eexists. split; [apply elem_of_update_where; exists p; split; [done|reflexivity]|].
    rewrite Z.eqb_refl. rewrite I4. done.
Qed.

(** A known public key presenting any other setup key, or its own after
    the key was revoked, is refused with [ErrUnauthorized] and nothing
    changes. *)
Theorem re_enroll_refused c now raw setupKey publicKey hostname listenPort observedIP publicEndpoint db p :
  db_ok db → p ∈ peers db → p_public_key p = publicKey →
  (∀ k, k ∈ setup_keys db → k_key k = setupKey →
     k_revoked_at k ≠ None ∨ k_id k ≠ p_setup_key_id p) →
  ∃ why,
    run_tx (Enroll c now raw setupKey publicKey hostname listenPort observedIP publicEndpoint) db
    = (Err (ErrUnauthorized why), db).
Proof.
  intros H Hp Epk Hbad.
  destruct (Enroll_known_refused c now raw setupKey publicKey hostname listenPort observedIP
    publicEndpoint db p H Hp Epk Hbad) as [why E]. exists why. by apply run_tx_Err.
Qed.

(** [listVisible] implements the access relation: a peer's list holds
    exactly the rows of the unrevoked peers it may see, and for two peers that
    are not behind a gateway seeing is mutual. *)
Theorem list_visible_spec da db self p :
  db_ok db → self ∈ peers db → p ∈ peers db →
  (peer_row p ∈ listVisible (p_id self) da db ↔ may_see da db self p)
  ∧ (p_gateway_peer_id p = None → p_gateway_peer_id self = None →
     p_revoked_at self = None → p_revoked_at p = None →
     may_see da db self p ↔ may_see da db p self).
Proof.
  intros H Hs Hp. split.
  - rewrite <- visible_may_see by done. rewrite listVisible_elem. split; [|eauto].
    intros (q & Hq & Hv & E). assert (p_id q = p_id p) as Ei by (injection E; congruence).
    assert (q = p) as -> by (by apply (ids_ok_inj p_id (peers db)); [apply H|..]). done.
  - intros G1 G2 R1 R2. unfold may_see, gateway_of, exits_through. rewrite G1, G2, R1, R2.
    setoid_rewrite (connects_sym _ (p_id self)). naive_solver.
Qed.

(** In a default-deny mesh with no exit nodes and no gateways, a rule
    naming two different peers makes exactly these two visible to each other:
    a peer sees another exactly when some rule connects them, and such a rule
    connects no other pair. *)
Theorem default_deny_isolation db self p :
  db_ok db → self ∈ peers db → p ∈ peers db →
  (∀ q, q ∈ peers db → p_gateway_peer_id q = None ∧ p_exit_node_peer_id q = None) →
  (∀ r, r ∈ acl_rules db → ∃ a b, r_src_peer_id r = Some a ∧ r_dst_peer_id r = Some b ∧ a ≠ b) →
  peer_row p ∈ listVisible (p_id self) false db ↔
  p_revoked_at p = None ∧ p_id p ≠ p_id self ∧
  ∃ r, r ∈ acl_rules db
    ∧ ((r_src_peer_id r = Some (p_id self) ∧ r_dst_peer_id r = Some (p_id p))
       ∨ (r_src_peer_id r = Some (p_id p) ∧ r_dst_peer_id r = Some (p_id self))).
Proof.
  intros H Hs Hp Hq Hr. rewrite listVisible_elem.
  transitivity (may_see false db self p).
  - rewrite <- visible_may_see by done. split; [|eauto].
    intros (q & Hq' & Hv & E). assert (p_id q = p_id p) as Ei by (injection E; congruence).
    assert (q = p) as -> by (by apply (ids_ok_inj p_id (peers db)); [apply H|..]). done.
  - unfold may_see, gateway_of, exits_through.
    destruct (Hq p Hp) as [-> ->], (Hq self Hs) as [_ ->].
    assert (∀ r, r ∈ acl_rules db → connects r (p_id self) (p_id p) ↔
      ((r_src_peer_id r = Some (p_id self) ∧ r_dst_peer_id r = Some (p_id p))
       ∨ (r_src_peer_id r = Some (p_id p) ∧ r_dst_peer_id r = Some (p_id self)))) as Hc.
    { intros r Hin. destruct (Hr r Hin) as (a & b & Ea & Eb & Hne).
      rewrite (connects_pair r a b) by done. rewrite Ea, Eb. naive_solver. }
    split.
    + intros (? & ? & [?|[?|[?|[?|(r & Hin & Hcn)]]]]); [done..|].
      split; [done|]. split; [done|]. exists r. split; [done|]. by apply Hc.
    + intros (? & ? & r & Hin & Hcn). repeat (split; [done|]). do 4 right. exists r.
      split; [done|]. by apply Hc.
Qed.

(** ** Witnesses *)
Lemma sample_db_ok : db_ok sample_db.
Proof. apply db_okb_ok. vm_compute. reflexivity. Qed.
Lemma sample_nets_ok : nets_ok sample_cfg.
Proof. split; [vm_compute; reflexivity|intros; discriminate]. Qed.
Lemma sample_parses4 : column_parses column_ip sample_db.
Proof.
  intros p raw Hp. apply list_elem_of_singleton in Hp as ->. intros [= <-].
  eexists. vm_compute. reflexivity.
Qed.
Lemma sample_parses6 : column_parses column_ip6 sample_db.
Proof. intros p raw Hp. apply list_elem_of_singleton in Hp as ->. discriminate. Qed.
Lemma sample_room : has_room (network sample_cfg) column_ip sample_db.
Proof.
  exists 2. split; [vm_compute; split; [discriminate|reflexivity]|].
  intros (p & raw & Hp & Hc & Ha). apply list_elem_of_singleton in Hp as ->.
  injection Hc as <-. vm_compute in Ha. discriminate.
Qed.

Lemma enroll_new_peer_witness :
  ∃ r db' p j,
    run_tx (Enroll sample_cfg sample_now sample_raw "k1" "pubB" "b" 51820 "203.0.113.7" "") sample_db
      = (Ok r, db')
    ∧ er_Created r = true ∧ er_AuthToken r = RawURLEncode sample_raw
    ∧ peers db' = peers sample_db ++ [p] ∧ p_id p = pr_ID (er_Peer r)
    ∧ p_public_key p = "pubB" ∧ p_setup_key_id p = 1
    ∧ p_auth_token_hash p = Some (HashToken (er_AuthToken r))
    ∧ p_revoked_at p = None ∧ p_peer_type p = "agent"
    ∧ 1 ≤ j < host_span (network sample_cfg)
    ∧ p_assigned_ip p = addr_string (host (network sample_cfg) j)
    ∧ ¬ addr_used column_ip sample_db (host (network sample_cfg) j)
    ∧ (∀ i, 1 ≤ i < j → addr_used column_ip sample_db (host (network sample_cfg) i))
    ∧ setup_keys db' = update_where (λ k', k_id k' =? 1) consume_key (setup_keys sample_db)
    ∧ db_ok db'.
Proof.
  apply (enroll_new_peer sample_cfg sample_now sample_raw "k1" "pubB" "b" 51820 "203.0.113.7" ""
    sample_db sample_key).
  - exact sample_db_ok.
  - exact sample_nets_ok.
  - exact sample_parses4.
  - exact sample_parses6.
  - by apply (bool_decide_unpack _).
  - left.
  - vm_compute. reflexivity.
  - lia.
  - exact sample_room.
  - intros E. discriminate E.
Defined.

Lemma enroll_unauthorized_witness :
  run_tx (Enroll sample_cfg sample_now sample_raw "nope" "pubB" "b" 51820 "" "") sample_db
  = (Err (ErrUnauthorized (diagnoseKey "nope" (fmt_time sample_now) sample_db)), sample_db).
Proof.
  apply (enroll_unauthorized sample_cfg sample_now sample_raw "nope" "pubB" "b" 51820 "" "" sample_db).
  - exact sample_db_ok.
  - by apply (bool_decide_unpack _).
  - intros k Hk. apply list_elem_of_singleton in Hk as ->. vm_compute. reflexivity.
Defined.

(** The retry comes a year later, when the key has long expired. *)
Lemma re_enroll_idempotent_witness :
  ∃ r db',
    run_tx (Enroll sample_cfg (sample_now + 365 * 24 * Hour) sample_raw "k1" "pubA" "a2" 0 "" "") sample_db
      = (Ok r, db')
    ∧ er_Created r = false ∧ pr_ID (er_Peer r) = 1 ∧ pr_AssignedIP (er_Peer r) = "100.64.0.1"
    ∧ setup_keys db' = setup_keys sample_db ∧ length (peers db') = length (peers sample_db)
    ∧ (∀ q, q ∈ peers sample_db → p_id q ≠ 1 → q ∈ peers db')
    ∧ ∃ p', p' ∈ peers db' ∧ p_id p' = 1 ∧ p_assigned_ip p' = "100.64.0.1"
          ∧ p_auth_token_hash p' = Some (HashToken (er_AuthToken r)).
Proof.
  apply (re_enroll_idempotent sample_cfg (sample_now + 365 * 24 * Hour) sample_raw "k1" "pubA" "a2" 0
    "" "" sample_db sample_peer sample_key).
  - exact sample_db_ok.
  - exact sample_nets_ok.
  - left.
  - reflexivity.
  - left.
  - reflexivity.
  - reflexivity.
  - reflexivity.
  - lia.
  - exact sample_parses6.
  - intros E. discriminate E.
Defined.

Lemma re_enroll_refused_witness :
  ∃ why,
    run_tx (Enroll sample_cfg sample_now sample_raw "k2" "pubA" "a" 0 "" "") sample_db
    = (Err (ErrUnauthorized why), sample_db).
Proof.
  apply (re_enroll_refused sample_cfg sample_now sample_raw "k2" "pubA" "a" 0 "" "" sample_db sample_peer).
  - exact sample_db_ok.
  - left.
  - reflexivity.
  - intros k Hk. apply list_elem_of_singleton in Hk as ->. discriminate.
Defined.

(** Three peers, and one rule between the first two. *)
Definition sample_peer_n (i : Z) (pk ip : string) : Peer :=
  mkPeer i pk ip None None None "2023-01-01T00:00:00.000Z" None 1 (Some pk) None None
    (Some "2023-01-01T00:00:00.000Z") None "agent" None None None None None false None None.
Definition sample_b : Peer := sample_peer_n 2 "pubB" "100.64.0.2".
Definition sample_c : Peer := sample_peer_n 3 "pubC" "100.64.0.3".
Definition sample_rule : AclRow := mkAcl 1 (Some 1) (Some 2) "2023-01-01T00:00:00.000Z" (Some "ssh") "tcp" (Some 22) (Some 22).
Definition sample_acl_db : DB :=
  mkDB [sample_key] [sample_peer; sample_b; sample_c] [sample_rule] ∅ [] ∅ ∅ [] [] [] [].

Lemma list_visible_spec_witness :
  (peer_row sample_b ∈ listVisible 1 false sample_acl_db ↔ may_see false sample_acl_db sample_peer sample_b)
  ∧ (may_see false sample_acl_db sample_peer sample_b ↔ may_see false sample_acl_db sample_b sample_peer).
Proof.
  destruct (list_visible_spec false sample_acl_db sample_peer sample_b) as [H1 H2].
  - apply db_okb_ok. vm_compute. reflexivity.
  - left.
  - right. left.
  - split; [exact H1|]. apply H2; reflexivity.
Defined.

Lemma default_deny_isolation_witness :
  peer_row sample_b ∈ listVisible (p_id sample_peer) false sample_acl_db ↔
  p_revoked_at sample_b = None ∧ p_id sample_b ≠ p_id sample_peer ∧
  ∃ r, r ∈ acl_rules sample_acl_db
    ∧ ((r_src_peer_id r = Some 1 ∧ r_dst_peer_id r = Some 2)
       ∨ (r_src_peer_id r = Some 2 ∧ r_dst_peer_id r = Some 1)).
Proof.
  apply (default_deny_isolation sample_acl_db sample_peer sample_b).
  - apply db_okb_ok. vm_compute. reflexivity.
  - left.
  - right. left.
  - intros q Hq. repeat (apply elem_of_cons in Hq as [->|Hq]; [split; reflexivity|]).
    by apply elem_of_nil in Hq.
  - intros r Hr. apply list_elem_of_singleton in Hr as ->. by exists 1, 2.
Defined.
