(* ===== verification/Admin.v ===== *)
(** * Administration of peers and setup keys

    internal/store/admin.go: listings, revocation, removal of revoked peers and
    the operator's change of an overlay address. *)
From S2P Require Import Prelude GoText TimeText NetAddr NetFacts Schema SchemaFacts Alloc Enroll.

Record PeerInfo : Type := mkPeerInfo {
  pi_ID : Z; pi_PublicKey : string; pi_AssignedIP : string; pi_AssignedIP6 : string;
  pi_PeerType : string; pi_GatewayPeerID : Z; pi_GatewayEndpoint : string;
  pi_HasStoredConfig : bool; pi_AdvertiseExitNode : bool; pi_ExitNodePeerID : Z;
  pi_Hostname : string; pi_ListenPort : Z; pi_ObservedIP : string; pi_PublicEndpoint : string;
  pi_NATType : string; pi_AgentVersion : string; pi_CreatedAt : string; pi_LastSeenAt : string;
  pi_RevokedAt : string
}.
Record SetupKeyInfo : Type := mkKeyInfo {
  ki_ID : Z; ki_Key : string; ki_Name : string; ki_CreatedAt : string; ki_ExpiresAt : string;
  ki_RevokedAt : string; ki_MaxUses : Z; ki_UsesConsumed : Z
}.

(** ** Listings *)
Definition peer_info (p : Peer) : PeerInfo :=
  mkPeerInfo (p_id p) (p_public_key p) (p_assigned_ip p) (coalesce (p_assigned_ip6 p) "")
    (p_peer_type p) (default 0 (p_gateway_peer_id p)) (coalesce (p_gateway_endpoint p) "")
    (bool_decide (p_private_key_enc p ≠ None)) (p_advertise_exit_node p)
    (default 0 (p_exit_node_peer_id p)) (coalesce (p_hostname p) "") (default 0 (p_listen_port p))
    (coalesce (p_observed_ip p) "") (coalesce (p_public_endpoint p) "") (coalesce (p_nat_type p) "")
    (coalesce (p_agent_version p) "") (p_created_at p) (coalesce (p_last_seen_at p) "")
    (coalesce (p_revoked_at p) "").
Definition ListPeers (db : DB) : list PeerInfo := peer_info <$> peers db.

Definition key_info (k : SetupKey) : SetupKeyInfo :=
  mkKeyInfo (k_id k) (k_key k) (coalesce (k_name k) "") (k_created_at k)
    (coalesce (k_expires_at k) "") (coalesce (k_revoked_at k) "") (default 0 (k_max_uses k))
    (k_uses_consumed k).
Definition ListSetupKeys (db : DB) : list SetupKeyInfo := key_info <$> setup_keys db.

(** The single-peer SELECT names neither the exit-node columns nor the version. *)
Definition getPeerInfo (id : Z) (db : DB) : result PeerInfo :=
  match peer_by_id id db with
  | None => Err (ErrNotFound ("peer " +:+ Itoa id))
  | Some p =>
      Ok (mkPeerInfo (p_id p) (p_public_key p) (p_assigned_ip p) (coalesce (p_assigned_ip6 p) "")
            (p_peer_type p) (default 0 (p_gateway_peer_id p)) (coalesce (p_gateway_endpoint p) "")
            (bool_decide (p_private_key_enc p ≠ None)) false 0
            (coalesce (p_hostname p) "") (default 0 (p_listen_port p))
            (coalesce (p_observed_ip p) "") (coalesce (p_public_endpoint p) "")
            (coalesce (p_nat_type p) "") "" (p_created_at p) (coalesce (p_last_seen_at p) "")
            (coalesce (p_revoked_at p) ""))
  end.

(** ** Revocation and removal *)
Definition active_peer (id : Z) (p : Peer) : bool :=
  (p_id p =? id) && bool_decide (p_revoked_at p = None).
Definition active_key (id : Z) (k : SetupKey) : bool :=
  (k_id k =? id) && bool_decide (k_revoked_at k = None).

Definition RevokePeer (now id : Z) : tx DB unit := λ db,
  if count_where (active_peer id) (peers db) =? 0
  then Err (ErrNotFound ("revoke peers " +:+ Itoa id))
  else Ok (tt, set_peers (update_where (active_peer id) (set_p_revoked_at (Some (fmt_time now)))
                            (peers db)) db).
Definition RevokeSetupKey (now id : Z) : tx DB unit := λ db,
  if count_where (active_key id) (setup_keys db) =? 0
  then Err (ErrNotFound ("revoke setup_keys " +:+ Itoa id))
  else Ok (tt, set_setup_keys (update_where (active_key id) (set_k_revoked_at (Some (fmt_time now)))
                                 (setup_keys db)) db).

Definition removable (id : Z) (p : Peer) : bool :=
  (p_id p =? id) && bool_decide (p_revoked_at p ≠ None).
Definition RemovePeer (id : Z) : tx DB unit := λ db,
  if count_where (removable id) (peers db) =? 0
  then Err (ErrNotFound ("remove peer " +:+ Itoa id))
  else Ok (tt, delete_peers (λ i, bool_decide (i ∈ (p_id <$> filter (λ p, Is_true (removable id p))
                                                              (peers db)))) db).

(** ** Overlay addresses set by the operator *)
Definition validateOverlayAddr (field raw : string) (prefix : Prefix) (required : bool) : result Addr :=
  let raw := TrimSpace raw in
  if decide (raw = "") then
    if required then Err (ErrMsg (field +:+ " is required")) else Ok NoAddr
  else
    match ParseAddr raw with
    | None => Err (ErrMsg (field +:+ " must be an IP address"))
    | Some addr =>
        if negb (Contains prefix addr) then
          Err (ErrMsg (field +:+ " " +:+ addr_string addr +:+ " is outside overlay network "
                       +:+ prefix_string prefix))
        else if bool_decide (addr = paddr prefix) then
          Err (ErrMsg (field +:+ " cannot be the overlay network address " +:+ addr_string addr))
        else if negb (eqb (Is4 (paddr prefix)) (Is4 addr)) then
          Err (ErrMsg (field +:+ " has wrong IP family for " +:+ prefix_string prefix))
        else Ok addr
    end.

Definition ensurePeerAddressFree (column : Peer → option string) (selfID : Z) (ip : string) (db : DB)
  : result unit :=
  match select1 (λ p, bool_decide (column p = Some ip) && negb (p_id p =? selfID)) (peers db) with
  | None => Ok tt
  | Some q => Err (ErrAddressInUse (ip +:+ " belongs to peer " +:+ Itoa (p_id q)))
  end.

Definition UpdatePeerAddress (c : Config) (id : Z) (assignedIP assignedIP6 : string)
  : tx DB PeerInfo :=
  addr4 ← tx_lift (validateOverlayAddr "assigned_ip" assignedIP (network c) true);
  addr6 ← (if v6Enabled c
           then tx_lift (validateOverlayAddr "assigned_ip6" assignedIP6 (Network6 c) true)
           else if decide (TrimSpace assignedIP6 = "") then mret NoAddr
           else tx_fail (ErrMsg "assigned_ip6 cannot be set when IPv6 overlay is disabled"));
  _ ← tx_query (ensurePeerAddressFree column_ip id (addr_string addr4));
  _ ← (if addr_valid addr6
       then tx_query (ensurePeerAddressFree column_ip6 id (addr_string addr6))
       else mret tt);
  let nextIP6 := if addr_valid addr6 then Some (addr_string addr6) else None in
  ps ← tx_get peers;
  _ ← put_peers (update_where (active_peer id)
        (λ p, set_p_assigned_ip (addr_string addr4) (set_p_assigned_ip6 nextIP6 p)) ps);
  if count_where (active_peer id) ps =? 0
  then tx_fail (ErrNotFound ("update peer " +:+ Itoa id +:+ " address"))
  else tx_query (getPeerInfo id).
