(* ===== verification/Acl.v ===== *)
(** * Access rules

    internal/store/acl.go: one ALLOW rule per row; a missing peer is "any".
    [normalizeACLService] is the gate every stored service goes through. *)
From S2P Require Import Prelude GoText TimeText Schema SchemaFacts Enroll.

Record ACLRule : Type := mkACLRule {
  ar_ID : Z; ar_SrcPeerID : option Z; ar_SrcLabel : string; ar_DstPeerID : option Z;
  ar_DstLabel : string; ar_Name : string; ar_Protocol : string; ar_PortMin : option Z;
  ar_PortMax : option Z; ar_CreatedAt : string
}.

Definition protocols : list string := ["any"; "tcp"; "udp"; "icmp"; "icmpv6"].
Definition port_free (protocol : string) : bool :=
  bool_decide (protocol = "icmp") || bool_decide (protocol = "icmpv6").

Definition normalizeACLService (protocol : string) (portMin portMax : option Z)
  : result (string * option Z * option Z) :=
  let protocol := ToLower (TrimSpace protocol) in
  let protocol := if decide (protocol = "") then "any" else protocol in
  if negb (bool_decide (protocol ∈ protocols)) then
    Err (ErrMsg "protocol must be any, tcp, udp, icmp, or icmpv6")
  else if port_free protocol then
    match portMin, portMax with
    | None, None => Ok (protocol, None, None)
    | _, _ => Err (ErrMsg (protocol +:+ " rules cannot specify ports"))
    end
  else
    match portMin, portMax with
    | None, None => Ok (protocol, None, None)
    | _, _ =>
        let min := default 0 portMin in
        let max := match portMax with Some m => m | None => min end in
        let min := match portMin with Some _ => min | None => max end in
        if (min <? 1) || (65535 <? min) || (max <? 1) || (65535 <? max) || (max <? min) then
          Err (ErrMsg "port range must be 1-65535 with min <= max")
        else Ok (protocol, Some min, Some max)
    end.

(** [INSERT INTO acl_rules]: the foreign keys are checked. *)
Definition insert_rule (mk : Z → AclRow) : tx DB Z := λ db,
  let i := next_id r_id (acl_rules db) in
  let r := mk i in
  if null_or (is_peer db) (r_src_peer_id r) && null_or (is_peer db) (r_dst_peer_id r)
  then Ok (i, set_acl_rules (acl_rules db ++ [r]) db)
  else Err (ErrConstraint "acl_rules").

Definition insertACLRule (now : Z) (rule : ACLRule) : tx DB Z :=
  match ar_SrcPeerID rule, ar_DstPeerID rule with
  | Some s, Some d => if s =? d then tx_fail (ErrMsg "src and dst are the same peer") else mret tt
  | _, _ => mret tt
  end ≫= λ _,
  '(protocol, portMin, portMax) ←
    tx_lift (normalizeACLService (ar_Protocol rule) (ar_PortMin rule) (ar_PortMax rule));
  insert_rule (λ i, mkAcl i (ar_SrcPeerID rule) (ar_DstPeerID rule) (fmt_time now)
                     (nullable (ar_Name rule)) protocol portMin portMax).

Definition CreateACLRuleDetailed (now : Z) (rule : ACLRule) : tx DB Z := insertACLRule now rule.
Definition CreateACLRule (now : Z) (srcPeerID dstPeerID : option Z) : tx DB Z :=
  CreateACLRuleDetailed now (mkACLRule 0 srcPeerID "" dstPeerID "" "" "any" None None "").

Definition ImportACLRules (now : Z) (rules : list ACLRule) (replace : bool) : tx DB Z :=
  _ ← (if replace then tx_put (set_acl_rules []) else mret tt);
  _ ← tx_iter (λ rule, _ ← insertACLRule now rule; mret tt) rules;
  mret (Z.of_nat (length rules)).

Definition DeleteACLRule (id : Z) : tx DB unit := λ db,
  if count_where (λ r, r_id r =? id) (acl_rules db) =? 0
  then Err (ErrNotFound ("delete acl rule " +:+ Itoa id))
  else Ok (tt, set_acl_rules (delete_where (λ r, r_id r =? id) (acl_rules db)) db).

(** [COALESCE(hostname, assigned_ip, '')] over the LEFT JOIN. *)
Definition peer_label (o : option Z) (db : DB) : string :=
  match o with
  | None => "any"
  | Some i =>
      match peer_by_id i db with
      | Some p => coalesce (p_hostname p) (p_assigned_ip p)
      | None => ""
      end
  end.
Definition rule_info (db : DB) (r : AclRow) : ACLRule :=
  mkACLRule (r_id r) (r_src_peer_id r) (peer_label (r_src_peer_id r) db)
    (r_dst_peer_id r) (peer_label (r_dst_peer_id r) db) (coalesce (r_name r) "") (r_protocol r)
    (r_port_min r) (r_port_max r) (r_created_at r).
Definition ListACLRules (db : DB) : list ACLRule := rule_info db <$> acl_rules db.

(** ** What a stored rule looks like *)
Record rule_ok (r : AclRow) : Prop := {
  rule_protocol : r_protocol r ∈ protocols;
  rule_ports : match r_port_min r, r_port_max r with
    | None, None => True
    | Some lo, Some hi => 1 ≤ lo ≤ hi ∧ hi ≤ 65535 ∧ port_free (r_protocol r) = false
    | _, _ => False
    end;
  rule_ends : ∀ i, r_src_peer_id r = Some i → r_dst_peer_id r ≠ Some i
}.
Definition rules_ok (db : DB) : Prop := ∀ r, r ∈ acl_rules db → rule_ok r.

Lemma normalizeACLService_Ok proto lo hi proto' lo' hi' :
  normalizeACLService proto lo hi = Ok (proto', lo', hi') →
  proto' ∈ protocols ∧
  match lo', hi' with
  | None, None => lo = None ∧ hi = None
  | Some l, Some h =>
      1 ≤ l ≤ h ∧ h ≤ 65535 ∧ port_free proto' = false
      ∧ (lo = Some l ∨ (lo = None ∧ l = h)) ∧ (hi = Some h ∨ (hi = None ∧ h = l))
  | _, _ => False
  end.
Proof.
  unfold normalizeACLService. set (q := if decide _ then _ else _).
  clearbody q. case_bool_decide as Hp; [|done]. cbn [negb]. destruct (port_free q) eqn:Pf.
  - destruct lo, hi; [done..|]. intros; simplify_eq. done.
  - destruct lo as [l|], hi as [h|]; cbn [default]; try case_match eqn:E; try done;
      intros; simplify_eq; repeat split; auto; unfold id in *; lia.
Qed.

(** Normalizing is idempotent: what is stored is a fixed point. *)
Lemma normalizeACLService_stored proto lo hi :
  proto ∈ protocols →
  match lo, hi with
  | None, None => True
  | Some l, Some h => 1 ≤ l ≤ h ∧ h ≤ 65535 ∧ port_free proto = false
  | _, _ => False
  end → normalizeACLService proto lo hi = Ok (proto, lo, hi).
Proof.
  intros Hp Hr. unfold normalizeACLService.
  assert (ToLower (TrimSpace proto) = proto ∧ proto ≠ "") as [-> Hne].
  { unfold protocols in Hp. repeat (apply elem_of_cons in Hp as [->|Hp]; [split; [vm_compute; reflexivity|done]|]).
    by apply elem_of_nil in Hp. }
  rewrite decide_False, bool_decide_eq_true_2 by done. cbn [negb].
  destruct lo as [l|], hi as [h|]; try done.
  - destruct Hr as (Hlh & Hh & ->). cbn [default]. unfold id.
    assert ((l <? 1) || (65535 <? l) || (h <? 1) || (65535 <? h) || (h <? l) = false) as -> by lia.
    done.
  - by destruct (port_free proto).
Qed.

(** ** Preservation *)
Lemma insert_rule_Ok mk db i db' :
  insert_rule mk db = Ok (i, db') →
  i = next_id r_id (acl_rules db) ∧ db' = set_acl_rules (acl_rules db ++ [mk i]) db
  ∧ null_or (is_peer db) (r_src_peer_id (mk i)) = true
  ∧ null_or (is_peer db) (r_dst_peer_id (mk i)) = true.
Proof.
  unfold insert_rule. case_match eqn:E; [|done]. intros [= <- <-].
  apply andb_true_iff in E as [? ?]. done.
Qed.

Lemma db_ok_rules db l :
  db_ok db → ids_ok (r_id <$> l) →
  (∀ r, r ∈ l → null_or (is_peer db) (r_src_peer_id r) = true
              ∧ null_or (is_peer db) (r_dst_peer_id r) = true) →
  db_ok (set_acl_rules l db).
Proof. intros H Hi Hr. constructor; try (done || apply H). Qed.

Lemma insertACLRule_Ok now rule db i db' :
  insertACLRule now rule db = Ok (i, db') →
  ∃ r, i = r_id r ∧ r_id r = next_id r_id (acl_rules db)
     ∧ r_src_peer_id r = ar_SrcPeerID rule ∧ r_dst_peer_id r = ar_DstPeerID rule
     ∧ rule_ok r ∧ db' = set_acl_rules (acl_rules db ++ [r]) db
     ∧ null_or (is_peer db) (r_src_peer_id r) = true ∧ null_or (is_peer db) (r_dst_peer_id r) = true.
Proof.
  unfold insertACLRule. intros H.
  apply tx_bind_Ok in H as (u & s1 & H1 & H).
  apply tx_bind_Ok in H as ([[pr lo] hi] & s2 & H2 & H).
  unfold tx_lift in H2. destruct (normalizeACLService _ _ _) as [[[pr' lo'] hi']|] eqn:N; [|done].
  simplify_eq. apply normalizeACLService_Ok in N as [Np Nr].
  assert (s2 = db ∧ ∀ x, ar_SrcPeerID rule = Some x → ar_DstPeerID rule ≠ Some x) as [-> Hne].
  { destruct (ar_SrcPeerID rule) as [a|], (ar_DstPeerID rule) as [b|];
      try (unfold mret, tx_ret in H1; simplify_eq; split; [done|naive_solver]).
    destruct (Z.eqb_spec a b); [done|]. unfold mret, tx_ret in H1. simplify_eq. split; [done|].
    intros x [= ->] [= ->]. done. }
  apply insert_rule_Ok in H as (-> & -> & F1 & F2). 
  exists (mkAcl (next_id r_id (acl_rules db)) (ar_SrcPeerID rule) (ar_DstPeerID rule) (fmt_time now)
    (nullable (ar_Name rule)) pr lo hi).
  repeat (split; [done|]). split; [|done]. constructor; simpl; [done|..|done].
  destruct lo, hi; naive_solver.
Qed.

Lemma insertACLRule_inv now rule db i db' :
  db_ok db → rules_ok db → insertACLRule now rule db = Ok (i, db') → db_ok db' ∧ rules_ok db'.
Proof.
  intros H Hr (r & -> & Ei & _ & _ & Hok & -> & F1 & F2)%insertACLRule_Ok. split.
  - apply db_ok_rules; [done|by apply ids_ok_insert, Ei; apply H|].
    intros r' [Hr'| ->%list_elem_of_singleton]%elem_of_app; [by apply (ok_rules _ H)|done].
  - intros r' [Hr'| ->%list_elem_of_singleton]%elem_of_app; [by apply Hr|done].
Qed.

Lemma ImportACLRules_inv now rules replace db n db' :
  db_ok db → rules_ok db → ImportACLRules now rules replace db = Ok (n, db') →
  db_ok db' ∧ rules_ok db'.
Proof.
  intros H Hr. unfold ImportACLRules. intros Hi.
  apply tx_bind_Ok in Hi as (u & s1 & H1 & Hi).
  apply tx_bind_Ok in Hi as (u2 & s2 & H2 & Hi).
  unfold mret, tx_ret in Hi. simplify_eq.
  assert (db_ok s1 ∧ rules_ok s1) as Hs1.
  { destruct replace; [unfold tx_put in H1|unfold mret, tx_ret in H1]; simplify_eq; [|done].
    split; [apply db_ok_rules; [done|split; constructor|]|]; intros r Hin; by apply elem_of_nil in Hin. }
  eapply (tx_iter_invariant (λ s, db_ok s ∧ rules_ok s)); [|exact Hs1|exact H2].
  intros x s u3 s' [Ho Hro] Hx. apply tx_bind_Ok in Hx as (j & s3 & Hx & Hm).
  unfold mret, tx_ret in Hm. simplify_eq. by eapply insertACLRule_inv.
Qed.

Lemma DeleteACLRule_inv id db u db' :
  db_ok db → rules_ok db → DeleteACLRule id db = Ok (u, db') → db_ok db' ∧ rules_ok db'.
Proof.
  intros H Hr. unfold DeleteACLRule. case_match; [done|]. intros [= <- <-]. split.
  - apply db_ok_rules; [done|apply ids_ok_filter, H|].
    intros r [Hin _]%elem_of_delete_where. by apply (ok_rules _ H).
  - intros r [Hin _]%elem_of_delete_where. by apply Hr.
Qed.
