(* ===== verification/ExitNode.v ===== *)
(** * Exit nodes and static peers

    internal/store/exit.go (which agent offers to be an exit, who routes
    through whom) and internal/store/static.go (peers without an agent, routed
    through a gateway agent). *)
From S2P Require Import Prelude GoText TimeText NetAddr NetFacts Codec Schema SchemaFacts Alloc Enroll EnrollFacts Admin.

Definition SetAdvertiseExitNode (peerID : Z) (advertise : bool) : tx DB unit :=
  tx_put (λ db, set_peers (update_where (λ p, p_id p =? peerID)
                             (set_p_advertise_exit_node advertise) (peers db)) db).

Record ExitAssignment : Type := mkExit {
  ea_PeerPublicKey : string; ea_PeerHostname : string;
  ea_ExitPublicKey : string; ea_ExitHostname : string
}.

(** The clients that exit through a peer now. *)
Definition exit_client (peerID : Z) (p : Peer) : bool :=
  bool_decide (p_exit_node_peer_id p = Some peerID) && bool_decide (p_revoked_at p = None).

Definition SetExitNode (peerID exitPeerID : Z) : tx DB ExitAssignment :=
  if (peerID =? exitPeerID) && negb (exitPeerID =? 0)
  then tx_fail (ErrInvalid "a peer cannot be its own exit node") else
  peer ← tx_get (peer_by_id peerID);
  match peer with
  | None => tx_fail (ErrInvalid ("peer " +:+ Itoa peerID +:+ " not found"))
  | Some p =>
      if bool_decide (p_revoked_at p ≠ None)
      then tx_fail (ErrInvalid ("peer " +:+ Itoa peerID +:+ " is revoked"))
      else if negb (bool_decide (p_peer_type p = "agent"))
      then tx_fail (ErrInvalid "only agent peers can use an exit node")
      else
        exit ← (if exitPeerID =? 0 then mret ("", "") else
          exit ← tx_get (peer_by_id exitPeerID);
          match exit with
          | None => tx_fail (ErrInvalid ("exit node peer " +:+ Itoa exitPeerID +:+ " not found"))
          | Some e =>
              if bool_decide (p_revoked_at e ≠ None)
              then tx_fail (ErrInvalid ("exit node peer " +:+ Itoa exitPeerID +:+ " is revoked"))
              else if negb (bool_decide (p_peer_type e = "agent"))
              then tx_fail (ErrInvalid "exit node must be an agent peer")
              else if negb (p_advertise_exit_node e)
              then tx_fail (ErrInvalid ("peer " +:+ Itoa exitPeerID
                                        +:+ " does not advertise itself as an exit node"))
              else if negb (default 0 (p_exit_node_peer_id e) =? 0)
              then tx_fail (ErrInvalid ("peer " +:+ Itoa exitPeerID
                                        +:+ " routes through an exit node itself"))
              else
                clients ← tx_get (λ db, count_where (exit_client peerID) (peers db));
                if 0 <? clients
                then tx_fail (ErrInvalid ("peer " +:+ Itoa peerID +:+ " is an exit node for "
                       +:+ Itoa clients +:+ " peer(s) and cannot chain through another"))
                else mret (p_public_key e, coalesce (p_hostname e) "")
          end);
        ps ← tx_get peers;
        _ ← put_peers (update_where (λ q, p_id q =? peerID)
              (set_p_exit_node_peer_id (if exitPeerID =? 0 then None else Some exitPeerID)) ps);
        mret (mkExit (p_public_key p) (coalesce (p_hostname p) "") exit.1 exit.2)
  end.

(** ** Static peers *)
Record StaticPeer : Type := mkStatic {
  sp_PublicKey : string; sp_Hostname : string; sp_GatewayPeerID : Z;
  sp_PrivateKeyEnc : string; sp_GatewayEndpoint : string
}.

Definition randomStaticSetupKey (raw : list Z) : string := "static-" +:+ RawURLEncode raw.

Definition static_peer_row (publicKey ip ip6 : string) (gatewayPeerID : Z) (spec : StaticPeer)
    (hostname : string) (setupKeyID : Z) (tokenHash now : string) (i : Z) : Peer :=
  mkPeer i publicKey ip (nullable hostname) None None now None setupKeyID (Some tokenHash)
    None None (Some now) (nullable ip6) "static" (Some gatewayPeerID)
    (nullable (sp_PrivateKeyEnc spec)) (nullable (sp_GatewayEndpoint spec)) None None false None None.

(** [rawKey] and [rawToken] are the two reads from the random source. *)
Definition CreateStaticPeer (c : Config) (now : Z) (rawKey rawToken : list Z) (spec : StaticPeer)
  : tx DB PeerInfo :=
  let publicKey := TrimSpace (sp_PublicKey spec) in
  let hostname := TrimSpace (sp_Hostname spec) in
  let gatewayPeerID := sp_GatewayPeerID spec in
  if decide (publicKey = "") then tx_fail (ErrMsg "public_key is required")
  else if gatewayPeerID <=? 0 then tx_fail (ErrMsg "gateway_peer_id is required")
  else
    gateway ← tx_get (peer_by_id gatewayPeerID);
    match gateway with
    | None => tx_fail (ErrMsg ("gateway peer " +:+ Itoa gatewayPeerID +:+ " not found"))
    | Some g =>
        if bool_decide (p_revoked_at g ≠ None)
        then tx_fail (ErrMsg ("gateway peer " +:+ Itoa gatewayPeerID +:+ " is revoked"))
        else if negb (bool_decide (p_peer_type g = "agent"))
        then tx_fail (ErrMsg ("gateway peer " +:+ Itoa gatewayPeerID
                              +:+ " must be a wgmesh agent, not a " +:+ p_peer_type g +:+ " peer"))
        else
          existing ← tx_get (λ db, select1 (λ p, bool_decide (p_public_key p = publicKey)) (peers db));
          match existing with
          | Some q => tx_fail (ErrPeerExists ("public key belongs to peer " +:+ Itoa (p_id q)))
          | None =>
              let setupKey := randomStaticSetupKey rawKey in
              let setupName := "static peer" +:+ (if decide (hostname = "") then "" else ": " +:+ hostname) in
              setupKeyID ← insert_key (λ i, mkKey i setupKey (Some setupName) (fmt_time now) None None (Some 1) 1);
              '(ip, ip6) ← allocate_overlay c;
              let '(_, tokenHash) := newAuthToken rawToken in
              peerID ← insert_peer (static_peer_row publicKey ip ip6 gatewayPeerID spec hostname
                                      setupKeyID tokenHash (fmt_time now));
              tx_query (getPeerInfo peerID)
          end
    end.

Definition SealedPrivateKey (peerID : Z) (db : DB) : result string :=
  match select1 (λ p, (p_id p =? peerID) && bool_decide (p_peer_type p = "static")) (peers db) with
  | None => Err (ErrNoStoredConfig ("peer " +:+ Itoa peerID))
  | Some p =>
      match p_private_key_enc p with
      | Some s => if decide (s = "") then Err (ErrNoStoredConfig ("peer " +:+ Itoa peerID)) else Ok s
      | None => Err (ErrNoStoredConfig ("peer " +:+ Itoa peerID))
      end
  end.
