(* ===== verification/Invariants.v ===== *)
(** * The invariants of the mesh

    Beyond the constraints of the schema: every overlay address is a host of
    the configured network, every peer was paid for by its setup key, gateways
    and exit nodes are agents and exits do not chain.  This file has the
    predicates and their preservation by the shapes of change the operations
    make: updating rows in place, adding one, deleting some. *)
From S2P Require Import Prelude GoText TimeText NetAddr NetFacts Codec Schema SchemaFacts Alloc Enroll EnrollFacts Admin Acl ExitNode.

Definition is_host (net : Prefix) (s : string) : Prop :=
  ∃ k, 1 ≤ k < host_span net ∧ s = addr_string (host net k).

Definition row_overlay (c : Config) (p : Peer) : Prop :=
  is_host (network c) (p_assigned_ip p)
  ∧ ∀ a, p_assigned_ip6 p = Some a → v6Enabled c = true ∧ is_host (Network6 c) a.
Definition overlay_ok (c : Config) (db : DB) : Prop := ∀ p, p ∈ peers db → row_overlay c p.

Definition agent (p : Peer) : Prop := p_peer_type p = "agent".
Definition row_topology (l : list Peer) (p : Peer) : Prop :=
  (agent p ∨ p_peer_type p = "static")
  ∧ (∀ g, p_gateway_peer_id p = Some g →
       p_peer_type p = "static" ∧ ∃ q, q ∈ l ∧ p_id q = g ∧ agent q)
  ∧ (∀ e, p_exit_node_peer_id p = Some e →
       agent p ∧ e ≠ p_id p
       ∧ ∃ q, q ∈ l ∧ p_id q = e ∧ agent q
            ∧ (p_revoked_at p = None → p_exit_node_peer_id q = None)).
Definition topology_ok (l : list Peer) : Prop := ∀ p, p ∈ l → row_topology l p.

Record mesh_ok (s : Store) : Prop := {
  m_db : db_ok (sdb s);
  m_nets : nets_ok (cfg s);
  m_overlay : overlay_ok (cfg s) (sdb s);
  m_budget : key_budget (sdb s);
  m_topology : topology_ok (peers (sdb s));
  m_rules : rules_ok (sdb s)
}.

(** ** Addresses *)
Lemma is_host_parses net s : net_ok net = true → is_host net s → is_Some (ParseAddr s).
Proof.
  intros Hn (k & Hk & ->). destruct (host_wf net k Hn ltac:(lia)). eexists. by apply ParseAddr_string.
Qed.
Lemma overlay_parses c db :
  nets_ok c → overlay_ok c db → column_parses column_ip db ∧ column_parses column_ip6 db.
Proof.
  intros [N4 N6] Ho. split; intros p raw Hp Hc.
  - injection Hc as <-. eapply is_host_parses; [exact N4|]. apply (Ho p Hp).
  - destruct (proj2 (Ho p Hp) raw Hc) as [V Hh]. by eapply is_host_parses; [apply N6|].
Qed.
Lemma allocateAddr_host net n col db s :
  net_ok net = true → allocateAddr net n col db = Ok s → is_host net s.
Proof. intros Hn (k & Hk & -> & _)%allocateAddr_Ok; [|done]. by exists k. Qed.
Lemma allocate_overlay_hosts c db ip ip6 db' :
  nets_ok c → allocate_overlay c db = Ok (ip, ip6, db') →
  is_host (network c) ip ∧ (∀ a, nullable ip6 = Some a → v6Enabled c = true ∧ is_host (Network6 c) a).
Proof.
  intros [N4 N6] (A4 & _ & A6)%allocate_overlay_Ok. split; [by eapply allocateAddr_host|].
  intros a. unfold nullable. case_decide; [done|]. intros [= <-].
  destruct (v6Enabled c); [|done]. split; [done|]. eapply allocateAddr_host; [|exact A6]. auto.
Qed.

(** ** Rows updated in place *)
Record same_roles (p q : Peer) : Prop := {
  si_id : p_id q = p_id p;
  si_type : p_peer_type q = p_peer_type p;
  si_gw : p_gateway_peer_id q = p_gateway_peer_id p;
  si_exit : p_exit_node_peer_id q = p_exit_node_peer_id p;
  si_key : p_setup_key_id q = p_setup_key_id p;
  si_rev : p_revoked_at q = None → p_revoked_at p = None
}.
Record same_identity (p q : Peer) : Prop := {
  si_roles : same_roles p q;
  si_ip : p_assigned_ip q = p_assigned_ip p;
  si_ip6 : p_assigned_ip6 q = p_assigned_ip6 p
}.
Lemma identity_roles l l' : Forall2 same_identity l l' → Forall2 same_roles l l'.
Proof. intros H. eapply Forall2_impl; [exact H|]. intros p q []. done. Qed.

Lemma same_identity_refl p : same_identity p p.
Proof. by constructor. Qed.
Lemma update_where_roles (f : Peer → bool) g l :
  (∀ p, p ∈ l → f p = true → same_roles p (g p)) → Forall2 same_roles l (update_where f g l).
Proof.
  intros H. apply Forall2_fmap_r, Forall_Forall2_diag, Forall_forall.
  intros p Hp. simpl. destruct (f p) eqn:E; [by apply H|by constructor].
Qed.
Lemma update_where_identity (f : Peer → bool) g l :
  (∀ p, p ∈ l → f p = true → same_identity p (g p)) → Forall2 same_identity l (update_where f g l).
Proof.
  intros H. apply Forall2_fmap_r, Forall_Forall2_diag, Forall_forall.
  intros p Hp. simpl. destruct (f p) eqn:E; [by apply H|apply same_identity_refl].
Qed.
Lemma same_identity_list l : Forall2 same_identity l l.
Proof. apply Forall_Forall2_diag, Forall_forall. intros. apply same_identity_refl. Qed.

Lemma Forall2_elem_r {A} (R : A → A → Prop) l l' y : Forall2 R l l' → y ∈ l' → ∃ x, x ∈ l ∧ R x y.
Proof.
  intros H [i Hi]%list_elem_of_lookup. destruct (Forall2_lookup_r _ _ _ _ _ H Hi) as (x & Hx & HR).
  exists x. split; [by eapply list_elem_of_lookup_2|done].
Qed.
Lemma Forall2_elem_l {A} (R : A → A → Prop) l l' x : Forall2 R l l' → x ∈ l → ∃ y, y ∈ l' ∧ R x y.
Proof.
  intros H [i Hi]%list_elem_of_lookup. destruct (Forall2_lookup_l _ _ _ _ _ H Hi) as (y & Hy & HR).
  exists y. split; [by eapply list_elem_of_lookup_2|done].
Qed.

Lemma topology_same l l' : Forall2 same_roles l l' → topology_ok l → topology_ok l'.
Proof.
  intros HF Ht q Hq. destruct (Forall2_elem_r _ _ _ _ HF Hq) as (p & Hp & S).
  destruct (Ht p Hp) as (T1 & T2 & T3). destruct S as [S1 S4 S5 S6 S7 S8].
  unfold row_topology, agent in *. rewrite S1, S4, S5, S6. split; [done|]. split.
  - intros g Hg. destruct (T2 g Hg) as (T & x & Hx & Ex & Ax). split; [done|].
    destruct (Forall2_elem_l _ _ _ _ HF Hx) as (y & Hy & [Y1 Y4 _ _ _ _]). exists y. by rewrite Y1, Y4.
  - intros e He. destruct (T3 e He) as (T & Tne & x & Hx & Ex & Ax & Nx). split; [done|]. split; [done|].
    destruct (Forall2_elem_l _ _ _ _ HF Hx) as (y & Hy & [Y1 Y4 _ Y6 _ _]). exists y.
    rewrite Y1, Y4, Y6. repeat split; auto.
Qed.
Lemma overlay_same c db db' :
  Forall2 same_identity (peers db) (peers db') → overlay_ok c db → overlay_ok c db'.
Proof.
  intros HF Ho q Hq. destruct (Forall2_elem_r _ _ _ _ HF Hq) as (p & Hp & S).
  unfold row_overlay. rewrite (si_ip _ _ S), (si_ip6 _ _ S). by apply Ho.
Qed.
Lemma count_keys_same i l l' :
  Forall2 same_roles l l' →
  count_where (λ p, p_setup_key_id p =? i) l' = count_where (λ p, p_setup_key_id p =? i) l.
Proof.
  induction 1 as [|p q l l' S HF IH]; [done|]. unfold count_where in *. rewrite !filter_cons.
  rewrite (si_key _ _ S). case_decide; cbn [length]; lia.
Qed.

(** Keys that only lose uses, or are new. *)
Definition keys_grow (old new : list SetupKey) : Prop :=
  ∀ k', k' ∈ new → ∃ k, k ∈ old ∧ k_id k = k_id k' ∧ k_uses_consumed k ≤ k_uses_consumed k'.
Lemma keys_grow_refl l : keys_grow l l.
Proof. intros k Hk. by exists k. Qed.
Lemma keys_grow_update (f : SetupKey → bool) g l :
  (∀ k, k_id (g k) = k_id k ∧ k_uses_consumed k ≤ k_uses_consumed (g k)) →
  keys_grow l (update_where f g l).
Proof.
  intros Hg k' (k & Hk & ->)%elem_of_update_where. exists k. destruct (Hg k).
  destruct (f k); [|done]. split; [done|]. split; [congruence|lia].
Qed.
Lemma budget_same db db' :
  Forall2 same_roles (peers db) (peers db') → keys_grow (setup_keys db) (setup_keys db') →
  key_budget db → key_budget db'.
Proof.
  intros HF Hk Hb k' Hk'. destruct (Hk k' Hk') as (k & Hin & Ei & Hu).
  rewrite (count_keys_same _ _ _ HF), <- Ei. specialize (Hb k Hin). lia.
Qed.

Lemma mesh_ok_same s db' :
  mesh_ok s → db_ok db' → Forall2 same_identity (peers (sdb s)) (peers db') →
  keys_grow (setup_keys (sdb s)) (setup_keys db') → rules_ok db' →
  mesh_ok (mkStore (cfg s) db').
Proof.
  intros H Hd HF Hk Hr. pose proof (identity_roles _ _ HF) as HR.
  constructor; cbn [sdb cfg]; [done|apply H|..|done].
  - eapply overlay_same; [exact HF|apply H].
  - eapply budget_same; [exact HR|done|apply H].
  - eapply topology_same; [exact HR|apply H].
Qed.

(** The tables the invariants do not look at. *)
Lemma mesh_ok_peers_eq s db' :
  mesh_ok s → db_ok db' → peers db' = peers (sdb s) → setup_keys db' = setup_keys (sdb s) →
  acl_rules db' = acl_rules (sdb s) → mesh_ok (mkStore (cfg s) db').
Proof.
  intros H Hd Ep Ek Er. apply mesh_ok_same; [done|done|..].
  - rewrite Ep. apply same_identity_list.
  - rewrite Ek. apply keys_grow_refl.
  - intros r. rewrite Er. apply H.
Qed.

(** ** A row added *)
Lemma topology_snoc l p :
  topology_ok l → (agent p ∨ p_peer_type p = "static") → p_exit_node_peer_id p = None →
  (∀ g, p_gateway_peer_id p = Some g → p_peer_type p = "static" ∧ ∃ q, q ∈ l ∧ p_id q = g ∧ agent q) →
  topology_ok (l ++ [p]).
Proof.
  intros Ht Hty He Hg q [Hq| ->%list_elem_of_singleton]%elem_of_app.
  - destruct (Ht q Hq) as (T1 & T2 & T3). split; [done|]. split.
    + intros g Hgq. destruct (T2 g Hgq) as (? & x & ? & ? & ?). split; [done|]. exists x. set_solver.
    + intros e Heq. destruct (T3 e Heq) as (? & ? & x & ? & ? & ? & ?). split; [done|]. split; [done|].
      exists x. set_solver.
  - split; [done|]. split; [|by rewrite He].
    intros g Hgp. destruct (Hg g Hgp) as (? & x & ? & ? & ?). split; [done|]. exists x. set_solver.
Qed.

(** ** Rows deleted *)
Lemma topology_delete gone db :
  topology_ok (peers db) → topology_ok (peers (delete_peers gone db)).
Proof.
  intros Ht q (p & -> & [Hp Hg]%elem_of_delete_where)%list_elem_of_fmap.
  destruct (Ht p Hp) as (T1 & T2 & T3). unfold row_topology, agent in *. cbn. split; [done|].
  assert (∀ x, x ∈ peers db → gone (p_id x) = false →
    unlink_peer gone x ∈ peers (delete_peers gone db)) as Hin.
  { intros x Hx Hgx. apply list_elem_of_fmap. exists x. split; [done|]. by apply elem_of_delete_where. }
  split.
  - intros g [E Hgg]%forget_Some. destruct (T2 g E) as (? & x & Hx & Ex & ?). split; [done|].
    exists (unlink_peer gone x). split; [apply Hin; [done|congruence]|done].
  - intros e [E Hge]%forget_Some. destruct (T3 e E) as (? & ? & x & Hx & Ex & ? & Nx).
    split; [done|]. split; [done|]. exists (unlink_peer gone x).
    split; [apply Hin; [done|congruence]|]. split; [done|]. split; [done|]. cbn. intros Hr. by rewrite Nx.
Qed.
Lemma overlay_delete c gone db : overlay_ok c db → overlay_ok c (delete_peers gone db).
Proof.
  intros Ho q (p & -> & [Hp _]%elem_of_delete_where)%list_elem_of_fmap. apply (Ho p Hp).
Qed.
Lemma budget_delete gone db : key_budget db → key_budget (delete_peers gone db).
Proof.
  intros Hb k Hk. specialize (Hb k Hk). cbn [delete_peers peers].
  assert (count_where (λ p, p_setup_key_id p =? k_id k)
    (unlink_peer gone <$> delete_where (λ p, gone (p_id p)) (peers db))
    = count_where (λ p, p_setup_key_id p =? k_id k) (delete_where (λ p, gone (p_id p)) (peers db))) as ->.
  { unfold count_where. induction (delete_where _ _) as [|x l IH]; [done|]. cbn [fmap list_fmap].
    rewrite !filter_cons. cbn [p_setup_key_id unlink_peer set_p_gateway_peer_id set_p_exit_node_peer_id].
    case_decide; cbn [length]; lia. }
  pose proof (count_where_delete (λ p, p_setup_key_id p =? k_id k) (λ p, gone (p_id p)) (peers db)). lia.
Qed.
Lemma rules_delete gone db : rules_ok db → rules_ok (delete_peers gone db).
Proof. intros Hr r [Hin _]%elem_of_delete_where. by apply Hr. Qed.

Lemma mesh_ok_delete gone s : mesh_ok s → mesh_ok (mkStore (cfg s) (delete_peers gone (sdb s))).
Proof.
  intros H. constructor; cbn [sdb cfg].
  - apply db_ok_delete_peers, H.
  - apply H.
  - apply overlay_delete, H.
  - apply budget_delete, H.
  - apply topology_delete, H.
  - apply rules_delete, H.
Qed.
