(* ===== verification/Network.v ===== *)
(** * The overlay network and its migration

    internal/store/network.go: the overlay prefixes live in table [settings]
    and in the running store; a migration renumbers every peer, revoked ones
    included, in one transaction, staging unique placeholders first. *)
From S2P Require Import Prelude GoText TimeText NetAddr NetFacts Schema SchemaFacts Alloc Enroll.
From Stdlib Require Import Ascii.

Definition settingNetworkCIDR : string := "network_cidr".
Definition settingNetworkCIDR6 : string := "network_cidr6".

Record NetworkConfig : Type := mkNetworkConfig { nc_NetworkCIDR : string; nc_NetworkCIDR6 : string }.
Record NetworkPeerChange : Type := mkChange {
  ch_ID : Z; ch_Hostname : string; ch_RevokedAt : string;
  ch_OldIP : string; ch_NewIP : string; ch_OldIP6 : string; ch_NewIP6 : string
}.
Record NetworkMigrationPlan : Type := mkPlan {
  pl_Current : NetworkConfig; pl_Target : NetworkConfig; pl_Changes : list NetworkPeerChange;
  pl_Message : string
}.

Definition upsertSetting (key value : string) : tx DB unit :=
  tx_put (λ db, set_settings (<[key := value]> (settings db)) db).

Definition loadNetworkConfig (db : DB) : NetworkConfig :=
  mkNetworkConfig (default "" (settings db !! settingNetworkCIDR))
    (default "" (settings db !! settingNetworkCIDR6)).

Definition parseNetworkConfig (raw4 raw6 : string) : result (Prefix * Prefix) :=
  match ParsePrefix raw4 with
  | None => Err (ErrMsg "parse network_cidr")
  | Some n4 =>
      if negb (Is4 (paddr n4)) then Err (ErrMsg "network_cidr must be IPv4")
      else match ParsePrefix raw6 with
      | None => Err (ErrMsg "parse network_cidr6")
      | Some n6 =>
          if negb (Is6 (paddr n6)) then Err (ErrMsg "network_cidr6 must be IPv6")
          else Ok (Masked n4, Masked n6)
      end
  end.

(** A transaction of the store that also replaces the running configuration
    once it has committed. *)
Definition run_store {A B} (body : tx DB A) (after : A → Config → Config) (reply : A → B) (s : Store)
  : result B * Store :=
  match body (sdb s) with
  | Ok (a, db') => (Ok (reply a), mkStore (after a (cfg s)) db')
  | Err e => (Err e, s)
  end.

Definition LoadOrInitNetworkConfig (default4 default6 : Prefix) : Store → result NetworkConfig * Store :=
  run_store
    (c ← tx_get loadNetworkConfig;
     c4 ← (if decide (nc_NetworkCIDR c = "") then
             let v := prefix_string (Masked default4) in
             _ ← upsertSetting settingNetworkCIDR v; mret v
           else mret (nc_NetworkCIDR c));
     c6 ← (if decide (nc_NetworkCIDR6 c = "") then
             let v := prefix_string (Masked default6) in
             _ ← upsertSetting settingNetworkCIDR6 v; mret v
           else mret (nc_NetworkCIDR6 c));
     tx_lift (parseNetworkConfig c4 c6))
    (λ p c, setNetworks p.1 p.2 c)
    (λ p, mkNetworkConfig (prefix_string p.1) (prefix_string p.2)).

Definition CurrentNetworkConfig (c : Config) : NetworkConfig :=
  mkNetworkConfig (prefix_string (network c)) (prefix_string (Network6 c)).

(** ** The plan *)
Definition network_peer (p : Peer) : NetworkPeerChange :=
  mkChange (p_id p) (coalesce (p_hostname p) "") (coalesce (p_revoked_at p) "")
    (p_assigned_ip p) "" (coalesce (p_assigned_ip6 p) "") "".
Definition listNetworkPeers (db : DB) : list NetworkPeerChange := network_peer <$> peers db.

Definition renumber (c : NetworkPeerChange) (a : string * string) : NetworkPeerChange :=
  mkChange (ch_ID c) (ch_Hostname c) (ch_RevokedAt c) (ch_OldIP c) a.1 (ch_OldIP6 c) a.2.

Definition buildNetworkMigrationPlan (current4 current6 target4 target6 : Prefix) (db : DB)
  : result NetworkMigrationPlan :=
  let ps := listNetworkPeers db in
  v4 ← firstOverlayHosts target4 (length ps);
  v6 ← firstOverlayHosts target6 (length ps);
  Ok (mkPlan (mkNetworkConfig (prefix_string current4) (prefix_string current6))
        (mkNetworkConfig (prefix_string target4) (prefix_string target6))
        (zip_with renumber ps (zip v4 v6)) "").

Definition PreviewNetworkMigration (c : Config) (target4 target6 : Prefix) (db : DB)
  : result NetworkMigrationPlan :=
  buildNetworkMigrationPlan (network c) (Network6 c) (Masked target4) (Masked target6) db.

(** ** Applying it *)
Definition set_addrs (ip ip6 : string) (p : Peer) : Peer :=
  set_p_assigned_ip ip (set_p_assigned_ip6 (Some ip6) p).
Definition update_addrs (t : Z * string * string) : tx DB unit :=
  ps ← tx_get peers;
  put_peers (update_where (λ p, p_id p =? t.1.1) (set_addrs t.1.2 t.2) ps).

Definition placeholder (family : string) (id : Z) : string :=
  "__migrating" +:+ family +:+ "_" +:+ Itoa id.
Definition staged (c : NetworkPeerChange) : Z * string * string :=
  (ch_ID c, placeholder "4" (ch_ID c), placeholder "6" (ch_ID c)).
Definition settled (c : NetworkPeerChange) : Z * string * string :=
  (ch_ID c, ch_NewIP c, ch_NewIP6 c).

Definition ApplyNetworkMigration (target4 target6 : Prefix) (s : Store)
  : result NetworkMigrationPlan * Store :=
  let target4 := Masked target4 in
  let target6 := Masked target6 in
  run_store
    (plan ← tx_query (buildNetworkMigrationPlan (network (cfg s)) (Network6 (cfg s)) target4 target6);
     _ ← tx_iter (λ c, update_addrs (staged c)) (pl_Changes plan);
     _ ← tx_iter (λ c, update_addrs (settled c)) (pl_Changes plan);
     _ ← upsertSetting settingNetworkCIDR (prefix_string target4);
     _ ← upsertSetting settingNetworkCIDR6 (prefix_string target6);
     mret plan)
    (λ _ c, setNetworks target4 target6 c) id s.

(** ** Renumbering row by row *)
Definition renumber1 (l : list Peer) (t : Z * string * string) : list Peer :=
  update_where (λ p, p_id p =? t.1.1) (set_addrs t.1.2 t.2) l.

Lemma set_addrs_id ip ip6 p : p_id (set_addrs ip ip6 p) = p_id p.
Proof. done. Qed.

(** What a batch of renumberings needs: different rows, different new
    addresses, none of them in use. *)
Record batch_ok (ts : list (Z * string * string)) (db : DB) : Prop := {
  batch_ids : NoDup (fst ∘ fst <$> ts);
  batch_4 : NoDup (snd ∘ fst <$> ts);
  batch_6 : NoDup (snd <$> ts);
  batch_free4 : ∀ t, t ∈ ts → t.1.2 ∉ (p_assigned_ip <$> peers db);
  batch_free6 : ∀ t, t ∈ ts → t.2 ∉ omap p_assigned_ip6 (peers db)
}.

Lemma update_addrs_Ok t db :
  db_ok db → t.1.2 ∉ (p_assigned_ip <$> peers db) → t.2 ∉ omap p_assigned_ip6 (peers db) →
  update_addrs t db = Ok (tt, set_peers (renumber1 (peers db) t) db)
  ∧ db_ok (set_peers (renumber1 (peers db) t) db).
Proof.
  intros H H4 H6.
  assert (peers_ok (setup_keys db) (renumber1 (peers db) t) = true) as Hok.
  { apply peers_ok_update1; [apply H..|]. intros p Hp Ei.
    pose proof (ok_peers _ H) as (_&_&_&Hpc&Hrf)%peers_ok_spec.
    split; [done|]. split; [done|]. split; [by right|]. split; [|split; [apply (Hpc p Hp)|apply (Hrf p Hp)]].
    right. cbn. intros a [= <-]. done. }
  split; [|by apply db_ok_update1].
  unfold update_addrs, mbind, tx_bind, tx_get, put_peers. fold (renumber1 (peers db) t). by rewrite Hok.
Qed.

Lemma renumber1_ip4 l t x :
  x ∈ (p_assigned_ip <$> renumber1 l t) → x = t.1.2 ∨ x ∈ (p_assigned_ip <$> l).
Proof.
  intros (q & -> & Hq)%list_elem_of_fmap. apply elem_of_update_where in Hq as (p & Hp & ->).
  destruct (p_id p =? t.1.1); [by left|right]. by apply list_elem_of_fmap_2.
Qed.
Lemma renumber1_ip6 l t x :
  x ∈ omap p_assigned_ip6 (renumber1 l t) → x = t.2 ∨ x ∈ omap p_assigned_ip6 l.
Proof.
  intros (q & Hq & E)%list_elem_of_omap. apply elem_of_update_where in Hq as (p & Hp & ->).
  destruct (p_id p =? t.1.1); [left; cbn in E; congruence|right]. apply list_elem_of_omap. eauto.
Qed.

Lemma batch_run ts db :
  db_ok db → batch_ok ts db →
  tx_iter update_addrs ts db = Ok (tt, set_peers (foldl renumber1 (peers db) ts) db)
  ∧ db_ok (set_peers (foldl renumber1 (peers db) ts) db).
Proof.
  revert db. induction ts as [|t ts IH]; intros db H Hb.
  - cbn. by destruct db.
  - destruct Hb as [Bi B4 B6 F4 F6]. cbn [fmap list_fmap] in *.
    apply NoDup_cons in Bi as [_ Bi], B4 as [N4 B4], B6 as [N6 B6].
    destruct (update_addrs_Ok t db H (F4 t ltac:(left)) (F6 t ltac:(left))) as [E1 H1].
    destruct (IH _ H1) as [E2 H2].
    + constructor; [done..| |]; intros t' Ht' Hin; cbn [peers set_peers] in Hin.
      * destruct (renumber1_ip4 _ _ _ Hin) as [E|Hold]; [|by apply (F4 t' ltac:(by right))].
        apply N4. apply list_elem_of_fmap. exists t'. split; [cbn in *; congruence|done].
      * destruct (renumber1_ip6 _ _ _ Hin) as [E|Hold]; [|by apply (F6 t' ltac:(by right))].
        apply N6. apply list_elem_of_fmap. exists t'. split; [cbn in *; congruence|done].
    + cbn [tx_iter foldl]. cbn [peers set_peers] in E2, H2. split; [|exact H2].
      apply tx_bind_Ok. exists tt, (set_peers (renumber1 (peers db) t) db). split; [done|]. exact E2.
Qed.

(** A batch that names every row in order renumbers them pairwise. *)
Lemma renumber1_skip x l ts :
  (∀ t, t ∈ ts → t.1.1 ≠ p_id x) → foldl renumber1 (x :: l) ts = x :: foldl renumber1 l ts.
Proof.
  revert l. induction ts as [|t ts IH]; intros l Hn; [done|]. cbn [foldl].
  assert (renumber1 (x :: l) t = x :: renumber1 l t) as ->.
  { unfold renumber1.
    change (update_where ?f ?g (x :: l)) with ((if f x then g x else x) :: update_where f g l).
    cbv beta. destruct (Z.eqb_spec (p_id x) t.1.1) as [E|]; [|done]. by destruct (Hn t ltac:(left)). }
  apply IH. intros; apply Hn. by right.
Qed.

Lemma renumber_all l ts :
  NoDup (p_id <$> l) → fst ∘ fst <$> ts = p_id <$> l →
  foldl renumber1 l ts = zip_with (λ p t, set_addrs t.1.2 t.2 p) l ts.
Proof.
  revert ts. induction l as [|p l IH]; intros ts Hn E.
  - destruct ts; [done|discriminate E].
  - destruct ts as [|t ts]; [discriminate E|]. cbn [fmap list_fmap] in *.
    injection E as Et Ets. apply NoDup_cons in Hn as [Hp Hn]. cbn [foldl zip_with].
    assert (renumber1 (p :: l) t = set_addrs t.1.2 t.2 p :: l) as ->.
    { unfold renumber1.
      change (update_where ?f ?g (p :: l)) with ((if f p then g p else p) :: update_where f g l).
      cbn in Et. rewrite Et, Z.eqb_refl. f_equal. by apply (update_by_id_none p_id). }
    rewrite renumber1_skip; [by rewrite IH|]. intros t' Ht' E'. apply Hp.
    rewrite <- Ets. apply list_elem_of_fmap. exists t'. split; [cbn in *; congruence|done].
Qed.

(** ** Placeholders are no addresses *)
Lemma ParseAddr_underscore s : ParseAddr (String "_" s) = None.
Proof.
  assert (parse4 (String "_" s) = None) as P4.
  { unfold parse4. cbn [Split]. rewrite decide_False by done.
    assert (∀ h, parse_octet (String "_" h) = None) as Ho by (intros []; reflexivity).
    destruct (Split s ".") as [|h [|b [|c [|d [|]]]]]; try done. by rewrite Ho. }
  assert (∀ t, parse6 (String "_" t) = None) as P6 by done.
  unfold ParseAddr. destruct (first_mark _) as [c|]; [|done].
  case_decide; [by rewrite P4|]. case_decide; [|done].
  cbn [cut]. rewrite decide_False by done. destruct (cut "%" s) as [[x y]|].
  - rewrite bind_Some. case_decide; [done|]. by rewrite P6.
  - cbn [mbind option_bind]. by rewrite P6.
Qed.
Lemma ParseAddr_placeholder f i : ParseAddr (placeholder f i) = None.
Proof. unfold placeholder. change "__migrating" with (String "_" "_migrating"). rewrite str_app_cons. apply ParseAddr_underscore. Qed.
Lemma placeholder_inj f i j : placeholder f i = placeholder f j → i = j.
Proof.
  unfold placeholder, Itoa. intros E. do 3 apply str_app_inj_l in E. by apply (inj pretty) in E.
Qed.

(** ** The migration as a whole *)
Lemma tx_iter_fmap {S A B} (f : B → tx S unit) (g : A → B) l s :
  tx_iter (λ x, f (g x)) l s = tx_iter f (g <$> l) s.
Proof.
  revert s. induction l as [|x l IH]; intros s; [done|]. cbn [tx_iter fmap list_fmap].
  unfold mbind, tx_bind. destruct (f (g x) s) as [[u s']|]; [|done]. apply IH.
Qed.

Lemma plan_changes (l : list Peer) (v4 v6 : list string) :
  length v4 = length l → length v6 = length l →
  let cs := zip_with renumber (network_peer <$> l) (zip v4 v6) in
  ch_ID <$> cs = p_id <$> l ∧ ch_NewIP <$> cs = v4 ∧ ch_NewIP6 <$> cs = v6.
Proof.
  revert v4 v6. induction l as [|p l IH]; intros [|a v4] [|b v6] H4 H6; try discriminate; [done|].
  cbn in *. injection H4 as H4. injection H6 as H6. destruct (IH v4 v6 H4 H6) as (E1 & E2 & E3).
  by rewrite E1, E2, E3.
Qed.

Lemma settle_columns (l : list Peer) (ts : list (Z * string * string)) :
  length ts = length l →
  let l' := zip_with (λ p t, set_addrs t.1.2 t.2 p) l ts in
  p_assigned_ip <$> l' = snd ∘ fst <$> ts ∧ omap p_assigned_ip6 l' = snd <$> ts
  ∧ p_assigned_ip6 <$> l' = (λ t, Some t.2) <$> ts
  ∧ ∀ (B : Type) (h : Peer → B), (∀ a b p, h (set_addrs a b p) = h p) → h <$> l' = h <$> l.
Proof.
  revert ts. induction l as [|p l IH]; intros [|t ts] H; try discriminate; [done|].
  injection H as H. destruct (IH ts H) as (E1 & E2 & E3 & E4). cbn in *.
  rewrite E1, E2, E3. repeat (split; [done|]). intros B h Hh. by rewrite Hh, E4.
Qed.

Lemma stage_batch cs db :
  db_ok db → column_parses column_ip db → column_parses column_ip6 db →
  ch_ID <$> cs = p_id <$> peers db → batch_ok (staged <$> cs) db.
Proof.
  intros H P4 P6 E. pose proof (ids_NoDup _ (ok_peer_ids _ H)) as Hn. rewrite <- E in Hn.
  assert (∀ f, NoDup ((λ c, placeholder f (ch_ID c)) <$> cs)) as Hpl.
  { intros f. rewrite (list_fmap_compose ch_ID (placeholder f)). apply NoDup_fmap_2; [|done].
    intros i j. apply placeholder_inj. }
  constructor; rewrite <- ?list_fmap_compose.
  - exact Hn.
  - apply (Hpl "4").
  - apply (Hpl "6").
  - intros t (c & -> & Hc)%list_elem_of_fmap (p & Ep & Hp)%list_elem_of_fmap.
    destruct (P4 p (p_assigned_ip p) Hp eq_refl) as [a Ha]. cbn in Ep. rewrite <- Ep in Ha.
    by rewrite ParseAddr_placeholder in Ha.
  - intros t (c & -> & Hc)%list_elem_of_fmap (p & Hp & Ep)%list_elem_of_omap.
    destruct (P6 p _ Hp Ep) as [a Ha]. cbn in Ha. by rewrite ParseAddr_placeholder in Ha.
Qed.

Definition hosts_text (net : Prefix) (n : nat) : list string :=
  (λ i, addr_string (host net i)) <$> seqZ 1 (Z.of_nat n).

Lemma firstOverlayHosts_Ok net n :
  net_ok net = true → Z.of_nat n < host_span net → firstOverlayHosts net n = Ok (hosts_text net n).
Proof.
  intros Hn Hs. unfold firstOverlayHosts. by apply hosts_walk_Ok; [..|apply at_host_1|]; try lia.
Qed.
Lemma firstOverlayHosts_Err net n :
  net_ok net = true → host_span net ≤ Z.of_nat n → (0 < n)%nat → ∃ e, firstOverlayHosts net n = Err e.
Proof.
  intros Hn Hs H0. unfold firstOverlayHosts.
  by apply (hosts_walk_Err net Hn n 1); [..|apply at_host_1| |]; try lia.
Qed.
Lemma length_hosts_text net n : length (hosts_text net n) = n.
Proof. unfold hosts_text. rewrite length_fmap, length_seqZ. lia. Qed.
Lemma hosts_text_parse net n s :
  net_ok net = true → Z.of_nat n < host_span net → s ∈ hosts_text net n → is_Some (ParseAddr s).
Proof.
  intros Hn Hs (i & -> & Hi%elem_of_seqZ)%list_elem_of_fmap.
  destruct (host_wf net i Hn ltac:(lia)). eexists. by apply ParseAddr_string.
Qed.
Lemma hosts_text_NoDup net n :
  net_ok net = true → Z.of_nat n < host_span net → NoDup (hosts_text net n).
Proof.
  intros Hn Hs. unfold hosts_text. apply NoDup_fmap_2_strong; [|apply NoDup_seqZ].
  intros i j Hi%elem_of_seqZ Hj%elem_of_seqZ E.
  destruct (host_wf net i Hn ltac:(lia)), (host_wf net j Hn ltac:(lia)).
  apply (host_inj net); [done|]. by apply addr_string_inj.
Qed.

(** All rows hold placeholders: new addresses are free. *)
Lemma settle_batch cs db (ts := staged <$> cs) (l := zip_with (λ p t, set_addrs t.1.2 t.2 p) (peers db) ts) :
  length cs = length (peers db) → NoDup (ch_ID <$> cs) → NoDup (ch_NewIP <$> cs) → NoDup (ch_NewIP6 <$> cs) →
  (∀ c, c ∈ cs → is_Some (ParseAddr (ch_NewIP c)) ∧ is_Some (ParseAddr (ch_NewIP6 c))) →
  batch_ok (settled <$> cs) (set_peers l db).
Proof.
  intros Hlen N1 N4 N6 Hp.
  destruct (settle_columns (peers db) ts) as (E4 & E6 & _).
  { unfold ts. by rewrite length_fmap. }
  fold l in E4, E6.
  constructor; rewrite <- ?list_fmap_compose; [done|done|done|..];
    intros t (c & -> & Hc)%list_elem_of_fmap; cbn [peers set_peers].
  - rewrite E4. unfold ts. rewrite <- list_fmap_compose. intros (c' & E & _)%list_elem_of_fmap.
    destruct (Hp c Hc) as [[a Ha] _]. cbn in E. rewrite E, ParseAddr_placeholder in Ha. done.
  - rewrite E6. unfold ts. rewrite <- list_fmap_compose. intros (c' & E & _)%list_elem_of_fmap.
    destruct (Hp c Hc) as [_ [a Ha]]. cbn in E. rewrite E, ParseAddr_placeholder in Ha. done.
Qed.

Lemma migration_run_full target4 target6 s :
  let t4 := Masked target4 in let t6 := Masked target6 in
  let n := length (peers (sdb s)) in
  db_ok (sdb s) → column_parses column_ip (sdb s) → column_parses column_ip6 (sdb s) →
  net_ok t4 = true → net_ok t6 = true →
  Z.of_nat n < host_span t4 → Z.of_nat n < host_span t6 →
  ∃ plan db',
    ApplyNetworkMigration target4 target6 s = (Ok plan, mkStore (setNetworks t4 t6 (cfg s)) db')
    ∧ db_ok db'
    ∧ p_assigned_ip <$> peers db' = hosts_text t4 n
    ∧ p_assigned_ip6 <$> peers db' = Some <$> hosts_text t6 n
    ∧ (∀ (B : Type) (h : Peer → B), (∀ a b p, h (set_addrs a b p) = h p) →
         h <$> peers db' = h <$> peers (sdb s))
    ∧ setup_keys db' = setup_keys (sdb s) ∧ acl_rules db' = acl_rules (sdb s)
    ∧ settings db' = <[settingNetworkCIDR6 := prefix_string t6]>
        (<[settingNetworkCIDR := prefix_string t4]> (settings (sdb s)))
    ∧ ch_NewIP <$> pl_Changes plan = hosts_text t4 n.
Proof.
  intros t4 t6 n H P4 P6 N4 N6 S4 S6. set (db := sdb s) in *.
  set (cs := zip_with renumber (network_peer <$> peers db) (zip (hosts_text t4 n) (hosts_text t6 n))).
  destruct (plan_changes (peers db) (hosts_text t4 n) (hosts_text t6 n)) as (Ei & E4 & E6);
    [by rewrite length_hosts_text..|]. fold cs in Ei, E4, E6.
  assert (length cs = length (peers db)) as Hlen
    by (rewrite <- (length_fmap ch_ID), Ei; apply length_fmap).
  pose proof (ids_NoDup _ (ok_peer_ids _ H)) as Hnd.
  destruct (batch_run (staged <$> cs) db H (stage_batch cs db H P4 P6 Ei)) as [R1 H1].
  rewrite renumber_all in R1, H1 by (try done; rewrite <- list_fmap_compose; exact Ei).
  set (l1 := zip_with (λ p t, set_addrs t.1.2 t.2 p) (peers db) (staged <$> cs)) in *.
  assert (batch_ok (settled <$> cs) (set_peers l1 db)) as Hb2.
  { apply settle_batch; [done|by rewrite Ei|by rewrite E4; apply hosts_text_NoDup|
      by rewrite E6; apply hosts_text_NoDup|].
    intros c Hc. split.
    - apply (hosts_text_parse t4 n); [done..|]. rewrite <- E4. by apply list_elem_of_fmap_2.
    - apply (hosts_text_parse t6 n); [done..|]. rewrite <- E6. by apply list_elem_of_fmap_2. }
  destruct (settle_columns (peers db) (staged <$> cs)) as (_ & _ & _ & K1); [by rewrite length_fmap|].
  fold l1 in K1.
  destruct (batch_run (settled <$> cs) _ H1 Hb2) as [R2 H2]. cbn [peers set_peers] in R2, H2.
  assert (p_id <$> l1 = p_id <$> peers db) as El1 by (by apply K1).
  rewrite renumber_all in R2, H2
    by (rewrite El1; [done || (rewrite <- list_fmap_compose; exact Ei)]).
  set (l2 := zip_with (λ p t, set_addrs t.1.2 t.2 p) l1 (settled <$> cs)) in *.
  destruct (settle_columns l1 (settled <$> cs)) as (C4 & _ & C6 & K2).
  { rewrite length_fmap, Hlen, <- (length_fmap p_id l1), El1. by rewrite length_fmap. }
  fold l2 in C4, C6, K2. rewrite <- list_fmap_compose in C4, C6.
  eexists (mkPlan _ _ cs ""), _. split; [|split; [|split; [|split; [|split; [|split; [|split; [|split]]]]]]].
  - unfold ApplyNetworkMigration, run_store, mbind, tx_bind, tx_query, buildNetworkMigrationPlan, result_bind.
    fold db t4 t6. unfold listNetworkPeers. rewrite length_fmap. fold n.
    unfold mbind, result_bind. rewrite !firstOverlayHosts_Ok by done. fold cs. cbn [pl_Changes].
    rewrite (tx_iter_fmap update_addrs staged), R1, (tx_iter_fmap update_addrs settled), R2. reflexivity.
  - destruct H2. by constructor.
  - cbn [peers set_peers set_settings]. rewrite C4. exact E4.
  - cbn [peers set_peers set_settings]. rewrite C6. unfold compose. cbn [settled snd].
    rewrite <- E6, <- list_fmap_compose. done.
  - intros B h Hh. cbn [peers set_peers set_settings]. by rewrite K2, K1.
  - done.
  - done.
  - done.
  - exact E4.
Qed.

Lemma migration_refused target4 target6 s :
  let t4 := Masked target4 in let t6 := Masked target6 in
  let n := length (peers (sdb s)) in
  net_ok t4 = true → net_ok t6 = true → (0 < n)%nat →
  host_span t4 ≤ Z.of_nat n ∨ host_span t6 ≤ Z.of_nat n →
  ∃ e, ApplyNetworkMigration target4 target6 s = (Err e, s).
Proof.
  intros t4 t6 n N4 N6 Hn Hor. unfold ApplyNetworkMigration, run_store. fold t4 t6.
  assert (∃ e, buildNetworkMigrationPlan (network (cfg s)) (Network6 (cfg s)) t4 t6 (sdb s) = Err e) as [e E].
  { unfold buildNetworkMigrationPlan, listNetworkPeers. rewrite length_fmap. fold n.
    unfold mbind, result_bind. destruct (firstOverlayHosts t4 n) as [v4|e] eqn:F4; [|by exists e].
    destruct Hor as [Hs|Hs].
    - destruct (firstOverlayHosts_Err t4 n N4 Hs Hn) as [e Ee]. congruence.
    - destruct (firstOverlayHosts_Err t6 n N6 Hs Hn) as [e ->]. by exists e. }
  exists e. unfold mbind, tx_bind, tx_query. by rewrite E.
Qed.

(** A network migration to prefixes with room renumbers every peer: it
    commits, the peers in id order get the hosts 1, 2, 3, ... of both target
    prefixes, everything else about them stays, the settings and the running
    configuration name the masked targets, and the invariant of the database
    (unique addresses included) holds. *)
Theorem migration_renumbers target4 target6 s :
  let t4 := Masked target4 in let t6 := Masked target6 in
  let n := length (peers (sdb s)) in
  db_ok (sdb s) → column_parses column_ip (sdb s) → column_parses column_ip6 (sdb s) →
  net_ok t4 = true → net_ok t6 = true →
  Z.of_nat n < host_span t4 → Z.of_nat n < host_span t6 →
  ∃ plan db',
    ApplyNetworkMigration target4 target6 s = (Ok plan, mkStore (setNetworks t4 t6 (cfg s)) db')
    ∧ db_ok db'
    ∧ p_assigned_ip <$> peers db' = hosts_text t4 n
    ∧ p_assigned_ip6 <$> peers db' = Some <$> hosts_text t6 n
    ∧ (∀ (B : Type) (h : Peer → B), (∀ a b p, h (set_addrs a b p) = h p) →
         h <$> peers db' = h <$> peers (sdb s))
    ∧ settings db' = <[settingNetworkCIDR6 := prefix_string t6]>
        (<[settingNetworkCIDR := prefix_string t4]> (settings (sdb s)))
    ∧ ch_NewIP <$> pl_Changes plan = hosts_text t4 n.
Proof.
  intros t4 t6 n H P4 P6 N4 N6 S4 S6.
  destruct (migration_run_full target4 target6 s H P4 P6 N4 N6 S4 S6)
    as (plan & db' & R & Hd & C4 & C6 & Hh & _ & _ & Hs & Hp).
  exists plan, db'. by repeat (split; [done|]).
Qed.

(** A migration to a prefix without room for every peer fails and leaves
    the store, configuration included, untouched. *)
Theorem migration_no_room target4 target6 s :
  let t4 := Masked target4 in let t6 := Masked target6 in
  let n := length (peers (sdb s)) in
  net_ok t4 = true → net_ok t6 = true → (0 < n)%nat →
  host_span t4 ≤ Z.of_nat n ∨ host_span t6 ≤ Z.of_nat n →
  ∃ e, ApplyNetworkMigration target4 target6 s = (Err e, s).
Proof. intros t4 t6 n N4 N6 Hn Hor. by apply migration_refused. Qed.

(** ** The configured prefixes *)
Lemma parse_masked p :
  prefix_valid p = true → addr_wf (paddr p) = true →
  ParsePrefix (prefix_string (Masked p)) = Some (Masked p) ∧ Masked (Masked p) = Masked p
  ∧ net_ok (Masked p) = true.
Proof.
  intros Hv Hw. pose proof (Masked_net_ok p Hv Hw) as Hn.
  pose proof (net_ok_Masked _ Hn) as Hm. split; [|done].
  unfold net_ok in Hn. rewrite !andb_true_iff, bool_decide_eq_true in Hn.
  destruct Hn as [[[H1 H2] H3] _]. by apply ParsePrefix_string.
Qed.
Lemma Masked_family p :
  prefix_valid p = true → Is4 (paddr (Masked p)) = Is4 (paddr p) ∧ Is6 (paddr (Masked p)) = Is6 (paddr p).
Proof. intros Hv. unfold Masked. rewrite Hv. by destruct p as [[] b]. Qed.

(** A pair of default prefixes of the right families. *)
Definition defaults_ok (d4 d6 : Prefix) : Prop :=
  prefix_valid d4 = true ∧ addr_wf (paddr d4) = true ∧ Is4 (paddr d4) = true
  ∧ prefix_valid d6 = true ∧ addr_wf (paddr d6) = true ∧ Is6 (paddr d6) = true.

Lemma parseNetworkConfig_masked d4 d6 :
  defaults_ok d4 d6 →
  parseNetworkConfig (prefix_string (Masked d4)) (prefix_string (Masked d6)) = Ok (Masked d4, Masked d6).
Proof.
  intros (V4 & W4 & F4 & V6 & W6 & F6). unfold parseNetworkConfig.
  destruct (parse_masked d4 V4 W4) as (-> & M4 & _), (parse_masked d6 V6 W6) as (E6 & M6 & _).
  destruct (Masked_family d4 V4) as [-> _], (Masked_family d6 V6) as [_ G6].
  by rewrite F4, E6, G6, F6, M4, M6.
Qed.

Lemma prefix_string_nonempty p : prefix_valid p = true → addr_wf (paddr p) = true →
  prefix_string (Masked p) ≠ "".
Proof. intros Hv Hw E. destruct (parse_masked p Hv Hw) as [P _]. rewrite E in P. discriminate P. Qed.

(** The overlay prefixes are fixed by the first start: with nothing stored,
    the masked defaults are stored and used, and every later start returns and
    uses the same prefixes whatever its own defaults are. *)
Theorem network_config_sticks d4 d6 s :
  defaults_ok d4 d6 →
  settings (sdb s) !! settingNetworkCIDR = None → settings (sdb s) !! settingNetworkCIDR6 = None →
  ∃ s1, LoadOrInitNetworkConfig d4 d6 s
        = (Ok (mkNetworkConfig (prefix_string (Masked d4)) (prefix_string (Masked d6))), s1)
    ∧ network (cfg s1) = Masked d4 ∧ Network6 (cfg s1) = Masked d6
    ∧ peers (sdb s1) = peers (sdb s)
    ∧ ∀ d4' d6' s2, sdb s2 = sdb s1 →
        LoadOrInitNetworkConfig d4' d6' s2
        = (Ok (mkNetworkConfig (prefix_string (Masked d4)) (prefix_string (Masked d6))),
           mkStore (setNetworks (Masked d4) (Masked d6) (cfg s2)) (sdb s1)).
Proof.
  intros Hd E4 E6. pose proof (parseNetworkConfig_masked d4 d6 Hd) as Hp.
  destruct Hd as (V4 & W4 & _ & V6 & W6 & _).
  destruct (parse_masked d4 V4 W4) as (_ & M4 & _), (parse_masked d6 V6 W6) as (_ & M6 & _).
  set (db1 := set_settings (<[settingNetworkCIDR6 := prefix_string (Masked d6)]>
    (<[settingNetworkCIDR := prefix_string (Masked d4)]> (settings (sdb s)))) (sdb s)).
  exists (mkStore (setNetworks (Masked d4) (Masked d6) (cfg s)) db1).
  split; [|split; [done|split; [done|split; [done|]]]].
  - unfold LoadOrInitNetworkConfig, run_store, mbind, tx_bind, tx_get, loadNetworkConfig.
    cbn [nc_NetworkCIDR nc_NetworkCIDR6]. rewrite E4, E6. cbn [default].
    rewrite !decide_True by done. unfold upsertSetting, tx_put, tx_lift, mret, tx_ret. by rewrite Hp.
  - intros d4' d6' s2 Es. 
    assert (settings db1 !! settingNetworkCIDR = Some (prefix_string (Masked d4))) as L4.
    { cbn [settings set_settings db1]. rewrite lookup_insert_ne by done. by rewrite lookup_insert_eq. }
    assert (settings db1 !! settingNetworkCIDR6 = Some (prefix_string (Masked d6))) as L6.
    { cbn [settings set_settings db1]. by rewrite lookup_insert_eq. }
    unfold LoadOrInitNetworkConfig, run_store, mbind, tx_bind, tx_get, loadNetworkConfig.
    rewrite Es. cbn [sdb nc_NetworkCIDR nc_NetworkCIDR6]. rewrite L4, L6. cbn [default].
    pose proof (prefix_string_nonempty d4 V4 W4). pose proof (prefix_string_nonempty d6 V6 W6).
    rewrite !decide_False by done. unfold tx_lift, mret, tx_ret. cbn [id]. by rewrite Hp.
Qed.

(** ** Witnesses *)
Definition ex_peer (i : Z) (pk ip : string) : Peer :=
  mkPeer i pk ip None None None "2023-01-01T00:00:00.000Z" None 1 (Some pk) None None None None
    "agent" None None None None None false None None.
Definition ex_store : Store :=
  mkStore (mkConfig (mkPrefix (V4 1681915904) 24) no_prefix true 0)
    (mkDB [mkKey 1 "k" None "2023-01-01T00:00:00.000Z" None None None 2]
       [ex_peer 1 "a" "100.64.0.7"; ex_peer 4 "b" "100.64.0.1"] [] ∅ [] ∅ ∅ [] [] [] []).
Definition ex_v4 : Prefix := mkPrefix (V4 (10 * 2 ^ 24 + 5)) 30.
Definition ex_v6 : Prefix := mkPrefix (V6 (0xfd00 * 2 ^ 112) "") 64.

Lemma migration_renumbers_witness :
  ∃ plan db',
    ApplyNetworkMigration ex_v4 ex_v6 ex_store
      = (Ok plan, mkStore (setNetworks (Masked ex_v4) (Masked ex_v6) (cfg ex_store)) db')
    ∧ p_assigned_ip <$> peers db' = ["10.0.0.5"; "10.0.0.6"]
    ∧ p_assigned_ip6 <$> peers db' = [Some "fd00::1"; Some "fd00::2"].
Proof.
  destruct (migration_renumbers ex_v4 ex_v6 ex_store) as (plan & db' & H1 & _ & H2 & H3 & _).
  - apply db_okb_ok. vm_compute. reflexivity.
  - intros p raw Hp. repeat (apply elem_of_cons in Hp as [->|Hp]; [intros [= <-]; eexists; vm_compute; reflexivity|]).
    by apply elem_of_nil in Hp.
  - intros p raw Hp. repeat (apply elem_of_cons in Hp as [->|Hp]; [discriminate|]). by apply elem_of_nil in Hp.
  - vm_compute. reflexivity.
  - vm_compute. reflexivity.
  - vm_compute. reflexivity.
  - vm_compute. reflexivity.
  - exists plan, db'. split; [exact H1|].
    split; [rewrite H2; vm_compute; reflexivity|rewrite H3; vm_compute; reflexivity].
Defined.

Lemma migration_no_room_witness :
  ∃ e, ApplyNetworkMigration (mkPrefix (V4 (10 * 2 ^ 24)) 31) ex_v6 ex_store = (Err e, ex_store).
Proof.
  apply (migration_no_room (mkPrefix (V4 (10 * 2 ^ 24)) 31) ex_v6 ex_store).
  - vm_compute. reflexivity.
  - vm_compute. reflexivity.
  - vm_compute. lia.
  - left. vm_compute. discriminate.
Defined.

Lemma network_config_sticks_witness :
  ∃ s1, LoadOrInitNetworkConfig ex_v4 ex_v6 ex_store
        = (Ok (mkNetworkConfig "10.0.0.4/30" "fd00::/64"), s1)
    ∧ network (cfg s1) = Masked ex_v4.
Proof.
  destruct (network_config_sticks ex_v4 ex_v6 ex_store) as (s1 & H1 & H2 & _).
  - repeat split; vm_compute; reflexivity.
  - reflexivity.
  - reflexivity.
  - exists s1. split; [rewrite H1; vm_compute; reflexivity|exact H2].
Defined.
