(* ===== verification/Dns.v ===== *)
(** * The pushed DNS configuration

    internal/store/dns.go: normalization, and the five keys of table [settings]
    it is stored under.  A nil and an empty slice are not distinguished. *)
From S2P Require Import Prelude GoText TimeText NetAddr NetFacts Codec Json Schema SchemaFacts Enroll Network.
From Stdlib Require Import Ascii.

Definition settingDNSEnabled : string := "dns_enabled".
Definition settingDNSMagic : string := "dns_magic".
Definition settingDNSDomain : string := "dns_domain".
Definition settingDNSNameservers : string := "dns_nameservers".
Definition settingDNSSearchDomains : string := "dns_search_domains".

Record DNSConfig : Type := mkDNS {
  dc_Enabled : bool; dc_MagicDNS : bool; dc_Domain : string;
  dc_Nameservers : list string; dc_SearchDomains : list string
}.

Definition normalizeDomain (s : string) : string := TrimSuffixChar (TrimSpace (ToLower s)) ".".

Definition label_char (c : ascii) : bool :=
  let b := byte_of c in
  ((97 <=? b) && (b <=? 122)) || ((48 <=? b) && (b <=? 57)) || (b =? 45).
Definition first_char (s : string) : option ascii := head (chars s).
Definition last_char (s : string) : option ascii := last (chars s).
Definition validLabel (label : string) : option string :=
  if bool_decide (label = "") || (63 <? str_len label) then Some "is not a valid DNS name"
  else if bool_decide (first_char label = Some "-"%char) || bool_decide (last_char label = Some "-"%char)
  then Some "labels cannot start or end with '-'"
  else if str_forall label_char label then None else Some "contains invalid character".
Fixpoint first_error (labels : list string) : option string :=
  match labels with
  | [] => None
  | l :: labels => match validLabel l with Some e => Some e | None => first_error labels end
  end.
Definition validateDomain (field domain : string) : result unit :=
  if 253 <? str_len domain then Err (ErrMsg (field +:+ " " +:+ domain +:+ " is too long"))
  else match first_error (Split domain ".") with
       | Some e => Err (ErrMsg (field +:+ " " +:+ domain +:+ " " +:+ e))
       | None => Ok tt
       end.

(** The two loops: what [f] makes of each entry, first occurrences only. *)
Fixpoint collect_unique (f : string → result (option string)) (raws seen : list string)
  : result (list string) :=
  match raws with
  | [] => Ok []
  | raw :: raws =>
      o ← f raw;
      match o with
      | None => collect_unique f raws seen
      | Some x =>
          if decide (x ∈ seen) then collect_unique f raws seen
          else rest ← collect_unique f raws (x :: seen); Ok (x :: rest)
      end
  end.
Definition nameserver (raw : string) : result (option string) :=
  let ns := TrimSpace raw in
  if decide (ns = "") then Ok None
  else match ParseAddr ns with
       | None => Err (ErrMsg ("nameserver " +:+ ns +:+ " must be an IP address"))
       | Some addr => Ok (Some (addr_string addr))
       end.
Definition search_domain (raw : string) : result (option string) :=
  let domain := normalizeDomain raw in
  if decide (domain = "") then Ok None
  else _ ← validateDomain "search domain" domain; Ok (Some domain).

Definition NormalizeDNSConfig (c : DNSConfig) : result DNSConfig :=
  let domain := normalizeDomain (dc_Domain c) in
  let domain := if decide (domain = "") then "vpn" else domain in
  _ ← validateDomain "domain" domain;
  nameservers ← collect_unique nameserver (dc_Nameservers c) [];
  search ← collect_unique search_domain (dc_SearchDomains c) [];
  let search := if dc_Enabled c && dc_MagicDNS c && negb (bool_decide (domain = ""))
                   && negb (bool_decide (domain ∈ search))
                then domain :: search else search in
  if dc_Enabled c && bool_decide (nameservers = [])
  then Err (ErrMsg "at least one nameserver is required when DNS is enabled")
  else Ok (mkDNS (dc_Enabled c) (dc_MagicDNS c) domain nameservers search).

Definition fmt_bool (b : bool) : string := if b then "true" else "false".
Definition stored_list (what : string) (o : option string) : result (list string) :=
  match o with
  | None => Ok []
  | Some v => match unmarshal_strings v with
              | Some l => Ok l
              | None => Err (ErrMsg ("parse dns " +:+ what))
              end
  end.
Definition loadDNSConfig (db : DB) : result DNSConfig :=
  let get k := settings db !! k in
  nameservers ← stored_list "nameservers" (get settingDNSNameservers);
  search ← stored_list "search domains" (get settingDNSSearchDomains);
  NormalizeDNSConfig (mkDNS
    (match get settingDNSEnabled with Some v => bool_decide (v = "true") | None => false end)
    (match get settingDNSMagic with Some v => negb (bool_decide (v = "false")) | None => true end)
    (default "vpn" (get settingDNSDomain)) nameservers search).

Definition saveDNSConfig (c : DNSConfig) : tx DB unit :=
  _ ← upsertSetting settingDNSEnabled (fmt_bool (dc_Enabled c));
  _ ← upsertSetting settingDNSMagic (fmt_bool (dc_MagicDNS c));
  _ ← upsertSetting settingDNSDomain (dc_Domain c);
  _ ← upsertSetting settingDNSNameservers (marshal_strings (dc_Nameservers c));
  upsertSetting settingDNSSearchDomains (marshal_strings (dc_SearchDomains c)).

Definition settingExists (key : string) (db : DB) : bool := bool_decide (is_Some (settings db !! key)).
Definition CurrentDNSConfig (db : DB) : result DNSConfig := loadDNSConfig db.
Definition UpdateDNSConfig (c : DNSConfig) : tx DB DNSConfig :=
  c ← tx_lift (NormalizeDNSConfig c); _ ← saveDNSConfig c; mret c.
Definition LoadOrInitDNSConfig (d : DNSConfig) : tx DB DNSConfig :=
  c ← tx_query loadDNSConfig;
  enabled ← tx_get (settingExists settingDNSEnabled);
  magic ← tx_get (settingExists settingDNSMagic);
  c ← tx_lift (NormalizeDNSConfig (mkDNS
        (if (enabled : bool) then dc_Enabled c else dc_Enabled d)
        (if (magic : bool) then dc_MagicDNS c else dc_MagicDNS d)
        (if decide (dc_Domain c = "") then dc_Domain d else dc_Domain c)
        (if decide (dc_Nameservers c = []) then dc_Nameservers d else dc_Nameservers c)
        (if decide (dc_SearchDomains c = []) then dc_SearchDomains d else dc_SearchDomains c)));
  _ ← saveDNSConfig c; mret c.

(** ** Normal forms *)
Section unique.
Context (f : string → result (option string)).
Definition fixed (x : string) : Prop := f x = Ok (Some x).

Lemma collect_unique_fixed l seen :
  Forall fixed l → NoDup l → (∀ x, x ∈ l → x ∉ seen) → collect_unique f l seen = Ok l.
Proof.
  revert seen. induction l as [|x l IH]; intros seen Hf Hn Hs; [done|].
  apply Forall_cons in Hf as [Hx Hf]. apply NoDup_cons in Hn as [Hxl Hn].
  cbn [collect_unique]. rewrite Hx. cbn [mbind result_bind].
  rewrite decide_False by (apply Hs; left). rewrite IH; [done|done|done|].
  intros y Hy. rewrite elem_of_cons. intros [->|Hin]; [done|]. by apply (Hs y ltac:(by right)).
Qed.

Lemma collect_unique_Ok (P : string → Prop) raws seen l :
  (∀ raw x, raw ∈ raws → f raw = Ok (Some x) → P x) → collect_unique f raws seen = Ok l →
  NoDup l ∧ Forall P l ∧ (∀ x, x ∈ l → x ∉ seen).
Proof.
  revert seen l. induction raws as [|raw raws IH]; intros seen l HP; cbn [collect_unique].
  - intros [= <-]. split; [constructor|]. split; [constructor|]. intros x Hx. by apply elem_of_nil in Hx.
  - assert (∀ r x, r ∈ raws → f r = Ok (Some x) → P x) as HP' by (intros r x Hr; apply HP; by right).
    destruct (f raw) as [[x|]|e] eqn:E; cbn [mbind result_bind]; [|by apply IH|done].
    case_decide as Hin; [by apply IH|].
    destruct (collect_unique f raws (x :: seen)) as [l'|] eqn:E'; [|done]. intros [= <-].
    destruct (IH _ _ HP' E') as (H1 & H2 & H3). split; [|split].
    + apply NoDup_cons. split; [|done]. intros Hx. apply (H3 x Hx). left.
    + constructor; [|done]. by apply (HP raw x ltac:(left)).
    + intros y [->|Hy]%elem_of_cons; [done|]. intros Hys. apply (H3 y Hy). by right.
Qed.
End unique.

(** A valid domain: labels of lower-case letters, digits and hyphens. *)
Definition domain_ok (s : string) : Prop := ∀ field, validateDomain field s = Ok tt.

Lemma validateDomain_any f g s : validateDomain f s = Ok tt → validateDomain g s = Ok tt.
Proof. unfold validateDomain. by repeat case_match. Qed.

Lemma first_error_None ls : first_error ls = None ↔ Forall (λ l, validLabel l = None) ls.
Proof.
  induction ls as [|l ls IH]; cbn; [by split|]. rewrite Forall_cons, <- IH.
  destruct (validLabel l); naive_solver.
Qed.
Lemma validLabel_None l : validLabel l = None → l ≠ "" ∧ str_forall label_char l = true.
Proof.
  unfold validLabel. case_match eqn:E; [done|]. case_match; [done|]. case_match eqn:F; [|done].
  intros _. split; [|done]. intros ->. discriminate E.
Qed.

(** The characters of a text are those of its parts and the separator. *)
Lemma str_forall_Split (P : ascii → bool) s c :
  P c = true → Forall (λ l, str_forall P l = true) (Split s c) → str_forall P s = true.
Proof.
  intros Hc. induction s as [|a s IH]; [done|]. cbn [Split]. case_decide as E.
  - intros [_ Hl]%Forall_cons. subst a. by rewrite str_forall_cons, Hc, IH.
  - destruct (Split s c) as [|h t] eqn:Sp; [by destruct (Split_ne_nil s c)|].
    intros [Hh Ht]%Forall_cons. rewrite str_forall_cons in Hh |- *. apply andb_true_iff in Hh as [-> Hh].
    rewrite IH; [done|]. by constructor.
Qed.
Lemma Split_empty s c : Split s c = [""] → s = "".
Proof.
  destruct s as [|x s]; [done|]. cbn [Split]. case_decide.
  - intros [= E]. by destruct (Split_ne_nil s c).
  - destruct (Split s c); discriminate.
Qed.
(** A text that ends with the separator has an empty last part. *)
Lemma Split_last s c : last (chars s) = Some c → last (Split s c) = Some "".
Proof.
  induction s as [|a s IH]; [done|]. unfold chars in *. cbn [String.list_ascii_of_string Split].
  rewrite last_cons. destruct (last (String.list_ascii_of_string s)) as [b|] eqn:E.
  - intros [= ->]. specialize (IH eq_refl). case_decide.
    + rewrite last_cons, IH. done.
    + destruct (Split s c) as [|h t] eqn:Sp; [done|]. rewrite last_cons in IH |- *.
      destruct (last t) eqn:Lt; [done|]. injection IH as ->. apply last_None in Lt as ->.
      apply Split_empty in Sp as ->. discriminate E.
  - intros [= ->]. rewrite decide_True by done. apply last_None in E.
    destruct s; [done|discriminate E].
Qed.

Lemma label_char_bounds c :
  label_char c = true → plain c = true ∧ lowered c = true ∧ c ≠ "."%char.
Proof.
  unfold label_char, plain, lowered. intros H. split; [lia|]. split; [lia|].
  intros ->. discriminate H.
Qed.

Lemma domain_normal s :
  (∃ f, validateDomain f s = Ok tt) →
  s ≠ "" ∧ normalizeDomain s = s ∧ str_forall plain s = true.
Proof.
  intros [f Hv]. unfold validateDomain in Hv. case_match; [done|].
  destruct (first_error _) eqn:Fe; [done|]. apply first_error_None in Fe.
  assert (s ≠ "") as Hne.
  { intros ->. cbn in Fe. apply Forall_cons in Fe as [[? _]%validLabel_None _]. done. }
  set (dom := λ c, label_char c || bool_decide (c = "."%char)).
  assert (str_forall dom s = true) as Hd.
  { apply (str_forall_Split dom s "."); [done|]. eapply Forall_impl; [exact Fe|].
    intros l [_ Hl]%validLabel_None. cbn. eapply str_forall_impl; [|exact Hl].
    intros c Hc. unfold dom. by rewrite Hc. }
  assert (∀ c, dom c = true → plain c = true ∧ lowered c = true) as Hdc.
  { intros c [Hc|Hc]%orb_true_iff; [by apply label_char_bounds in Hc as (?&?&?)|].
    apply bool_decide_eq_true in Hc as ->. done. }
  assert (str_forall plain s = true) as Hpl by (eapply str_forall_impl; [|exact Hd]; intros c Hc; by apply Hdc).
  assert (str_forall lowered s = true) as Hlo by (eapply str_forall_impl; [|exact Hd]; intros c Hc; by apply Hdc).
  split; [done|]. split; [|done]. unfold normalizeDomain.
  rewrite ToLower_lowered, TrimSpace_plain by done. unfold TrimSuffixChar.
  destruct (rev (chars s)) as [|a l] eqn:R; [done|]. case_decide as E; [|done]. subst a. exfalso.
  assert (last (chars s) = Some "."%char) as Hl.
  { rewrite <- (rev_involutive (chars s)), R. cbn. by rewrite last_snoc. }
  apply Split_last in Hl. apply last_Some in Hl as [l' E]. rewrite E in Fe.
  apply Forall_app in Fe as [_ Fe]. apply Forall_cons in Fe as [[? _]%validLabel_None _]. done.
Qed.

(** What [NormalizeDNSConfig] returns. *)
Record dns_normal (c : DNSConfig) : Prop := {
  dn_domain : ∃ f, validateDomain f (dc_Domain c) = Ok tt;
  dn_nameservers : NoDup (dc_Nameservers c);
  dn_addrs : ∀ s, s ∈ dc_Nameservers c → ∃ a, ParseAddr s = Some a ∧ addr_string a = s;
  dn_search : NoDup (dc_SearchDomains c);
  dn_domains : ∀ s, s ∈ dc_SearchDomains c → ∃ f, validateDomain f s = Ok tt;
  dn_magic : dc_Enabled c = true → dc_MagicDNS c = true → dc_Domain c ∈ dc_SearchDomains c;
  dn_enabled : dc_Enabled c = true → dc_Nameservers c ≠ []
}.

Lemma search_domain_Some raw x :
  search_domain raw = Ok (Some x) → ∃ f, validateDomain f x = Ok tt.
Proof.
  unfold search_domain. case_decide; [done|]. destruct (validateDomain _ _) as [[]|] eqn:V; [|done].
  intros [= <-]. eauto.
Qed.
Lemma nameserver_Some raw x :
  nameserver raw = Ok (Some x) → ∃ a, ParseAddr x = Some a ∧ addr_string a = x.
Proof.
  unfold nameserver. case_decide; [done|]. destruct (ParseAddr _) as [a|] eqn:P; [|done].
  intros [= <-]. exists a. split; [by eapply ParseAddr_print|done].
Qed.

Lemma NormalizeDNSConfig_normal c c' : NormalizeDNSConfig c = Ok c' → dns_normal c'.
Proof.
  unfold NormalizeDNSConfig. set (d := if decide _ then _ else _).
  destruct (validateDomain "domain" d) as [[]|] eqn:V; [|done]. unfold mbind, result_bind.
  destruct (collect_unique nameserver _ _) as [ns|] eqn:Ns; [|done].
  destruct (collect_unique search_domain _ _) as [sd|] eqn:Sd; [|done].
  case_match eqn:En; [done|]. intros [= <-].
  destruct (collect_unique_Ok nameserver (λ x, ∃ a, ParseAddr x = Some a ∧ addr_string a = x) _ _ _
    (λ raw x _, nameserver_Some raw x) Ns) as (N1 & N2 & _).
  destruct (collect_unique_Ok search_domain (λ x, ∃ f, validateDomain f x = Ok tt) _ _ _
    (λ raw x _, search_domain_Some raw x) Sd) as (S1 & S2 & _).
  rewrite Forall_forall in N2, S2.
  constructor; cbn [dc_Domain dc_Nameservers dc_SearchDomains dc_Enabled dc_MagicDNS]; [eauto|done|done|..].
  - case_match eqn:M; [|done]. rewrite !andb_true_iff, !negb_true_iff, !bool_decide_eq_false in M.
    apply NoDup_cons. split; [naive_solver|done].
  - case_match eqn:M; [|done]. intros s [->|Hs]%elem_of_cons; [eauto|by apply S2].
  - intros -> ->. cbn [andb].
    destruct (domain_normal d (ex_intro _ _ V)) as (Hd & _). rewrite (bool_decide_eq_false_2 (d = "")) by done.
    destruct (bool_decide (d ∈ sd)) eqn:Hin; cbn [negb andb]; [by apply bool_decide_eq_true in Hin|left].
  - intros E Hn. rewrite E, Hn in En. done.
Qed.

(** Nameservers without blanks: all but zoned addresses with odd zones. *)
Definition plain_servers (c : DNSConfig) : Prop :=
  ∀ s, s ∈ dc_Nameservers c → str_forall plain s = true.

Lemma NormalizeDNSConfig_fixed c :
  dns_normal c → plain_servers c → NormalizeDNSConfig c = Ok c.
Proof.
  intros [Hd Hn Ha Hs Hds Hm He] Hpl. destruct (domain_normal _ Hd) as (Hne & Hnd & _).
  destruct Hd as [f Hd]. unfold NormalizeDNSConfig. rewrite Hnd, decide_False by done.
  rewrite (validateDomain_any f) by done.
  unfold mbind, result_bind.
  rewrite (collect_unique_fixed nameserver), (collect_unique_fixed search_domain); [|try done..].
  - rewrite (bool_decide_eq_false_2 (dc_Domain c = "")) by done.
    assert (dc_Enabled c && dc_MagicDNS c && negb false && negb (bool_decide (dc_Domain c ∈ dc_SearchDomains c)) = false) as ->.
    { destruct (dc_Enabled c), (dc_MagicDNS c); cbn; try done. by rewrite bool_decide_eq_true_2 by (by apply Hm). }
    assert (dc_Enabled c && bool_decide (dc_Nameservers c = []) = false) as ->.
    { destruct (dc_Enabled c); cbn; [|done]. apply bool_decide_eq_false_2. by apply He. }
    by destruct c.
  - apply Forall_forall. intros s Hin. destruct (Hds s Hin) as [g Hg].
    destruct (domain_normal s ltac:(eauto)) as (Hn' & Hnd' & _).
    unfold fixed, search_domain. rewrite Hnd', decide_False by done.
    by rewrite (validateDomain_any g).
  - intros x _ Hx. by apply elem_of_nil in Hx.
  - apply Forall_forall. intros s Hin. destruct (Ha s Hin) as (a & Hp & E).
    unfold fixed, nameserver. rewrite TrimSpace_plain by (by apply Hpl).
    rewrite decide_False by (intros ->; discriminate Hp). by rewrite Hp, E.
  - intros x _ Hx. by apply elem_of_nil in Hx.
Qed.

Lemma plain_printable s : str_forall plain s = true → printable_text s.
Proof.
  rewrite str_forall_chars, forallb_forall. intros H. apply Forall_forall.
  intros b Hb. unfold str_bytes, bytes_of in Hb. apply list_elem_of_fmap in Hb as (c & -> & Hc).
  specialize (H c ltac:(by apply list_elem_of_In)). unfold plain, printable in *. lia.
Qed.

(** Loading what was saved. *)
Lemma load_saved c db u db' :
  dns_normal c → plain_servers c → saveDNSConfig c db = Ok (u, db') → loadDNSConfig db' = Ok c.
Proof.
  intros Hc Hpl. unfold saveDNSConfig, upsertSetting, mbind, tx_bind, tx_put. intros [= <- <-].
  unfold loadDNSConfig. cbn [settings set_settings].
  repeat (rewrite lookup_insert_eq || rewrite lookup_insert_ne by done).
  unfold stored_list. rewrite !unmarshal_marshal_strings.
  - unfold mbind, result_bind. cbn [default]. unfold id.
    transitivity (NormalizeDNSConfig c); [|by apply NormalizeDNSConfig_fixed]. f_equal.
    destruct c as [[] [] dom ns sd]; done.
  - apply Forall_forall. intros s Hs. by apply plain_printable, Hpl.
  - apply Forall_forall. intros s Hs. apply plain_printable.
    by destruct (domain_normal s (dn_domains _ Hc s Hs)) as (_ & _ & ?).
Qed.

(** The stored DNS configuration round-trips: an accepted update returns a
    normal form (unique valid nameservers and domains, the magic domain among
    the search domains, at least one nameserver when enabled), and reading the
    configuration afterwards gives exactly what the update returned. *)
Theorem dns_update_round_trip c db c' db' :
  UpdateDNSConfig c db = Ok (c', db') → plain_servers c' →
  dns_normal c' ∧ NormalizeDNSConfig c' = Ok c' ∧ CurrentDNSConfig db' = Ok c'
  ∧ peers db' = peers db ∧ setup_keys db' = setup_keys db.
Proof.
  intros H Hpl. unfold UpdateDNSConfig in H.
  apply tx_bind_Ok in H as (c1 & s1 & H1 & H). apply tx_bind_Ok in H as (u & s2 & H2 & H).
  unfold mret, tx_ret in H. injection H as -> ->.
  unfold tx_lift in H1. destruct (NormalizeDNSConfig c) as [c2|] eqn:N; [|done]. injection H1 as -> ->.
  pose proof (NormalizeDNSConfig_normal _ _ N) as Hn. split; [done|].
  split; [by apply NormalizeDNSConfig_fixed|]. split; [by eapply load_saved|].
  unfold saveDNSConfig, upsertSetting, mbind, tx_bind, tx_put in H2. by injection H2 as _ <-.
Qed.

(** On a database without DNS settings the stored domain is "vpn", whatever
    domain the server was started with: [loadDNSConfig] never returns an empty
    domain, so the default is not consulted. *)
Lemma dns_default_domain_ignored d db c db' :
  settings db = ∅ → LoadOrInitDNSConfig d db = Ok (c, db') → dc_Domain c = "vpn".
Proof.
  intros E H. unfold LoadOrInitDNSConfig in H.
  apply tx_bind_Ok in H as (c0 & s0 & [L ->]%tx_query_Ok & H).
  apply tx_bind_Ok in H as (e & s1 & H1 & H). apply tx_bind_Ok in H as (m & s2 & H2 & H).
  apply tx_bind_Ok in H as (c1 & s3 & H3 & H). apply tx_bind_Ok in H as (u & s4 & _ & H).
  unfold mret, tx_ret, tx_get, tx_lift in *. simplify_eq.
  unfold loadDNSConfig in L. rewrite E, !lookup_empty in L. vm_compute in L. injection L as <-.
  cbn [dc_Domain] in H3. rewrite (decide_False (P := "vpn" = "")) in H3 by done.
  destruct (NormalizeDNSConfig _) as [c2|] eqn:N; [|done]. simplify_eq.
  unfold NormalizeDNSConfig in N. cbn [dc_Domain] in N.
  change (normalizeDomain "vpn") with "vpn" in N. rewrite (decide_False (P := "vpn" = "")) in N by done.
  unfold mbind, result_bind in N. repeat (case_match; try done); by simplify_eq.
Qed.

Definition ex_dns : DNSConfig := mkDNS true true " Corp.VPN. " ["100.78.0.1"; " 100.78.0.1"; "fd32:d2ad:be4f:0::7"] ["svc.vpn"].
Definition ex_dns' : DNSConfig :=
  mkDNS true true "corp.vpn" ["100.78.0.1"; "fd32:d2ad:be4f::7"] ["corp.vpn"; "svc.vpn"].
Lemma dns_update_round_trip_witness :
  ∃ db', UpdateDNSConfig ex_dns empty_db = Ok (ex_dns', db')
    ∧ NormalizeDNSConfig ex_dns' = Ok ex_dns' ∧ CurrentDNSConfig db' = Ok ex_dns'.
Proof.
  exists (run_tx (UpdateDNSConfig ex_dns) empty_db).2. split; [vm_compute; reflexivity|].
  destruct (dns_update_round_trip ex_dns empty_db ex_dns' (run_tx (UpdateDNSConfig ex_dns) empty_db).2)
    as (_ & H2 & H3 & _).
  - vm_compute. reflexivity.
  - intros s Hs. repeat (apply elem_of_cons in Hs as [->|Hs]; [vm_compute; reflexivity|]).
    by apply elem_of_nil in Hs.
  - split; [exact H2|exact H3].
Defined.
