(* ===== verification/Users.v ===== *)
(** * Admin accounts

    internal/store/users.go.  [golang.org/x/crypto/argon2] is a parameter,
    [IDKey password salt time memory threads keyLen]; its documented contract
    used below is that it returns [keyLen] bytes.  [fmt.Sscanf] with [%d] is
    modelled for what the two formats of [verifyPassword] use. *)
From S2P Require Import Prelude GoText TimeText NetAddr Codec Schema SchemaFacts Enroll.
From Stdlib Require Import Ascii.

Record User : Type := mkUserInfo {
  us_ID : Z; us_Username : string; us_AuthSource : string; us_SessionEpoch : Z;
  us_CreatedAt : string; us_UpdatedAt : string
}.

Definition argonTime : Z := 1.
Definition argonMemory : Z := 64 * 1024.
Definition argonThreads : Z := 4.
Definition argonKeyLen : Z := 32.
Definition argonVersion : Z := 19.

(** ** [fmt.Sscanf]

    A literal must match; [%d] skips blanks (a newline is an error), takes an
    optional sign and digits, and fails outside [int]; input left over at the
    end is no error. *)
Fixpoint skip_blanks (l : list ascii) : option (list ascii) :=
  match l with
  | c1 :: ((c2 :: ((c3 :: l3) as l2)) as l1) =>
      if decide (c1 = "010"%char) then None
      else if space1 c1 then skip_blanks l1
      else if space2 c1 c2 then skip_blanks l2
      else if space3 c1 c2 c3 then skip_blanks l3 else Some l
  | c1 :: ((c2 :: []) as l1) =>
      if decide (c1 = "010"%char) then None
      else if space1 c1 then skip_blanks l1
      else if space2 c1 c2 then Some [] else Some l
  | [c1] =>
      if decide (c1 = "010"%char) then None
      else if space1 c1 then Some [] else Some l
  | [] => Some []
  end.
Fixpoint span_digits (l : list ascii) : list ascii * list ascii :=
  match l with
  | c :: l' => match digit c with
               | Some _ => let '(d, r) := span_digits l' in (c :: d, r)
               | None => ([], l)
               end
  | [] => ([], [])
  end.
Definition scan_d (l : list ascii) : option (Z * list ascii) :=
  l ← skip_blanks l;
  let '(sign, l) := match l with
    | c :: r => if decide (c = "+"%char ∨ c = "-"%char) then ([c], r) else ([], l)
    | [] => ([], [])
    end in
  match span_digits l with
  | ([], _) => None
  | (d, r) => z ← ParseInt (text (sign ++ d)); Some (z, r)
  end.
Definition scan_lit (s : string) (l : list ascii) : option (list ascii) :=
  r ← CutPrefix (text l) s; Some (chars r).

Definition scan_version (s : string) : option Z :=
  l ← scan_lit "v=" (chars s); '(v, _) ← scan_d l; Some v.
Definition scan_params (s : string) : option (Z * Z * Z) :=
  l ← scan_lit "m=" (chars s); '(m, l) ← scan_d l;
  l ← scan_lit ",t=" l; '(t, l) ← scan_d l;
  l ← scan_lit ",p=" l; '(p, l) ← scan_d l; Some (m, t, p).

Definition validateUsername (username : string) : result string :=
  let username := TrimSpace username in
  if decide (username = "") then Err (ErrMsg "username is required")
  else if 64 <? str_len username then Err (ErrMsg "username too long (max 64)")
  else if str_forall (λ c, let b := byte_of c in
         (b =? 45) || (b =? 95) || (b =? 46) || (b =? 64) || ((97 <=? b) && (b <=? 122))
         || ((65 <=? b) && (b <=? 90)) || ((48 <=? b) && (b <=? 57))) username
  then Ok username
  else Err (ErrMsg "username may contain only letters, digits, and -_.@").

Definition validatePassword (password : string) : result unit :=
  if str_len password <? 8 then Err (ErrMsg "password must be at least 8 characters")
  else if 512 <? str_len password then Err (ErrMsg "password too long (max 512)")
  else Ok tt.

Definition user_info (u : UserRow) : User :=
  mkUserInfo (u_id u) (u_username u) (u_auth_source u) (u_session_epoch u) (u_created_at u)
    (u_updated_at u).
Definition userByID (id : Z) (db : DB) : result User :=
  match select1 (λ u, u_id u =? id) (users db) with
  | None => Err (ErrNotFound "")
  | Some u => Ok (user_info u)
  end.
Definition ListUsers (db : DB) : list User := user_info <$> users db.

(** [INSERT INTO users], and what the caller makes of a UNIQUE failure. *)
Definition insert_user (username hash at_ : string) (taken : goerr) : tx DB Z := λ db,
  if bool_decide (username ∈ (u_username <$> users db)) then Err taken
  else let i := next_id u_id (users db) in
       Ok (i, set_users (users db ++ [mkUser i username hash "local" 0 at_ at_]) db).

Section accounts.
Context (IDKey : list Z → list Z → Z → Z → Z → Z → list Z).

Definition hashPassword (salt : list Z) (password : string) : string :=
  let key := IDKey (bytes_of password) salt argonTime argonMemory argonThreads argonKeyLen in
  "$argon2id$v=" +:+ Itoa argonVersion +:+ "$m=" +:+ Itoa argonMemory +:+ ",t=" +:+ Itoa argonTime
  +:+ ",p=" +:+ Itoa argonThreads +:+ "$" +:+ RawStdEncode salt +:+ "$" +:+ RawStdEncode key.

Definition verifyPassword (encoded password : string) : bool :=
  match Split encoded "$" with
  | [_; alg; v; params; salt; want] =>
      if decide (alg = "argon2id") then
        match scan_version v, scan_params params, RawStdDecode salt, RawStdDecode want with
        | Some _, Some (mem, tim, par), Some salt, Some want =>
            bool_decide (IDKey (bytes_of password) salt (tim mod 2 ^ 32) (mem mod 2 ^ 32) (par mod 2 ^ 8)
                           (Z.of_nat (length want) mod 2 ^ 32) = want)
        | _, _, _, _ => false
        end
      else false
  | _ => false
  end.

Definition CreateLocalUser (now : Z) (salt : list Z) (username password : string) : tx DB User :=
  username ← tx_lift (validateUsername username);
  _ ← tx_lift (validatePassword password);
  id ← insert_user username (hashPassword salt password) (fmt_time now) (ErrUserExists username);
  tx_query (userByID id).

(** [salt'] is the salt of the second attempt. *)
Definition EnsureSeedUser (now : Z) (salt salt' : list Z) (username bootstrapPassword : string)
  : tx DB bool := λ db,
  if 0 <? Z.of_nat (length (users db)) then Ok (false, db)
  else match CreateLocalUser now salt username bootstrapPassword db with
       | Ok (_, db') => Ok (true, db')
       | Err _ =>
           match insert_user username (hashPassword salt' bootstrapPassword) (fmt_time now)
                   (ErrConstraint "users") db with
           | Ok (_, db') => Ok (true, db')
           | Err e => Err e
           end
       end.

Definition Authenticate (username password : string) (db : DB) : result User :=
  let username := TrimSpace username in
  match select1 (λ u, bool_decide (u_username u = username)) (users db) with
  | None => Err ErrAuth
  | Some u =>
      if bool_decide (u_auth_source u ≠ "local") || negb (verifyPassword (u_password_hash u) password)
      then Err ErrAuth else userByID (u_id u) db
  end.

Definition local_user (id : Z) (u : UserRow) : bool :=
  (u_id u =? id) && bool_decide (u_auth_source u = "local").
Definition SetPassword (now : Z) (salt : list Z) (userID : Z) (newPassword : string) : tx DB unit :=
  _ ← tx_lift (validatePassword newPassword);
  n ← tx_get (λ db, count_where (local_user userID) (users db));
  if n =? 0 then tx_fail (ErrNotFound "")
  else tx_put (λ db, set_users (update_where (local_user userID)
         (λ u, mkUser (u_id u) (u_username u) (hashPassword salt newPassword) (u_auth_source u)
                 (u_session_epoch u + 1) (u_created_at u) (fmt_time now)) (users db)) db).

Definition DeleteUser (userID : Z) : tx DB unit := λ db,
  if Z.of_nat (length (users db)) <=? 1
  then Err (ErrMsg "cannot delete the last remaining admin user")
  else if count_where (λ u, u_id u =? userID) (users db) =? 0 then Err (ErrNotFound "")
  else Ok (tt, set_users (delete_where (λ u, u_id u =? userID) (users db)) db).

(** ** Passwords *)
Hypothesis IDKey_bytes : ∀ pw salt t m p n, forallb is_byte (IDKey pw salt t m p n) = true.
Hypothesis IDKey_length : ∀ pw salt t m p n, 0 ≤ n → Z.of_nat (length (IDKey pw salt t m p n)) = n.

Definition derived (salt : list Z) (password : string) : list Z :=
  IDKey (bytes_of password) salt argonTime argonMemory argonThreads argonKeyLen.

Lemma hashPassword_Split salt pw :
  Split (hashPassword salt pw) "$" =
  [""; "argon2id"; "v=19"; "m=65536,t=1,p=4"; RawStdEncode salt; RawStdEncode (derived salt pw)].
Proof using.
  assert (hashPassword salt pw = Join [""; "argon2id"; "v=19"; "m=65536,t=1,p=4";
    RawStdEncode salt; RawStdEncode (derived salt pw)] "$") as ->.
  { unfold hashPassword. fold (derived salt pw).
    change (Itoa argonVersion) with "19". change (Itoa argonMemory) with "65536".
    change (Itoa argonTime) with "1". change (Itoa argonThreads) with "4".
    cbn [Join]. rewrite ?str_app_cons, ?str_app_nil_l. done. }
  apply Split_Join; [done|]. repeat constructor; by apply b64_encode_no_char.
Qed.

(** A stored hash accepts exactly the passwords that derive the same key. *)
Lemma verify_hash salt pw pw' :
  forallb is_byte salt = true →
  verifyPassword (hashPassword salt pw) pw' = bool_decide (derived salt pw' = derived salt pw).
Proof using IDKey_bytes IDKey_length.
  intros Hs. unfold verifyPassword. rewrite hashPassword_Split, decide_True by done.
  change (scan_version "v=19") with (Some 19).
  change (scan_params "m=65536,t=1,p=4") with (Some (65536, 1, 4)).
  rewrite !RawStdDecode_encode by (done || apply IDKey_bytes).
  assert (Z.of_nat (length (derived salt pw)) = 32) as -> by (by apply IDKey_length). reflexivity.
Qed.

(** ** Accounts *)
Lemma db_ok_users db l :
  db_ok db → ids_ok (u_id <$> l) → NoDup (u_username <$> l) → db_ok (set_users l db).
Proof using. intros H Hi Hn. constructor; try (done || apply H). Qed.

Lemma insert_user_Ok name h at_ e db i db' :
  insert_user name h at_ e db = Ok (i, db') →
  i = next_id u_id (users db) ∧ (name ∉ (u_username <$> users db))
  ∧ db' = set_users (users db ++ [mkUser i name h "local" 0 at_ at_]) db.
Proof using. unfold insert_user. case_bool_decide; [done|]. by intros [= <- <-]. Qed.

Lemma insert_user_db_ok name h at_ e db i db' :
  db_ok db → insert_user name h at_ e db = Ok (i, db') → db_ok db'.
Proof using.
  intros H (-> & Hn & ->)%insert_user_Ok. apply db_ok_users; [done|by apply ids_ok_insert; [apply H|]|].
  rewrite fmap_app. apply NoDup_snoc. split; [apply H|done].
Qed.

Lemma CreateLocalUser_Ok now salt name pw db u db' :
  CreateLocalUser now salt name pw db = Ok (u, db') →
  ∃ name' i, validateUsername name = Ok name'
    ∧ insert_user name' (hashPassword salt pw) (fmt_time now) (ErrUserExists name') db = Ok (i, db')
    ∧ userByID i db' = Ok u.
Proof using.
  unfold CreateLocalUser. intros H. apply tx_bind_Ok in H as (n' & s1 & H1 & H).
  apply tx_bind_Ok in H as (v & s2 & H2 & H). apply tx_bind_Ok in H as (i & s3 & H3 & [H4 ->]%tx_query_Ok).
  unfold tx_lift in H1, H2. destruct (validateUsername name); [|done]. destruct (validatePassword pw); [|done].
  simplify_eq. eauto.
Qed.

Lemma CreateLocalUser_db_ok now salt name pw db u db' :
  db_ok db → CreateLocalUser now salt name pw db = Ok (u, db') → db_ok db'.
Proof using. intros H (n' & i & _ & H1 & _)%CreateLocalUser_Ok. by eapply insert_user_db_ok. Qed.

Lemma validateUsername_plain name name' :
  validateUsername name = Ok name' → name' ≠ "" ∧ str_forall plain name' = true.
Proof using.
  unfold validateUsername. case_decide; [done|]. case_match; [done|]. case_match eqn:F; [|done].
  intros [= <-]. split; [done|]. eapply str_forall_impl; [|exact F].
  intros c. cbn. unfold plain. lia.
Qed.

Lemma EnsureSeedUser_db_ok now s1 s2 name pw db b db' :
  db_ok db → EnsureSeedUser now s1 s2 name pw db = Ok (b, db') → db_ok db'.
Proof using.
  intros H. unfold EnsureSeedUser. case_match; [by intros [= _ <-]|].
  destruct (CreateLocalUser _ _ _ _ _) as [[u s]|] eqn:E.
  - intros [= _ <-]. by eapply CreateLocalUser_db_ok.
  - destruct (insert_user _ _ _ _ _) as [[i s]|] eqn:E2; [|done]. intros [= _ <-].
    by eapply insert_user_db_ok.
Qed.

(** The account table is never empty again once it is seeded. *)
Lemma EnsureSeedUser_seeds now s1 s2 name pw db b db' :
  EnsureSeedUser now s1 s2 name pw db = Ok (b, db') → users db' ≠ [].
Proof using.
  unfold EnsureSeedUser. destruct (Z.ltb_spec 0 (Z.of_nat (length (users db)))).
  - intros [= _ <-] E. rewrite E in *. cbn in *. lia.
  - destruct (CreateLocalUser _ _ _ _ _) as [[u s]|] eqn:E.
    + intros [= _ <-]. apply CreateLocalUser_Ok in E as (n' & i & _ & (_ & _ & ->)%insert_user_Ok & _).
      cbn. by destruct (users db).
    + destruct (insert_user _ _ _ _ _) as [[i s]|] eqn:E2; [|done]. intros [= _ <-].
      apply insert_user_Ok in E2 as (_ & _ & ->). cbn. by destruct (users db).
Qed.

Lemma SetPassword_Ok now salt id pw db u db' :
  SetPassword now salt id pw db = Ok (u, db') →
  validatePassword pw = Ok tt ∧ 0 < count_where (local_user id) (users db)
  ∧ db' = set_users (update_where (local_user id)
         (λ u, mkUser (u_id u) (u_username u) (hashPassword salt pw) (u_auth_source u)
                 (u_session_epoch u + 1) (u_created_at u) (fmt_time now)) (users db)) db.
Proof using.
  unfold SetPassword. intros H. apply tx_bind_Ok in H as (v & s1 & H1 & H).
  apply tx_bind_Ok in H as (n & s2 & H2 & H).
  unfold tx_lift in H1. destruct (validatePassword pw) as [[]|]; [|done].
  unfold tx_get in H2. simplify_eq.
  assert (0 ≤ count_where (local_user id) (users s2)) by (unfold count_where; lia).
  destruct (Z.eqb_spec (count_where (local_user id) (users s2)) 0); [done|].
  unfold tx_put in H. simplify_eq. repeat split; lia.
Qed.

Lemma SetPassword_db_ok now salt id pw db u db' :
  db_ok db → SetPassword now salt id pw db = Ok (u, db') → db_ok db'.
Proof using.
  intros H (_ & _ & ->)%SetPassword_Ok. apply db_ok_users; [done|..].
  - rewrite (fmap_update_where u_id) by done. apply H.
  - rewrite (fmap_update_where u_username) by done. apply H.
Qed.

Lemma DeleteUser_db_ok id db u db' :
  db_ok db → DeleteUser id db = Ok (u, db') → db_ok db' ∧ users db' ≠ [].
Proof using.
  intros H. unfold DeleteUser. destruct (Z.leb_spec (Z.of_nat (length (users db))) 1) as [|Hl]; [done|].
  case_match; [done|]. intros [= <- <-]. split.
  - apply db_ok_users; [done|apply ids_ok_filter, H|].
    apply (NoDup_fmap_sublist _ _ (users db)); [apply filter_sublist|apply H].
  - cbn. intros E. pose proof (ok_user_ids _ H) as Hi.
    destruct (users db) as [|a [|b l]] eqn:U; [cbn in Hl; lia..|].
    assert ((a ∉ delete_where (λ u, u_id u =? id) (a :: b :: l))
          ∧ (b ∉ delete_where (λ u, u_id u =? id) (a :: b :: l))) as [Ha Hb].
    { rewrite E. split; apply not_elem_of_nil. }
    rewrite !elem_of_delete_where in Ha, Hb.
    assert (u_id a = id) as Ea.
    { destruct (Z.eqb_spec (u_id a) id); [done|]. destruct Ha. split; [left|done]. }
    assert (u_id b = id) as Eb.
    { destruct (Z.eqb_spec (u_id b) id); [done|]. destruct Hb. split; [right; left|done]. }
    apply ids_NoDup in Hi. cbn in Hi. apply NoDup_cons in Hi as [Hi _]. apply Hi. rewrite Ea, <- Eb. left.
Qed.

(** ** Signing in *)
Lemma username_inj db u v :
  db_ok db → u ∈ users db → v ∈ users db → u_username u = u_username v → u = v.
Proof using.
  intros H Hu Hv E. pose proof (ok_usernames _ H) as Hn.
  apply list_elem_of_lookup in Hu as [i Hi], Hv as [j Hj].
  assert (i = j) as ->; [|congruence].
  eapply (NoDup_lookup (u_username <$> users db)); [done|..]; rewrite list_lookup_fmap.
  - by rewrite Hi.
  - rewrite Hj. cbn. by rewrite E.
Qed.

Lemma Authenticate_row name pw db u :
  db_ok db → u ∈ users db → u_username u = TrimSpace name → u_auth_source u = "local" →
  Authenticate name pw db =
    if verifyPassword (u_password_hash u) pw then Ok (user_info u) else Err ErrAuth.
Proof using.
  intros H Hu En Es. unfold Authenticate.
  rewrite (select1_unique _ (users db) u Hu).
  - rewrite Es, bool_decide_eq_false_2 by (by intros F; apply F). cbn [orb].
    destruct (verifyPassword _ _); cbn [negb]; [|done].
    unfold userByID. by rewrite (select1_by_id u_id) by (apply H || done).
  - by apply bool_decide_eq_true.
  - intros v Hv E%bool_decide_eq_true. apply (username_inj db); [done..|congruence].
Qed.

(** Signing in works exactly with the password an account was created with
    (a password that derives the same key): every other one, and every unknown
    name, gets the same [ErrAuth]. *)
Theorem login_after_create now salt username password db u db' :
  db_ok db → forallb is_byte salt = true →
  CreateLocalUser now salt username password db = Ok (u, db') →
  (∀ password', Authenticate username password' db' =
     if bool_decide (derived salt password' = derived salt password) then Ok u else Err ErrAuth)
  ∧ (∀ name password', TrimSpace name ∉ (u_username <$> users db') →
       Authenticate name password' db' = Err ErrAuth).
Proof using IDKey_bytes IDKey_length.
  intros H Hs Hc. pose proof (CreateLocalUser_db_ok _ _ _ _ _ _ _ H Hc) as H'.
  apply CreateLocalUser_Ok in Hc as (name' & i & Hv & Hi & Hu).
  pose proof Hi as (Ei & _ & Edb)%insert_user_Ok. split.
  - intros pw'. set (row := mkUser i name' (hashPassword salt password) "local" 0 (fmt_time now) (fmt_time now)).
    assert (row ∈ users db') as Hrow by (rewrite Edb; apply elem_of_app; right; left).
    assert (TrimSpace username = name') as Et.
    { unfold validateUsername in Hv. repeat (case_match; try done); by simplify_eq. }
    rewrite (Authenticate_row username pw' db' row) by (try done; by rewrite Et).
    cbn [u_password_hash row]. rewrite verify_hash by done.
    pose proof (select1_by_id u_id (users db') row (ok_user_ids _ H') Hrow) as Hsel.
    cbn [u_id row] in Hsel. unfold userByID in Hu. rewrite Hsel in Hu. by injection Hu as <-.
  - intros name pw' Hn. unfold Authenticate.
    assert (select1 (λ u, bool_decide (u_username u = TrimSpace name)) (users db') = None) as ->; [|done].
    apply select1_None. intros v Hv'. apply bool_decide_eq_false. intros E. apply Hn.
    rewrite <- E. by apply list_elem_of_fmap_2.
Qed.

(** Changing a password replaces it and ends the account's sessions: the
    new password signs in, the session epoch is one higher than before, an old
    password that derives another key is refused, and the other accounts stay
    as they were. *)
Theorem password_change now salt userID newPassword db v db' u :
  db_ok db → forallb is_byte salt = true → u ∈ users db → u_id u = userID → u_auth_source u = "local" →
  TrimSpace (u_username u) = u_username u →
  SetPassword now salt userID newPassword db = Ok (v, db') →
  (∃ info, Authenticate (u_username u) newPassword db' = Ok info
           ∧ us_SessionEpoch info = u_session_epoch u + 1 ∧ us_ID info = userID)
  ∧ (∀ old, derived salt old ≠ derived salt newPassword →
       Authenticate (u_username u) old db' = Err ErrAuth)
  ∧ (∀ w, w ∈ users db → u_id w ≠ userID → w ∈ users db').
Proof using IDKey_bytes IDKey_length.
  intros H Hs Hu Hid Hl Ht Hp. pose proof (SetPassword_db_ok _ _ _ _ _ _ _ H Hp) as H'.
  apply SetPassword_Ok in Hp as (_ & _ & E).
  set (row := mkUser (u_id u) (u_username u) (hashPassword salt newPassword) (u_auth_source u)
                 (u_session_epoch u + 1) (u_created_at u) (fmt_time now)).
  assert (row ∈ users db') as Hrow.
  { rewrite E. apply elem_of_update_where. exists u. split; [done|].
    assert (local_user userID u = true) as ->; [|done].
    unfold local_user. by rewrite Hid, Z.eqb_refl, Hl. }
  split; [|split].
  - exists (user_info row). rewrite (Authenticate_row _ _ db' row) by done. cbn [u_password_hash row].
    by rewrite verify_hash, bool_decide_eq_true_2 by done.
  - intros old Hne. rewrite (Authenticate_row _ _ db' row) by done. cbn [u_password_hash row].
    by rewrite verify_hash, bool_decide_eq_false_2 by done.
  - intros w Hw Hne. rewrite E. apply elem_of_update_where. exists w. split; [done|].
    unfold local_user. by destruct (Z.eqb_spec (u_id w) userID).
Qed.
End accounts.

(** ** Witnesses *)

(** A stand-in for argon2: the password padded to the requested length. *)
Definition pad_key (pw salt : list Z) (t m p n : Z) : list Z :=
  (λ b, b mod 256) <$> resize (Z.to_nat n) 0 pw.
Lemma pad_key_bytes pw salt t m p n : forallb is_byte (pad_key pw salt t m p n) = true.
Proof.
  unfold pad_key. induction (resize (Z.to_nat n) 0 pw) as [|b l IH]; [done|]. cbn. rewrite IH.
  unfold is_byte. pose proof (Z.mod_pos_bound b 256). lia.
Qed.
Lemma pad_key_length pw salt t m p n : 0 ≤ n → Z.of_nat (length (pad_key pw salt t m p n)) = n.
Proof. intros Hn. unfold pad_key. rewrite length_fmap, length_resize. lia. Qed.

Definition ex_users : DB := (run_tx (CreateLocalUser pad_key 0 [1; 2] " admin " "correct horse") empty_db).2.
Definition ex_user : User := mkUserInfo 1 "admin" "local" 0 (fmt_time 0) (fmt_time 0).

Lemma login_after_create_witness :
  (∀ password', Authenticate pad_key " admin " password' ex_users =
     if bool_decide (derived pad_key [1; 2] password' = derived pad_key [1; 2] "correct horse")
     then Ok ex_user else Err ErrAuth)
  ∧ (∀ name password', TrimSpace name ∉ (u_username <$> users ex_users) →
       Authenticate pad_key name password' ex_users = Err ErrAuth).
Proof.
  apply (login_after_create pad_key pad_key_bytes pad_key_length 0 [1; 2] " admin " "correct horse"
    empty_db ex_user ex_users).
  - apply db_okb_ok. vm_compute. reflexivity.
  - reflexivity.
  - vm_compute. reflexivity.
Defined.

Definition ex_row : UserRow :=
  mkUser 1 "admin" (hashPassword pad_key [1; 2] "correct horse") "local" 0 (fmt_time 0) (fmt_time 0).
Lemma password_change_witness :
  let db' := (run_tx (SetPassword pad_key 5 [3] 1 "battery staple") ex_users).2 in
  (∃ info, Authenticate pad_key "admin" "battery staple" db' = Ok info
           ∧ us_SessionEpoch info = 1 ∧ us_ID info = 1)
  ∧ (∀ old, derived pad_key [3] old ≠ derived pad_key [3] "battery staple" →
       Authenticate pad_key "admin" old db' = Err ErrAuth)
  ∧ (∀ w, w ∈ users ex_users → u_id w ≠ 1 → w ∈ users db').
Proof.
  apply (password_change pad_key pad_key_bytes pad_key_length 5 [3] 1 "battery staple" ex_users tt
    (run_tx (SetPassword pad_key 5 [3] 1 "battery staple") ex_users).2 ex_row).
  - apply db_okb_ok. vm_compute. reflexivity.
  - reflexivity.
  - vm_compute. left.
  - reflexivity.
  - reflexivity.
  - vm_compute. reflexivity.
  - vm_compute. reflexivity.
Defined.
