(* ===== verification/Telemetry.v ===== *)
(** * Telemetry

    internal/store/telemetry.go: resolving a peer token, ingesting one report
    ([ApplyReport]: endpoint material, link counters, path states with their
    connection events, flows and proxy events, in one transaction), and the
    queries over what was ingested; internal/store/connections.go: which path
    transitions are connection events. *)
From S2P Require Import Prelude GoText TimeText NetAddr Codec Json Sha256 Schema SchemaFacts Alloc Enroll.
From Stdlib Require Import Ascii.

(** ** The wire types of internal/proto/report.go *)
Record PeerCounter : Type := mkCounter {
  pc_PeerPublicKey : string; pc_RxBytes : Z; pc_TxBytes : Z; pc_LastHandshakeAt : string
}.
Record PeerPathState : Type := mkPathState {
  ps_PeerPublicKey : string; ps_State : string; ps_Endpoint : string
}.
Record FlowRecord : Type := mkFlowRecord {
  fr_Protocol : Z; fr_SrcIP : string; fr_SrcPort : Z; fr_DstIP : string; fr_DstPort : Z;
  fr_TxBytes : Z; fr_RxBytes : Z; fr_TxPackets : Z; fr_RxPackets : Z
}.
Record ProxyEvent : Type := mkProxyEvent {
  px_At : string; px_Method : string; px_Host : string; px_Path : string; px_Status : Z;
  px_DurationMS : Z; px_ReqBytes : Z; px_RespBytes : Z; px_ClientIP : string; px_Service : string
}.
Record ReportRequest : Type := mkReport {
  rq_PublicEndpoint : string; rq_Candidates : list AgentCandidate; rq_NATType : string;
  rq_Counters : list PeerCounter; rq_Flows : list FlowRecord; rq_PathStates : list PeerPathState;
  rq_ProxyEvents : list ProxyEvent; rq_AdvertiseExitNode : bool; rq_Version : string
}.

(** ** Filters on what an agent says of itself *)
Definition natType (v : string) : string :=
  if decide (v = "easy" ∨ v = "hard" ∨ v = "static") then v else "".

Definition agentVersion (v : string) : string :=
  if decide (v = "") then ""
  else if 64 <? str_len v then ""
  else if str_exists (λ c, (byte_of c <=? 32) || (126 <? byte_of c)) v then "" else v.

(** ** Authentication *)
Definition AuthenticatePeer (c : Config) (now : Z) (token : string) (db : DB)
  : result (Z * string) :=
  match select1 (λ p, bool_decide (p_auth_token_hash p = Some (HashToken token))
                      && bool_decide (p_revoked_at p = None)) (peers db) with
  | None => Err (ErrUnauthorized "unknown or revoked peer token")
  | Some p =>
      let expired :=
        match p_auth_token_issued_at p with
        | Some at_ =>
            match parse_time at_ with
            | Some issued => TokenTTL c <? now - issued
            | None => false
            end
        | None => false
        end in
      if (0 <? TokenTTL c) && expired
      then Err (ErrUnauthorized ("token expired (issued " +:+ coalesce (p_auth_token_issued_at p) "" +:+ ")"))
      else Ok (p_id p, p_assigned_ip p)
  end.

(** ** One report *)
Definition relay_states : list string := ["quic-relay"; "ws-relay"; "udp-relay"].
Definition connectionEventKind (prev next : string) : option string :=
  if decide (prev = next) then None
  else if decide (next = "direct") then Some "direct"
  else if decide (next ∈ relay_states) then
    if decide (prev ∈ relay_states) then None else Some "relay"
  else None.

Definition peerIDsByPublicKey (db : DB) : gmap string Z :=
  foldl (λ m p, <[p_public_key p := p_id p]> m) ∅ (peers db).

Definition currentPathStates (peerID : Z) (db : DB) : gmap Z string :=
  list_to_map (omap (λ kv, if kv.1.1 =? peerID then Some (kv.1.2, pp_state kv.2) else None)
                 (map_to_list (peer_paths db))).

(** The UPDATE of the reporter's own row. *)
Definition report_row (at_ observedIP candidatesJSON : string) (rq : ReportRequest) (p : Peer) : Peer :=
  mkPeer (p_id p) (p_public_key p) (p_assigned_ip p) (p_hostname p) (p_listen_port p)
    (Some at_) (p_created_at p) (p_revoked_at p) (p_setup_key_id p) (p_auth_token_hash p)
    (keep (nullable observedIP) (p_observed_ip p))
    (keep (nullable (rq_PublicEndpoint rq)) (p_public_endpoint p))
    (p_auth_token_issued_at p) (p_assigned_ip6 p) (p_peer_type p) (p_gateway_peer_id p)
    (p_private_key_enc p) (p_gateway_endpoint p)
    (keep (nullable candidatesJSON) (p_candidates p))
    (keep (nullable (natType (rq_NATType rq))) (p_nat_type p))
    (rq_AdvertiseExitNode rq) (p_exit_node_peer_id p)
    (keep (nullable (agentVersion (rq_Version rq))) (p_agent_version p)).

(** The two upserts; both tables reference the peers on either side. *)
Definition links (db : DB) (a b : Z) : bool := is_peer db a && is_peer db b.
Definition upsert_link (peerID remoteID rx tx_ : Z) (handshake : option string) (at_ : string)
  : tx DB unit := λ db,
  if links db peerID remoteID then
    let row := match link_stats db !! (peerID, remoteID) with
      | None => mkLink (SInt rx) (SInt tx_) handshake at_
      | Some l => mkLink (sql_add (l_rx_bytes l) (SInt rx)) (sql_add (l_tx_bytes l) (SInt tx_))
                    (keep handshake (l_last_handshake_at l)) at_
      end in
    Ok (tt, set_link_stats (<[(peerID, remoteID) := row]> (link_stats db)) db)
  else Err (ErrConstraint "link_stats").
Definition upsert_path (peerID remoteID : Z) (state endpoint at_ : string) : tx DB unit := λ db,
  if links db peerID remoteID then
    Ok (tt, set_peer_paths (<[(peerID, remoteID) := mkPath state (nullable endpoint) at_]> (peer_paths db)) db)
  else Err (ErrConstraint "peer_paths").
Definition insert_event (peerID remoteID : Z) (kind : string) (from : option string) (to_ at_ : string)
  : tx DB unit := λ db,
  if links db peerID remoteID then
    let i := next_id ce_id (connection_events db) in
    Ok (tt, set_connection_events
              (connection_events db ++ [mkConn i at_ peerID remoteID kind from to_]) db)
  else Err (ErrConstraint "connection_events").

Definition apply_counter (peerID : Z) (at_ : string) (idByKey : gmap string Z) (c : PeerCounter)
  : tx DB unit :=
  match idByKey !! pc_PeerPublicKey c with
  | None => mret tt
  | Some remoteID =>
      upsert_link peerID remoteID (pc_RxBytes c) (pc_TxBytes c) (nullable (pc_LastHandshakeAt c)) at_
  end.

Definition apply_path (peerID : Z) (at_ : string) (idByKey : gmap string Z) (prevStates : gmap Z string)
    (p : PeerPathState) : tx DB unit :=
  match idByKey !! ps_PeerPublicKey p with
  | None => mret tt
  | Some remoteID =>
      let prev := default "" (prevStates !! remoteID) in
      _ ← match connectionEventKind prev (ps_State p) with
          | Some kind => insert_event peerID remoteID kind (nullable prev) (ps_State p) at_
          | None => mret tt
          end;
      upsert_path peerID remoteID (ps_State p) (ps_Endpoint p) at_
  end.

Definition apply_flow (peerID : Z) (at_ : string) (f : FlowRecord) : tx DB unit := λ db,
  if is_peer db peerID then
    let i := next_id f_id (flows db) in
    Ok (tt, set_flows (flows db ++ [mkFlow i peerID (fr_Protocol f) (fr_SrcIP f) (fr_SrcPort f)
              (fr_DstIP f) (fr_DstPort f) (fr_TxBytes f) (fr_RxBytes f) (fr_TxPackets f)
              (fr_RxPackets f) at_]) db)
  else Err (ErrConstraint "flows").

Definition apply_proxy (peerID : Z) (at_ : string) (e : ProxyEvent) : tx DB unit := λ db,
  if is_peer db peerID then
    let i := next_id pe_id (proxy_events db) in
    Ok (tt, set_proxy_events (proxy_events db ++
         [mkProxy i (Some peerID) (if decide (px_At e = "") then at_ else px_At e)
            (nullable (px_Method e)) (nullable (px_Host e)) (nullable (px_Path e)) (px_Status e)
            (px_DurationMS e) (px_ReqBytes e) (px_RespBytes e) (nullable (px_ClientIP e))
            (nullable (px_Service e))]) db)
  else Err (ErrConstraint "proxy_events").

Definition ApplyReport (now peerID : Z) (observedIP : string) (rq : ReportRequest) : tx DB unit :=
  let at_ := fmt_time now in
  let candidatesJSON := match rq_Candidates rq with [] => "" | l => marshal_candidates l end in
  _ ← tx_put (λ db, set_peers (update_where (λ p, p_id p =? peerID)
                                 (report_row at_ observedIP candidatesJSON rq) (peers db)) db);
  idByKey ← tx_get peerIDsByPublicKey;
  _ ← tx_iter (apply_counter peerID at_ idByKey) (rq_Counters rq);
  prevStates ← tx_get (currentPathStates peerID);
  _ ← tx_iter (apply_path peerID at_ idByKey prevStates) (rq_PathStates rq);
  _ ← tx_iter (apply_flow peerID at_) (rq_Flows rq);
  tx_iter (apply_proxy peerID at_) (rq_ProxyEvents rq).

(** ** Queries *)
Definition RelayPairKeys (selfID : Z) (targetPublicKey : string) (db : DB) : result (string * bool) :=
  match peer_by_id selfID db with
  | None => Err (ErrMsg ("look up peer " +:+ Itoa selfID))
  | Some p =>
      Ok (p_public_key p,
          0 <? count_where (λ q, bool_decide (p_public_key q = targetPublicKey)
                                 && bool_decide (p_revoked_at q = None)) (peers db))
  end.

Record LinkStat : Type := mkLinkStat {
  ls_PeerID : Z; ls_PeerHostname : string; ls_PeerIP : string; ls_RemotePeerID : Z;
  ls_RemoteHostname : string; ls_RemoteIP : string; ls_RxBytes : Z; ls_TxBytes : Z;
  ls_LastHandshakeAt : string; ls_UpdatedAt : string; ls_PathState : string;
  ls_PathEndpoint : string; ls_PathUpdatedAt : string
}.
(** [Scan] into an [int64] refuses a REAL. *)
Definition scan_int (n : sqlnum) : result Z :=
  match n with SInt z => Ok z | SReal => Err (ErrMsg "scan link stat") end.
Definition key_le (a b : (Z * Z) * PathRow) : Prop :=
  a.1.1 < b.1.1 ∨ (a.1.1 = b.1.1 ∧ a.1.2 ≤ b.1.2).
#[export] Instance key_le_dec a b : Decision (key_le a b).
Proof. unfold key_le. apply _. Defined.

Definition link_stat (db : DB) (kv : (Z * Z) * PathRow) : option (result LinkStat) :=
  p ← peer_by_id kv.1.1 db; r ← peer_by_id kv.1.2 db;
  let l := link_stats db !! kv.1 in
  let num f := match l with Some x => scan_int (f x) | None => Ok 0 end in
  Some (rx ← num l_rx_bytes; tx_ ← num l_tx_bytes;
        Ok (mkLinkStat kv.1.1 (coalesce (p_hostname p) "") (p_assigned_ip p)
              kv.1.2 (coalesce (p_hostname r) "") (p_assigned_ip r) rx tx_
              (coalesce (l ≫= l_last_handshake_at) "")
              (match l with Some x => l_updated_at x | None => pp_updated_at kv.2 end)
              (pp_state kv.2) (coalesce (pp_endpoint kv.2) "") (pp_updated_at kv.2))).
Fixpoint collect {A} (l : list (result A)) : result (list A) :=
  match l with
  | [] => Ok []
  | r :: l => x ← r; xs ← collect l; Ok (x :: xs)
  end.
Definition ListLinkStats (db : DB) : result (list LinkStat) :=
  collect (omap (link_stat db) (merge_sort key_le (map_to_list (peer_paths db)))).

Record FlowRow : Type := mkFlowRow {
  fw_Flow : FlowRec; fw_PeerHostname : string; fw_PeerIP : string; fw_PeerIP6 : string
}.
Definition flow_row (db : DB) (f : FlowRec) : option FlowRow :=
  p ← peer_by_id (f_peer_id f) db;
  Some (mkFlowRow f (coalesce (p_hostname p) "") (p_assigned_ip p) (coalesce (p_assigned_ip6 p) "")).
(** The newest [limit] rows, newest first. *)
Definition RecentFlows (limit : nat) (db : DB) : list FlowRow :=
  take limit (omap (flow_row db) (reverse (flows db))).

(** ** Retention *)
Definition cutoff (now retention : Z) : string := fmt_time (now - retention).
Definition PruneFlows (now retention : Z) : tx DB Z := λ db,
  let old f := str_lt (f_reported_at f) (cutoff now retention) in
  Ok (count_where old (flows db), set_flows (delete_where old (flows db)) db).
Definition PruneConnectionEvents (now retention : Z) : tx DB Z := λ db,
  let old e := str_lt (ce_at e) (cutoff now retention) in
  Ok (count_where old (connection_events db),
      set_connection_events (delete_where old (connection_events db)) db).
Definition PruneProxyEvents (now retention : Z) : tx DB Z := λ db,
  let old e := str_lt (pe_at e) (cutoff now retention) in
  Ok (count_where old (proxy_events db), set_proxy_events (delete_where old (proxy_events db)) db).
Definition PruneAuditLog (now retention : Z) : tx DB Z := λ db,
  let old a := str_lt (a_at a) (cutoff now retention) in
  Ok (count_where old (audit_log db), set_audit_log (delete_where old (audit_log db)) db).

(** ** The logs of the dashboard *)
Record ConnectionEventRow : Type := mkConnRow {
  cr_Event : ConnEvent; cr_FromState : string; cr_ReporterHostname : string; cr_RemoteHostname : string
}.
Definition host_of (o : option Z) (db : DB) : string :=
  match o ≫= (λ i, peer_by_id i db) with Some p => coalesce (p_hostname p) "" | None => "" end.
Definition ListConnectionEvents (limit : nat) (db : DB) : list ConnectionEventRow :=
  take limit ((λ e, mkConnRow e (coalesce (ce_from_state e) "")
                      (host_of (Some (ce_reporter_peer_id e)) db) (host_of (Some (ce_remote_peer_id e)) db))
              <$> reverse (connection_events db)).
Record ProxyEventRow : Type := mkProxyRow { pw_Event : ProxyRec; pw_PeerID : Z; pw_PeerHostname : string }.
Definition ListProxyEvents (limit : nat) (db : DB) : list ProxyEventRow :=
  take limit ((λ e, mkProxyRow e (default 0 (pe_peer_id e)) (host_of (pe_peer_id e) db))
              <$> reverse (proxy_events db)).

(** internal/store/audit.go *)
Record AuditEntry : Type := mkAuditEntry {
  ae_Event : string; ae_PeerID : Z; ae_OverlayIP : string; ae_RemoteIP : string;
  ae_ForwardedFor : string; ae_UserAgent : string; ae_Method : string; ae_Path : string;
  ae_Status : Z; ae_Detail : string
}.
Definition Audit (now : Z) (e : AuditEntry) : tx DB unit := λ db,
  let peerID := if 0 <? ae_PeerID e then Some (ae_PeerID e) else None in
  if null_or (is_peer db) peerID then
    Ok (tt, set_audit_log (audit_log db ++
      [mkAudit (next_id a_id (audit_log db)) (fmt_time now) (ae_Event e) peerID
         (nullable (ae_OverlayIP e)) (nullable (ae_RemoteIP e)) (nullable (ae_ForwardedFor e))
         (nullable (ae_UserAgent e)) (nullable (ae_Method e)) (nullable (ae_Path e)) (ae_Status e)
         (nullable (ae_Detail e))]) db)
  else Err (ErrConstraint "audit_log").
Record AuditRow : Type := mkAuditRow { aw_Entry : AuditRec; aw_PeerID : Z; aw_PeerHostname : string }.
Definition ListAuditLog (limit : nat) (db : DB) : list AuditRow :=
  take limit ((λ a, mkAuditRow a (default 0 (a_peer_id a)) (host_of (a_peer_id a) db))
              <$> reverse (audit_log db)).
