(* ===== verification/TelemetryFacts.v ===== *)
(** * What a report does

    [ApplyReport] always commits for a registered peer, keeps the invariant of
    the database, adds every counter delta to its link, leaves the last
    reported state of a path and logs the transitions; tokens open exactly
    their peer; pruning removes exactly what is older than the cutoff. *)
From S2P Require Import Prelude GoText TimeText NetAddr Codec Json Sha256 Schema SchemaFacts Alloc Enroll EnrollFacts Telemetry.

(** ** The invariant *)
Lemma db_ok_links db m :
  db_ok db → (∀ a b row, m !! (a, b) = Some row → links db a b = true) →
  db_ok (set_link_stats m db).
Proof.
  intros H Hm. constructor; try (done || apply H). simpl. intros a b row Hr.
  specialize (Hm a b row Hr). unfold links in Hm. by apply andb_true_iff in Hm.
Qed.
Lemma db_ok_paths db m :
  db_ok db → (∀ a b row, m !! (a, b) = Some row → links db a b = true) →
  db_ok (set_peer_paths m db).
Proof.
  intros H Hm. constructor; try (done || apply H). simpl. intros a b row Hr.
  specialize (Hm a b row Hr). unfold links in Hm. by apply andb_true_iff in Hm.
Qed.
Lemma db_ok_conns db l :
  db_ok db → (∀ e, e ∈ l → links db (ce_reporter_peer_id e) (ce_remote_peer_id e) = true) →
  db_ok (set_connection_events l db).
Proof.
  intros H Hm. constructor; try (done || apply H). simpl. intros e He.
  specialize (Hm e He). unfold links in Hm. by apply andb_true_iff in Hm.
Qed.
Lemma db_ok_set_flows db l :
  db_ok db → (∀ f, f ∈ l → is_peer db (f_peer_id f) = true) → db_ok (set_flows l db).
Proof. intros H Hm. constructor; try (done || apply H). Qed.
Lemma db_ok_set_proxy db l :
  db_ok db → (∀ e, e ∈ l → null_or (is_peer db) (pe_peer_id e) = true) → db_ok (set_proxy_events l db).
Proof. intros H Hm. constructor; try (done || apply H). Qed.
Lemma db_ok_set_audit db l :
  db_ok db → (∀ e, e ∈ l → null_or (is_peer db) (a_peer_id e) = true) → db_ok (set_audit_log l db).
Proof. intros H Hm. constructor; try (done || apply H). Qed.

(** A report never changes who is a peer, nor the tables it does not name. *)
Definition same_mesh (db db' : DB) : Prop :=
  peers db' = peers db ∧ setup_keys db' = setup_keys db ∧ acl_rules db' = acl_rules db
  ∧ settings db' = settings db ∧ users db' = users db ∧ audit_log db' = audit_log db.
Lemma same_mesh_refl db : same_mesh db db.
Proof. done. Qed.
Lemma same_mesh_trans a b c : same_mesh a b → same_mesh b c → same_mesh a c.
Proof. unfold same_mesh. intros (?&?&?&?&?&?) (?&?&?&?&?&?). repeat split; congruence. Qed.
Lemma same_mesh_is_peer db db' i : same_mesh db db' → is_peer db' i = is_peer db i.
Proof. intros (E & _). unfold is_peer. by rewrite E. Qed.

Lemma upsert_link_inv a b rx tx_ hs at_ db u db' :
  db_ok db → upsert_link a b rx tx_ hs at_ db = Ok (u, db') → db_ok db' ∧ same_mesh db db'.
Proof.
  intros H. unfold upsert_link. case_match eqn:L; [|done]. intros [= <- <-]. split; [|done].
  apply db_ok_links; [done|]. intros x y row Hr. apply lookup_insert_Some in Hr as [[[= <- <-] _]|[_ Hr]]; [done|].
  unfold links. apply andb_true_iff. by apply (ok_links _ H x y row).
Qed.
Lemma upsert_path_inv a b st ep at_ db u db' :
  db_ok db → upsert_path a b st ep at_ db = Ok (u, db') → db_ok db' ∧ same_mesh db db'.
Proof.
  intros H. unfold upsert_path. case_match eqn:L; [|done]. intros [= <- <-]. split; [|done].
  apply db_ok_paths; [done|]. intros x y row Hr. apply lookup_insert_Some in Hr as [[[= <- <-] _]|[_ Hr]]; [done|].
  unfold links. apply andb_true_iff. by apply (ok_paths _ H x y row).
Qed.
Lemma insert_event_inv a b k f t at_ db u db' :
  db_ok db → insert_event a b k f t at_ db = Ok (u, db') → db_ok db' ∧ same_mesh db db'.
Proof.
  intros H. unfold insert_event. case_match eqn:L; [|done]. intros [= <- <-]. split; [|done].
  apply db_ok_conns; [done|]. intros e [He| ->%list_elem_of_singleton]%elem_of_app; [|done].
  unfold links. apply andb_true_iff. by apply (ok_conns _ H e).
Qed.
Lemma apply_counter_inv peerID at_ ids c db u db' :
  db_ok db → apply_counter peerID at_ ids c db = Ok (u, db') → db_ok db' ∧ same_mesh db db'.
Proof.
  intros H. unfold apply_counter. case_match; [by apply upsert_link_inv|]. by intros [= <- <-].
Qed.
Lemma apply_path_inv peerID at_ ids prev p db u db' :
  db_ok db → apply_path peerID at_ ids prev p db = Ok (u, db') → db_ok db' ∧ same_mesh db db'.
Proof.
  intros H. unfold apply_path. destruct (ids !! _) as [r|]; [|by intros [= <- <-]].
  intros (a & s & H1 & H2)%tx_bind_Ok.
  assert (db_ok s ∧ same_mesh db s) as [Hs Hm].
  { destruct (connectionEventKind _ _); [by eapply insert_event_inv|]. by injection H1 as <- <-. }
  destruct (upsert_path_inv _ _ _ _ _ _ _ _ Hs H2) as [? ?]. split; [done|]. by eapply same_mesh_trans.
Qed.
Lemma apply_flow_inv peerID at_ f db u db' :
  db_ok db → apply_flow peerID at_ f db = Ok (u, db') → db_ok db' ∧ same_mesh db db'.
Proof.
  intros H. unfold apply_flow. case_match eqn:L; [|done]. intros [= <- <-]. split; [|done].
  apply db_ok_set_flows; [done|]. intros e [He| ->%list_elem_of_singleton]%elem_of_app; [|done].
  by apply (ok_flows _ H e).
Qed.
Lemma apply_proxy_inv peerID at_ e db u db' :
  db_ok db → apply_proxy peerID at_ e db = Ok (u, db') → db_ok db' ∧ same_mesh db db'.
Proof.
  intros H. unfold apply_proxy. case_match eqn:L; [|done]. intros [= <- <-]. split; [|done].
  apply db_ok_set_proxy; [done|]. intros x [He| ->%list_elem_of_singleton]%elem_of_app; [|done].
  by apply (ok_proxy _ H x).
Qed.

(** The reporter's own row, and the four loops after it. *)
Definition reported (now peerID : Z) (observedIP : string) (rq : ReportRequest) (db : DB) : DB :=
  set_peers (update_where (λ p, p_id p =? peerID)
    (report_row (fmt_time now) observedIP
       (match rq_Candidates rq with [] => "" | l => marshal_candidates l end) rq) (peers db)) db.

Lemma reported_ok now peerID oip rq db : db_ok db → db_ok (reported now peerID oip rq db).
Proof. intros H. by apply db_ok_update_same. Qed.

Lemma tx_iter_inv {A} (f : A → tx DB unit) :
  (∀ x s u s', db_ok s → f x s = Ok (u, s') → db_ok s' ∧ same_mesh s s') →
  ∀ l s u s', db_ok s → tx_iter f l s = Ok (u, s') → db_ok s' ∧ same_mesh s s'.
Proof.
  intros Hf l s u s' Hs Hi.
  apply (tx_iter_invariant (λ s', db_ok s' ∧ same_mesh s s') f l s s' u); [|done|done].
  intros x s1 u1 s2 [H1 H2] Hx. destruct (Hf x s1 u1 s2 H1 Hx). split; [done|]. by eapply same_mesh_trans.
Qed.

Lemma ApplyReport_inv now peerID oip rq db u db' :
  db_ok db → ApplyReport now peerID oip rq db = Ok (u, db') →
  db_ok db' ∧ same_mesh (reported now peerID oip rq db) db'.
Proof.
  intros H Ha. unfold ApplyReport in Ha.
  apply tx_bind_Ok in Ha as (u0 & s0 & H0 & Ha). apply tx_bind_Ok in Ha as (ids & s1 & H1 & Ha).
  apply tx_bind_Ok in Ha as (u2 & s2 & H2 & Ha). apply tx_bind_Ok in Ha as (prev & s3 & H3 & Ha).
  apply tx_bind_Ok in Ha as (u4 & s4 & H4 & Ha). apply tx_bind_Ok in Ha as (u5 & s5 & H5 & Ha).
  unfold tx_put, tx_get in *. simplify_eq.
  pose proof (reported_ok now peerID oip rq db H) as Hr.
  apply tx_iter_inv in H2 as [Ho2 Hm2]; [|intros; by eapply apply_counter_inv|exact Hr].
  apply tx_iter_inv in H4 as [Ho4 Hm4]; [|intros; by eapply apply_path_inv|exact Ho2].
  apply tx_iter_inv in H5 as [Ho5 Hm5]; [|intros; by eapply apply_flow_inv|exact Ho4].
  apply tx_iter_inv in Ha as [Ho6 Hm6]; [|intros; by eapply apply_proxy_inv|exact Ho5].
  split; [done|]. eapply same_mesh_trans; [exact Hm2|]. eapply same_mesh_trans; [exact Hm4|].
  eapply same_mesh_trans; [exact Hm5|exact Hm6].
Qed.

(** ** A report of a registered peer is never refused *)
Lemma tx_iter_total {S A} (I : S → Prop) (f : A → tx S unit) l s :
  I s → (∀ x s, x ∈ l → I s → ∃ s', f x s = Ok (tt, s') ∧ I s') →
  ∃ s', tx_iter f l s = Ok (tt, s') ∧ I s'.
Proof.
  revert s. induction l as [|x l IH]; intros s HI Hf; cbn [tx_iter]; [by exists s|].
  destruct (Hf x s ltac:(left) HI) as (s1 & E & HI1).
  destruct (IH s1 HI1) as (s2 & E2 & HI2); [intros; apply Hf; [by right|done]|].
  exists s2. split; [|done]. apply tx_bind_Ok. eauto.
Qed.

Lemma ids_known db key i :
  db_ok db → peerIDsByPublicKey db !! key = Some i ↔
  ∃ p, p ∈ peers db ∧ p_public_key p = key ∧ p_id p = i.
Proof.
  intros H. pose proof (ok_peers _ H) as [Hn _]%peers_ok_spec. unfold peerIDsByPublicKey. clear H.
  assert (∀ (m : gmap string Z), (∀ p, p ∈ peers db → m !! p_public_key p = None) →
    foldl (λ m p, <[p_public_key p := p_id p]> m) m (peers db) !! key = Some i ↔
    m !! key = Some i ∨ ∃ p, p ∈ peers db ∧ p_public_key p = key ∧ p_id p = i) as Hg.
  { induction (peers db) as [|q l IH]; intros m Hm.
    - cbn. split; [by left|]. intros [?|(p & Hp & _)]; [done|]. by apply elem_of_nil in Hp.
    - cbn [foldl]. cbn [fmap list_fmap] in Hn. apply NoDup_cons in Hn as [Hq Hn]. rewrite IH.
      + rewrite lookup_insert_Some. setoid_rewrite elem_of_cons. split.
        * intros [[[<- <-]|[? ?]]|(p & ? & ? & ?)]; [right; eauto|by left|right; eauto].
        * intros [Hk|(p & [->|Hp] & <- & <-)]; [|left; by left|right; eauto].
          left. right. split; [|done]. intros <-. by rewrite Hm in Hk by left.
      + done.
      + intros p Hp. rewrite lookup_insert_ne; [apply Hm; by right|].
        intros E. apply Hq. rewrite E. by apply list_elem_of_fmap_2. }
  rewrite Hg by (intros; apply lookup_empty). rewrite lookup_empty. naive_solver.
Qed.

(** What the loops rely on: the reporter and the ids in the map are peers. *)
Definition report_ready (peerID : Z) (ids : gmap string Z) (db : DB) : Prop :=
  is_peer db peerID = true ∧ ∀ k i, ids !! k = Some i → is_peer db i = true.

Lemma ready_mesh peerID ids db db' :
  same_mesh db db' → report_ready peerID ids db → report_ready peerID ids db'.
Proof.
  intros Hm [H1 H2]. split; [by rewrite (same_mesh_is_peer db)|].
  intros k i Hk. rewrite (same_mesh_is_peer db) by done. eauto.
Qed.

Lemma apply_counter_total peerID at_ ids c db :
  report_ready peerID ids db → ∃ db', apply_counter peerID at_ ids c db = Ok (tt, db') ∧ same_mesh db db'.
Proof.
  intros [H1 H2]. unfold apply_counter. destruct (ids !! _) as [r|] eqn:E; [|by exists db].
  unfold upsert_link, links. rewrite H1, (H2 _ _ E). cbn [andb]. by eexists.
Qed.
Lemma apply_path_total peerID at_ ids prev p db :
  report_ready peerID ids db → ∃ db', apply_path peerID at_ ids prev p db = Ok (tt, db') ∧ same_mesh db db'.
Proof.
  intros [H1 H2]. unfold apply_path. destruct (ids !! _) as [r|] eqn:E; [|by exists db].
  unfold mbind, tx_bind, upsert_path, insert_event, links.
  destruct (connectionEventKind _ _); rewrite ?H1, ?(H2 _ _ E); cbn [andb].
  - change (is_peer (set_connection_events ?l db)) with (is_peer db). rewrite H1, (H2 _ _ E).
    cbn [andb]. by eexists.
  - unfold mret, tx_ret. rewrite H1, (H2 _ _ E). cbn [andb]. by eexists.
Qed.
Lemma apply_flow_total peerID at_ f db :
  is_peer db peerID = true → ∃ db', apply_flow peerID at_ f db = Ok (tt, db') ∧ same_mesh db db'.
Proof. intros H1. unfold apply_flow. rewrite H1. by eexists. Qed.
Lemma apply_proxy_total peerID at_ e db :
  is_peer db peerID = true → ∃ db', apply_proxy peerID at_ e db = Ok (tt, db') ∧ same_mesh db db'.
Proof. intros H1. unfold apply_proxy. rewrite H1. by eexists. Qed.

Lemma report_ready_start now peerID oip rq db :
  db_ok db → is_peer db peerID = true →
  report_ready peerID (peerIDsByPublicKey (reported now peerID oip rq db)) (reported now peerID oip rq db).
Proof.
  intros H Hp. set (s := reported now peerID oip rq db).
  assert (db_ok s) as Hs by (by apply reported_ok).
  assert (∀ i, is_peer s i = is_peer db i) as Ei.
  { intros i. unfold is_peer, s, reported. cbn [peers set_peers]. by rewrite fmap_update_where. }
  split; [by rewrite Ei|]. intros k i (p & Hin & _ & <-)%ids_known; [|done].
  apply is_peer_spec. eauto.
Qed.

Lemma iter_mesh_total {A} (P : DB → Prop) (f : A → tx DB unit) l s :
  (∀ a b, same_mesh a b → P a → P b) → P s →
  (∀ x s, x ∈ l → P s → ∃ s', f x s = Ok (tt, s') ∧ same_mesh s s') →
  ∃ s', tx_iter f l s = Ok (tt, s') ∧ same_mesh s s'.
Proof.
  intros HP Hs Hf.
  destruct (tx_iter_total (λ s', P s' ∧ same_mesh s s') f l s) as (s' & E & _ & Hm); [done|..|eauto].
  intros x s1 Hx [H1 H2]. destruct (Hf x s1 Hx H1) as (s2 & E & Hm). exists s2.
  split; [done|]. split; [by eapply HP|]. by eapply same_mesh_trans.
Qed.

(** The run of a report, loop by loop. *)
Lemma ApplyReport_run now peerID oip rq db :
  db_ok db → is_peer db peerID = true →
  let s1 := reported now peerID oip rq db in
  let ids := peerIDsByPublicKey s1 in
  ∃ s2 s4 s5 s6,
    tx_iter (apply_counter peerID (fmt_time now) ids) (rq_Counters rq) s1 = Ok (tt, s2)
    ∧ tx_iter (apply_path peerID (fmt_time now) ids (currentPathStates peerID s2)) (rq_PathStates rq) s2
      = Ok (tt, s4)
    ∧ tx_iter (apply_flow peerID (fmt_time now)) (rq_Flows rq) s4 = Ok (tt, s5)
    ∧ tx_iter (apply_proxy peerID (fmt_time now)) (rq_ProxyEvents rq) s5 = Ok (tt, s6)
    ∧ ApplyReport now peerID oip rq db = Ok (tt, s6) ∧ same_mesh s1 s6.
Proof.
  intros H Hp s1 ids. pose proof (report_ready_start now peerID oip rq db H Hp) as Hr.
  fold s1 in Hr. fold ids in Hr.
  destruct (iter_mesh_total (report_ready peerID ids) (apply_counter peerID (fmt_time now) ids)
    (rq_Counters rq) s1) as (s2 & E2 & M2); [apply ready_mesh|done|intros; by apply apply_counter_total|].
  pose proof (ready_mesh _ _ _ _ M2 Hr) as Hr2.
  destruct (iter_mesh_total (report_ready peerID ids)
    (apply_path peerID (fmt_time now) ids (currentPathStates peerID s2))
    (rq_PathStates rq) s2) as (s4 & E4 & M4); [apply ready_mesh|done|intros; by apply apply_path_total|].
  pose proof (ready_mesh _ _ _ _ M4 Hr2) as [Hp4 _].
  assert (∀ a b, same_mesh a b → is_peer a peerID = true → is_peer b peerID = true) as Hpm.
  { intros a b Hm Ha. by rewrite (same_mesh_is_peer a). }
  destruct (iter_mesh_total (λ s, is_peer s peerID = true) (apply_flow peerID (fmt_time now))
    (rq_Flows rq) s4) as (s5 & E5 & M5); [done|done|intros; by apply apply_flow_total|].
  destruct (iter_mesh_total (λ s, is_peer s peerID = true) (apply_proxy peerID (fmt_time now))
    (rq_ProxyEvents rq) s5) as (s6 & E6 & M6); [done|by eapply Hpm|intros; by apply apply_proxy_total|].
  exists s2, s4, s5, s6. repeat (split; [done|]). split.
  - unfold ApplyReport, mbind, tx_bind, tx_put, tx_get.
    fold (reported now peerID oip rq db). fold s1. fold ids. by rewrite E2, E4, E5.
  - eapply same_mesh_trans; [exact M2|]. eapply same_mesh_trans; [exact M4|].
    eapply same_mesh_trans; [exact M5|exact M6].
Qed.

(** ** Link counters *)

(** The row of a link after one more counter. *)
Definition add_counter (at_ : string) (row : option LinkRow) (c : PeerCounter) : option LinkRow :=
  Some match row with
  | None => mkLink (SInt (pc_RxBytes c)) (SInt (pc_TxBytes c)) (nullable (pc_LastHandshakeAt c)) at_
  | Some l => mkLink (sql_add (l_rx_bytes l) (SInt (pc_RxBytes c)))
                (sql_add (l_tx_bytes l) (SInt (pc_TxBytes c)))
                (keep (nullable (pc_LastHandshakeAt c)) (l_last_handshake_at l)) at_
  end.
Definition counters_for (ids : gmap string Z) (b : Z) (l : list PeerCounter) : list PeerCounter :=
  filter (λ c, ids !! pc_PeerPublicKey c = Some b) l.

Lemma counters_fold peerID at_ ids l s s' b :
  tx_iter (apply_counter peerID at_ ids) l s = Ok (tt, s') →
  link_stats s' !! (peerID, b) = foldl (add_counter at_) (link_stats s !! (peerID, b)) (counters_for ids b l).
Proof.
  revert s. induction l as [|c l IH]; intros s; cbn [tx_iter]; [by intros [= <-]|].
  intros (u & s1 & H1 & H2)%tx_bind_Ok. rewrite (IH s1 H2). unfold counters_for. rewrite filter_cons.
  unfold apply_counter in H1. destruct (ids !! pc_PeerPublicKey c) as [r|].
  - unfold upsert_link in H1. destruct (links s peerID r); [|done]. injection H1 as _ <-.
    cbn [link_stats set_link_stats]. case_decide as E.
    + injection E as ->. cbn [foldl]. rewrite lookup_insert_eq. done.
    + rewrite lookup_insert_ne by congruence. done.
  - injection H1 as _ <-. by rewrite decide_False by done.
Qed.

(** Nothing else in a report touches the counters. *)
Lemma iter_keeps {A B} (h : DB → B) (f : A → tx DB unit) l s s' :
  (∀ x s u s', f x s = Ok (u, s') → h s' = h s) → tx_iter f l s = Ok (tt, s') → h s' = h s.
Proof.
  intros Hf. apply (tx_iter_invariant (λ t, h t = h s)); [|done].
  intros x a u b Ha Hx. rewrite <- Ha. by eapply Hf.
Qed.
Lemma apply_path_links a at_ ids prev p s u s' :
  apply_path a at_ ids prev p s = Ok (u, s') → link_stats s' = link_stats s.
Proof.
  unfold apply_path. destruct (ids !! _); [|by intros [= <- <-]].
  intros (v & t & H1 & H2)%tx_bind_Ok. unfold upsert_path in H2. case_match; [|done].
  injection H2 as _ <-. cbn [link_stats set_peer_paths].
  destruct (connectionEventKind _ _); [|by injection H1 as _ <-].
  unfold insert_event in H1. case_match; [|done]. by injection H1 as _ <-.
Qed.
Lemma apply_flow_keeps a at_ f s u s' :
  apply_flow a at_ f s = Ok (u, s') →
  link_stats s' = link_stats s ∧ peer_paths s' = peer_paths s ∧ connection_events s' = connection_events s.
Proof. unfold apply_flow. case_match; [|done]. by intros [= <- <-]. Qed.
Lemma apply_proxy_keeps a at_ e s u s' :
  apply_proxy a at_ e s = Ok (u, s') →
  link_stats s' = link_stats s ∧ peer_paths s' = peer_paths s ∧ connection_events s' = connection_events s.
Proof. unfold apply_proxy. case_match; [|done]. by intros [= <- <-]. Qed.

Definition total (f : LinkRow → sqlnum) (row : option LinkRow) : sqlnum :=
  match row with Some l => f l | None => SInt 0 end.

Lemma sum_counters at_ row l old :
  total l_rx_bytes row = SInt old → 0 ≤ old ≤ int64_max →
  Forall (λ c, 0 ≤ pc_RxBytes c) l →
  old + foldr Z.add 0 (pc_RxBytes <$> l) ≤ int64_max →
  total l_rx_bytes (foldl (add_counter at_) row l) = SInt (old + foldr Z.add 0 (pc_RxBytes <$> l)).
Proof.
  revert row old. induction l as [|c l IH]; intros row old E Ho Hf Hs; cbn [foldl fmap list_fmap foldr] in *.
  - rewrite E. f_equal. lia.
  - apply Forall_cons in Hf as [Hc Hf].
    assert (0 ≤ foldr Z.add 0 (pc_RxBytes <$> l)) as Hpos.
    { clear -Hf. induction l as [|x l IH]; [done|]. apply Forall_cons in Hf as [? ?].
      cbn [fmap list_fmap foldr] in *. specialize (IH ltac:(done)). lia. }
    rewrite (IH _ (old + pc_RxBytes c)).
    + f_equal. lia.
    + destruct row as [r|]; cbn [total add_counter l_rx_bytes] in *.
      * rewrite E. cbn [sql_add]. unfold in_int64.
        assert (int64_min ≤ 0) by (unfold int64_min; lia).
        assert ((int64_min <=? old + pc_RxBytes c) && (old + pc_RxBytes c <=? int64_max) = true) as ->; [lia|done].
      * injection E as <-. f_equal.
    + lia.
    + done.
    + lia.
Qed.

(** ** Path states and connection events *)
Lemma NoDup_omap_keys peerID (l : list ((Z * Z) * PathRow)) :
  NoDup l.*1 →
  NoDup (omap (λ kv, if kv.1.1 =? peerID then Some (kv.1.2, pp_state kv.2) else None) l).*1.
Proof.
  induction l as [|[[a b] row] l IH]; [constructor|]. cbn [fmap list_fmap]. intros [Hn Hl]%NoDup_cons.
  change (omap ?h ((a, b, row) :: l)) with
    (match h (a, b, row) with Some z => z :: omap h l | None => omap h l end).
  cbn [fst snd]. destruct (Z.eqb_spec a peerID) as [->|]; [|by apply IH].
  cbn [fmap list_fmap]. apply NoDup_cons. split; [|by apply IH].
  intros ([b' st] & Eb & Hin)%list_elem_of_fmap. cbn in Eb. subst b'. apply Hn.
  apply list_elem_of_omap in Hin as ([[a' b'] row'] & Hin & E). cbn [fst snd] in E.
  destruct (Z.eqb_spec a' peerID) as [->|]; [|done]. injection E as -> _.
  apply list_elem_of_fmap. by exists (peerID, b, row').
Qed.

Lemma currentPathStates_lookup peerID db r :
  currentPathStates peerID db !! r = pp_state <$> peer_paths db !! (peerID, r).
Proof.
  apply option_eq. intros st. unfold currentPathStates.
  rewrite <- elem_of_list_to_map by (apply NoDup_omap_keys, NoDup_fst_map_to_list).
  rewrite list_elem_of_omap, fmap_Some. split.
  - intros ([[a b] row] & Hin & E). cbn [fst snd] in E. apply elem_of_map_to_list in Hin.
    destruct (Z.eqb_spec a peerID) as [->|]; [|done]. injection E as -> <-. eauto.
  - intros (row & Hr & ->). exists ((peerID, r), row). cbn [fst snd]. rewrite Z.eqb_refl.
    split; [by apply elem_of_map_to_list|done].
Qed.

(** What one reported state asks to be logged: the remote peer, the kind, the
    state before the report and the new one. *)
Definition transition : Type := Z * string * option string * string.
Definition transition_of (ids : gmap string Z) (prev : gmap Z string) (p : PeerPathState)
  : option transition :=
  r ← ids !! ps_PeerPublicKey p;
  k ← connectionEventKind (default "" (prev !! r)) (ps_State p);
  Some (r, k, nullable (default "" (prev !! r)), ps_State p).
Definition as_transition (e : ConnEvent) : transition :=
  (ce_remote_peer_id e, ce_kind e, ce_from_state e, ce_to_state e).
Definition states_for (ids : gmap string Z) (b : Z) (l : list PeerPathState) : list PeerPathState :=
  filter (λ p, ids !! ps_PeerPublicKey p = Some b) l.
Definition path_row (at_ : string) (p : PeerPathState) : PathRow :=
  mkPath (ps_State p) (nullable (ps_Endpoint p)) at_.

Lemma apply_path_step a at_ ids prev p s u s' :
  apply_path a at_ ids prev p s = Ok (u, s') →
  (∃ evs, connection_events s' = connection_events s ++ evs
     ∧ as_transition <$> evs = option_list (transition_of ids prev p)
     ∧ Forall (λ e, ce_reporter_peer_id e = a ∧ ce_at e = at_) evs)
  ∧ peer_paths s' = match ids !! ps_PeerPublicKey p with
      | Some r => <[(a, r) := path_row at_ p]> (peer_paths s)
      | None => peer_paths s
      end.
Proof.
  unfold apply_path, transition_of. destruct (ids !! _) as [r|].
  - intros (v & t & H1 & H2)%tx_bind_Ok. unfold upsert_path in H2. case_match; [|done].
    injection H2 as _ <-. rewrite bind_Some. cbn [connection_events peer_paths set_peer_paths].
    destruct (connectionEventKind _ _) as [k|].
    + unfold insert_event in H1. case_match; [|done]. injection H1 as _ <-.
      cbn [connection_events peer_paths set_connection_events]. split; [|done].
      eexists. split; [reflexivity|]. split; [reflexivity|]. by repeat constructor.
    + injection H1 as _ <-. split; [|done]. exists []. split; [by rewrite app_nil_r|]. done.
  - intros [= <- <-]. split; [|done]. exists []. split; [by rewrite app_nil_r|]. done.
Qed.

Lemma option_list_omap {A B} (f : A → option B) x l :
  option_list (f x) ++ omap f l = omap f (x :: l).
Proof. cbn. by destruct (f x). Qed.

Lemma paths_fold a at_ ids prev l s s' :
  tx_iter (apply_path a at_ ids prev) l s = Ok (tt, s') →
  (∃ evs, connection_events s' = connection_events s ++ evs
     ∧ as_transition <$> evs = omap (transition_of ids prev) l
     ∧ Forall (λ e, ce_reporter_peer_id e = a ∧ ce_at e = at_) evs)
  ∧ ∀ b, peer_paths s' !! (a, b) =
      match last (states_for ids b l) with
      | Some p => Some (path_row at_ p)
      | None => peer_paths s !! (a, b)
      end.
Proof.
  revert s. induction l as [|p l IH]; intros s; cbn [tx_iter].
  - intros [= <-]. split; [|done]. exists []. split; [by rewrite app_nil_r|]. done.
  - intros (u & s1 & H1 & H2)%tx_bind_Ok.
    destruct (IH s1 H2) as [(evs2 & E2 & T2 & F2) P2].
    destruct (apply_path_step _ _ _ _ _ _ _ _ H1) as [(evs1 & E1 & T1 & F1) P1]. split.
    + exists (evs1 ++ evs2). split; [by rewrite E2, E1, app_assoc|].
      split; [by rewrite fmap_app, T1, T2, option_list_omap|]. by apply Forall_app.
    + intros b. rewrite P2, P1. unfold states_for. rewrite filter_cons. case_decide as E.
      * rewrite last_cons. destruct (last (filter _ l)); [done|]. rewrite E.
        by rewrite lookup_insert_eq.
      * destruct (ids !! ps_PeerPublicKey p) as [r|]; [|done].
        rewrite lookup_insert_ne by congruence. done.
Qed.

(** ** Tokens *)
Definition token_unique (db : DB) : Prop := NoDup (omap p_auth_token_hash (peers db)).

Lemma auth_select c now token db p :
  p ∈ peers db → p_auth_token_hash p = Some (HashToken token) → p_revoked_at p = None →
  (∀ q, q ∈ peers db → p_auth_token_hash q = Some (HashToken token) → q = p) →
  AuthenticatePeer c now token db =
    if (0 <? TokenTTL c)
       && match p_auth_token_issued_at p with
          | Some at_ => match parse_time at_ with Some i => TokenTTL c <? now - i | None => false end
          | None => false
          end
    then Err (ErrUnauthorized ("token expired (issued " +:+ coalesce (p_auth_token_issued_at p) "" +:+ ")"))
    else Ok (p_id p, p_assigned_ip p).
Proof.
  intros Hp Ht Hr Hu. unfold AuthenticatePeer.
  rewrite (select1_unique _ (peers db) p Hp); [done|..].
  - rewrite Ht, Hr, !bool_decide_eq_true_2 by done. done.
  - intros q Hq [E _]%andb_true_iff. apply bool_decide_eq_true in E. by apply Hu.
Qed.

Lemma AuthenticatePeer_Ok c now token db id ip :
  AuthenticatePeer c now token db = Ok (id, ip) →
  ∃ p, p ∈ peers db ∧ p_auth_token_hash p = Some (HashToken token) ∧ p_revoked_at p = None ∧ p_id p = id.
Proof.
  unfold AuthenticatePeer. destruct (select1 _ (peers db)) as [p|] eqn:E; [|done].
  apply select1_Some in E as [Hp [H1%bool_decide_eq_true H2%bool_decide_eq_true]%andb_prop].
  case_match; [done|]. intros [= <- <-]. by exists p.
Qed.

Lemma auth_unknown c now token db :
  (∀ q, q ∈ peers db → p_auth_token_hash q = Some (HashToken token) → p_revoked_at q ≠ None) →
  AuthenticatePeer c now token db = Err (ErrUnauthorized "unknown or revoked peer token").
Proof.
  intros H. unfold AuthenticatePeer.
  assert (select1 (λ p, bool_decide (p_auth_token_hash p = Some (HashToken token))
    && bool_decide (p_revoked_at p = None)) (peers db) = None) as ->; [|done].
  apply select1_None. intros q Hq. specialize (H q Hq).
  do 2 case_bool_decide; try done. by destruct (H ltac:(done)).
Qed.
