(* ===== verification/Reports.v ===== *)
(** * Properties of reports, tokens and retention *)
From S2P Require Import Prelude GoText TimeText NetAddr NetFacts Codec Json Sha256 Schema SchemaFacts Alloc Enroll EnrollFacts Visibility Admin Telemetry TelemetryFacts.

Lemma ids_reported now peerID oip rq db :
  peerIDsByPublicKey (reported now peerID oip rq db) = peerIDsByPublicKey db.
Proof.
  unfold peerIDsByPublicKey, reported. cbn [peers set_peers]. generalize (∅ : gmap string Z).
  induction (peers db) as [|p l IH]; intros m; [done|].
  change (update_where ?f ?g (p :: l)) with ((if f p then g p else p) :: update_where f g l).
  cbn [foldl]. rewrite IH. by destruct (p_id p =? peerID).
Qed.

(** A report of a registered peer always commits, keeps the database invariant
    and the identity of all peers, and adds to each link the sum of the deltas
    reported for it, as long as the total fits in 64 bits. *)
Lemma ApplyReport_counters now peerID observedIP rq db b old :
  db_ok db → is_peer db peerID = true →
  total l_rx_bytes (link_stats db !! (peerID, b)) = SInt old → 0 ≤ old ≤ int64_max →
  let mine := counters_for (peerIDsByPublicKey db) b (rq_Counters rq) in
  Forall (λ c, 0 ≤ pc_RxBytes c) mine →
  old + foldr Z.add 0 (pc_RxBytes <$> mine) ≤ int64_max →
  ∃ db', run_tx (ApplyReport now peerID observedIP rq) db = (Ok tt, db')
    ∧ db_ok db' ∧ is_peer db' peerID = true ∧ peerIDsByPublicKey db' = peerIDsByPublicKey db
    ∧ total l_rx_bytes (link_stats db' !! (peerID, b)) = SInt (old + foldr Z.add 0 (pc_RxBytes <$> mine)).
Proof.
  intros H Hp Hold Ho mine Hpos Hsum.
  destruct (ApplyReport_run now peerID observedIP rq db H Hp)
    as (s2 & s4 & s5 & s6 & E2 & E4 & E5 & E6 & ER & Hm).
  exists s6. split; [by apply run_tx_Ok|]. split; [by eapply ApplyReport_inv|]. split_and!.
  - rewrite (same_mesh_is_peer _ _ _ Hm). unfold is_peer, reported. cbn [peers set_peers].
    by rewrite fmap_update_where.
  - rewrite <-(ids_reported now peerID observedIP rq db). unfold peerIDsByPublicKey.
    destruct Hm as (-> & _). done.
  - assert (link_stats s6 = link_stats s2) as ->.
    { rewrite (iter_keeps link_stats _ _ _ _ (λ x s u s' E, proj1 (apply_proxy_keeps _ _ x s u s' E)) E6),
        (iter_keeps link_stats _ _ _ _ (λ x s u s' E, proj1 (apply_flow_keeps _ _ x s u s' E)) E5).
      by apply (iter_keeps link_stats _ _ _ _ (λ x s u s' E, apply_path_links _ _ _ _ x s u s' E) E4). }
    rewrite (counters_fold _ _ _ _ _ _ b E2), ids_reported. fold mine. by apply sum_counters.
Qed.

(** A report leaves, for each remote peer it names, the last state reported
    for it, and logs exactly one connection event per reported transition into
    direct or from not relayed to relayed, judged against the states stored
    before the report. *)
Theorem report_paths_logged now peerID observedIP rq db :
  db_ok db → is_peer db peerID = true →
  let ids := peerIDsByPublicKey db in
  ∃ db' evs, run_tx (ApplyReport now peerID observedIP rq) db = (Ok tt, db')
    ∧ connection_events db' = connection_events db ++ evs
    ∧ as_transition <$> evs
      = omap (transition_of ids (currentPathStates peerID db)) (rq_PathStates rq)
    ∧ Forall (λ e, ce_reporter_peer_id e = peerID ∧ ce_at e = fmt_time now) evs
    ∧ ∀ b, peer_paths db' !! (peerID, b) =
        match last (states_for ids b (rq_PathStates rq)) with
        | Some p => Some (path_row (fmt_time now) p)
        | None => peer_paths db !! (peerID, b)
        end.
Proof.
  intros H Hp ids.
  destruct (ApplyReport_run now peerID observedIP rq db H Hp)
    as (s2 & s4 & s5 & s6 & E2 & E4 & E5 & E6 & ER & _).
  rewrite ids_reported in *. fold ids in E2, E4.
  assert (∀ h : DB → gmap (Z * Z) PathRow * list ConnEvent,
    h = (λ s, (peer_paths s, connection_events s)) → h s6 = h s4 ∧ h s2 = h db) as Hk.
  { intros h ->. split.
    - rewrite (iter_keeps (λ s, (peer_paths s, connection_events s)) (apply_proxy peerID (fmt_time now))
        (rq_ProxyEvents rq) s5 s6); [|intros x s u s' E; by destruct (apply_proxy_keeps _ _ _ _ _ _ E) as (_&->&->)|done].
      apply (iter_keeps (λ s, (peer_paths s, connection_events s)) (apply_flow peerID (fmt_time now))
        (rq_Flows rq) s4 s5); [|done]. intros x s u s' E. by destruct (apply_flow_keeps _ _ _ _ _ _ E) as (_&->&->).
    - rewrite (iter_keeps (λ s, (peer_paths s, connection_events s)) (apply_counter peerID (fmt_time now) ids)
        (rq_Counters rq) (reported now peerID observedIP rq db) s2); [done| |done].
      intros x s u s' E. unfold apply_counter, upsert_link in E. repeat case_match; try done; by injection E as _ <-. }
  destruct (Hk _ eq_refl) as [[= K1 K2] [= K3 K4]].
  destruct (paths_fold _ _ _ _ _ _ _ E4) as [(evs & Ev & Tr & Fa) P].
  assert (currentPathStates peerID s2 = currentPathStates peerID db) as Ec
    by (unfold currentPathStates; by rewrite K3).
  rewrite Ec in Tr. exists s6, evs. split; [by apply run_tx_Ok|].
  split; [by rewrite K2, Ev, K4|]. repeat (split; [done|]). intros b. by rewrite K1, P, K3.
Qed.

(** ** Tokens *)

(** No row holds the hash of this token. *)
Definition fresh_token (token : string) (db : DB) : Prop :=
  ∀ q, q ∈ peers db → p_auth_token_hash q ≠ Some (HashToken token).

Lemma AuthenticatePeer_row c now issued token db p :
  p ∈ peers db → p_auth_token_hash p = Some (HashToken token) → p_revoked_at p = None →
  p_auth_token_issued_at p = Some (fmt_time issued) → four_digit_year issued = true →
  (∀ q, q ∈ peers db → p_auth_token_hash q = Some (HashToken token) → q = p) →
  AuthenticatePeer c now token db =
    if (0 <? TokenTTL c) && (TokenTTL c <? now - Millisecond * (issued / Millisecond))
    then Err (ErrUnauthorized ("token expired (issued " +:+ fmt_time issued +:+ ")"))
    else Ok (p_id p, p_assigned_ip p).
Proof.
  intros Hp Ht Hr Hi Hy Hu. rewrite (auth_select c now token db p Hp Ht Hr Hu), Hi.
  by rewrite parse_fmt_time.
Qed.

(** The row an enrollment leaves carries the new token. *)
Lemma Enroll_token_row c now raw sk pk hn lp oip pep db r db' :
  db_ok db → Enroll c now raw sk pk hn lp oip pep db = Ok (r, db') →
  ∃ p, p ∈ peers db' ∧ p_id p = pr_ID (er_Peer r) ∧ p_assigned_ip p = pr_AssignedIP (er_Peer r)
     ∧ p_public_key p = pk
     ∧ p_auth_token_hash p = Some (HashToken (er_AuthToken r))
     ∧ p_auth_token_issued_at p = Some (fmt_time now)
     ∧ (∀ q, q ∈ peers db' → q = p ∨ q ∈ peers db)
     ∧ (p_revoked_at p = None ∨ ∃ q, q ∈ peers db ∧ p_public_key q = pk ∧ p_revoked_at q = p_revoked_at p).
Proof.
  intros H He. destruct (known_or_unknown pk db) as [Hu|(q & Hq & Epk)].
  - destruct (Enroll_new_inv _ _ _ _ _ _ _ _ _ _ _ _ H Hu He) as (k & ip & ip6 & _ & _ & _ & _ & -> & ->).
    eexists. split; [apply elem_of_app; right; left|]. repeat (split; [done|]).
    split; [|by left]. intros q [Hq| ->%list_elem_of_singleton]%elem_of_app; [by right|by left].
  - destruct (Enroll_known_inv _ _ _ _ _ _ _ _ _ _ _ _ _ H Hq Epk He)
      as (k & ip6 & _ & _ & _ & _ & _ & _ & -> & E1 & E2 & _ & _ & E4 & _).
    set (g := re_enroll_row (newAuthToken raw).2 (fmt_time now) ip6 hn oip pep lp).
    exists (g q). rewrite E1, E2, E4. split.
    { apply elem_of_update_where. exists q. split; [done|]. by rewrite Z.eqb_refl. }
    repeat (split; [done|]). split; [|right; by exists q].
    intros x (y & Hy & ->)%elem_of_update_where. destruct (Z.eqb_spec (p_id y) (p_id q)) as [E|E]; [|by right].
    left. f_equal. by apply (ids_ok_inj p_id (peers db)); [apply H|..].
Qed.

(** The token handed out at enrollment authenticates exactly the peer it
    was issued to, until it is older than the lifetime the server is configured
    with, and not after: for an agent that is not revoked and a token no other
    row holds. *)
Theorem enrolled_token_authenticates c now raw setupKey publicKey hostname listenPort observedIP publicEndpoint db r db' later :
  db_ok db →
  Enroll c now raw setupKey publicKey hostname listenPort observedIP publicEndpoint db = Ok (r, db') →
  fresh_token (er_AuthToken r) db →
  (∀ q, q ∈ peers db → p_public_key q = publicKey → p_revoked_at q = None) →
  four_digit_year now = true → 0 < TokenTTL c →
  AuthenticatePeer c later (er_AuthToken r) db' =
    if later - Millisecond * (now / Millisecond) <=? TokenTTL c
    then Ok (pr_ID (er_Peer r), pr_AssignedIP (er_Peer r))
    else Err (ErrUnauthorized ("token expired (issued " +:+ fmt_time now +:+ ")")).
Proof.
  intros H He Hf Hr Hy Ht.
  destruct (Enroll_token_row _ _ _ _ _ _ _ _ _ _ _ _ H He) as (p & Hp & E1 & E2 & _ & E3 & E4 & Hall & Hrev).
  assert (p_revoked_at p = None) as Hrp.
  { destruct Hrev as [?|(q & Hq & Epk & E)]; [done|]. rewrite <- E. by apply Hr. }
  rewrite (AuthenticatePeer_row c later now _ db' p Hp E3 Hrp E4 Hy).
  - rewrite E1, E2. destruct (Z.ltb_spec 0 (TokenTTL c)); [|lia]. cbn [andb].
    rewrite Z.ltb_antisym. by destruct (_ <=? _).
  - intros q Hq Eq. destruct (Hall q Hq) as [?|Hin]; [done|]. by destruct (Hf q Hin).
Qed.

(** ** Revocation *)
Lemma RevokePeer_Ok now id db u db' :
  RevokePeer now id db = Ok (u, db') →
  db' = set_peers (update_where (active_peer id) (set_p_revoked_at (Some (fmt_time now))) (peers db)) db
  ∧ ∃ p, p ∈ peers db ∧ p_id p = id ∧ p_revoked_at p = None.
Proof.
  unfold RevokePeer. case_match eqn:E; [done|]. intros [= <- <-]. split; [done|].
  assert (0 < count_where (active_peer id) (peers db)) as Hc.
  { assert (0 ≤ count_where (active_peer id) (peers db)) by (unfold count_where; lia).
    apply Z.eqb_neq in E. lia. }
  apply count_where_pos in Hc as (p & Hp & [Ei Er]%andb_true_iff).
  apply bool_decide_eq_true in Er. exists p. repeat split; [done|lia|done].
Qed.

Lemma revoked_after now id db u db' q :
  db_ok db → RevokePeer now id db = Ok (u, db') → q ∈ peers db' → p_id q = id → p_revoked_at q ≠ None.
Proof.
  intros H [-> (p & Hp & Hi & Hr)]%RevokePeer_Ok (y & Hy & ->)%elem_of_update_where.
  destruct (active_peer id y) eqn:A; [done|]. intros Eid.
  assert (y = p) as -> by (apply (ids_ok_inj p_id (peers db)); [apply H|done|done|congruence]).
  unfold active_peer in A. rewrite Eid, Z.eqb_refl, Hr in A. discriminate A.
Qed.

Lemma RevokePeer_db_ok now id db u db' : db_ok db → RevokePeer now id db = Ok (u, db') → db_ok db'.
Proof. intros H [-> _]%RevokePeer_Ok. by apply db_ok_update_same. Qed.

(** Revoking a peer cuts it off: it keeps its row and addresses, but its
    token no longer authenticates and no other peer's list holds it, whatever
    the policy and the rules. *)
Theorem revoke_cuts_off c now later id token db u db' :
  db_ok db → RevokePeer now id db = Ok (u, db') →
  (∀ q, q ∈ peers db → p_auth_token_hash q = Some (HashToken token) → p_id q = id) →
  AuthenticatePeer c later token db' = Err (ErrUnauthorized "unknown or revoked peer token")
  ∧ (∀ self da row, row ∈ listVisible self da db' → pr_ID row ≠ id)
  ∧ (p_assigned_ip <$> peers db') = (p_assigned_ip <$> peers db)
  ∧ db_ok db'.
Proof.
  intros H Hr Ht. pose proof (revoked_after now id db u db') as Hrev.
  pose proof (RevokePeer_db_ok _ _ _ _ _ H Hr) as H'.
  pose proof Hr as [E _]%RevokePeer_Ok. split; [|split; [|split; [|done]]].
  - apply auth_unknown. intros q Hq Eq. apply Hrev; [done..|].
    rewrite E in Hq. apply elem_of_update_where in Hq as (y & Hy & ->).
    destruct (active_peer id y) eqn:A; [|by apply Ht].
    unfold active_peer in A. cbn. lia.
  - intros self da row (p & Hp & Hv & ->)%listVisible_elem Ei. cbn in Ei.
    apply (Hrev p H Hr Hp Ei). unfold visible in Hv. rewrite !andb_true_iff in Hv.
    destruct Hv as [[Hv _] _]. by apply bool_decide_eq_true in Hv.
  - rewrite E. cbn [peers set_peers]. by apply fmap_update_where.
Qed.

(** ** Retention *)

(** Pruning keeps exactly the flows younger than the retention period:
    among rows stamped by the server, a row goes exactly when its millisecond
    lies before the cutoff's, and the number returned is the number removed. *)
Theorem prune_flows_exact now retention db n db' :
  PruneFlows now retention db = Ok (n, db') →
  (∀ f, f ∈ flows db → ∃ t, f_reported_at f = fmt_time t ∧ four_digit_year t = true) →
  four_digit_year (now - retention) = true →
  (∀ f t, f_reported_at f = fmt_time t → four_digit_year t = true →
     f ∈ flows db' ↔ f ∈ flows db ∧ (now - retention) / Millisecond ≤ t / Millisecond)
  ∧ n = Z.of_nat (length (flows db)) - Z.of_nat (length (flows db'))
  ∧ peers db' = peers db ∧ link_stats db' = link_stats db.
Proof.
  unfold PruneFlows. intros [= <- <-] Hst Hy. split; [|split; [|done]].
  - intros f t Ef Ht. cbn [flows set_flows]. rewrite elem_of_delete_where.
    unfold cutoff. rewrite Ef, fmt_time_lt by done. rewrite Z.ltb_ge. done.
  - cbn [flows set_flows]. unfold count_where, delete_where.
    induction (flows db) as [|f l IH]; [done|]. rewrite !filter_cons.
    specialize (IH ltac:(intros; apply Hst; by right)).
    destruct (str_lt (f_reported_at f) _); cbn [Is_true] in *;
      repeat case_decide; cbn [length] in *; try lia; tauto.
Qed.

(** ** Witnesses *)
Definition sample_report : ReportRequest :=
  mkReport "198.51.100.4:51820" [mkAgentCandidate "192.168.1.5:51820" "host"] "easy"
    [mkCounter "pubB" 100 7 ""; mkCounter "gone" 5 5 ""; mkCounter "pubB" 23 1 "2023-11-14T22:13:00Z"]
    [mkFlowRecord 6 "100.64.0.1" 40000 "100.64.0.2" 22 10 20 1 2]
    [mkPathState "pubB" "ws-relay" ""; mkPathState "pubC" "probing-direct" "";
     mkPathState "pubB" "direct" "198.51.100.9:51820"] [] false "v0.9.1".

Lemma sample_acl_ok : db_ok sample_acl_db.
Proof. apply db_okb_ok. vm_compute. reflexivity. Qed.

Lemma report_paths_logged_witness :
  ∃ db' evs, run_tx (ApplyReport sample_now 1 "203.0.113.9" sample_report) sample_acl_db = (Ok tt, db')
    ∧ connection_events db' = [] ++ evs
    ∧ as_transition <$> evs = [(2, "relay", None, "ws-relay"); (2, "direct", None, "direct")]
    ∧ Forall (λ e, ce_reporter_peer_id e = 1 ∧ ce_at e = fmt_time sample_now) evs
    ∧ peer_paths db' !! (1, 2) = Some (mkPath "direct" (Some "198.51.100.9:51820") (fmt_time sample_now)).
Proof.
  destruct (report_paths_logged sample_now 1 "203.0.113.9" sample_report sample_acl_db)
    as (db' & evs & H1 & H2 & H3 & H4 & H5).
  - exact sample_acl_ok.
  - vm_compute. reflexivity.
  - exists db', evs. split; [exact H1|]. split; [exact H2|].
    split; [rewrite H3; vm_compute; reflexivity|]. split; [exact H4|].
    rewrite H5. vm_compute. reflexivity.
Defined.

Definition sample_enrolled : EnrollResult * DB :=
  match Enroll sample_cfg sample_now sample_raw "k1" "pubB" "b" 51820 "" "" sample_db with
  | Ok p => p
  | Err _ => (mkEnrollResult (self_row sample_peer) [] false "", empty_db)
  end.
Lemma sample_enrolled_run :
  Enroll sample_cfg sample_now sample_raw "k1" "pubB" "b" 51820 "" "" sample_db = Ok sample_enrolled.
Proof. vm_compute. reflexivity. Qed.

Lemma enrolled_token_authenticates_witness :
  AuthenticatePeer sample_cfg (sample_now + Hour) (er_AuthToken sample_enrolled.1) sample_enrolled.2
  = Ok (2, "100.64.0.2").
Proof.
  rewrite (enrolled_token_authenticates sample_cfg sample_now sample_raw "k1" "pubB" "b" 51820 "" ""
    sample_db sample_enrolled.1 sample_enrolled.2 (sample_now + Hour)).
  - vm_compute. reflexivity.
  - exact sample_db_ok.
  - rewrite sample_enrolled_run. by destruct sample_enrolled.
  - intros q Hq. apply list_elem_of_singleton in Hq as ->. vm_compute. discriminate.
  - intros q Hq. apply list_elem_of_singleton in Hq as ->. reflexivity.
  - vm_compute. reflexivity.
  - vm_compute. reflexivity.
Defined.

Definition sample_revoked : DB := (run_tx (RevokePeer sample_now 2) sample_acl_db).2.
Lemma revoke_cuts_off_witness :
  AuthenticatePeer sample_cfg (sample_now + Hour) "tok" sample_revoked
    = Err (ErrUnauthorized "unknown or revoked peer token")
  ∧ (∀ self da row, row ∈ listVisible self da sample_revoked → pr_ID row ≠ 2)
  ∧ (p_assigned_ip <$> peers sample_revoked) = (p_assigned_ip <$> peers sample_acl_db)
  ∧ db_ok sample_revoked.
Proof.
  apply (revoke_cuts_off sample_cfg sample_now (sample_now + Hour) 2 "tok" sample_acl_db tt sample_revoked).
  - exact sample_acl_ok.
  - vm_compute. reflexivity.
  - intros q Hq. repeat (apply elem_of_cons in Hq as [->|Hq]; [vm_compute; discriminate|]).
    by apply elem_of_nil in Hq.
Defined.

Definition sample_flow (i t : Z) : FlowRec :=
  mkFlow i 1 6 "100.64.0.1" 1 "100.64.0.2" 22 1 1 1 1 (fmt_time t).
Definition sample_flow_db : DB :=
  set_flows [sample_flow 1 (sample_now - 48 * Hour); sample_flow 2 (sample_now - Hour)] sample_acl_db.
Lemma prune_flows_exact_witness :
  ∃ db', PruneFlows sample_now (24 * Hour) sample_flow_db = Ok (1, db')
    ∧ (sample_flow 2 (sample_now - Hour) ∈ flows db' ↔
       sample_flow 2 (sample_now - Hour) ∈ flows sample_flow_db
       ∧ (sample_now - 24 * Hour) / Millisecond ≤ (sample_now - Hour) / Millisecond).
Proof.
  exists (run_tx (PruneFlows sample_now (24 * Hour)) sample_flow_db).2.
  split; [vm_compute; reflexivity|].
  apply (prune_flows_exact sample_now (24 * Hour) sample_flow_db 1
    (run_tx (PruneFlows sample_now (24 * Hour)) sample_flow_db).2).
  - vm_compute. reflexivity.
  - intros f Hf. apply elem_of_cons in Hf as [->|Hf]; [by eexists|].
    apply list_elem_of_singleton in Hf as ->. by eexists.
  - vm_compute. reflexivity.
  - reflexivity.
  - vm_compute. reflexivity.
Defined.
