(* ===== verification/StoreMachine.v ===== *)
(** * The store as a state machine

    Every operation of internal/store that changes state, one constructor per
    operation; a step runs its transaction and keeps the old store when it
    fails.  The invariant [mesh_ok] holds in every state reachable from a newly
    created store. *)
From S2P Require Import Prelude GoText TimeText NetAddr NetFacts Codec Json Sha256 Schema SchemaFacts Alloc Enroll EnrollFacts Visibility Admin Acl ExitNode Invariants Network Dns Users Telemetry TelemetryFacts Reports.

(** ** One operation at a time *)
Lemma enroll_mesh now raw sk pk hn lp oip pep s r db' :
  mesh_ok s → Enroll (cfg s) now raw sk pk hn lp oip pep (sdb s) = Ok (r, db') →
  mesh_ok (mkStore (cfg s) db').
Proof.
  intros H He. pose proof (m_db _ H) as Hd. pose proof (m_nets _ H) as Hn.
  constructor; cbn [sdb cfg]; [by eapply Enroll_db_ok|done|..].
  - destruct (known_or_unknown pk (sdb s)) as [Hu|(q & Hq & Epk)].
    + destruct (Enroll_new_inv _ _ _ _ _ _ _ _ _ _ _ _ Hd Hu He) as (k & ip & ip6 & _ & _ & A & _ & _ & ->).
      intros p [Hp| ->%list_elem_of_singleton]%elem_of_app; [by apply (m_overlay _ H)|].
      by apply (allocate_overlay_hosts _ _ _ _ _ Hn A).
    + destruct (Enroll_known_inv _ _ _ _ _ _ _ _ _ _ _ _ _ Hd Hq Epk He)
        as (k & ip6 & _ & _ & _ & _ & Hb & _ & -> & _).
      intros p (x & Hx & ->)%elem_of_update_where. destruct (m_overlay _ H x Hx) as [O4 O6].
      destruct (p_id x =? p_id q); [|done]. split; [done|]. cbn. unfold nullable. intros a.
      case_decide as E; [apply O6|]. cbn. intros [= <-]. unfold backfill in Hb.
      destruct (v6Enabled (cfg s)) eqn:V; cbn [andb] in Hb; [|congruence].
      case_bool_decide; [|congruence]. split; [done|]. eapply allocateAddr_host; [|exact Hb]. by apply Hn.
  - eapply Enroll_key_budget; [exact Hd|apply H|exact He].
  - destruct (known_or_unknown pk (sdb s)) as [Hu|(q & Hq & Epk)].
    + destruct (Enroll_new_inv _ _ _ _ _ _ _ _ _ _ _ _ Hd Hu He) as (k & ip & ip6 & _ & _ & _ & _ & _ & ->).
      apply topology_snoc; [apply H|by left|done|done].
    + destruct (Enroll_known_inv _ _ _ _ _ _ _ _ _ _ _ _ _ Hd Hq Epk He)
        as (k & ip6 & _ & _ & _ & _ & _ & _ & -> & _).
      eapply topology_same; [|apply H]. by apply update_where_roles.
  - destruct (known_or_unknown pk (sdb s)) as [Hu|(q & Hq & Epk)].
    + destruct (Enroll_new_inv _ _ _ _ _ _ _ _ _ _ _ _ Hd Hu He) as (k & ip & ip6 & _ & _ & _ & _ & _ & ->).
      exact (m_rules _ H).
    + destruct (Enroll_known_inv _ _ _ _ _ _ _ _ _ _ _ _ _ Hd Hq Epk He)
        as (k & ip6 & _ & _ & _ & _ & _ & _ & -> & _). exact (m_rules _ H).
Qed.

Lemma create_key_mesh now raw name m e s r db' :
  mesh_ok s → CreateNamedSetupKey now raw name m e (sdb s) = Ok (r, db') → mesh_ok (mkStore (cfg s) db').
Proof.
  intros H Hc. pose proof (m_db _ H) as Hd. pose proof (CreateNamedSetupKey_db_ok _ _ _ _ _ _ _ _ Hd Hc) as Hd'.
  unfold CreateNamedSetupKey in Hc. apply tx_bind_Ok in Hc as (i & s1 & H1 & H2).
  injection H2 as _ <-. apply insert_key_Ok in H1 as (-> & -> & _).
  constructor; cbn [sdb cfg]; [done|apply H|apply (m_overlay _ H)| |apply (m_topology _ H)|apply (m_rules _ H)].
  intros k [Hk| ->%list_elem_of_singleton]%elem_of_app; [by apply (m_budget _ H)|].
  cbn [peers set_setup_keys k_id k_uses_consumed].
  assert (count_where (λ p, p_setup_key_id p =? next_id k_id (setup_keys (sdb s))) (peers (sdb s)) = 0) as ->; [|done].
  apply count_where_zero. intros p Hp.
  pose proof (ok_peers _ Hd) as (_&_&_&_&Hr)%peers_ok_spec. specialize (Hr p Hp).
  apply peer_refs_spec in Hr as ((k & Ek & Hk)%list_elem_of_fmap & _).
  pose proof (next_id_fresh k_id _ _ Hk). lia.
Qed.

Lemma candidates_mesh id js s u db' :
  mesh_ok s → UpdatePeerCandidates id js (sdb s) = Ok (u, db') → mesh_ok (mkStore (cfg s) db').
Proof.
  intros H. unfold UpdatePeerCandidates. case_decide.
  - intros [= _ <-]. by destruct s.
  - intros [= _ <-]. apply mesh_ok_same; [done|..].
    + apply db_ok_update_same; [apply H|done].
    + by apply update_where_identity.
    + apply keys_grow_refl.
    + exact (m_rules _ H).
Qed.
Lemma advertise_mesh id b s u db' :
  mesh_ok s → SetAdvertiseExitNode id b (sdb s) = Ok (u, db') → mesh_ok (mkStore (cfg s) db').
Proof.
  intros H [= _ <-]. apply mesh_ok_same; [done|..].
  - apply db_ok_update_same; [apply H|done].
  - by apply update_where_identity.
  - apply keys_grow_refl.
  - exact (m_rules _ H).
Qed.
Lemma revoke_peer_mesh now id s u db' :
  mesh_ok s → RevokePeer now id (sdb s) = Ok (u, db') → mesh_ok (mkStore (cfg s) db').
Proof.
  intros H Hr. pose proof (RevokePeer_db_ok _ _ _ _ _ (m_db _ H) Hr) as Hd.
  apply RevokePeer_Ok in Hr as [-> _]. apply mesh_ok_same; [done|done|..].
  - by apply update_where_identity.
  - apply keys_grow_refl.
  - exact (m_rules _ H).
Qed.
Lemma revoke_key_mesh now id s u db' :
  mesh_ok s → RevokeSetupKey now id (sdb s) = Ok (u, db') → mesh_ok (mkStore (cfg s) db').
Proof.
  intros H. unfold RevokeSetupKey. case_match; [done|]. intros [= _ <-].
  apply mesh_ok_same; [done|..].
  - assert (k_id <$> update_where (active_key id) (set_k_revoked_at (Some (fmt_time now)))
      (setup_keys (sdb s)) = k_id <$> setup_keys (sdb s)) as E by (by apply fmap_update_where).
    apply db_ok_keys; [apply H|rewrite E; apply H|by rewrite E|].
    pose proof (ok_keys _ (m_db _ H)) as [Hn Hc]%keys_ok_spec. apply keys_ok_spec. split.
    + by rewrite (fmap_update_where k_key).
    + intros k (k0 & Hk0 & ->)%elem_of_update_where. specialize (Hc k0 Hk0). by destruct (active_key id k0).
  - apply same_identity_list.
  - by apply keys_grow_update.
  - exact (m_rules _ H).
Qed.
Lemma remove_mesh id s u db' :
  mesh_ok s → RemovePeer id (sdb s) = Ok (u, db') → mesh_ok (mkStore (cfg s) db').
Proof. intros H. unfold RemovePeer. case_match; [done|]. intros [= _ <-]. by apply mesh_ok_delete. Qed.

(** ** Addresses set by the operator *)
Lemma validateOverlayAddr_host field raw prefix a :
  net_ok prefix = true → validateOverlayAddr field raw prefix true = Ok a →
  is_host prefix (addr_string a) ∧ addr_valid a = true.
Proof.
  intros Hn. unfold validateOverlayAddr. case_decide; [done|].
  destruct (ParseAddr _) as [b|] eqn:P; [|done].
  destruct (Contains prefix b) eqn:C; [|done]. cbn [negb]. case_bool_decide as E; [done|].
  case_match; [done|]. intros [= <-]. split; [|by eapply ParseAddr_wf].
  pose proof (ParseAddr_wf _ _ P) as [Hv Hw].
  destruct (Contains_is_host prefix b Hn C) as (k & Hk & ->). exists k. split; [|done].
  destruct (decide (k = 0)) as [->|]; [|lia]. destruct E. by rewrite host_0.
Qed.

Lemma UpdatePeerAddress_Ok c id ip ip6 db r db' :
  UpdatePeerAddress c id ip ip6 db = Ok (r, db') →
  ∃ a4 a6, validateOverlayAddr "assigned_ip" ip (network c) true = Ok a4
    ∧ (if v6Enabled c then validateOverlayAddr "assigned_ip6" ip6 (Network6 c) true = Ok a6 else a6 = NoAddr)
    ∧ let ps := update_where (active_peer id) (λ p, set_p_assigned_ip (addr_string a4)
        (set_p_assigned_ip6 (if addr_valid a6 then Some (addr_string a6) else None) p)) (peers db) in
      peers_ok (setup_keys db) ps = true ∧ db' = set_peers ps db
    ∧ 0 < count_where (active_peer id) (peers db).
Proof.
  unfold UpdatePeerAddress. intros H. apply tx_bind_Ok in H as (a4 & s1 & H1 & H).
  unfold tx_lift at 1 in H1. destruct (validateOverlayAddr "assigned_ip" _ _ _) as [a|] eqn:V4; [|done].
  injection H1 as -> ->. apply tx_bind_Ok in H as (a6 & s2 & H2 & H).
  assert (s2 = s1 ∧ if v6Enabled c then validateOverlayAddr "assigned_ip6" ip6 (Network6 c) true = Ok a6
    else a6 = NoAddr) as [-> V6].
  { destruct (v6Enabled c).
    - unfold tx_lift in H2. destruct (validateOverlayAddr "assigned_ip6" _ _ _) as [b|] eqn:Vb in H2; [|done].
      rewrite Vb. by simplify_eq.
    - case_decide; [|done]. by injection H2 as <- <-. }
  apply tx_bind_Ok in H as (u3 & s3 & [_ ->]%tx_query_Ok & H).
  apply tx_bind_Ok in H as (u4 & s4 & H4 & H).
  assert (s4 = s1) as ->. { destruct (addr_valid a6); [by apply tx_query_Ok in H4 as [_ ->]|unfold mret, tx_ret in H4; by simplify_eq]. }
  apply tx_bind_Ok in H as (ps & s5 & [= <- <-] & H).
  apply tx_bind_Ok in H as (u6 & s6 & H6 & H).
  unfold put_peers in H6. destruct (peers_ok _ _) eqn:Pk; [|done]. injection H6 as _ <-.
  assert (0 ≤ count_where (active_peer id) (peers s1)) by (unfold count_where; lia).
  destruct (Z.eqb_spec (count_where (active_peer id) (peers s1)) 0); [done|].
  apply tx_query_Ok in H as [_ ->]. exists a4, a6. split; [done|]. split; [done|]. split; [exact Pk|]. split; [done|lia].
Qed.

Lemma update_address_mesh id ip ip6 s r db' :
  mesh_ok s → UpdatePeerAddress (cfg s) id ip ip6 (sdb s) = Ok (r, db') → mesh_ok (mkStore (cfg s) db').
Proof.
  intros H (a4 & a6 & V4 & V6 & Pk & -> & _)%UpdatePeerAddress_Ok.
  destruct (m_nets _ H) as [N4 N6]. pose proof (m_db _ H) as Hd.
  constructor; cbn [sdb cfg]; [|apply H|..|exact (m_rules _ H)].
  - apply db_ok_update_peers; [done| |done]. by apply fmap_update_where.
  - intros p (x & Hx & ->)%elem_of_update_where. destruct (active_peer id x); [|by apply (m_overlay _ H)].
    split; [by apply (validateOverlayAddr_host _ _ _ _ N4 V4)|]. cbn. intros a Ha.
    destruct (v6Enabled (cfg s)) eqn:E6.
    + destruct (validateOverlayAddr_host _ _ _ _ (N6 eq_refl) V6) as [Hh Hv]. rewrite Hv in Ha.
      by injection Ha as <-.
    + subst a6. discriminate Ha.
  - eapply budget_same; [by apply update_where_roles|apply keys_grow_refl|apply H].
  - eapply topology_same; [|apply H]. by apply update_where_roles.
Qed.

(** ** Exit nodes *)

(** What [SetExitNode] has checked when it succeeds. *)
Lemma SetExitNode_Ok id exit db r db' :
  SetExitNode id exit db = Ok (r, db') →
  ∃ p, peer_by_id id db = Some p ∧ p_revoked_at p = None ∧ agent p
    ∧ let new := if exit =? 0 then None else Some exit in
      let ps := update_where (λ q, p_id q =? id) (set_p_exit_node_peer_id new) (peers db) in
      peers_ok (setup_keys db) ps = true ∧ db' = set_peers ps db
    ∧ (exit ≠ 0 → exit ≠ id ∧ ∃ e, peer_by_id exit db = Some e ∧ p_revoked_at e = None ∧ agent e
         ∧ p_advertise_exit_node e = true ∧ default 0 (p_exit_node_peer_id e) = 0
         ∧ ∀ q, q ∈ peers db → p_exit_node_peer_id q = Some id → p_revoked_at q ≠ None).
Proof.
  unfold SetExitNode. destruct ((id =? exit) && negb (exit =? 0)) eqn:Eself; [done|].
  intros H. apply tx_bind_Ok in H as (o & s0 & [= <- <-] & H).
  destruct (peer_by_id id db) as [p|] eqn:Ep; [|done].
  case_bool_decide as Hr; [done|]. destruct (bool_decide (p_peer_type p = "agent")) eqn:Ta; [|done].
  apply bool_decide_eq_true in Ta. cbn [negb] in H.
  apply tx_bind_Ok in H as (ex & s1 & H1 & H). apply tx_bind_Ok in H as (ps & s2 & [= <- <-] & H).
  apply tx_bind_Ok in H as (u & s3 & H3 & H). injection H as _ <-.
  assert (s1 = db ∧ (exit ≠ 0 → ∃ e, peer_by_id exit db = Some e ∧ p_revoked_at e = None ∧ agent e
      ∧ p_advertise_exit_node e = true ∧ default 0 (p_exit_node_peer_id e) = 0
      ∧ count_where (exit_client id) (peers db) = 0)) as [-> He].
  { destruct (Z.eqb_spec exit 0) as [->|Hne]; [by injection H1 as _ <-|].
    apply tx_bind_Ok in H1 as (o & s4 & [= <- <-] & H1). destruct (peer_by_id exit db) as [e|]; [|done].
    case_bool_decide as Hre; [done|]. destruct (bool_decide (p_peer_type e = "agent")) eqn:Te; [|done].
    apply bool_decide_eq_true in Te. cbn [negb] in H1.
    destruct (p_advertise_exit_node e) eqn:Ad; [|done]. cbn [negb] in H1.
    destruct (Z.eqb_spec (default 0 (p_exit_node_peer_id e)) 0) as [E0|]; [|done]. cbn [negb] in H1.
    apply tx_bind_Ok in H1 as (n & s5 & [= <- <-] & H1).
    assert (0 ≤ count_where (exit_client id) (peers db)) by (unfold count_where; lia).
    destruct (Z.ltb_spec 0 (count_where (exit_client id) (peers db))); [done|].
    injection H1 as _ <-. split; [done|]. intros _. exists e.
    assert (p_revoked_at e = None) by done.
    repeat split; try done. lia. }
  unfold put_peers in H3. destruct (peers_ok _ _) eqn:Pk; [|done]. injection H3 as _ <-.
  exists p. split; [done|].
  split; [done|]. split; [done|].
  split; [done|]. split; [done|]. intros Hne. split; [lia|].
  destruct (He Hne) as (e & ? & ? & ? & ? & ? & Hc). exists e. repeat (split; [done|]).
  intros q Hq Eq Rq. rewrite count_where_zero in Hc. specialize (Hc q Hq).
  unfold exit_client in Hc. rewrite Eq, Rq, !bool_decide_eq_true_2 in Hc by done. done.
Qed.

Lemma exit_mesh id exit s r db' :
  mesh_ok s → SetExitNode id exit (sdb s) = Ok (r, db') → mesh_ok (mkStore (cfg s) db').
Proof.
  intros H (p & Ep & Rp & Ap & Pk & -> & Hex)%SetExitNode_Ok.
  set (new := if exit =? 0 then None else Some exit) in *. pose proof (m_db _ H) as Hd.
  apply peer_by_id_Some in Ep as [Hp Ip].
  constructor; cbn [sdb cfg]; [|apply H|..|exact (m_rules _ H)].
  - apply db_ok_update_peers; [done| |done]. by apply fmap_update_where.
  - intros q (x & Hx & ->)%elem_of_update_where. destruct (m_overlay _ H x Hx).
    by destruct (p_id x =? id).
  - intros k Hk. cbn [peers set_peers]. rewrite count_where_update by done. by apply (m_budget _ H).
  - intros q (x & Hx & ->)%elem_of_update_where. pose proof (m_topology _ H x Hx) as (T1 & T2 & T3).
    assert (∀ y, y ∈ peers (sdb s) → ∃ z, z ∈ update_where (λ q, p_id q =? id)
      (set_p_exit_node_peer_id new) (peers (sdb s)) ∧ p_id z = p_id y ∧ p_peer_type z = p_peer_type y
      ∧ (p_id y ≠ id → z = y)) as Hmap.
    { intros y Hy. exists (if p_id y =? id then set_p_exit_node_peer_id new y else y).
      split; [apply elem_of_update_where; by exists y|]. by destruct (Z.eqb_spec (p_id y) id). }
    unfold row_topology, agent. cbn [peers set_peers].
    assert (∀ g, p_gateway_peer_id x = Some g → p_peer_type x = "static" ∧
      ∃ q, q ∈ update_where (λ q, p_id q =? id) (set_p_exit_node_peer_id new) (peers (sdb s))
        ∧ p_id q = g ∧ p_peer_type q = "agent") as T2'.
    { intros g Hg. destruct (T2 g Hg) as (? & y & Hy & Ey & Ay). split; [done|].
      destruct (Hmap y Hy) as (z & ? & ? & Ez & _). exists z. unfold agent in Ay. repeat split; congruence. }
    destruct (Z.eqb_spec (p_id x) id) as [Ei|Ei].
    + assert (x = p) as -> by (apply (ids_ok_inj p_id (peers (sdb s))); [apply Hd|done|done|congruence]).
      cbn. split; [by left|]. split; [exact T2'|]. intros e He. split; [done|].
      unfold new in He. destruct (Z.eqb_spec exit 0); [done|]. injection He as <-.
      destruct (Hex n) as (Hne & e & Ee & Re & Ae & _ & E0 & _). split; [lia|].
      apply peer_by_id_Some in Ee as [He Ie]. destruct (Hmap e He) as (z & Hz & Iz & Tz & Zz).
      exists z. rewrite Zz in * by lia. split; [done|]. split; [done|]. split; [done|]. intros _.
      pose proof (m_topology _ H e He) as (_ & _ & T3e).
      destruct (p_exit_node_peer_id e) as [v|] eqn:Ev; [|done]. change (v = 0) in E0. subst v.
      destruct (T3e 0 eq_refl) as (_ & _ & w & Hw & Iw & _). pose proof (peer_id_pos _ _ Hd Hw). lia.
    + split; [done|]. split; [exact T2'|]. intros e He. destruct (T3 e He) as (? & ? & y & Hy & Ey & Ay & Ny).
      split; [done|]. split; [done|]. destruct (Hmap y Hy) as (z & Hz & Iz & Tz & Zz).
      exists z. unfold agent in Ay. split; [done|]. split; [congruence|]. split; [congruence|].
      intros Rx. destruct (decide (p_id y = id)) as [Eyi|]; [|rewrite Zz by done; auto].
      destruct (Z.eqb_spec exit 0) as [E0|E0].
      * apply elem_of_update_where in Hz as (z0 & Hz0 & ->). rewrite Eyi in Iz.
        destruct (Z.eqb_spec (p_id z0) id); [done|]. congruence.
      * destruct (Hex E0) as (_ & _ & _ & _ & _ & _ & _ & Hno).
        destruct (Hno x Hx); [|done]. congruence.
Qed.

(** ** Static peers *)
Lemma CreateStaticPeer_Ok c now rk rt spec db r db' :
  db_ok db → CreateStaticPeer c now rk rt spec db = Ok (r, db') →
  ∃ k g ip ip6 p, db_ok db'
    ∧ setup_keys db' = setup_keys db ++ [k] ∧ peers db' = peers db ++ [p]
    ∧ peer_by_id (sp_GatewayPeerID spec) db = Some g ∧ p_revoked_at g = None ∧ agent g
    ∧ k_id k = next_id k_id (setup_keys db) ∧ k_uses_consumed k = 1
    ∧ allocate_overlay c db = Ok (ip, ip6, db)
    ∧ acl_rules db' = acl_rules db
    ∧ p_id p = next_id p_id (peers db) ∧ p_setup_key_id p = k_id k
    ∧ p_public_key p = TrimSpace (sp_PublicKey spec)
    ∧ p_assigned_ip p = ip ∧ p_assigned_ip6 p = nullable ip6
    ∧ p_peer_type p = "static" ∧ p_gateway_peer_id p = Some (sp_GatewayPeerID spec)
    ∧ p_exit_node_peer_id p = None.
Proof.
  intros Hd. unfold CreateStaticPeer. case_decide; [done|]. destruct (_ <=? 0); [done|].
  intros H0. apply tx_bind_Ok in H0 as (o & s0 & [= <- <-] & H0).
  destruct (peer_by_id _ db) as [g|] eqn:Eg; [|done]. case_bool_decide as Rg; [done|].
  destruct (bool_decide (p_peer_type g = "agent")) eqn:Tg; [|done].
  apply bool_decide_eq_true in Tg. cbn [negb] in H0.
  apply tx_bind_Ok in H0 as (o & s0 & [= <- <-] & H0).
  destruct (select1 _ (peers db)) as [q|]; [done|].
  apply tx_bind_Ok in H0 as (ki & s1 & H1 & H0).
  assert (db_ok s1) as Hd1 by (by eapply (db_ok_insert_key db); [..|exact H1]).
  apply insert_key_Ok in H1 as (-> & -> & _).
  apply tx_bind_Ok in H0 as ([ip ip6] & s2 & H2 & H0).
  pose proof H2 as (_ & -> & _)%allocate_overlay_Ok.
  unfold newAuthToken in H0. apply tx_bind_Ok in H0 as (pid & s3 & H3 & [_ ->]%tx_query_Ok).
  assert (db_ok s3) as Hd3 by (by eapply db_ok_insert_peer; [exact Hd1|..|exact H3]).
  apply insert_peer_Ok in H3 as (-> & -> & _).
  apply allocate_overlay_Ok in H2 as (A4 & _ & A6).
  eexists _, g, ip, ip6, _. split; [done|]. split; [reflexivity|]. split; [reflexivity|].
  repeat (split; [done|]). split; [by apply allocate_overlay_Ok|done].
Qed.

Lemma static_mesh now rk rt spec s r db' :
  mesh_ok s → CreateStaticPeer (cfg s) now rk rt spec (sdb s) = Ok (r, db') → mesh_ok (mkStore (cfg s) db').
Proof.
  intros H Hc. pose proof (m_db _ H) as Hd.
  destruct (CreateStaticPeer_Ok _ _ _ _ _ _ _ _ Hd Hc)
    as (k & g & ip & ip6 & p & Hd' & Ek & Ep & Eg & Rg & Ag & Ik & Uk & A & Er & Ip & Kp & _ & I4 & I6 & Tp & Gp & Xp).
  constructor; cbn [sdb cfg]; [done|apply H|..].
  - intros q. rewrite Ep. intros [Hq| ->%list_elem_of_singleton]%elem_of_app; [by apply (m_overlay _ H)|].
    unfold row_overlay. rewrite I4, I6. by apply (allocate_overlay_hosts _ _ _ _ _ (m_nets _ H) A).
  - intros k'. rewrite Ek, Ep, count_where_snoc, Kp. intros [Hk'| ->%list_elem_of_singleton]%elem_of_app.
    + pose proof (m_budget _ H k' Hk'). pose proof (next_id_fresh k_id _ _ Hk').
      destruct (Z.eqb_spec (k_id k) (k_id k')); lia.
    + rewrite Z.eqb_refl, Uk.
      assert (count_where (λ q, p_setup_key_id q =? k_id k) (peers (sdb s)) = 0) as ->; [|done].
      apply count_where_zero. intros q Hq.
      pose proof (ok_peers _ Hd) as (_&_&_&_&Hr)%peers_ok_spec. specialize (Hr q Hq).
      apply peer_refs_spec in Hr as ((k0 & Ek0 & Hk0)%list_elem_of_fmap & _).
      pose proof (next_id_fresh k_id _ _ Hk0). lia.
  - rewrite Ep. apply topology_snoc; [apply H|by right|done|]. rewrite Gp. intros g' [= <-].
    split; [done|]. apply peer_by_id_Some in Eg as [? ?]. by exists g.
  - intros q. rewrite Er. apply (m_rules _ H).
Qed.

(** ** Reports, and the tables the invariant does not look at *)
Lemma report_mesh now id oip rq s u db' :
  mesh_ok s → ApplyReport now id oip rq (sdb s) = Ok (u, db') → mesh_ok (mkStore (cfg s) db').
Proof.
  intros H Ha. destruct (ApplyReport_inv _ _ _ _ _ _ _ (m_db _ H) Ha) as [Hd (Ep & Ek & Er & _)].
  apply mesh_ok_same; [done|done|..].
  - rewrite Ep. by apply update_where_identity.
  - rewrite Ek. apply keys_grow_refl.
  - intros r. rewrite Er. apply (m_rules _ H).
Qed.
Lemma rules_mesh s db' :
  mesh_ok s → db_ok db' → rules_ok db' → peers db' = peers (sdb s) → setup_keys db' = setup_keys (sdb s) →
  mesh_ok (mkStore (cfg s) db').
Proof.
  intros H Hd Hr Ep Ek. apply mesh_ok_same; [done|done|..|done].
  - rewrite Ep. apply same_identity_list.
  - rewrite Ek. apply keys_grow_refl.
Qed.
Lemma insertACLRule_keeps now rule db i db' :
  insertACLRule now rule db = Ok (i, db') → peers db' = peers db ∧ setup_keys db' = setup_keys db.
Proof. by intros (r & _ & _ & _ & _ & _ & -> & _)%insertACLRule_Ok. Qed.
Lemma ImportACLRules_keeps now rules b db n db' :
  ImportACLRules now rules b db = Ok (n, db') → peers db' = peers db ∧ setup_keys db' = setup_keys db.
Proof.
  unfold ImportACLRules. intros H. apply tx_bind_Ok in H as (u & s1 & H1 & H).
  apply tx_bind_Ok in H as (u2 & s2 & H2 & H). injection H as _ <-.
  assert (peers s1 = peers db ∧ setup_keys s1 = setup_keys db) as [E1 E2].
  { destruct b; by injection H1 as _ <-. }
  rewrite <- E1, <- E2.
  apply (tx_iter_invariant (λ s, peers s = peers s1 ∧ setup_keys s = setup_keys s1) _ _ _ _ _) in H2; [done| |done].
  intros x s u3 s' [Hp Hk] Hx. apply tx_bind_Ok in Hx as (j & s3 & Hx & Hm). injection Hm as _ <-.
  apply insertACLRule_keeps in Hx as [-> ->]. done.
Qed.

Lemma dns_mesh c s r db' :
  mesh_ok s → UpdateDNSConfig c (sdb s) = Ok (r, db') → mesh_ok (mkStore (cfg s) db').
Proof.
  intros H Hc. unfold UpdateDNSConfig in Hc.
  apply tx_bind_Ok in Hc as (c1 & s1 & H1 & Hc). apply tx_bind_Ok in Hc as (u & s2 & H2 & Hc).
  injection Hc as _ <-. unfold tx_lift in H1. destruct (NormalizeDNSConfig c); [|done].
  injection H1 as _ <-. injection H2 as _ <-. apply mesh_ok_peers_eq; [done|..|done|done|done].
  destruct (m_db _ H). by constructor.
Qed.

(** ** Migration *)
Lemma roles_of_columns l l' :
  (∀ (B : Type) (h : Peer → B), (∀ a b p, h (set_addrs a b p) = h p) → h <$> l' = h <$> l) →
  Forall2 same_roles l l'.
Proof.
  intros Hh.
  pose proof (Hh _ (λ p, (p_id p, p_peer_type p, p_gateway_peer_id p, p_exit_node_peer_id p,
    p_setup_key_id p, p_revoked_at p)) ltac:(done)) as E. clear Hh.
  revert l' E. induction l as [|p l IH]; intros [|q l'] E; try discriminate; [constructor|].
  cbn [fmap list_fmap] in E. injection E as E1 E2 E3 E4 E5 E6 E. constructor; [|by apply IH].
  constructor; congruence.
Qed.
Lemma migration_run t4 t6 s :
  db_ok (sdb s) → column_parses column_ip (sdb s) → column_parses column_ip6 (sdb s) →
  net_ok (Masked t4) = true → net_ok (Masked t6) = true →
  let n := length (peers (sdb s)) in
  Z.of_nat n < host_span (Masked t4) → Z.of_nat n < host_span (Masked t6) →
  ∃ plan db',
    ApplyNetworkMigration t4 t6 s = (Ok plan, mkStore (setNetworks (Masked t4) (Masked t6) (cfg s)) db')
    ∧ db_ok db' ∧ p_assigned_ip <$> peers db' = hosts_text (Masked t4) n
    ∧ p_assigned_ip6 <$> peers db' = Some <$> hosts_text (Masked t6) n
    ∧ Forall2 same_roles (peers (sdb s)) (peers db')
    ∧ setup_keys db' = setup_keys (sdb s) ∧ acl_rules db' = acl_rules (sdb s).
Proof.
  intros H P4 P6 N4 N6 n S4 S6.
  destruct (migration_run_full t4 t6 s H P4 P6 N4 N6 S4 S6)
    as (plan & db' & R & Hd & C4 & C6 & Hh & Ek & Er & _).
  exists plan, db'. repeat (split; [done|]). split; [by apply roles_of_columns|done].
Qed.
Lemma migrate_mesh t4 t6 s :
  mesh_ok s → net_ok (Masked t4) = true → net_ok (Masked t6) = true → v6Enabled (setNetworks (Masked t4) (Masked t6) (cfg s)) = true →
  mesh_ok (ApplyNetworkMigration t4 t6 s).2.
Proof.
  intros H N4 N6 V6. destruct (overlay_parses _ _ (m_nets _ H) (m_overlay _ H)) as [P4 P6].
  set (n := length (peers (sdb s))).
  destruct (decide (Z.of_nat n < host_span (Masked t4) ∧ Z.of_nat n < host_span (Masked t6))) as [[S4 S6]|Hno].
  - destruct (migration_run t4 t6 s (m_db _ H) P4 P6 N4 N6 S4 S6)
      as (plan & db' & -> & Hd & C4 & C6 & HF & Ek & Er). cbn [snd]. fold n in C4, C6.
    pose proof (net_ok_Masked _ N4) as M4. pose proof (net_ok_Masked _ N6) as M6.
    constructor; cbn [sdb cfg]; [done|..].
    + split; cbn [network Network6 setNetworks]; [by rewrite M4|intros _; by rewrite M6].
    + assert (∀ net i x, net_ok net = true → Z.of_nat n < host_span net →
        hosts_text net n !! i = Some x → is_host net x) as Hh.
      { intros net i x _ Hs Hx. apply list_elem_of_lookup_2, list_elem_of_fmap in Hx as (k & -> & Hk%elem_of_seqZ).
        exists k. split; [lia|done]. }
      intros p [i Hi]%list_elem_of_lookup. unfold row_overlay. cbn [network Network6 setNetworks]. rewrite M4, M6.
      split.
      * apply (Hh _ i); [done..|]. rewrite <- C4, list_lookup_fmap, Hi. done.
      * intros a Ea. split; [done|]. apply (Hh _ i); [done..|].
        assert ((p_assigned_ip6 <$> peers db') !! i = Some (Some a)) as E by (rewrite list_lookup_fmap, Hi; cbn; by rewrite Ea).
        rewrite C6, list_lookup_fmap in E. destruct (hosts_text (Masked t6) n !! i) as [y|]; [|done].
        cbn in E. congruence.
    + eapply budget_same; [exact HF|rewrite Ek; apply keys_grow_refl|apply H].
    + eapply topology_same; [exact HF|apply H].
    + intros r. rewrite Er. apply (m_rules _ H).
  - destruct (decide (n = 0%nat)) as [E0|E0].
    + destruct (net_ok_elim _ N4) as (_ & _ & _ & _ & ? & _), (net_ok_elim _ N6) as (_ & _ & _ & _ & ? & _).
      destruct Hno. rewrite E0. lia.
    + destruct (migration_refused t4 t6 s N4 N6) as [e ->]; [fold n; lia|fold n; lia|]. done.
Qed.

(** ** The machine *)
Section machine.
Context (IDKey : list Z → list Z → Z → Z → Z → Z → list Z).

Inductive op : Type :=
| OpCreateKey (now : Z) (raw : list Z) (name : string) (maxUses expiresIn : Z)
| OpEnroll (now : Z) (raw : list Z) (setupKey publicKey hostname : string) (listenPort : Z)
    (observedIP publicEndpoint : string)
| OpCandidates (peerID : Z) (json : string)
| OpRevokePeer (now id : Z)
| OpRevokeKey (now id : Z)
| OpRemovePeer (id : Z)
| OpUpdateAddress (id : Z) (ip ip6 : string)
| OpCreateRule (now : Z) (rule : ACLRule)
| OpImportRules (now : Z) (rules : list ACLRule) (replace : bool)
| OpDeleteRule (id : Z)
| OpAdvertise (id : Z) (advertise : bool)
| OpSetExit (id exit : Z)
| OpCreateStatic (now : Z) (rawKey rawToken : list Z) (spec : StaticPeer)
| OpReport (now id : Z) (observedIP : string) (rq : ReportRequest)
| OpAudit (now : Z) (e : AuditEntry)
| OpPruneFlows (now retention : Z)
| OpPruneConnections (now retention : Z)
| OpPruneProxy (now retention : Z)
| OpPruneAudit (now retention : Z)
| OpCreateUser (now : Z) (salt : list Z) (username password : string)
| OpSeedUser (now : Z) (salt salt' : list Z) (username password : string)
| OpSetPassword (now : Z) (salt : list Z) (id : Z) (password : string)
| OpDeleteUser (id : Z)
| OpUpdateDNS (c : DNSConfig).

(** A transaction on the database of the store. *)
Definition run_db {A} (m : tx DB A) (s : Store) : Store := mkStore (cfg s) (run_tx m (sdb s)).2.

Definition exec (o : op) (s : Store) : Store :=
  match o with
  | OpCreateKey now raw name m e => run_db (CreateNamedSetupKey now raw name m e) s
  | OpEnroll now raw sk pk hn lp oip pep => run_db (Enroll (cfg s) now raw sk pk hn lp oip pep) s
  | OpCandidates id js => run_db (UpdatePeerCandidates id js) s
  | OpRevokePeer now id => run_db (RevokePeer now id) s
  | OpRevokeKey now id => run_db (RevokeSetupKey now id) s
  | OpRemovePeer id => run_db (RemovePeer id) s
  | OpUpdateAddress id ip ip6 => run_db (UpdatePeerAddress (cfg s) id ip ip6) s
  | OpCreateRule now rule => run_db (CreateACLRuleDetailed now rule) s
  | OpImportRules now rules b => run_db (ImportACLRules now rules b) s
  | OpDeleteRule id => run_db (DeleteACLRule id) s
  | OpAdvertise id b => run_db (SetAdvertiseExitNode id b) s
  | OpSetExit id e => run_db (SetExitNode id e) s
  | OpCreateStatic now rk rt spec => run_db (CreateStaticPeer (cfg s) now rk rt spec) s
  | OpReport now id oip rq => run_db (ApplyReport now id oip rq) s
  | OpAudit now e => run_db (Audit now e) s
  | OpPruneFlows now r => run_db (PruneFlows now r) s
  | OpPruneConnections now r => run_db (PruneConnectionEvents now r) s
  | OpPruneProxy now r => run_db (PruneProxyEvents now r) s
  | OpPruneAudit now r => run_db (PruneAuditLog now r) s
  | OpCreateUser now salt u p => run_db (CreateLocalUser IDKey now salt u p) s
  | OpSeedUser now s1 s2 u p => run_db (EnsureSeedUser IDKey now s1 s2 u p) s
  | OpSetPassword now salt id p => run_db (SetPassword IDKey now salt id p) s
  | OpDeleteUser id => run_db (DeleteUser id) s
  | OpUpdateDNS c => run_db (UpdateDNSConfig c) s
  end.

(** A step is an operation, or a migration to prefixes the admin handler has
    parsed ([parseNetworkConfig]: valid, of either family). *)
Inductive step : Store → Store → Prop :=
| step_op o s : step s (exec o s)
| step_migrate raw4 raw6 t4 t6 s :
    parseNetworkConfig raw4 raw6 = Ok (t4, t6) → step s (ApplyNetworkMigration t4 t6 s).2.

Inductive reachable (s0 : Store) : Store → Prop :=
| reach_start : reachable s0 s0
| reach_step s s' : reachable s0 s → step s s' → reachable s0 s'.

Lemma run_db_mesh {A} (m : tx DB A) s :
  mesh_ok s → (∀ a db', m (sdb s) = Ok (a, db') → mesh_ok (mkStore (cfg s) db')) → mesh_ok (run_db m s).
Proof using.
  intros H Hm. unfold run_db, run_tx. destruct (m (sdb s)) as [[a db']|e]; cbn [snd]; [by eapply Hm|].
  by destruct s.
Qed.

(** Deleting rows of the logs. *)
Lemma prune_ok db :
  db_ok db →
  (∀ f, db_ok (set_flows (delete_where f (flows db)) db))
  ∧ (∀ f, db_ok (set_connection_events (delete_where f (connection_events db)) db))
  ∧ (∀ f, db_ok (set_proxy_events (delete_where f (proxy_events db)) db))
  ∧ (∀ f, db_ok (set_audit_log (delete_where f (audit_log db)) db)).
Proof using.
  intros H. split; [|split; [|split]]; intros f.
  - apply db_ok_set_flows; [done|]. intros x [Hx _]%elem_of_delete_where. by apply (ok_flows _ H).
  - apply db_ok_conns; [done|]. intros x [Hx _]%elem_of_delete_where. unfold links.
    apply andb_true_iff. by apply (ok_conns _ H).
  - apply db_ok_set_proxy; [done|]. intros x [Hx _]%elem_of_delete_where. by apply (ok_proxy _ H).
  - apply db_ok_set_audit; [done|]. intros x [Hx _]%elem_of_delete_where. by apply (ok_audit _ H).
Qed.
Lemma audit_ok now e db u db' :
  db_ok db → Audit now e db = Ok (u, db') →
  db_ok db' ∧ peers db' = peers db ∧ setup_keys db' = setup_keys db ∧ acl_rules db' = acl_rules db.
Proof using.
  intros H. unfold Audit. case_match eqn:E; [|done]. intros [= _ <-]. split; [|done].
  apply db_ok_set_audit; [done|]. intros a [Ha| ->%list_elem_of_singleton]%elem_of_app; [|done].
  by apply (ok_audit _ H).
Qed.

Lemma CreateLocalUser_keeps now salt u p db r db' :
  CreateLocalUser IDKey now salt u p db = Ok (r, db') →
  peers db' = peers db ∧ setup_keys db' = setup_keys db ∧ acl_rules db' = acl_rules db.
Proof using. by intros (n & i & _ & (_ & _ & ->)%insert_user_Ok & _)%CreateLocalUser_Ok. Qed.
Lemma EnsureSeedUser_keeps now s1 s2 u p db r db' :
  EnsureSeedUser IDKey now s1 s2 u p db = Ok (r, db') →
  peers db' = peers db ∧ setup_keys db' = setup_keys db ∧ acl_rules db' = acl_rules db.
Proof using.
  unfold EnsureSeedUser. case_match; [by intros [= _ <-]|].
  destruct (CreateLocalUser _ _ _ _ _ _) as [[v t]|] eqn:E.
  - intros [= _ <-]. by eapply CreateLocalUser_keeps.
  - destruct (insert_user _ _ _ _ _) as [[i t]|] eqn:E2; [|done]. intros [= _ <-].
    by apply insert_user_Ok in E2 as (_ & _ & ->).
Qed.

Lemma exec_mesh o s : mesh_ok s → mesh_ok (exec o s).
Proof using.
  intros H. pose proof (m_db _ H) as Hd. destruct (prune_ok _ Hd) as (Pf & Pc & Pp & Pa).
  destruct o; cbn [exec]; apply run_db_mesh; try done; intros a db' E.
  - by eapply create_key_mesh.
  - by eapply enroll_mesh.
  - by eapply candidates_mesh.
  - by eapply revoke_peer_mesh.
  - by eapply revoke_key_mesh.
  - by eapply remove_mesh.
  - by eapply update_address_mesh.
  - destruct (insertACLRule_inv _ _ _ _ _ Hd (m_rules _ H) E). destruct (insertACLRule_keeps _ _ _ _ _ E).
    by apply rules_mesh.
  - destruct (ImportACLRules_inv _ _ _ _ _ _ Hd (m_rules _ H) E).
    destruct (ImportACLRules_keeps _ _ _ _ _ _ E). by apply rules_mesh.
  - destruct (DeleteACLRule_inv _ _ _ _ Hd (m_rules _ H) E). unfold DeleteACLRule in E.
    case_match; [done|]. injection E as _ <-. by apply rules_mesh.
  - by eapply advertise_mesh.
  - by eapply exit_mesh.
  - by eapply static_mesh.
  - by eapply report_mesh.
  - destruct (audit_ok _ _ _ _ _ Hd E) as (? & ? & ? & ?). by apply mesh_ok_peers_eq.
  - injection E as _ <-. by apply mesh_ok_peers_eq.
  - injection E as _ <-. by apply mesh_ok_peers_eq.
  - injection E as _ <-. by apply mesh_ok_peers_eq.
  - injection E as _ <-. by apply mesh_ok_peers_eq.
  - destruct (CreateLocalUser_keeps _ _ _ _ _ _ _ E) as (? & ? & ?).
    apply mesh_ok_peers_eq; try done. by eapply CreateLocalUser_db_ok.
  - destruct (EnsureSeedUser_keeps _ _ _ _ _ _ _ _ E) as (? & ? & ?).
    apply mesh_ok_peers_eq; try done. by eapply EnsureSeedUser_db_ok.
  - pose proof (SetPassword_db_ok _ _ _ _ _ _ _ _ Hd E). apply SetPassword_Ok in E as (_ & _ & ->).
    by apply mesh_ok_peers_eq.
  - destruct (DeleteUser_db_ok _ _ _ _ Hd E). unfold DeleteUser in E. do 2 (case_match; [done|]).
    injection E as _ <-. by apply mesh_ok_peers_eq.
  - by eapply dns_mesh.
Qed.

Lemma step_mesh s s' : step s s' → mesh_ok s → mesh_ok s'.
Proof using.
  intros [o t|raw4 raw6 t4 t6 t Hp] H; [by apply exec_mesh|].
  unfold parseNetworkConfig in Hp.
  destruct (ParsePrefix raw4) as [n4|] eqn:P4; [|done]. destruct (Is4 (paddr n4)) eqn:F4; [|done].
  destruct (ParsePrefix raw6) as [n6|] eqn:P6; [|done]. destruct (Is6 (paddr n6)) eqn:F6; [|done].
  cbn [negb] in Hp. injection Hp as <- <-.
  destruct (ParsePrefix_ok _ _ P4) as [V4 W4], (ParsePrefix_ok _ _ P6) as [V6 W6].
  destruct (parse_masked n4 V4 W4) as (_ & M4 & N4), (parse_masked n6 V6 W6) as (_ & M6 & N6).
  apply migrate_mesh; [done|by rewrite M4|by rewrite M6|].
  unfold v6Enabled, setNetworks. cbn [Network6]. rewrite !M6.
  unfold net_ok in N6. rewrite !andb_true_iff in N6. tauto.
Qed.

(** ** Reachable stores *)
Definition fresh_store (c : Config) : Store := mkStore c empty_db.

Lemma fresh_mesh c : nets_ok c → mesh_ok (fresh_store c).
Proof using.
  intros Hn. constructor; cbn [sdb cfg fresh_store]; [|done|..].
  - apply db_okb_ok. vm_compute. reflexivity.
  - intros p Hp. by apply elem_of_nil in Hp.
  - intros k Hk. by apply elem_of_nil in Hk.
  - intros p Hp. by apply elem_of_nil in Hp.
  - intros r Hr. by apply elem_of_nil in Hr.
Qed.
Lemma reachable_mesh c s : nets_ok c → reachable (fresh_store c) s → mesh_ok s.
Proof using. intros Hn. induction 1 as [|s s' _ IH Hs]; [by apply fresh_mesh|by eapply step_mesh]. Qed.

(** C1: after any sequence of operations, migrations and failures included,
    every peer has its own overlay address, a host of the network the server is
    configured with that is not the network address itself, and the same for
    IPv6; no two peers share a public key. *)
Theorem reachable_addresses c s p q :
  nets_ok c → reachable (fresh_store c) s → p ∈ peers (sdb s) → q ∈ peers (sdb s) →
  is_host (network (cfg s)) (p_assigned_ip p)
  ∧ (∀ a, p_assigned_ip6 p = Some a → is_host (Network6 (cfg s)) a)
  ∧ (p_id p ≠ p_id q →
       p_assigned_ip p ≠ p_assigned_ip q ∧ p_public_key p ≠ p_public_key q
       ∧ (p_assigned_ip6 p = None ∨ p_assigned_ip6 p ≠ p_assigned_ip6 q)).
Proof using.
  intros Hn Hr Hp Hq. pose proof (reachable_mesh c s Hn Hr) as H.
  destruct (m_overlay _ H p Hp) as [O4 O6]. split; [done|]. split; [intros a Ha; by apply (O6 a Ha)|].
  intros Hne. pose proof (ok_peers _ (m_db _ H)) as (U1 & U2 & U3 & _)%peers_ok_spec.
  apply list_elem_of_lookup in Hp as [i Hi], Hq as [j Hj].
  assert (i ≠ j) as Hij by congruence. split; [|split].
  - intros E. apply Hij. eapply (NoDup_lookup _ i j _ U2); rewrite list_lookup_fmap, ?Hi, ?Hj; [done|].
    cbn. by rewrite E.
  - intros E. apply Hij. eapply (NoDup_lookup _ i j _ U1); rewrite list_lookup_fmap, ?Hi, ?Hj; [done|].
    cbn. by rewrite E.
  - destruct (p_assigned_ip6 p) as [a|] eqn:E6; [right|by left]. intros E. apply Hij.
    by eapply (NoDup_omap_index p_assigned_ip6 (peers (sdb s))).
Qed.

(** C2: a setup key never enrolls more peers than its limit: after any sequence
    of operations the peers that reference a key with [max_uses = m] are at
    most [m], and the uses counted are between that number and the limit. *)
Theorem reachable_key_limit c s k m :
  nets_ok c → reachable (fresh_store c) s → k ∈ setup_keys (sdb s) → k_max_uses k = Some m →
  count_where (λ p, p_setup_key_id p =? k_id k) (peers (sdb s)) ≤ k_uses_consumed k ≤ m.
Proof using.
  intros Hn Hr Hk Hm. pose proof (reachable_mesh c s Hn Hr) as H.
  split; [by apply (m_budget _ H)|].
  pose proof (ok_keys _ (m_db _ H)) as [_ Hc]%keys_ok_spec. specialize (Hc k Hk).
  unfold key_check in Hc. rewrite Hm in Hc. cbn [null_or] in Hc. lia.
Qed.

(** Traffic is only ever routed through agents and never chained: after any
    sequence of operations a peer's gateway is an existing agent and the peer
    is static; a peer's exit node is an existing agent other than itself, and
    the exit node of an active peer has no exit node of its own. *)
Theorem reachable_routing c s p :
  nets_ok c → reachable (fresh_store c) s → p ∈ peers (sdb s) →
  (∀ g, p_gateway_peer_id p = Some g →
     p_peer_type p = "static" ∧ ∃ q, q ∈ peers (sdb s) ∧ p_id q = g ∧ p_peer_type q = "agent")
  ∧ (∀ e, p_exit_node_peer_id p = Some e →
     p_peer_type p = "agent" ∧ e ≠ p_id p
     ∧ ∃ q, q ∈ peers (sdb s) ∧ p_id q = e ∧ p_peer_type q = "agent"
          ∧ (p_revoked_at p = None → p_exit_node_peer_id q = None)).
Proof using.
  intros Hn Hr Hp. pose proof (reachable_mesh c s Hn Hr) as H. by destruct (m_topology _ H p Hp) as (_ & T2 & T3).
Qed.

(** Every stored access rule is well formed after any sequence of
    operations: a known protocol, a port range within 1-65535 exactly on the
    protocols that have ports, two different ends, and only existing peers. *)
Theorem reachable_rules c s r :
  nets_ok c → reachable (fresh_store c) s → r ∈ acl_rules (sdb s) →
  rule_ok r ∧ null_or (is_peer (sdb s)) (r_src_peer_id r) = true
  ∧ null_or (is_peer (sdb s)) (r_dst_peer_id r) = true.
Proof using.
  intros Hn Hr Hin. pose proof (reachable_mesh c s Hn Hr) as H. split; [by apply (m_rules _ H)|].
  by apply (ok_rules _ (m_db _ H)).
Qed.
(** ** Accounts over time

    Only the operations on accounts touch them; the session epoch of an account
    never goes back while the account is there. *)
Definition users_kept {A} (m : tx DB A) : Prop := ∀ db a db', m db = Ok (a, db') → users db' = users db.
Lemma kept_bind {A B} (m : tx DB A) (f : A → tx DB B) :
  users_kept m → (∀ a, users_kept (f a)) → users_kept (m ≫= f).
Proof using. intros Hm Hf db b db' (a & s & H1 & H2)%tx_bind_Ok. rewrite (Hf _ _ _ _ H2). by eapply Hm. Qed.
Lemma kept_ret {A} (a : A) : users_kept (mret a).
Proof using. by intros db b db' [= _ <-]. Qed.
Lemma kept_get {A} (f : DB → A) : users_kept (tx_get f).
Proof using. by intros db b db' [= _ <-]. Qed.
Lemma kept_fail {A} e : users_kept (A := A) (tx_fail e).
Proof using. done. Qed.
Lemma kept_lift {A} (r : result A) : users_kept (tx_lift r).
Proof using. intros db b db'. unfold tx_lift. destruct r; [|done]. by intros [= _ <-]. Qed.
Lemma kept_query {A} (f : DB → result A) : users_kept (tx_query f).
Proof using. intros db b db'. unfold tx_query. destruct (f db); [|done]. by intros [= _ <-]. Qed.
Lemma kept_put (f : DB → DB) : (∀ db, users (f db) = users db) → users_kept (tx_put f).
Proof using. intros H db b db' [= _ <-]. apply H. Qed.
Lemma kept_iter {A} (f : A → tx DB unit) l : (∀ a, users_kept (f a)) → users_kept (tx_iter f l).
Proof using. intros H. induction l as [|x l IH]; cbn; [apply kept_ret|]. apply kept_bind; auto. Qed.
Lemma kept_overlay c : users_kept (allocate_overlay c).
Proof using. intros db [a b] db' (_ & -> & _)%allocate_overlay_Ok. done. Qed.
Create HintDb kept.
#[local] Hint Resolve kept_ret kept_get kept_fail kept_lift kept_query kept_put kept_iter kept_overlay : kept.
Ltac kept :=
  repeat first
    [ solve [auto with kept]
    | apply kept_bind; [|intros]
    | apply kept_put; intros; reflexivity
    | progress case_match
    | (let db := fresh "db" in let a := fresh "a" in let db' := fresh "db'" in let E := fresh "E" in
       intros db a db' E; cbn in E;
       unfold insert_key, insert_peer, put_keys, put_peers, insert_rule, insert_event, tx_lift, tx_put, mret, tx_ret in E;
       repeat case_match; by simplify_eq/=) ].
Definition account_op (o : op) : bool :=
  match o with
  | OpCreateUser _ _ _ _ | OpSeedUser _ _ _ _ _ | OpSetPassword _ _ _ _ | OpDeleteUser _ => true
  | _ => false
  end.
Lemma run_db_users {A} (m : tx DB A) s : users_kept m → users (sdb (run_db m s)) = users (sdb s).
Proof using. intros H. unfold run_db, run_tx. destruct (m (sdb s)) as [[a db']|] eqn:E; cbn; eauto. Qed.
Lemma exec_users o s : account_op o = false → users (sdb (exec o s)) = users (sdb s).
Proof using.
  destruct o; intros Ho; try discriminate Ho; cbn [exec]; apply run_db_users;
    unfold CreateNamedSetupKey, Enroll, reEnroll, UpdatePeerCandidates, RevokePeer, RevokeSetupKey, RemovePeer,
      UpdatePeerAddress, CreateACLRuleDetailed, insertACLRule, ImportACLRules, DeleteACLRule, SetAdvertiseExitNode,
      SetExitNode, CreateStaticPeer, Audit, ApplyReport, PruneFlows, PruneConnectionEvents, PruneProxyEvents,
      PruneAuditLog, UpdateDNSConfig; kept.
  all: apply kept_iter; intros; unfold apply_counter, apply_path, apply_flow, apply_proxy, upsert_link, upsert_path, insertACLRule; kept.
Qed.
Lemma migration_users t4 t6 s : users (sdb (ApplyNetworkMigration t4 t6 s).2) = users (sdb s).
Proof using.
  unfold ApplyNetworkMigration, run_store.
  match goal with |- context [?m (sdb s)] => assert (users_kept m) as Hm end.
  { kept; apply kept_iter; intros; unfold update_addrs; kept. }
  match goal with |- context [?m (sdb s)] => destruct (m (sdb s)) as [[a db']|] eqn:E end; [|done].
  cbn. exact (Hm _ _ _ E).
Qed.

Definition has_account (id : Z) (db : DB) : Prop := ∃ r, r ∈ users db ∧ u_id r = id.
Definition epoch_from (id e : Z) (db : DB) : Prop := ∀ r, r ∈ users db → u_id r = id → e ≤ u_session_epoch r.
Lemma insert_user_epoch name h at_ err db i db' id e :
  insert_user name h at_ err db = Ok (i, db') → has_account id db → epoch_from id e db → epoch_from id e db'.
Proof using.
  intros (-> & _ & ->)%insert_user_Ok (q & Hq & Eq) He r. cbn [users set_users].
  intros [Hr| ->%list_elem_of_singleton]%elem_of_app Ei; [by apply He|].
  cbn in Ei. pose proof (next_id_fresh u_id (users db) q Hq). lia.
Qed.
Lemma exec_epoch o s id e :
  has_account id (sdb s) → epoch_from id e (sdb s) → epoch_from id e (sdb (exec o s)).
Proof using.
  intros Ha He. destruct (account_op o) eqn:Eo.
  2:{ intros r. rewrite exec_users by done. apply He. }
  destruct o; try discriminate Eo; cbn [exec]; unfold run_db, run_tx; cbn [sdb].
  - destruct (CreateLocalUser _ _ _ _ _ _) as [[u db']|] eqn:E; [|done].
    apply CreateLocalUser_Ok in E as (n & i & _ & E & _). by eapply insert_user_epoch.
  - unfold EnsureSeedUser. destruct Ha as (q & Hq & _). destruct (users (sdb s)) as [|u us] eqn:Eu; [by apply elem_of_nil in Hq|].
    done.
  - destruct (SetPassword _ _ _ _ _ _) as [[u db']|] eqn:E; [|done]. apply SetPassword_Ok in E as (_ & _ & ->).
    cbn [snd]. intros r (r0 & Hr0 & ->)%elem_of_update_where Ei. destruct (local_user _ r0); cbn in *; [|by apply He].
    specialize (He r0 Hr0 Ei). lia.
  - unfold DeleteUser. destruct (_ <=? 1); [done|]. destruct (_ =? 0); [done|]. cbn [snd].
    intros r [Hr _]%elem_of_delete_where. by apply He.
Qed.
Lemma step_epoch s s' id e : step s s' → has_account id (sdb s) → epoch_from id e (sdb s) → epoch_from id e (sdb s').
Proof using.
  intros [o t|raw4 raw6 t4 t6 t Hp] Ha He; [by apply exec_epoch|]. intros r. rewrite migration_users. apply He.
Qed.
(** The stores that can follow while the account is there; it may be gone in the
    last one. *)
Inductive while_account (id : Z) (s : Store) : Store → Prop :=
| wa_here : while_account id s s
| wa_step s1 s2 : while_account id s s1 → has_account id (sdb s1) → step s1 s2 → while_account id s s2.
Lemma while_epoch id e s s' : while_account id s s' → epoch_from id e (sdb s) → epoch_from id e (sdb s').
Proof using. induction 1 as [|s1 s2 _ IH Ha Hs]; [done|]. intros He. by eapply step_epoch; [|done|apply IH]. Qed.
End machine.

(** ** A run *)
Definition sample_ops : list op :=
  [OpCreateKey sample_now [9; 9; 9] "ci" 2 0;
   OpEnroll sample_now sample_raw "CQkJ" "pubA" "a" 51820 "" "";
   OpEnroll sample_now [4; 5; 6] "CQkJ" "pubB" "b" 51820 "" "";
   OpEnroll sample_now [7; 8; 9] "CQkJ" "pubX" "x" 51820 "" "";
   OpAdvertise 1 true;
   OpSetExit 2 1;
   OpCreateStatic sample_now [1] [2] (mkStatic "phone" "phone" 1 "" "");
   OpCreateRule sample_now (mkACLRule 0 (Some 1) "" (Some 2) "" "ssh" " TCP " (Some 22) None "")].
Definition sample_run : Store := foldl (λ s o, exec pad_key o s) (fresh_store sample_cfg) sample_ops.

Lemma run_reachable IDKey s0 s ops :
  reachable IDKey s0 s → reachable IDKey s0 (foldl (λ s o, exec IDKey o s) s ops).
Proof.
  revert s. induction ops as [|o ops IH]; intros s H; [done|]. apply IH.
  eapply reach_step; [exact H|]. apply step_op.
Qed.
Lemma sample_reachable : reachable pad_key (fresh_store sample_cfg) sample_run.
Proof. apply run_reachable. constructor. Qed.

(** Two agents, the third refused for want of a use, and a phone. *)
Lemma sample_run_peers :
  (λ p, (p_id p, p_assigned_ip p, p_gateway_peer_id p, p_exit_node_peer_id p)) <$> peers (sdb sample_run)
  = [(1, "100.64.0.1", None, None); (2, "100.64.0.2", None, Some 1); (3, "100.64.0.3", Some 1, None)].
Proof. vm_compute. reflexivity. Qed.
Definition run_peer (i : nat) : Peer := default sample_peer (peers (sdb sample_run) !! i).
Lemma run_peer_in i : (i < 3)%nat → run_peer i ∈ peers (sdb sample_run).
Proof.
  intros Hi. unfold run_peer.
  assert (length (peers (sdb sample_run)) = 3%nat) as Hl
    by (rewrite <- (length_fmap (λ p, (p_id p, p_assigned_ip p, p_gateway_peer_id p, p_exit_node_peer_id p))),
          sample_run_peers; done).
  destruct (lookup_lt_is_Some_2 (peers (sdb sample_run)) i) as [p Hp]; [lia|].
  rewrite Hp. by eapply list_elem_of_lookup_2.
Qed.

Lemma reachable_addresses_witness :
  is_host (network (cfg sample_run)) (p_assigned_ip (run_peer 0))
  ∧ (∀ a, p_assigned_ip6 (run_peer 0) = Some a → is_host (Network6 (cfg sample_run)) a)
  ∧ (p_id (run_peer 0) ≠ p_id (run_peer 2) →
       p_assigned_ip (run_peer 0) ≠ p_assigned_ip (run_peer 2)
       ∧ p_public_key (run_peer 0) ≠ p_public_key (run_peer 2)
       ∧ (p_assigned_ip6 (run_peer 0) = None ∨ p_assigned_ip6 (run_peer 0) ≠ p_assigned_ip6 (run_peer 2))).
Proof.
  apply (reachable_addresses pad_key sample_cfg sample_run (run_peer 0) (run_peer 2)).
  - exact sample_nets_ok.
  - exact sample_reachable.
  - apply run_peer_in. lia.
  - apply run_peer_in. lia.
Defined.

Definition run_key : SetupKey := default sample_key (setup_keys (sdb sample_run) !! 0%nat).
Lemma reachable_key_limit_witness :
  count_where (λ p, p_setup_key_id p =? k_id run_key) (peers (sdb sample_run)) ≤ k_uses_consumed run_key ≤ 2.
Proof.
  apply (reachable_key_limit pad_key sample_cfg sample_run run_key 2).
  - exact sample_nets_ok.
  - exact sample_reachable.
  - vm_compute. left.
  - vm_compute. reflexivity.
Defined.

Lemma reachable_routing_witness :
  (∀ g, p_gateway_peer_id (run_peer 2) = Some g →
     p_peer_type (run_peer 2) = "static" ∧ ∃ q, q ∈ peers (sdb sample_run) ∧ p_id q = g ∧ p_peer_type q = "agent")
  ∧ (∀ e, p_exit_node_peer_id (run_peer 2) = Some e →
     p_peer_type (run_peer 2) = "agent" ∧ e ≠ p_id (run_peer 2)
     ∧ ∃ q, q ∈ peers (sdb sample_run) ∧ p_id q = e ∧ p_peer_type q = "agent"
          ∧ (p_revoked_at (run_peer 2) = None → p_exit_node_peer_id q = None)).
Proof.
  apply (reachable_routing pad_key sample_cfg sample_run (run_peer 2)).
  - exact sample_nets_ok.
  - exact sample_reachable.
  - apply run_peer_in. lia.
Defined.

Definition run_rule : AclRow := default sample_rule (acl_rules (sdb sample_run) !! 0%nat).
Lemma reachable_rules_witness :
  rule_ok run_rule ∧ null_or (is_peer (sdb sample_run)) (r_src_peer_id run_rule) = true
  ∧ null_or (is_peer (sdb sample_run)) (r_dst_peer_id run_rule) = true.
Proof.
  apply (reachable_rules pad_key sample_cfg sample_run run_rule).
  - exact sample_nets_ok.
  - exact sample_reachable.
  - vm_compute. left.
Defined.
