(* ===== verification/HostPort.v ===== *)
(** * Endpoints in text

    What the server uses of package [net] on "host:port" texts: [JoinHostPort],
    [SplitHostPort] and [ParseIP(...).To4()]. *)
From S2P Require Import Prelude GoText TimeText NetAddr NetFacts.
From Stdlib Require Import Ascii.

Definition has_char (c : ascii) (s : string) : bool := str_exists (λ a, bool_decide (a = c)) s.

Definition JoinHostPort (host port : string) : string :=
  if has_char ":" host then "[" +:+ host +:+ "]:" +:+ port else host +:+ ":" +:+ port.

(** The text before and after the last colon. *)
Fixpoint cut_last (c : ascii) (s : string) : option (string * string) :=
  match s with
  | EmptyString => None
  | String a s =>
      match cut_last c s with
      | Some (h, t) => Some (String a h, t)
      | None => if decide (a = c) then Some ("", s) else None
      end
  end.

(** [SplitHostPort]: the port starts after the last colon.  A bracketed host
    ends at the first ']', which must stand right before that colon; any other
    host holds no colon.  No further bracket may appear. *)
Definition SplitHostPort (hostport : string) : option (string * string) :=
  '(head, port) ← cut_last ":" hostport;
  match hostport with
  | String "[" rest =>
      '(host, tail) ← cut "]" rest;
      match cut_last ":" tail with
      | Some ("", p) =>
          if has_char "[" rest || has_char "]" tail then None else Some (host, p)
      | _ => None
      end
  | _ =>
      if has_char ":" head || has_char "[" hostport || has_char "]" hostport then None
      else Some (head, port)
  end.

(** [net.ParseIP(s).To4()]: the 32 bits of an IPv4 address or of an IPv6
    address in ::ffff:0:0/96; a zone is refused. *)
Definition ParseIP4 (s : string) : option Z :=
  match ParseAddr s with
  | Some (V4 z) => Some z
  | Some (V6 z zone) => if bool_decide (zone = "") && Is4In6 z then Some (z mod 2 ^ 32) else None
  | _ => None
  end.

Example SplitHostPort_v4 : SplitHostPort "192.0.2.7:51820" = Some ("192.0.2.7", "51820").
Proof. reflexivity. Qed.
Example SplitHostPort_v6 : SplitHostPort "[2001:db8::1]:51820" = Some ("2001:db8::1", "51820").
Proof. reflexivity. Qed.
Example SplitHostPort_bad :
  (SplitHostPort "::1", SplitHostPort "[::1]", SplitHostPort "[::1]x:1", SplitHostPort "a[b:1", SplitHostPort "[a]:b:1")
  = (None, None, None, None, None).
Proof. reflexivity. Qed.

Lemma has_char_no_char c s : has_char c s = negb (no_char c s).
Proof.
  unfold has_char, no_char. induction s as [|a s IH]; [done|].
  rewrite str_forall_cons. cbn [str_exists]. rewrite IH, negb_andb. f_equal.
  by repeat case_bool_decide.
Qed.

Lemma cut_last_app c s t : no_char c t = true → cut_last c (s +:+ String c t) = Some (s, t).
Proof.
  intros Ht. assert (cut_last c t = None) as Hn.
  { clear s. induction t as [|a t IH]; [done|].
    rewrite no_char_cons in Ht. apply andb_prop in Ht as [H1%bool_decide_eq_true H2].
    simpl. rewrite IH by done. by rewrite decide_False. }
  induction s as [|a s IH].
  - rewrite str_app_nil_l. simpl. rewrite Hn. by rewrite decide_True.
  - rewrite str_app_cons. cbn [cut_last]. by rewrite IH.
Qed.

(** Splitting gives back what was joined, for every host and port free of
    brackets and a port free of colons. *)
Lemma SplitHostPort_Join host port :
  no_char "[" host = true → no_char "]" host = true →
  no_char ":" port = true → no_char "[" port = true → no_char "]" port = true →
  SplitHostPort (JoinHostPort host port) = Some (host, port).
Proof.
  intros Ho Hc Hp Hpo Hpc. unfold JoinHostPort.
  destruct (has_char ":" host) eqn:E.
  - unfold SplitHostPort.
    assert ("[" +:+ host +:+ "]:" +:+ port = ("[" +:+ host +:+ "]") +:+ String ":" port) as ->.
    { by autorewrite with gotext. }
    rewrite cut_last_app by done. cbn [mbind option_bind].
    change ("[" +:+ host +:+ "]") with (String "[" (host +:+ "]")).
    rewrite !str_app_cons, str_app_assoc. cbn [mbind option_bind].
    change ("]" +:+ String ":" port) with (String "]" (String ":" port)).
    rewrite cut_app by done. cbn [mbind option_bind].
    assert (cut_last ":" (String ":" port) = Some ("", port)) as ->.
    { by apply (cut_last_app ":" ""). }
    rewrite !has_char_no_char. unfold no_char in *.
    rewrite str_forall_app, !str_forall_cons, Ho, Hpo, Hpc. done.
  - unfold SplitHostPort. change (host +:+ ":" +:+ port) with (host +:+ String ":" port).
    rewrite cut_last_app by done. cbn [mbind option_bind].
    rewrite E, !has_char_no_char.
    assert (no_char "[" (host +:+ String ":" port) = true) as Hb1.
    { unfold no_char in *. by rewrite str_forall_app, str_forall_cons, Ho, Hpo. }
    assert (no_char "]" (host +:+ String ":" port) = true) as Hb2.
    { unfold no_char in *. by rewrite str_forall_app, str_forall_cons, Hc, Hpc. }
    rewrite Hb1, Hb2. cbn [negb orb].
    destruct (host +:+ String ":" port) as [|a r] eqn:Er; [done|].
    rewrite no_char_cons in Hb1. apply andb_prop in Hb1 as [H1%bool_decide_eq_true _].
    destruct a as [[] [] [] [] [] [] [] []]; try done.
Qed.
