(* ===== verification/Psk.v ===== *)
(** * Pair keys

    internal/psk/psk.go: the preshared key of a pair of peers, derived from the
    network's master secret, and cmd/server/relayws.go: the identifier of a
    pair.  Both order the two public keys first. *)
From S2P Require Import Prelude GoText Codec Sha256.
From Stdlib Require Import Ascii.

(** [lo, hi := a, b; if lo > hi { lo, hi = hi, lo }]. *)
Definition ordered_pair (a b : string) : string * string :=
  if str_lt b a then (b, a) else (a, b).

Definition DerivePairKey (master : list Z) (pubA pubB : string) : list Z :=
  let '(lo, hi) := ordered_pair pubA pubB in
  hkdf_key master ("wgmesh-pair-psk:" +:+ lo +:+ "|" +:+ hi) 32.

Definition relayPairID (keyA keyB : string) : string :=
  let '(lo, hi) := ordered_pair keyA keyB in
  hex_encode (take 16 (sha256 (bytes_of (lo +:+ "|" +:+ hi)))).

Lemma ordered_pair_comm a b : ordered_pair a b = ordered_pair b a.
Proof.
  unfold ordered_pair. destruct (str_lt b a) eqn:E1, (str_lt a b) eqn:E2; try done.
  - apply str_lt_antisym in E1. congruence.
  - by rewrite (str_lt_total a b).
Qed.

Lemma DerivePairKey_comm master a b : DerivePairKey master a b = DerivePairKey master b a.
Proof. unfold DerivePairKey. by rewrite ordered_pair_comm. Qed.

Lemma relayPairID_comm a b : relayPairID a b = relayPairID b a.
Proof. unfold relayPairID. by rewrite ordered_pair_comm. Qed.

(** Two different pairs of keys never share a derivation label, as long as the
    keys contain no separator (base64 text contains none): the label is
    injective on unordered pairs. *)
Definition pair_label (a b : string) : string :=
  let '(lo, hi) := ordered_pair a b in lo +:+ "|" +:+ hi.

Lemma pair_label_inj a b c d :
  no_char "|" a = true → no_char "|" b = true → no_char "|" c = true → no_char "|" d = true →
  pair_label a b = pair_label c d → (a = c ∧ b = d) ∨ (a = d ∧ b = c).
Proof.
  intros Ha Hb Hc Hd. unfold pair_label, ordered_pair.
  assert (∀ x y u v : string, no_char "|" x = true → no_char "|" y = true → no_char "|" u = true →
    no_char "|" v = true → x +:+ "|" +:+ y = u +:+ "|" +:+ v → x = u ∧ y = v) as H.
  { intros x y u v Hx Hy Hu Hv E.
    apply (f_equal (λ s, Split s "|")) in E.
    change (x +:+ "|" +:+ y) with (x +:+ String "|" y) in E.
    change (u +:+ "|" +:+ v) with (u +:+ String "|" v) in E.
    rewrite !Split_app, !Split_no_char in E by done. by simplify_eq. }
  repeat case_match; intros E; apply H in E as [? ?]; naive_solver.
Qed.
