(* ===== verification/ClientIP.v ===== *)
(** * Who is calling

    cmd/server/main.go: the address a request is attributed to.  It feeds the
    rate limiter, the audit trail and the observed endpoint of a peer, so a
    client must not be able to choose it. *)
From S2P Require Import Prelude GoText NetAddr NetFacts HostPort.
From Stdlib Require Import Ascii.

(** The parts of an [http.Request] the handlers read. *)
Record Request : Type := mkRequest {
  hr_RemoteAddr : string;
  hr_ForwardedFor : list string;
  hr_UserAgent : string;
  hr_Authorization : string;
  hr_Method : string;
  hr_Path : string
}.
(** [Header.Get]: the first value, "" without one. *)
Definition header_get (vs : list string) : string := default "" (head vs).

Record ProxyTrust : Type := mkProxyTrust { trustProxy : bool; trustedProxies : list Prefix }.

(** [Addr.Unmap] *)
Definition Unmap (a : Addr) : Addr :=
  match a with
  | V6 z _ => if Is4In6 z then V4 (z mod 2 ^ 32) else a
  | _ => a
  end.

Definition trustsXFFFrom (t : ProxyTrust) (remoteHost : string) : bool :=
  if trustProxy t then true
  else match trustedProxies t with
       | [] => false
       | ps =>
           match ParseAddr remoteHost with
           | None => false
           | Some addr => existsb (λ p, Contains p (Unmap addr)) ps
           end
       end.

Definition clientIP (t : ProxyTrust) (r : Request) : string :=
  match SplitHostPort (hr_RemoteAddr r) with
  | None => ""
  | Some (host, _) =>
      let xff := header_get (hr_ForwardedFor r) in
      if trustsXFFFrom t host && bool_decide (xff ≠ "")
      then TrimSpace (default "" (last (Split xff ",")))
      else host
  end.

Fixpoint parse_proxies (parts : list string) : result (list Prefix) :=
  match parts with
  | [] => Ok []
  | part :: parts =>
      let part := TrimSpace part in
      if decide (part = "") then parse_proxies parts
      else match ParsePrefix part with
           | Some p => out ← parse_proxies parts; Ok (Masked p :: out)
           | None =>
               match ParseAddr part with
               | None => Err (ErrMsg ("--trusted-proxies entry " +:+ part +:+ " is neither a CIDR nor an IP"))
               | Some addr =>
                   out ← parse_proxies parts;
                   Ok (mkPrefix (Unmap addr) (addr_width (Unmap addr)) :: out)
               end
           end
  end.
Definition parseTrustedProxies (raw : string) : result (list Prefix) := parse_proxies (Split raw ",").

Definition splitCSV (raw : string) : list string :=
  filter (λ part, part ≠ "") (TrimSpace <$> Split raw ",").

(** A text with a separator splits into a first part and at least one more. *)
Lemma Split_app_cons c s t : ∃ h k l, Split (s +:+ String c t) c = h :: k :: l.
Proof.
  induction s as [|a s (h & k & l & E)].
  - rewrite str_app_nil_l. cbn [Split]. rewrite decide_True by done.
    destruct (Split t c) as [|h l] eqn:E; [by apply Split_ne_nil in E|]. by exists "", h, l.
  - rewrite str_app_cons. cbn [Split]. rewrite E. case_decide; eauto.
Qed.

Lemma last_Split_app c s t : no_char c t = true → last (Split (s +:+ String c t) c) = Some t.
Proof.
  intros Ht. induction s as [|a s IH].
  - rewrite str_app_nil_l. cbn [Split]. rewrite decide_True by done.
    by rewrite Split_no_char.
  - rewrite str_app_cons. cbn [Split]. destruct (Split_app_cons c s t) as (h & k & l & E).
    rewrite E in *. by case_decide.
Qed.

(** A client cannot choose the address it is known by.  From a source that
    is not a trusted proxy the forwarding header has no influence at all: the
    address is the connection's.  Behind a trusted proxy, which appends the
    address it saw, whatever the client put into the header before is ignored:
    the address is the one the proxy appended. *)
Theorem client_ip_unforgeable t host port observed forged ua auth m p :
  SplitHostPort (JoinHostPort host port) = Some (host, port) →
  no_char "," observed = true →
  let req xff := mkRequest (JoinHostPort host port) xff ua auth m p in
  (trustsXFFFrom t host = false → ∀ xff, clientIP t (req xff) = host)
  ∧ (trustsXFFFrom t host = true →
     clientIP t (req [forged +:+ "," +:+ observed]) = TrimSpace observed).
Proof.
  intros Hs Ho req. unfold clientIP, req. cbn [hr_RemoteAddr hr_ForwardedFor]. rewrite Hs. split.
  - intros ->. done.
  - intros ->. change (header_get [?x]) with x.
    change (forged +:+ "," +:+ observed) with (forged +:+ String "," observed).
    rewrite bool_decide_true; [|by destruct forged]. cbn [andb].
    by rewrite last_Split_app.
Qed.

Lemma client_ip_unforgeable_witness :
  clientIP (mkProxyTrust false [mkPrefix (V4 167772160) 8])
    (mkRequest (JoinHostPort "10.0.0.9" "4711") ["1.2.3.4" +:+ "," +:+ " 203.0.113.7"] "" "" "GET" "/") = "203.0.113.7"
  ∧ clientIP (mkProxyTrust false [mkPrefix (V4 167772160) 8])
    (mkRequest (JoinHostPort "192.0.2.1" "4711") ["1.2.3.4"] "" "" "GET" "/") = "192.0.2.1".
Proof.
  split.
  - destruct (client_ip_unforgeable (mkProxyTrust false [mkPrefix (V4 167772160) 8]) "10.0.0.9" "4711"
      " 203.0.113.7" "1.2.3.4" "" "" "GET" "/") as [_ H]; [reflexivity|reflexivity|].
    rewrite H; [reflexivity|reflexivity].
  - destruct (client_ip_unforgeable (mkProxyTrust false [mkPrefix (V4 167772160) 8]) "192.0.2.1" "4711"
      "" "" "" "" "GET" "/") as [H _]; [reflexivity|reflexivity|].
    apply H. reflexivity.
Defined.
