(* ===== verification/Candidates.v ===== *)
(** * Endpoint candidates

    cmd/server/main.go: the endpoints the server hands to a peer for reaching
    another one.  The allowlist for candidates the agents report
    ([validAgentCandidates]), their stored form, the ranking for a pair
    ([endpointCandidates], [sortCandidates], [sameV4Subnet]) and the live
    mapping of the embedded relay ([pairCandidates]).

    [net.ResolveUDPAddr] asks the resolver of the host for names, so whether an
    endpoint resolves is a parameter. *)
From S2P Require Import Prelude GoText NetAddr Json Schema SchemaFacts Enroll HostPort Psk.

(** [proto.EndpointCandidate] *)
Record EndpointCandidate : Type := mkEndpointCandidate {
  ec_Endpoint : string; ec_Type : string; ec_Priority : Z
}.

Definition maxEndpointCandidates : nat := 6.
Definition maxAgentCandidates : nat := 8.

(** [netip.AddrPort]; the zero value has no address. *)
Record AddrPort : Type := mkAddrPort { ap_Addr : Addr; ap_Port : Z }.
#[export] Instance AddrPort_eq_dec : EqDecision AddrPort.
Proof. solve_decision. Defined.
Definition no_addrport : AddrPort := mkAddrPort NoAddr 0.
Definition addrport_string (a : AddrPort) : string :=
  match ap_Addr a with
  | NoAddr => "invalid AddrPort"
  | V4 _ => addr_string (ap_Addr a) +:+ ":" +:+ Itoa (ap_Port a)
  | V6 _ _ => "[" +:+ addr_string (ap_Addr a) +:+ "]:" +:+ Itoa (ap_Port a)
  end.
(** [Addr.IsLoopback]: 127.0.0.0/8, ::1, and 127.0.0.0/8 mapped into IPv6. *)
Definition IsLoopback (a : Addr) : bool :=
  match a with
  | NoAddr => false
  | V4 z => z / 2 ^ 24 =? 127
  | V6 z _ => if Is4In6 z then z mod 2 ^ 32 / 2 ^ 24 =? 127 else z =? 1
  end.

(** ** Candidates reported by agents *)
Definition agent_types : list string := ["host"; "host6"; "stun6"; "upnp"; "pinned"].

Section Intake.
Context (ResolveUDPAddr : string → bool).

Definition accepted (c : AgentCandidate) : bool :=
  bool_decide (ac_Type c ∈ agent_types) && ResolveUDPAddr (ac_Endpoint c).

(** The loop with its early [break]: [room] slots are left. *)
Fixpoint keep_valid (room : nat) (cands : list AgentCandidate) : list AgentCandidate :=
  match cands, room with
  | [], _ => []
  | _, O => []
  | c :: cands, S r =>
      if accepted c then c :: keep_valid r cands else keep_valid room cands
  end.
Definition validAgentCandidates (cands : list AgentCandidate) : list AgentCandidate :=
  keep_valid maxAgentCandidates cands.

Definition encodeAgentCandidates (cands : list AgentCandidate) : string :=
  match validAgentCandidates cands with
  | [] => ""
  | kept => marshal_candidates kept
  end.

Lemma keep_valid_filter room cands :
  keep_valid room cands = take room (filter (λ c, Is_true (accepted c)) cands).
Proof.
  revert room. induction cands as [|c cands IH]; intros room.
  - by destruct room.
  - destruct room as [|r]; [done|]. cbn [keep_valid]. rewrite filter_cons.
    destruct (accepted c) eqn:E; simpl; by rewrite IH.
Qed.
End Intake.

Definition agentCandidates (p : PeerRow) : list AgentCandidate :=
  if decide (pr_CandidatesJSON p = "") then []
  else match unmarshal_candidates (pr_CandidatesJSON p) with
       | None => []
       | Some out => take maxAgentCandidates out
       end.

(** ** Ranking *)
Definition lanEndpoint (p : PeerRow) : option string :=
  if bool_decide (pr_ObservedIP p ≠ "") && (0 <? pr_ListenPort p)
  then Some (JoinHostPort (pr_ObservedIP p) (Itoa (pr_ListenPort p))) else None.

Definition sameHost (a b : string) : bool :=
  match SplitHostPort a, SplitHostPort b with
  | Some (ha, _), Some (hb, _) => bool_decide (ha = hb)
  | _, _ => false
  end.

(** Three equal leading octets. *)
Definition sameV4Subnet (selfCands : list AgentCandidate) (endpoint : string) : bool :=
  match SplitHostPort endpoint with
  | None => false
  | Some (host, _) =>
      match ParseIP4 host with
      | None => false
      | Some ip =>
          existsb (λ c,
            bool_decide (ac_Type c = "host") &&
            match SplitHostPort (ac_Endpoint c) with
            | None => false
            | Some (selfHost, _) =>
                match ParseIP4 selfHost with
                | None => false
                | Some selfIP => ip / 2 ^ 8 =? selfIP / 2 ^ 8
                end
            end) selfCands
      end
  end.

(** The accumulator of [endpointCandidates]: the list and the endpoints already
    in it. *)
Record Gathered : Type := mkGathered { g_out : list EndpointCandidate; g_seen : gset string }.

Definition add (endpoint typ : string) (priority : Z) (g : Gathered) : Gathered :=
  if bool_decide (endpoint = "") || bool_decide (endpoint ∈ g_seen g) then g
  else mkGathered (g_out g ++ [mkEndpointCandidate endpoint typ priority])
         ({[endpoint]} ∪ g_seen g).
Definition add_if (b : bool) (endpoint typ : string) (priority : Z) (g : Gathered) : Gathered :=
  if b then add endpoint typ priority g else g.
Definition add_opt (endpoint : option string) (typ : string) (priority : Z) (g : Gathered) : Gathered :=
  match endpoint with Some e => add e typ priority g | None => g end.
(** [for _, c := range reported { ... }] *)
Definition each (l : list AgentCandidate) (f : AgentCandidate → Gathered → Gathered) (g : Gathered)
  : Gathered := foldl (λ g c, f c g) g l.

Definition same_nat (self p : PeerRow) : bool :=
  bool_decide (pr_PublicEndpoint p ≠ "") && bool_decide (pr_PublicEndpoint self ≠ "")
  && sameHost (pr_PublicEndpoint self) (pr_PublicEndpoint p).

Definition is_type (t : string) (c : AgentCandidate) : bool := bool_decide (ac_Type c = t).

(** Behind one NAT. *)
Definition gather_same (self p : PeerRow) : Gathered → Gathered := λ g,
  let selfReported := agentCandidates self in
  let g := each (agentCandidates p) (λ c g,
    if is_type "pinned" c then add (ac_Endpoint c) "pinned" 95 g
    else if is_type "host" c then
      add_if (sameV4Subnet selfReported (ac_Endpoint c)) (ac_Endpoint c) "host" 110 g
    else if is_type "host6" c then add (ac_Endpoint c) "host6" 100 g
    else if is_type "stun6" c then add (ac_Endpoint c) "stun6" 130 g
    else g) g in
  let g := add_opt (lanEndpoint p) "lan" 105 g in
  let g := add (pr_PublicEndpoint p) "stun" 85 g in
  each (agentCandidates p) (λ c g, add_if (is_type "upnp" c) (ac_Endpoint c) "upnp" 84 g) g.

(** Across NATs. *)
Definition gather_cross (self p : PeerRow) : Gathered → Gathered := λ g,
  let selfReported := agentCandidates self in
  let reported := agentCandidates p in
  let g := each reported (λ c g, add_if (is_type "pinned" c) (ac_Endpoint c) "pinned" 140 g) g in
  let g := each reported (λ c g, add_if (is_type "stun6" c) (ac_Endpoint c) "stun6" 130 g) g in
  let g := each reported (λ c g, add_if (is_type "upnp" c) (ac_Endpoint c) "upnp" 120 g) g in
  let g := add_if (bool_decide (pr_PublicEndpoint p ≠ "")) (pr_PublicEndpoint p) "stun" 90 g in
  let g := each reported (λ c g,
    if is_type "host6" c then add (ac_Endpoint c) "host6" 85 g
    else if is_type "host" c then
      add_if (sameV4Subnet selfReported (ac_Endpoint c)) (ac_Endpoint c) "host" 110 g
    else g) g in
  add_opt (lanEndpoint p) "lan" 80 g.

(** [sort.SliceStable] by descending priority. *)
Fixpoint insert_candidate (c : EndpointCandidate) (l : list EndpointCandidate)
  : list EndpointCandidate :=
  match l with
  | [] => [c]
  | d :: l' => if ec_Priority c <? ec_Priority d then d :: insert_candidate c l' else c :: l
  end.
Definition stable_sort (l : list EndpointCandidate) : list EndpointCandidate :=
  foldr insert_candidate [] l.
Definition sortCandidates (out : list EndpointCandidate) : list EndpointCandidate :=
  take maxEndpointCandidates (stable_sort out).

Definition endpointCandidates (self p : PeerRow) : list EndpointCandidate :=
  let g0 := mkGathered [] ∅ in
  sortCandidates (g_out (if same_nat self p then gather_same self p g0 else gather_cross self p g0)).

(** What the server knows of the relay: [None] without one, else [observed]. *)
Definition relay_observed : Type := option (string → option (AddrPort * AddrPort)).

Definition pairCandidates (relay : relay_observed) (self p : PeerRow) : list EndpointCandidate :=
  let out := endpointCandidates self p in
  match relay with
  | None => out
  | Some observed =>
      match observed (relayPairID (pr_PublicKey self) (pr_PublicKey p)) with
      | None => out
      | Some (srcA, srcB) =>
          let src := if str_lt (pr_PublicKey self) (pr_PublicKey p) then srcB else srcA in
          if negb (addr_valid (ap_Addr src)) || IsLoopback (ap_Addr src) then out
          else if existsb (λ c, bool_decide (ec_Endpoint c = addrport_string src)) out then out
          else
            let priority := if same_nat self p then 83 else 95 in
            sortCandidates (out ++ [mkEndpointCandidate (addrport_string src) "relay" priority])
      end
  end.

(** * Facts about endpoint candidates

    The stable sort, the invariant of the accumulator, and the properties of
    the candidate lists: bounded, distinct, ranked, drawn from what the server
    knows; the operator's pinned endpoint first across NATs; and the stored
    form of reported candidates read back unchanged. *)
(** ** The sort *)
Definition ranked (c d : EndpointCandidate) : Prop := ec_Priority d ≤ ec_Priority c.

Lemma insert_candidate_perm c l : insert_candidate c l ≡ₚ c :: l.
Proof.
  induction l as [|d l IH]; simpl; [done|]. case_match; [|done].
  rewrite IH. apply Permutation_swap.
Qed.

Lemma stable_sort_perm l : stable_sort l ≡ₚ l.
Proof. induction l as [|c l IH]; simpl; [done|]. by rewrite insert_candidate_perm, IH. Qed.

Lemma insert_candidate_sorted c l :
  StronglySorted ranked l → StronglySorted ranked (insert_candidate c l).
Proof.
  induction 1 as [|d l Hl IH Hd]; simpl; [repeat constructor|].
  destruct (Z.ltb_spec (ec_Priority c) (ec_Priority d)).
  - constructor; [done|]. rewrite insert_candidate_perm. constructor; [unfold ranked; lia|done].
  - constructor; [by constructor|]. constructor; [done|].
    eapply Forall_impl; [exact Hd|]. unfold ranked. intros; lia.
Qed.

Lemma stable_sort_sorted l : StronglySorted ranked (stable_sort l).
Proof. induction l; simpl; [constructor|by apply insert_candidate_sorted]. Qed.

(** Equal priorities keep their order. *)
Lemma insert_candidate_filter k c l :
  filter (λ d, ec_Priority d = k) (insert_candidate c l)
  = filter (λ d, ec_Priority d = k) (c :: l).
Proof.
  induction l as [|d l IH]; cbn [insert_candidate]; [done|].
  destruct (Z.ltb_spec (ec_Priority c) (ec_Priority d)); [|done].
  rewrite (filter_cons _ d), IH, !filter_cons.
  destruct (decide (ec_Priority d = k)), (decide (ec_Priority c = k)); try done. lia.
Qed.

Lemma stable_sort_filter k l :
  filter (λ d, ec_Priority d = k) (stable_sort l) = filter (λ d, ec_Priority d = k) l.
Proof.
  induction l as [|c l IH]; [done|].
  change (stable_sort (c :: l)) with (insert_candidate c (stable_sort l)).
  rewrite insert_candidate_filter, !filter_cons, IH. done.
Qed.

Lemma stable_sort_head c l :
  Forall (λ d, ec_Priority d ≤ ec_Priority c) l → stable_sort (c :: l) = c :: stable_sort l.
Proof.
  intros H. change (stable_sort (c :: l)) with (insert_candidate c (stable_sort l)).
  rewrite <- (stable_sort_perm l) in H.
  destruct H as [|d l' Hd _]; simpl; [done|].
  destruct (Z.ltb_spec (ec_Priority c) (ec_Priority d)); [lia|done].
Qed.

Lemma StronglySorted_take {A} (R : A → A → Prop) n l :
  StronglySorted R l → StronglySorted R (take n l).
Proof.
  intros H. revert n. induction H as [|x l Hl IH Hx]; intros [|n]; simpl; constructor; [done|].
  by apply Forall_take.
Qed.

(** What a property of every candidate and the distinctness of their endpoints
    give for the sorted, capped list. *)
Lemma sortCandidates_ok (Q : EndpointCandidate → Prop) l :
  NoDup (ec_Endpoint <$> l) → Forall Q l →
  let out := sortCandidates l in
  (length out ≤ maxEndpointCandidates)%nat ∧ NoDup (ec_Endpoint <$> out)
  ∧ StronglySorted ranked out ∧ Forall Q out.
Proof.
  intros Hd HQ out. unfold out, sortCandidates. split_and!.
  - rewrite length_take. lia.
  - eapply NoDup_fmap_sublist; [apply sublist_take|]. by rewrite stable_sort_perm.
  - apply StronglySorted_take, stable_sort_sorted.
  - apply Forall_take. by rewrite stable_sort_perm.
Qed.

(** ** The accumulator *)
Definition gathered_ok (Q : EndpointCandidate → Prop) (g : Gathered) : Prop :=
  g_seen g = list_to_set (ec_Endpoint <$> g_out g) ∧ NoDup (ec_Endpoint <$> g_out g)
  ∧ Forall (λ c, ec_Endpoint c ≠ "" ∧ Q c) (g_out g).

Lemma gathered_start Q : gathered_ok Q (mkGathered [] ∅).
Proof. repeat constructor. Qed.

Lemma add_ok Q e t p g :
  Q (mkEndpointCandidate e t p) → gathered_ok Q g → gathered_ok Q (add e t p g).
Proof.
  intros HQ (Hs & Hd & Hf). unfold add.
  case_bool_decide; [by split_and!|]. case_bool_decide; [by split_and!|]. cbn [orb].
  unfold gathered_ok; simpl. rewrite fmap_app. simpl. split_and!.
  - rewrite list_to_set_app_L, Hs. simpl. set_solver.
  - apply NoDup_snoc. split; [done|]. rewrite Hs in *. by rewrite elem_of_list_to_set in *.
  - apply Forall_app. split; [done|]. by constructor.
Qed.

Lemma add_if_ok Q b e t p g :
  (b = true → Q (mkEndpointCandidate e t p)) → gathered_ok Q g → gathered_ok Q (add_if b e t p g).
Proof. intros. destruct b; simpl; [apply add_ok; auto|done]. Qed.

Lemma add_opt_ok Q o t p g :
  (∀ e, o = Some e → Q (mkEndpointCandidate e t p)) → gathered_ok Q g → gathered_ok Q (add_opt o t p g).
Proof. intros. destruct o; simpl; [apply add_ok; auto|done]. Qed.

Lemma each_ok (I : Gathered → Prop) l f g :
  (∀ c g, c ∈ l → I g → I (f c g)) → I g → I (each l f g).
Proof.
  unfold each. revert g. induction l as [|c l IH]; intros g Hf Hg; simpl; [done|].
  apply IH; [intros; apply Hf; [by right|done]|]. apply Hf; [left|done].
Qed.

(** ** Where a candidate comes from *)
Definition known_endpoint (relay : relay_observed) (self p : PeerRow) (c : EndpointCandidate) : Prop :=
  (mkAgentCandidate (ec_Endpoint c) (ec_Type c) ∈ agentCandidates p
     ∧ ec_Type c ∈ agent_types
     ∧ (ec_Type c = "host" → sameV4Subnet (agentCandidates self) (ec_Endpoint c) = true))
  ∨ (ec_Type c = "lan" ∧ lanEndpoint p = Some (ec_Endpoint c))
  ∨ (ec_Type c = "stun" ∧ ec_Endpoint c = pr_PublicEndpoint p)
  ∨ (ec_Type c = "relay" ∧ ∃ observed a b,
       relay = Some observed
       ∧ observed (relayPairID (pr_PublicKey self) (pr_PublicKey p)) = Some (a, b)
       ∧ ec_Endpoint c = addrport_string (if str_lt (pr_PublicKey self) (pr_PublicKey p) then b else a)).

Lemma known_reported relay self p c prio t :
  c ∈ agentCandidates p → is_type t c = true → t ∈ agent_types →
  (t = "host" → sameV4Subnet (agentCandidates self) (ac_Endpoint c) = true) →
  known_endpoint relay self p (mkEndpointCandidate (ac_Endpoint c) t prio).
Proof.
  intros Hc Ht%bool_decide_eq_true Hin Hh. left. simpl. subst t. split_and!; [|done|done].
  by destruct c.
Qed.

Ltac in_types := unfold agent_types; set_solver.

Lemma gather_same_ok relay self p g :
  gathered_ok (known_endpoint relay self p) g →
  gathered_ok (known_endpoint relay self p) (gather_same self p g).
Proof.
  intros Hg. unfold gather_same.
  apply each_ok.
  { intros c g' Hc Hg'. apply add_if_ok; [|done]. intros Ht. eapply known_reported; eauto; in_types. }
  apply add_ok; [right; right; left; done|].
  apply add_opt_ok; [intros e He; right; left; done|].
  apply each_ok; [|done]. intros c g' Hc Hg'.
  repeat case_match; try done; try apply add_if_ok; try apply add_ok; try done; intros;
    eapply known_reported; eauto; try in_types; done.
Qed.

Lemma gather_cross_ok relay self p g :
  gathered_ok (known_endpoint relay self p) g →
  gathered_ok (known_endpoint relay self p) (gather_cross self p g).
Proof.
  intros Hg. unfold gather_cross.
  assert (∀ t prio g', t ∈ agent_types → t ≠ "host" → gathered_ok (known_endpoint relay self p) g' →
    gathered_ok (known_endpoint relay self p)
      (each (agentCandidates p) (λ c g, add_if (is_type t c) (ac_Endpoint c) t prio g) g')) as Hone.
  { intros t prio g' Hin Hh Hg'. apply each_ok; [|done]. intros c g'' Hc Hg''.
    apply add_if_ok; [|done]. intros Ht. eapply known_reported; eauto. }
  apply add_opt_ok; [intros e He; right; left; done|].
  apply each_ok.
  - intros c g' Hc Hg'.
    repeat case_match; try done; try apply add_if_ok; try apply add_ok; try done; intros;
      eapply known_reported; eauto; try in_types; done.
  - apply add_if_ok; [intros _; right; right; left; done|].
    repeat (apply Hone; [in_types|done|]). done.
Qed.

Lemma known_endpoint_relay relay self p c :
  known_endpoint None self p c → known_endpoint relay self p c.
Proof. intros [?|[?|[?|(_ & ? & ? & ? & ? & _)]]]; unfold known_endpoint; naive_solver. Qed.

Lemma endpointCandidates_ok relay self p :
  let out := endpointCandidates self p in
  (length out ≤ maxEndpointCandidates)%nat ∧ NoDup (ec_Endpoint <$> out)
  ∧ StronglySorted ranked out
  ∧ Forall (λ c, ec_Endpoint c ≠ "" ∧ known_endpoint relay self p c) out.
Proof.
  unfold endpointCandidates.
  set (g := if same_nat self p then _ else _).
  assert (gathered_ok (known_endpoint relay self p) g) as (_ & Hd & HQ).
  { unfold g. case_match; [apply gather_same_ok|apply gather_cross_ok]; apply gathered_start. }
  by apply sortCandidates_ok.
Qed.

Lemma addrport_string_ne a : addrport_string a ≠ "".
Proof.
  unfold addrport_string. destruct (ap_Addr a) as [|z|z zn]; [done| |done].
  cbn [addr_string]. unfold string4, dec8. by repeat case_match.
Qed.

Lemma pairCandidates_ok relay self p :
  let out := pairCandidates relay self p in
  (length out ≤ maxEndpointCandidates)%nat ∧ NoDup (ec_Endpoint <$> out)
  ∧ StronglySorted ranked out
  ∧ Forall (λ c, ec_Endpoint c ≠ "" ∧ known_endpoint relay self p c) out.
Proof.
  pose proof (endpointCandidates_ok relay self p) as Hok. simpl in Hok.
  unfold pairCandidates. destruct relay as [observed|]; [|done].
  destruct (observed _) as [[a b]|] eqn:Eo; [|done].
  set (src := if str_lt _ _ then b else a).
  case_match; [done|]. destruct (existsb _ _) eqn:Ex; [done|].
  destruct Hok as (_ & Hd & _ & HQ). apply sortCandidates_ok.
  - rewrite fmap_app. simpl. apply NoDup_snoc. split; [done|].
    intros (c & Hc & Hin)%list_elem_of_fmap.
    apply not_true_iff_false in Ex. apply Ex, existsb_exists. exists c.
    rewrite <- list_elem_of_In. split; [done|]. by apply bool_decide_eq_true.
  - apply Forall_app. split; [done|]. constructor; [|done]. simpl.
    split; [apply addrport_string_ne|]. right; right; right. split; [done|]. by exists observed, a, b.
Qed.

(** Whatever two peers reported, the candidate list the server hands one of
    them for reaching the other has at most six entries, no endpoint twice and
    none empty, is ordered by descending priority, and contains only endpoints
    the server knows for that peer: a candidate the peer reported itself (a
    private IPv4 one only when the two share a /24), its observed address, its
    STUN endpoint, or the mapping the relay latched on that peer's own leg. *)
Theorem candidates_ranked relay self p :
  let out := pairCandidates relay self p in
  (length out ≤ maxEndpointCandidates)%nat ∧ NoDup (ec_Endpoint <$> out)
  ∧ StronglySorted ranked out
  ∧ Forall (λ c, ec_Endpoint c ≠ "" ∧ known_endpoint relay self p c) out.
Proof. apply pairCandidates_ok. Qed.

(** ** The pinned endpoint *)
Definition headed (x : EndpointCandidate) (g : Gathered) : Prop :=
  ∃ t, g_out g = x :: t ∧ Forall (λ d, ec_Priority d ≤ ec_Priority x) t.

Lemma add_headed x e t p g : p ≤ ec_Priority x → headed x g → headed x (add e t p g).
Proof.
  intros Hp (l & Hl & Hf). unfold add. case_match; [by exists l|].
  exists (l ++ [mkEndpointCandidate e t p]). simpl. rewrite Hl. split; [done|].
  apply Forall_app. split; [done|]. by constructor.
Qed.

Lemma add_if_headed x b e t p g : p ≤ ec_Priority x → headed x g → headed x (add_if b e t p g).
Proof. destruct b; simpl; [apply add_headed|done]. Qed.
Lemma add_opt_headed x o t p g : p ≤ ec_Priority x → headed x g → headed x (add_opt o t p g).
Proof. destruct o; simpl; [apply add_headed|done]. Qed.

Definition pinned (c : AgentCandidate) : Prop := ac_Type c = "pinned" ∧ ac_Endpoint c ≠ "".

(** The first loop of the cross-NAT branch puts the first pinned endpoint in
    front. *)
Lemma pinned_gathered l1 c l2 :
  Forall (λ d, ¬ pinned d) l1 → pinned c →
  headed (mkEndpointCandidate (ac_Endpoint c) "pinned" 140)
    (each (l1 ++ c :: l2) (λ c g, add_if (is_type "pinned" c) (ac_Endpoint c) "pinned" 140 g)
       (mkGathered [] ∅)).
Proof.
  intros H1 [Hct Hce]. unfold each. rewrite foldl_app. simpl.
  assert (foldl (λ g c, add_if (is_type "pinned" c) (ac_Endpoint c) "pinned" 140 g)
    (mkGathered [] ∅) l1 = mkGathered [] ∅) as ->.
  { induction H1 as [|d l1 Hd _ IH]; [done|]. simpl. rewrite <- IH at 2. f_equal.
    unfold is_type, add_if. case_bool_decide as Ht; [|done].
    unfold add. case_bool_decide as He; [done|]. by destruct Hd. }
  apply (each_ok (headed _)); [intros d g _ Hg; apply add_if_headed; [simpl; lia|done]|].
  unfold is_type. rewrite bool_decide_true by done. simpl.
  unfold add. rewrite bool_decide_false by done. simpl. exists []. split; [done|constructor].
Qed.

Lemma sortCandidates_head x l :
  Forall (λ d, ec_Priority d ≤ ec_Priority x) l →
  sortCandidates (x :: l) = x :: take 5 (stable_sort l).
Proof. intros H. unfold sortCandidates. by rewrite stable_sort_head. Qed.

Lemma endpointCandidates_pinned self p l1 c l2 :
  same_nat self p = false → agentCandidates p = l1 ++ c :: l2 →
  Forall (λ d, ¬ pinned d) l1 → pinned c →
  ∃ rest, endpointCandidates self p = mkEndpointCandidate (ac_Endpoint c) "pinned" 140 :: rest
    ∧ Forall (λ d, ec_Priority d ≤ 140) rest.
Proof.
  intros Hn Hr H1 Hc. unfold endpointCandidates. rewrite Hn. unfold gather_cross.
  set (g := add_opt _ _ _ _).
  assert (headed (mkEndpointCandidate (ac_Endpoint c) "pinned" 140) g) as (t & -> & Ht).
  { unfold g. apply add_opt_headed; [simpl; lia|].
    do 4 first [ apply add_if_headed; [simpl; lia|]
                 | apply (each_ok (headed _)); [
                     intros d g' _ Hg';
                     repeat case_match; try apply add_if_headed; try apply add_headed; simpl; try lia; done|] ].
    rewrite Hr. by apply pinned_gathered. }
  rewrite sortCandidates_head by done. eexists. split; [done|].
  apply Forall_take. by rewrite stable_sort_perm.
Qed.

(** Across different NATs an operator-pinned endpoint is the endpoint the
    other side tries first: if the peer reported one, the first such endpoint
    heads the list with priority 140, before every discovered path and before
    the relay's own observation. *)
Theorem pinned_endpoint_first relay self p l1 c l2 :
  same_nat self p = false → agentCandidates p = l1 ++ c :: l2 →
  Forall (λ d, ¬ pinned d) l1 → pinned c →
  head (pairCandidates relay self p) = Some (mkEndpointCandidate (ac_Endpoint c) "pinned" 140).
Proof.
  intros Hn Hr H1 Hc.
  destruct (endpointCandidates_pinned self p l1 c l2) as (rest & E & Hrest); [done..|].
  unfold pairCandidates. rewrite E, Hn.
  destruct relay as [observed|]; [|done]. destruct (observed _) as [[a b]|]; [|done].
  destruct (negb _ || _); [done|]. destruct (existsb _ _); [done|]. cbn [app].
  rewrite sortCandidates_head; [done|]. apply Forall_app. split; [done|]. constructor; [simpl; lia|done].
Qed.

(** ** Reported candidates through the database *)
Lemma marshal_candidates_ne ls : marshal_candidates ls ≠ "".
Proof. unfold marshal_candidates. by destruct ls. Qed.

Lemma peer_by_id_set_candidates id o db p :
  peer_by_id id db = Some p →
  peer_by_id id (set_peers (update_where (λ p, p_id p =? id) (set_p_candidates o) (peers db)) db)
  = Some (set_p_candidates o p).
Proof.
  unfold peer_by_id, set_peers. simpl. unfold select1, update_where.
  induction (peers db) as [|q l IH]; [done|]. simpl.
  destruct (p_id q =? id) eqn:E; simpl; rewrite E; [by intros [= ->]|done].
Qed.

(** The candidates an agent sends at enrollment survive storage: after the
    write, reading the peer's row back yields exactly the candidates that
    passed the allowlist (at most eight, each of a known type with an endpoint
    that resolves), or what was stored before when none did. *)
Theorem candidates_round_trip resolve cands id db p :
  Forall printable_candidate cands → peer_by_id id db = Some p →
  let kept := validAgentCandidates resolve cands in
  ∃ db' p', run_tx (UpdatePeerCandidates id (encodeAgentCandidates resolve cands)) db = (Ok (), db')
    ∧ peer_by_id id db' = Some p'
    ∧ agentCandidates (peer_row p') = (if kept is [] then agentCandidates (peer_row p) else kept)
    ∧ (length kept ≤ maxAgentCandidates)%nat
    ∧ Forall (λ c, ac_Type c ∈ agent_types ∧ resolve (ac_Endpoint c) = true ∧ c ∈ cands) kept.
Proof.
  intros Hp Hid kept.
  assert (kept = take maxAgentCandidates (filter (λ c, Is_true (accepted resolve c)) cands)) as Hk
    by apply keep_valid_filter.
  assert (Forall (λ c, ac_Type c ∈ agent_types ∧ resolve (ac_Endpoint c) = true ∧ c ∈ cands) kept) as Hall.
  { rewrite Hk. apply Forall_take, Forall_forall.
    intros c [Ha%Is_true_eq_true Hc]%list_elem_of_filter. unfold accepted in Ha.
    apply andb_prop in Ha as [Ht%bool_decide_eq_true Hr]. done. }
  assert (length kept ≤ maxAgentCandidates)%nat as Hlen by (rewrite Hk, length_take; lia).
  unfold encodeAgentCandidates. fold kept. destruct kept as [|c0 kept'] eqn:Ek.
  { exists db, p. split_and!; done. }
  rewrite <- Ek in *. unfold UpdatePeerCandidates.
  rewrite decide_False by apply marshal_candidates_ne.
  eexists _, _. split; [reflexivity|]. split; [by apply peer_by_id_set_candidates|].
  split_and!; try done. unfold agentCandidates. simpl.
  rewrite decide_False by apply marshal_candidates_ne.
  rewrite unmarshal_marshal_candidates.
  - rewrite take_ge by done. by rewrite Ek.
  - eapply Forall_impl; [exact Hall|]. intros c (_ & _ & Hc). rewrite Forall_forall in Hp. auto.
Qed.

(** ** Concrete rows *)
Definition ex_row_a : PeerRow :=
  mkPeerRow 1 "keyA" "" "100.64.0.1" "" "agent" 0 false 0 "198.51.100.1:51820" "198.51.100.1" 51820 "" "easy" "".
Definition ex_reported : list AgentCandidate :=
  [mkAgentCandidate "10.0.0.2:51820" "host"; mkAgentCandidate "203.0.113.5:51820" "pinned"].
Definition ex_row_b : PeerRow :=
  mkPeerRow 2 "keyB" "b" "100.64.0.2" "" "agent" 0 false 0 "203.0.113.9:40000" "203.0.113.9" 51820
    (marshal_candidates ex_reported) "easy" "".
Definition ex_observed : relay_observed :=
  Some (λ _, Some (mkAddrPort (V4 3405803781) 40001, mkAddrPort (V4 3405803785) 40002)).

Example pairCandidates_ex :
  pairCandidates ex_observed ex_row_a ex_row_b =
  [mkEndpointCandidate "203.0.113.5:51820" "pinned" 140; mkEndpointCandidate "203.0.113.9:40002" "relay" 95;
   mkEndpointCandidate "203.0.113.9:40000" "stun" 90; mkEndpointCandidate "203.0.113.9:51820" "lan" 80].
Proof. vm_compute. reflexivity. Qed.

Lemma pinned_endpoint_first_witness :
  head (pairCandidates ex_observed ex_row_a ex_row_b)
  = Some (mkEndpointCandidate "203.0.113.5:51820" "pinned" 140).
Proof.
  apply (pinned_endpoint_first ex_observed ex_row_a ex_row_b
    [mkAgentCandidate "10.0.0.2:51820" "host"] (mkAgentCandidate "203.0.113.5:51820" "pinned") []).
  - vm_compute. reflexivity.
  - vm_compute. reflexivity.
  - repeat constructor. intros [[=] _].
  - split; discriminate || reflexivity.
Defined.

Definition ex_cand_peer : Peer :=
  mkPeer 1 "pubA" "100.64.0.1" (Some "a") (Some 51820) None "2023-01-01T00:00:00.000Z" None 1
    (Some "h") None None (Some "2023-01-01T00:00:00.000Z") None "agent" None None None None None
    false None None.
Definition ex_cand_db : DB := mkDB [] [ex_cand_peer] [] ∅ [] ∅ ∅ [] [] [] [].

Lemma candidates_round_trip_witness :
  ∃ db' p', run_tx (UpdatePeerCandidates 1 (encodeAgentCandidates (λ _, true) ex_reported)) ex_cand_db = (Ok (), db')
    ∧ peer_by_id 1 db' = Some p' ∧ agentCandidates (peer_row p') = ex_reported.
Proof.
  destruct (candidates_round_trip (λ _, true) ex_reported 1 ex_cand_db ex_cand_peer)
    as (db' & p' & H1 & H2 & H3 & _).
  - repeat constructor; vm_compute; repeat constructor; discriminate.
  - reflexivity.
  - exists db', p'. split; [exact H1|]. split; [exact H2|exact H3].
Defined.
