(* ===== verification/Punch.v ===== *)
(** * Hole-punch coordination

    cmd/server/report.go and main.go: the per-pair epochs with which the server
    tells two relayed peers to probe each other at the same time
    ([bumpPunchEpoch], [resetPunchAttempts], [punchEpoch]), the decision
    ([shouldBumpPunchEpoch]) and the loop over a report's path states
    ([coordinatePunches]). *)
From S2P Require Import Prelude GoText TimeText Schema Enroll Admin Telemetry Psk Candidates.

(** The zero [time.Time] is [None]. *)
Record PunchEpoch : Type := mkPunchEpoch {
  pe_epoch : Z; pe_bumpedAt : option Z; pe_attempts : Z
}.
Definition punch_zero : PunchEpoch := mkPunchEpoch 0 None 0.
Abbreviation punch_map := (gmap string PunchEpoch).

(** A missing key reads as the zero value. *)
Definition punch_at (m : punch_map) (id : string) : PunchEpoch := default punch_zero (m !! id).

Definition maxPunchAttempts : Z := 3.
Definition punchCooldown : Z := 2 * Minute.

Definition punchEpoch (m : punch_map) (keyA keyB : string) : Z :=
  pe_epoch (punch_at m (relayPairID keyA keyB)).

Definition bumpPunchEpoch (keyA keyB : string) (now : Z) (m : punch_map) : bool * punch_map :=
  let pairID := relayPairID keyA keyB in
  let cur := punch_at m pairID in
  if maxPunchAttempts <=? pe_attempts cur then (false, m)
  else
    let cooldown := Z.shiftl punchCooldown (Z.min (pe_attempts cur) 2) in
    if match pe_bumpedAt cur with Some at_ => now - at_ <? cooldown | None => false end
    then (false, m)
    else (true, <[pairID := mkPunchEpoch (pe_epoch cur + 1) (Some now) (pe_attempts cur + 1)]> m).

Definition resetPunchAttempts (keyA keyB : string) (m : punch_map) : punch_map :=
  let pairID := relayPairID keyA keyB in
  match m !! pairID with
  | None => m
  | Some cur =>
      if pe_attempts cur =? 0 then m
      else <[pairID := mkPunchEpoch (pe_epoch cur) None 0]> m
  end.

Record punchDecision : Type := mkDecision {
  d_state : string; d_remoteOnline : bool; d_selfCandidates : nat; d_remoteCandidates : nat;
  d_selfNAT : string; d_remoteNAT : string
}.
Definition shouldBumpPunchEpoch (d : punchDecision) : bool :=
  bool_decide (d_state d ∈ ["quic-relay"; "ws-relay"; "udp-relay"])
  && negb (bool_decide (d_selfNAT d = "hard") && bool_decide (d_remoteNAT d = "hard"))
  && d_remoteOnline d && (0 <? d_selfCandidates d)%nat && (0 <? d_remoteCandidates d)%nat.

(** [last_seen_at] is only ever written in the store's layout, which
    [time.RFC3339Nano] reads. *)
Definition onlinePeers (now maxAge : Z) (db : DB) : gmap string bool :=
  foldl (λ m p,
    if bool_decide (pi_RevokedAt p ≠ "") || bool_decide (pi_LastSeenAt p = "") then m
    else match parse_time (pi_LastSeenAt p) with
         | None => m
         | Some seen => <[pi_PublicKey p := (now - seen <=? maxAge)]> m
         end) ∅ (ListPeers db).

(** The loop: the epochs and, in order, the peers that get a sync-now. *)
Definition coordinate_path (relay : relay_observed) (self : PeerRow) (visible : gmap string PeerRow)
    (online : gmap string bool) (now : Z) (acc : punch_map * list string) (p : PeerPathState)
  : punch_map * list string :=
  match visible !! ps_PeerPublicKey p with
  | None => acc
  | Some remote =>
      if bool_decide (ps_State p = "direct")
      then (resetPunchAttempts (pr_PublicKey self) (pr_PublicKey remote) acc.1, acc.2)
      else if shouldBumpPunchEpoch (mkDecision (ps_State p)
                (default false (online !! ps_PeerPublicKey p))
                (length (pairCandidates relay remote self)) (length (pairCandidates relay self remote))
                (pr_NATType self) (pr_NATType remote))
      then
        let '(bumped, m) := bumpPunchEpoch (pr_PublicKey self) (pr_PublicKey remote) now acc.1 in
        (m, if bumped then acc.2 ++ [pr_PublicKey remote] else acc.2)
      else acc
  end.

Definition coordinatePunches (relay : relay_observed) (now0 now : Z) (db : DB) (self : PeerRow)
    (others : list PeerRow) (paths : list PeerPathState) (m : punch_map) : punch_map * list string :=
  match paths with
  | [] => (m, [])
  | _ =>
      let visible := foldl (λ v p, <[pr_PublicKey p := p]> v) ∅ others in
      let online := onlinePeers now0 (2 * Minute) db in
      foldl (coordinate_path relay self visible online now) (m, []) paths
  end.

(** * Facts about hole-punch coordination

    Any interleaving of bumps and resets over any pairs, as a sequence of
    events: how often and how far apart one pair is told to punch, that its
    epoch counts exactly the accepted bumps, and when a report signals the
    remote side. *)
Inductive punch_event : Type :=
| EvBump (keyA keyB : string) (now : Z)
| EvReset (keyA keyB : string).

Definition punch_step (m : punch_map) (e : punch_event) : punch_map :=
  match e with
  | EvBump a b now => (bumpPunchEpoch a b now m).2
  | EvReset a b => resetPunchAttempts a b m
  end.
Definition punch_run (m : punch_map) (es : list punch_event) : punch_map := foldl punch_step m es.

(** The times at which a bump of the pair was accepted. *)
Fixpoint accepted_times (id : string) (m : punch_map) (es : list punch_event) : list Z :=
  match es with
  | [] => []
  | e :: es =>
      match e with
      | EvBump a b now =>
          if bool_decide (relayPairID a b = id) && (bumpPunchEpoch a b now m).1 then [now] else []
      | EvReset _ _ => []
      end ++ accepted_times id (punch_step m e) es
  end.

Definition resets (id : string) (e : punch_event) : bool :=
  match e with EvReset a b => bool_decide (relayPairID a b = id) | EvBump _ _ _ => false end.

(** What the pair's record says: at most three attempts, and a bump time as soon
    as there was one. *)
Definition punch_ok (c : PunchEpoch) : Prop :=
  0 ≤ pe_attempts c ≤ 3 ∧ (pe_attempts c ≠ 0 → is_Some (pe_bumpedAt c)).

Lemma punch_at_insert m id c id' :
  punch_at (<[id := c]> m) id' = if decide (id = id') then c else punch_at m id'.
Proof.
  unfold punch_at. case_decide; subst; [by rewrite lookup_insert_eq|by rewrite lookup_insert_ne].
Qed.

Definition bump_accepted (c : PunchEpoch) (now : Z) : bool :=
  (pe_attempts c <? maxPunchAttempts)
  && match pe_bumpedAt c with
     | Some at_ => Z.shiftl punchCooldown (Z.min (pe_attempts c) 2) <=? now - at_
     | None => true
     end.

Lemma bump_spec a b now m :
  let c := punch_at m (relayPairID a b) in
  (bumpPunchEpoch a b now m).1 = bump_accepted c now
  ∧ (bumpPunchEpoch a b now m).2 =
      if bump_accepted c now
      then <[relayPairID a b := mkPunchEpoch (pe_epoch c + 1) (Some now) (pe_attempts c + 1)]> m
      else m.
Proof.
  intros c. unfold bumpPunchEpoch, bump_accepted. fold c.
  destruct (Z.leb_spec maxPunchAttempts (pe_attempts c)).
  - rewrite (proj2 (Z.ltb_ge _ _)) by lia. done.
  - rewrite (proj2 (Z.ltb_lt _ _)) by lia. cbn [andb].
    destruct (pe_bumpedAt c) as [t|]; [|done].
    rewrite Z.ltb_antisym. by destruct (_ <=? _).
Qed.

Lemma step_at id m e :
  punch_at (punch_step m e) id =
  let c := punch_at m id in
  match e with
  | EvBump a b now =>
      if bool_decide (relayPairID a b = id) && bump_accepted c now
      then mkPunchEpoch (pe_epoch c + 1) (Some now) (pe_attempts c + 1) else c
  | EvReset a b =>
      if bool_decide (relayPairID a b = id) && negb (pe_attempts c =? 0)
      then mkPunchEpoch (pe_epoch c) None 0 else c
  end.
Proof.
  destruct e as [a b now|a b]; cbn [punch_step].
  - destruct (bump_spec a b now m) as [_ ->]. case_bool_decide as E.
    + subst id. simpl. case_match; [|done]. by rewrite punch_at_insert, decide_True.
    + simpl. case_match; [|done]. by rewrite punch_at_insert, decide_False.
  - unfold resetPunchAttempts. case_bool_decide as E; [subst id|]; simpl.
    + unfold punch_at at 2 3. destruct (m !! relayPairID a b) as [c|] eqn:El; simpl.
      * destruct (pe_attempts c =? 0); simpl; [unfold punch_at; by rewrite El|].
        by rewrite punch_at_insert, decide_True.
      * unfold punch_at. by rewrite El.
    + destruct (m !! relayPairID a b) as [c|]; [|done].
      case_match; [done|]. by rewrite punch_at_insert, decide_False.
Qed.

Lemma step_ok id m e : punch_ok (punch_at m id) → punch_ok (punch_at (punch_step m e) id).
Proof.
  rewrite step_at. intros [H1 H2]. cbv zeta. destruct e as [a b now|a b].
  - destruct (bool_decide _ && bump_accepted _ now) eqn:E; [|done].
    apply andb_prop in E as [_ Hb]. unfold bump_accepted, maxPunchAttempts in Hb.
    apply andb_prop in Hb as [Hb _]. split; simpl; [lia|eauto].
  - case_match; [|done]. split; simpl; [lia|done].
Qed.

Lemma run_ok id m es : punch_ok (punch_at m id) → punch_ok (punch_at (punch_run m es) id).
Proof.
  revert m. induction es as [|e es IH]; intros m H; [done|]. simpl. apply IH, step_ok, H.
Qed.

Lemma punch_ok_start id : punch_ok (punch_at ∅ id).
Proof. unfold punch_at. rewrite lookup_empty. split; simpl; [lia|done]. Qed.

Lemma accepted_cons id m e es :
  accepted_times id m (e :: es) =
  match e with
  | EvBump a b now =>
      if bool_decide (relayPairID a b = id) && bump_accepted (punch_at m id) now then [now] else []
  | EvReset _ _ => []
  end ++ accepted_times id (punch_step m e) es.
Proof.
  cbn [accepted_times]. destruct e as [a b now|]; [|done]. f_equal.
  case_bool_decide as E; [subst id|done]. by destruct (bump_spec a b now m) as [-> _].
Qed.

Lemma epoch_counts id m es :
  pe_epoch (punch_at (punch_run m es) id)
  = pe_epoch (punch_at m id) + Z.of_nat (length (accepted_times id m es)).
Proof.
  revert m. induction es as [|e es IH]; intros m; [simpl; lia|].
  change (punch_run m (e :: es)) with (punch_run (punch_step m e) es).
  rewrite IH, accepted_cons, step_at, length_app. cbv zeta.
  destruct e as [a b now|a b]; destruct (bool_decide _ && _); simpl; lia.
Qed.

(** The gap every bump keeps from the one before, by how many the episode has
    already seen. *)
Fixpoint spaced (k : Z) (last : option Z) (ts : list Z) : Prop :=
  match ts with
  | [] => True
  | t :: ts =>
      k < 3 ∧ match last with Some t0 => 2 * Minute * 2 ^ k ≤ t - t0 | None => True end
      ∧ spaced (k + 1) (Some t) ts
  end.

Lemma episode_spaced id m es :
  punch_ok (punch_at m id) → forallb (λ e, negb (resets id e)) es = true →
  spaced (pe_attempts (punch_at m id)) (pe_bumpedAt (punch_at m id)) (accepted_times id m es).
Proof.
  revert m. induction es as [|e es IH]; intros m Hok Hr; [done|].
  cbn [forallb] in Hr. apply andb_prop in Hr as [He Hr].
  rewrite accepted_cons. specialize (IH (punch_step m e) (step_ok _ _ _ Hok) Hr).
  rewrite step_at in IH. cbv zeta in IH.
  destruct e as [a b now|a b]; cbn [resets] in He.
  - destruct (bool_decide _ && bump_accepted _ now) eqn:E; [|exact IH].
    simpl in IH |- *. apply andb_prop in E as [_ E]. unfold bump_accepted, maxPunchAttempts in E.
    apply andb_prop in E as [E1 E2]. split_and!; [lia| |exact IH].
    destruct (pe_bumpedAt _) as [t0|]; [|done]. destruct Hok as [Hk _].
    rewrite Z.shiftl_mul_pow2, Z.min_l in E2 by lia. unfold punchCooldown in E2. lia.
  - apply negb_true_iff in He. rewrite He in IH. exact IH.
Qed.

Lemma spaced_length k last ts : k ≤ 3 → spaced k last ts → Z.of_nat (length ts) ≤ 3 - k.
Proof.
  revert k last. induction ts as [|t ts IH]; intros k last Hk; simpl; [lia|].
  intros (H1 & _ & H2). apply IH in H2; lia.
Qed.

Lemma spaced_gap k last ts i t t' :
  0 ≤ k → spaced k last ts → ts !! i = Some t → ts !! S i = Some t' →
  2 * Minute * 2 ^ (k + 1 + Z.of_nat i) ≤ t' - t.
Proof.
  revert k last i. induction ts as [|u ts IH]; intros k last i Hk; [done|].
  cbn [spaced]. intros (_ & _ & Hs) Hi Hi'. destruct i as [|i]; simpl in *.
  - simplify_eq. destruct ts as [|u' ts]; [done|]. simpl in Hi'. simplify_eq.
    destruct Hs as (_ & Hg & _). by rewrite Z.add_0_r.
  - replace (k + 1 + Z.of_nat (S i)) with (k + 1 + 1 + Z.of_nat i) by lia.
    eapply IH; [|done..]. lia.
Qed.

(** C33: the server never thrashes a pair.  Whatever bumps and resets have been
    requested for whatever pairs before, a stretch of requests in which the
    pair never reaches direct yields at most three accepted bumps, any two
    consecutive ones at least four minutes apart and the second and third at
    least eight when all three fall in it; and the pair's epoch is the number of bumps ever accepted,
    so it only grows. *)
Theorem punch_budget id es1 es2 :
  forallb (λ e, negb (resets id e)) es2 = true →
  let ts := accepted_times id (punch_run ∅ es1) es2 in
  (length ts ≤ 3)%nat
  ∧ (∀ i t t', ts !! i = Some t → ts !! S i = Some t' → 4 * Minute * 2 ^ Z.of_nat i ≤ t' - t)
  ∧ pe_epoch (punch_at (punch_run ∅ (es1 ++ es2)) id)
    = Z.of_nat (length (accepted_times id ∅ es1)) + Z.of_nat (length ts).
Proof.
  intros Hr ts. set (m := punch_run ∅ es1) in *.
  assert (punch_ok (punch_at m id)) as Hok by apply run_ok, punch_ok_start.
  pose proof (episode_spaced id m es2 Hok Hr) as Hs. fold ts in Hs. destruct Hok as [Hk _].
  split_and!.
  - apply spaced_length in Hs; lia.
  - intros i t t' Hi Hi'. etrans; [|eapply (spaced_gap _ _ _ i); [|exact Hs|done|done]; lia].
    rewrite !Z.pow_add_r by lia. unfold Minute, Second, Millisecond.
    assert (0 < 2 ^ pe_attempts (punch_at m id)) by (apply Z.pow_pos_nonneg; lia).
    assert (0 < 2 ^ Z.of_nat i) by (apply Z.pow_pos_nonneg; lia). nia.
  - unfold punch_run. rewrite foldl_app. change (foldl punch_step ∅ es1) with m.
    change (foldl punch_step m es2) with (punch_run m es2). rewrite epoch_counts. fold ts.
    f_equal. unfold m. rewrite epoch_counts. unfold punch_at. by rewrite lookup_empty.
Qed.

(** ** One report *)
Definition relay_paths : list string := ["quic-relay"; "ws-relay"; "udp-relay"].

(** Why the server asks a remote peer to punch. *)
Definition punch_worthwhile (relay : relay_observed) (now0 : Z) (db : DB) (self : PeerRow)
    (others : list PeerRow) (paths : list PeerPathState) (k : string) : Prop :=
  ∃ remote p, remote ∈ others ∧ pr_PublicKey remote = k ∧ p ∈ paths ∧ ps_PeerPublicKey p = k
    ∧ ps_State p ∈ relay_paths
    ∧ ¬ (pr_NATType self = "hard" ∧ pr_NATType remote = "hard")
    ∧ onlinePeers now0 (2 * Minute) db !! k = Some true
    ∧ pairCandidates relay self remote ≠ [] ∧ pairCandidates relay remote self ≠ [].

Lemma visible_map (others : list PeerRow) (v : gmap string PeerRow) k r :
  (∀ k r, v !! k = Some r → pr_PublicKey r = k) →
  foldl (λ v p, <[pr_PublicKey p := p]> v) v others !! k = Some r →
  (r ∈ others ∨ v !! k = Some r) ∧ pr_PublicKey r = k.
Proof.
  revert v. induction others as [|p others IH]; intros v Hv; simpl; [naive_solver|].
  intros H. apply IH in H as [[H|H] Hk].
  - split; [left; by right|done].
  - rewrite lookup_insert_Some in H. destruct H as [[? ->]|[? H]].
    + split; [left; left|done].
    + split; [by right|done].
  - intros k' r' [[? ->]|[? ?]]%lookup_insert_Some; auto.
Qed.

Lemma should_bump d :
  shouldBumpPunchEpoch d = true ↔
  d_state d ∈ relay_paths ∧ ¬ (d_selfNAT d = "hard" ∧ d_remoteNAT d = "hard")
  ∧ d_remoteOnline d = true ∧ (0 < d_selfCandidates d)%nat ∧ (0 < d_remoteCandidates d)%nat.
Proof.
  unfold shouldBumpPunchEpoch, relay_paths.
  rewrite !andb_true_iff, negb_true_iff, andb_false_iff, !bool_decide_eq_true, !bool_decide_eq_false,
    !Nat.ltb_lt.
  destruct (decide (d_selfNAT d = "hard")); naive_solver.
Qed.

Lemma length_pos_ne {A} (l : list A) : (0 < length l)%nat ↔ l ≠ [].
Proof. destruct l; simpl; split; intros; try done; lia. Qed.

(** The epochs move with the signals, and only for pairs of the reporter. *)
Definition signalled (self : PeerRow) (m : punch_map) (acc : punch_map * list string) : Prop :=
  ∀ id, pe_epoch (punch_at acc.1 id) = pe_epoch (punch_at m id)
    + Z.of_nat (length (filter (λ k, relayPairID (pr_PublicKey self) k = id) acc.2)).

Lemma reset_epoch a b m id : pe_epoch (punch_at (resetPunchAttempts a b m) id) = pe_epoch (punch_at m id).
Proof.
  change (resetPunchAttempts a b m) with (punch_step m (EvReset a b)). rewrite step_at.
  cbv zeta. by case_match.
Qed.

Lemma coordinate_path_ok relay now0 now db self others paths m visible acc p :
  visible = foldl (λ v p, <[pr_PublicKey p := p]> v) ∅ others → p ∈ paths →
  Forall (punch_worthwhile relay now0 db self others paths) acc.2 → signalled self m acc →
  let acc' := coordinate_path relay self visible (onlinePeers now0 (2 * Minute) db) now acc p in
  Forall (punch_worthwhile relay now0 db self others paths) acc'.2 ∧ signalled self m acc'.
Proof.
  intros Hv Hp Hf Hs acc'. unfold acc', coordinate_path. subst visible.
  destruct (_ !! ps_PeerPublicKey p) as [remote|] eqn:Er; [|done].
  apply visible_map in Er as [[Hin|?] Hk]; [| done | intros; by rewrite lookup_empty in *].
  case_bool_decide.
  { split; [done|]. intros id. simpl. by rewrite reset_epoch. }
  destruct (shouldBumpPunchEpoch _) eqn:Hb; [|done].
  apply should_bump in Hb as (Hst & Hnat & Hon & Hc1 & Hc2). simpl in *.
  rewrite length_pos_ne in Hc1, Hc2.
  destruct (bump_spec (pr_PublicKey self) (pr_PublicKey remote) now acc.1) as [Hb1 Hb2].
  destruct (bumpPunchEpoch _ _ _ _) as [bumped m'] eqn:Eb. simpl in Hb1, Hb2 |- *.
  rewrite <- Hb1 in Hb2. destruct bumped; [|subst m'; done]. split.
  - apply Forall_app. split; [done|]. constructor; [|done].
    exists remote, p. split_and!; try done. rewrite Hk. by destruct (_ !! _) as [[]|].
  - intros id. simpl. rewrite Hb2, punch_at_insert, filter_app, length_app, Nat2Z.inj_add, Z.add_assoc.
    rewrite <- (Hs id). rewrite filter_cons, filter_nil. case_decide; subst; simpl; lia.
Qed.

(** When a peer reports, the server signals a remote peer to punch only if
    the reporter may see it, reports being relayed to it, the remote was seen
    within two minutes, both sides have a candidate and not both NATs are hard;
    and each signal goes with exactly one step of that pair's epoch, while the
    epochs of all other pairs stay as they are. *)
Theorem punch_signals relay now0 now db self others paths m :
  let r := coordinatePunches relay now0 now db self others paths m in
  Forall (punch_worthwhile relay now0 db self others paths) r.2
  ∧ (∀ id, pe_epoch (punch_at r.1 id) = pe_epoch (punch_at m id)
       + Z.of_nat (length (filter (λ k, relayPairID (pr_PublicKey self) k = id) r.2))).
Proof.
  unfold coordinatePunches. destruct paths as [|p0 ps]; [split; [constructor|intros; simpl; lia]|].
  set (paths := p0 :: ps). set (v := foldl _ ∅ others).
  assert (∀ l acc, (∀ p, p ∈ l → p ∈ paths) →
    Forall (punch_worthwhile relay now0 db self others paths) acc.2 ∧ signalled self m acc →
    let r := foldl (coordinate_path relay self v (onlinePeers now0 (2 * Minute) db) now) acc l in
    Forall (punch_worthwhile relay now0 db self others paths) r.2 ∧ signalled self m r) as H.
  { induction l as [|p l IH]; intros acc Hl [Hf Hs]; [done|]. simpl.
    apply IH; [intros; apply Hl; by right|].
    apply coordinate_path_ok; [done|apply Hl; left|done|done]. }
  apply (H paths (m, [])); [done|]. split; [constructor|]. intros id. simpl. lia.
Qed.

Lemma punch_budget_witness :
  let es := [EvBump "a" "b" 0; EvBump "b" "a" (2 * Minute); EvBump "a" "b" (4 * Minute);
             EvBump "a" "b" (11 * Minute); EvBump "b" "a" (12 * Minute); EvBump "a" "b" (60 * Minute)] in
  accepted_times (relayPairID "a" "b") ∅ es = [0; 4 * Minute; 12 * Minute]
  ∧ (length (accepted_times (relayPairID "a" "b") (punch_run ∅ []) es) ≤ 3)%nat.
Proof.
  intros es. split; [vm_compute; reflexivity|].
  apply (punch_budget (relayPairID "a" "b") [] es). vm_compute. reflexivity.
Defined.

(** The pauses are four and eight minutes: with the first bump at 0, one at two
    minutes is still refused. *)
Lemma punch_second_after_four_minutes a b now m :
  punch_at m (relayPairID a b) = mkPunchEpoch 1 (Some 0) 1 →
  (bumpPunchEpoch a b now m).1 = (4 * Minute <=? now).
Proof.
  intros H. destruct (bump_spec a b now m) as [-> _]. rewrite H. unfold bump_accepted. simpl.
  by rewrite Z.sub_0_r.
Qed.
