(* ===== verification/PeerEntries.v ===== *)
(** * The configuration a peer receives

    cmd/server/main.go: rendering the WireGuard peer list of one peer
    ([buildPeerEntries]), its gateway routes, whether it serves as an exit node,
    the ACL policy, and the answer to an enrollment ([buildResponse]).

    [wgtypes.Key.String] belongs to the wgctrl module and is a parameter.
    Deriving a 32-byte key never fails in HKDF-SHA256 (the limit is 255 blocks),
    so the error branch of [DerivePairKey] is not taken. *)
From S2P Require Import Prelude GoText NetAddr Psk Schema Enroll Admin Acl Network Dns Candidates Punch ClientIP.

(** [proto.PeerConfigResponse] *)
Record PeerConfigResponse : Type := mkPeerConfig {
  pcr_PublicKey : string; pcr_Hostname : string; pcr_PresharedKey : option string;
  pcr_Endpoint : option string; pcr_EndpointCandidates : list EndpointCandidate;
  pcr_PunchEpoch : Z; pcr_PersistentKeepaliveInterval : option Z;
  pcr_AllowedIPs : list string; pcr_ExitNode : bool
}.
(** [proto.ACLRule] and [proto.ACLPolicy] *)
Record ProtoACLRule : Type := mkProtoRule {
  xr_SrcIP : string; xr_SrcIP6 : string; xr_DstIP : string; xr_DstIP6 : string;
  xr_Protocol : string; xr_PortMin : Z; xr_PortMax : Z
}.
Record ACLPolicy : Type := mkPolicy { ap_DefaultPolicy : string; ap_Rules : list ProtoACLRule }.
(** [proto.EnrollResponse] *)
Record EnrollResponse : Type := mkEnrollResponse {
  rs_PeerID : Z; rs_AssignedIP : string; rs_AssignedIP6 : string;
  rs_NetworkCIDR : string; rs_NetworkCIDR6 : string; rs_DNS : DNSConfig;
  rs_Peers : list PeerConfigResponse; rs_ACL : ACLPolicy; rs_GatewayRoutes : list string;
  rs_ExitNodeActive : bool; rs_AuthToken : string; rs_STUNServers : list string
}.

(** The fields of [server] these functions read. *)
Record Server : Type := mkServer {
  sv_networkCIDR : string; sv_network6CIDR : string; sv_pskMaster : list Z; sv_keepalive : Z;
  sv_relay : relay_observed; sv_stunServers : list string; sv_trust : ProxyTrust;
  sv_punchEpochs : punch_map
}.

Definition defaultKeepaliveSeconds : Z := 25.
Definition keepaliveOrDefault (s : Server) : Z :=
  if sv_keepalive s <=? 0 then defaultKeepaliveSeconds else sv_keepalive s.

Definition allowedIPsForPeer (p : PeerRow) : list string :=
  (pr_AssignedIP p +:+ "/32")
  :: (if decide (pr_AssignedIP6 p = "") then [] else [pr_AssignedIP6 p +:+ "/128"]).

Definition is_static (p : PeerRow) : bool := bool_decide (pr_PeerType p = "static").
Definition routed_mobile (p : PeerRow) : bool := is_static p && negb (pr_GatewayPeerID p =? 0).

(** [mobilesByGateway[id]]: in the order of [others]. *)
Definition mobilesByGateway (others : list PeerRow) (id : Z) : list PeerRow :=
  filter (λ o, Is_true (routed_mobile o && (pr_GatewayPeerID o =? id))) others.

Definition exit_routes : list string := ["0.0.0.0/0"; "::/0"].

Section Entries.
Context (KeyString : list Z → string).

Definition peer_entry (s : Server) (self : PeerRow) (others : list PeerRow) (o : PeerRow)
  : PeerConfigResponse :=
  let pairPSK := KeyString (DerivePairKey (sv_pskMaster s) (pr_PublicKey self) (pr_PublicKey o)) in
  let epoch := punchEpoch (sv_punchEpochs s) (pr_PublicKey self) (pr_PublicKey o) in
  let keepalive := Some (keepaliveOrDefault s) in
  let allowed := allowedIPsForPeer o in
  if is_static o then
    mkPeerConfig (pr_PublicKey o) (pr_Hostname o) (Some pairPSK) None [] epoch keepalive allowed false
  else
    let allowed := allowed ++ (mobilesByGateway others (pr_ID o) ≫= allowedIPsForPeer) in
    let exits := negb (pr_ExitNodePeerID self =? 0) && (pr_ID o =? pr_ExitNodePeerID self) in
    let allowed := if exits then allowed ++ exit_routes else allowed in
    let candidates := pairCandidates (sv_relay s) self o in
    mkPeerConfig (pr_PublicKey o) (pr_Hostname o) (Some pairPSK)
      (ec_Endpoint <$> head candidates) candidates epoch keepalive allowed exits.

(** Another peer's mobiles are reached through their gateway. *)
Definition skipped (self o : PeerRow) : bool :=
  routed_mobile o && negb (pr_GatewayPeerID o =? pr_ID self).

Definition buildPeerEntries (s : Server) (self : PeerRow) (others : list PeerRow)
  : list PeerConfigResponse :=
  peer_entry s self others <$> filter (λ o, Is_true (negb (skipped self o))) others.
End Entries.

Definition gatewayRoutesFor (self : PeerRow) (others : list PeerRow) : list string :=
  filter (λ o, Is_true (is_static o && (pr_GatewayPeerID o =? pr_ID self))) others ≫= allowedIPsForPeer.

Definition exitNodeActiveFor (self : PeerRow) (others : list PeerRow) : bool :=
  existsb (λ o, pr_ExitNodePeerID o =? pr_ID self) others.

(** ** The ACL policy *)
Definition active_by_id (db : DB) (id : Z) : option PeerInfo :=
  foldl (λ acc p, if bool_decide (pi_RevokedAt p = "") && (pi_ID p =? id) then Some p else acc)
    None (ListPeers db).

(** One rule; [None] when an endpoint is not an active peer. *)
Definition policy_rule (db : DB) (r : ACLRule) : option ProtoACLRule :=
  src ← match ar_SrcPeerID r with
        | None => Some ("", "")
        | Some i => p ← active_by_id db i; Some (pi_AssignedIP p, pi_AssignedIP6 p)
        end;
  dst ← match ar_DstPeerID r with
        | None => Some ("", "")
        | Some i => p ← active_by_id db i; Some (pi_AssignedIP p, pi_AssignedIP6 p)
        end;
  Some (mkProtoRule src.1 src.2 dst.1 dst.2 (ar_Protocol r)
          (default 0 (ar_PortMin r)) (default 0 (ar_PortMax r))).

Definition buildACLPolicy (c : Config) (db : DB) : ACLPolicy :=
  if DefaultAllow c then mkPolicy "allow" []
  else mkPolicy "deny" (omap (policy_rule db) (ListACLRules db)).

Definition buildResponse (KeyString : list Z → string) (s : Server) (c : Config) (db : DB)
    (res : EnrollResult) : result EnrollResponse :=
  let peers := buildPeerEntries KeyString s (er_Peer res) (er_Others res) in
  dnsCfg ← CurrentDNSConfig db;
  Ok (mkEnrollResponse (pr_ID (er_Peer res)) (pr_AssignedIP (er_Peer res)) (pr_AssignedIP6 (er_Peer res))
        (sv_networkCIDR s) (sv_network6CIDR s) dnsCfg peers (buildACLPolicy c db)
        (gatewayRoutesFor (er_Peer res) (er_Others res))
        (exitNodeActiveFor (er_Peer res) (er_Others res)) (er_AuthToken res) (sv_stunServers s)).
