(* ===== verification/EntryFacts.v ===== *)
(** * Facts about the configuration a peer receives

    Cryptokey routing: WireGuard sends a packet to the one peer whose
    AllowedIPs cover its destination, and gives an address named twice to the
    peer configured last.  The peer lists the server renders name every overlay
    address at most once, route a mobile through its gateway, and open the
    default route only towards the assigned exit node. *)
From S2P Require Import Prelude GoText NetAddr NetFacts Codec Psk Schema SchemaFacts Alloc Enroll EnrollFacts Visibility Admin Acl ExitNode Invariants Network Dns Users StoreMachine Candidates Punch ClientIP PeerEntries.
From Stdlib Require Import Ascii.

(** ** Suffixes *)
Lemma rev_chars_app s t : rev (chars (s +:+ t)) = rev (chars t) ++ rev (chars s).
Proof. rewrite chars_app. apply rev_app_distr. Qed.

Lemma str_app_inj_r (s s' t : string) : s +:+ t = s' +:+ t → s = s'.
Proof.
  intros H. rewrite <- (text_chars s), <- (text_chars s'). f_equal.
  apply (f_equal chars) in H. rewrite !chars_app in H. by apply app_inv_tail in H.
Qed.

Lemma suffix_ne (s s' t t' : string) c c' :
  head (rev (chars t)) = Some c → head (rev (chars t')) = Some c' → c ≠ c' →
  s +:+ t ≠ s' +:+ t'.
Proof.
  intros Ht Ht' Hc E. apply (f_equal (λ x, head (rev (chars x)))) in E.
  rewrite !rev_chars_app in E. destruct (rev (chars t)), (rev (chars t')); naive_solver.
Qed.

Lemma v4_not_v6 (s s' : string) : s +:+ "/32" ≠ s' +:+ "/128".
Proof. by eapply suffix_ne. Qed.
Lemma v4_not_exit (s : string) : s +:+ "/32" ∉ exit_routes.
Proof.
  unfold exit_routes. rewrite !not_elem_of_cons. split_and!; [| |apply not_elem_of_nil].
  - change "0.0.0.0/0" with ("" +:+ "0.0.0.0/0"). by eapply suffix_ne.
  - change "::/0" with ("" +:+ "::/0"). by eapply suffix_ne.
Qed.
Lemma v6_not_exit (s : string) : s +:+ "/128" ∉ exit_routes.
Proof.
  unfold exit_routes. rewrite !not_elem_of_cons. split_and!; [| |apply not_elem_of_nil].
  - change "0.0.0.0/0" with ("" +:+ "0.0.0.0/0"). by eapply suffix_ne.
  - change "::/0" with ("" +:+ "::/0"). by eapply suffix_ne.
Qed.

(** ** The routes of one peer *)
Lemma elem_of_allowed r p :
  r ∈ allowedIPsForPeer p ↔
  r = pr_AssignedIP p +:+ "/32" ∨ (pr_AssignedIP6 p ≠ "" ∧ r = pr_AssignedIP6 p +:+ "/128").
Proof.
  unfold allowedIPsForPeer. rewrite elem_of_cons. case_decide; [rewrite elem_of_nil|rewrite list_elem_of_singleton];
    naive_solver.
Qed.

Lemma NoDup_allowed p : NoDup (allowedIPsForPeer p).
Proof.
  unfold allowedIPsForPeer. case_decide; repeat constructor; try set_solver.
  rewrite list_elem_of_singleton. apply v4_not_v6.
Qed.

Lemma allowed_not_exit r p : r ∈ allowedIPsForPeer p → r ∉ exit_routes.
Proof. intros [->|[_ ->]]%elem_of_allowed; [apply v4_not_exit|apply v6_not_exit]. Qed.

(** What the store guarantees of the rows behind one list. *)
Record rows_ok (self : PeerRow) (others : list PeerRow) : Prop := {
  ro_nodup : NoDup others;
  ro_self : ∀ o, o ∈ others → pr_ID o ≠ pr_ID self;
  ro_id : ∀ o o', o ∈ others → o' ∈ others → pr_ID o = pr_ID o' → o = o';
  ro_ip : ∀ o o', o ∈ others → o' ∈ others → pr_AssignedIP o = pr_AssignedIP o' → o = o';
  ro_ip6 : ∀ o o', o ∈ others → o' ∈ others → pr_AssignedIP6 o ≠ "" →
    pr_AssignedIP6 o = pr_AssignedIP6 o' → o = o'
}.

Lemma allowed_disjoint self others o o' r :
  rows_ok self others → o ∈ others → o' ∈ others →
  r ∈ allowedIPsForPeer o → r ∈ allowedIPsForPeer o' → o = o'.
Proof.
  intros Hok Ho Ho' [->|[Hn ->]]%elem_of_allowed [E|[Hn' E]]%elem_of_allowed.
  - apply str_app_inj_r in E. by eapply ro_ip.
  - by apply v4_not_v6 in E.
  - symmetry in E. by apply v4_not_v6 in E.
  - apply str_app_inj_r in E. by eapply ro_ip6.
Qed.

(** ** The routes of one entry *)
Definition entry_routes (e : PeerConfigResponse) : list string :=
  filter (λ r, r ∉ exit_routes) (pcr_AllowedIPs e).

(** The peers whose addresses an entry carries. *)
Definition carried (others : list PeerRow) (o : PeerRow) : list PeerRow :=
  o :: (if is_static o then [] else mobilesByGateway others (pr_ID o)).

Lemma filter_all {A} (P : A → Prop) `{!∀ x, Decision (P x)} l : Forall P l → filter P l = l.
Proof. induction 1 as [|x l Hx _ IH]; [done|]. rewrite filter_cons_True by done. by rewrite IH. Qed.

Lemma filter_allowed l :
  filter (λ r, r ∉ exit_routes) (l ≫= allowedIPsForPeer) = l ≫= allowedIPsForPeer.
Proof.
  apply filter_all, Forall_forall. intros r (p & Hr & _)%list_elem_of_bind.
  by eapply allowed_not_exit.
Qed.

Lemma entry_routes_carried KS s self others o :
  entry_routes (peer_entry KS s self others o) = carried others o ≫= allowedIPsForPeer.
Proof.
  unfold entry_routes, peer_entry, carried.
  destruct (is_static o); cbn [pcr_AllowedIPs].
  - replace (allowedIPsForPeer o) with ([o] ≫= allowedIPsForPeer) by (csimpl; by rewrite app_nil_r).
    apply filter_allowed.
  - change (allowedIPsForPeer o ++ (?m ≫= allowedIPsForPeer)) with ((o :: m) ≫= allowedIPsForPeer).
    case_match; [|apply filter_allowed]. rewrite filter_app, filter_allowed.
    assert (filter (λ r, r ∉ exit_routes) exit_routes = []) as -> by reflexivity.
    by rewrite app_nil_r.
Qed.

(** ** The whole list *)
Lemma elem_of_mobiles others id m :
  m ∈ mobilesByGateway others id ↔
  m ∈ others ∧ is_static m = true ∧ pr_GatewayPeerID m ≠ 0 ∧ pr_GatewayPeerID m = id.
Proof.
  unfold mobilesByGateway. rewrite list_elem_of_filter, Is_true_true. unfold routed_mobile.
  rewrite !andb_true_iff, negb_true_iff, Z.eqb_neq, Z.eqb_eq. naive_solver.
Qed.

Lemma elem_of_direct self (others : list PeerRow) o :
  o ∈ filter (λ o, Is_true (negb (skipped self o))) others ↔ o ∈ others ∧ skipped self o = false.
Proof. rewrite list_elem_of_filter, Is_true_true, negb_true_iff. naive_solver. Qed.

Lemma carried_others others o m : o ∈ others → m ∈ carried others o → m ∈ others.
Proof.
  intros Ho. unfold carried. rewrite elem_of_cons. intros [->|H]; [done|].
  destruct (is_static o); [by apply elem_of_nil in H|]. by apply elem_of_mobiles in H as [? _].
Qed.

(** A mobile carried by its gateway has no entry of its own. *)
Lemma carried_skipped self others o m :
  rows_ok self others → o ∈ others → is_static o = false → m ∈ mobilesByGateway others (pr_ID o) →
  skipped self m = true.
Proof.
  intros Hok Ho Hs (Hm & Hst & Hg0 & Hg)%elem_of_mobiles. unfold skipped, routed_mobile.
  rewrite Hst. pose proof (ro_self _ _ Hok o Ho).
  rewrite (proj2 (Z.eqb_neq (pr_GatewayPeerID m) 0)), (proj2 (Z.eqb_neq _ (pr_ID self))) by congruence.
  done.
Qed.

Lemma carried_once self others o o' m :
  rows_ok self others → o ∈ others → o' ∈ others → skipped self o = false → skipped self o' = false →
  m ∈ carried others o → m ∈ carried others o' → o = o'.
Proof.
  intros Hok Ho Ho' Hs Hs'. unfold carried. rewrite !elem_of_cons.
  intros [->|H] [E|H'].
  - done.
  - destruct (is_static o') eqn:Es; [by apply elem_of_nil in H'|].
    eapply (carried_skipped self) in H'; [congruence|done..].
  - subst m. destruct (is_static o) eqn:Es; [by apply elem_of_nil in H|].
    eapply (carried_skipped self) in H; [congruence|done..].
  - destruct (is_static o), (is_static o'); try by apply elem_of_nil in H || apply elem_of_nil in H'.
    apply elem_of_mobiles in H as (_ & _ & _ & E), H' as (_ & _ & _ & E').
    apply (ro_id _ _ Hok); [done..|congruence].
Qed.

Lemma NoDup_carried self others o : rows_ok self others → o ∈ others → NoDup (carried others o).
Proof.
  intros Hok Ho. unfold carried. constructor.
  - destruct (is_static o) eqn:E; [apply not_elem_of_nil|]. intros (_ & H & _)%elem_of_mobiles. congruence.
  - destruct (is_static o); [constructor|]. apply NoDup_filter, (ro_nodup _ _ Hok).
Qed.

Lemma routes_unique KS s self others :
  rows_ok self others → NoDup (buildPeerEntries KS s self others ≫= entry_routes).
Proof.
  intros Hok. unfold buildPeerEntries.
  set (direct := filter _ others).
  assert ((peer_entry KS s self others <$> direct) ≫= entry_routes
    = (direct ≫= carried others) ≫= allowedIPsForPeer) as ->.
  { induction direct as [|o l IH]; [done|].
    rewrite fmap_cons, !bind_cons, bind_app, IH, entry_routes_carried. done. }
  assert (∀ m, m ∈ direct ≫= carried others → m ∈ others) as Hin.
  { intros m (o & Hm & Ho)%list_elem_of_bind. apply elem_of_direct in Ho as [Ho _].
    by eapply carried_others. }
  apply NoDup_bind.
  - intros m m' r Hm Hm' Hr Hr'. eapply allowed_disjoint; eauto.
  - intros m _. apply NoDup_allowed.
  - apply NoDup_bind.
    + intros o o' m [Ho Hs]%elem_of_direct [Ho' Hs']%elem_of_direct. by apply (carried_once self).
    + intros o [Ho _]%elem_of_direct. by apply (NoDup_carried self).
    + apply NoDup_filter, (ro_nodup _ _ Hok).
Qed.

(** ** From the database *)
Lemma peer_row_inj db p q :
  db_ok db → p ∈ peers db → q ∈ peers db → pr_ID (peer_row p) = pr_ID (peer_row q) → p = q.
Proof. intros Hdb Hp Hq E. simpl in E. by apply (ids_ok_inj p_id (peers db)); [apply ok_peer_ids|..]. Qed.

Lemma NoDup_fmap_inj {A B} (f : A → B) l x y :
  NoDup (f <$> l) → x ∈ l → y ∈ l → f x = f y → x = y.
Proof.
  intros Hd [i Hi]%list_elem_of_lookup [j Hj]%list_elem_of_lookup E.
  assert (i = j) as ->; [|congruence].
  eapply NoDup_lookup; [exact Hd| |]; rewrite list_lookup_fmap; [by rewrite Hi|by rewrite Hj; simpl; rewrite E].
Qed.

Lemma rows_ok_db c id db self others :
  db_ok db → PeersForID c id db = Ok (self, others) → rows_ok self others.
Proof.
  unfold PeersForID. intros Hdb H. destruct (peer_by_id id db) as [p|] eqn:Ep; [|done].
  simplify_eq. apply peer_by_id_Some in Ep as [Hp Hid].
  pose proof (ok_peers _ Hdb) as (_ & Hip & Hip6 & _)%peers_ok_spec.
  split.
  - unfold listVisible. apply NoDup_fmap_2_strong.
    + intros a b [_ Ha]%list_elem_of_filter [_ Hb]%list_elem_of_filter E.
      eapply peer_row_inj; [done..|]. by rewrite E.
    + apply NoDup_filter. apply (NoDup_fmap_1 p_id), ids_NoDup, ok_peer_ids, Hdb.
  - intros o (q & _ & Hv & ->)%listVisible_elem. simpl. unfold visible in Hv.
    apply andb_prop in Hv as [[_ Hv]%andb_prop _]. lia.
  - intros o o' (q & Hq & _ & ->)%listVisible_elem (q' & Hq' & _ & ->)%listVisible_elem E.
    f_equal. by eapply peer_row_inj.
  - intros o o' (q & Hq & _ & ->)%listVisible_elem (q' & Hq' & _ & ->)%listVisible_elem E.
    f_equal. by apply (NoDup_fmap_inj p_assigned_ip (peers db)).
  - intros o o' (q & Hq & _ & ->)%listVisible_elem (q' & Hq' & _ & ->)%listVisible_elem Hn E.
    f_equal. simpl in Hn, E.
    apply list_elem_of_lookup in Hq as [i Hi], Hq' as [j Hj].
    destruct (p_assigned_ip6 q) as [a|] eqn:Ea; [|done].
    destruct (p_assigned_ip6 q') as [a'|] eqn:Ea'; simpl in E; [subst a'|by rewrite E in Hn].
    assert (i = j) as -> by (eapply NoDup_omap_index; eauto). congruence.
Qed.

(** ** Properties *)
Lemma elem_of_entries KS s self others e :
  e ∈ buildPeerEntries KS s self others ↔
  ∃ o, o ∈ others ∧ skipped self o = false ∧ e = peer_entry KS s self others o.
Proof.
  unfold buildPeerEntries. rewrite list_elem_of_fmap. setoid_rewrite elem_of_direct. naive_solver.
Qed.

Lemma entry_key KS s self others o : pcr_PublicKey (peer_entry KS s self others o) = pr_PublicKey o.
Proof. unfold peer_entry. by case_match. Qed.

(** Through whom a reader reaches [o]: [o] itself, or its gateway when [o] is a
    mobile pinned to another one than the reader and the gateway is a visible
    agent. *)
Definition reached_through (self : PeerRow) (others : list PeerRow) (o g : PeerRow) : Prop :=
  if skipped self o then g ∈ others ∧ is_static g = false ∧ pr_ID g = pr_GatewayPeerID o else g = o.

Lemma reached_carried self others o g :
  o ∈ others → reached_through self others o g →
  g ∈ others ∧ skipped self g = false ∧ o ∈ carried others g.
Proof.
  unfold reached_through. intros Ho H. destruct (skipped self o) eqn:Es.
  - destruct H as (Hg & Hst & E). split_and!; [done|unfold skipped, routed_mobile; by rewrite Hst|].
    unfold carried. rewrite Hst. right. apply elem_of_mobiles.
    unfold skipped, routed_mobile in Es. apply andb_prop in Es as [[? Hz]%andb_prop _]. split_and!; [done|done|lia|done].
  - subst g. split_and!; try done. left.
Qed.
Lemma carried_reached self others o g :
  (∀ o, o ∈ others → pr_ID o ≠ pr_ID self) →
  g ∈ others → skipped self g = false → o ∈ carried others g → o ∈ others ∧ reached_through self others o g.
Proof.
  intros Hid Hg Hs Hc. unfold carried in Hc. rewrite elem_of_cons in Hc. unfold reached_through.
  destruct Hc as [->|Hc]; [by rewrite Hs|].
  destruct (is_static g) eqn:Eg; [by apply elem_of_nil in Hc|].
  apply elem_of_mobiles in Hc as (Ho & Hst & Hz & E). split; [done|].
  assert (skipped self o = true) as ->; [|done]. unfold skipped, routed_mobile. rewrite Hst. cbn.
  specialize (Hid g Hg). apply andb_true_intro. split; apply negb_true_iff, Z.eqb_neq; lia.
Qed.

(** C34: in the peer list rendered from a database that meets its schema, for
    any peer, an overlay address is given to at most one WireGuard peer, and to
    exactly the right one: the list routes an address to a public key if and
    only if some visible peer holds that address and the key is that peer's own
    or, for a mobile pinned to another gateway than the reader, that of its
    gateway, which must be a visible agent.  The default routes of an exit node
    are left aside. *)
Theorem mesh_routes_unique KS s c id db self others :
  db_ok db → PeersForID c id db = Ok (self, others) →
  let es := buildPeerEntries KS s self others in
  NoDup (es ≫= entry_routes)
  ∧ ∀ key r,
      (∃ e, e ∈ es ∧ pcr_PublicKey e = key ∧ r ∈ entry_routes e)
      ↔ ∃ o g, o ∈ others ∧ r ∈ allowedIPsForPeer o ∧ reached_through self others o g ∧ pr_PublicKey g = key.
Proof.
  intros Hdb Hp es. pose proof (rows_ok_db _ _ _ _ _ Hdb Hp) as Hok.
  split; [by apply routes_unique|]. intros key r. split.
  - intros (e & (g & Hg & Hs & ->)%elem_of_entries & <- & He).
    rewrite entry_routes_carried in He. apply list_elem_of_bind in He as (o & Hr & Hc).
    destruct (carried_reached self others o g) as [Ho Hv]; [apply Hok|done..|].
    exists o, g. by rewrite entry_key.
  - intros (o & g & Ho & Hr & Hv & <-). destruct (reached_carried _ _ _ _ Ho Hv) as (Hg & Hs & Hc).
    exists (peer_entry KS s self others g). split; [apply elem_of_entries; by exists g|]. split; [apply entry_key|].
    rewrite entry_routes_carried. apply list_elem_of_bind. by exists o.
Qed.

(** Which entries are exits. *)
Lemma entry_exit KS s self others o :
  pcr_ExitNode (peer_entry KS s self others o)
  = negb (is_static o) && negb (pr_ExitNodePeerID self =? 0) && (pr_ID o =? pr_ExitNodePeerID self).
Proof. unfold peer_entry. by destruct (is_static o). Qed.

Lemma entry_exit_routes KS s self others o r :
  r ∈ exit_routes →
  r ∈ pcr_AllowedIPs (peer_entry KS s self others o) ↔ pcr_ExitNode (peer_entry KS s self others o) = true.
Proof.
  intros Hr.
  assert (∀ l, r ∉ l ≫= allowedIPsForPeer) as Hno.
  { intros l (p & H & _)%list_elem_of_bind. by eapply allowed_not_exit. }
  rewrite entry_exit. unfold peer_entry. destruct (is_static o); cbn [pcr_AllowedIPs negb andb].
  - split; [|done]. intros H%allowed_not_exit. done.
  - change (allowedIPsForPeer o ++ (?m ≫= allowedIPsForPeer)) with ((o :: m) ≫= allowedIPsForPeer).
    case_match; [|by split; [intros ?%Hno|]]. rewrite elem_of_app. naive_solver.
Qed.

Lemma visible_exit db p q da :
  db_ok db → p ∈ peers db → q ∈ peers db → p_revoked_at p = None → p_revoked_at q = None →
  p_id p ≠ p_id q → p_exit_node_peer_id p = Some (p_id q) →
  visible (p_id p) da db q = true ∧ visible (p_id q) da db p = true.
Proof.
  intros Hdb Hp Hq Rp Rq Hne He.
  split; (apply visible_may_see; [done..|]); unfold may_see, exits_through; split_and!; auto.
Qed.

(** Assigning an exit node takes effect on both ends.  In a well-formed mesh,
    let an active peer be assigned an active exit node: its own peer list marks
    exactly that node as exit and gives the default routes of both families to
    it and to no other peer, and the exit node's configuration tells it that it
    is in use. *)
Theorem exit_assignment_delivered KS s st p q self others xself xothers :
  mesh_ok st → p ∈ peers (sdb st) → q ∈ peers (sdb st) →
  p_revoked_at p = None → p_revoked_at q = None → p_exit_node_peer_id p = Some (p_id q) →
  PeersForID (cfg st) (p_id p) (sdb st) = Ok (self, others) →
  PeersForID (cfg st) (p_id q) (sdb st) = Ok (xself, xothers) →
  (∃ e, e ∈ buildPeerEntries KS s self others ∧ pcr_PublicKey e = p_public_key q
        ∧ pcr_ExitNode e = true ∧ exit_routes ⊆ pcr_AllowedIPs e)
  ∧ (∀ e r, e ∈ buildPeerEntries KS s self others → r ∈ exit_routes → r ∈ pcr_AllowedIPs e →
       pcr_PublicKey e = p_public_key q)
  ∧ exitNodeActiveFor xself xothers = true.
Proof.
  intros Hm Hp Hq Rp Rq He Hself Hx.
  pose proof (m_db _ Hm) as Hdb.
  destruct (m_topology _ Hm p Hp) as (_ & _ & Ht).
  destruct (Ht _ He) as (_ & Hne & q' & Hq' & Eq & Hag & _).
  assert (q' = q) as -> by (by apply (ids_ok_inj p_id (peers (sdb st))); [apply ok_peer_ids|..]).
  destruct (visible_exit (sdb st) p q (DefaultAllow (cfg st))) as [Vq Vp]; [done..|].
  unfold PeersForID in Hself, Hx. rewrite (peer_by_id_eq _ p) in Hself by done.
  rewrite (peer_by_id_eq _ q) in Hx by done. simplify_eq.
  assert (is_static (peer_row q) = false) as Hns.
  { unfold is_static. rewrite bool_decide_false; [done|]. simpl. unfold agent in Hag. congruence. }
  pose proof (peer_id_pos _ _ Hdb Hq) as Hpos.
  set (others := listVisible (p_id p) (DefaultAllow (cfg st)) (sdb st)).
  assert (pcr_ExitNode (peer_entry KS s (self_row p) others (peer_row q)) = true) as Hex.
  { rewrite entry_exit, Hns. simpl. rewrite He. simpl. lia. }
  split_and!.
  - exists (peer_entry KS s (self_row p) others (peer_row q)). split_and!.
    + apply elem_of_entries. exists (peer_row q). split_and!; [|by unfold skipped, routed_mobile; rewrite Hns|done].
      apply listVisible_elem. by exists q.
    + apply entry_key.
    + done.
    + intros r Hr. by apply entry_exit_routes.
  - intros e r (o & (o' & Ho' & _ & ->)%listVisible_elem & _ & ->)%elem_of_entries Hr Hin.
    apply (entry_exit_routes KS s (self_row p) others (peer_row o') r Hr) in Hin.
    rewrite entry_exit in Hin. apply andb_prop in Hin as [_ Hin]. simpl in Hin. rewrite He in Hin.
    simpl in Hin. rewrite entry_key. simpl. f_equal.
    apply (ids_ok_inj p_id (peers (sdb st))); [by apply ok_peer_ids|done..|lia].
  - apply existsb_exists. exists (peer_row p). rewrite <- list_elem_of_In, listVisible_elem.
    split; [by exists p|]. simpl. rewrite He. simpl. lia.
Qed.

(** ** Pairs *)
Lemma may_see_agents st p q :
  mesh_ok st → p ∈ peers (sdb st) → q ∈ peers (sdb st) → agent p → agent q → p_revoked_at p = None →
  may_see (DefaultAllow (cfg st)) (sdb st) p q → may_see (DefaultAllow (cfg st)) (sdb st) q p.
Proof.
  intros Hm Hp Hq Ap Aq Rp. unfold may_see, gateway_of. intros (_ & Hne & H). split_and!; [done|congruence|].
  destruct H as [H|[H|[H|[H|(r & Hr & Hc)]]]]; auto.
  - destruct (m_topology _ Hm q Hq) as (_ & Hg & _). destruct (Hg _ H) as [Hst _].
    unfold agent in Aq. congruence.
  - right; right; right; right. exists r. split; [done|]. by apply connects_sym.
Qed.

Lemma agent_entry KS s c p q db self others :
  db_ok db → p ∈ peers db → q ∈ peers db → agent q → may_see (DefaultAllow c) db p q →
  PeersForID c (p_id p) db = Ok (self, others) →
  pr_PublicKey self = p_public_key p
  ∧ peer_entry KS s self others (peer_row q) ∈ buildPeerEntries KS s self others.
Proof.
  intros Hdb Hp Hq Aq Hv H. unfold PeersForID in H. rewrite (peer_by_id_eq _ p) in H by done.
  simplify_eq. split; [done|]. apply elem_of_entries. exists (peer_row q). split_and!; [| |done].
  - apply listVisible_elem. exists q. split_and!; [done| |done]. by apply visible_may_see.
  - unfold skipped, routed_mobile, is_static. simpl. rewrite bool_decide_false; [done|].
    unfold agent in Aq. congruence.
Qed.

(** C37: two active agents that may see each other are configured symmetrically:
    each one's peer list has an entry for the other, both entries carry the
    same preshared key, derived from the master secret and the two public keys
    alone, and the same punch epoch. *)
Theorem pair_keys_agree KS s st p q self others self' others' :
  mesh_ok st → p ∈ peers (sdb st) → q ∈ peers (sdb st) → agent p → agent q →
  p_revoked_at p = None → may_see (DefaultAllow (cfg st)) (sdb st) p q →
  PeersForID (cfg st) (p_id p) (sdb st) = Ok (self, others) →
  PeersForID (cfg st) (p_id q) (sdb st) = Ok (self', others') →
  ∃ e e', e ∈ buildPeerEntries KS s self others ∧ pcr_PublicKey e = p_public_key q
    ∧ e' ∈ buildPeerEntries KS s self' others' ∧ pcr_PublicKey e' = p_public_key p
    ∧ pcr_PresharedKey e = Some (KS (DerivePairKey (sv_pskMaster s) (p_public_key p) (p_public_key q)))
    ∧ pcr_PresharedKey e' = pcr_PresharedKey e ∧ pcr_PunchEpoch e' = pcr_PunchEpoch e.
Proof.
  intros Hm Hp Hq Ap Aq Rp Hv H1 H2. pose proof (m_db _ Hm) as Hdb.
  assert (may_see (DefaultAllow (cfg st)) (sdb st) q p) as Hv' by by apply may_see_agents.
  destruct (agent_entry KS s (cfg st) p q (sdb st) self others) as [K1 E1]; [done..|].
  destruct (agent_entry KS s (cfg st) q p (sdb st) self' others') as [K2 E2]; [done..|].
  exists (peer_entry KS s self others (peer_row q)), (peer_entry KS s self' others' (peer_row p)).
  rewrite !entry_key. split_and!; try done; unfold peer_entry, punchEpoch.
  - case_match; simpl; by rewrite K1.
  - repeat case_match; simpl; rewrite K1, K2; by rewrite (DerivePairKey_comm _ (p_public_key q)).
  - repeat case_match; simpl; rewrite K1, K2; by rewrite (relayPairID_comm (p_public_key q)).
Qed.

(** ** The policy *)
Definition active_row (p : Peer) : Prop := coalesce (p_revoked_at p) "" = "".

Lemma active_by_id_spec db i x :
  db_ok db →
  active_by_id db i = Some x ↔ ∃ p, p ∈ peers db ∧ p_id p = i ∧ active_row p ∧ x = peer_info p.
Proof.
  intros Hdb. unfold active_by_id, ListPeers.
  assert (∀ l acc, (∀ p, p ∈ l → p ∈ peers db) →
    (∀ y, acc = Some y → ∃ p, p ∈ peers db ∧ p_id p = i ∧ active_row p ∧ y = peer_info p) →
    let r := foldl (λ acc p, if bool_decide (pi_RevokedAt p = "") && (pi_ID p =? i) then Some p else acc)
      acc (peer_info <$> l) in
    (∀ y, r = Some y → ∃ p, p ∈ peers db ∧ p_id p = i ∧ active_row p ∧ y = peer_info p)
    ∧ ((is_Some acc ∨ ∃ p, p ∈ l ∧ p_id p = i ∧ active_row p) → is_Some r)) as H.
  { induction l as [|p l IH]; intros acc Hl Hacc; simpl.
    - split; [done|]. intros [?|(p & Hp & _)]; [done|by apply elem_of_nil in Hp].
    - assert (∀ y, (if bool_decide (coalesce (p_revoked_at p) "" = "") && (p_id p =? i)
        then Some (peer_info p) else acc) = Some y →
        ∃ p, p ∈ peers db ∧ p_id p = i ∧ active_row p ∧ y = peer_info p) as Hacc'.
      { intros y. case_match eqn:E; [|apply Hacc]. intros [= <-]. exists p.
        apply andb_prop in E as [E1%bool_decide_eq_true E2]. split_and!; [apply Hl; left|lia|done|done]. }
      edestruct (IH _ ltac:(intros; apply Hl; by right) Hacc') as [H1 H2].
      split; [exact H1|]. intros Hs. apply H2.
      case_match eqn:E; [left; eauto|]. destruct Hs as [Hs|(p' & Hp' & Ei & Ha)]; [by left|].
      apply elem_of_cons in Hp' as [->|Hp']; [|right; eauto].
      unfold active_row in Ha. rewrite bool_decide_true in E by done. simpl in E. lia. }
  destruct (H (peers db) None) as [H1 H2]; [done|done|]. simpl in H1, H2. split; [apply H1|].
  intros (p & Hp & Ei & Ha & ->). destruct H2 as [y Hy]; [right; eauto|].
  destruct (H1 _ Hy) as (p' & Hp' & Ei' & _ & ->).
  assert (p' = p) as <-; [|done]. apply (ids_ok_inj p_id (peers db)); [by apply ok_peer_ids|done..|lia].
Qed.

(** An endpoint of a rule and its rendering. *)
Definition endpoint_rendered (db : DB) (o : option Z) (ip ip6 : string) : Prop :=
  match o with
  | None => ip = "" ∧ ip6 = ""
  | Some i => ∃ p, p ∈ peers db ∧ p_id p = i ∧ active_row p
      ∧ ip = p_assigned_ip p ∧ ip6 = coalesce (p_assigned_ip6 p) ""
  end.

Lemma assigned_ip_ne st p : mesh_ok st → p ∈ peers (sdb st) → p_assigned_ip p ≠ "".
Proof.
  intros Hm Hp E. destruct (m_overlay _ Hm p Hp) as [Hh _]. destruct (m_nets _ Hm) as [Hn _].
  apply is_host_parses in Hh as [a Ha]; [|done]. by rewrite E in Ha.
Qed.

Lemma policy_rule_spec db r x :
  db_ok db →
  policy_rule db (rule_info db r) = Some x ↔
  endpoint_rendered db (r_src_peer_id r) (xr_SrcIP x) (xr_SrcIP6 x)
  ∧ endpoint_rendered db (r_dst_peer_id r) (xr_DstIP x) (xr_DstIP6 x)
  ∧ xr_Protocol x = r_protocol r ∧ xr_PortMin x = default 0 (r_port_min r)
  ∧ xr_PortMax x = default 0 (r_port_max r).
Proof.
  intros Hdb. unfold policy_rule, rule_info. cbn [ar_SrcPeerID ar_DstPeerID ar_Protocol ar_PortMin ar_PortMax].
  assert (∀ o v, match o with
    | None => Some ("", "")
    | Some i => p ← active_by_id db i; Some (pi_AssignedIP p, pi_AssignedIP6 p)
    end = Some v ↔ endpoint_rendered db o v.1 v.2) as He.
  { intros [i|] v; simpl; [|destruct v; naive_solver]. split.
    - intros H. destruct (active_by_id db i) as [y|] eqn:E; [|done]. simpl in H. simplify_eq.
      apply active_by_id_spec in E as (p & Hp & Hi & Ha & ->); [|done]. by exists p.
    - intros (p & Hp & Hi & Ha & E1 & E2).
      rewrite (proj2 (active_by_id_spec db i (peer_info p) Hdb)) by eauto. simpl. destruct v; simpl in *; congruence. }
  split.
  - intros H. destruct (match r_src_peer_id r with None => _ | Some _ => _ end) as [src|] eqn:E1; [|done].
    destruct (match r_dst_peer_id r with None => _ | Some _ => _ end) as [dst|] eqn:E2; [|done].
    simpl in H. simplify_eq/=. apply He in E1, E2. done.
  - intros (H1 & H2 & H3 & H4 & H5).
    rewrite (proj2 (He _ (xr_SrcIP x, xr_SrcIP6 x)) H1), (proj2 (He _ (xr_DstIP x, xr_DstIP6 x)) H2).
    simpl. rewrite <- H3, <- H4, <- H5. by destruct x.
Qed.

(** C36: the policy sent to agents never widens a rule.  In a default-deny mesh
    it consists exactly of the stored rules whose named endpoints are active
    peers, each rendered with those peers' current addresses; an empty address,
    which agents read as any, appears only where the stored rule has no
    endpoint on that side.  A rule naming a revoked peer is left out. *)
Theorem policy_exact st x :
  mesh_ok st → DefaultAllow (cfg st) = false →
  (x ∈ ap_Rules (buildACLPolicy (cfg st) (sdb st)) ↔
   ∃ r, r ∈ acl_rules (sdb st)
     ∧ endpoint_rendered (sdb st) (r_src_peer_id r) (xr_SrcIP x) (xr_SrcIP6 x)
     ∧ endpoint_rendered (sdb st) (r_dst_peer_id r) (xr_DstIP x) (xr_DstIP6 x)
     ∧ (xr_SrcIP x = "" ↔ r_src_peer_id r = None) ∧ (xr_DstIP x = "" ↔ r_dst_peer_id r = None)
     ∧ xr_Protocol x = r_protocol r ∧ xr_PortMin x = default 0 (r_port_min r)
     ∧ xr_PortMax x = default 0 (r_port_max r)).
Proof.
  intros Hm Hda. unfold buildACLPolicy. rewrite Hda. simpl. unfold ListACLRules.
  assert (∀ o ip ip6, endpoint_rendered (sdb st) o ip ip6 → (ip = "" ↔ o = None)) as Hany.
  { intros [i|] ip ip6; simpl; [|naive_solver]. intros (p & Hp & _ & _ & -> & _).
    split; [|done]. intros E. by apply (assigned_ip_ne st p) in E. }
  rewrite list_elem_of_omap. split.
  - intros (y & Hy & Hx). apply list_elem_of_fmap in Hy as (r & -> & Hr).
    apply policy_rule_spec in Hx as (H1 & H2 & H3); [|apply Hm]. exists r. split_and!; try done; eauto.
    all: apply H3.
  - intros (r & Hr & H1 & H2 & _ & _ & H3). exists (rule_info (sdb st) r).
    split; [by apply list_elem_of_fmap_2|]. apply policy_rule_spec; [apply Hm|]. done.
Qed.

(** ** On the run of three peers: an agent that is gateway and exit, its client,
    and a phone *)
Lemma sample_mesh : mesh_ok sample_run.
Proof. exact (reachable_mesh pad_key sample_cfg sample_run sample_nets_ok sample_reachable). Qed.

Definition ex_server : Server := mkServer "100.64.0.0/30" "" (replicate 32 7) 0 None [] (mkProxyTrust false []) ∅.
Definition ex_rows (i : Z) : PeerRow * list PeerRow :=
  match PeersForID (cfg sample_run) i (sdb sample_run) with
  | Ok r => r
  | Err _ => (peer_row sample_peer, [])
  end.
Lemma ex_rows_ok i :
  is_ok (PeersForID (cfg sample_run) i (sdb sample_run)) = true →
  PeersForID (cfg sample_run) i (sdb sample_run) = Ok ((ex_rows i).1, (ex_rows i).2).
Proof. unfold ex_rows. destruct (PeersForID _ _ _) as [[a b]|]; done. Qed.

(** The gateway's own list: its exit client, and the phone as a direct peer. *)
Example ex_entries :
  (λ e, (pcr_PublicKey e, pcr_AllowedIPs e, pcr_ExitNode e))
  <$> buildPeerEntries StdEncode ex_server (ex_rows 1).1 (ex_rows 1).2
  = [("pubB", ["100.64.0.2/32"], false); ("phone", ["100.64.0.3/32"], false)].
Proof. vm_compute. reflexivity. Qed.

Definition ex_row (i : nat) : PeerRow := nth i (ex_rows 1).2 (ex_rows 1).1.
Lemma nth_elem {A} i (l : list A) d : (i <? length l)%nat = true → nth i l d ∈ l.
Proof. intros H%Nat.ltb_lt. by apply list_elem_of_In, nth_In. Qed.
Lemma ex_row_in i : (i <? length (ex_rows 1).2)%nat = true → ex_row i ∈ (ex_rows 1).2.
Proof. exact (nth_elem i (ex_rows 1).2 (ex_rows 1).1). Qed.
(** The phone is pinned to the reader itself, which has an entry for it. *)
Lemma mesh_routes_unique_witness :
  NoDup (buildPeerEntries StdEncode ex_server (ex_rows 1).1 (ex_rows 1).2 ≫= entry_routes)
  ∧ ∃ e, e ∈ buildPeerEntries StdEncode ex_server (ex_rows 1).1 (ex_rows 1).2 ∧ pcr_PublicKey e = "phone"
      ∧ "100.64.0.3/32" ∈ entry_routes e.
Proof.
  destruct (mesh_routes_unique StdEncode ex_server (cfg sample_run) 1 (sdb sample_run) (ex_rows 1).1 (ex_rows 1).2)
    as [H1 H2].
  - exact (m_db _ sample_mesh).
  - apply ex_rows_ok. vm_compute. reflexivity.
  - split; [exact H1|]. apply (H2 "phone" "100.64.0.3/32").
    exists (ex_row 1), (ex_row 1). split; [apply ex_row_in; vm_compute; reflexivity|].
    split; [vm_compute; left|]. split; [|vm_compute; reflexivity].
    assert (skipped (ex_rows 1).1 (ex_row 1) = false) as E by (vm_compute; reflexivity).
    unfold reached_through. rewrite E. reflexivity.
Defined.

Lemma exit_assignment_delivered_witness :
  (∃ e, e ∈ buildPeerEntries StdEncode ex_server (ex_rows 2).1 (ex_rows 2).2
     ∧ pcr_PublicKey e = "pubA" ∧ pcr_ExitNode e = true ∧ exit_routes ⊆ pcr_AllowedIPs e)
  ∧ exitNodeActiveFor (ex_rows 1).1 (ex_rows 1).2 = true.
Proof.
  destruct (exit_assignment_delivered StdEncode ex_server sample_run (run_peer 1) (run_peer 0)
    (ex_rows 2).1 (ex_rows 2).2 (ex_rows 1).1 (ex_rows 1).2) as (H1 & _ & H2).
  - exact sample_mesh.
  - apply run_peer_in. lia.
  - apply run_peer_in. lia.
  - vm_compute. reflexivity.
  - vm_compute. reflexivity.
  - vm_compute. reflexivity.
  - apply (ex_rows_ok 2). vm_compute. reflexivity.
  - apply (ex_rows_ok 1). vm_compute. reflexivity.
  - split; [exact H1|exact H2].
Defined.

Lemma pair_keys_agree_witness :
  ∃ e e', e ∈ buildPeerEntries StdEncode ex_server (ex_rows 1).1 (ex_rows 1).2
    ∧ e' ∈ buildPeerEntries StdEncode ex_server (ex_rows 2).1 (ex_rows 2).2
    ∧ pcr_PresharedKey e = Some (StdEncode (DerivePairKey (replicate 32 7) "pubA" "pubB"))
    ∧ pcr_PresharedKey e' = pcr_PresharedKey e.
Proof.
  destruct (pair_keys_agree StdEncode ex_server sample_run (run_peer 0) (run_peer 1)
    (ex_rows 1).1 (ex_rows 1).2 (ex_rows 2).1 (ex_rows 2).2)
    as (e & e' & H1 & _ & H2 & _ & H3 & H4 & _).
  - exact sample_mesh.
  - apply run_peer_in. lia.
  - apply run_peer_in. lia.
  - vm_compute. reflexivity.
  - vm_compute. reflexivity.
  - vm_compute. reflexivity.
  - apply visible_may_see; [exact (m_db _ sample_mesh)|apply run_peer_in; lia|apply run_peer_in; lia|].
    vm_compute. reflexivity.
  - apply (ex_rows_ok 1). vm_compute. reflexivity.
  - apply (ex_rows_ok 2). vm_compute. reflexivity.
  - exists e, e'. split; [exact H1|]. split; [exact H2|]. split; [exact H3|exact H4].
Defined.

Lemma policy_exact_witness :
  ∃ r, r ∈ acl_rules (sdb sample_run)
    ∧ endpoint_rendered (sdb sample_run) (r_src_peer_id r) "100.64.0.1" ""
    ∧ endpoint_rendered (sdb sample_run) (r_dst_peer_id r) "100.64.0.2" ""
    ∧ ("100.64.0.1" = "" ↔ r_src_peer_id r = None) ∧ ("100.64.0.2" = "" ↔ r_dst_peer_id r = None)
    ∧ "tcp" = r_protocol r ∧ 22 = default 0 (r_port_min r) ∧ 22 = default 0 (r_port_max r).
Proof.
  apply (policy_exact sample_run (mkProtoRule "100.64.0.1" "" "100.64.0.2" "" "tcp" 22 22)).
  - exact sample_mesh.
  - vm_compute. reflexivity.
  - vm_compute. left.
Defined.
