(* ===== verification/RelayUdp.v ===== *)
(** * The UDP relay

    internal/relay/relay.go: pairs of forwarding sockets ([Allocate],
    [Observed], the cleanup loop, [Close]) and the forwarding of datagrams
    between the two legs of a pair ([wgShaped], [forward]).

    The two [forward] goroutines of a pair run concurrently and share the two
    latched addresses, so one datagram is two atomic steps: [forward_recv]
    (read, check, latch, stamp) and [forward_send] (load the other side's
    address, write).  A leg holds at most one datagram between the two.

    Which ports the operating system can bind is a parameter: [foreign p] says
    that another program holds port [p], [ephemeral used] is the port it picks
    when asked for any. *)
From S2P Require Import Prelude GoText TimeText NetAddr Candidates.

Definition idleTimeout : Z := 10 * Minute.

Definition msgInitiation : Z := 1.
Definition msgResponse : Z := 2.
Definition msgCookie : Z := 3.
Definition msgTransport : Z := 4.

Definition datagram : Type := list Z.

Definition wgShaped (b : datagram) : bool :=
  match b with
  | t :: 0 :: 0 :: 0 :: _ =>
      if t =? msgInitiation then (length b =? 148)%nat
      else if t =? msgResponse then (length b =? 92)%nat
      else if t =? msgCookie then (length b =? 64)%nat
      else if t =? msgTransport then (32 <=? length b)%nat
      else false
  | _ => false
  end.
Definition is_transport (b : datagram) : bool :=
  match b with t :: _ => t =? msgTransport | [] => false end.

(** ** One pair *)
Inductive leg : Type := LegA | LegB.
#[export] Instance leg_eq_dec : EqDecision leg.
Proof. solve_decision. Defined.
Definition opposite (l : leg) : leg := match l with LegA => LegB | LegB => LegA end.

Record pair : Type := mkPair {
  pa_portA : Z; pa_portB : Z;
  pa_srcA : option AddrPort; pa_srcB : option AddrPort;
  pa_pendA : option datagram; pa_pendB : option datagram;
  pa_lastActive : Z
}.
Definition pa_src (l : leg) (p : pair) : option AddrPort :=
  match l with LegA => pa_srcA p | LegB => pa_srcB p end.
Definition pa_pend (l : leg) (p : pair) : option datagram :=
  match l with LegA => pa_pendA p | LegB => pa_pendB p end.
Definition set_src (l : leg) (a : AddrPort) (p : pair) : pair :=
  match l with
  | LegA => mkPair (pa_portA p) (pa_portB p) (Some a) (pa_srcB p) (pa_pendA p) (pa_pendB p) (pa_lastActive p)
  | LegB => mkPair (pa_portA p) (pa_portB p) (pa_srcA p) (Some a) (pa_pendA p) (pa_pendB p) (pa_lastActive p)
  end.
Definition set_pend (l : leg) (d : option datagram) (p : pair) : pair :=
  match l with
  | LegA => mkPair (pa_portA p) (pa_portB p) (pa_srcA p) (pa_srcB p) d (pa_pendB p) (pa_lastActive p)
  | LegB => mkPair (pa_portA p) (pa_portB p) (pa_srcA p) (pa_srcB p) (pa_pendA p) d (pa_lastActive p)
  end.
Definition touch (now : Z) (p : pair) : pair :=
  mkPair (pa_portA p) (pa_portB p) (pa_srcA p) (pa_srcB p) (pa_pendA p) (pa_pendB p) now.

(** From [ReadFromUDPAddrPort] to the time stamp. *)
Definition forward_recv (l : leg) (now : Z) (src : AddrPort) (pkt : datagram) (p : pair) : pair :=
  if negb (wgShaped pkt) then p
  else
    let latch := match pa_src l p with
                 | None => true
                 | Some cur => bool_decide (cur ≠ src)
                 end in
    if latch && bool_decide (pa_src l p ≠ None) && is_transport pkt then p
    else set_pend l (Some pkt) (touch now (if latch then set_src l src p else p)).

(** From the load of the other side's address to the write: the socket used, the
    destination and the datagram. *)
Definition forward_send (l : leg) (p : pair) : pair * option (leg * AddrPort * datagram) :=
  match pa_pend l p with
  | None => (p, None)
  | Some pkt =>
      (set_pend l None p,
       match pa_src (opposite l) p with
       | None => None
       | Some dst => Some (opposite l, dst, pkt)
       end)
  end.

Inductive fevent : Type :=
| Recv (l : leg) (now : Z) (src : AddrPort) (pkt : datagram)
| Send (l : leg).

(** The goroutine of a leg reads only when it has written the datagram before. *)
Inductive fstep : pair → fevent → option (leg * AddrPort * datagram) → pair → Prop :=
| fstep_recv l now src pkt p :
    pa_pend l p = None → fstep p (Recv l now src pkt) None (forward_recv l now src pkt p)
| fstep_send l p pkt :
    pa_pend l p = Some pkt → fstep p (Send l) (forward_send l p).2 (forward_send l p).1.

Inductive ftrace : pair → list (fevent * option (leg * AddrPort * datagram)) → pair → Prop :=
| ftrace_nil p : ftrace p [] p
| ftrace_snoc p tr q e o r : ftrace p tr q → fstep q e o r → ftrace p (tr ++ [(e, o)]) r.

(** ** The server *)
Record RelayConfig : Type := mkRelayConfig { PortMin : Z; PortMax : Z }.

(** [New]: the errors of the configuration. *)
Definition relay_New (c : RelayConfig) : result (gmap string pair) :=
  if negb (Bool.eqb (PortMin c =? 0) (PortMax c =? 0))
  then Err (ErrMsg "set both PortMin and PortMax, or neither")
  else if PortMax c <? PortMin c then Err (ErrMsg "PortMin exceeds PortMax")
  else Ok ∅.

Section server.
Context (foreign : Z → bool) (ephemeral : gset Z → option Z) (c : RelayConfig).

(** Ports held by live pairs. *)
Definition held (pairs : gmap string pair) : gset Z :=
  map_fold (λ _ p s, {[pa_portA p]} ∪ ({[pa_portB p]} ∪ s)) ∅ pairs.

(** [for p := PortMin; p <= PortMax; p++]: [n] ports are left. *)
Fixpoint bind_walk (n : nat) (p : Z) (used : gset Z) : option Z :=
  match n with
  | O => None
  | S n => if bool_decide (p ∈ used) || foreign p then bind_walk n (p + 1) used else Some p
  end.
Definition listenUDP (used : gset Z) : option Z :=
  if PortMin c =? 0 then ephemeral used
  else bind_walk (Z.to_nat (PortMax c - PortMin c + 1)) (PortMin c) used.

(** [None] is the error [ErrPortsExhausted] (or the bind error of an ephemeral
    port); a failed second bind closes the first socket. *)
Definition Allocate (now : Z) (id : string) (pairs : gmap string pair)
  : option (Z * Z) * gmap string pair :=
  match pairs !! id with
  | Some p => (Some (pa_portA p, pa_portB p), <[id := touch now p]> pairs)
  | None =>
      match listenUDP (held pairs) with
      | None => (None, pairs)
      | Some a =>
          match listenUDP ({[a]} ∪ held pairs) with
          | None => (None, pairs)
          | Some b => (Some (a, b), <[id := mkPair a b None None None None now]> pairs)
          end
      end
  end.

Definition Observed (id : string) (pairs : gmap string pair) : option (AddrPort * AddrPort) :=
  match pairs !! id with
  | None => None
  | Some p => Some (default no_addrport (pa_srcA p), default no_addrport (pa_srcB p))
  end.

(** One pass of the cleanup loop. *)
Definition cleanup (now : Z) (pairs : gmap string pair) : gmap string pair :=
  filter (λ kv, ¬ idleTimeout < now - pa_lastActive kv.2) pairs.

Inductive rstep : gmap string pair → gmap string pair → Prop :=
| rstep_allocate now id pairs : rstep pairs (Allocate now id pairs).2
| rstep_cleanup now pairs : rstep pairs (cleanup now pairs)
| rstep_forward id p e o p' pairs :
    pairs !! id = Some p → fstep p e o p' → rstep pairs (<[id := p']> pairs)
| rstep_close pairs : rstep pairs ∅.
Inductive relay_reachable : gmap string pair → Prop :=
| relay_start : relay_reachable ∅
| relay_step pairs pairs' : relay_reachable pairs → rstep pairs pairs' → relay_reachable pairs'.
End server.
