(* ===== verification/RelayFacts.v ===== *)
(** * Facts about the UDP relay

    Over every interleaving of the two forwarding goroutines: what is sent
    where, and that a data packet cannot move a latched address; over every
    sequence of allocations, expiries and traffic: ports are never shared. *)
From S2P Require Import Prelude GoText TimeText NetAddr Psk Candidates RelayUdp.

Lemma src_set_src l l' a p : pa_src l (set_src l' a p) = if decide (l = l') then Some a else pa_src l p.
Proof. by destruct l, l'. Qed.
Lemma src_set_pend l l' d p : pa_src l (set_pend l' d p) = pa_src l p.
Proof. by destruct l, l'. Qed.
Lemma src_touch l now p : pa_src l (touch now p) = pa_src l p.
Proof. by destruct l. Qed.
Lemma pend_set_src l l' a p : pa_pend l (set_src l' a p) = pa_pend l p.
Proof. by destruct l, l'. Qed.
Lemma pend_set_pend l l' d p : pa_pend l (set_pend l' d p) = if decide (l = l') then d else pa_pend l p.
Proof. by destruct l, l'. Qed.
Lemma pend_touch l now p : pa_pend l (touch now p) = pa_pend l p.
Proof. by destruct l. Qed.
Create Rewrite HintDb relay.
#[export] Hint Rewrite src_set_src src_set_pend src_touch pend_set_src pend_set_pend pend_touch : relay.

Lemma opposite_ne l : opposite l ≠ l.
Proof. by destruct l. Qed.
Lemma opposite_opposite l : opposite (opposite l) = l.
Proof. by destruct l. Qed.

(** A datagram is taken exactly when it is WireGuard-shaped and comes from the
    latched address, or finds none, or is not transport data. *)
Definition takes (l : leg) (src : AddrPort) (pkt : datagram) (p : pair) : bool :=
  wgShaped pkt &&
  match pa_src l p with
  | None => true
  | Some cur => bool_decide (cur = src) || negb (is_transport pkt)
  end.

Lemma forward_recv_takes l now src pkt p :
  forward_recv l now src pkt p
  = if takes l src pkt p
    then set_pend l (Some pkt) (touch now
           (if bool_decide (pa_src l p = Some src) then p else set_src l src p))
    else p.
Proof.
  unfold forward_recv, takes. destruct (wgShaped pkt); [|done]. cbn [negb andb].
  destruct (pa_src l p) as [cur|]; [|done]. destruct (decide (cur = src)) as [->|Hc].
  - by rewrite (bool_decide_false (src ≠ src)), !bool_decide_true by naive_solver.
  - rewrite (bool_decide_true (cur ≠ src)), (bool_decide_false (cur = src)),
      (bool_decide_false (Some cur = Some src)), bool_decide_true by naive_solver.
    by destruct (is_transport pkt).
Qed.

Lemma recv_src l now src pkt p l' :
  pa_src l' (forward_recv l now src pkt p)
  = if decide (l' = l) then (if takes l src pkt p then Some src else pa_src l' p) else pa_src l' p.
Proof.
  rewrite forward_recv_takes. destruct (takes l src pkt p); autorewrite with relay; [|by case_decide].
  case_bool_decide; [case_decide; [by subst|done]|]. autorewrite with relay. by case_decide.
Qed.

Lemma recv_pend l now src pkt p l' :
  pa_pend l' (forward_recv l now src pkt p)
  = if decide (l' = l) then (if takes l src pkt p then Some pkt else pa_pend l' p) else pa_pend l' p.
Proof.
  rewrite forward_recv_takes. destruct (takes l src pkt p); autorewrite with relay; [|by case_decide].
  case_decide; [done|]. case_bool_decide; by autorewrite with relay.
Qed.

(** A step as seen from one leg. *)
Lemma fstep_src p e o p' l :
  fstep p e o p' →
  pa_src l p' = pa_src l p
  ∨ ∃ now src pkt, e = Recv l now src pkt ∧ takes l src pkt p = true ∧ pa_src l p' = Some src.
Proof.
  destruct 1 as [l' now src pkt p Hn|l' p pkt Hp].
  - rewrite recv_src. case_decide; [subst l'|by left]. destruct (takes l src pkt p) eqn:E; [|by left].
    right. eauto 10.
  - left. unfold forward_send. rewrite Hp. simpl. by autorewrite with relay.
Qed.

Lemma fstep_pend p e o p' l d :
  fstep p e o p' → pa_pend l p' = Some d →
  pa_pend l p = Some d ∨ ∃ now src, e = Recv l now src d ∧ takes l src d p = true.
Proof.
  destruct 1 as [l' now src pkt p Hn|l' p pkt Hp].
  - rewrite recv_pend. case_decide; [subst l'|by left]. destruct (takes l src pkt p) eqn:E; [|by left].
    intros [= ->]. right. eauto.
  - unfold forward_send. rewrite Hp. simpl. autorewrite with relay. case_decide; [done|by left].
Qed.

Lemma fstep_out p e o p' l dst d :
  fstep p e o p' → o = Some (l, dst, d) → pa_src l p = Some dst ∧ pa_pend (opposite l) p = Some d.
Proof.
  destruct 1 as [l' now src pkt p Hn|l' p pkt Hp]; [done|].
  unfold forward_send. rewrite Hp. simpl. destruct (pa_src (opposite l') p) as [a|] eqn:E; [|done].
  intros [= <- <- <-]. by rewrite opposite_opposite.
Qed.

Lemma takes_shaped l src pkt p : takes l src pkt p = true → wgShaped pkt = true.
Proof. unfold takes. by intros [? _]%andb_prop. Qed.

(** ** Where datagrams go *)
Definition received (l : leg) (src : AddrPort) (d : datagram)
    (tr : list (fevent * option (leg * AddrPort * datagram))) : Prop :=
  ∃ now o, (Recv l now src d, o) ∈ tr ∧ wgShaped d = true.

Lemma received_app l src d tr x : received l src d tr → received l src d (tr ++ [x]).
Proof. intros (now & o & H & ?). exists now, o. split; [apply elem_of_app; by left|done]. Qed.
Lemma received_here l now src d o tr :
  wgShaped d = true → received l src d (tr ++ [(Recv l now src d, o)]).
Proof. intros. exists now, o. split; [apply elem_of_app; right; left|done]. Qed.

Definition known_peer (p : pair) (tr : list (fevent * option (leg * AddrPort * datagram))) (l : leg)
    (a : AddrPort) : Prop :=
  pa_src l p = Some a ∨ ∃ d, received l a d tr.

Lemma trace_known p tr q :
  ftrace p tr q → (∀ l, pa_pend l p = None) →
  (∀ l a, pa_src l q = Some a → known_peer p tr l a)
  ∧ (∀ l d, pa_pend l q = Some d → ∃ src, received l src d tr).
Proof.
  induction 1 as [p|p tr q e o r Htr IH Hs]; intros Hp0.
  - split; [by left|]. intros l d. by rewrite Hp0.
  - destruct (IH Hp0) as [IH1 IH2]. split.
    + intros l a Ha. destruct (fstep_src _ _ _ _ l Hs) as [E|(now & src & pkt & -> & Ht & E)].
      * destruct (IH1 l a) as [?|[d ?]]; [congruence|by left|]. right. exists d. by apply received_app.
      * rewrite E in Ha. injection Ha as ->. right. exists pkt. apply received_here. by eapply takes_shaped.
    + intros l d Hd. destruct (fstep_pend _ _ _ _ l d Hs Hd) as [E|(now & src & -> & Ht)].
      * destruct (IH2 l d E) as [src ?]. exists src. by apply received_app.
      * exists src. apply received_here. by eapply takes_shaped.
Qed.

(** C7: the relay is neither an amplifier nor a reflector.  Whatever datagrams
    arrive on the two legs, in whatever interleaving of the two goroutines,
    every datagram it sends is byte for byte a WireGuard-shaped one that
    arrived on the opposite leg, and it goes to an address that has itself sent
    a WireGuard-shaped datagram to that leg (or was latched before). *)
Theorem relay_forwards_only p tr q e l dst d :
  ftrace p tr q → (∀ l, pa_pend l p = None) → (e, Some (l, dst, d)) ∈ tr →
  known_peer p tr l dst ∧ ∃ src, received (opposite l) src d tr.
Proof.
  induction 1 as [p|p tr q e' o r Htr IH Hs]; intros Hp0 Hin; [by apply elem_of_nil in Hin|].
  apply elem_of_app in Hin as [Hin|Hin].
  - destruct (IH Hp0 Hin) as [[?|[d' ?]] [src ?]].
    + split; [by left|]. exists src. by apply received_app.
    + split; [right; exists d'; by apply received_app|]. exists src. by apply received_app.
  - apply list_elem_of_singleton in Hin. injection Hin as <- <-.
    destruct (fstep_out _ _ _ _ _ _ _ Hs eq_refl) as [Ha Hd].
    destruct (trace_known _ _ _ Htr Hp0) as [H1 H2].
    destruct (H2 _ _ Hd) as [src Hsrc]. destruct (H1 _ _ Ha) as [?|[d' ?]].
    + split; [by left|]. exists src. by apply received_app.
    + split; [right; exists d'; by apply received_app|]. exists src. by apply received_app.
Qed.

(** ** A latched address *)
Definition honest (l : leg) (a : AddrPort) (e : fevent) : Prop :=
  match e with
  | Recv l' _ src pkt => l' = l → src = a ∨ wgShaped pkt = false ∨ is_transport pkt = true
  | Send _ => True
  end.

(** What may be in flight on the leg: what it held before, or a datagram from
    the latched address. *)
Definition from_peer (p : pair) (l : leg) (a : AddrPort)
    (tr : list (fevent * option (leg * AddrPort * datagram))) (d : datagram) : Prop :=
  pa_pend l p = Some d ∨ received l a d tr.

Lemma latched_trace p tr q l a :
  ftrace p tr q → pa_src l p = Some a → Forall (λ x, honest l a x.1) tr →
  pa_src l q = Some a
  ∧ (∀ d, pa_pend l q = Some d → from_peer p l a tr d)
  ∧ (∀ e dst d, (e, Some (l, dst, d)) ∈ tr → dst = a)
  ∧ (∀ e dst d, (e, Some (opposite l, dst, d)) ∈ tr → from_peer p l a tr d).
Proof.
  induction 1 as [p|p tr q e o r Htr IH Hs]; intros Ha Hh.
  { split_and!; [done|by left| |]; intros e dst d Hin; by apply elem_of_nil in Hin. }
  apply Forall_app in Hh as [Hh [He _]%Forall_cons]. simpl in He.
  destruct (IH Ha Hh) as (Hq & Hpend & Hto & Hfrom). clear IH.
  assert (∀ d, from_peer p l a tr d → from_peer p l a (tr ++ [(e, o)]) d) as Hmono.
  { intros d [?|?]; [by left|right; by apply received_app]. }
  assert (∀ now src pkt, e = Recv l now src pkt → takes l src pkt q = true → src = a) as Htake.
  { intros now src pkt -> Ht. unfold takes in Ht. rewrite Hq in Ht. apply andb_prop in Ht as [Hw Ht].
    destruct (He eq_refl) as [?|[?|Htr']]; [done|congruence|]. rewrite Htr' in Ht.
    case_bool_decide; [done|]. done. }
  split_and!.
  - destruct (fstep_src _ _ _ _ l Hs) as [E|(now & src & pkt & Ee & Ht & E)]; [congruence|].
    rewrite E. f_equal. by eapply Htake.
  - intros d Hd. destruct (fstep_pend _ _ _ _ l d Hs Hd) as [E|(now & src & -> & Ht)]; [auto|].
    right. rewrite (Htake _ _ _ eq_refl Ht) in *. apply received_here. by eapply takes_shaped.
  - intros e' dst d [Hin|Hin]%elem_of_app; [by eapply Hto|].
    apply list_elem_of_singleton in Hin. injection Hin as <- <-.
    destruct (fstep_out _ _ _ _ _ _ _ Hs eq_refl). congruence.
  - intros e' dst d [Hin|Hin]%elem_of_app; [by eapply Hmono, Hfrom|].
    apply list_elem_of_singleton in Hin. injection Hin as <- <-.
    destruct (fstep_out _ _ _ _ _ _ _ Hs eq_refl) as [_ Hd]. rewrite opposite_opposite in Hd. auto.
Qed.

(** C6: an off-path attacker cannot steal a relayed stream.  Once a leg has
    latched a peer's address, and as long as only that peer sends handshake
    messages to the leg, no junk and no transport packet from any other source,
    however many and however interleaved, changes the address: everything
    relayed towards that leg goes to the peer, and nothing from another source
    is relayed onwards. *)
Theorem relay_no_hijack p tr q l a :
  ftrace p tr q → (∀ l, pa_pend l p = None) → pa_src l p = Some a → Forall (λ x, honest l a x.1) tr →
  pa_src l q = Some a
  ∧ (∀ e dst d, (e, Some (l, dst, d)) ∈ tr → dst = a)
  ∧ (∀ e dst d, (e, Some (opposite l, dst, d)) ∈ tr → received l a d tr).
Proof.
  intros Htr Hp0 Ha Hh. destruct (latched_trace p tr q l a Htr Ha Hh) as (H1 & _ & H2 & H3).
  split_and!; [done|done|]. intros e dst d Hin. destruct (H3 e dst d Hin) as [H|H]; [|done].
  by rewrite Hp0 in H.
Qed.

(** A peer that moved is found again with its next handshake message. *)
Lemma roaming_converges l now src pkt p :
  wgShaped pkt = true → is_transport pkt = false → pa_src l (forward_recv l now src pkt p) = Some src.
Proof.
  intros Hw Ht. rewrite recv_src, decide_True by done. unfold takes. rewrite Hw, Ht. cbn [andb negb].
  destruct (pa_src l p); [|done]. by rewrite orb_true_r.
Qed.

(** ** Ports *)
Definition ports (p : pair) : list Z := [pa_portA p; pa_portB p].

Lemma elem_of_held pairs x : x ∈ held pairs ↔ ∃ id p, pairs !! id = Some p ∧ x ∈ ports p.
Proof.
  unfold held. revert x. apply (map_fold_weak_ind (λ s (m : gmap string pair),
    ∀ x, x ∈ s ↔ ∃ id p, m !! id = Some p ∧ x ∈ ports p)).
  - intros x. split; [set_solver|]. intros (id & p & H & _). by rewrite lookup_empty in H.
  - intros id p m s Hid IH x. rewrite !elem_of_union, !elem_of_singleton, IH. split.
    + intros [->|[->|(id' & p' & H & Hx)]].
      * exists id, p. rewrite lookup_insert_eq. split; [done|left].
      * exists id, p. rewrite lookup_insert_eq. split; [done|right; left].
      * exists id', p'. rewrite lookup_insert_ne; [done|congruence].
    + intros (id' & p' & [[-> ->]|[Hne H]]%lookup_insert_Some & Hx).
      * unfold ports in Hx. rewrite !elem_of_cons, elem_of_nil in Hx. naive_solver.
      * right; right. eauto.
Qed.

Section ports.
Context (foreign : Z → bool) (ephemeral : gset Z → option Z) (c : RelayConfig).

(** What binding to port 0 guarantees. *)
Hypothesis ephemeral_free : ∀ used p, ephemeral used = Some p → (p ∉ used) ∧ (1 ≤ p ≤ 65535).

Definition in_range (x : Z) : Prop :=
  if PortMin c =? 0 then 1 ≤ x ≤ 65535 else (PortMin c ≤ x ≤ PortMax c) ∧ foreign x = false.

Lemma bind_walk_Some n p used x :
  bind_walk foreign n p used = Some x → (p ≤ x < p + Z.of_nat n) ∧ (x ∉ used) ∧ foreign x = false.
Proof.
  revert p. induction n as [|n IH]; intros p; [done|]. cbn [bind_walk].
  case_bool_decide as Hu; cbn [orb].
  - intros H. apply IH in H as (? & ? & ?). split_and!; [lia|lia|done|done].
  - destruct (foreign p) eqn:E; [intros H'; apply IH in H' as (? & ? & ?); split_and!; [lia|lia|done|done]|].
    intros [= ->]. split_and!; [lia|lia|done|done].
Qed.

Lemma listenUDP_Some used x : listenUDP foreign ephemeral c used = Some x → (x ∉ used) ∧ in_range x.
Proof.
  unfold listenUDP, in_range. case_match eqn:E.
  - intros Hx. by apply ephemeral_free.
  - intros Hx. apply bind_walk_Some in Hx as (? & ? & ?). split_and!; try done; lia.
Qed.

Record relay_ok (pairs : gmap string pair) : Prop := {
  rk_own : ∀ id p, pairs !! id = Some p → NoDup (ports p) ∧ Forall in_range (ports p);
  rk_apart : ∀ id id' p p' x, pairs !! id = Some p → pairs !! id' = Some p' →
    x ∈ ports p → x ∈ ports p' → id = id'
}.

Lemma relay_ok_update pairs id p p' :
  relay_ok pairs → pairs !! id = Some p → ports p' = ports p → relay_ok (<[id := p']> pairs).
Proof.
  intros [H1 H2] Hp E. split.
  - intros i q [[-> ->]|[_ Hq]]%lookup_insert_Some; [rewrite E; eauto|eauto].
  - intros i i' q q' x [[-> ->]|[? Hq]]%lookup_insert_Some [[-> ->]|[? Hq']]%lookup_insert_Some;
      rewrite ?E; eauto.
Qed.

Lemma relay_ok_sub pairs pairs' : relay_ok pairs → pairs' ⊆ pairs → relay_ok pairs'.
Proof.
  intros [H1 H2] Hs. split.
  - intros id p Hp. eapply H1, lookup_weaken; eauto.
  - intros id id' p p' x Hp Hp'. eapply H2; eapply lookup_weaken; eauto.
Qed.

Lemma Allocate_new now id pairs a b pairs' :
  pairs !! id = None → Allocate foreign ephemeral c now id pairs = (Some (a, b), pairs') →
  (a ∉ held pairs) ∧ (b ∉ held pairs) ∧ a ≠ b ∧ in_range a ∧ in_range b
  ∧ pairs' = <[id := mkPair a b None None None None now]> pairs.
Proof.
  unfold Allocate. intros ->. destruct (listenUDP _ _ _ (held pairs)) as [a'|] eqn:Ea; [|done].
  destruct (listenUDP _ _ _ ({[a']} ∪ held pairs)) as [b'|] eqn:Eb; [|done].
  intros [= -> -> <-]. apply listenUDP_Some in Ea as [? ?], Eb as [? ?]. set_solver.
Qed.

Lemma Allocate_pair now id pairs a b pairs' :
  relay_ok pairs → Allocate foreign ephemeral c now id pairs = (Some (a, b), pairs') →
  ∃ p, pairs' !! id = Some p ∧ pa_portA p = a ∧ pa_portB p = b ∧ a ≠ b.
Proof.
  intros Hok HA. destruct (pairs !! id) as [p|] eqn:E.
  - unfold Allocate in HA. rewrite E in HA. injection HA as <- <- <-.
    exists (touch now p). rewrite lookup_insert_eq. split_and!; [done..|].
    destruct (rk_own _ Hok _ _ E) as [Hd _]. apply NoDup_cons in Hd as [Hd _]. set_solver.
  - apply Allocate_new in HA as (_ & _ & Hab & _ & _ & ->); [|done].
    eexists. rewrite lookup_insert_eq. split; [done|]. done.
Qed.

Lemma Allocate_ok now id pairs : relay_ok pairs → relay_ok (Allocate foreign ephemeral c now id pairs).2.
Proof.
  intros Hok. destruct (Allocate foreign ephemeral c now id pairs) as [r pairs'] eqn:E. simpl.
  destruct (pairs !! id) as [p|] eqn:Ep.
  - unfold Allocate in E. rewrite Ep in E. simplify_eq. by eapply relay_ok_update.
  - destruct r as [[a b]|].
    + apply Allocate_new in E as (Ha & Hb & Hab & Ra & Rb & ->); [|done].
      assert (∀ i q x, pairs !! i = Some q → x ∈ ports q → x ≠ a ∧ x ≠ b) as Hfree.
      { intros i q x Hq Hx. split; intros ->; [apply Ha|apply Hb]; apply elem_of_held; eauto. }
      destruct Hok as [H1 H2]. split.
      * intros i q [[-> <-]|[_ Hq]]%lookup_insert_Some; [|eauto].
        unfold ports; simpl. split; [|repeat constructor; done].
        apply NoDup_cons. split; [set_solver|apply NoDup_singleton].
      * intros i i' q q' x [[-> <-]|[? Hq]]%lookup_insert_Some [[-> <-]|[? Hq']]%lookup_insert_Some Hx Hx';
          try done; [| |by eapply H2].
        -- destruct (Hfree _ _ _ Hq' Hx'). unfold ports in Hx; simpl in Hx. set_solver.
        -- destruct (Hfree _ _ _ Hq Hx). unfold ports in Hx'; simpl in Hx'. set_solver.
    + unfold Allocate in E. rewrite Ep in E. repeat case_match; by simplify_eq.
Qed.

Lemma fstep_ports p e o p' : fstep p e o p' → ports p' = ports p.
Proof.
  destruct 1 as [l now src pkt p Hn|l p pkt Hp].
  - rewrite forward_recv_takes. case_match; [|done]. by destruct l; case_bool_decide.
  - unfold forward_send. rewrite Hp. by destruct l.
Qed.

Lemma reachable_relay_ok pairs : relay_reachable foreign ephemeral c pairs → relay_ok pairs.
Proof.
  induction 1 as [|pairs pairs' _ IH Hs].
  - split; intros *; by rewrite lookup_empty.
  - destruct Hs as [now id pairs|now pairs|id p e o p' pairs Hp Hf|pairs].
    + by apply Allocate_ok.
    + eapply relay_ok_sub; [done|]. apply map_filter_subseteq.
    + eapply relay_ok_update; [done..|]. by eapply fstep_ports.
    + eapply relay_ok_sub; [done|]. apply map_empty_subseteq.
Qed.

(** In every state the relay can reach by allocating, forwarding, expiring
    and closing, no port serves two legs: the two ports of a pair differ,
    lie in the configured range, and belong to no other pair; and asking
    again for a pair gives the same two ports. *)
Theorem relay_ports_disjoint pairs id p :
  relay_reachable foreign ephemeral c pairs → pairs !! id = Some p →
  pa_portA p ≠ pa_portB p ∧ in_range (pa_portA p) ∧ in_range (pa_portB p)
  ∧ (∀ id' p' x, pairs !! id' = Some p' → id' ≠ id → x ∈ ports p → x ∈ ports p' → False)
  ∧ ∀ now, (Allocate foreign ephemeral c now id pairs).1 = Some (pa_portA p, pa_portB p).
Proof using ephemeral_free.
  intros Hr Hp. destruct (reachable_relay_ok _ Hr) as [H1 H2].
  destruct (H1 _ _ Hp) as [Hd Hin]. unfold ports in Hd, Hin.
  apply NoDup_cons in Hd as [Hd _]. apply Forall_cons in Hin as [Ha [Hb _]%Forall_cons].
  split_and!; [set_solver|done|done| |].
  - intros id' p' x Hp' Hne Hx Hx'. apply Hne. by eapply H2.
  - intros now. unfold Allocate. by rewrite Hp.
Qed.
End ports.

(** ** A concrete relay *)
Definition ex_relay : RelayConfig := mkRelayConfig 40000 40005.
Definition no_ephemeral : gset Z → option Z := λ _, None.
Definition ex_pairs : gmap string pair :=
  (Allocate (Z.eqb 40001) no_ephemeral ex_relay 7 "cd"
     (Allocate (Z.eqb 40001) no_ephemeral ex_relay 5 "ab" ∅).2).2.
Definition ex_pair : pair := mkPair 40000 40002 None None None None 5.

Lemma relay_ports_disjoint_witness :
  ex_pairs !! "ab" = Some ex_pair ∧ pa_portA ex_pair ≠ pa_portB ex_pair
  ∧ (Allocate (Z.eqb 40001) no_ephemeral ex_relay 9 "ab" ex_pairs).1 = Some (40000, 40002).
Proof.
  destruct (relay_ports_disjoint (Z.eqb 40001) no_ephemeral ex_relay ltac:(done) ex_pairs "ab" ex_pair)
    as (H1 & _ & _ & _ & H2).
  - eapply relay_step; [eapply relay_step; [apply relay_start|]|]; apply rstep_allocate.
  - vm_compute. reflexivity.
  - split; [vm_compute; reflexivity|]. split; [exact H1|exact (H2 9)].
Defined.

(** The peers at 192.0.2.1 and 192.0.2.2, an attacker, and a handshake. *)
Definition ex_peer (n : Z) : AddrPort := mkAddrPort (V4 (3221225984 + n)) 51820.
Definition ex_packet (t : Z) (len : nat) : datagram := t :: replicate (len - 1) 0.
Definition ex_latched : pair := mkPair 40000 40002 (Some (ex_peer 1)) None None None 5.
Definition ex_trace : list (fevent * option (leg * AddrPort * datagram)) :=
  [(Recv LegB 6 (ex_peer 2) (ex_packet 1 148), None);
   (Send LegB, Some (LegA, ex_peer 1, ex_packet 1 148));
   (Recv LegA 7 (ex_peer 66) (ex_packet 4 32), None);
   (Recv LegA 8 (ex_peer 1) (ex_packet 2 92), None);
   (Send LegA, Some (LegB, ex_peer 2, ex_packet 2 92))].
Definition ex_final : pair :=
  mkPair 40000 40002 (Some (ex_peer 1)) (Some (ex_peer 2)) None None 8.

(** Running a list of events; an event that is not enabled stops the run. *)
Fixpoint frun (p : pair) (es : list fevent)
  : option (list (fevent * option (leg * AddrPort * datagram)) * pair) :=
  match es with
  | [] => Some ([], p)
  | e :: es =>
      '(o, q) ← match e, pa_pend (match e with Recv l _ _ _ | Send l => l end) p with
                | Recv l now src pkt, None => Some (None, forward_recv l now src pkt p)
                | Send l, Some _ => Some ((forward_send l p).2, (forward_send l p).1)
                | _, _ => None
                end;
      '(tr, r) ← frun q es; Some ((e, o) :: tr, r)
  end.

Lemma ftrace_cons p e o q tr r : fstep p e o q → ftrace q tr r → ftrace p ((e, o) :: tr) r.
Proof.
  intros Hs. induction 1 as [q|q tr q' e' o' r _ IH Hs'].
  - apply (ftrace_snoc p [] p); [constructor|done].
  - rewrite app_comm_cons. by eapply ftrace_snoc; [apply IH|].
Qed.

Lemma frun_ftrace p es tr q : frun p es = Some (tr, q) → ftrace p tr q.
Proof.
  revert p tr. induction es as [|e es IH]; intros p tr; cbn [frun]; [intros [= <- <-]; constructor|].
  destruct e as [l now src pkt|l]; destruct (pa_pend l p) as [d|] eqn:E; try done; rewrite bind_Some;
    destruct (frun _ es) as [[tr' r]|] eqn:Er; try done; rewrite bind_Some; intros [= <- <-];
    eapply ftrace_cons; [by constructor|by apply IH|by econstructor|by apply IH].
Qed.

Lemma ex_runs : ftrace ex_latched ex_trace ex_final.
Proof. apply (frun_ftrace ex_latched (fst <$> ex_trace)). vm_compute. reflexivity. Qed.

Lemma relay_forwards_only_witness :
  known_peer ex_latched ex_trace LegA (ex_peer 1)
  ∧ ∃ src, received LegB src (ex_packet 1 148) ex_trace.
Proof.
  apply (relay_forwards_only ex_latched ex_trace ex_final (Send LegB) LegA (ex_peer 1) (ex_packet 1 148)).
  - exact ex_runs.
  - by intros [].
  - right. left.
Defined.

Lemma relay_no_hijack_witness :
  pa_src LegA ex_final = Some (ex_peer 1)
  ∧ (∀ e dst d, (e, Some (LegA, dst, d)) ∈ ex_trace → dst = ex_peer 1).
Proof.
  destruct (relay_no_hijack ex_latched ex_trace ex_final LegA (ex_peer 1)) as (H1 & H2 & _).
  - exact ex_runs.
  - by intros [].
  - reflexivity.
  - unfold ex_trace. do 5 (apply Forall_cons; split; [simpl; first [exact I|intros E; try discriminate E; auto]|]).
    apply Forall_nil. exact I.
  - split; [exact H1|exact H2].
Defined.
