(* ===== verification/Handlers.v ===== *)
(** * The agents' endpoints

    cmd/server/main.go [handleEnroll], report.go [handleReport] and relay.go
    [handleRelayPair] as whole transitions of the server and its store, with
    every early return: the guards of the request, the authentication of the
    peer token, the writes in their order, the audit trail (observability.go
    [audit]), and the answer.

    A request body reaches a handler already decoded: [TooLarge] and [BadJSON]
    are the two failures of [httpx.DecodeJSON].  [ParseKey] and [KeyString]
    belong to the wgctrl module and [ResolveUDPAddr] asks the resolver of the
    host; they are parameters. *)
From S2P Require Import Prelude GoText TimeText NetAddr HostPort Psk Json Schema Enroll Admin Acl ExitNode Network Dns Telemetry Candidates Punch ClientIP PeerEntries RelayUdp.

Inductive reply (A : Type) : Type :=
| Status (code : Z) (msg : string)
| Good (body : A).
Arguments Status {A} code msg.
Arguments Good {A} body.

Inductive body (A : Type) : Type :=
| TooLarge
| BadJSON
| Decoded (a : A).
Arguments TooLarge {A}.
Arguments BadJSON {A}.
Arguments Decoded {A} a.

(** [httpx.DecodeJSON] *)
Definition DecodeJSON {A} (maxBytes : Z) (b : body A) : Z * string + A :=
  match b with
  | TooLarge => inl (413, "request body exceeds " +:+ Itoa maxBytes +:+ " bytes")
  | BadJSON => inl (400, "invalid JSON")
  | Decoded a => inr a
  end.

(** [proto.EnrollRequest] *)
Record EnrollRequest : Type := mkEnrollRequest {
  en_SetupKey : string; en_PublicKey : string; en_Hostname : string; en_ListenPort : Z;
  en_PublicEndpoint : string; en_Candidates : list AgentCandidate; en_AdvertiseExitNode : bool
}.
(** [proto.ReportResponse] *)
Record ReportResponse : Type := mkReportResponse {
  rr_AssignedIP : string; rr_AssignedIP6 : string; rr_NetworkCIDR : string; rr_NetworkCIDR6 : string;
  rr_DNS : DNSConfig; rr_Peers : list PeerConfigResponse; rr_ACL : ACLPolicy;
  rr_GatewayRoutes : list string; rr_ExitNodeActive : bool; rr_STUNServers : list string
}.

(** The server and its store; [w_signals] are the sync-now messages addressed to
    single peers, oldest first. *)
Record World : Type := mkWorld { w_server : Server; w_store : Store; w_signals : list string }.

Definition w_cfg (w : World) : Config := cfg (w_store w).
Definition w_db (w : World) : DB := sdb (w_store w).
Definition with_db (db : DB) (w : World) : World :=
  mkWorld (w_server w) (mkStore (w_cfg w) db) (w_signals w).
Definition with_punches (m : punch_map) (sig : list string) (w : World) : World :=
  let s := w_server w in
  mkWorld (mkServer (sv_networkCIDR s) (sv_network6CIDR s) (sv_pskMaster s) (sv_keepalive s) (sv_relay s)
             (sv_stunServers s) (sv_trust s) m) (w_store w) (w_signals w ++ sig).

(** The text of an error, as far as the handlers pass it on. *)
Definition error_text (e : goerr) : string :=
  match e with
  | ErrUnauthorized d => "unauthorized: " +:+ d
  | ErrNotFound d | ErrInvalid d | ErrAddressInUse d | ErrPeerExists d | ErrUserExists d
  | ErrNoStoredConfig d | ErrMsg d | ErrConstraint d => d
  | ErrAuth => "invalid username or password"
  end.

(** The peer [enrichRequest] attached to the request, if any. *)
Definition caller : Type := option (Z * string).

(** [audit]: best effort. *)
Definition audit (now : Z) (r : Request) (who : caller) (event : string) (status : Z) (detail : string)
    (w : World) : World :=
  let e := mkAuditEntry event (from_option fst 0 who) (from_option snd "" who)
             (clientIP (sv_trust (w_server w)) r) (header_get (hr_ForwardedFor r))
             (hr_UserAgent r) (hr_Method r) (hr_Path r) status detail in
  with_db (run_tx (Audit now e) (w_db w)).2 w.

(** What [relayAllocator.allocate] returns: two ports, [ErrPortsExhausted] or
    another error. *)
Inductive alloc_answer : Type :=
| PortPair (portA portB : Z)
| PortsExhausted
| AllocFailed.
(** [embeddedRelay.allocate]. *)
Definition embedded_allocate (foreign : Z → bool) (ephemeral : gset Z → option Z) (c : RelayConfig) (now : Z)
    (pairID : string) (pairs : gmap string pair) : alloc_answer * gmap string pair :=
  match Allocate foreign ephemeral c now pairID pairs with
  | (Some (portA, portB), pairs) => (PortPair portA portB, pairs)
  | (None, pairs) => (if PortMin c =? 0 then AllocFailed else PortsExhausted, pairs)
  end.

Section handlers.
Context (ParseKey ResolveUDPAddr : string → bool) (KeyString : list Z → string).

(** The two writes after a successful enrollment: the candidates and the
    exit-node offer; a failed write is only logged. *)
Definition enroll_candidates (req : EnrollRequest) (peer : PeerRow) (w : World) : PeerRow * World :=
  let cands := encodeAgentCandidates ResolveUDPAddr (en_Candidates req) in
  if decide (cands = "") then (peer, w)
  else match run_tx (UpdatePeerCandidates (pr_ID peer) cands) (w_db w) with
       | (Err _, db) => (peer, with_db db w)
       | (Ok _, db) =>
           (mkPeerRow (pr_ID peer) (pr_PublicKey peer) (pr_Hostname peer) (pr_AssignedIP peer)
              (pr_AssignedIP6 peer) (pr_PeerType peer) (pr_GatewayPeerID peer)
              (pr_AdvertiseExitNode peer) (pr_ExitNodePeerID peer) (pr_PublicEndpoint peer)
              (pr_ObservedIP peer) (pr_ListenPort peer) cands (pr_NATType peer) (pr_Version peer),
            with_db db w)
       end.
Definition enroll_offer (req : EnrollRequest) (peer : PeerRow) (w : World) : PeerRow * World :=
  if Bool.eqb (en_AdvertiseExitNode req) (pr_AdvertiseExitNode peer) then (peer, w)
  else match run_tx (SetAdvertiseExitNode (pr_ID peer) (en_AdvertiseExitNode req)) (w_db w) with
       | (Err _, db) => (peer, with_db db w)
       | (Ok _, db) =>
           (mkPeerRow (pr_ID peer) (pr_PublicKey peer) (pr_Hostname peer) (pr_AssignedIP peer)
              (pr_AssignedIP6 peer) (pr_PeerType peer) (pr_GatewayPeerID peer)
              (en_AdvertiseExitNode req) (pr_ExitNodePeerID peer) (pr_PublicEndpoint peer)
              (pr_ObservedIP peer) (pr_ListenPort peer) (pr_CandidatesJSON peer) (pr_NATType peer)
              (pr_Version peer),
            with_db db w)
       end.

(** [now] is the clock of the enrollment, [later] that of the audit entry. *)
Definition handleEnroll (now later : Z) (raw : list Z) (r : Request) (b : body EnrollRequest)
    (w : World) : reply EnrollResponse * World :=
  match DecodeJSON (64 * 1024) b with
  | inl (code, msg) => (Status code msg, w)
  | inr req =>
      if decide (en_SetupKey req = "") then (Status 400 "setup_key is required", w)
      else if negb (ParseKey (en_PublicKey req))
      then (Status 400 "public_key is not a valid WireGuard key", w)
      else if (en_ListenPort req <? 0) || (65535 <? en_ListenPort req)
      then (Status 400 "listen_port out of range", w)
      else
        match run_tx (Enroll (w_cfg w) now raw (en_SetupKey req) (en_PublicKey req) (en_Hostname req)
                        (en_ListenPort req) (clientIP (sv_trust (w_server w)) r) (en_PublicEndpoint req))
                (w_db w) with
        | (Err (ErrUnauthorized d), db) =>
            (Status 401 "unauthorized",
             audit later r None "enroll_rejected" 401 (error_text (ErrUnauthorized d)) (with_db db w))
        | (Err _, db) => (Status 500 "internal error", with_db db w)
        | (Ok res, db) =>
            let w := with_db db w in
            let who := Some (pr_ID (er_Peer res), pr_AssignedIP (er_Peer res)) in
            let '(peer, w) := enroll_candidates req (er_Peer res) w in
            let '(peer, w) := enroll_offer req peer w in
            let w :=
              if er_Created res
              then audit later r who "enroll" 200
                     ("new peer " +:+ pr_AssignedIP peer +:+ " (" +:+ en_Hostname req +:+ ")") w
              else audit later r who "re_enroll" 200
                     ("peer " +:+ pr_AssignedIP peer +:+ " (" +:+ en_Hostname req +:+ ")") w in
            match buildResponse KeyString (w_server w) (w_cfg w) (w_db w)
                    (mkEnrollResult peer (er_Others res) (er_Created res) (er_AuthToken res)) with
            | Ok out => (Good out, w)
            | Err _ => (Status 500 "internal error", w)
            end
        end
  end.

(** The token check the agents' endpoints share: on failure the reply and the
    world after the audit entry. *)
Definition authenticate {A} (now later : Z) (event : string) (r : Request) (w : World)
  : (reply A * World) + (Z * string) :=
  match CutPrefix (hr_Authorization r) "Bearer " with
  | None => inl (Status 401 "unauthorized", w)
  | Some token =>
      match AuthenticatePeer (w_cfg w) now token (w_db w) with
      | Ok who => inr who
      | Err (ErrUnauthorized d) =>
          inl (Status 401 "unauthorized",
               audit later r None event 401 (error_text (ErrUnauthorized d)) w)
      | Err _ => inl (Status 500 "internal error", w)
      end
  end.

(** [now] is the clock of the token check and of the report, [later] that of
    the audit entry, [n1] and [n2] those of [coordinatePunches]. *)
Definition handleReport (now later n1 n2 : Z) (r : Request) (b : body ReportRequest) (w : World)
  : reply ReportResponse * World :=
  match authenticate now later "report_rejected" r w with
  | inl rw => rw
  | inr (peerID, overlayIP) =>
      match DecodeJSON (4 * 1024 * 1024) b with
      | inl (code, msg) => (Status code msg, w)
      | inr rq =>
          let rq := mkReport (rq_PublicEndpoint rq)
                      (validAgentCandidates ResolveUDPAddr (rq_Candidates rq)) (rq_NATType rq)
                      (rq_Counters rq) (rq_Flows rq) (rq_PathStates rq) (rq_ProxyEvents rq)
                      (rq_AdvertiseExitNode rq) (rq_Version rq) in
          match run_tx (ApplyReport now peerID (clientIP (sv_trust (w_server w)) r) rq) (w_db w) with
          | (Err _, db) => (Status 500 "internal error", with_db db w)
          | (Ok _, db) =>
              let w := with_db db w in
              match PeersForID (w_cfg w) peerID (w_db w) with
              | Err _ => (Status 500 "internal error", w)
              | Ok (self, others) =>
                  let '(m, sig) := coordinatePunches (sv_relay (w_server w)) n1 n2 (w_db w) self others
                                     (rq_PathStates rq) (sv_punchEpochs (w_server w)) in
                  let w := with_punches m sig w in
                  let entries := buildPeerEntries KeyString (w_server w) self others in
                  match CurrentDNSConfig (w_db w) with
                  | Err _ => (Status 500 "internal error", w)
                  | Ok dnsCfg =>
                      (Good (mkReportResponse (pr_AssignedIP self) (pr_AssignedIP6 self)
                         (sv_networkCIDR (w_server w)) (sv_network6CIDR (w_server w)) dnsCfg entries
                         (buildACLPolicy (w_cfg w) (w_db w)) (gatewayRoutesFor self others)
                         (exitNodeActiveFor self others) (sv_stunServers (w_server w))), w)
                  end
              end
          end
      end
  end.

(** [handleRelayPair] over an allocator; [relay] is [None] without a relay. *)
Definition relay_pair {R} (allocate : string → R → alloc_answer * R) (relayHost : string) (now later : Z)
    (r : Request) (b : body string) (relay : option R) (w : World) : reply string * option R * World :=
  match authenticate now later "relay_pair_rejected" r w with
  | inl (rep, w) => (rep, relay, w)
  | inr (peerID, overlayIP) =>
      match relay with
      | None => (Status 503 "no relay configured", relay, w)
      | Some pairs =>
          match DecodeJSON (4 * 1024) b with
          | inl (code, msg) => (Status code msg, relay, w)
          | inr target =>
              if decide (target = "") then (Status 400 "peer_public_key is required", relay, w)
              else match RelayPairKeys peerID target (w_db w) with
              | Err _ => (Status 500 "internal error", relay, w)
              | Ok (selfKey, targetOK) =>
                  if negb targetOK then (Status 404 "unknown or revoked target peer", relay, w)
                  else
                    match allocate (relayPairID selfKey target) pairs with
                    | (PortsExhausted, pairs) => (Status 503 "relay port range exhausted", Some pairs, w)
                    | (AllocFailed, pairs) => (Status 502 "relay unavailable", Some pairs, w)
                    | (PortPair portA portB, pairs) =>
                        let port := if str_lt target selfKey then portB else portA in
                        let endpoint := JoinHostPort relayHost (Itoa port) in
                        (Good endpoint, Some pairs,
                         audit later r (Some (peerID, overlayIP)) "relay_pair" 200
                           ("udp relay via " +:+ endpoint) w)
                    end
              end
          end
      end
  end.
(** With the embedded relay. *)
Definition handleRelayPair (foreign : Z → bool) (ephemeral : gset Z → option Z) (c : RelayConfig)
    (relayHost : string) (now later : Z) (r : Request) (b : body string)
    (relay : option (gmap string pair)) (w : World)
  : reply string * option (gmap string pair) * World :=
  relay_pair (embedded_allocate foreign ephemeral c now) relayHost now later r b relay w.
End handlers.
