(* ===== verification/HandlerFacts.v ===== *)
(** * Properties of the agents' endpoints

    Refusals tell nothing and change nothing but the audit trail; a token from
    an enrollment is good for the next report; revocation closes every
    endpoint; the two sides of a pair are sent to the two legs of one relay
    session. *)
From S2P Require Import Prelude GoText TimeText NetAddr NetFacts HostPort Psk Codec Json Sha256 Schema SchemaFacts Alloc Enroll EnrollFacts Visibility Admin Acl ExitNode Invariants Network Dns Telemetry TelemetryFacts Reports Users StoreMachine Candidates Punch ClientIP PeerEntries EntryFacts RelayUdp RelayFacts Handlers.

(** ** The audit entry *)
Definition audited (w w' : World) (event : string) (status : Z) (detail : string) : Prop :=
  w_server w' = w_server w ∧ w_signals w' = w_signals w ∧ w_cfg w' = w_cfg w
  ∧ ∃ row, w_db w' = set_audit_log (audit_log (w_db w) ++ [row]) (w_db w)
      ∧ a_event row = event ∧ a_status row = status ∧ a_peer_id row = None
      ∧ a_detail row = nullable detail.

Lemma audit_anonymous now r event status detail w :
  audited w (audit now r None event status detail w) event status detail.
Proof.
  unfold audited, audit. simpl. split_and!; try done.
  eexists. split; [reflexivity|]. done.
Qed.

Lemma with_db_same w : with_db (w_db w) w = w.
Proof. by destruct w as [? [? ?] ?]. Qed.

(** Rows whose identity and credentials are the same. *)
Record kept_row (p q : Peer) : Prop := {
  kr_id : p_id q = p_id p;
  kr_key : p_public_key q = p_public_key p;
  kr_ip : p_assigned_ip q = p_assigned_ip p;
  kr_revoked : p_revoked_at q = p_revoked_at p;
  kr_token : p_auth_token_hash q = p_auth_token_hash p;
  kr_issued : p_auth_token_issued_at q = p_auth_token_issued_at p
}.
Record calm (w w' : World) : Prop := {
  calm_ok : db_ok (w_db w');
  calm_rows : Forall2 kept_row (peers (w_db w)) (peers (w_db w'));
  calm_settings : settings (w_db w') = settings (w_db w);
  calm_cfg : w_cfg w' = w_cfg w;
  calm_server : w_server w' = w_server w
}.

Lemma kept_row_refl p : kept_row p p.
Proof. done. Qed.
Lemma kept_rows_refl l : Forall2 kept_row l l.
Proof. induction l; constructor; [apply kept_row_refl|done]. Qed.
Lemma kept_row_trans p q r : kept_row p q → kept_row q r → kept_row p r.
Proof. intros [] []. split; congruence. Qed.
Lemma kept_rows_trans l k m : Forall2 kept_row l k → Forall2 kept_row k m → Forall2 kept_row l m.
Proof.
  intros H. revert m. induction H as [|p q l k Hpq _ IH]; intros m Hm; [done|].
  apply Forall2_cons_inv_l in Hm as (r & m' & Hqr & Hm & ->).
  constructor; [by eapply kept_row_trans|by apply IH].
Qed.
Lemma kept_rows_update (f : Peer → bool) g l :
  (∀ p, kept_row p (g p)) → Forall2 kept_row l (update_where f g l).
Proof.
  intros Hg. induction l as [|p l IH]; [constructor|].
  change (update_where f g (p :: l)) with ((if f p then g p else p) :: update_where f g l).
  constructor; [|done]. case_match; [apply Hg|apply kept_row_refl].
Qed.

Lemma calm_trans w w' w'' : calm w w' → calm w' w'' → calm w w''.
Proof.
  intros [H1 H2 H3 H4 H5] [G1 G2 G3 G4 G5]. split; try congruence.
  by eapply kept_rows_trans.
Qed.
Lemma calm_refl w : db_ok (w_db w) → calm w w.
Proof. intros. split; try done. apply kept_rows_refl. Qed.
Lemma calm_update w f g :
  db_ok (w_db w) → (∀ p, kept_row p (g p)) → (∀ p, same_constrained (g p) p) →
  calm w (with_db (set_peers (update_where f g (peers (w_db w))) (w_db w)) w).
Proof.
  intros Hdb Hg Hs. split; try done; simpl.
  - by apply db_ok_update_same.
  - by apply kept_rows_update.
Qed.
Lemma calm_audit now r who event status detail w :
  db_ok (w_db w) → calm w (audit now r who event status detail w).
Proof.
  intros Hdb. unfold audit. set (e := mkAuditEntry _ _ _ _ _ _ _ _ _ _).
  unfold run_tx. destruct (Audit now e (w_db w)) as [[u db']|er] eqn:E; simpl.
  - pose proof (audit_ok _ _ _ _ _ Hdb E) as (H1 & H2 & _).
    split; [done| | |done|done]; change (w_db (with_db db' w)) with db'.
    + rewrite H2. apply kept_rows_refl.
    + unfold Audit in E. case_match; by simplify_eq.
  - split; try done. apply kept_rows_refl.
Qed.

Lemma calm_peer_back w w' q : calm w w' → q ∈ peers (w_db w') → ∃ p, p ∈ peers (w_db w) ∧ kept_row p q.
Proof.
  intros Hc Hq. apply list_elem_of_lookup in Hq as [n Hn].
  destruct (Forall2_lookup_r _ _ _ _ _ (calm_rows _ _ Hc) Hn) as (p & Hp & Hk). exists p. split; [|done].
  by eapply list_elem_of_lookup_2.
Qed.
Lemma calm_enroll_candidates resolve req peer w :
  db_ok (w_db w) →
  let r := enroll_candidates resolve req peer w in
  calm w r.2 ∧ pr_ID r.1 = pr_ID peer ∧ pr_AssignedIP r.1 = pr_AssignedIP peer
  ∧ pr_AdvertiseExitNode r.1 = pr_AdvertiseExitNode peer.
Proof.
  intros Hdb r. unfold r, enroll_candidates. case_decide as E; [by split; [apply calm_refl|]|].
  unfold UpdatePeerCandidates. rewrite decide_False by done. simpl.
  split; [|done]. by apply calm_update.
Qed.

Lemma calm_enroll_offer req peer w :
  db_ok (w_db w) →
  let r := enroll_offer req peer w in
  calm w r.2 ∧ pr_ID r.1 = pr_ID peer ∧ pr_AssignedIP r.1 = pr_AssignedIP peer.
Proof.
  intros Hdb r. unfold r, enroll_offer. case_match; [by split; [apply calm_refl|]|].
  simpl. split; [|done]. by apply calm_update.
Qed.

Lemma enroll_row_kept resolve req peer w w' :
  let q := (enroll_offer req (enroll_candidates resolve req peer w).1 w').1 in
  pr_PublicKey q = pr_PublicKey peer ∧ pr_AssignedIP6 q = pr_AssignedIP6 peer.
Proof. unfold enroll_offer, enroll_candidates. repeat case_match; done. Qed.

(** What a successful enrollment leaves behind. *)
Lemma handleEnroll_Good ParseKey resolve KS now later raw r b w out w' :
  db_ok (w_db w) →
  handleEnroll ParseKey resolve KS now later raw r b w = (Good out, w') →
  ∃ req res db, b = Decoded req
    ∧ Enroll (w_cfg w) now raw (en_SetupKey req) (en_PublicKey req) (en_Hostname req) (en_ListenPort req)
        (clientIP (sv_trust (w_server w)) r) (en_PublicEndpoint req) (w_db w) = Ok (res, db)
    ∧ calm (with_db db w) w' ∧ is_ok (CurrentDNSConfig (w_db w')) = true
    ∧ rs_AuthToken out = er_AuthToken res ∧ rs_AssignedIP out = pr_AssignedIP (er_Peer res)
    ∧ rs_PeerID out = pr_ID (er_Peer res)
    ∧ rs_AssignedIP6 out = pr_AssignedIP6 (er_Peer res)
    ∧ rs_NetworkCIDR out = sv_networkCIDR (w_server w) ∧ rs_NetworkCIDR6 out = sv_network6CIDR (w_server w)
    ∧ ∃ self, pr_PublicKey self = pr_PublicKey (er_Peer res)
        ∧ rs_Peers out = buildPeerEntries KS (w_server w) self (er_Others res).
Proof.
  intros Hdb. unfold handleEnroll. destruct b as [| |req]; simpl; try done.
  case_decide; [done|]. case_match; [done|]. case_match; [done|].
  destruct (run_tx _ (w_db w)) as [[res|e] db] eqn:Er; [|by destruct e].
  apply run_tx_Ok in Er.
  pose proof (Enroll_db_ok _ _ _ _ _ _ _ _ _ _ _ _ Hdb Er) as Hok.
  pose proof (calm_enroll_candidates resolve req (er_Peer res) (with_db db w) Hok) as (C1 & I1 & A1 & _).
  pose proof (enroll_row_kept resolve req (er_Peer res) (with_db db w)) as Hkeep.
  destruct (enroll_candidates resolve req (er_Peer res) (with_db db w)) as [p1 w1]. simpl in *.
  pose proof (calm_enroll_offer req p1 w1 (calm_ok _ _ C1)) as (C2 & I2 & A2).
  destruct (Hkeep w1) as [K1 K2]. destruct (enroll_offer req p1 w1) as [p2 w2]. simpl in *.
  match goal with |- context [buildResponse KS (w_server ?x) _ _ _] => set (w3 := x) end.
  assert (calm w2 w3) as C3 by (unfold w3; case_match; apply calm_audit, (calm_ok _ _ C2)).
  unfold buildResponse, mbind, result_bind. destruct (CurrentDNSConfig (w_db w3)) as [dns|] eqn:Ed; [|done].
  assert (w_server w3 = w_server w) as Esv.
  { rewrite (calm_server _ _ C3), (calm_server _ _ C2), (calm_server _ _ C1). done. }
  intros [= <- <-]. exists req, res, db. simpl. rewrite Esv. split_and!; try done.
  - eapply calm_trans; [exact C1|]. by eapply calm_trans.
  - by rewrite Ed.
  - by rewrite A2, A1.
  - by rewrite I2, I1.
  - by exists p2.
Qed.

(** ** Refusals *)

(** The requests that reach the setup-key check. *)
Definition well_formed (ParseKey : string → bool) (req : EnrollRequest) : Prop :=
  en_SetupKey req ≠ "" ∧ ParseKey (en_PublicKey req) = true ∧ 0 ≤ en_ListenPort req ≤ 65535.

(** Whether a setup key entitles to the identity a request is for: a new one
    takes a key that is neither revoked nor expired nor used up; a public key that
    is already enrolled takes the very key it was enrolled with, not revoked
    since, however old and used. *)
Definition same_key (setupKey : string) (p : Peer) (k : SetupKey) : bool :=
  bool_decide (k_key k = setupKey) && bool_decide (k_revoked_at k = None) && (k_id k =? p_setup_key_id p).
Definition enrolled_as (publicKey : string) (db : DB) : option Peer :=
  select1 (λ p, bool_decide (p_public_key p = publicKey)) (peers db).
Definition entitled (setupKey publicKey at_ : string) (db : DB) : bool :=
  match enrolled_as publicKey db with
  | None => existsb (key_usable setupKey at_) (setup_keys db)
  | Some p => existsb (same_key setupKey p) (setup_keys db)
  end.
(** The reason the audit trail gets. *)
Definition refusal_reason (setupKey publicKey at_ : string) (db : DB) : string :=
  match enrolled_as publicKey db with
  | None => diagnoseKey setupKey at_ db
  | Some _ =>
      match select1 (λ k, bool_decide (k_key k = setupKey)) (setup_keys db) with
      | None => "re-enroll with unknown setup key"
      | Some k => if bool_decide (k_revoked_at k ≠ None) then "re-enroll with revoked setup key"
                  else "re-enroll setup key does not match original enrollment"
      end
  end.

Definition other_error {A} (x : result A) : Prop := ∀ d, x ≠ Err (ErrUnauthorized d).
Lemma parse_column_other n l : other_error (parse_column n l).
Proof.
  unfold other_error. induction l as [|a l IH]; [done|]. cbn [parse_column]. destruct (ParseAddr a); [|done].
  unfold mbind, result_bind. intros d. destruct (parse_column n l); [done|]. intros [= ->]. by apply (IH d).
Qed.
Lemma allocateAddr_other net n col db : other_error (allocateAddr net n col db).
Proof.
  unfold other_error, allocateAddr, mbind, result_bind. intros d. pose proof (parse_column_other n (omap col (peers db)) d).
  destruct (parse_column _ _); [by repeat case_match|congruence].
Qed.
Lemma allocate_overlay_other c db : other_error (allocate_overlay c db).
Proof.
  unfold other_error, allocate_overlay, mbind, result_bind. intros d.
  pose proof (allocateAddr_other (network c) "assigned_ip" column_ip db d).
  pose proof (allocateAddr_other (Network6 c) "assigned_ip6" column_ip6 db d).
  destruct (allocateAddr (network c) _ _ _); [|congruence]. destruct (v6Enabled c); [|done].
  destruct (allocateAddr (Network6 c) _ _ _); congruence.
Qed.

(** [Enroll] says [ErrUnauthorized] exactly when the key does not entitle. *)
Lemma Enroll_entitled c now raw sk pk host port ip pe db :
  db_ok db → entitled sk pk (fmt_time now) db = true →
  other_error (Enroll c now raw sk pk host port ip pe db).
Proof.
  intros Hdb He d. unfold entitled in He. destruct (enrolled_as pk db) as [p|] eqn:Ep.
  - apply existsb_exists in He as (k & Hk%list_elem_of_In & Hb).
    apply andb_prop in Hb as [[E1%bool_decide_eq_true E2%bool_decide_eq_true]%andb_prop E3].
    unfold enrolled_as in Ep. unfold Enroll, reEnroll, mbind, tx_bind, tx_get. rewrite Ep.
    pose proof (select_key db k Hdb Hk) as Hs. rewrite E1 in Hs. rewrite Hs, E3, bool_decide_eq_false_2 by congruence.
    cbn [negb]. unfold newAuthToken, tx_lift. pose proof (allocateAddr_other (Network6 c) "assigned_ip6" column_ip6 db d).
    destruct (v6Enabled c && _); [destruct (allocateAddr _ _ _ _); [|congruence]|];
      unfold put_peers, mret, tx_ret; by destruct (peers_ok _ _).
  - apply existsb_exists in He as (k & Hk%list_elem_of_In & Us).
    rewrite (Enroll_usable c now raw sk pk host port ip pe db k); [|done| |done|done].
    + pose proof (allocate_overlay_other c db d). destruct (allocate_overlay c db) as [[[a b] ?]|]; [|congruence].
      by destruct (peers_ok _ _).
    + intros (q & E & Hq)%list_elem_of_fmap. unfold enrolled_as in Ep. rewrite select1_None in Ep.
      specialize (Ep q Hq). by rewrite bool_decide_eq_true_2 in Ep.
Qed.
Lemma Enroll_unentitled c now raw sk pk host port ip pe db :
  db_ok db → entitled sk pk (fmt_time now) db = false →
  Enroll c now raw sk pk host port ip pe db = Err (ErrUnauthorized (refusal_reason sk pk (fmt_time now) db)).
Proof.
  intros Hdb He. unfold entitled in He. unfold refusal_reason. destruct (enrolled_as pk db) as [p|] eqn:Ep; unfold enrolled_as in Ep.
  - unfold Enroll, reEnroll, mbind, tx_bind, tx_get. rewrite Ep.
    destruct (select1 _ (setup_keys db)) as [k|] eqn:Ek; [|done]. apply select1_Some in Ek as [Hk Ek%bool_decide_eq_true].
    case_bool_decide as Er; [done|]. destruct (Z.eqb_spec (k_id k) (p_setup_key_id p)) as [Ei|]; [|done].
    exfalso. assert (existsb (same_key sk p) (setup_keys db) = true); [|congruence].
    apply existsb_exists. exists k. split; [by apply list_elem_of_In|]. unfold same_key.
    by rewrite Ei, Z.eqb_refl, !bool_decide_eq_true_2.
  - apply Enroll_refused; [done| |].
    + intros (q & E & Hq)%list_elem_of_fmap. rewrite select1_None in Ep.
      specialize (Ep q Hq). by rewrite bool_decide_eq_true_2 in Ep.
    + intros k Hk. destruct (key_usable sk (fmt_time now) k) eqn:Us; [|done].
      exfalso. assert (existsb (key_usable sk (fmt_time now)) (setup_keys db) = true); [|congruence].
      apply existsb_exists. exists k. split; [by apply list_elem_of_In|done].
Qed.

(** C3: refusals of enrollment are uniform.  On a database that meets its schema
    a well-formed POST /enroll is answered 401 exactly when its setup key does
    not entitle to the identity: for a public key that is not enrolled, when the
    setup key is unknown, revoked, expired or used up; for one that is enrolled,
    when it is unknown, revoked or not the one of the first enrollment (a retry
    with that key is accepted even when it has expired or is used up meanwhile).
    The answer is 401 and the text "unauthorized" whatever the reason and
    whatever else the request holds; nothing changes but the audit trail, which
    gets one entry, tied to no peer, with the reason. *)
Theorem enroll_refusal_uniform ParseKey resolve KS now later raw r req w :
  db_ok (w_db w) → well_formed ParseKey req →
  let '(rep, w') := handleEnroll ParseKey resolve KS now later raw r (Decoded req) w in
  if entitled (en_SetupKey req) (en_PublicKey req) (fmt_time now) (w_db w)
  then ∀ text, rep ≠ Status 401 text
  else rep = Status 401 "unauthorized"
    ∧ audited w w' "enroll_rejected" 401
        ("unauthorized: " +:+ refusal_reason (en_SetupKey req) (en_PublicKey req) (fmt_time now) (w_db w)).
Proof.
  intros Hdb (Hk & Hpk & Hlp). unfold handleEnroll. cbn [DecodeJSON].
  rewrite decide_False by done. rewrite Hpk. cbn [negb].
  rewrite (proj2 (Z.ltb_ge (en_ListenPort req) 0)), (proj2 (Z.ltb_ge 65535 _)) by lia. cbn [orb].
  destruct (entitled _ _ _ _) eqn:Ee.
  - unfold run_tx. set (x := Enroll _ _ _ _ _ _ _ _ _ _).
    assert (other_error x) as Hx by (by apply Enroll_entitled). clearbody x.
    destruct x as [[res db]|[]]; cbn; try done.
    + destruct (enroll_candidates _ _ _ _) as [p1 w1], (enroll_offer _ _ _) as [p2 w2].
      destruct (buildResponse _ _ _ _ _); done.
    + exfalso. by eapply Hx.
  - unfold run_tx. rewrite Enroll_unentitled by done. rewrite with_db_same. split; [done|]. apply audit_anonymous.
Qed.

Lemma authenticate_rejects {A} now later event r w token :
  CutPrefix (hr_Authorization r) "Bearer " = Some token →
  (∀ q, q ∈ peers (w_db w) → p_auth_token_hash q = Some (HashToken token) → p_revoked_at q ≠ None) →
  ∃ w', authenticate (A := A) now later event r w = inl (Status 401 "unauthorized", w')
    ∧ audited w w' event 401 "unauthorized: unknown or revoked peer token".
Proof.
  intros Ht Hq. unfold authenticate. rewrite Ht, auth_unknown by done.
  eexists. split; [done|]. apply audit_anonymous.
Qed.

(** C9: revoking a peer closes the control plane to it at once.  After the
    revocation, any report or relay request with the peer's token, whatever it
    carries, is answered 401 without configuration, relay session or any change
    but the audit entry. *)
Theorem revoked_agent_locked_out resolve KS foreign eph rc host now id u db' w r token t1 t2 t3 t4 b1 b2 relay :
  db_ok (w_db w) → RevokePeer now id (w_db w) = Ok (u, db') →
  (∀ q, q ∈ peers (w_db w) → p_auth_token_hash q = Some (HashToken token) → p_id q = id) →
  hr_Authorization r = "Bearer " +:+ token →
  let w1 := with_db db' w in
  (∃ w2, handleReport resolve KS t1 t2 t3 t4 r b1 w1 = (Status 401 "unauthorized", w2)
     ∧ audited w1 w2 "report_rejected" 401 "unauthorized: unknown or revoked peer token")
  ∧ (∃ w2, handleRelayPair foreign eph rc host t1 t2 r b2 relay w1 = (Status 401 "unauthorized", relay, w2)
     ∧ audited w1 w2 "relay_pair_rejected" 401 "unauthorized: unknown or revoked peer token").
Proof.
  intros Hdb Hr Ht Ha w1.
  assert (CutPrefix (hr_Authorization r) "Bearer " = Some token) as Hc
    by (rewrite Ha; apply CutPrefix_app).
  assert (∀ q, q ∈ peers (w_db w1) → p_auth_token_hash q = Some (HashToken token) →
    p_revoked_at q ≠ None) as Hq.
  { intros q Hq Eq. eapply revoked_after; [exact Hdb|exact Hr|exact Hq|].
    apply RevokePeer_Ok in Hr as [E _]. change (w_db w1) with db' in Hq. rewrite E in Hq.
    apply elem_of_update_where in Hq as (y & Hy & ->). destruct (active_peer id y) eqn:A; [|by apply Ht].
    unfold active_peer in A. cbn. lia. }
  split.
  - destruct (authenticate_rejects (A:=ReportResponse) t1 t2 "report_rejected" r w1 token Hc Hq)
      as (w2 & E & H). exists w2. unfold handleReport. by rewrite E.
  - destruct (authenticate_rejects (A:=string) t1 t2 "relay_pair_rejected" r w1 token Hc Hq)
      as (w2 & E & H). exists w2. unfold handleRelayPair, relay_pair. by rewrite E.
Qed.

(** ** Whose token a request carries *)

(** The header holds the token issued to an active peer of the database, whose
    row has this id and this public key. *)
Definition bearer_of (auth : string) (db : DB) (id : Z) (key : string) : Prop :=
  ∃ token p, auth = "Bearer " +:+ token ∧ p ∈ peers db ∧ p_auth_token_hash p = Some (HashToken token)
    ∧ p_revoked_at p = None ∧ p_id p = id ∧ p_public_key p = key.
Lemma AuthenticatePeer_bearer c now token db id ip p :
  db_ok db → AuthenticatePeer c now token db = Ok (id, ip) → peer_by_id id db = Some p →
  bearer_of ("Bearer " +:+ token) db id (p_public_key p).
Proof.
  intros Hdb (q & Hq & H1 & H2 & <-)%AuthenticatePeer_Ok Hp.
  rewrite (peer_by_id_eq _ _ Hdb Hq) in Hp. injection Hp as <-. by exists token, q.
Qed.
Lemma authenticate_bearer {A} now later event r w id ip p :
  db_ok (w_db w) → authenticate (A:=A) now later event r w = inr (id, ip) → peer_by_id id (w_db w) = Some p →
  bearer_of (hr_Authorization r) (w_db w) id (p_public_key p).
Proof.
  intros Hdb. unfold authenticate. destruct (CutPrefix _ _) as [token|] eqn:Ec; [|done].
  apply CutPrefix_Some in Ec as ->. destruct (AuthenticatePeer _ _ _ _) as [[i o]|e] eqn:Ea; [|by destruct e].
  intros [= -> ->]. by apply AuthenticatePeer_bearer with (w_cfg w) now ip.
Qed.

(** ** Enroll, then report *)
Lemma AuthenticatePeer_calm c now token w w' who :
  calm w w' → AuthenticatePeer c now token (w_db w) = Ok who →
  AuthenticatePeer c now token (w_db w') = Ok who.
Proof.
  intros Hc. unfold AuthenticatePeer. pose proof (calm_rows _ _ Hc) as Hrows. clear Hc.
  induction Hrows as [|p q l k [E1 _ E2 E3 E4 E5] _ IH]; [done|]. cbn [select1]. rewrite E3, E4.
  destruct (bool_decide _ && bool_decide _); [by rewrite E1, E2, E5|exact IH].
Qed.

Lemma handleReport_Good resolve KS now later n1 n2 r rq w id ip token p :
  db_ok (w_db w) → hr_Authorization r = "Bearer " +:+ token →
  AuthenticatePeer (w_cfg w) now token (w_db w) = Ok (id, ip) →
  peer_by_id id (w_db w) = Some p → is_ok (CurrentDNSConfig (w_db w)) = true →
  ∃ rsp w', handleReport resolve KS now later n1 n2 r (Decoded rq) w = (Good rsp, w')
    ∧ rr_AssignedIP rsp = p_assigned_ip p ∧ rr_AssignedIP6 rsp = coalesce (p_assigned_ip6 p) "".
Proof.
  intros Hdb Ha Hau Hp Hdns. unfold handleReport, authenticate. rewrite Ha, CutPrefix_app, Hau. simpl.
  set (rq' := mkReport _ _ _ _ _ _ _ _ _). set (oip := clientIP _ r).
  assert (is_peer (w_db w) id = true) as Hip.
  { apply peer_by_id_Some in Hp as [? ?]. apply is_peer_spec. eauto. }
  destruct (ApplyReport_run now id oip rq' (w_db w) Hdb Hip) as (s2 & s4 & s5 & s6 & _ & _ & _ & _ & E & Hm).
  rewrite (proj2 (run_tx_Ok _ _ _ _) E). change (w_db (with_db s6 w)) with s6.
  assert (∃ q, peer_by_id id s6 = Some q ∧ p_assigned_ip q = p_assigned_ip p
    ∧ p_assigned_ip6 q = p_assigned_ip6 p) as (q & Hq & E1 & E2).
  { unfold peer_by_id in *. destruct Hm as (-> & _). unfold reported. cbn [peers set_peers].
    clear -Hp. induction (peers (w_db w)) as [|x l IH]; [done|].
    change (update_where ?f ?g (x :: l)) with ((if f x then g x else x) :: update_where f g l).
    cbn [select1] in *. destruct (p_id x =? id) eqn:Ex; [|by rewrite Ex; apply IH].
    simpl. rewrite Ex. injection Hp as ->. eexists. split; [done|]. done. }
  unfold PeersForID. rewrite Hq. destruct (coordinatePunches _ _ _ _ _ _ _ _) as [m sig].
  change (CurrentDNSConfig (w_db (with_punches m sig (with_db s6 w)))) with (loadDNSConfig s6).
  assert (loadDNSConfig s6 = loadDNSConfig (w_db w)) as ->.
  { unfold loadDNSConfig. destruct Hm as (_ & _ & _ & -> & _). done. }
  unfold CurrentDNSConfig in Hdns. destruct (loadDNSConfig (w_db w)); [|done].
  eexists _, _. split; [done|]. simpl. by rewrite E1, E2.
Qed.

(** Enrollment hands out a working identity.  After an answered enrollment
    of an agent that is not revoked, a report with the token from the answer,
    whatever its contents, is accepted until the token's lifetime ends, and is
    answered with configuration for the same overlay address. *)
Theorem enroll_then_report ParseKey resolve KS now later raw r b w out w' now2 later2 n1 n2 r2 rq :
  db_ok (w_db w) →
  handleEnroll ParseKey resolve KS now later raw r b w = (Good out, w') →
  fresh_token (rs_AuthToken out) (w_db w) →
  (∀ req q, b = Decoded req → q ∈ peers (w_db w) → p_public_key q = en_PublicKey req →
     p_revoked_at q = None) →
  four_digit_year now = true → now2 - Millisecond * (now / Millisecond) ≤ TokenTTL (w_cfg w) →
  hr_Authorization r2 = "Bearer " +:+ rs_AuthToken out →
  ∃ rsp w'', handleReport resolve KS now2 later2 n1 n2 r2 (Decoded rq) w' = (Good rsp, w'')
    ∧ rr_AssignedIP rsp = rs_AssignedIP out.
Proof.
  intros Hdb He Hf Hrev Hy Httl Ha.
  apply handleEnroll_Good in He as (req & res & db & -> & HE & Hc & Hdns & Etok & Eip & Eid); [|done].
  rewrite Etok in *.
  destruct (Enroll_token_row _ _ _ _ _ _ _ _ _ _ _ _ Hdb HE)
    as (p & Hp & E1 & E2 & _ & E3 & E4 & Hall & Hr).
  assert (p_revoked_at p = None) as Hrp.
  { destruct Hr as [?|(q & Hq & Epk & E)]; [done|]. rewrite <- E. by eapply Hrev. }
  assert (AuthenticatePeer (w_cfg w') now2 (er_AuthToken res) (w_db w') = Ok (p_id p, p_assigned_ip p)) as Hau.
  { rewrite (calm_cfg _ _ Hc). eapply AuthenticatePeer_calm; [exact Hc|].
    change (w_db (with_db db w)) with db. change (w_cfg (with_db db w)) with (w_cfg w).
    rewrite (AuthenticatePeer_row (w_cfg w) now2 now _ db p Hp E3 Hrp E4 Hy).
    - rewrite (proj2 (Z.ltb_ge _ _) Httl). by rewrite andb_false_r.
    - intros q Hq Eq. destruct (Hall q Hq) as [?|Hin]; [done|]. by destruct (Hf q Hin). }
  pose proof (calm_rows _ _ Hc) as Hrows. change (peers (w_db (with_db db w))) with (peers db) in Hrows.
  apply list_elem_of_lookup in Hp as [i Hi].
  destruct (Forall2_lookup_l _ _ _ _ _ Hrows Hi) as (p' & Hi' & [F1 _ F2 _ _ _]).
  assert (peer_by_id (p_id p) (w_db w') = Some p') as Hpi.
  { rewrite <- F1. apply peer_by_id_eq; [apply Hc|]. by eapply list_elem_of_lookup_2. }
  destruct (handleReport_Good resolve KS now2 later2 n1 n2 r2 rq w' (p_id p) (p_assigned_ip p) _ p'
    (calm_ok _ _ Hc) Ha Hau Hpi Hdns) as (rsp & w'' & Hh & Hip & _).
  exists rsp, w''. split; [done|]. congruence.
Qed.

(** ** Relay sessions *)
Lemma handleRelayPair_Good foreign eph rc host t1 t2 r target pairs w rep relay' w' tok id ip p :
  hr_Authorization r = "Bearer " +:+ tok → AuthenticatePeer (w_cfg w) t1 tok (w_db w) = Ok (id, ip) →
  peer_by_id id (w_db w) = Some p →
  handleRelayPair foreign eph rc host t1 t2 r (Decoded target) (Some pairs) w = (rep, relay', w') →
  (∃ q, q ∈ peers (w_db w) ∧ p_public_key q = target ∧ p_revoked_at q = None) → target ≠ "" →
  (∃ a b pairs', Allocate foreign eph rc t1 (relayPairID (p_public_key p) target) pairs = (Some (a, b), pairs')
     ∧ rep = Good (JoinHostPort host (Itoa (if str_lt target (p_public_key p) then b else a)))
     ∧ relay' = Some pairs' ∧ (db_ok (w_db w) → calm w w'))
  ∨ (Allocate foreign eph rc t1 (relayPairID (p_public_key p) target) pairs).1 = None
    ∧ ∃ code msg, rep = Status code msg.
Proof.
  intros Ha Hau Hp Hh (q & Hq & Ek & Hrq) Hne.
  unfold handleRelayPair, relay_pair, embedded_allocate, authenticate in Hh. rewrite Ha, CutPrefix_app, Hau in Hh. simpl in Hh.
  rewrite decide_False in Hh by done. unfold RelayPairKeys in Hh. rewrite Hp in Hh.
  assert ((0 <? count_where (λ q, bool_decide (p_public_key q = target)
    && bool_decide (p_revoked_at q = None)) (peers (w_db w))) = true) as Hc.
  { apply Z.ltb_lt, count_where_pos. exists q. split; [done|]. by rewrite !bool_decide_true. }
  rewrite Hc in Hh. simpl in Hh.
  destruct (Allocate _ _ _ _ _ _) as [[[a b]|] pairs']; simplify_eq; [left|right].
  - exists a, b, pairs'. split_and!; try done. intros Hdb. by apply calm_audit.
  - split; [done|]. destruct (PortMin rc =? 0); simplify_eq; eauto.
Qed.

Lemma calm_peer w w' i p :
  calm w w' → peer_by_id i (w_db w) = Some p → ∃ q, peer_by_id i (w_db w') = Some q ∧ kept_row p q.
Proof.
  intros Hc [Hp <-]%peer_by_id_Some. apply list_elem_of_lookup in Hp as [n Hn].
  destruct (Forall2_lookup_l _ _ _ _ _ (calm_rows _ _ Hc) Hn) as (q & Hq & Hk).
  exists q. split; [|done]. rewrite <- (kr_id _ _ Hk). apply peer_by_id_eq; [apply Hc|].
  by eapply list_elem_of_lookup_2.
Qed.

(** The two sides of a pair meet on one relay session.  When two active
    peers each ask for a relay path to the other, in either order of their
    public keys, they are sent to the two different ports of the same pair: the
    one with the smaller key to port A, the other to port B. *)
Theorem relay_pair_opposite_legs foreign eph rc host t1 t2 t3 t4 r1 r2 tok1 tok2 id1 id2 ip1 ip2 p q pairs relay1 w w1 ep1 :
  db_ok (w_db w) → relay_ok foreign rc pairs →
  (∀ used x, eph used = Some x → (x ∉ used) ∧ (1 ≤ x ≤ 65535)) →
  hr_Authorization r1 = "Bearer " +:+ tok1 → AuthenticatePeer (w_cfg w) t1 tok1 (w_db w) = Ok (id1, ip1) →
  hr_Authorization r2 = "Bearer " +:+ tok2 → AuthenticatePeer (w_cfg w) t3 tok2 (w_db w) = Ok (id2, ip2) →
  peer_by_id id1 (w_db w) = Some p → peer_by_id id2 (w_db w) = Some q →
  p_revoked_at p = None → p_revoked_at q = None → p_public_key p ≠ "" → p_public_key q ≠ "" →
  str_lt (p_public_key p) (p_public_key q) = true →
  handleRelayPair foreign eph rc host t1 t2 r1 (Decoded (p_public_key q)) (Some pairs) w
    = (Good ep1, relay1, w1) →
  ∃ a b relay2 w2,
    handleRelayPair foreign eph rc host t3 t4 r2 (Decoded (p_public_key p)) relay1 w1
      = (Good (JoinHostPort host (Itoa b)), relay2, w2)
    ∧ ep1 = JoinHostPort host (Itoa a) ∧ a ≠ b
    ∧ ∃ pr, relay2 ≫= lookup (relayPairID (p_public_key p) (p_public_key q)) = Some pr
        ∧ pa_portA pr = a ∧ pa_portB pr = b.
Proof.
  intros Hdb Hrel Heph Ha1 Hau1 Ha2 Hau2 Hp Hq Rp Rq Np Nq Hlt H1.
  destruct (handleRelayPair_Good _ _ _ _ _ _ _ _ _ _ _ _ _ _ _ _ _ Ha1 Hau1 Hp H1)
    as [(a & b & pairs' & HA & Ep & -> & Hcalm)|(_ & code & msg & [=])].
  { exists q. split_and!; [|done|done]. by apply peer_by_id_Some in Hq as [? _]. }
  { done. }
  specialize (Hcalm Hdb). rewrite (str_lt_antisym _ _ Hlt) in Ep. injection Ep as ->.
  set (id := relayPairID (p_public_key p) (p_public_key q)) in *.
  destruct (calm_peer _ _ _ _ Hcalm Hp) as (p' & Hp' & [_ Kp _ Rp' _ _]).
  destruct (calm_peer _ _ _ _ Hcalm Hq) as (q' & Hq' & [_ Kq _ _ _ _]).
  destruct (Allocate_pair _ _ _ Heph _ _ _ _ _ _ Hrel HA) as (pr & Hpr & Ea & Eb & Hab).
  destruct (handleRelayPair foreign eph rc host t3 t4 r2 (Decoded (p_public_key p)) (Some pairs') w1)
    as [[rep relay2] w2] eqn:H2.
  assert (AuthenticatePeer (w_cfg w1) t3 tok2 (w_db w1) = Ok (id2, ip2)) as Hau2'
    by (rewrite (calm_cfg _ _ Hcalm); by eapply AuthenticatePeer_calm).
  assert ((Allocate foreign eph rc t3 (relayPairID (p_public_key q') (p_public_key p)) pairs')
    = (Some (a, b), <[id := touch t3 pr]> pairs')) as HA2.
  { rewrite Kq, relayPairID_comm. fold id. unfold Allocate. by rewrite Hpr, Ea, Eb. }
  destruct (handleRelayPair_Good _ _ _ _ _ _ _ _ _ _ _ _ _ _ _ _ _ Ha2 Hau2' Hq' H2)
    as [(a' & b' & pairs2 & HA' & -> & -> & _)|(HA' & _)].
  { exists p'. apply peer_by_id_Some in Hp' as [? _]. split_and!; [done|done|congruence]. }
  { done. }
  2: { rewrite HA2 in HA'. done. }
  rewrite HA2 in HA'. simplify_eq. rewrite Kq, Hlt.
  eexists _, _, _, _. split_and!; [done|done|done|].
  exists (touch t3 pr). simpl. by rewrite lookup_insert_eq.
Qed.

(** ** On the run of three peers *)
Definition ex_world : World := mkWorld ex_server sample_run [].
Definition ex_request (token : string) : Request :=
  mkRequest "192.0.2.10:40000" [] "agent" ("Bearer " +:+ token) "POST" "/report".
Definition ex_enroll (key pub : string) : EnrollRequest := mkEnrollRequest key pub "n" 51820 "" [] false.
Definition any_key : string → bool := λ _, true.

Lemma ex_world_db : w_db ex_world = sdb sample_run.
Proof. unfold w_db, ex_world. cbn [w_store]. reflexivity. Qed.
Lemma ex_world_ok : db_ok (w_db ex_world).
Proof. rewrite ex_world_db. exact (m_db _ sample_mesh). Qed.

(** A guessed key, for a new peer and for one that is enrolled. *)
Definition ex_enrolling (key pub : string) : reply EnrollResponse :=
  (handleEnroll any_key any_key StdEncode sample_now sample_now [5] (ex_request "")
     (Decoded (ex_enroll key pub)) ex_world).1.
Lemma ex_enroll_ok key pub : key ≠ "" → well_formed any_key (ex_enroll key pub).
Proof. split; [done|]. split; [done|]. cbn. lia. Qed.
Lemma enroll_refusal_uniform_witness :
  ex_enrolling "guess" "pubZ" = Status 401 "unauthorized"
  ∧ ex_enrolling "guess" "pubA" = Status 401 "unauthorized".
Proof.
  split.
  - pose proof (enroll_refusal_uniform any_key any_key StdEncode sample_now sample_now [5] (ex_request "")
      (ex_enroll "guess" "pubZ") ex_world ex_world_ok (ex_enroll_ok "guess" "pubZ" ltac:(discriminate))) as H.
    assert (entitled "guess" "pubZ" (fmt_time sample_now) (w_db ex_world) = false) as E by (vm_compute; reflexivity).
    unfold ex_enrolling. destruct (handleEnroll _ _ _ _ _ _ _ _ _) as [rep w'].
    cbn [en_SetupKey en_PublicKey ex_enroll] in H. rewrite E in H. exact (proj1 H).
  - pose proof (enroll_refusal_uniform any_key any_key StdEncode sample_now sample_now [5] (ex_request "")
      (ex_enroll "guess" "pubA") ex_world ex_world_ok (ex_enroll_ok "guess" "pubA" ltac:(discriminate))) as H.
    assert (entitled "guess" "pubA" (fmt_time sample_now) (w_db ex_world) = false) as E by (vm_compute; reflexivity).
    unfold ex_enrolling. destruct (handleEnroll _ _ _ _ _ _ _ _ _) as [rep w'].
    cbn [en_SetupKey en_PublicKey ex_enroll] in H. rewrite E in H. exact (proj1 H).
Defined.

Definition ex_revoked : DB := (run_tx (RevokePeer sample_now 2) (sdb sample_run)).2.
Lemma revoked_agent_locked_out_witness :
  (∃ w2, handleReport any_key StdEncode sample_now sample_now sample_now sample_now (ex_request "BAUG")
     BadJSON (with_db ex_revoked ex_world) = (Status 401 "unauthorized", w2))
  ∧ is_ok (AuthenticatePeer sample_cfg sample_now "BAUG" (sdb sample_run)) = true.
Proof.
  split; [|vm_compute; reflexivity].
  destruct (revoked_agent_locked_out any_key StdEncode (Z.eqb 0) no_ephemeral ex_relay "relay" sample_now 2 tt
    ex_revoked ex_world (ex_request "BAUG") "BAUG" sample_now sample_now sample_now sample_now
    BadJSON BadJSON None) as [(w2 & H & _) _].
  - exact ex_world_ok.
  - vm_compute. reflexivity.
  - intros q Hq Eq. assert (forallb (λ q, negb (bool_decide (p_auth_token_hash q = Some (HashToken "BAUG")))
      || (p_id q =? 2)) (peers (sdb sample_run)) = true) as H by (vm_compute; reflexivity).
    rewrite ex_world_db in Hq. rewrite forallb_elem in H. specialize (H q Hq). rewrite bool_decide_true in H by exact Eq.
    simpl in H. apply Z.eqb_eq. exact H.
  - reflexivity.
  - exists w2. exact H.
Defined.

Definition ex_fresh : World := mkWorld ex_server (mkStore sample_cfg sample_db) [].
Definition ex_enrolled : reply EnrollResponse * World :=
  handleEnroll any_key any_key StdEncode sample_now sample_now [5; 6; 7] (ex_request "")
    (Decoded (ex_enroll (k_key sample_key) "pubZ")) ex_fresh.
Lemma enroll_then_report_witness :
  ∃ out rsp w'', ex_enrolled.1 = Good out
    ∧ handleReport any_key StdEncode (sample_now + Hour) sample_now sample_now sample_now
        (ex_request (rs_AuthToken out)) (Decoded sample_report) ex_enrolled.2 = (Good rsp, w'')
    ∧ rr_AssignedIP rsp = "100.64.0.2".
Proof.
  destruct ex_enrolled as [rep w'] eqn:E. destruct rep as [code msg|out]; [vm_compute in E; discriminate E|].
  assert (rs_AuthToken out = "BQYH" ∧ rs_AssignedIP out = "100.64.0.2") as [Et Ei].
  { clear -E. vm_compute in E. injection E as <- _. split; reflexivity. }
  destruct (enroll_then_report any_key any_key StdEncode sample_now sample_now [5; 6; 7] (ex_request "")
    (Decoded (ex_enroll (k_key sample_key) "pubZ")) ex_fresh out w' (sample_now + Hour) sample_now sample_now
    sample_now (ex_request (rs_AuthToken out)) sample_report) as (rsp & w'' & H1 & H2).
  - exact sample_db_ok.
  - exact E.
  - rewrite Et. intros q Hq. apply list_elem_of_singleton in Hq as ->. vm_compute. discriminate.
  - intros req q Hb Hq. injection Hb as <-. apply list_elem_of_singleton in Hq as ->. reflexivity.
  - vm_compute. reflexivity.
  - vm_compute. discriminate.
  - reflexivity.
  - exists out, rsp, w''. split; [reflexivity|]. split; [exact H1|]. rewrite H2. exact Ei.
Defined.

Definition ex_first : reply string * option (gmap string pair) * World :=
  handleRelayPair (Z.eqb 40001) no_ephemeral ex_relay "relay.example" sample_now sample_now
    (ex_request "AQID") (Decoded "pubB") (Some ∅) ex_world.
Lemma relay_pair_opposite_legs_witness :
  ex_first.1.1 = Good "relay.example:40000"
  ∧ ∃ a b relay2 w2,
    handleRelayPair (Z.eqb 40001) no_ephemeral ex_relay "relay.example" sample_now sample_now
      (ex_request "BAUG") (Decoded "pubA") ex_first.1.2 ex_first.2
      = (Good (JoinHostPort "relay.example" (Itoa b)), relay2, w2) ∧ a ≠ b.
Proof.
  split; [vm_compute; reflexivity|].
  destruct (relay_pair_opposite_legs (Z.eqb 40001) no_ephemeral ex_relay "relay.example" sample_now sample_now
    sample_now sample_now (ex_request "AQID") (ex_request "BAUG") "AQID" "BAUG" 1 2 "100.64.0.1" "100.64.0.2"
    (run_peer 0) (run_peer 1) ∅ ex_first.1.2 ex_world ex_first.2 "relay.example:40000")
    as (a & b & relay2 & w2 & H1 & _ & H2 & _).
  - exact ex_world_ok.
  - apply reachable_relay_ok with no_ephemeral; [discriminate|constructor].
  - discriminate.
  - reflexivity.
  - vm_compute. reflexivity.
  - reflexivity.
  - vm_compute. reflexivity.
  - vm_compute. reflexivity.
  - vm_compute. reflexivity.
  - vm_compute. reflexivity.
  - vm_compute. reflexivity.
  - vm_compute. discriminate.
  - vm_compute. discriminate.
  - vm_compute. reflexivity.
  - vm_compute. reflexivity.
  - exists a, b, relay2, w2. split; [exact H1|exact H2].
Defined.

(** A relay session takes no access rule: in this default-deny mesh the second
    agent does not see the phone, and still gets a relay path to it. *)
Lemma relay_pair_without_rule :
  DefaultAllow (cfg sample_run) = false
  ∧ ("phone" ∉ pr_PublicKey <$> listVisible 2 false (sdb sample_run))
  ∧ (handleRelayPair (Z.eqb 40001) no_ephemeral ex_relay "relay.example" sample_now sample_now
       (ex_request "BAUG") (Decoded "phone") (Some ∅) ex_world).1.1 = Good "relay.example:40002".
Proof.
  split; [reflexivity|]. split; [|vm_compute; reflexivity].
  assert (pr_PublicKey <$> listVisible 2 false (sdb sample_run) = ["pubA"]) as -> by (vm_compute; reflexivity).
  rewrite list_elem_of_singleton. discriminate.
Qed.
