(* ===== verification/Path.v ===== *)
(** * The agent's path state machine

    cmd/agent/relay.go: per peer, whether traffic goes direct or through a
    relay, the probes that try to get back to direct, their probation, and the
    damping of flapping paths.

    The agent keeps one Go map per attribute, all keyed by the peer; here the
    attributes of one peer are one record, an absent key being [None], [false],
    0 or "" as the zero value Go reads.  A UDP address is its printed form,
    which is all the code compares.  The zero time is [None].  Answers of the
    WireGuard device, of the control plane and of the transports are inputs of
    the step that asks for them; the endpoint a step configures on the device
    is its output. *)
From S2P Require Import Prelude GoText TimeText.

Definition directStaleAfter : Z := 90 * Second.
Definition directProbeInterval : Z := 20 * Second.
Definition coordinatedProbeInterval : Z := 8 * Second.
Definition coordinatedProbeWindow : Z := 45 * Second.
Definition directProbationMin : Z := 20 * Second.
Definition directProbationTimeout : Z := 60 * Second.
Definition directRetryAfter : Z := 5 * Minute.
Definition directStableTenure : Z := 10 * Minute.
Definition flapHoldDownBase : Z := 2 * Minute.

Definition directRetryInterval (failures : Z) : Z :=
  let failures := if failures <? 0 then 0 else failures in
  let failures := if 3 <? failures then 3 else failures in
  let d := Z.shiftl directRetryAfter failures in
  if 30 * Minute <? d then 30 * Minute else d.

Definition flapHoldDown (flaps : Z) : Z :=
  if flaps <? 1 then 0 else Z.shiftl flapHoldDownBase (Z.min (flaps - 1) 3).

(** ** State *)
Record directProbe : Type := mkProbe {
  dp_started : Z; dp_confirmedAt : option Z; dp_candidates : list string; dp_index : nat;
  dp_relayEndpoint : string; dp_interval : Z; dp_deadline : option Z; dp_epoch : Z
}.

Record PeerPath : Type := mkPath {
  x_firstSeen : option Z; x_lastInbound : option Z;
  x_relayed : bool; x_relayedAt : option Z; x_relayEndpoint : option string;
  x_probe : option directProbe; x_lastPunchEpoch : Z; x_directFailures : Z; x_lastCandidates : string;
  x_wsProxy : option string; x_quicProxy : option string; x_pathKind : string; x_quicUnavailable : bool;
  x_directSince : option Z; x_directFlaps : Z; x_holdDownUntil : option Z
}.
Definition new_path : PeerPath :=
  mkPath None None false None None None 0 0 "" None None "" false None 0 None.

Definition set_probe (o : option directProbe) (x : PeerPath) : PeerPath :=
  mkPath (x_firstSeen x) (x_lastInbound x) (x_relayed x) (x_relayedAt x) (x_relayEndpoint x) o
    (x_lastPunchEpoch x) (x_directFailures x) (x_lastCandidates x) (x_wsProxy x) (x_quicProxy x)
    (x_pathKind x) (x_quicUnavailable x) (x_directSince x) (x_directFlaps x) (x_holdDownUntil x).
Definition set_firstSeen (o : option Z) (x : PeerPath) : PeerPath :=
  mkPath o (x_lastInbound x) (x_relayed x) (x_relayedAt x) (x_relayEndpoint x) (x_probe x)
    (x_lastPunchEpoch x) (x_directFailures x) (x_lastCandidates x) (x_wsProxy x) (x_quicProxy x)
    (x_pathKind x) (x_quicUnavailable x) (x_directSince x) (x_directFlaps x) (x_holdDownUntil x).
Definition set_lastInbound (o : option Z) (x : PeerPath) : PeerPath :=
  mkPath (x_firstSeen x) o (x_relayed x) (x_relayedAt x) (x_relayEndpoint x) (x_probe x)
    (x_lastPunchEpoch x) (x_directFailures x) (x_lastCandidates x) (x_wsProxy x) (x_quicProxy x)
    (x_pathKind x) (x_quicUnavailable x) (x_directSince x) (x_directFlaps x) (x_holdDownUntil x).
Definition set_quicUnavailable (b : bool) (x : PeerPath) : PeerPath :=
  mkPath (x_firstSeen x) (x_lastInbound x) (x_relayed x) (x_relayedAt x) (x_relayEndpoint x) (x_probe x)
    (x_lastPunchEpoch x) (x_directFailures x) (x_lastCandidates x) (x_wsProxy x) (x_quicProxy x)
    (x_pathKind x) b (x_directSince x) (x_directFlaps x) (x_holdDownUntil x).
(** The candidate digest and, with it, the failures it resets. *)
Definition set_candidates (digest : string) (failures : Z) (x : PeerPath) : PeerPath :=
  mkPath (x_firstSeen x) (x_lastInbound x) (x_relayed x) (x_relayedAt x) (x_relayEndpoint x) (x_probe x)
    (x_lastPunchEpoch x) failures digest (x_wsProxy x) (x_quicProxy x)
    (x_pathKind x) (x_quicUnavailable x) (x_directSince x) (x_directFlaps x) (x_holdDownUntil x).
Definition set_punch (epoch : Z) (x : PeerPath) : PeerPath :=
  mkPath (x_firstSeen x) (x_lastInbound x) (x_relayed x) (x_relayedAt x) (x_relayEndpoint x) (x_probe x)
    epoch (x_directFailures x) (x_lastCandidates x) (x_wsProxy x) (x_quicProxy x)
    (x_pathKind x) (x_quicUnavailable x) (x_directSince x) (x_directFlaps x) (x_holdDownUntil x).
Definition set_stint (since : option Z) (flaps : Z) (hold : option Z) (x : PeerPath) : PeerPath :=
  mkPath (x_firstSeen x) (x_lastInbound x) (x_relayed x) (x_relayedAt x) (x_relayEndpoint x) (x_probe x)
    (x_lastPunchEpoch x) (x_directFailures x) (x_lastCandidates x) (x_wsProxy x) (x_quicProxy x)
    (x_pathKind x) (x_quicUnavailable x) since flaps hold.
(** A transport that is up: its proxy, the endpoint and the kind. *)
Definition set_transport (ws quic : option string) (endpoint : option string) (kind : string)
    (x : PeerPath) : PeerPath :=
  mkPath (x_firstSeen x) (x_lastInbound x) (x_relayed x) (x_relayedAt x) endpoint (x_probe x)
    (x_lastPunchEpoch x) (x_directFailures x) (x_lastCandidates x) ws quic
    kind (x_quicUnavailable x) (x_directSince x) (x_directFlaps x) (x_holdDownUntil x).
Definition set_relayed (b : bool) (at_ : option Z) (x : PeerPath) : PeerPath :=
  mkPath (x_firstSeen x) (x_lastInbound x) b at_ (x_relayEndpoint x) (x_probe x)
    (x_lastPunchEpoch x) (x_directFailures x) (x_lastCandidates x) (x_wsProxy x) (x_quicProxy x)
    (x_pathKind x) (x_quicUnavailable x) (x_directSince x) (x_directFlaps x) (x_holdDownUntil x).

(** [a.After(b)] with the zero time before every other. *)
Definition after (a b : option Z) : bool :=
  match a, b with
  | Some x, Some y => y <? x
  | Some _, None => true
  | None, _ => false
  end.

(** What [Device()] reports of a peer. *)
Record DevicePeer : Type := mkDevicePeer { dv_Endpoint : option string; dv_LastHandshake : option Z }.

(** ** Stints and flaps *)
Definition noteDirectStintEnded (now : Z) (x : PeerPath) : PeerPath :=
  match x_directSince x with
  | None => x
  | Some since =>
      if directStableTenure <=? now - since
      then set_stint None 0 (x_holdDownUntil x) x
      else
        let flaps := x_directFlaps x + 1 in
        set_stint None flaps (Some (now + flapHoldDown flaps)) x
  end.

Fixpoint insert_text (s : string) (l : list string) : list string :=
  match l with
  | [] => [s]
  | t :: l' => if str_lt t s then t :: insert_text s l' else s :: l
  end.
Definition sort_texts (l : list string) : list string := foldr insert_text [] l.
Definition candidateDigest (candidates : list string) : string := Join (sort_texts candidates) ",".

Definition directSilentFor (dev : DevicePeer) (now : Z) (x : PeerPath) : Z :=
  let last := x_firstSeen x in
  let last := if after (x_lastInbound x) last then x_lastInbound x else last in
  let last := if after (dv_LastHandshake dev) last then dv_LastHandshake dev else last in
  match last with None => 0 | Some t => now - t end.

(** ** Probes *)
Definition promoteDirect (now : Z) (x : PeerPath) : PeerPath :=
  mkPath (Some now) (x_lastInbound x) false None None None (x_lastPunchEpoch x) 0 "" None None "" false
    (Some now) (x_directFlaps x) None.

(** [ok] is the answer of [ConfigureDevice]. *)
Definition restoreRelayAfterProbe (ok : bool) (now : Z) (probe : directProbe) (x : PeerPath)
  : PeerPath * option string :=
  if negb ok then (x, None)
  else (mkPath (x_firstSeen x) (x_lastInbound x) (x_relayed x) (Some now) (x_relayEndpoint x) None
          (x_lastPunchEpoch x) (x_directFailures x + 1) (x_lastCandidates x) (x_wsProxy x) (x_quicProxy x)
          (x_pathKind x) (x_quicUnavailable x) (x_directSince x) (x_directFlaps x) (x_holdDownUntil x),
        Some (dp_relayEndpoint probe)).

Definition startDirectProbe (ok : bool) (now : Z) (candidates : list string) (interval window epoch : Z)
    (x : PeerPath) : PeerPath * option string :=
  match x_relayEndpoint x, candidates with
  | None, _ | _, [] => (x, None)
  | Some relay, first :: _ =>
      let probe := mkProbe now None candidates 0 relay interval
                     (if 0 <? window then Some (now + window) else None) epoch in
      if ok then (set_probe (Some probe) x, Some first) else (x, None)
  end.

Definition direct_endpoint (dev : DevicePeer) (probe : directProbe) : bool :=
  match dv_Endpoint dev with
  | Some e => bool_decide (e ≠ dp_relayEndpoint probe)
  | None => false
  end.

Definition checkDirectProbe (ok : bool) (dev : DevicePeer) (now : Z) (x : PeerPath)
  : PeerPath * option string :=
  match x_probe x with
  | None => (x, None)
  | Some probe =>
      let direct := direct_endpoint dev probe in
      match dp_confirmedAt probe with
      | None =>
          if after (dv_LastHandshake dev) (Some (dp_started probe)) && direct then
            (set_probe (Some (mkProbe (dp_started probe) (Some now) (dp_candidates probe) (dp_index probe)
                                (dp_relayEndpoint probe) (dp_interval probe) (dp_deadline probe)
                                (dp_epoch probe))) x, None)
          else if now - dp_started probe <? dp_interval probe then (x, None)
          else
            let canRotate := match dp_deadline probe with
                             | None => (dp_index probe + 1 <? length (dp_candidates probe))%nat
                             | Some d => now <? d
                             end in
            if canRotate then
              let index := if (length (dp_candidates probe) <=? dp_index probe + 1)%nat
                           then 0%nat else (dp_index probe + 1)%nat in
              let probe' := mkProbe now None (dp_candidates probe) index
                              (dp_relayEndpoint probe) (dp_interval probe) (dp_deadline probe)
                              (dp_epoch probe) in
              match dp_candidates probe !! index with
              | Some next => if ok then (set_probe (Some probe') x, Some next) else (x, None)
              | None => (x, None)
              end
            else restoreRelayAfterProbe ok now probe x
      | Some confirmed =>
          if direct && after (x_lastInbound x) (Some (confirmed + directProbationMin))
          then (promoteDirect now x, None)
          else if now - confirmed <? directProbationTimeout then (x, None)
          else restoreRelayAfterProbe ok now probe x
      end
  end.

Definition maybeRetryDirect (probeOff ok : bool) (now : Z) (candidates : list string) (punchEpoch : Z)
    (x : PeerPath) : PeerPath * option string :=
  if probeOff || bool_decide (candidates = []) || negb (x_relayed x) then (x, None)
  else
    let digest := candidateDigest candidates in
    let x := if bool_decide (digest = x_lastCandidates x) then x else set_candidates digest 0 x in
    let fast := (0 <? punchEpoch) && (x_lastPunchEpoch x <? punchEpoch) in
    let x := if fast then set_punch punchEpoch x else x in
    if match x_holdDownUntil x with Some until => now <? until | None => false end then (x, None)
    else if bool_decide (x_probe x ≠ None) && negb fast then (x, None)
    else if negb fast && match x_relayedAt x with
                         | Some at_ => now - at_ <? directRetryInterval (x_directFailures x)
                         | None => false
                         end then (x, None)
    else startDirectProbe ok now candidates
           (if fast then coordinatedProbeInterval else directProbeInterval)
           (if fast then coordinatedProbeWindow else 0) punchEpoch x.

(** ** Falling back to a relay *)
Inductive relayTransport : Type := relayAuto | relayWebSocket | relayUDP.

(** What the transports answer: [startQUICRelay] an endpoint or an error,
    [startWSRelay] also [errNoWSRelay], [requestRelayEndpoint] also "no relay",
    and else an endpoint that resolves or does not. *)
Inductive ws_answer : Type := WsUp (endpoint : string) | WsNone | WsFail.
Inductive udp_answer : Type := UdpEndpoint (resolved : option string) | UdpNone | UdpFail.
Record Answers : Type := mkAnswers {
  an_quic : option string; an_ws : ws_answer; an_udp : udp_answer; an_device : bool
}.

Definition switch_ws (a : Answers) (x : PeerPath) (broken : bool) : bool * PeerPath * bool :=
  match an_ws a with
  | WsUp e => (true, set_transport (Some e) (x_quicProxy x) (Some e) "ws-relay" x, broken)
  | WsNone => (false, x, true)
  | WsFail => (false, x, broken)
  end.

(** The result: relayed now, the state, and the flag [relayBroken]. *)
Definition switchToRelay (t : relayTransport) (a : Answers) (x : PeerPath) (broken : bool)
  : bool * PeerPath * bool :=
  match t with
  | relayAuto =>
      if negb (x_quicUnavailable x) then
        match an_quic a with
        | Some e => (true, set_transport (x_wsProxy x) (Some e) (Some e) "quic-relay" x, broken)
        | None => switch_ws a (set_quicUnavailable true x) broken
        end
      else switch_ws a x broken
  | relayWebSocket => switch_ws a x broken
  | relayUDP =>
      match an_udp a with
      | UdpFail => (false, x, broken)
      | UdpNone => (false, x, true)
      | UdpEndpoint None => (false, x, broken)
      | UdpEndpoint (Some e) =>
          if negb (an_device a) then (false, x, broken)
          else (true, set_transport (x_wsProxy x) (x_quicProxy x) (Some e) "udp-relay" x, broken)
      end
  end.

(** A proxy whose pumps have stopped is retired. *)
Definition retire_ws (dead : bool) (x : PeerPath) : PeerPath :=
  match x_wsProxy x with
  | Some _ => if dead then set_probe None (set_relayed false None (set_transport None (x_quicProxy x) None "" x)) else x
  | None => x
  end.
Definition retire_quic (dead : bool) (x : PeerPath) : PeerPath :=
  match x_quicProxy x with
  | Some _ =>
      if dead then set_quicUnavailable true
                     (set_probe None (set_relayed false None (set_transport (x_wsProxy x) None None "" x)))
      else x
  | None => x
  end.

(** What one peer meets in a tick: which of its proxies died, whether the device
    still lists it and with what, and the answers. *)
Record Tick : Type := mkTick {
  tk_wsDead : bool; tk_quicDead : bool; tk_device : option DevicePeer; tk_answers : Answers
}.

(** The body of the loop over the device's peers. *)
Definition check_peer (t : relayTransport) (now : Z) (dev : DevicePeer) (a : Answers) (x : PeerPath)
    (broken : bool) : PeerPath * bool * option string :=
  let '(x, cmd) := checkDirectProbe (an_device a) dev now x in
  let x := match x_firstSeen x with None => set_firstSeen (Some now) x | Some _ => x end in
  if x_relayed x || broken then (x, broken, cmd)
  else if directSilentFor dev now x <? directStaleAfter then (x, broken, cmd)
  else
    let '(switched, x, broken) := switchToRelay t a x broken in
    if switched then (noteDirectStintEnded now (set_relayed true (Some now) x), broken, cmd)
    else (x, broken, cmd).

(** One peer's share of [checkHandshakes]. *)
Definition checkHandshakes (t : relayTransport) (now : Z) (tk : Tick) (x : PeerPath) (broken : bool)
  : PeerPath * bool * option string :=
  let x := retire_quic (tk_quicDead tk) (retire_ws (tk_wsDead tk) x) in
  match tk_device tk with
  | None => (x, broken, None)
  | Some dev => check_peer t now dev (tk_answers tk) x broken
  end.

(** [checkProbes], on the status tick. *)
Definition checkProbes (ok : bool) (dev : DevicePeer) (now : Z) (x : PeerPath) : PeerPath * option string :=
  match x_probe x with
  | None => (x, None)
  | Some _ => checkDirectProbe ok dev now x
  end.

(** [collect] stamps a peer whose received bytes grew. *)
Definition note_inbound (now : Z) (x : PeerPath) : PeerPath := set_lastInbound (Some now) x.

(** [pathState]: what the agent reports of the peer. *)
Definition pathState (t : relayTransport) (x : PeerPath) : string :=
  match x_probe x with
  | Some _ => "probing-direct"
  | None =>
      if x_relayed x then
        if decide (x_pathKind x = "") then match t with relayUDP => "udp-relay" | _ => "ws-relay" end
        else x_pathKind x
      else "direct"
  end.

(** ** Steps

    What can happen to one peer, at a time; [relayBroken] may have been set by
    another peer's step, so a tick may start with either value. *)
Inductive path_event : Type :=
| EvTick (tk : Tick) (broken : bool)
| EvProbes (ok : bool) (dev : DevicePeer)
| EvInbound
| EvSync (off ok : bool) (candidates : list string) (punchEpoch : Z).

Definition path_exec (t : relayTransport) (now : Z) (e : path_event) (x : PeerPath)
  : PeerPath * option string :=
  match e with
  | EvTick tk broken => let '(x', _, cmd) := checkHandshakes t now tk x broken in (x', cmd)
  | EvProbes ok dev => checkProbes ok dev now x
  | EvInbound => (note_inbound now x, None)
  | EvSync off ok candidates epoch => maybeRetryDirect off ok now candidates epoch x
  end.

Inductive path_run (t : relayTransport) (x : PeerPath) : list (Z * path_event) → PeerPath → Prop :=
| run_start : path_run t x [] x
| run_step es now e y : path_run t x es y → path_run t x (es ++ [(now, e)]) (path_exec t now e y).1.
