(* ===== verification/PathFacts.v ===== *)
(** * Facts about the agent's path state machine

    The invariant that ties the agent's maps together, over every sequence of
    ticks, probes, received traffic and syncs; that a relay is left only on
    proof; that a flapping path is held down. *)
From S2P Require Import Prelude GoText TimeText Path.

(** The transport of a relayed peer. *)
Definition transport_ok (x : PeerPath) : Prop :=
  (x_pathKind x = "ws-relay" ∧ x_wsProxy x = x_relayEndpoint x ∧ x_quicProxy x = None)
  ∨ (x_pathKind x = "quic-relay" ∧ x_quicProxy x = x_relayEndpoint x ∧ x_wsProxy x = None)
  ∨ (x_pathKind x = "udp-relay" ∧ x_wsProxy x = None ∧ x_quicProxy x = None).

Record path_ok (x : PeerPath) : Prop := {
  po_probe : ∀ pb, x_probe x = Some pb →
    x_relayed x = true ∧ x_relayEndpoint x = Some (dp_relayEndpoint pb)
    ∧ (dp_index pb < length (dp_candidates pb))%nat;
  po_relayed : x_relayed x = true →
    is_Some (x_relayedAt x) ∧ is_Some (x_relayEndpoint x) ∧ transport_ok x ∧ x_directSince x = None;
  po_direct : x_relayed x = false →
    x_probe x = None ∧ x_relayEndpoint x = None ∧ x_wsProxy x = None ∧ x_quicProxy x = None
    ∧ x_pathKind x = "";
  po_counts : 0 ≤ x_directFailures x ∧ 0 ≤ x_directFlaps x
}.

Lemma path_ok_new : path_ok new_path.
Proof. split; simpl; try done; lia. Qed.

(** Updates of fields the invariant does not look at. *)
Lemma path_ok_same x y :
  path_ok x → x_relayed y = x_relayed x → x_relayedAt y = x_relayedAt x →
  x_relayEndpoint y = x_relayEndpoint x → x_probe y = x_probe x → x_wsProxy y = x_wsProxy x →
  x_quicProxy y = x_quicProxy x → x_pathKind y = x_pathKind x → x_directSince y = x_directSince x →
  0 ≤ x_directFailures y ∧ 0 ≤ x_directFlaps y → path_ok y.
Proof.
  intros [H1 H2 H3 H4] E1 E2 E3 E4 E5 E6 E7 E8 Hc. unfold transport_ok in *.
  split; unfold transport_ok; rewrite ?E1, ?E2, ?E3, ?E4, ?E5, ?E6, ?E7, ?E8; auto.
Qed.

Lemma path_ok_firstSeen o x : path_ok x → path_ok (set_firstSeen o x).
Proof. intros H. eapply path_ok_same; eauto. apply H. Qed.
Lemma path_ok_lastInbound o x : path_ok x → path_ok (set_lastInbound o x).
Proof. intros H. eapply path_ok_same; eauto. apply H. Qed.
Lemma path_ok_quicUnavailable b x : path_ok x → path_ok (set_quicUnavailable b x).
Proof. intros H. eapply path_ok_same; eauto. apply H. Qed.
Lemma path_ok_punch e x : path_ok x → path_ok (set_punch e x).
Proof. intros H. eapply path_ok_same; eauto. apply H. Qed.
Lemma path_ok_candidates d x : path_ok x → path_ok (set_candidates d 0 x).
Proof. intros H. eapply path_ok_same; eauto. simpl. split; [lia|apply H]. Qed.

Lemma path_ok_probe pb x :
  path_ok x → x_relayed x = true → x_relayEndpoint x = Some (dp_relayEndpoint pb) →
  (dp_index pb < length (dp_candidates pb))%nat → path_ok (set_probe (Some pb) x).
Proof.
  intros [H1 H2 H3 H4] Hr He Hi. split; simpl; try done.
  - by intros pb' [= <-].
  - intros E. congruence.
Qed.

Lemma path_ok_promote now x : path_ok x → path_ok (promoteDirect now x).
Proof. intros [_ _ _ [_ H]]. split; simpl; try done; lia. Qed.

Lemma path_ok_restore ok now pb x :
  path_ok x → x_relayed x = true → path_ok (restoreRelayAfterProbe ok now pb x).1.
Proof.
  intros [H1 H2 H3 H4] Hr. unfold restoreRelayAfterProbe. destruct ok; simpl; [|done].
  destruct (H2 Hr) as (_ & He & Ht & Hs). split; simpl; [done| |congruence|lia].
  intros _. split_and!; [by eexists|exact He|exact Ht|exact Hs].
Qed.

Lemma path_ok_start ok now cs i w e x :
  path_ok x → x_relayed x = true → path_ok (startDirectProbe ok now cs i w e x).1.
Proof.
  intros H Hr. unfold startDirectProbe. destruct (x_relayEndpoint x) as [r|] eqn:E; [|done].
  destruct cs as [|c cs]; [done|]. destruct ok; [|done]. apply path_ok_probe; try done. simpl. lia.
Qed.

Lemma path_ok_check ok dev now x : path_ok x → path_ok (checkDirectProbe ok dev now x).1.
Proof.
  intros H. unfold checkDirectProbe. destruct (x_probe x) as [pb|] eqn:Ep; [|done].
  destruct (po_probe _ H _ Ep) as (Hr & He & Hi).
  destruct (dp_confirmedAt pb) as [c|].
  - destruct (_ && _); [by apply path_ok_promote|]. destruct (_ <? _); [done|]. by apply path_ok_restore.
  - destruct (_ && _); [by apply path_ok_probe|]. destruct (_ <? _); [done|].
    destruct (match dp_deadline pb with None => _ | Some _ => _ end); [|by apply path_ok_restore].
    set (i := if _ : bool then _ else _).
    destruct (dp_candidates pb !! i) as [c|] eqn:Ec; [|done]. destruct ok; [|done].
    apply path_ok_probe; try done. simpl. by eapply lookup_lt_Some.
Qed.

Lemma path_ok_retry off ok now cs e x : path_ok x → path_ok (maybeRetryDirect off ok now cs e x).1.
Proof.
  intros H. unfold maybeRetryDirect. destruct (off || _ || _) eqn:E0; [done|].
  apply orb_false_iff in E0 as [_ Hr%negb_false_iff].
  set (x1 := if bool_decide _ then x else _).
  assert (path_ok x1 ∧ x_relayed x1 = true) as [H1 Hr1]
    by (unfold x1; case_bool_decide; [done|split; [by apply path_ok_candidates|done]]).
  set (fast := _ && _). set (x2 := if fast then _ else _).
  assert (path_ok x2 ∧ x_relayed x2 = true) as [H2 Hr2]
    by (unfold x2; destruct fast; [split; [by apply path_ok_punch|done]|done]).
  destruct (match x_holdDownUntil x2 with Some _ => _ | None => _ end); [exact H2|].
  destruct (bool_decide _ && _); [exact H2|]. destruct (negb fast && _); [exact H2|]. by apply path_ok_start.
Qed.

(** A switch from direct: a transport is up, or nothing relevant changed. *)
Definition same_stint (x y : PeerPath) : Prop :=
  x_directSince y = x_directSince x ∧ x_directFlaps y = x_directFlaps x
  ∧ x_holdDownUntil y = x_holdDownUntil x ∧ x_directFailures y = x_directFailures x.
Definition switched_ok (x y : PeerPath) : Prop :=
  x_probe y = None ∧ is_Some (x_relayEndpoint y) ∧ transport_ok y ∧ same_stint x y.
Definition unswitched (x y : PeerPath) : Prop := path_ok y ∧ x_relayed y = false ∧ same_stint x y.

Lemma switch_ws_ok a x broken :
  path_ok x → x_relayed x = false →
  let '(b, y, _) := switch_ws a x broken in if b then switched_ok x y else unswitched x y.
Proof.
  intros H Hr. destruct (po_direct _ H Hr) as (Hp & He & Hw & Hq & Hk).
  unfold switch_ws. destruct (an_ws a); simpl; try done.
  split_and!; simpl; eauto; [|done]. left. simpl. done.
Qed.

Lemma switchToRelay_ok t a x broken :
  path_ok x → x_relayed x = false →
  let '(b, y, _) := switchToRelay t a x broken in if b then switched_ok x y else unswitched x y.
Proof.
  intros H Hr. destruct (po_direct _ H Hr) as (Hp & He & Hw & Hq & Hk). unfold switchToRelay.
  destruct t.
  - destruct (x_quicUnavailable x); simpl; [by apply switch_ws_ok|].
    destruct (an_quic a) as [e|].
    + split_and!; simpl; eauto; [|done]. right; left. simpl. done.
    + apply (switch_ws_ok a (set_quicUnavailable true x)); [by apply path_ok_quicUnavailable|done].
  - by apply switch_ws_ok.
  - destruct (an_udp a) as [[e|]| |]; simpl; try done. destruct (an_device a); simpl; [|done].
    split_and!; simpl; eauto; [|done]. right; right. simpl. done.
Qed.

Lemma demote_ok now x y :
  path_ok x → switched_ok x y → path_ok (noteDirectStintEnded now (set_relayed true (Some now) y)).
Proof.
  intros H (Hp & He & Ht & E1 & E2 & E3 & E4). destruct (po_counts _ H).
  unfold noteDirectStintEnded. simpl. destruct (x_directSince y) as [s|] eqn:Es; [case_match|];
    (split; simpl; [congruence| |done|lia]); intros _;
    (split_and!; [by eexists|exact He|exact Ht|done]).
Qed.

Lemma retire_ok b b' x : path_ok x → path_ok (retire_quic b' (retire_ws b x)).
Proof.
  intros H.
  assert (path_ok (retire_ws b x)) as H1.
  { unfold retire_ws. destruct (x_wsProxy x) as [e|] eqn:Ew; [|done]. destruct b; [|done].
    assert (x_relayed x = true) as Hr.
    { destruct (x_relayed x) eqn:Er; [done|]. destruct (po_direct _ H Er) as (_ & _ & ? & _). congruence. }
    destruct (po_relayed _ H Hr) as (_ & _ & [(?&?&?)|[(?&?&?)|(?&?&?)]] & _); try congruence.
    split; simpl; try done. apply H. }
  unfold retire_quic. destruct (x_quicProxy (retire_ws b x)) as [e|] eqn:Eq; [|done]. destruct b'; [|done].
  assert (x_relayed (retire_ws b x) = true) as Hr.
  { destruct (x_relayed (retire_ws b x)) eqn:Er; [done|].
    destruct (po_direct _ H1 Er) as (_ & _ & _ & ? & _). congruence. }
  destruct (po_relayed _ H1 Hr) as (_ & _ & [(?&?&?)|[(?&?&?)|(?&?&?)]] & _); try congruence.
  split; simpl; try done. apply H1.
Qed.

Definition seen (now : Z) (x : PeerPath) : PeerPath :=
  match x_firstSeen x with None => set_firstSeen (Some now) x | Some _ => x end.
Lemma seen_ok now x : path_ok x → path_ok (seen now x).
Proof. intros H. unfold seen. case_match; [done|]. by apply path_ok_firstSeen. Qed.

Lemma check_peer_ok t now dev a x broken : path_ok x → path_ok (check_peer t now dev a x broken).1.1.
Proof.
  intros H. unfold check_peer. pose proof (path_ok_check (an_device a) dev now x H) as H1.
  destruct (checkDirectProbe _ dev now x) as [x1 cmd]. simpl in H1.
  apply (seen_ok now) in H1. fold (seen now x1). set (x2 := seen now x1) in *.
  destruct (x_relayed x2 || broken) eqn:Er; [done|]. apply orb_false_iff in Er as [Er _].
  destruct (_ <? _); [done|].
  pose proof (switchToRelay_ok t a x2 broken H1 Er) as Hs.
  destruct (switchToRelay t a x2 broken) as [[b y] broken']. destruct b; simpl.
  - by apply (demote_ok now x2).
  - apply Hs.
Qed.

Lemma path_exec_ok t now e x : path_ok x → path_ok (path_exec t now e x).1.
Proof.
  intros H. destruct e as [tk broken|ok dev| |off ok cs epoch]; cbn [path_exec].
  - unfold checkHandshakes. apply (retire_ok (tk_wsDead tk) (tk_quicDead tk)) in H.
    set (x1 := retire_quic _ _) in *. destruct (tk_device tk) as [dev|]; [|done].
    pose proof (check_peer_ok t now dev (tk_answers tk) x1 broken H) as H1.
    destruct (check_peer _ _ _ _ _ _) as [[y b] cmd]. done.
  - unfold checkProbes. destruct (x_probe x); [|done]. by apply path_ok_check.
  - by apply path_ok_lastInbound.
  - by apply path_ok_retry.
Qed.

Lemma path_run_ok t x es y : path_ok x → path_run t x es y → path_ok y.
Proof. intros H. induction 1; [done|]. by apply path_exec_ok. Qed.

(** C5: the agent's view of a peer is always coherent.  After any sequence of
    ticks, probe checks, received traffic and syncs, whatever the device, the
    control plane and the transports answer: a probe runs only for a relayed
    peer and remembers that peer's relay endpoint, with its cursor inside the
    candidate list; a relayed peer has exactly the one transport its path kind
    names; a direct peer has none; and what is reported to the server says so. *)
Theorem path_coherent t es x :
  path_run t new_path es x →
  (∀ pb, x_probe x = Some pb → x_relayed x = true ∧ x_relayEndpoint x = Some (dp_relayEndpoint pb)
     ∧ (dp_index pb < length (dp_candidates pb))%nat ∧ pathState t x = "probing-direct")
  ∧ (x_relayed x = true → transport_ok x ∧ is_Some (x_relayEndpoint x)
     ∧ (x_probe x = None → pathState t x = x_pathKind x))
  ∧ (x_relayed x = false → x_wsProxy x = None ∧ x_quicProxy x = None ∧ x_relayEndpoint x = None
     ∧ pathState t x = "direct").
Proof.
  intros Hrun. pose proof (path_run_ok t _ _ _ path_ok_new Hrun) as H.
  split_and!.
  - intros pb Hp. destruct (po_probe _ H _ Hp) as (? & ? & ?). split_and!; try done.
    unfold pathState. by rewrite Hp.
  - intros Hr. destruct (po_relayed _ H Hr) as (_ & He & Ht & _). split_and!; try done.
    intros Hp. unfold pathState. rewrite Hp, Hr. case_decide as Hk; [|done].
    destruct Ht as [(E&_)|[(E&_)|(E&_)]]; congruence.
  - intros Hr. destruct (po_direct _ H Hr) as (Hp & He & Hw & Hq & _). split_and!; try done.
    unfold pathState. by rewrite Hp, Hr.
Qed.

(** ** Leaving a relay *)
Definition event_device (e : path_event) : option DevicePeer :=
  match e with
  | EvTick tk _ => tk_device tk
  | EvProbes _ dev => Some dev
  | _ => None
  end.

(** What one look at the device showed of a probe: a handshake younger than the
    probe, on an endpoint that is not the relay's. *)
Definition handshook (e : path_event) (pb : directProbe) : Prop :=
  ∃ dev h, event_device e = Some dev ∧ dv_LastHandshake dev = Some h ∧ dp_started pb < h
    ∧ direct_endpoint dev pb = true.
(** In the history [es]: the probe handshook on a direct endpoint, and bytes
    arrived more than twenty seconds after that was seen; the device still uses a
    direct endpoint. *)
Definition proven_direct (es : list (Z * path_event)) (dev : DevicePeer) (x : PeerPath) : Prop :=
  ∃ pb c e i, x_probe x = Some pb ∧ dp_confirmedAt pb = Some c ∧ (c, e) ∈ es ∧ handshook e pb
    ∧ (i, EvInbound) ∈ es ∧ c + directProbationMin < i ∧ direct_endpoint dev pb = true.

(** The state reflects the history: a confirmed probe a handshake, the time of
    the last traffic such traffic. *)
Record true_to (es : list (Z * path_event)) (x : PeerPath) : Prop := {
  tt_inbound : ∀ i, x_lastInbound x = Some i → (i, EvInbound) ∈ es;
  tt_probe : ∀ pb c, x_probe x = Some pb → dp_confirmedAt pb = Some c → ∃ e, (c, e) ∈ es ∧ handshook e pb
}.
(** A change that neither makes a probe nor notes traffic. *)
Definition probe_kept (x y : PeerPath) : Prop :=
  x_lastInbound y = x_lastInbound x ∧ (x_probe y = x_probe x ∨ x_probe y = None).
Lemma true_to_kept es x y : true_to es x → probe_kept x y → true_to es y.
Proof.
  intros [H1 H2] [E [Ep|Ep]]; split; rewrite E || rewrite Ep; auto. done.
Qed.
Lemma true_to_more es e x : true_to es x → true_to (es ++ [e]) x.
Proof.
  intros [H1 H2]. split.
  - intros i Hi. apply elem_of_app. auto.
  - intros pb c Hp Hc. destruct (H2 pb c Hp Hc) as (e' & He & Hh). exists e'. split; [|done]. apply elem_of_app. auto.
Qed.
Lemma retire_kept b b' x : probe_kept x (retire_quic b' (retire_ws b x)).
Proof. unfold probe_kept, retire_ws, retire_quic. repeat case_match; simpl in *; auto. Qed.
Lemma switchToRelay_kept t a x broken : probe_kept x (switchToRelay t a x broken).1.2.
Proof. unfold probe_kept, switchToRelay, switch_ws. repeat (case_match; simplify_eq/=); simpl in *; auto. Qed.
Lemma restore_kept ok now pb x : probe_kept x (restoreRelayAfterProbe ok now pb x).1.
Proof. unfold probe_kept, restoreRelayAfterProbe. case_match; simpl; auto. Qed.
Lemma kept_trans x y z : probe_kept x y → probe_kept y z → probe_kept x z.
Proof. intros [E1 H1] [E2 H2]. split; [congruence|]. destruct H1, H2; first [left; congruence|right; congruence]. Qed.

Lemma checkDirectProbe_true es ok now e dev x :
  event_device e = Some dev → true_to es x → true_to (es ++ [(now, e)]) (checkDirectProbe ok dev now x).1.
Proof.
  intros He Ht. apply (true_to_more _ (now, e)) in Ht. unfold checkDirectProbe.
  destruct (x_probe x) as [pb|] eqn:Ep; [|done]. destruct (dp_confirmedAt pb) as [c|] eqn:Ec.
  - destruct (_ && _); [split; [apply Ht|done]|]. destruct (_ <? _); [done|].
    apply (true_to_kept _ _ _ Ht), restore_kept.
  - destruct (after _ _ && _) eqn:Ea.
    + apply andb_prop in Ea as [Ea Ed]. split; [apply Ht|]. cbn. intros pb' c [= <-] [= <-]. exists e.
      split; [apply elem_of_app; right; by left|]. unfold after in Ea.
      destruct (dv_LastHandshake dev) as [h|] eqn:Eh; [|done]. exists dev, h. split_and!; try done. by apply Z.ltb_lt.
    + destruct (_ <? _); [done|]. case_match; [|apply (true_to_kept _ _ _ Ht), restore_kept].
      destruct (dp_candidates pb !! _) as [nx|]; [|done]. destruct ok; [|done]. split; [apply Ht|]. cbn. by intros ? ? [= <-].
Qed.
Lemma check_peer_true es t now e dev a x broken :
  event_device e = Some dev → true_to es x → true_to (es ++ [(now, e)]) (check_peer t now dev a x broken).1.1.
Proof.
  intros He Ht. unfold check_peer. pose proof (checkDirectProbe_true es (an_device a) now e dev x He Ht) as H1.
  destruct (checkDirectProbe _ dev now x) as [x1 cmd]. cbn in H1. fold (seen now x1). set (x2 := seen now x1).
  assert (probe_kept x1 x2) as K by (unfold x2, seen, probe_kept; case_match; simpl; auto).
  apply (true_to_kept _ _ _ H1) in K as H2. destruct (x_relayed x2 || broken); [done|]. destruct (_ <? _); [done|].
  pose proof (switchToRelay_kept t a x2 broken) as Ks. destruct (switchToRelay t a x2 broken) as [[[] y] b']; cbn in *.
  - apply (true_to_kept _ _ _ H2), (kept_trans _ y); [done|]. unfold probe_kept, noteDirectStintEnded. repeat case_match; simpl; auto.
  - by apply (true_to_kept _ _ _ H2).
Qed.
Lemma maybeRetryDirect_true es off ok now cs e x : true_to es x → true_to es (maybeRetryDirect off ok now cs e x).1.
Proof.
  intros Ht. unfold maybeRetryDirect. destruct (off || _ || _); [done|].
  set (x1 := if bool_decide _ then x else _). set (fast := _ && _). set (x2 := if fast then _ else _).
  assert (true_to es x2) as H2.
  { apply (true_to_kept _ _ _ Ht). unfold x2, x1, probe_kept. destruct fast; case_bool_decide; simpl; auto. }
  destruct (match x_holdDownUntil x2 with Some _ => _ | None => _ end); [done|].
  destruct (bool_decide _ && _); [done|]. destruct (negb fast && _); [done|].
  unfold startDirectProbe. destruct (x_relayEndpoint x2); [|done]. destruct cs; [done|]. destruct ok; [|done].
  split; [apply H2|]. cbn. by intros ? ? [= <-].
Qed.
Lemma path_run_true t es x : path_run t new_path es x → true_to es x.
Proof.
  induction 1 as [|es now e y _ IH]; [by split|]. destruct e as [tk broken|ok dev| |off ok cs epoch]; cbn [path_exec].
  - unfold checkHandshakes. pose proof (true_to_kept _ _ _ IH (retire_kept (tk_wsDead tk) (tk_quicDead tk) y)) as H1.
    set (x1 := retire_quic _ _) in *. destruct (tk_device tk) as [dev|] eqn:Ed; [|by apply true_to_more].
    pose proof (check_peer_true es t now (EvTick tk broken) dev (tk_answers tk) x1 broken Ed H1) as H2.
    by destruct (check_peer _ _ _ _ _ _) as [[z b] cmd].
  - unfold checkProbes. destruct (x_probe y) eqn:Ep; [|by apply true_to_more]. by apply checkDirectProbe_true.
  - split; cbn.
    + intros i [= <-]. apply elem_of_app. right. by left.
    + exact (tt_probe _ _ (true_to_more _ _ _ IH)).
  - apply true_to_more. by apply maybeRetryDirect_true.
Qed.

Lemma checkDirectProbe_leaves es ok dev now x :
  true_to es x → x_relayed x = true → x_relayed (checkDirectProbe ok dev now x).1 = false →
  proven_direct es dev x.
Proof.
  intros [H1 H2] Hr. unfold checkDirectProbe. destruct (x_probe x) as [pb|] eqn:Ep; [|simpl; congruence].
  destruct (dp_confirmedAt pb) as [c|] eqn:Ec.
  - destruct (direct_endpoint dev pb && _) eqn:E.
    + intros _. apply andb_prop in E as [E1 E2]. unfold after in E2.
      destruct (x_lastInbound x) as [i|] eqn:Ei; [|done]. apply Z.ltb_lt in E2.
      destruct (H2 pb c eq_refl Ec) as (e & He & Hh). exists pb, c, e, i. split_and!; auto.
    + unfold restoreRelayAfterProbe. repeat case_match; simpl; congruence.
  - unfold restoreRelayAfterProbe. repeat case_match; simpl; congruence.
Qed.

Lemma maybeRetryDirect_relayed off ok now cs e x :
  x_relayed (maybeRetryDirect off ok now cs e x).1 = x_relayed x.
Proof. unfold maybeRetryDirect, startDirectProbe. repeat case_match; done. Qed.

Lemma check_peer_relayed t now dev a x broken :
  x_relayed (checkDirectProbe (an_device a) dev now x).1 = true →
  x_relayed (check_peer t now dev a x broken).1.1 = true.
Proof.
  unfold check_peer. destruct (checkDirectProbe _ dev now x) as [x1 cmd]. simpl. intros Hr.
  fold (seen now x1). assert (x_relayed (seen now x1) = true) as E by (unfold seen; by case_match).
  by rewrite E.
Qed.

Lemma retire_relayed b b' x :
  x_relayed x = true → x_relayed (retire_quic b' (retire_ws b x)) = false →
  (b = true ∧ is_Some (x_wsProxy x)) ∨ (b' = true ∧ is_Some (x_quicProxy x)).
Proof.
  intros Hr. unfold retire_ws. destruct (x_wsProxy x) as [e|] eqn:Ew; [destruct b; [by eauto|]|];
    unfold retire_quic; destruct (x_quicProxy x) as [q|] eqn:Eq; try congruence;
    destruct b'; try congruence; by eauto.
Qed.

(** C4: a working relay is given up only on proof.  In any reachable state a
    relayed peer becomes direct in one step only when the proxy that carries it
    has died, or when all this happened and the device still uses a direct
    endpoint: at some check the device showed, on an endpoint that is not the
    relay's, a handshake made after the running probe started, and more than
    twenty seconds after that check traffic from the peer arrived. *)
Theorem relay_left_only_on_proof t es x now e :
  path_run t new_path es x → x_relayed x = true → x_relayed (path_exec t now e x).1 = false →
  (∃ tk broken, e = EvTick tk broken
     ∧ ((tk_wsDead tk = true ∧ is_Some (x_wsProxy x)) ∨ (tk_quicDead tk = true ∧ is_Some (x_quicProxy x))))
  ∨ ∃ dev, event_device e = Some dev ∧ proven_direct es dev x.
Proof.
  intros Hrun Hr. pose proof (path_run_true t _ _ Hrun) as H.
  destruct e as [tk broken|ok dev| |off ok cs epoch]; cbn [path_exec].
  - unfold checkHandshakes. set (x1 := retire_quic _ _).
    destruct (x_relayed x1) eqn:E1.
    + assert (x1 = x) as Ex.
      { unfold x1, retire_quic, retire_ws in *. repeat case_match; try done; simpl in *; congruence. }
      rewrite Ex. destruct (tk_device tk) as [dev|] eqn:Ed; [|simpl; congruence]. intros Hn.
      right. exists dev. split; [done|]. apply (checkDirectProbe_leaves es (an_device (tk_answers tk)) dev now); [done..|].
      destruct (x_relayed (checkDirectProbe _ dev now x).1) eqn:Ec; [|done].
      eapply (check_peer_relayed t _ _ _ _ broken) in Ec.
      destruct (check_peer _ _ _ _ _ _) as [[y b] cmd]. simpl in *. congruence.
    + intros _. left. exists tk, broken. split; [done|]. by eapply retire_relayed.
  - intros Hn. right. exists dev. split; [done|]. unfold checkProbes in Hn.
    destruct (x_probe x) eqn:Ep; [|simpl in Hn; congruence]. by eapply checkDirectProbe_leaves.
  - simpl. congruence.
  - rewrite maybeRetryDirect_relayed. congruence.
Qed.

(** ** Holding a flapping path down *)
Record held_down (u : Z) (x : PeerPath) : Prop := {
  hd_probe : x_probe x = None;
  hd_since : x_directSince x = None;
  hd_until : x_holdDownUntil x = Some u
}.

Lemma check_no_probe ok dev now x : x_probe x = None → checkDirectProbe ok dev now x = (x, None).
Proof. intros E. unfold checkDirectProbe. by rewrite E. Qed.

Lemma retire_held b b' u x : held_down u x → held_down u (retire_quic b' (retire_ws b x)).
Proof.
  intros [H1 H2 H3]. unfold retire_ws, retire_quic. repeat case_match; by split.
Qed.

Lemma check_peer_held t now dev a u x broken :
  path_ok x → held_down u x → held_down u (check_peer t now dev a x broken).1.1.
Proof.
  intros H Hh. unfold check_peer. rewrite check_no_probe by apply Hh. fold (seen now x).
  assert (path_ok (seen now x)) as H1 by by apply seen_ok.
  assert (held_down u (seen now x)) as Hh1.
  { destruct Hh. unfold seen. case_match; by split. }
  set (x2 := seen now x) in *.
  destruct (x_relayed x2 || broken) eqn:Er; [done|]. apply orb_false_iff in Er as [Er _].
  destruct (_ <? _); [done|].
  pose proof (switchToRelay_ok t a x2 broken H1 Er) as Hs.
  destruct (switchToRelay t a x2 broken) as [[b y] broken']. destruct Hh1 as [P S U]. destruct b; simpl.
  - destruct Hs as (Hp & _ & _ & Es & _ & Eu & _). unfold noteDirectStintEnded. simpl.
    rewrite Es, S. split; simpl; congruence.
  - destruct Hs as (Hok & Hrel & Es & _ & Eu & _). split; [|congruence|congruence].
    by apply (po_direct _ Hok).
Qed.

Lemma held_step t now e u x :
  path_ok x → held_down u x → now < u → held_down u (path_exec t now e x).1.
Proof.
  intros H Hh Hu. destruct e as [tk broken|ok dev| |off ok cs epoch]; cbn [path_exec].
  - unfold checkHandshakes. pose proof (retire_ok (tk_wsDead tk) (tk_quicDead tk) x H) as H1.
    pose proof (retire_held (tk_wsDead tk) (tk_quicDead tk) u x Hh) as Hh1.
    destruct (tk_device tk) as [dev|]; [|done].
    pose proof (check_peer_held t now dev (tk_answers tk) u _ broken H1 Hh1) as Hc.
    destruct (check_peer _ _ _ _ _ _) as [[y b] cmd]. done.
  - unfold checkProbes. by rewrite (hd_probe _ _ Hh).
  - destruct Hh. by split.
  - destruct Hh as [P S U]. unfold maybeRetryDirect. destruct (off || _ || _); [by split|].
    set (x1 := if bool_decide _ then x else _).
    assert (x_probe x1 = None ∧ x_directSince x1 = None ∧ x_holdDownUntil x1 = Some u) as (P1 & S1 & U1)
      by (unfold x1; by case_bool_decide).
    set (fast := _ && _). set (x2 := if fast then _ else _).
    assert (x_probe x2 = None ∧ x_directSince x2 = None ∧ x_holdDownUntil x2 = Some u) as (P2 & S2 & U2)
      by (unfold x2; by destruct fast).
    rewrite U2, (proj2 (Z.ltb_lt now u) Hu). by split.
Qed.

Lemma held_run t u x es y :
  path_ok x → held_down u x → path_run t x es y → Forall (λ te, te.1 < u) es → held_down u y.
Proof.
  intros H Hh Hrun. induction Hrun as [|es now e y Hrun IH]; intros Ht; [done|].
  apply Forall_app in Ht as [Ht [Hn _]%Forall_cons].
  apply held_step; [by eapply path_run_ok|by apply IH|exact Hn].
Qed.

Lemma flapHoldDown_pow n : 0 ≤ n → flapHoldDown (n + 1) = 2 * Minute * 2 ^ Z.min n 3.
Proof.
  intros Hn. unfold flapHoldDown. rewrite (proj2 (Z.ltb_ge (n + 1) 1)) by lia.
  rewrite Z.shiftl_mul_pow2 by lia. by replace (n + 1 - 1) with n by lia.
Qed.

(** The one way from direct to relayed. *)
Lemma demotion t now e x :
  path_ok x → x_relayed x = false → x_relayed (path_exec t now e x).1 = true →
  ∃ y, switched_ok x y ∧ (path_exec t now e x).1 = noteDirectStintEnded now (set_relayed true (Some now) y).
Proof.
  intros H Hr. destruct (po_direct _ H Hr) as (Hp & _ & Hw & Hq & _).
  destruct e as [tk broken|ok dev| |off ok cs epoch]; cbn [path_exec].
  - unfold checkHandshakes, retire_quic, retire_ws. rewrite Hw, Hq.
    destruct (tk_device tk) as [dev|]; [|simpl; congruence].
    unfold check_peer. rewrite check_no_probe by done. fold (seen now x).
    assert (path_ok (seen now x)) as H1 by by apply seen_ok.
    assert (x_relayed (seen now x) = false) as Hr1 by (unfold seen; by case_match).
    assert (∀ y, switched_ok (seen now x) y → switched_ok x y) as Hsw.
    { intros y. unfold switched_ok, same_stint, seen. by case_match. }
    set (x2 := seen now x) in *. rewrite Hr1. simpl.
    destruct broken; [simpl; congruence|]. destruct (_ <? _); [simpl; congruence|].
    pose proof (switchToRelay_ok t (tk_answers tk) x2 false H1 Hr1) as Hs.
    destruct (switchToRelay _ _ x2 false) as [[b y] broken']. destruct b; simpl.
    + intros _. exists y. auto.
    + destruct Hs as (_ & E & _). congruence.
  - unfold checkProbes. rewrite Hp. simpl. congruence.
  - simpl. congruence.
  - rewrite maybeRetryDirect_relayed. congruence.
Qed.

(** Churn between direct and relay slows down geometrically.  When a direct
    stint of less than ten minutes ends in a fallback to the relay, it counts
    as a flap, and for two minutes, doubled for each of up to three flaps
    before it, the peer is not probed: whatever candidates or punch epochs the
    server sends and however ticks and transports behave meanwhile, no probe
    runs and the peer is not promoted. *)
Theorem flap_hold_down t es x now e since :
  path_run t new_path es x → x_relayed x = false → x_relayed (path_exec t now e x).1 = true →
  x_directSince x = Some since → now - since < directStableTenure →
  let x' := (path_exec t now e x).1 in
  let until := now + 2 * Minute * 2 ^ Z.min (x_directFlaps x) 3 in
  x_directFlaps x' = x_directFlaps x + 1
  ∧ ∀ es' y, path_run t x' es' y → Forall (λ te, te.1 < until) es' →
      x_probe y = None ∧ x_directSince y = None.
Proof.
  intros Hrun Hr Hd Hs Ht x' until. pose proof (path_run_ok t _ _ _ path_ok_new Hrun) as H.
  destruct (demotion t now e x H Hr Hd) as (y & (Hp & He & Htr & Es & Ef & _) & E).
  assert (x' = set_stint None (x_directFlaps x + 1) (Some until) (set_relayed true (Some now) y)) as Ex.
  { unfold x'. rewrite E. unfold noteDirectStintEnded. simpl. rewrite Es, Hs.
    rewrite (proj2 (Z.leb_gt _ _)) by done. unfold until. rewrite Ef, flapHoldDown_pow; [done|].
    apply (po_counts _ H). }
  split; [by rewrite Ex|]. intros es' z Hrun' Hes.
  assert (path_ok x') as H' by (by apply path_exec_ok).
  assert (held_down until z) as [P S _]; [|done].
  eapply held_run; [exact H'| |exact Hrun'|exact Hes]. rewrite Ex. by split.
Qed.

(** ** A concrete peer: relayed, probed, promoted, lost again *)
Definition path_fold (t : relayTransport) (x : PeerPath) (es : list (Z * path_event)) : PeerPath :=
  foldl (λ x te, (path_exec t te.1 te.2 x).1) x es.
Lemma path_fold_run t x es : path_run t x es (path_fold t x es).
Proof.
  induction es as [|[now e] es IH] using rev_ind; [constructor|].
  unfold path_fold. rewrite foldl_app. simpl. by constructor.
Qed.

Definition ex_answers : Answers := mkAnswers None WsFail (UdpEndpoint (Some "198.51.100.9:40000")) true.
Definition ex_tick (endpoint : string) (handshake : option Z) : path_event :=
  EvTick (mkTick false false (Some (mkDevicePeer (Some endpoint) handshake)) ex_answers) false.
Definition ex_relay_ep : string := "198.51.100.9:40000".
Definition ex_direct_ep : string := "203.0.113.5:51820".
Definition ex_events : list (Z * path_event) :=
  [(1000 * Second, ex_tick ex_direct_ep None);
   (1100 * Second, ex_tick ex_direct_ep None);
   (1500 * Second, EvSync false true [ex_direct_ep] 0);
   (1505 * Second, EvProbes true (mkDevicePeer (Some ex_direct_ep) (Some (1503 * Second))));
   (1530 * Second, EvInbound)].
Definition ex_proven : PeerPath := path_fold relayUDP new_path ex_events.
Definition ex_promote : path_event := EvProbes true (mkDevicePeer (Some ex_direct_ep) (Some (1503 * Second))).
Definition ex_direct_path : PeerPath := path_fold relayUDP new_path (ex_events ++ [(1535 * Second, ex_promote)]).
Definition ex_demote : path_event := ex_tick ex_direct_ep (Some (1503 * Second)).

Lemma path_coherent_witness :
  x_relayed ex_proven = true ∧ pathState relayUDP ex_proven = "probing-direct" ∧ transport_ok ex_proven.
Proof.
  destruct (path_coherent relayUDP ex_events ex_proven (path_fold_run relayUDP new_path ex_events))
    as (_ & H & _).
  destruct (H ltac:(vm_compute; reflexivity)) as (H1 & _ & _).
  split; [vm_compute; reflexivity|]. split; [vm_compute; reflexivity|exact H1].
Defined.

Lemma relay_left_only_on_proof_witness :
  ∃ dev, event_device ex_promote = Some dev ∧ proven_direct ex_events dev ex_proven.
Proof.
  destruct (relay_left_only_on_proof relayUDP ex_events ex_proven (1535 * Second) ex_promote)
    as [(tk & broken & E & _)|H].
  - apply path_fold_run.
  - vm_compute. reflexivity.
  - vm_compute. reflexivity.
  - discriminate E.
  - exact H.
Defined.

Lemma flap_hold_down_witness :
  let x' := (path_exec relayUDP (1700 * Second) ex_demote ex_direct_path).1 in
  x_relayed x' = true ∧ x_directFlaps x' = 1
  ∧ ∀ y, path_run relayUDP x' [(1800 * Second, EvSync false true [ex_direct_ep] 9)] y → x_probe y = None.
Proof.
  destruct (flap_hold_down relayUDP (ex_events ++ [(1535 * Second, ex_promote)]) ex_direct_path
    (1700 * Second) ex_demote (1535 * Second)) as [H1 H2].
  - apply path_fold_run.
  - vm_compute. reflexivity.
  - vm_compute. reflexivity.
  - vm_compute. reflexivity.
  - vm_compute. reflexivity.
  - split; [vm_compute; reflexivity|]. split; [exact H1|]. intros y Hy. apply (H2 _ y Hy).
    apply Forall_cons. split; [vm_compute; reflexivity|apply Forall_nil; exact I].
Defined.
