(* ===== verification/Sync.v ===== *)
(** * Reconciling the WireGuard device

    cmd/agent/sync.go: bringing the peers of the local WireGuard device in line
    with the list the control plane sent.

    The device belongs to the kernel (or to wireguard-go), behind the interface
    [wgBackend]; here that is the class [WgBackend] with its documented
    behaviour as [WgBackendLaws].  Keys, endpoints and networks are their
    printed forms, which is what the code compares.  Go visits a map in no
    particular order: the order of the changes is a parameter. *)
From S2P Require Import Prelude GoText NetFacts SchemaFacts Path.
From Stdlib Require Import Ascii.

(** [wgtypes.Peer] and [wgtypes.PeerConfig], without the counters. *)
Record WgPeer : Type := mkWgPeer {
  wp_Endpoint : option string; wp_LastHandshake : option Z; wp_AllowedIPs : list string;
  wp_PresharedKey : string; wp_Keepalive : Z
}.
Record PeerConfig : Type := mkPeerCfg {
  cf_PublicKey : string; cf_Remove : bool; cf_UpdateOnly : bool; cf_PresharedKey : option string;
  cf_Endpoint : option string; cf_Keepalive : option Z; cf_ReplaceAllowedIPs : bool;
  cf_AllowedIPs : list string
}.
(** The zero [wgtypes.Key]: no preshared key. *)
Definition no_psk : string := "".

Abbreviation device := (gmap string WgPeer).

(** ** The backend *)

(** What a [PeerConfig] does to the peer it names. *)
Definition apply_peer (c : PeerConfig) (o : option WgPeer) : option WgPeer :=
  if cf_Remove c then None
  else match o with
       | None =>
           if cf_UpdateOnly c then None
           else Some (mkWgPeer (cf_Endpoint c) None (cf_AllowedIPs c) (default no_psk (cf_PresharedKey c))
                        (default 0 (cf_Keepalive c)))
       | Some p =>
           Some (mkWgPeer (match cf_Endpoint c with Some e => Some e | None => wp_Endpoint p end)
                   (wp_LastHandshake p)
                   (if cf_ReplaceAllowedIPs c then cf_AllowedIPs c else wp_AllowedIPs p ++ cf_AllowedIPs c)
                   (default (wp_PresharedKey p) (cf_PresharedKey c))
                   (default (wp_Keepalive p) (cf_Keepalive c)))
       end.
Definition apply_config (cs : list PeerConfig) (m : device) : device :=
  foldl (λ m c, partial_alter (apply_peer c) (cf_PublicKey c) m) m cs.

(** Every network is claimed once. *)
Record routes_ok (m : device) : Prop := {
  rt_disjoint : ∀ k k' p p' r,
    m !! k = Some p → m !! k' = Some p' → r ∈ wp_AllowedIPs p → r ∈ wp_AllowedIPs p' → k = k';
  rt_nodup : ∀ k p, m !! k = Some p → NoDup (wp_AllowedIPs p)
}.

(** Devices that differ in the order they list networks in, at most. *)
Record same_peer (p q : WgPeer) : Prop := {
  sp_endpoint : wp_Endpoint p = wp_Endpoint q;
  sp_handshake : wp_LastHandshake p = wp_LastHandshake q;
  sp_routes : wp_AllowedIPs p ≡ₚ wp_AllowedIPs q;
  sp_psk : wp_PresharedKey p = wp_PresharedKey q;
  sp_keepalive : wp_Keepalive p = wp_Keepalive q
}.
Definition same_device (m m' : device) : Prop := ∀ k, option_Forall2 same_peer (m !! k) (m' !! k).

Class WgBackend (D : Type) : Type := {
  Device : D → option device;
  ConfigureDevice : list PeerConfig → D → option D
}.
(** A configuration that names no peer twice and leaves every network with one
    peer is applied peer by peer; a device that was configured can be read, and
    lists the networks of a peer in an order of its own. *)
Class WgBackendLaws (D : Type) `{WgBackend D} : Prop := {
  configure_applies : ∀ cs d d' m,
    ConfigureDevice cs d = Some d' → Device d = Some m →
    NoDup (cf_PublicKey <$> cs) → routes_ok (apply_config cs m) →
    ∃ m', Device d' = Some m' ∧ same_device (apply_config cs m) m'
}.

(** ** The diff *)
Definition sameAllowedIPs (a b : list string) : bool :=
  (length a =? length b)%nat && bool_decide (Join (sort_texts a) "," = Join (sort_texts b) ",").

Definition peerNeedsUpdate (cur : WgPeer) (want : PeerConfig) : bool :=
  negb (sameAllowedIPs (wp_AllowedIPs cur) (cf_AllowedIPs want))
  || bool_decide (wp_PresharedKey cur ≠ default no_psk (cf_PresharedKey want))
  || match cf_Keepalive want with
     | Some k => negb (wp_Keepalive cur =? k)
     | None => false
     end.

Definition endpoint_stale (cur : WgPeer) (want : PeerConfig) : bool :=
  bool_decide (wp_LastHandshake cur = None)
  && match cf_Endpoint want with
     | Some e => bool_decide (wp_Endpoint cur ≠ Some e)
     | None => false
     end.

(** The change a desired peer calls for. *)
Definition peer_change (cur : option WgPeer) (want : PeerConfig) : option PeerConfig :=
  match cur with
  | None => Some want
  | Some cur =>
      let stale := endpoint_stale cur want in
      if negb (peerNeedsUpdate cur want) && negb stale then None
      else Some (mkPeerCfg (cf_PublicKey want) (cf_Remove want) true (cf_PresharedKey want)
                   (if stale then cf_Endpoint want else None) (cf_Keepalive want) true
                   (cf_AllowedIPs want))
  end.
Definition removal (k : string) : PeerConfig := mkPeerCfg k true false None None None false [].

Definition desiredByKey (desired : list PeerConfig) : gmap string PeerConfig :=
  foldl (λ m p, <[cf_PublicKey p := p]> m) ∅ desired.

(** The changes, keyed by the peer. *)
Definition sync_changes (current : device) (desired : list PeerConfig) : gmap string PeerConfig :=
  let want := desiredByKey desired in
  merge (λ cur w, match cur, w with
                  | Some _, None => None
                  | cur, Some w => peer_change cur w
                  | None, None => None
                  end) current want
  ∪ map_imap (λ k _, Some (removal k)) (current ∖ ((λ _, mkWgPeer None None [] "" 0) <$> want)).

Definition syncPeers {D} `{WgBackend D} (order : list PeerConfig → list PeerConfig)
    (desired : list PeerConfig) (d : D) : option D :=
  current ← Device d;
  let changes := order (snd <$> map_to_list (sync_changes current desired)) in
  match changes with
  | [] => Some d
  | _ => ConfigureDevice changes d
  end.

(** * Facts about reconciling the device

    After one successful sync the device has exactly the peers of the list,
    with their networks, preshared keys and keepalives; established endpoints
    are untouched; and a second sync finds nothing to do. *)
(** ** Comparing networks *)
Lemma insert_text_perm s l : insert_text s l ≡ₚ s :: l.
Proof.
  induction l as [|t l IH]; simpl; [done|]. case_match; [|done]. rewrite IH. apply Permutation_swap.
Qed.
Lemma sort_texts_perm l : sort_texts l ≡ₚ l.
Proof. induction l as [|s l IH]; simpl; [done|]. by rewrite insert_text_perm, IH. Qed.

Lemma str_lt_le_trans a b c : str_lt a b = true → str_lt c b = false → str_lt a c = true.
Proof.
  intros H1 H2. destruct (str_lt b c) eqn:E; [by eapply str_lt_trans|].
  by rewrite <- (str_lt_total b c).
Qed.

Lemma insert_text_comm s t l : insert_text s (insert_text t l) = insert_text t (insert_text s l).
Proof.
  assert (∀ s t : string, str_lt s t = true → str_lt t s = true → False) as Hanti.
  { intros a b H1 H2. apply str_lt_antisym in H1. congruence. }
  induction l as [|u l IH]; cbn [insert_text].
  - destruct (str_lt t s) eqn:E1, (str_lt s t) eqn:E2; try done.
    + exfalso. eauto.
    + by rewrite (str_lt_total s t).
  - destruct (str_lt u t) eqn:Et, (str_lt u s) eqn:Es; cbn [insert_text]; rewrite ?Et, ?Es.
    + by rewrite IH.
    + destruct (str_lt s t) eqn:Est; [done|].
      assert (str_lt u s = true) by by eapply str_lt_le_trans. congruence.
    + destruct (str_lt t s) eqn:Ets; [done|].
      assert (str_lt u t = true) by by eapply str_lt_le_trans. congruence.
    + destruct (str_lt t s) eqn:E1, (str_lt s t) eqn:E2; cbn [insert_text]; rewrite ?Et, ?Es; try done.
      * exfalso. eauto.
      * by rewrite (str_lt_total s t).
Qed.

Lemma sort_texts_canonical l k : l ≡ₚ k → sort_texts l = sort_texts k.
Proof.
  induction 1 as [|s l k _ IH|s t l|l k m _ IH1 _ IH2]; simpl; [done|by rewrite IH| |congruence].
  apply insert_text_comm.
Qed.

Definition no_comma (l : list string) : Prop := Forall (λ s, no_char "," s = true) l.

Lemma sameAllowedIPs_perm a b :
  no_comma a → no_comma b → sameAllowedIPs a b = true ↔ a ≡ₚ b.
Proof.
  intros Ha Hb. unfold sameAllowedIPs. rewrite andb_true_iff, Nat.eqb_eq, bool_decide_eq_true. split.
  - intros [Hl E]. rewrite <- (sort_texts_perm a), <- (sort_texts_perm b).
    apply (f_equal (λ s, Split s ",")) in E.
    assert (∀ l, no_comma l → l ≠ [] → Split (Join (sort_texts l) ",") "," = sort_texts l) as HS.
    { intros l Hn Hne. apply Split_Join; [|by rewrite sort_texts_perm].
      intros E0. apply Hne. apply Permutation_nil_r. by rewrite <- E0, sort_texts_perm. }
    destruct a as [|x a]; [by destruct b|]. destruct b as [|y b]; [done|].
    rewrite !HS in E by done. by rewrite E.
  - intros Hp. split; [by apply Permutation_length|]. f_equal. by apply sort_texts_canonical.
Qed.

(** ** The diff *)
Definition wanted (desired : list PeerConfig) (k : string) (w : PeerConfig) : Prop :=
  desiredByKey desired !! k = Some w.

Lemma desiredByKey_key desired k w : wanted desired k w → cf_PublicKey w = k ∧ w ∈ desired.
Proof.
  unfold wanted, desiredByKey.
  assert (∀ m : gmap string PeerConfig, (∀ k w, m !! k = Some w → cf_PublicKey w = k ∧ w ∈ desired) →
    ∀ l, (∀ p, p ∈ l → p ∈ desired) →
    foldl (λ m p, <[cf_PublicKey p := p]> m) m l !! k = Some w → cf_PublicKey w = k ∧ w ∈ desired) as H.
  { intros m Hm l. revert m Hm. induction l as [|p l IH]; intros m Hm Hl; simpl; [apply Hm|].
    apply IH; [|intros; apply Hl; by right].
    intros k' w' [[<- <-]|[_ ?]]%lookup_insert_Some; [|by apply Hm]. split; [done|apply Hl; left]. }
  apply (H ∅); [|done]. intros k' w'. by rewrite lookup_empty.
Qed.

Lemma sync_changes_lookup cur desired k :
  sync_changes cur desired !! k =
  match cur !! k, desiredByKey desired !! k with
  | Some _, None => Some (removal k)
  | c, Some w => peer_change c w
  | None, None => None
  end.
Proof.
  unfold sync_changes. rewrite lookup_union, lookup_merge, map_lookup_imap, lookup_difference, lookup_fmap.
  destruct (cur !! k) as [p|], (desiredByKey desired !! k) as [w|]; simpl; try done.
  by destruct (negb _ && negb _).
Qed.

Lemma sync_changes_key cur desired k c :
  sync_changes cur desired !! k = Some c → cf_PublicKey c = k.
Proof.
  rewrite sync_changes_lookup. destruct (cur !! k) as [p|], (desiredByKey desired !! k) as [w|] eqn:E; try done.
  - apply desiredByKey_key in E as [<- _]. unfold peer_change. case_match; [done|]. by intros [= <-].
  - by intros [= <-].
  - apply desiredByKey_key in E as [<- _]. by intros [= <-].
Qed.

(** ** Devices up to the order of networks *)
#[export] Instance same_peer_equivalence : Equivalence same_peer.
Proof.
  split.
  - intros p. by split.
  - intros p q []. by split.
  - intros p q r [H1 H2 H3 H4 H5] [K1 K2 K3 K4 K5]. split; try congruence. by rewrite H3.
Qed.
#[export] Instance same_device_equivalence : Equivalence same_device.
Proof.
  split.
  - intros m k. by destruct (m !! k); constructor.
  - intros m m' H k. destruct (H k); constructor. by symmetry.
  - intros m1 m2 m3 H1 H2 k. specialize (H2 k). destruct (H1 k); inversion H2; subst; constructor. by etrans.
Qed.
#[export] Instance routes_ok_proper : Proper (same_device ==> iff) routes_ok.
Proof.
  assert (∀ m m', same_device m m' → routes_ok m → routes_ok m') as H.
  { intros m m' Hs [H1 H2]. assert (∀ k p', m' !! k = Some p' → ∃ p, m !! k = Some p ∧ same_peer p p') as Hb.
    { intros k p' Hp. specialize (Hs k). rewrite Hp in Hs. inversion Hs; subst. eauto. }
    split.
    - intros k k' p p' r (q & Hq & Eq)%Hb (q' & Hq' & Eq')%Hb Hr Hr'.
      eapply H1; [exact Hq|exact Hq'|by rewrite (sp_routes _ _ Eq)|by rewrite (sp_routes _ _ Eq')].
    - intros k p (q & Hq & Eq)%Hb. rewrite <- (sp_routes _ _ Eq). by eapply H2. }
  intros m m' Hs. split; [by apply H|]. apply H. by symmetry.
Qed.

(** ** Applying changes *)
Lemma apply_config_other cs m k :
  (∀ c, c ∈ cs → cf_PublicKey c ≠ k) → apply_config cs m !! k = m !! k.
Proof.
  unfold apply_config. revert m. induction cs as [|c cs IH]; intros m H; [done|]. simpl.
  rewrite IH; [|intros; apply H; by right]. apply lookup_partial_alter_ne, H. left.
Qed.
Lemma apply_config_one cs m c :
  NoDup (cf_PublicKey <$> cs) → c ∈ cs →
  apply_config cs m !! cf_PublicKey c = apply_peer c (m !! cf_PublicKey c).
Proof.
  unfold apply_config. revert m. induction cs as [|c' cs IH]; intros m Hd Hc; [by apply elem_of_nil in Hc|].
  rewrite fmap_cons in Hd. apply NoDup_cons in Hd as [Hn Hd]. simpl.
  apply elem_of_cons in Hc as [->|Hc].
  - change (foldl ?f ?z cs) with (apply_config cs z). rewrite apply_config_other.
    + apply lookup_partial_alter_eq.
    + intros c Hc E. apply Hn. rewrite <- E. by apply list_elem_of_fmap_2.
  - rewrite IH by done. f_equal. apply lookup_partial_alter_ne.
    intros E. apply Hn. rewrite E. by apply list_elem_of_fmap_2.
Qed.

Lemma changes_nodup cs (ch : gmap string PeerConfig) :
  cs ≡ₚ (snd <$> map_to_list ch) → (∀ k c, ch !! k = Some c → cf_PublicKey c = k) → NoDup (cf_PublicKey <$> cs).
Proof.
  intros Hp Hk. rewrite Hp, <- list_fmap_compose.
  assert ((cf_PublicKey ∘ snd) <$> map_to_list ch = fst <$> map_to_list ch) as ->.
  { apply list_fmap_ext. intros i [k' c'] H%list_elem_of_lookup_2%elem_of_map_to_list. simpl. by apply Hk. }
  apply NoDup_fst_map_to_list.
Qed.
Lemma apply_changes cs (ch : gmap string PeerConfig) m k :
  cs ≡ₚ (snd <$> map_to_list ch) → (∀ k c, ch !! k = Some c → cf_PublicKey c = k) →
  apply_config cs m !! k = match ch !! k with Some c => apply_peer c (m !! k) | None => m !! k end.
Proof.
  intros Hp Hk. pose proof (changes_nodup cs ch Hp Hk) as Hd.
  assert (∀ c, c ∈ cs ↔ ch !! cf_PublicKey c = Some c) as Hin.
  { intros c. rewrite Hp, list_elem_of_fmap. split.
    - intros ([k' c'] & -> & H%elem_of_map_to_list). simpl. by rewrite (Hk _ _ H).
    - intros H. exists (cf_PublicKey c, c). split; [done|]. by apply elem_of_map_to_list. }
  destruct (ch !! k) as [c|] eqn:E.
  - pose proof (Hk _ _ E) as <-. apply apply_config_one; [done|]. by apply Hin.
  - apply apply_config_other. intros c Hc <-. apply Hin in Hc. congruence.
Qed.

(** ** Convergence *)

(** The lists the agent builds from the control plane's answer: no removal, no
    update-only entry, a preshared key for every peer, networks without commas,
    and every network once. *)
Record desired_ok (desired : list PeerConfig) : Prop := {
  ds_plain : ∀ w, w ∈ desired →
    cf_Remove w = false ∧ cf_UpdateOnly w = false ∧ is_Some (cf_PresharedKey w) ∧ no_comma (cf_AllowedIPs w);
  ds_nodup : ∀ w, w ∈ desired → NoDup (cf_AllowedIPs w);
  ds_disjoint : ∀ k k' w w' r, wanted desired k w → wanted desired k' w' →
    r ∈ cf_AllowedIPs w → r ∈ cf_AllowedIPs w' → k = k'
}.

(** A device peer that carries what is wanted of it. *)
Definition carries (p : WgPeer) (w : PeerConfig) : Prop :=
  wp_AllowedIPs p ≡ₚ cf_AllowedIPs w
  ∧ Some (wp_PresharedKey p) = cf_PresharedKey w
  ∧ (∀ k, cf_Keepalive w = Some k → wp_Keepalive p = k).

(** What becomes of the endpoint. *)
Definition endpoint_after (old : option WgPeer) (w : PeerConfig) (e : option string) : Prop :=
  match old with
  | None => e = cf_Endpoint w
  | Some p =>
      match wp_LastHandshake p, cf_Endpoint w with
      | None, Some hint => e = Some hint
      | _, _ => e = wp_Endpoint p
      end
  end.

Lemma needs_update_carries p w :
  no_comma (wp_AllowedIPs p) → no_comma (cf_AllowedIPs w) → is_Some (cf_PresharedKey w) →
  peerNeedsUpdate p w = false ↔ carries p w.
Proof.
  intros Hp Hw [s Hs]. unfold peerNeedsUpdate, carries.
  rewrite !orb_false_iff, negb_false_iff, sameAllowedIPs_perm, bool_decide_eq_false, Hs by done. simpl.
  destruct (cf_Keepalive w) as [k|]; [rewrite negb_false_iff, Z.eqb_eq|]; split.
  - intros [[H1 H2] H3]. split_and!; [done| |naive_solver]. f_equal. by apply dec_stable.
  - intros (H1 & [= H2] & H3). split_and!; [done|naive_solver|by apply H3].
  - intros [[H1 H2] _]. split_and!; [done| |done]. f_equal. by apply dec_stable.
  - intros (H1 & [= H2] & _). split_and!; [done|naive_solver|done].
Qed.

Lemma change_applied cur w k :
  cf_Remove w = false → cf_UpdateOnly w = false → is_Some (cf_PresharedKey w) → no_comma (cf_AllowedIPs w) →
  (∀ p, cur = Some p → no_comma (wp_AllowedIPs p)) → cf_PublicKey w = k →
  ∃ p, match peer_change cur w with Some c => apply_peer c cur | None => cur end = Some p
    ∧ carries p w ∧ endpoint_after cur w (wp_Endpoint p)
    ∧ wp_LastHandshake p = (cur ≫= wp_LastHandshake).
Proof.
  intros Hr Hu Hs Hn Hc Hk. destruct cur as [p|]; simpl.
  - specialize (Hc p eq_refl). destruct (negb _ && negb _) eqn:E.
    + apply andb_prop in E as [E1%negb_true_iff E2%negb_true_iff].
      apply needs_update_carries in E1; [|done..]. exists p. split_and!; try done.
      unfold endpoint_stale in E2. simpl. destruct (wp_LastHandshake p); [done|]. simpl in E2.
      destruct (cf_Endpoint w); [|done]. apply bool_decide_eq_false in E2. by apply dec_stable.
    + unfold apply_peer. simpl. rewrite Hr. eexists. split; [done|]. simpl. destruct Hs as [s Hs].
      split_and!; [|unfold endpoint_stale|done].
      * unfold carries. simpl. rewrite Hs. split_and!; [done|done|]. intros k' ->. done.
      * destruct (wp_LastHandshake p); simpl; [done|]. destruct (cf_Endpoint w) as [e|]; simpl; [|done].
        case_bool_decide as Eb; simpl; [done|]. by rewrite Eb.
  - unfold apply_peer. rewrite Hr, Hu. eexists. split; [done|]. simpl. destruct Hs as [s Hs].
    split_and!; try done. unfold carries. simpl. rewrite Hs. split_and!; try done. intros k' ->. done.
Qed.

(** A peer that carries what is wanted and has the wanted endpoint, or a
    handshake, calls for no change. *)
Lemma settled_no_change cur w p :
  no_comma (wp_AllowedIPs p) → no_comma (cf_AllowedIPs w) → is_Some (cf_PresharedKey w) →
  carries p w → endpoint_after cur w (wp_Endpoint p) → wp_LastHandshake p = (cur ≫= wp_LastHandshake) →
  peer_change (Some p) w = None.
Proof.
  intros Hp Hw Hs Hc He Hh. simpl. rewrite (proj2 (needs_update_carries p w Hp Hw Hs) Hc). simpl.
  assert (endpoint_stale p w = false) as ->; [|done]. unfold endpoint_stale. rewrite Hh.
  destruct cur as [q|]; simpl in *.
  - destruct (wp_LastHandshake q); [done|]. simpl. destruct (cf_Endpoint w); [|done]. rewrite He.
    by rewrite bool_decide_false by naive_solver.
  - rewrite He. destruct (cf_Endpoint w); [|done]. by rewrite bool_decide_false by naive_solver.
Qed.

Lemma sync_result D `{WgBackendLaws D} order desired (d d' : D) cur :
  (∀ l, order l ≡ₚ l) → desired_ok desired → Device d = Some cur →
  (∀ k p, cur !! k = Some p → no_comma (wp_AllowedIPs p)) →
  syncPeers order desired d = Some d' →
  ∃ cur', Device d' = Some cur'
    ∧ (∀ k, desiredByKey desired !! k = None → cur' !! k = None)
    ∧ (∀ k w, wanted desired k w → ∃ p, cur' !! k = Some p ∧ carries p w
         ∧ endpoint_after (cur !! k) w (wp_Endpoint p)
         ∧ wp_LastHandshake p = (cur !! k ≫= wp_LastHandshake)).
Proof.
  intros Hord [Hplain Hnd Hdis] Hd Hcom Hs.
  set (ch := sync_changes cur desired).
  set (res k := match ch !! k with Some c => apply_peer c (cur !! k) | None => cur !! k end).
  assert (∀ k, desiredByKey desired !! k = None → res k = None) as Hgone.
  { intros k Hk. unfold res, ch. rewrite sync_changes_lookup, Hk. by destruct (cur !! k) eqn:E. }
  assert (∀ k w, wanted desired k w → ∃ p, res k = Some p ∧ carries p w
    ∧ endpoint_after (cur !! k) w (wp_Endpoint p) ∧ wp_LastHandshake p = (cur !! k ≫= wp_LastHandshake)) as Hgot.
  { intros k w Hw. pose proof (desiredByKey_key _ _ _ Hw) as [Hk Hin].
    destruct (Hplain w Hin) as (Hr & Hu & Hp & Hn).
    destruct (change_applied (cur !! k) w k Hr Hu Hp Hn (Hcom k) Hk) as (p & Hp' & ?).
    exists p. split; [|done]. unfold res, ch. rewrite sync_changes_lookup. unfold wanted in Hw. rewrite Hw.
    by destruct (cur !! k). }
  unfold syncPeers in Hs. rewrite Hd in Hs. rewrite bind_Some in Hs. fold ch in Hs.
  set (cs := order (snd <$> map_to_list ch)) in *.
  assert (∀ k, apply_config cs cur !! k = res k) as Happ.
  { intros k. apply apply_changes; [apply Hord|]. intros. by eapply sync_changes_key. }
  assert (routes_ok (apply_config cs cur)) as Hroutes.
  { assert (∀ k p, apply_config cs cur !! k = Some p → ∃ w, wanted desired k w ∧ wp_AllowedIPs p ≡ₚ cf_AllowedIPs w) as Hback.
    { intros k p Hp. rewrite Happ in Hp. destruct (desiredByKey desired !! k) as [w|] eqn:Ek.
      - destruct (Hgot k w Ek) as (p' & Hp' & (Hperm & _) & _). exists w. split; [done|]. congruence.
      - rewrite (Hgone k Ek) in Hp. done. }
    split.
    - intros k k' p p' r (w & Hw & Ew)%Hback (w' & Hw' & Ew')%Hback Hr Hr'.
      eapply Hdis; [exact Hw|exact Hw'|by rewrite <- Ew|by rewrite <- Ew'].
    - intros k p (w & Hw & Ew)%Hback. rewrite Ew. apply Hnd. by apply desiredByKey_key in Hw as [_ ?]. }
  assert (∃ cur', Device d' = Some cur' ∧ same_device (apply_config cs cur) cur') as (cur' & Hd' & Hsame).
  { destruct cs as [|c cs'] eqn:Ecs; [simplify_eq; by exists cur|]. rewrite <- Ecs in *.
    eapply configure_applies; [exact Hs|exact Hd| |exact Hroutes].
    apply (changes_nodup _ ch); [apply Hord|]. intros. by eapply sync_changes_key. }
  exists cur'. split; [exact Hd'|]. split.
  - intros k Hk. specialize (Hsame k). rewrite Happ, (Hgone k Hk) in Hsame. by inversion Hsame.
  - intros k w Hw. destruct (Hgot k w Hw) as (p & Hp & (C1 & C2 & C3) & He & Hh).
    specialize (Hsame k). rewrite Happ, Hp in Hsame. inversion Hsame as [p1 q Hq Eq1 Eq2|]; subst.
    exists q. destruct Hq as [Q1 Q2 Q3 Q4 Q5]. split; [done|]. rewrite <- Q1, <- Q2. split_and!; try done.
    unfold carries. rewrite <- Q3, <- Q4, <- Q5. done.
Qed.

(** C8: one sync brings the device in line with the control plane.  Whatever the
    device held and in whatever order the changes are sent, after a successful
    sync it has exactly the peers of the list, each with the wanted networks,
    preshared key and keepalive; the endpoint of a peer that has ever
    handshaken is left to roaming, a new or never-connected peer gets the hint;
    and syncing the same list again changes nothing. *)
Theorem sync_converges D `{WgBackendLaws D} order desired (d d' : D) cur :
  (∀ l, order l ≡ₚ l) → desired_ok desired → Device d = Some cur →
  (∀ k p, cur !! k = Some p → no_comma (wp_AllowedIPs p)) →
  syncPeers order desired d = Some d' →
  ∃ cur', Device d' = Some cur'
    ∧ (∀ k, is_Some (cur' !! k) ↔ is_Some (desiredByKey desired !! k))
    ∧ (∀ k w, wanted desired k w → ∃ p, cur' !! k = Some p ∧ carries p w
         ∧ endpoint_after (cur !! k) w (wp_Endpoint p))
    ∧ sync_changes cur' desired = ∅.
Proof.
  intros Hord Hok Hd Hcom Hs. destruct (sync_result D order desired d d' cur) as (cur' & Hd' & Hgone & Hgot); [done..|].
  exists cur'. split; [done|]. split_and!.
  - intros k. destruct (desiredByKey desired !! k) as [w|] eqn:E.
    + destruct (Hgot k w E) as (p & -> & _). by split; eauto.
    + rewrite (Hgone k E). by split; intros [? ?].
  - intros k w Hw. destruct (Hgot k w Hw) as (p & ? & ? & ? & _). eauto.
  - apply map_empty. intros k. rewrite sync_changes_lookup.
    destruct (desiredByKey desired !! k) as [w|] eqn:E; [|by rewrite (Hgone k E)].
    destruct (Hgot k w E) as (p & -> & Hc & He & Hh).
    destruct (desiredByKey_key _ _ _ E) as [_ Hin]. destruct (ds_plain _ Hok w Hin) as (_ & _ & Hp & Hn).
    eapply settled_no_change; try done. destruct Hc as [Hperm _]. unfold no_comma. by rewrite Hperm.
Qed.

(** ** A device that is its list of peers *)
#[export] Instance plain_backend : WgBackend device := {
  Device := Some;
  ConfigureDevice cs m := Some (apply_config cs m)
}.
#[export] Instance plain_laws : WgBackendLaws device.
Proof. split. intros cs d d' m [= <-] [= <-] _ _. by eexists. Qed.

Definition ex_desired : list PeerConfig :=
  [mkPeerCfg "kB" false false (Some "psk1") (Some "203.0.113.5:51820") (Some 25) false ["100.64.0.2/32"];
   mkPeerCfg "kC" false false (Some "psk2") (Some "203.0.113.6:51820") (Some 25) false ["100.64.0.3/32"; "100.64.0.9/32"]].
Definition ex_device : device :=
  {["kB" := mkWgPeer (Some "192.0.2.77:1234") (Some 5) ["100.64.0.2/32"; "100.64.0.9/32"] "old" 25;
    "kX" := mkWgPeer None None ["100.64.0.8/32"] "x" 0]}.
Definition ex_synced : device := default ∅ (syncPeers (D:=device) reverse ex_desired ex_device).

Lemma sync_converges_witness :
  ∃ cur', Device ex_synced = Some cur' ∧ sync_changes cur' ex_desired = ∅
    ∧ (wp_Endpoint <$> cur' !! "kB") = Some (Some "192.0.2.77:1234") ∧ cur' !! "kX" = None.
Proof.
  destruct (sync_converges device reverse ex_desired ex_device ex_synced ex_device)
    as (cur' & H1 & _ & _ & H4).
  - intros l. apply reverse_Permutation.
  - assert (∀ k w, wanted ex_desired k w → w ∈ ex_desired ∧ cf_PublicKey w = k) as Hw.
    { intros k w [? ?]%desiredByKey_key. done. }
    split.
    + intros w [->|[->|[]%elem_of_nil]%elem_of_cons]%elem_of_cons; repeat split; try (by eexists);
        repeat constructor.
    + intros w [->|[->|[]%elem_of_nil]%elem_of_cons]%elem_of_cons; by apply (bool_decide_eq_true_1 (NoDup _)).
    + intros k k' w w' r [Hi <-]%Hw [Hi' <-]%Hw.
      apply elem_of_cons in Hi as [->|[->|[]%elem_of_nil]%elem_of_cons];
        apply elem_of_cons in Hi' as [->|[->|[]%elem_of_nil]%elem_of_cons]; simpl; set_solver.
  - reflexivity.
  - intros k p. unfold ex_device. rewrite lookup_insert_Some, lookup_singleton_Some.
    intros [[_ <-]|[_ [_ <-]]]; repeat constructor.
  - vm_compute. reflexivity.
  - exists cur'. split; [exact H1|]. split; [exact H4|].
    assert (default ∅ (Device ex_synced) = cur') as <- by (rewrite H1; exact eq_refl).
    split; vm_compute; reflexivity.
Defined.
