(* ===== verification/Collect.v ===== *)
(** * The agent's telemetry

    cmd/agent/telemetry.go: the counters of the WireGuard device and the flows of
    the platform's flow source are turned into deltas, deltas wait in the pending
    maps, and a report takes them along; they are forgotten only when the server
    has accepted the report.  A key stands for its text form, an instant is in
    nanoseconds, and the integers keep Go's widths. *)
From S2P Require Import Prelude GoText TimeText NetAddr Json Telemetry.
From Stdlib Require Import Ascii.

(** ** Machine integers *)
Definition i64 (z : Z) : Z := (z + 2 ^ 63) mod 2 ^ 64 - 2 ^ 63.
Definition u64 (z : Z) : Z := z mod 2 ^ 64.

(** ** Data *)
#[export] Instance Addr_countable : Countable Addr.
Proof.
  refine (inj_countable' (λ a, match a with NoAddr => None | V4 z => Some (inl z) | V6 z s => Some (inr (z, s)) end)
            (λ o, match o with None => NoAddr | Some (inl z) => V4 z | Some (inr (z, s)) => V6 z s end) _).
  by intros [].
Defined.

Record ctFlow : Type := mkCtFlow {
  ct_protocol : Z; ct_src : Addr; ct_dst : Addr; ct_srcPort : Z; ct_dstPort : Z;
  ct_txBytes : Z; ct_txPackets : Z; ct_rxBytes : Z; ct_rxPackets : Z
}.
Record linkCounters : Type := mkLinkCounters { lc_rx : Z; lc_tx : Z }.
Record flowKey : Type := mkFlowKey {
  fk_protocol : Z; fk_src : Addr; fk_srcPort : Z; fk_dst : Addr; fk_dstPort : Z
}.
#[export] Instance flowKey_eq_dec : EqDecision flowKey.
Proof. solve_decision. Defined.
#[export] Instance flowKey_countable : Countable flowKey.
Proof.
  refine (inj_countable' (λ k, (fk_protocol k, fk_src k, fk_srcPort k, fk_dst k, fk_dstPort k))
            (λ '(a, b, c, d, e), mkFlowKey a b c d e) _). by intros [].
Defined.
Record flowCounters : Type := mkFlowCounters {
  fc_txBytes : Z; fc_rxBytes : Z; fc_txPackets : Z; fc_rxPackets : Z
}.

(** What [Device] tells of one peer's traffic; [None] is the zero time. *)
Record LinkPeer : Type := mkLinkPeer {
  lp_PublicKey : string; lp_ReceiveBytes : Z; lp_TransmitBytes : Z; lp_LastHandshakeTime : option Z
}.

(** The reporter's telemetry state. *)
Record Reporter : Type := mkReporter {
  prevLink : gmap string linkCounters; prevFlow : gmap flowKey flowCounters;
  pendingCounters : gmap string PeerCounter; pendingFlows : gmap flowKey FlowRecord;
  lastInbound : gmap string Z
}.
Definition newReporter : Reporter := mkReporter ∅ ∅ ∅ ∅ ∅.

(** ** Link counters *)
(** [UTC().Format(time.RFC3339)]. *)
Definition rfc3339_clock (r : Z) : string :=
  pad 2 (r / 3600) (String ":" (pad 2 (r / 60 mod 60) (String ":" (pad 2 (r mod 60) (String "Z" ""))))).
Definition rfc3339 (ns : Z) : string :=
  let t := ns / Second in fmt_date (civil_from_days (t / 86400)) (rfc3339_clock (t mod 86400)).

(** A counter that fell was reset: count from zero. *)
Definition link_delta (cur prev : Z) : Z :=
  let d := i64 (cur - prev) in if d <? 0 then cur else d.

Definition collect_link (now : Z) (peer : LinkPeer) (t : Reporter) : Reporter :=
  let k := lp_PublicKey peer in
  let prev := default (mkLinkCounters 0 0) (prevLink t !! k) in
  let deltaRx := link_delta (lp_ReceiveBytes peer) (lc_rx prev) in
  let deltaTx := link_delta (lp_TransmitBytes peer) (lc_tx prev) in
  let handshake := match lp_LastHandshakeTime peer with Some at_ => rfc3339 at_ | None => "" end in
  let links := <[k := mkLinkCounters (lp_ReceiveBytes peer) (lp_TransmitBytes peer)]> (prevLink t) in
  let inbound := if 0 <? deltaRx then <[k := now]> (lastInbound t) else lastInbound t in
  let counters :=
    if (deltaRx =? 0) && (deltaTx =? 0) && bool_decide (handshake = "") then pendingCounters t
    else
      let pending := default (mkCounter k 0 0 "") (pendingCounters t !! k) in
      <[k := mkCounter (pc_PeerPublicKey pending) (i64 (pc_RxBytes pending + deltaRx))
               (i64 (pc_TxBytes pending + deltaTx))
               (if decide (handshake = "") then pc_LastHandshakeAt pending else handshake)]>
        (pendingCounters t) in
  mkReporter links (prevFlow t) counters (pendingFlows t) inbound.

(** [None] is a device that could not be read. *)
Definition collectLinkCounters (now : Z) (device : option (list LinkPeer)) (t : Reporter) : Reporter :=
  match device with
  | None => t
  | Some peers => foldl (λ t p, collect_link now p t) t peers
  end.

(** ** Flows *)
Definition overlayContains (network network6 : Prefix) (addr : Addr) : bool :=
  Contains network addr || (prefix_valid network6 && Contains network6 addr).

Definition ephemeralMin : Z := 32768.

(** Client, server, the server's port, and whether the two were swapped. *)
Definition orientFlow (src : Addr) (srcPort : Z) (dst : Addr) (dstPort : Z) : Addr * Addr * Z * bool :=
  let srcEph := ephemeralMin <=? srcPort in
  let dstEph := ephemeralMin <=? dstPort in
  if srcEph && negb dstEph then (src, dst, dstPort, false)
  else if dstEph && negb srcEph then (dst, src, srcPort, true)
  else if dstPort <=? srcPort then (src, dst, dstPort, false)
  else (dst, src, srcPort, true).

Definition counterDelta (cur prev : Z) (known : bool) : Z :=
  if negb known || (cur <? prev) then cur else u64 (cur - prev).

Definition flow_key (f : ctFlow) : flowKey :=
  mkFlowKey (ct_protocol f) (ct_src f) (ct_srcPort f) (ct_dst f) (ct_dstPort f).
Definition flow_delta (prev : option flowCounters) (f : ctFlow) : flowCounters :=
  let known := bool_decide (is_Some prev) in
  let p := default (mkFlowCounters 0 0 0 0) prev in
  mkFlowCounters (counterDelta (ct_txBytes f) (fc_txBytes p) known)
    (counterDelta (ct_rxBytes f) (fc_rxBytes p) known)
    (counterDelta (ct_txPackets f) (fc_txPackets p) known)
    (counterDelta (ct_rxPackets f) (fc_rxPackets p) known).
Definition no_flow (d : flowCounters) : bool :=
  (fc_txBytes d =? 0) && (fc_rxBytes d =? 0) && (fc_txPackets d =? 0) && (fc_rxPackets d =? 0).
Definition swap_flow (d : flowCounters) : flowCounters :=
  mkFlowCounters (fc_rxBytes d) (fc_txBytes d) (fc_rxPackets d) (fc_txPackets d).

(** The pending record a flow is folded into, and its share. *)
Definition service_key (f : ctFlow) : flowKey :=
  let '(client, server, serverPort, _) := orientFlow (ct_src f) (ct_srcPort f) (ct_dst f) (ct_dstPort f) in
  mkFlowKey (ct_protocol f) client 0 server serverPort.
Definition oriented (f : ctFlow) (d : flowCounters) : flowCounters :=
  let '(_, _, _, flipped) := orientFlow (ct_src f) (ct_srcPort f) (ct_dst f) (ct_dstPort f) in
  if flipped then swap_flow d else d.
Definition fresh_record (k : flowKey) : FlowRecord :=
  mkFlowRecord (fk_protocol k) (addr_string (fk_src k)) 0 (addr_string (fk_dst k)) (fk_dstPort k) 0 0 0 0.
Definition add_flow (d : flowCounters) (r : FlowRecord) : FlowRecord :=
  mkFlowRecord (fr_Protocol r) (fr_SrcIP r) (fr_SrcPort r) (fr_DstIP r) (fr_DstPort r)
    (i64 (fr_TxBytes r + i64 (fc_txBytes d))) (i64 (fr_RxBytes r + i64 (fc_rxBytes d)))
    (i64 (fr_TxPackets r + i64 (fc_txPackets d))) (i64 (fr_RxPackets r + i64 (fc_rxPackets d))).

Definition collect_flow (network network6 : Prefix) (f : ctFlow) (t : Reporter) : Reporter :=
  if negb (overlayContains network network6 (ct_src f)) && negb (overlayContains network network6 (ct_dst f))
  then t
  else
    let key := flow_key f in
    let delta := flow_delta (prevFlow t !! key) f in
    let prevs := <[key := mkFlowCounters (ct_txBytes f) (ct_rxBytes f) (ct_txPackets f) (ct_rxPackets f)]>
                   (prevFlow t) in
    let pending :=
      if no_flow delta then pendingFlows t
      else
        let agg := service_key f in
        <[agg := add_flow (oriented f delta) (default (fresh_record agg) (pendingFlows t !! agg))]>
          (pendingFlows t) in
    mkReporter (prevLink t) prevs (pendingCounters t) pending (lastInbound t).

(** The keys of [seen]: the overlay flows of this dump. *)
Definition seen_flows (network network6 : Prefix) (flows : list ctFlow) : gset flowKey :=
  list_to_set (flow_key <$> filter (λ f, overlayContains network network6 (ct_src f)
                                         || overlayContains network network6 (ct_dst f)) flows).

(** [None]: no flow source, or one that could not be read. *)
Definition collectFlows (network network6 : Prefix) (dump : option (list ctFlow)) (t : Reporter) : Reporter :=
  match dump with
  | None => t
  | Some flows =>
      let t := foldl (λ t f, collect_flow network network6 f t) t flows in
      mkReporter (prevLink t) (filter (λ kv, kv.1 ∈ seen_flows network network6 flows) (prevFlow t))
        (pendingCounters t) (pendingFlows t) (lastInbound t)
  end.

(** ** Reports

    What a report carries besides the pending data.  The maps are iterated in
    an order of Go's choosing: [orderC] and [orderF]. *)
Record Extras : Type := mkExtras {
  x_publicEndpoint : string; x_candidates : list AgentCandidate; x_natType : string;
  x_pathStates : list PeerPathState; x_advertiseExitNode : bool; x_version : string
}.

Definition report_of (orderC : list PeerCounter → list PeerCounter)
    (orderF : list FlowRecord → list FlowRecord) (x : Extras) (events : list ProxyEvent)
    (t : Reporter) : ReportRequest :=
  mkReport (x_publicEndpoint x) (x_candidates x) (x_natType x)
    (orderC (snd <$> map_to_list (pendingCounters t))) (orderF (snd <$> map_to_list (pendingFlows t)))
    (x_pathStates x) events (x_advertiseExitNode x) (x_version x).

(** [send]: the report, and the state once [post] has returned [ok].  An empty
    report is sent too; there is nothing to forget after it. *)
Definition send_report (orderC : list PeerCounter → list PeerCounter)
    (orderF : list FlowRecord → list FlowRecord) (x : Extras) (events : list ProxyEvent)
    (t : Reporter) : ReportRequest :=
  if bool_decide (pendingCounters t = ∅) && bool_decide (pendingFlows t = ∅) && bool_decide (events = [])
  then mkReport (x_publicEndpoint x) (x_candidates x) (x_natType x) [] [] (x_pathStates x) []
         (x_advertiseExitNode x) (x_version x)
  else report_of orderC orderF x events t.
Definition sent (ok : bool) (events : list ProxyEvent) (t : Reporter) : Reporter :=
  if bool_decide (pendingCounters t = ∅) && bool_decide (pendingFlows t = ∅) && bool_decide (events = [])
  then t
  else if ok then mkReporter (prevLink t) (prevFlow t) ∅ ∅ (lastInbound t) else t.
