(* ===== verification/CollectFacts.v ===== *)
(** * Telemetry from the device to the database

    No byte is lost and none is counted twice: what the server has stored for a
    link and what the agent still holds add up to what the device has counted,
    whatever reports failed in between. *)
From S2P Require Import Prelude GoText TimeText NetAddr Json Schema SchemaFacts EnrollFacts Telemetry TelemetryFacts Reports Collect Enroll Visibility.

(** ** The reference count

    The bytes the device reports for [k] over successive readings, a reading
    below the one before counting from zero. *)
Definition reading (k : string) (ps : list LinkPeer) : option LinkPeer :=
  head (filter (λ p, lp_PublicKey p = k) ps).
Definition grown (cur prev : Z) : Z := if cur <? prev then cur else cur - prev.
Fixpoint counted (k : string) (prev : Z) (ticks : list (option (list LinkPeer))) : Z :=
  match ticks with
  | [] => 0
  | None :: ticks => counted k prev ticks
  | Some ps :: ticks =>
      match reading k ps with
      | None => counted k prev ticks
      | Some p => grown (lp_ReceiveBytes p) prev + counted k (lp_ReceiveBytes p) ticks
      end
  end.

(** Kernel counters are nonnegative [int64]s and a device lists a peer once. *)
Definition device_ok (ps : list LinkPeer) : Prop :=
  NoDup (lp_PublicKey <$> ps) ∧ Forall (λ p, 0 ≤ lp_ReceiveBytes p ≤ int64_max) ps.
Definition tick_ok (d : option (list LinkPeer)) : Prop := from_option device_ok True d.

(** The last reading, and what is pending for a peer. *)
Definition last_rx (k : string) (t : Reporter) : Z := from_option lc_rx 0 (prevLink t !! k).
Definition pend_rx (k : string) (t : Reporter) : Z := from_option pc_RxBytes 0 (pendingCounters t !! k).

Lemma i64_id z : int64_min ≤ z ≤ int64_max → i64 z = z.
Proof. unfold i64, int64_min, int64_max. intros. rewrite Z.mod_small; lia. Qed.

Lemma link_delta_grown cur prev :
  0 ≤ cur ≤ int64_max → 0 ≤ prev ≤ int64_max → link_delta cur prev = grown cur prev.
Proof.
  intros. unfold link_delta, grown. rewrite i64_id by (unfold int64_min, int64_max in *; lia).
  destruct (Z.ltb_spec (cur - prev) 0), (Z.ltb_spec cur prev); lia.
Qed.
Lemma grown_nonneg cur prev : 0 ≤ cur → 0 ≤ grown cur prev.
Proof. unfold grown. destruct (Z.ltb_spec cur prev); lia. Qed.

(** ** One reading *)
Definition keyed (t : Reporter) : Prop :=
  ∀ k c, pendingCounters t !! k = Some c → pc_PeerPublicKey c = k.

Lemma collect_link_keyed now p t : keyed t → keyed (collect_link now p t).
Proof.
  intros H k c. unfold collect_link. cbn [pendingCounters].
  case_match; [by apply H|]. rewrite lookup_insert_Some. intros [[<- <-]|[_ ?]]; [|by apply H].
  cbn. destruct (pendingCounters t !! lp_PublicKey p) eqn:E; [|done]. by apply H in E.
Qed.

Lemma collect_link_other now p t k :
  lp_PublicKey p ≠ k →
  last_rx k (collect_link now p t) = last_rx k t ∧ pend_rx k (collect_link now p t) = pend_rx k t.
Proof.
  intros Hne. unfold last_rx, pend_rx, collect_link. cbn [prevLink pendingCounters].
  rewrite lookup_insert_ne by done. split; [done|]. case_match; [done|].
  by rewrite lookup_insert_ne.
Qed.

Lemma collect_link_here now p t :
  let k := lp_PublicKey p in
  0 ≤ lp_ReceiveBytes p ≤ int64_max → 0 ≤ last_rx k t ≤ int64_max → 0 ≤ pend_rx k t →
  pend_rx k t + grown (lp_ReceiveBytes p) (last_rx k t) ≤ int64_max →
  last_rx k (collect_link now p t) = lp_ReceiveBytes p
  ∧ pend_rx k (collect_link now p t) = pend_rx k t + grown (lp_ReceiveBytes p) (last_rx k t).
Proof.
  intros k Hp Hl Hn Hs. unfold last_rx at 1, pend_rx at 1, collect_link. cbn [prevLink pendingCounters].
  fold k. rewrite lookup_insert_eq. split; [done|].
  assert (lc_rx (default (mkLinkCounters 0 0) (prevLink t !! k)) = last_rx k t) as ->.
  { unfold last_rx. by destruct (prevLink t !! k). }
  rewrite link_delta_grown by done.
  assert (pc_RxBytes (default (mkCounter k 0 0 "") (pendingCounters t !! k)) = pend_rx k t) as Ep.
  { unfold pend_rx. by destruct (pendingCounters t !! k). }
  case_match eqn:E.
  - apply andb_true_iff in E as [[E%Z.eqb_eq _]%andb_true_iff _]. rewrite E. unfold pend_rx. lia.
  - rewrite lookup_insert_eq. cbn [from_option pc_RxBytes]. rewrite Ep. apply i64_id.
    pose proof (grown_nonneg (lp_ReceiveBytes p) (last_rx k t)). unfold int64_min, int64_max in *. lia.
Qed.

Lemma collect_links_other now ps t k :
  k ∉ lp_PublicKey <$> ps →
  let t' := foldl (λ t p, collect_link now p t) t ps in
  last_rx k t' = last_rx k t ∧ pend_rx k t' = pend_rx k t.
Proof.
  revert t. induction ps as [|p ps IH]; intros t Hk; cbn; [done|].
  cbn [fmap list_fmap] in Hk. apply not_elem_of_cons in Hk as [Hne Hk].
  destruct (IH (collect_link now p t) Hk) as [-> ->]. apply collect_link_other. done.
Qed.

Lemma collect_links_keyed now ps t : keyed t → keyed (foldl (λ t p, collect_link now p t) t ps).
Proof. revert t. induction ps as [|p ps IH]; intros t H; [done|]. apply IH. by apply collect_link_keyed. Qed.

(** A pass over the device adds the growth since the reading before. *)
Lemma collect_device now k ps t :
  device_ok ps → 0 ≤ last_rx k t ≤ int64_max → 0 ≤ pend_rx k t →
  pend_rx k t + counted k (last_rx k t) [Some ps] ≤ int64_max →
  let t' := foldl (λ t p, collect_link now p t) t ps in
  pend_rx k t' = pend_rx k t + counted k (last_rx k t) [Some ps]
  ∧ last_rx k t' = from_option lp_ReceiveBytes (last_rx k t) (reading k ps).
Proof.
  intros [Hn Hr]. cbn [counted]. unfold reading. revert t.
  induction ps as [|p ps IH]; intros t Hl Hp Hs; [cbn; split; [lia|done]|].
  cbn [fmap list_fmap] in Hn. apply NoDup_cons in Hn as [Hk Hn]. apply Forall_cons in Hr as [Hpr Hr].
  cbn [foldl]. rewrite filter_cons in Hs |- *. case_decide as E.
  - subst k. cbn [head from_option] in *.
    destruct (collect_link_here now p t) as [E1 E2]; [done..|lia|].
    destruct (collect_links_other now ps (collect_link now p t) (lp_PublicKey p)) as [-> ->]; [done|].
    rewrite E1, E2. split; [lia|done].
  - destruct (collect_link_other now p t k E) as [E1 E2].
    specialize (IH Hn Hr (collect_link now p t)). rewrite E1, E2 in IH. by apply IH.
Qed.

(** Flows leave the links alone. *)
Lemma collect_flow_links n n6 f t :
  prevLink (collect_flow n n6 f t) = prevLink t
  ∧ pendingCounters (collect_flow n n6 f t) = pendingCounters t.
Proof. unfold collect_flow. by case_match. Qed.
Lemma collectFlows_links n n6 dump t :
  prevLink (collectFlows n n6 dump t) = prevLink t
  ∧ pendingCounters (collectFlows n n6 dump t) = pendingCounters t.
Proof.
  destruct dump as [fs|]; [|done]. unfold collectFlows. cbn [prevLink pendingCounters].
  revert t. induction fs as [|f fs IH]; intros t; [done|]. cbn [foldl].
  destruct (IH (collect_flow n n6 f t)) as [-> ->]. apply collect_flow_links.
Qed.

(** ** The pending counters in a report *)
Lemma sum_perm l l' : l ≡ₚ l' → foldr Z.add 0 l = foldr Z.add 0 l'.
Proof. induction 1; simpl; lia. Qed.

Lemma pending_sum (ids : gmap string Z) k b t orderC :
  (∀ l, orderC l ≡ₚ l) → keyed t → ids !! k = Some b → (∀ k', ids !! k' = Some b → k' = k) →
  counters_for ids b (orderC (snd <$> map_to_list (pendingCounters t)))
  = option_list (pendingCounters t !! k).
Proof.
  intros Ho Hk Hb Hinj.
  assert (counters_for ids b (snd <$> map_to_list (pendingCounters t)) ≡ₚ
          option_list (pendingCounters t !! k)) as Hp.
  { unfold counters_for.
    assert (∀ l, (∀ k' c, (k', c) ∈ l → pc_PeerPublicKey c = k') → k ∉ l.*1 →
              filter (λ c, ids !! pc_PeerPublicKey c = Some b) (l.*2) = []) as Hnone.
    { intros l Hl Hn. apply elem_of_nil_inv. intros c [Hi Hc]%list_elem_of_filter. apply Hinj in Hi.
      apply list_elem_of_fmap in Hc as ([k' c'] & -> & Hc). cbn in Hi. apply Hn.
      apply list_elem_of_fmap. exists (k', c'). split; [|done]. cbn. by rewrite <-(Hl _ _ Hc). }
    destruct (pendingCounters t !! k) as [c|] eqn:E.
    - rewrite <-(insert_delete_id _ _ _ E), map_to_list_insert by apply lookup_delete_eq.
      cbn [fmap list_fmap snd]. rewrite filter_cons_True by (by rewrite (Hk _ _ E)).
      rewrite Hnone; [done|..].
      + intros k' c' [_ Hc]%elem_of_map_to_list%lookup_delete_Some. by apply Hk.
      + intros ([k' c'] & -> & Hc)%list_elem_of_fmap. apply elem_of_map_to_list in Hc.
        cbn in Hc. by rewrite lookup_delete_eq in Hc.
    - rewrite Hnone; [done|..].
      + intros k' c' Hc%elem_of_map_to_list. by apply Hk.
      + intros ([k' c'] & -> & Hc)%list_elem_of_fmap. apply elem_of_map_to_list in Hc. cbn in *. congruence. }
  assert (counters_for ids b (orderC (snd <$> map_to_list (pendingCounters t))) ≡ₚ
          option_list (pendingCounters t !! k)) as Hq.
  { rewrite <-Hp. unfold counters_for. by rewrite Ho. }
  destruct (pendingCounters t !! k); cbn in *; [by apply Permutation_singleton_r in Hq|by apply Permutation_nil_r in Hq].
Qed.

(** ** Agent and server together

    One agent and the server's database.  A tick reads the device and the flow
    source and sends a report, which the server applies and acknowledges, or
    applies without the agent getting to know (the answer is lost on the way, or
    is a 500 because what follows [ApplyReport] in [handleReport] failed), or does
    not apply; the candidates may be filtered on the way.  In between the database
    may change in other ways, as long as the peers keep their keys and ids and
    nobody touches this agent's link.  Collected aside: the states of the agent
    whose report was applied without its knowing. *)
Section life.
Context (peerID b : Z).

Definition quiet (db db' : DB) : Prop :=
  db_ok db' ∧ is_peer db' peerID = true ∧ peerIDsByPublicKey db' = peerIDsByPublicKey db
  ∧ link_stats db' !! (peerID, b) = link_stats db !! (peerID, b).

Inductive life (t0 : Reporter) (db0 : DB)
  : list (option (list LinkPeer)) → list Reporter → Reporter → DB → Prop :=
| life_start : life t0 db0 [] [] t0 db0
| life_applied (known : bool) ticks twice t db device now n n6 dump orderC orderF x events rq now' oip db' :
    life t0 db0 ticks twice t db → (∀ l, orderC l ≡ₚ l) →
    let t' := collectFlows n n6 dump (collectLinkCounters now device t) in
    rq_Counters rq = rq_Counters (send_report orderC orderF x events t') →
    run_tx (ApplyReport now' peerID oip rq) db = (Ok tt, db') →
    life t0 db0 (ticks ++ [device]) (twice ++ if known then [] else [t']) (sent known events t') db'
| life_lost ticks twice t db device now n n6 dump events :
    life t0 db0 ticks twice t db →
    let t' := collectFlows n n6 dump (collectLinkCounters now device t) in
    life t0 db0 (ticks ++ [device]) twice (sent false events t') db
| life_other ticks twice t db db' : life t0 db0 ticks twice t db → quiet db db' → life t0 db0 ticks twice t db'.
End life.

Definition after_ticks (k : string) (prev : Z) (ticks : list (option (list LinkPeer))) : Z :=
  foldl (λ r d, from_option lp_ReceiveBytes r (d ≫= reading k)) prev ticks.

Lemma counted_Some k prev ps ticks :
  counted k prev (Some ps :: ticks) =
  from_option (λ p, grown (lp_ReceiveBytes p) prev) 0 (reading k ps)
  + counted k (from_option lp_ReceiveBytes prev (reading k ps)) ticks.
Proof. cbn [counted]. by destruct (reading k ps). Qed.

Lemma counted_snoc k prev ticks d :
  counted k prev (ticks ++ [d]) = counted k prev ticks + counted k (after_ticks k prev ticks) [d].
Proof.
  revert prev. induction ticks as [|[ps|] ticks IH]; intros prev; [done| |apply IH].
  cbn [app]. rewrite !counted_Some, IH. unfold after_ticks. cbn [foldl mbind option_bind]. lia.
Qed.

Lemma after_ticks_bound k ticks :
  Forall tick_ok ticks → 0 ≤ after_ticks k 0 ticks ≤ int64_max.
Proof.
  intros H. induction ticks as [|d ticks IH] using rev_ind; [cbn; unfold int64_max; lia|].
  apply Forall_app in H as [H Hd]. rewrite Forall_singleton in Hd. unfold after_ticks.
  rewrite foldl_app. cbn. destruct d as [ps|]; cbn; [|by apply IH]. destruct (Hd : device_ok ps) as [_ Hr].
  destruct (reading k ps) as [p|] eqn:E; cbn; [|by apply IH]. unfold reading in E.
  apply head_Some in E as [l E]. rewrite Forall_forall in Hr. apply Hr.
  assert (p ∈ filter (λ p, lp_PublicKey p = k) ps) as Hin by (rewrite E; by left).
  by apply list_elem_of_filter in Hin as [_ ?].
Qed.

Lemma counted_nonneg k prev ticks : Forall tick_ok ticks → 0 ≤ counted k prev ticks.
Proof.
  intros H. revert prev. induction H as [|[ps|] ticks Hd _ IH]; intros prev; [done| |apply IH].
  cbn [counted]. unfold reading. destruct (head _) as [p|] eqn:E; [|apply IH].
  apply head_Some in E as [l E]. destruct Hd as [_ Hr]. rewrite Forall_forall in Hr.
  assert (p ∈ filter (λ p, lp_PublicKey p = k) ps) as [_ Hin]%list_elem_of_filter by (rewrite E; by left).
  pose proof (grown_nonneg (lp_ReceiveBytes p) prev). specialize (IH (lp_ReceiveBytes p)).
  specialize (Hr p Hin). lia.
Qed.

(** The collecting half of a tick. *)
Lemma collect_tick n n6 now dump device k t :
  tick_ok device → keyed t → 0 ≤ last_rx k t ≤ int64_max → 0 ≤ pend_rx k t →
  pend_rx k t + counted k (last_rx k t) [device] ≤ int64_max →
  let t' := collectFlows n n6 dump (collectLinkCounters now device t) in
  keyed t' ∧ pend_rx k t' = pend_rx k t + counted k (last_rx k t) [device]
  ∧ last_rx k t' = from_option lp_ReceiveBytes (last_rx k t) (device ≫= reading k).
Proof.
  intros Hd Hk Hl Hp Hs t'.
  destruct (collectFlows_links n n6 dump (collectLinkCounters now device t)) as [E1 E2].
  unfold keyed, pend_rx at 1, last_rx at 2. unfold t'. rewrite E1, E2.
  destruct device as [ps|]; cbn [collectLinkCounters].
  - destruct (collect_device now k ps t) as [E3 E4]; [done..|].
    split; [by apply collect_links_keyed|]. split; [exact E3|exact E4].
  - split; [done|]. cbn. split; [unfold pend_rx; lia|done].
Qed.

Lemma sent_links ok events t :
  prevLink (sent ok events t) = prevLink t
  ∧ pendingCounters (sent ok events t) = if ok then ∅ else pendingCounters t.
Proof.
  unfold sent. case_match eqn:E.
  - apply andb_true_iff in E as [[E%bool_decide_eq_true _]%andb_true_iff _]. rewrite E. by destruct ok.
  - by destruct ok.
Qed.
Lemma send_counters orderC orderF x events t :
  (∀ l, orderC l ≡ₚ l) →
  rq_Counters (send_report orderC orderF x events t) = orderC (snd <$> map_to_list (pendingCounters t)).
Proof.
  intros Ho. unfold send_report. case_match eqn:E; [|done].
  apply andb_true_iff in E as [[E%bool_decide_eq_true _]%andb_true_iff _]. rewrite E, map_to_list_empty.
  symmetry. apply Permutation_nil_r. by rewrite Ho.
Qed.

(** The bytes that are reported a second time: what these states had pending,
    which is never negative. *)
Definition repeated (k : string) (twice : list Reporter) : Z := foldr (λ t n, Z.max 0 (pend_rx k t) + n) 0 twice.
Lemma repeated_app k l l' : repeated k (l ++ l') = repeated k l + repeated k l'.
Proof. induction l as [|t l IH]; [done|]. unfold repeated in *. cbn. rewrite IH. lia. Qed.
Lemma repeated_nonneg k l : 0 ≤ repeated k l.
Proof. induction l as [|t l IH]; [done|]. unfold repeated in *. cbn. lia. Qed.

(** ** The invariant of the two *)
Section balance.
Context (peerID b : Z) (k : string) (old : Z) (db0 : DB).
Context (Hb : peerIDsByPublicKey db0 !! k = Some b) (Hinj : ∀ k', peerIDsByPublicKey db0 !! k' = Some b → k' = k).

Definition mesh_kept (db : DB) : Prop :=
  db_ok db ∧ is_peer db peerID = true ∧ peerIDsByPublicKey db = peerIDsByPublicKey db0.
Definition balanced (ticks : list (option (list LinkPeer))) (twice : list Reporter) (t : Reporter) (db : DB) : Prop :=
  keyed t ∧ last_rx k t = after_ticks k 0 ticks ∧
  ∃ stored, total l_rx_bytes (link_stats db !! (peerID, b)) = SInt stored
    ∧ stored + pend_rx k t = old + counted k 0 ticks + repeated k twice ∧ 0 ≤ pend_rx k t ∧ 0 ≤ stored.

Lemma balanced_collect n n6 now dump device ticks twice t db :
  Forall tick_ok (ticks ++ [device]) → old + counted k 0 (ticks ++ [device]) + repeated k twice ≤ int64_max →
  balanced ticks twice t db →
  balanced (ticks ++ [device]) twice (collectFlows n n6 dump (collectLinkCounters now device t)) db.
Proof using.
  intros [Ht Hd]%Forall_app Hsum (Hk & Hl & s & S1 & S2 & S3 & S4). rewrite Forall_singleton in Hd.
  unfold balanced. rewrite counted_snoc in Hsum |- *. pose proof (after_ticks_bound k ticks Ht) as Ha.
  assert (0 ≤ counted k (after_ticks k 0 ticks) [device]) by (apply counted_nonneg; by constructor).
  destruct (collect_tick n n6 now dump device k t) as (C1 & C2 & C3); [done|done|lia|lia|rewrite Hl; lia|].
  split; [done|]. split; [unfold after_ticks; rewrite foldl_app; cbn; by rewrite C3, Hl|].
  exists s. rewrite C2, Hl. split; [done|]. lia.
Qed.

Lemma balanced_lost events ticks twice t db :
  balanced ticks twice t db → balanced ticks twice (sent false events t) db.
Proof using.
  intros (Hk & Hl & s & Hs). destruct (sent_links false events t) as [L1 L2].
  unfold balanced, keyed, last_rx, pend_rx. rewrite L1, L2. eauto.
Qed.

Lemma balanced_applied (known : bool) orderC orderF x events rq now oip ticks twice t db db' :
  (∀ l, orderC l ≡ₚ l) → old + counted k 0 ticks + repeated k twice ≤ int64_max →
  mesh_kept db → balanced ticks twice t db →
  rq_Counters rq = rq_Counters (send_report orderC orderF x events t) →
  run_tx (ApplyReport now peerID oip rq) db = (Ok tt, db') →
  mesh_kept db' ∧ balanced ticks (twice ++ if known then [] else [t]) (sent known events t) db'.
Proof using Hb Hinj.
  intros Hord Hsum (M1 & M2 & M3) (Hk & Hl & s & S1 & S2 & S3 & S4) Hrq Hrun.
  assert (counters_for (peerIDsByPublicKey db) b (rq_Counters rq) = option_list (pendingCounters t !! k)) as Em.
  { rewrite Hrq, send_counters by done. apply pending_sum; [done|done|by rewrite M3|by rewrite M3]. }
  assert (foldr Z.add 0 (pc_RxBytes <$> option_list (pendingCounters t !! k)) = pend_rx k t) as Es.
  { unfold pend_rx. destruct (pendingCounters t !! k); cbn; lia. }
  destruct (ApplyReport_counters now peerID oip rq db b s) as (db2 & R1 & R2 & R3 & R4 & R5); try done.
  - lia.
  - rewrite Em. unfold pend_rx in S3. destruct (pendingCounters t !! k); cbn in *; by repeat constructor.
  - rewrite Em, Es. lia.
  - rewrite Hrun in R1. injection R1 as <-. rewrite Em, Es in R5.
    split; [split_and!; [done|done|congruence]|]. destruct (sent_links known events t) as [L1 L2].
    assert (pend_rx k (sent known events t) = if known then 0 else pend_rx k t) as Ep.
    { unfold pend_rx. rewrite L2. by destruct known. }
    unfold balanced, keyed, last_rx. rewrite L1, L2, Ep, repeated_app. split; [|split; [done|]].
    + destruct known; [|done]. intros k' c. by rewrite lookup_empty.
    + exists (s + pend_rx k t). split; [done|]. destruct known; cbn; lia.
Qed.
End balance.

(** C25: no traffic is lost on its way from the device to the database, and it
    is counted twice only when the agent does not learn that its report was
    applied.  Counted are the received bytes of a link from the start of an
    agent, as long as their sum stays within 64 bits.  However many reports
    fail, and whatever else happens to the database meanwhile as long as the
    peers keep their ids and keys: what the server has stored for a link plus
    what the agent still holds for it is what was stored at the start plus every
    byte the device has counted since (a reading below the one before, of a
    recreated interface, counting from zero) plus exactly what was in the
    reports that were applied but whose answer was lost or an error, since these
    are sent again; so without such reports every byte is counted once. *)
Theorem telemetry_conserved peerID b k old db ticks twice t' db' :
  db_ok db → is_peer db peerID = true → peerIDsByPublicKey db !! k = Some b →
  total l_rx_bytes (link_stats db !! (peerID, b)) = SInt old → 0 ≤ old →
  Forall tick_ok ticks → old + counted k 0 ticks + repeated k twice ≤ int64_max →
  life peerID b newReporter db ticks twice t' db' →
  ∃ stored, total l_rx_bytes (link_stats db' !! (peerID, b)) = SInt stored
    ∧ stored + pend_rx k t' = old + counted k 0 ticks + repeated k twice
    ∧ 0 ≤ pend_rx k t'.
Proof.
  intros Hdb Hp Hb Hold Ho Ht Hsum Hlife.
  assert (∀ k', peerIDsByPublicKey db !! k' = Some b → k' = k) as Hinj.
  { intros k' (p & Hp1 & <- & Hi)%ids_known; [|done]. apply ids_known in Hb as (q & Hq & <- & Hj); [|done].
    by rewrite (ids_ok_inj p_id (peers db) p q (ok_peer_ids _ Hdb) Hp1 Hq ltac:(congruence)). }
  pose proof (repeated_nonneg k twice) as Hr.
  enough (mesh_kept peerID db db' ∧ balanced peerID b k old ticks twice t' db')
    as (_ & _ & _ & s & ? & ? & ? & ?) by eauto. clear Hr.
  assert (∀ l d, Forall tick_ok (l ++ [d]) → counted k 0 l ≤ counted k 0 (l ++ [d])) as Hmono.
  { intros l d [_ Hd]%Forall_app. rewrite counted_snoc.
    pose proof (counted_nonneg k (after_ticks k 0 l) [d] Hd). lia. }
  induction Hlife as [|known ticks twice t1 db1 device now n n6 dump orderC orderF x events rq now' oip db2 Hl IH Hord t2 Hrq Hrun
    |ticks twice t1 db1 device now n n6 dump events Hl IH t2|ticks twice t1 db1 db2 Hl IH (Q1 & Q2 & Q3 & Q4)].
  - split; [done|]. split; [done|]. split; [done|]. exists old. split; [done|]. cbn [counted repeated foldr]. change (pend_rx k newReporter) with 0. lia.
  - specialize (Hmono _ _ Ht). rewrite repeated_app in Hsum.
    pose proof (repeated_nonneg k (if known then [] else [t2])).
    destruct IH as [IM IB]; [by apply Forall_app in Ht as [? _]|lia|].
    eapply balanced_applied; eauto; [lia|]. apply balanced_collect; [done|lia|done].
  - specialize (Hmono _ _ Ht). destruct IH as [IM IB]; [by apply Forall_app in Ht as [? _]|lia|].
    split; [done|]. apply balanced_lost. apply balanced_collect; [done|lia|done].
  - destruct IH as [(M1 & M2 & M3) (B1 & B2 & B3)]; [done..|].
    split; [split_and!; [done|done|congruence]|]. unfold balanced. by rewrite Q4.
Qed.

(** A device counting 100, 250, then 40 after a restart.  The second report is
    lost; the third, with nothing new to tell, is applied but the answer does not
    arrive: its 150 bytes come again with the fourth. *)
Inductive ex_fate : Type := Answered | Unanswered | Lost.
Definition ex_ticks : list (option (list LinkPeer)) :=
  [Some [mkLinkPeer "pubB" 100 7 None]; Some [mkLinkPeer "pubB" 250 7 None]; None;
   Some [mkLinkPeer "pubB" 40 3 None]].
Definition ex_collect (d : option (list LinkPeer)) (t : Reporter) : Reporter :=
  collectFlows no_prefix no_prefix None (collectLinkCounters 0 d t).
Definition no_extras : Extras := mkExtras "" [] "" [] false "".
Definition ex_run (t : Reporter) (db : DB) : result unit * DB :=
  run_tx (ApplyReport sample_now 1 "" (send_report id id no_extras [] t)) db.
Definition ex_apply (d : option (list LinkPeer)) (f : ex_fate) (s : list Reporter * Reporter * DB) : list Reporter * Reporter * DB :=
  let '(twice, t, db) := s in
  let t := ex_collect d t in
  match f with
  | Answered => (twice ++ [], sent true [] t, (ex_run t db).2)
  | Unanswered => (twice ++ [t], sent false [] t, (ex_run t db).2)
  | Lost => (twice, sent false [] t, db)
  end.
Definition ex_end : list Reporter * Reporter * DB :=
  foldl (λ s d, ex_apply d.1 d.2 s) ([], newReporter, sample_acl_db) (zip ex_ticks [Answered; Lost; Unanswered; Answered]).

Lemma ex_step ticks d f s :
  life 1 2 newReporter sample_acl_db ticks s.1.1 s.1.2 s.2 →
  (f ≠ Lost → (ex_run (ex_collect d s.1.2) s.2).1 = Ok tt) →
  life 1 2 newReporter sample_acl_db (ticks ++ [d]) (ex_apply d f s).1.1 (ex_apply d f s).1.2 (ex_apply d f s).2.
Proof.
  destruct s as [[twice t] db]. cbn [fst snd]. intros Hl Hok. destruct f; cbn [ex_apply fst snd]; [| |by eapply life_lost].
  - specialize (Hok ltac:(done)). eapply (life_applied 1 2 _ _ true) with (orderC := id); [done|done|reflexivity|].
    transitivity (ex_run (ex_collect d t) db); [reflexivity|]. rewrite <- Hok. apply surjective_pairing.
  - specialize (Hok ltac:(done)). eapply (life_applied 1 2 _ _ false) with (orderC := id); [done|done|reflexivity|].
    transitivity (ex_run (ex_collect d t) db); [reflexivity|]. rewrite <- Hok. apply surjective_pairing.
Qed.

Lemma telemetry_conserved_witness :
  ∃ stored, total l_rx_bytes (link_stats ex_end.2 !! (1, 2)) = SInt stored
    ∧ stored + pend_rx "pubB" ex_end.1.2 = 0 + counted "pubB" 0 ex_ticks + repeated "pubB" ex_end.1.1
    ∧ counted "pubB" 0 ex_ticks = 290 ∧ repeated "pubB" ex_end.1.1 = 150.
Proof.
  destruct (telemetry_conserved 1 2 "pubB" 0 sample_acl_db ex_ticks ex_end.1.1 ex_end.1.2 ex_end.2) as (s & H1 & H2 & _).
  - exact sample_acl_ok.
  - vm_compute. reflexivity.
  - vm_compute. reflexivity.
  - reflexivity.
  - lia.
  - repeat constructor; vm_compute; try discriminate; intros H; inversion H.
  - vm_compute. discriminate.
  - apply (ex_step (take 3 ex_ticks) _ Answered _); [|intros _; vm_compute; reflexivity].
    apply (ex_step (take 2 ex_ticks) _ Unanswered _); [|intros _; vm_compute; reflexivity].
    apply (ex_step (take 1 ex_ticks) _ Lost _); [|by intros []].
    apply (ex_step [] _ Answered ([], newReporter, sample_acl_db)); [|intros _; vm_compute; reflexivity]. constructor.
  - exists s. split; [exact H1|]. split; [exact H2|]. vm_compute. split; reflexivity.
Defined.

(** The bytes of a report whose answer is lost are stored twice: 440 for the 290
    the device counted. *)
Lemma unanswered_report_counted_twice :
  total l_rx_bytes (link_stats ex_end.2 !! (1, 2)) = SInt 440 ∧ pend_rx "pubB" ex_end.1.2 = 0
  ∧ counted "pubB" 0 ex_ticks = 290.
Proof. vm_compute. split_and!; reflexivity. Qed.

(** ** Flows

    Two observers that see one connection from opposite sides fold it into the
    same record with the same directions, whichever of them initiated it. *)
Definition mirrored (f : ctFlow) : ctFlow :=
  mkCtFlow (ct_protocol f) (ct_dst f) (ct_src f) (ct_dstPort f) (ct_srcPort f)
    (ct_rxBytes f) (ct_rxPackets f) (ct_txBytes f) (ct_txPackets f).

Lemma flow_views_agree f d :
  ct_srcPort f ≠ ct_dstPort f →
  service_key (mirrored f) = service_key f ∧ oriented (mirrored f) (swap_flow d) = oriented f d.
Proof.
  intros Hne. destruct f as [pr s t sp dp tb tp rb rp], d as [a b c e]. cbn in Hne.
  unfold service_key, oriented, orientFlow, mirrored, swap_flow. cbn.
  destruct (Z.leb_spec ephemeralMin sp), (Z.leb_spec ephemeralMin dp), (Z.leb_spec sp dp),
    (Z.leb_spec dp sp); cbn; try lia; done.
Qed.

(** With equal ports (two WireGuard sockets, two NTP servers) the two observers
    disagree on who is the client. *)
Lemma flow_views_equal_ports f :
  ct_srcPort f = ct_dstPort f → ct_src f ≠ ct_dst f → service_key (mirrored f) ≠ service_key f.
Proof.
  destruct f as [pr s t sp dp tb tp rb rp]. cbn. intros <- Hne.
  unfold service_key, orientFlow, mirrored. cbn. rewrite Z.leb_refl.
  destruct (ephemeralMin <=? sp); cbn; congruence.
Qed.
