(* ===== verification/NetCidr.v ===== *)
(** * [net.ParseCIDR] and [net.IPNet.String]

    The agent hands networks to WireGuard as [net.IPNet] values and compares
    their printed form; a network here is that form. *)
From S2P Require Import Prelude GoText NetAddr NetFacts.
From Stdlib Require Import Ascii.

(** [IPNet.String] of a masked address: an IPv4 address mapped into IPv6 is
    printed as IPv4, with the mask's last 32 bits. *)
Definition ipnet_string (a : Addr) (n : Z) : string :=
  match a with
  | NoAddr => "<nil>"
  | V4 z => string4 (z / 2 ^ (32 - n) * 2 ^ (32 - n)) +:+ "/" +:+ Itoa n
  | V6 z _ =>
      let m := z / 2 ^ (128 - n) * 2 ^ (128 - n) in
      if Is4In6 m then string4 (m mod 2 ^ 32) +:+ "/" +:+ Itoa (n - 96)
      else string6 m +:+ "/" +:+ Itoa n
  end.

(** The length may have leading zeros but no sign. *)
Definition ParseCIDR (s : string) : option string :=
  '(x, y) ← cut "/" s;
  a ← ParseAddr x;
  if decide (addr_zone a = "") then
    n ← digits y;
    if n <=? addr_width a then Some (ipnet_string a n) else None
  else None.

Example cidr_a : ParseCIDR "10.1.2.3/8" = Some "10.0.0.0/8".
Proof. by vm_compute. Qed.
Example cidr_b : ParseCIDR "fd00:100:64::1/128" = Some "fd00:100:64::1/128".
Proof. by vm_compute. Qed.
Example cidr_c : ParseCIDR "::ffff:1.2.3.4/128" = Some "1.2.3.4/32".
Proof. by vm_compute. Qed.
Example cidr_d : ParseCIDR "10.1.2.3" = None ∧ ParseCIDR "10.1.2.3/33" = None ∧ ParseCIDR "10.1.2.3/032" = Some "10.1.2.3/32".
Proof. by vm_compute. Qed.

(** An address of its own network prints back as it was. *)
Lemma ParseCIDR_host a :
  addr_wf a = true → addr_zone a = "" →
  match a with NoAddr => False | V4 _ => True | V6 z _ => Is4In6 z = false end →
  let s := addr_string a +:+ "/" +:+ Itoa (addr_width a) in ParseCIDR s = Some s.
Proof.
  intros Hw Hz Ha s. unfold ParseCIDR, s.
  assert (a ≠ NoAddr) as Hne by (by destruct a).
  change ("/" +:+ Itoa (addr_width a)) with (String "/" (Itoa (addr_width a))).
  rewrite cut_app.
  2:{ rewrite addr_body_string by done. apply no_char_body; [by vm_compute|done..]. }
  cbn [mbind option_bind]. rewrite ParseAddr_string by (done || by destruct a). cbn [mbind option_bind].
  rewrite decide_True by done. destruct a as [|z|z zn]; [done|..]; cbn [addr_width].
  - change (digits (Itoa 32)) with (Some 32). cbn [mbind option_bind]. cbn [Z.leb Z.compare Pos.compare Pos.compare_cont].
    f_equal. unfold ipnet_string. by rewrite Z.sub_diag, Z.pow_0_r, Z.div_1_r, Z.mul_1_r.
  - change (digits (Itoa 128)) with (Some 128). cbn [mbind option_bind]. cbn [Z.leb Z.compare Pos.compare Pos.compare_cont].
    f_equal. unfold ipnet_string. rewrite Z.sub_diag, Z.pow_0_r, Z.div_1_r, Z.mul_1_r, Ha.
    cbn [addr_zone] in Hz. subst zn. cbn [addr_string]. rewrite Ha. by rewrite decide_True.
Qed.
