(* ===== verification/AgentSync.v ===== *)
(** * Adopting the control plane's answer

    cmd/agent/telemetry.go and cmd/agent/main.go: what an agent does with the
    answer to a report ([applySync]): its own overlay address, DNS, the peers of
    the WireGuard device, the access policy, gateway and exit-node state.

    The platform's own work (addresses, resolver, packet filter, routes) is
    behind the class [HostOps], since Linux and Windows implement it differently;
    the WireGuard device is behind [WgBackend].  [ResolveUDPAddr] and
    [wgtypes.ParseKey] are parameters that return the printed form of their
    result. *)
From S2P Require Import Prelude GoText TimeText NetAddr NetCidr Codec Json Schema Dns Candidates PeerEntries Handlers Path Sync Collect.
From Stdlib Require Import Ascii.

Inductive dns_answer : Type := DnsApplied | DnsUnsupported | DnsFailed.

(** Each operation says whether it succeeded; the last three also keep the flag
    that tells whether their rules are installed. *)
Class HostOps (H : Type) : Type := {
  replaceIPAddress : string → string → H → bool * H;
  applyDNSConfig : DNSConfig → H → dns_answer * H;
  applyOverlayACL : ACLPolicy → H → bool * H;
  refreshGatewayNAT : string → H → bool * H;
  applyGatewayRoutes : list string → bool → H → bool * bool * H;
  applyExitRoutes : bool → bool → bool → H → bool * bool * H;
  applyExitNodeNAT : bool → Prefix → Prefix → bool → H → bool * bool * H
}.

(** The fields of [telemetryReporter] a sync reads or writes. *)
Record Agent (D H : Type) : Type := mkAgent {
  ag_device : D; ag_host : H; ag_paths : gmap string PeerPath; ag_hostnames : gmap string string;
  ag_stunServers : list string; ag_selfAddr : string; ag_selfAddr6 : string;
  ag_network : Prefix; ag_network6 : Prefix; ag_lastDNS : string; ag_dnsApplied : bool;
  ag_dnsWarned : bool; ag_gatewayForwardOn : bool; ag_exitRoutesOn : bool; ag_exitNATOn : bool
}.
Arguments mkAgent {D H}.
Arguments ag_device {D H}. Arguments ag_host {D H}. Arguments ag_paths {D H}. Arguments ag_hostnames {D H}.
Arguments ag_stunServers {D H}. Arguments ag_selfAddr {D H}. Arguments ag_selfAddr6 {D H}.
Arguments ag_network {D H}. Arguments ag_network6 {D H}. Arguments ag_lastDNS {D H}.
Arguments ag_dnsApplied {D H}. Arguments ag_dnsWarned {D H}. Arguments ag_gatewayForwardOn {D H}.
Arguments ag_exitRoutesOn {D H}. Arguments ag_exitNATOn {D H}.

(** [json.Marshal] of [proto.DNSConfig], with its [omitempty] fields. *)
Definition json_bool (b : bool) : string := if b then "true" else "false".
Definition json_quote (s : string) : string := string_of_bytes (quote (str_bytes s)).
Definition marshal_dns (c : DNSConfig) : string :=
  "{" +:+ json_quote "enabled" +:+ ":" +:+ json_bool (dc_Enabled c)
  +:+ "," +:+ json_quote "magic_dns" +:+ ":" +:+ json_bool (dc_MagicDNS c)
  +:+ (if decide (dc_Domain c = "") then "" else "," +:+ json_quote "domain" +:+ ":" +:+ json_quote (dc_Domain c))
  +:+ (match dc_Nameservers c with [] => "" | l => "," +:+ json_quote "nameservers" +:+ ":" +:+ marshal_strings l end)
  +:+ (match dc_SearchDomains c with [] => "" | l => "," +:+ json_quote "search_domains" +:+ ":" +:+ marshal_strings l end)
  +:+ "}".

Definition overlayAddress (addr : string) (network : Prefix) : option string :=
  ip ← ParseAddr addr; Some (addr_string ip +:+ "/" +:+ Itoa (pbits network)).

Section sync.
Context {D H : Type} `{WgBackend D} `{HostOps H}.
Context (ResolveUDPAddr ParseKey : string → option string).
Context (directProbeOff : bool) (gatewayNATCIDRs : string).

Definition set_dns (last : string) (applied warned : bool) (h : H) (a : Agent D H) : Agent D H :=
  mkAgent (ag_device a) h (ag_paths a) (ag_hostnames a) (ag_stunServers a) (ag_selfAddr a) (ag_selfAddr6 a)
    (ag_network a) (ag_network6 a) last applied warned (ag_gatewayForwardOn a) (ag_exitRoutesOn a)
    (ag_exitNATOn a).
Definition set_self (addr addr6 : string) (h : H) (a : Agent D H) : Agent D H :=
  mkAgent (ag_device a) h (ag_paths a) (ag_hostnames a) (ag_stunServers a) addr addr6
    (ag_network a) (ag_network6 a) (ag_lastDNS a) (ag_dnsApplied a) (ag_dnsWarned a)
    (ag_gatewayForwardOn a) (ag_exitRoutesOn a) (ag_exitNATOn a).
Definition set_networks (n n6 : Prefix) (a : Agent D H) : Agent D H :=
  mkAgent (ag_device a) (ag_host a) (ag_paths a) (ag_hostnames a) (ag_stunServers a) (ag_selfAddr a)
    (ag_selfAddr6 a) n n6 (ag_lastDNS a) (ag_dnsApplied a) (ag_dnsWarned a)
    (ag_gatewayForwardOn a) (ag_exitRoutesOn a) (ag_exitNATOn a).
Definition set_stun (l : list string) (a : Agent D H) : Agent D H :=
  mkAgent (ag_device a) (ag_host a) (ag_paths a) (ag_hostnames a) l (ag_selfAddr a)
    (ag_selfAddr6 a) (ag_network a) (ag_network6 a) (ag_lastDNS a) (ag_dnsApplied a) (ag_dnsWarned a)
    (ag_gatewayForwardOn a) (ag_exitRoutesOn a) (ag_exitNATOn a).
Definition set_peer (k : string) (d : D) (x : PeerPath) (name : string) (a : Agent D H) : Agent D H :=
  mkAgent d (ag_host a) (<[k := x]> (ag_paths a))
    (if decide (name = "") then ag_hostnames a else <[k := name]> (ag_hostnames a))
    (ag_stunServers a) (ag_selfAddr a) (ag_selfAddr6 a) (ag_network a) (ag_network6 a) (ag_lastDNS a)
    (ag_dnsApplied a) (ag_dnsWarned a) (ag_gatewayForwardOn a) (ag_exitRoutesOn a) (ag_exitNATOn a).
Definition set_device (d : D) (a : Agent D H) : Agent D H :=
  mkAgent d (ag_host a) (ag_paths a) (ag_hostnames a) (ag_stunServers a) (ag_selfAddr a)
    (ag_selfAddr6 a) (ag_network a) (ag_network6 a) (ag_lastDNS a) (ag_dnsApplied a) (ag_dnsWarned a)
    (ag_gatewayForwardOn a) (ag_exitRoutesOn a) (ag_exitNATOn a).
Definition set_host (h : H) (gw routes nat : bool) (a : Agent D H) : Agent D H :=
  mkAgent (ag_device a) h (ag_paths a) (ag_hostnames a) (ag_stunServers a) (ag_selfAddr a)
    (ag_selfAddr6 a) (ag_network a) (ag_network6 a) (ag_lastDNS a) (ag_dnsApplied a) (ag_dnsWarned a)
    gw routes nat.

(** ** The agent's own address *)

(** [false] is an error; what was done before it stays done. *)
Definition adopt_address (next next6 : string) (n n6 : Prefix) (a : Agent D H) : bool * Agent D H :=
  let '(ok, a) :=
    if decide (next = ag_selfAddr a) then (true, a)
    else let '(ok, h) := replaceIPAddress (ag_selfAddr a) next (ag_host a) in
         (ok, set_self (if ok then next else ag_selfAddr a) (ag_selfAddr6 a) h a) in
  if negb ok then (false, a)
  else
    let '(ok, a) :=
      if decide (next6 = ag_selfAddr6 a) then (true, a)
      else let '(ok, h) := replaceIPAddress (ag_selfAddr6 a) next6 (ag_host a) in
           (ok, set_self (ag_selfAddr a) (if ok then next6 else ag_selfAddr6 a) h a) in
    if negb ok then (false, a) else (true, set_networks n n6 a).

(** The prefix and address the answer assigns; [None] is a text that does not
    parse. *)
Definition assigned4 (r : ReportResponse) : option (Prefix * string) :=
  n ← ParsePrefix (rr_NetworkCIDR r); x ← overlayAddress (rr_AssignedIP r) n; Some (n, x).
Definition assigned6 (r : ReportResponse) : option (Prefix * string) :=
  if decide (rr_NetworkCIDR6 r = "") then Some (no_prefix, "")
  else n ← ParsePrefix (rr_NetworkCIDR6 r);
       if decide (rr_AssignedIP6 r = "") then Some (n, "")
       else x ← overlayAddress (rr_AssignedIP6 r) n; Some (n, x).

Definition applySelfAssignment (r : ReportResponse) (a : Agent D H) : bool * Agent D H :=
  if decide (rr_AssignedIP r = "" ∨ rr_NetworkCIDR r = "") then (true, a)
  else match assigned4 r, assigned6 r with
       | Some (n, x), Some (n6, x6) => adopt_address x x6 n n6 a
       | _, _ => (false, a)
       end.

(** ** DNS *)
Definition applyDNS (c : DNSConfig) (a : Agent D H) : Agent D H :=
  if negb (dc_Enabled c) && negb (ag_dnsApplied a) then a
  else
    let digest := marshal_dns c in
    if decide (digest = ag_lastDNS a) then a
    else match applyDNSConfig c (ag_host a) with
         | (DnsUnsupported, h) => set_dns digest false true h a
         | (DnsFailed, h) => set_dns (ag_lastDNS a) (ag_dnsApplied a) (ag_dnsWarned a) h a
         | (DnsApplied, h) => set_dns digest (dc_Enabled c) (ag_dnsWarned a) h a
         end.

(** ** Peers *)

(** The endpoint an entry proposes: its best candidate, or the single hint of an
    older server. *)
Definition entry_endpoint (p : PeerConfigResponse) : string :=
  match pcr_EndpointCandidates p with
  | c :: _ => ec_Endpoint c
  | [] => default "" (pcr_Endpoint p)
  end.

Definition peerConfigFromProto (p : PeerConfigResponse) : option PeerConfig :=
  publicKey ← ParseKey (pcr_PublicKey p);
  udpAddr ← (if decide (entry_endpoint p = "") then Some None else Some <$> ResolveUDPAddr (entry_endpoint p));
  allowed ← mapM ParseCIDR (pcr_AllowedIPs p);
  psk ← match pcr_PresharedKey p with
        | None => Some None
        | Some k => Some <$> ParseKey k
        end;
  Some (mkPeerCfg publicKey false false psk udpAddr
          ((λ s, i64 (s * Second)) <$> pcr_PersistentKeepaliveInterval p) false allowed).

(** Candidates that resolve, each address once, then the fallback. *)
Fixpoint resolved_candidates (seen : list string) (l : list string) : list string :=
  match l with
  | [] => []
  | c :: l =>
      match ResolveUDPAddr c with
      | Some u => if decide (u ∈ seen) then resolved_candidates seen l
                  else u :: resolved_candidates (u :: seen) l
      | None => resolved_candidates seen l
      end
  end.
Definition endpointCandidatesFromProto (p : PeerConfigResponse) (fallback : option string) : list string :=
  let out := resolved_candidates [] (ec_Endpoint <$> pcr_EndpointCandidates p) in
  match fallback with
  | Some f => if decide (f ∈ out) then out else out ++ [f]
  | None => out
  end.

(** [maybeRetryDirect] with the device it may configure. *)
Definition endpoint_only (k e : string) : PeerConfig := mkPeerCfg k false true None (Some e) None false [].
Definition retry_direct (now : Z) (k : string) (candidates : list string) (epoch : Z) (d : D) (x : PeerPath)
  : D * PeerPath :=
  match maybeRetryDirect directProbeOff true now candidates epoch x with
  | (x', None) => (d, x')
  | (x', Some e) =>
      match ConfigureDevice [endpoint_only k e] d with
      | Some d' => (d', x')
      | None => (d, (maybeRetryDirect directProbeOff false now candidates epoch x).1)
      end
  end.

(** The loop over the entries: [None] once an entry does not convert. *)
Fixpoint adopt_peers (now : Z) (es : list PeerConfigResponse) (a : Agent D H)
  : option (list PeerConfig) * Agent D H :=
  match es with
  | [] => (Some [], a)
  | e :: es =>
      match peerConfigFromProto e with
      | None => (None, a)
      | Some c =>
          let k := cf_PublicKey c in
          let '(d, x) := retry_direct now k (endpointCandidatesFromProto e (cf_Endpoint c)) (pcr_PunchEpoch e)
                           (ag_device a) (default new_path (ag_paths a !! k)) in
          let '(r, a) := adopt_peers now es (set_peer k d x (pcr_Hostname e) a) in
          (cons c <$> r, a)
      end
  end.

(** A device that could not be read or configured stays as it is. *)
Definition sync_device (order : list PeerConfig → list PeerConfig) (desired : list PeerConfig)
    (a : Agent D H) : Agent D H :=
  match syncPeers order desired (ag_device a) with
  | Some d => set_device d a
  | None => a
  end.

(** Policy, gateway and exit state; failures are logged and the rest goes on. *)
Definition apply_host (r : ReportResponse) (a : Agent D H) : Agent D H :=
  let exitPeer := existsb pcr_ExitNode (rr_Peers r) in
  let '(_, h) := applyOverlayACL (rr_ACL r) (ag_host a) in
  let '(_, h) := refreshGatewayNAT gatewayNATCIDRs h in
  let '(_, gw, h) := applyGatewayRoutes (rr_GatewayRoutes r) (ag_gatewayForwardOn a) h in
  let '(_, routes, h) := applyExitRoutes exitPeer (bool_decide (ag_selfAddr6 a ≠ "")) (ag_exitRoutesOn a) h in
  let '(_, nat, h) := applyExitNodeNAT (rr_ExitNodeActive r) (ag_network a) (ag_network6 a) (ag_exitNATOn a) h in
  set_host h gw routes nat a.

Definition applySync (order : list PeerConfig → list PeerConfig) (now : Z) (r : ReportResponse)
    (a : Agent D H) : Agent D H :=
  let a := match rr_STUNServers r with [] => a | l => set_stun l a end in
  let '(ok, a) := applySelfAssignment r a in
  if negb ok then a
  else
    let a := applyDNS (rr_DNS r) a in
    match adopt_peers now (rr_Peers r) a with
    | (None, a) => a
    | (Some desired, a) => apply_host r (sync_device order desired a)
    end.
End sync.
