(* ===== verification/AgentSyncFacts.v ===== *)
(** * From the database to the device

    What the server renders for an agent ([buildPeerEntries]) is what the agent's
    WireGuard device has after the next sync. *)
From S2P Require Import Prelude GoText TimeText NetAddr NetFacts Codec Schema SchemaFacts Enroll EnrollFacts Visibility Invariants Dns StoreMachine Psk ClientIP Candidates PeerEntries EntryFacts Handlers Path Sync Collect NetCidr AgentSync.
From Stdlib Require Import Ascii.

(** ** Networks in printed form *)

(** The two overlay networks are of their families; the IPv6 one is not in the
    range where IPv4 addresses are mapped into IPv6. *)
Definition families (c : Config) : Prop :=
  Is4 (paddr (network c)) = true
  ∧ (v6Enabled c = true → Is6 (paddr (Network6 c)) = true ∧ 2 ^ 112 ≤ addr_num (paddr (Network6 c))).

Definition canonical (r : string) : Prop := ParseCIDR r = Some r ∧ no_char "," r = true.

Lemma canonical_host a :
  addr_valid a = true → addr_wf a = true → addr_zone a = "" →
  match a with V6 z _ => Is4In6 z = false | _ => True end →
  canonical (addr_string a +:+ "/" +:+ Itoa (addr_width a)).
Proof.
  intros Hv Hw Hz Ha. split; [apply ParseCIDR_host; by destruct a|].
  rewrite no_char_app, addr_body_string, no_char_body; [by destruct a|by vm_compute|done|done|by destruct a|by destruct a|done].
Qed.

Lemma canonical4 c t :
  nets_ok c → families c → is_host (network c) t → canonical (t +:+ "/32").
Proof.
  intros [Hn _] [Hf _] (k & Hk & ->). destruct (host_wf _ k Hn ltac:(lia)) as [Hv Hw].
  unfold host in *. destruct (paddr (network c)) as [|z|]; [done| |done].
  by apply (canonical_host (V4 (z + k))).
Qed.
Lemma canonical6 c t :
  nets_ok c → families c → v6Enabled c = true → is_host (Network6 c) t → canonical (t +:+ "/128").
Proof.
  intros [_ Hn] [_ Hf] Hv6 (k & Hk & ->). specialize (Hn Hv6). destruct (Hf Hv6) as [Hs Hb].
  destruct (host_wf _ k Hn ltac:(lia)) as [Hv Hw].
  unfold host in *. destruct (paddr (Network6 c)) as [|z|z zn]; [done|done|].
  apply (canonical_host (V6 (z + k) "")); [done..|]. unfold Is4In6. cbn [addr_num] in Hb. lia.
Qed.

Lemma canonical_allowed c db o :
  nets_ok c → families c → overlay_ok c db → (∃ p, p ∈ peers db ∧ o = peer_row p) →
  Forall canonical (allowedIPsForPeer o).
Proof.
  intros Hn Hf Ho (p & Hp & ->). destruct (Ho p Hp) as [H4 H6]. apply Forall_forall.
  intros r [->|[Hne ->]]%elem_of_allowed; [by eapply canonical4|]. simpl in Hne |- *.
  destruct (p_assigned_ip6 p) as [a|] eqn:E; [|done]. destruct (H6 a eq_refl). by eapply canonical6.
Qed.

Lemma mapM_canonical l : Forall canonical l → mapM ParseCIDR l = Some l.
Proof. intros H. apply mapM_Some. induction H as [|r l [? _] _ IH]; by constructor. Qed.

Lemma entry_canonical c db KS s self others o :
  nets_ok c → families c → overlay_ok c db → (∀ o, o ∈ others → ∃ p, p ∈ peers db ∧ o = peer_row p) →
  o ∈ others → Forall canonical (pcr_AllowedIPs (peer_entry KS s self others o)).
Proof.
  intros Hn Hf Ho Hrows Hin.
  assert (∀ l, (∀ m, m ∈ l → m ∈ others) → Forall canonical (l ≫= allowedIPsForPeer)) as Hl.
  { intros l Hl. apply Forall_forall. intros r (m & Hr & Hm)%list_elem_of_bind.
    eapply Forall_forall; [|exact Hr]. eapply canonical_allowed; eauto. }
  unfold peer_entry. destruct (is_static o); cbn [pcr_AllowedIPs].
  - eapply canonical_allowed; eauto.
  - assert (Forall canonical (allowedIPsForPeer o ++ (mobilesByGateway others (pr_ID o) ≫= allowedIPsForPeer))) as H.
    { apply Forall_app. split; [eapply canonical_allowed; eauto|]. apply Hl. by intros m [? _]%elem_of_mobiles. }
    case_match; [|done]. apply Forall_app. split; [done|]. repeat constructor; by vm_compute.
Qed.

(** ** Devices that differ in endpoints and in the order of networks only *)
Record same_settings1 (p q : WgPeer) : Prop := {
  ss_handshake : wp_LastHandshake p = wp_LastHandshake q;
  ss_routes : wp_AllowedIPs p ≡ₚ wp_AllowedIPs q;
  ss_psk : wp_PresharedKey p = wp_PresharedKey q;
  ss_keepalive : wp_Keepalive p = wp_Keepalive q
}.
Definition same_settings (m m' : device) : Prop := ∀ k, option_Forall2 same_settings1 (m !! k) (m' !! k).

Lemma same_settings_lookup m m' k p' :
  same_settings m m' → m' !! k = Some p' → ∃ p, m !! k = Some p ∧ same_settings1 p p'.
Proof. intros H Hp. specialize (H k). rewrite Hp in H. inversion H; subst. eauto. Qed.
Lemma same_settings_routes m m' : same_settings m m' → routes_ok m → routes_ok m'.
Proof.
  intros H [Hd Hn]. split.
  - intros k k' p p' r Hp Hp' Hr Hr'.
    destruct (same_settings_lookup _ _ _ _ H Hp) as (q & Hq & Eq), (same_settings_lookup _ _ _ _ H Hp') as (q' & Hq' & Eq').
    eapply Hd; [exact Hq|exact Hq'|by rewrite (ss_routes _ _ Eq)|by rewrite (ss_routes _ _ Eq')].
  - intros k p Hp. destruct (same_settings_lookup _ _ _ _ H Hp) as (q & Hq & Eq).
    rewrite <- (ss_routes _ _ Eq). by eapply Hn.
Qed.

Lemma endpoint_only_same k e m : same_settings m (apply_config [endpoint_only k e] m).
Proof.
  intros k'. cbn [apply_config foldl endpoint_only cf_PublicKey].
  destruct (decide (k' = k)) as [->|Hne].
  - rewrite lookup_partial_alter_eq. destruct (m !! k) as [p|]; constructor.
    split; cbn; try done. by rewrite app_nil_r.
  - rewrite lookup_partial_alter_ne by done. destruct (m !! k'); by constructor.
Qed.

Lemma same_settings_trans a b c : same_settings a b → same_settings b c → same_settings a c.
Proof.
  intros H1 H2 k. specialize (H1 k). specialize (H2 k). destruct H1 as [p q [A1 A2 A3 A4]|]; inversion H2 as [? r [B1 B2 B3 B4]|]; subst;
    constructor. split; try congruence. by rewrite A2.
Qed.
Lemma same_settings_refl m : same_settings m m.
Proof. intros k. by destruct (m !! k); constructor. Qed.
Lemma same_device_settings m m' : same_device m m' → same_settings m m'.
Proof. intros H k. destruct (H k) as [p q []|]; constructor. by split. Qed.

(** ** The loop over the entries *)
Lemma wanted_unique desired c :
  NoDup (cf_PublicKey <$> desired) → c ∈ desired → wanted desired (cf_PublicKey c) c.
Proof.
  unfold wanted, desiredByKey. generalize (∅ : gmap string PeerConfig).
  induction desired as [|d l IH]; intros m Hn Hc; [by apply elem_of_nil in Hc|].
  cbn [fmap list_fmap] in Hn. apply NoDup_cons in Hn as [Hd Hn]. cbn [foldl].
  apply elem_of_cons in Hc as [->|Hc]; [|by apply IH].
  clear IH Hn. assert (∀ m : gmap string PeerConfig, m !! cf_PublicKey d = Some d →
    foldl (λ m p, <[cf_PublicKey p := p]> m) m l !! cf_PublicKey d = Some d) as H; [|apply H, lookup_insert_eq].
  induction l as [|e l IH]; intros m' Hm; [done|]. cbn [fmap list_fmap] in Hd.
  apply not_elem_of_cons in Hd as [Hne Hd]. cbn [foldl]. apply IH; [done|]. by rewrite lookup_insert_ne.
Qed.

Section sync_device.
Context {D H : Type} {B : WgBackend D} {L : WgBackendLaws D} {O : HostOps H}.

Lemma adopt_address_device x x6 n n6 (a : Agent D H) : ag_device (adopt_address x x6 n n6 a).2 = ag_device a.
Proof using.
  unfold adopt_address. destruct (decide (x = _)) as [?|?]; [|destruct (replaceIPAddress _ _ _) as [[] h]]; simpl; try done.
  all: destruct (decide (x6 = _)) as [?|?]; [done|]; destruct (replaceIPAddress _ _ _) as [[] h']; done.
Qed.
Lemma applySelfAssignment_device r (a : Agent D H) : ag_device (applySelfAssignment r a).2 = ag_device a.
Proof using.
  unfold applySelfAssignment. case_decide; [done|].
  destruct (assigned4 r) as [[n x]|], (assigned6 r) as [[n6 x6]|]; try done. apply adopt_address_device.
Qed.
Lemma applyDNS_device c (a : Agent D H) : ag_device (applyDNS c a) = ag_device a.
Proof using. unfold applyDNS. repeat case_match; done. Qed.
End sync_device.

Section delivery.
Context {D H : Type} {B : WgBackend D} {L : WgBackendLaws D} {O : HostOps H}.
Context (resolve ParseKey : string → option string) (off : bool) (cidrs : string).

Lemma retry_direct_device now k cands epoch (d : D) x m :
  Device d = Some m → routes_ok m →
  ∃ m', Device (retry_direct off now k cands epoch d x).1 = Some m' ∧ same_settings m m' ∧ routes_ok m'.
Proof using Type*.
  intros Hd Hr. unfold retry_direct. destruct (maybeRetryDirect off true now cands epoch x) as [x' [e|]].
  - pose proof (endpoint_only_same k e m) as Hs. pose proof (same_settings_routes _ _ Hs Hr) as Hr'.
    destruct (ConfigureDevice [endpoint_only k e] d) as [d'|] eqn:E; simpl; [|exists m; split_and!; [done|apply same_settings_refl|done]].
    destruct (configure_applies [endpoint_only k e] d d' m E Hd ltac:(apply NoDup_singleton) Hr') as (m' & Hd' & Hm').
    exists m'. split; [done|]. split; [|by rewrite <- Hm'].
    eapply same_settings_trans; [exact Hs|]. by apply same_device_settings.
  - exists m. split_and!; [done|apply same_settings_refl|done].
Qed.

Lemma adopt_peers_device now es : ∀ (a : Agent D H) m,
  Device (ag_device a) = Some m → routes_ok m →
  ∃ m', Device (ag_device (adopt_peers resolve ParseKey off now es a).2) = Some m'
    ∧ same_settings m m' ∧ routes_ok m'.
Proof using Type*.
  induction es as [|e es IH]; intros a m Hd Hr; cbn [adopt_peers];
    [exists m; split_and!; [done|apply same_settings_refl|done]|].
  destruct (peerConfigFromProto resolve ParseKey e) as [c|]; [|exists m; split_and!; [done|apply same_settings_refl|done]].
  destruct (retry_direct _ _ _ _ _ _ _) as [d x] eqn:E.
  pose proof (retry_direct_device now (cf_PublicKey c) (endpointCandidatesFromProto resolve e (cf_Endpoint c))
    (pcr_PunchEpoch e) (ag_device a) (default new_path (ag_paths a !! cf_PublicKey c)) m Hd Hr) as (m1 & H1 & H2 & H3).
  rewrite E in H1. destruct (adopt_peers _ _ _ _ _ _) as [r a'] eqn:Ea.
  destruct (IH (set_peer (cf_PublicKey c) d x (pcr_Hostname e) a) m1) as (m2 & ? & ? & ?); [done|done|].
  rewrite Ea in *. exists m2. split; [done|]. split; [by eapply same_settings_trans|done].
Qed.

Lemma adopt_peers_desired now es : ∀ (a : Agent D H) cs,
  mapM (peerConfigFromProto resolve ParseKey) es = Some cs →
  (adopt_peers resolve ParseKey off now es a).1 = Some cs.
Proof using Type*.
  induction es as [|e es IH]; intros a cs; cbn [adopt_peers mapM]; [by intros [= <-]|].
  intros (c & Hc & (cs' & Hcs & [= <-])%option.bind_Some)%option.bind_Some. rewrite Hc.
  destruct (retry_direct _ _ _ _ _ _ _) as [d x]. destruct (adopt_peers _ _ _ _ _ _) as [r a'] eqn:Ea.
  specialize (IH (set_peer (cf_PublicKey c) d x (pcr_Hostname e) a) cs' Hcs). rewrite Ea in IH. simpl in *.
  by rewrite IH.
Qed.

(** An entry whose endpoint is a name the agent cannot resolve fails the lot. *)
Lemma unresolved_entry x l :
  x ∈ l → entry_endpoint x ≠ "" → resolve (entry_endpoint x) = None →
  mapM (peerConfigFromProto resolve ParseKey) l = None.
Proof using.
  intros Hx Hne Hr. destruct (mapM _ l) as [ps|] eqn:E; [|done].
  apply mapM_Some in E. apply list_elem_of_lookup in Hx as [i Hi].
  destruct (Forall2_lookup_l _ _ _ _ _ E Hi) as (p & _ & Hp).
  unfold peerConfigFromProto in Hp. rewrite decide_False, Hr in Hp by done. by destruct (ParseKey _).
Qed.
Lemma adopt_peers_refuses now es : ∀ a : Agent D H,
  mapM (peerConfigFromProto resolve ParseKey) es = None → (adopt_peers resolve ParseKey off now es a).1 = None.
Proof using Type*.
  induction es as [|e es IH]; intros a; cbn [adopt_peers mapM]; [done|].
  destruct (peerConfigFromProto resolve ParseKey e) as [c|]; [|done]. cbn [mbind option_bind].
  destruct (mapM _ es) as [cs|]; [done|]. intros _.
  destruct (retry_direct _ _ _ _ _ _ _) as [d x]. specialize (IH (set_peer (cf_PublicKey c) d x (pcr_Hostname e) a) eq_refl).
  destruct (adopt_peers _ _ _ _ _ _) as [r a']. simpl in *. by rewrite IH.
Qed.
(** A sync that gives up leaves the device's settings: before the peers, when the
    agent's own address cannot be adopted, or at an entry it cannot use. *)
Lemma applySync_gives_up order now r (a : Agent D H) cur :
  Device (ag_device a) = Some cur → routes_ok cur →
  (applySelfAssignment r (match rr_STUNServers r with [] => a | l => set_stun l a end)).1 = false
  ∨ mapM (peerConfigFromProto resolve ParseKey) (rr_Peers r) = None →
  ∃ cur', Device (ag_device (applySync resolve ParseKey off cidrs order now r a)) = Some cur' ∧ same_settings cur cur'.
Proof using Type*.
  intros Hd Hdis Hno. unfold applySync. set (a0 := match rr_STUNServers r with [] => a | l => set_stun l a end) in *.
  assert (ag_device a0 = ag_device a) as E0 by (unfold a0; by destruct (rr_STUNServers r)).
  pose proof (applySelfAssignment_device r a0) as E1.
  destruct (applySelfAssignment r a0) as [ok a1]. simpl in Hno, E1.
  destruct ok; cbn [negb]; [|exists cur; rewrite E1, E0; split; [done|apply same_settings_refl]].
  destruct Hno as [?|Hno]; [done|].
  destruct (adopt_peers_device now (rr_Peers r) (applyDNS (rr_DNS r) a1) cur) as (m & Hm & Hs & _);
    [by rewrite applyDNS_device, E1, E0|done|].
  pose proof (adopt_peers_refuses now (rr_Peers r) (applyDNS (rr_DNS r) a1) Hno) as Hn.
  destruct (adopt_peers _ _ _ _ _ _) as [ds a2]. simpl in Hm, Hn. subst ds. eauto.
Qed.

(** The host's part leaves the device alone. *)
Lemma apply_host_device r (a : Agent D H) : ag_device (apply_host cidrs r a) = ag_device a.
Proof using.
  unfold apply_host. repeat (destruct (_ : _ * _) as [? ?]; simpl).
  done.
Qed.
End delivery.

(** ** One agent's list *)
Section list.
Context (KS : list Z → string) (s : Server) (self : PeerRow) (others : list PeerRow).
Context (resolve ParseKey : string → option string) (c : Config) (db : DB).

(** The agent can use every entry: keys are in the form [Key.String] prints, and
    the proposed endpoints resolve where the agent is. *)
Definition usable_entries : Prop :=
  (∀ p, p ∈ peers db → ParseKey (p_public_key p) = Some (p_public_key p))
  ∧ (∀ k, ParseKey (KS k) = Some (KS k))
  ∧ ∀ o, o ∈ others → let e := entry_endpoint (peer_entry KS s self others o) in
      e = "" ∨ is_Some (resolve e).

Definition entry_config (o : PeerRow) : PeerConfig :=
  let e := peer_entry KS s self others o in
  mkPeerCfg (pr_PublicKey o) false false
    (Some (KS (DerivePairKey (sv_pskMaster s) (pr_PublicKey self) (pr_PublicKey o))))
    (if decide (entry_endpoint e = "") then None else resolve (entry_endpoint e))
    (Some (i64 (keepaliveOrDefault s * Second))) false (pcr_AllowedIPs e).

Context (Hdb : db_ok db) (Hn : nets_ok c) (Hf : families c) (Ho : overlay_ok c db) (Hu : usable_entries).
Context (Hothers : ∀ o, o ∈ others → ∃ p, p ∈ peers db ∧ o = peer_row p).

Lemma entry_converts o : o ∈ others →
  peerConfigFromProto resolve ParseKey (peer_entry KS s self others o) = Some (entry_config o).
Proof using Hn Hf Ho Hothers Hu.
  intros Hin. destruct Hu as (Hk & Hp & He). unfold peerConfigFromProto. rewrite entry_key.
  pose proof (Hothers o Hin) as (p & Hpin & E). subst o. simpl (pr_PublicKey _).
  rewrite (Hk p Hpin). cbn [mbind option_bind].
  rewrite (mapM_canonical (pcr_AllowedIPs _)) by (eapply entry_canonical; eauto).
  assert (pcr_PresharedKey (peer_entry KS s self others (peer_row p))
    = Some (KS (DerivePairKey (sv_pskMaster s) (pr_PublicKey self) (p_public_key p)))
    ∧ pcr_PersistentKeepaliveInterval (peer_entry KS s self others (peer_row p)) = Some (keepaliveOrDefault s))
    as [-> ->] by (unfold peer_entry; by case_match).
  rewrite Hp. unfold entry_config. specialize (He _ Hin). cbn zeta in He.
  case_decide as Ee; [done|]. destruct He as [?|[u Hr]]; [done|]. by rewrite Hr.
Qed.

Lemma entries_convert :
  mapM (peerConfigFromProto resolve ParseKey) (buildPeerEntries KS s self others)
  = Some (entry_config <$> filter (λ o, Is_true (negb (skipped self o))) others).
Proof using Hn Hf Ho Hothers Hu.
  unfold buildPeerEntries. apply mapM_Some.
  assert (∀ o, o ∈ filter (λ o, Is_true (negb (skipped self o))) others → o ∈ others) as Hin
    by (by intros o [? _]%elem_of_direct).
  induction (filter _ others) as [|o l IH]; [constructor|]. cbn [fmap list_fmap]. constructor.
  - apply entry_converts, Hin. by left.
  - apply IH. intros x Hx. apply Hin. by right.
Qed.

Context (id : Z) (Hrows : PeersForID c id db = Ok (self, others)).

Lemma others_rows o : o ∈ others → ∃ p, p ∈ peers db ∧ o = peer_row p.
Proof using Hrows.
  clear Hothers. pose proof Hrows as HR. unfold PeersForID in HR. destruct (peer_by_id id db) as [me|]; [|done].
  injection HR as _ <-. intros (p & ? & _ & ?)%listVisible_elem. eauto.
Qed.

Lemma keys_unique : NoDup (cf_PublicKey <$> (entry_config <$> filter (λ o, Is_true (negb (skipped self o))) others)).
Proof using Hdb Hrows.
  rewrite <-list_fmap_compose. apply NoDup_fmap_2_strong.
  - intros x y [Hx _]%elem_of_direct [Hy _]%elem_of_direct E. simpl in E.
    destruct (others_rows x Hx) as (p & Hp & ->), (others_rows y Hy) as (q & Hq & ->).
    f_equal. by eapply public_key_inj.
  - apply NoDup_filter. by eapply ro_nodup, rows_ok_db.
Qed.

Lemma entry_routes_split o r :
  r ∈ pcr_AllowedIPs (peer_entry KS s self others o) →
  r ∈ exit_routes ∧ pcr_ExitNode (peer_entry KS s self others o) = true
  ∨ ∃ m, m ∈ carried others o ∧ r ∈ allowedIPsForPeer m.
Proof using.
  intros Hr. destruct (decide (r ∈ exit_routes)) as [He|He].
  - left. split; [done|]. by apply (entry_exit_routes KS s self others o r).
  - right. assert (r ∈ entry_routes (peer_entry KS s self others o)) as Hr' by (by apply list_elem_of_filter).
    rewrite entry_routes_carried in Hr'. apply list_elem_of_bind in Hr' as (m & ? & ?). eauto.
Qed.

Lemma entry_nodup o : rows_ok self others → o ∈ others → NoDup (pcr_AllowedIPs (peer_entry KS s self others o)).
Proof using.
  intros Hok Hin. assert (NoDup (carried others o ≫= allowedIPsForPeer)) as Hc.
  { apply NoDup_bind; [|intros m _; apply NoDup_allowed|by apply (NoDup_carried self)].
    intros m m' r Hm Hm' Hr Hr'. eapply allowed_disjoint; eauto using carried_others. }
  unfold peer_entry. unfold carried in Hc. destruct (is_static o); cbn [pcr_AllowedIPs].
  - cbn in Hc. by rewrite app_nil_r in Hc.
  - change ((o :: ?l) ≫= allowedIPsForPeer) with (allowedIPsForPeer o ++ (l ≫= allowedIPsForPeer)) in Hc.
    case_match; [|done]. apply NoDup_app. split_and!; [done| |by apply (bool_decide_eq_true_1 (NoDup _))].
    intros r [Hr|(m & Hr & _)%list_elem_of_bind]%elem_of_app; by apply allowed_not_exit in Hr.
Qed.

Lemma desired_entries_ok : desired_ok (entry_config <$> filter (λ o, Is_true (negb (skipped self o))) others).
Proof using Hdb Hn Hf Ho Hrows.
  clear Hothers. pose proof (rows_ok_db _ _ _ _ _ Hdb Hrows) as Hok. split.
  - intros w (o & -> & [Hin _]%elem_of_direct)%list_elem_of_fmap. split_and!; [done|done|by eexists|].
    eapply Forall_impl; [eapply entry_canonical; eauto using others_rows|]. by intros r [_ ?].
  - intros w (o & -> & [Hin _]%elem_of_direct)%list_elem_of_fmap. by eapply entry_nodup.
  - intros k k' w w' r Hw Hw' Hr Hr'.
    apply desiredByKey_key in Hw as [<- Hw], Hw' as [<- Hw'].
    apply list_elem_of_fmap in Hw as (o & -> & [Hin Hs]%elem_of_direct), Hw' as (o' & -> & [Hin' Hs']%elem_of_direct).
    f_equal. simpl in Hr, Hr'. f_equal.
    apply entry_routes_split in Hr as [[He Hx]|(m & Hm & Hr)], Hr' as [He'|Hr'].
    + destruct He' as [_ Hx']. rewrite entry_exit in Hx, Hx'. apply (ro_id _ _ Hok); [done|done|].
      apply andb_prop in Hx as [_ ?%Z.eqb_eq], Hx' as [_ ?%Z.eqb_eq]. congruence.
    + destruct Hr' as (m' & _ & Hr'). by apply allowed_not_exit in Hr'.
    + destruct He' as [He' _]. by apply allowed_not_exit in Hr.
    + destruct Hr' as (m' & Hm' & Hr').
      assert (m = m') as -> by (eapply allowed_disjoint; eauto using carried_others).
      by eapply carried_once.
Qed.
End list.

(** The device after a sync is the device of one [syncPeers] with the list of the
    entries, run on a device that differs from the first in endpoints only. *)
Lemma applySync_runs D H `{WgBackendLaws D, HostOps H} KS resolve ParseKey off cidrs order now
    st id s self others r (a : Agent D H) cur :
  mesh_ok st → families (cfg st) → PeersForID (cfg st) id (sdb st) = Ok (self, others) →
  rr_Peers r = buildPeerEntries KS s self others →
  usable_entries KS s self others resolve ParseKey (sdb st) →
  (∀ cs (d : D), is_Some (ConfigureDevice cs d)) →
  Device (ag_device a) = Some cur → routes_ok cur →
  (applySelfAssignment r (match rr_STUNServers r with [] => a | l => set_stun l a end)).1 = true →
  ∃ (d : D) m, Device d = Some m ∧ same_settings cur m
    ∧ syncPeers order (entry_config KS s self others resolve
                       <$> filter (λ o, Is_true (negb (skipped self o))) others) d
      = Some (ag_device (applySync resolve ParseKey off cidrs order now r a)).
Proof.
  intros [Hdb Hn Ho _ _ _] Hf Hrows Hr Hu Hcfg Hd Hdis Hself. unfold applySync.
  set (a0 := match rr_STUNServers r with [] => a | l => set_stun l a end) in *.
  assert (ag_device a0 = ag_device a) as E0 by (unfold a0; by destruct (rr_STUNServers r)).
  destruct (applySelfAssignment r a0) as [ok a1] eqn:E1. simpl in Hself. subst ok. cbn [negb].
  assert (ag_device (applyDNS (rr_DNS r) a1) = ag_device a) as E2.
  { rewrite applyDNS_device, <-E0, <-(applySelfAssignment_device r a0), E1. done. }
  rewrite <-E2 in Hd. rewrite Hr.
  destruct (adopt_peers_device resolve ParseKey off now (buildPeerEntries KS s self others) _ cur Hd Hdis)
    as (m & Hm & Hsame & _).
  pose proof (adopt_peers_desired resolve ParseKey off now _ (applyDNS (rr_DNS r) a1) _
    (entries_convert KS s self others resolve ParseKey _ _ Hn Hf Ho Hu (others_rows _ _ _ _ _ Hrows))) as Hdes.
  destruct (adopt_peers _ _ _ _ _ _) as [ds a2]. simpl in Hm, Hdes. subst ds.
  exists (ag_device a2), m. split; [done|]. split; [done|]. rewrite apply_host_device. unfold sync_device.
  set (desired := entry_config KS s self others resolve <$> _).
  assert (is_Some (syncPeers order desired (ag_device a2))) as [d' Hs]; [|by rewrite Hs].
  unfold syncPeers. rewrite Hm. cbn [mbind option_bind]. case_match; [by eexists|apply Hcfg].
Qed.

(** C17: the mesh the server describes is the mesh the agent's device carries,
    or the device keeps the one it had.  Let an agent apply an answer rendered
    from a well-formed database for its own row, to a device that can be read
    and whose networks, texts without a comma, each belong to one peer.  If the
    agent can adopt its own address, the keys are in the form the key parser
    gives back, the first endpoint of every entry is absent or resolves at the
    agent, and the device accepts every configuration, then the device has a
    peer for exactly the visible peers that get an entry, each with the
    preshared key of the pair, the server's keepalive and the networks of its
    entry; nothing else is left of what the device had before, and a peer that
    stays keeps its session.  If its own address cannot be adopted, or a single
    endpoint does not resolve, nothing of the answer's peers reaches the device:
    it keeps its peers, keys and networks, and only endpoints may have moved. *)
Theorem config_delivered D H `{WgBackendLaws D, HostOps H} KS resolve ParseKey off cidrs order now
    st id s self others r (a : Agent D H) cur :
  mesh_ok st → families (cfg st) → PeersForID (cfg st) id (sdb st) = Ok (self, others) →
  rr_Peers r = buildPeerEntries KS s self others → (∀ l, order l ≡ₚ l) →
  Device (ag_device a) = Some cur → routes_ok cur →
  (∀ k p, cur !! k = Some p → no_comma (wp_AllowedIPs p)) →
  let adopted := (applySelfAssignment r (match rr_STUNServers r with [] => a | l => set_stun l a end)).1 in
  let a' := applySync resolve ParseKey off cidrs order now r a in
  (adopted = true → usable_entries KS s self others resolve ParseKey (sdb st) →
   (∀ cs (d : D), is_Some (ConfigureDevice cs d)) →
   ∃ cur', Device (ag_device a') = Some cur'
    ∧ (∀ k, is_Some (cur' !! k) ↔ ∃ o, o ∈ others ∧ skipped self o = false ∧ pr_PublicKey o = k)
    ∧ ∀ o, o ∈ others → skipped self o = false →
        ∃ p, cur' !! pr_PublicKey o = Some p
          ∧ wp_AllowedIPs p ≡ₚ pcr_AllowedIPs (peer_entry KS s self others o)
          ∧ wp_PresharedKey p = KS (DerivePairKey (sv_pskMaster s) (pr_PublicKey self) (pr_PublicKey o))
          ∧ wp_Keepalive p = i64 (keepaliveOrDefault s * Second)
          ∧ wp_LastHandshake p = (cur !! pr_PublicKey o ≫= wp_LastHandshake))
  ∧ (adopted = false
     ∨ (∃ x, x ∈ rr_Peers r ∧ entry_endpoint x ≠ "" ∧ resolve (entry_endpoint x) = None) →
     ∃ cur', Device (ag_device a') = Some cur' ∧ same_settings cur cur').
Proof.
  intros Hmesh Hf Hrows Hr Hord Hd Hdis Hcom adopted a'. subst adopted a'. split.
  2:{ intros Hno. apply applySync_gives_up; [done|done|]. destruct Hno as [?|(x & ? & ? & ?)]; [by left|right].
      by eapply unresolved_entry. }
  intros Hself Hu Hcfg.
  destruct (applySync_runs D H KS resolve ParseKey off cidrs order now st id s self others r a cur)
    as (d & m & Hm & Hsame & Hs); [done..|]. destruct Hmesh as [Hdb Hn Ho _ _ _].
  set (desired := entry_config KS s self others resolve <$> _) in *.
  assert (∀ k p, m !! k = Some p → no_comma (wp_AllowedIPs p)) as Hcom'.
  { intros k p Hp. destruct (same_settings_lookup _ _ _ _ Hsame Hp) as (q & Hq & Ea).
    unfold no_comma. rewrite <- (ss_routes _ _ Ea). by eapply Hcom. }
  destruct (sync_result D order desired d (ag_device (applySync resolve ParseKey off cidrs order now r a)) m Hord) as (cur' & Hd' & Hgone & Hgot);
    [by eapply desired_entries_ok|done|done|exact Hs|].
  assert (∀ o, o ∈ others → skipped self o = false →
    wanted desired (pr_PublicKey o) (entry_config KS s self others resolve o)) as Hw.
  { intros o Hin Hsk. change (pr_PublicKey o) with (cf_PublicKey (entry_config KS s self others resolve o)).
    apply wanted_unique; [by eapply keys_unique|]. apply list_elem_of_fmap. exists o.
    split; [done|]. by apply elem_of_direct. }
  exists cur'. split; [done|]. split.
  - intros k. split.
    + intros [p Hp]. destruct (desiredByKey desired !! k) as [w|] eqn:Ek; [|by rewrite (Hgone k Ek) in Hp].
      apply desiredByKey_key in Ek as [<- (o & -> & [? ?]%elem_of_direct)%list_elem_of_fmap]. eauto.
    + intros (o & Hin & Hsk & <-). destruct (Hgot _ _ (Hw o Hin Hsk)) as (p & -> & _). by eexists.
  - intros o Hin Hsk. destruct (Hgot _ _ (Hw o Hin Hsk)) as (p & Hp & (Ha & Hk & Hka) & _ & Hh).
    exists p. split; [done|]. split; [done|]. split; [by injection Hk as <-|]. split; [by apply Hka|].
    rewrite Hh. destruct (Hsame (pr_PublicKey o)) as [x y Hxy|]; [|done]. cbn. symmetry. apply Hxy.
Qed.

(** ** A concrete sync *)

(** A host on which every operation succeeds and nothing is observed. *)
#[export] Instance quiet_host : HostOps unit := {
  replaceIPAddress _ _ h := (true, h);
  applyDNSConfig _ h := (DnsApplied, h);
  applyOverlayACL _ h := (true, h);
  refreshGatewayNAT _ h := (true, h);
  applyGatewayRoutes l _ h := (true, bool_decide (l ≠ []), h);
  applyExitRoutes b _ _ h := (true, b, h);
  applyExitNodeNAT b _ _ _ h := (true, b, h)
}.
Definition ex_answer : ReportResponse :=
  mkReportResponse "100.64.0.1" "" "100.64.0.0/30" "" (mkDNS false true "vpn" [] [])
    (buildPeerEntries StdEncode ex_server (ex_rows 1).1 (ex_rows 1).2) (mkPolicy "deny" []) [] true [].
Definition ex_agent : Agent device unit :=
  mkAgent ({["stale" := mkWgPeer None None ["100.64.0.9/32"] "x" 0]} : device) tt ∅ ∅ [] "" "" no_prefix
    no_prefix "" false false false false false.

Lemma config_delivered_witness :
  ∃ cur', Device (ag_device (applySync Some Some false "" reverse 0 ex_answer ex_agent)) = Some cur'
    ∧ cur' !! "stale" = None
    ∧ (wp_AllowedIPs <$> cur' !! "pubB") = Some ["100.64.0.2/32"]
    ∧ (wp_AllowedIPs <$> cur' !! "phone") = Some ["100.64.0.3/32"].
Proof.
  destruct (config_delivered device unit StdEncode Some Some false "" reverse 0 sample_run 1 ex_server
    (ex_rows 1).1 (ex_rows 1).2 ex_answer ex_agent {["stale" := mkWgPeer None None ["100.64.0.9/32"] "x" 0]})
    as [Hgot _].
  - exact sample_mesh.
  - split; [vm_compute; reflexivity|]. intros H. vm_compute in H. discriminate.
  - apply ex_rows_ok. vm_compute. reflexivity.
  - reflexivity.
  - intros l. apply reverse_Permutation.
  - reflexivity.
  - split.
    + intros k k' p p' x. rewrite !lookup_singleton_Some. intros [<- _] [<- _] _ _. reflexivity.
    + intros k p. rewrite lookup_singleton_Some. intros [_ <-]. apply NoDup_singleton.
  - intros k p. rewrite lookup_singleton_Some. intros [_ <-]. repeat constructor.
  - destruct Hgot as (cur' & H1 & H2 & H3).
    { vm_compute. reflexivity. }
    { split; [done|]. split; [done|]. intros o _. right. by eexists. }
    { intros cs d. by eexists. }
    exists cur'. split; [exact H1|].
    assert (cur' = default ∅ (Device (ag_device (applySync Some Some false "" reverse 0 ex_answer ex_agent)))) as ->
      by (rewrite H1; reflexivity).
    clear H1 H2 H3. split; [|split]; vm_compute; reflexivity.
Defined.
