(* ===== verification/NumText.v ===== *)
(** * Numbers as text

    [strconv.Itoa] (and the [%d] of [fmt]) against the readers of decimal
    numbers. *)
From S2P Require Import Prelude GoText TimeText NetFacts.
From Stdlib Require Import Ascii.

Lemma digit_char n : (n < 10)%N → digit (pretty_N_char n) = Some (Z.of_N n).
Proof.
  intros Hn. assert (n = 0 ∨ n = 1 ∨ n = 2 ∨ n = 3 ∨ n = 4 ∨ n = 5 ∨ n = 6 ∨ n = 7 ∨ n = 8 ∨ n = 9)%N as H by lia.
  by repeat destruct H as [->|H]; try subst n.
Qed.

Lemma digits_from_pretty n s : digits_from 0 (pretty_N_go n s) = digits_from (Z.of_N n) s.
Proof.
  revert s. induction (N.lt_wf_0 n) as [n _ IH]; intros s.
  destruct (decide (n = 0)%N) as [->|Hn]; [by rewrite pretty_N_go_0|].
  rewrite pretty_N_go_step by lia. rewrite IH by (apply N.div_lt; lia).
  cbn [digits_from]. rewrite digit_char by (apply N.mod_lt; lia). cbn [mbind option_bind].
  f_equal. pose proof (N.div_mod n 10 ltac:(lia)). lia.
Qed.

(** What a number's text consists of. *)
Definition is_digit (c : ascii) : bool := bool_decide (is_Some (digit c)).
Lemma str_forall_cons_eq p c s : str_forall p (String c s) = p c && str_forall p s.
Proof. unfold str_forall. cbn [str_exists]. by rewrite negb_orb, negb_involutive. Qed.
Lemma pretty_go_digits n s : str_forall is_digit s = true → str_forall is_digit (pretty_N_go n s) = true.
Proof.
  revert s. induction (N.lt_wf_0 n) as [n _ IH]; intros s Hs.
  destruct (decide (n = 0)%N) as [->|Hn]; [by rewrite pretty_N_go_0|].
  rewrite pretty_N_go_step by lia. apply IH; [apply N.div_lt; lia|].
  rewrite str_forall_cons_eq, Hs, andb_true_r. unfold is_digit.
  rewrite digit_char by (apply N.mod_lt; lia). by apply bool_decide_eq_true.
Qed.
Lemma pretty_go_nonempty n s : s ≠ "" → pretty_N_go n s ≠ "".
Proof.
  revert s. induction (N.lt_wf_0 n) as [n _ IH]; intros s Hs.
  destruct (decide (n = 0)%N) as [->|Hn]; [by rewrite pretty_N_go_0|].
  rewrite pretty_N_go_step by lia. apply IH; [apply N.div_lt; lia|done].
Qed.

Lemma Itoa_N z : 0 ≤ z → Itoa z = pretty (Z.to_N z).
Proof. intros Hz. unfold Itoa. by destruct z as [|p|p]. Qed.

Lemma Itoa_nonempty z : Itoa z ≠ "".
Proof.
  assert (∀ n : N, pretty n ≠ "") as Hn.
  { intros n. unfold pretty, pretty_N. case_decide; [done|].
    rewrite pretty_N_go_step by lia. by apply pretty_go_nonempty. }
  destruct z as [|p|p]; unfold Itoa; [done|apply Hn|done].
Qed.

Lemma Itoa_digits z : 0 ≤ z → str_forall is_digit (Itoa z) = true.
Proof.
  intros Hz. rewrite Itoa_N by done. unfold pretty, pretty_N. case_decide; [done|].
  by apply pretty_go_digits.
Qed.

Lemma digits_Itoa z : 0 ≤ z → digits (Itoa z) = Some z.
Proof.
  intros Hz. pose proof (Itoa_nonempty z) as Hne.
  assert (digits (Itoa z) = digits_from 0 (Itoa z)) as -> by (by destruct (Itoa z)).
  rewrite Itoa_N by done. unfold pretty, pretty_N. case_decide as E.
  - assert (z = 0) as -> by lia. done.
  - rewrite digits_from_pretty. cbn [digits_from]. f_equal. lia.
Qed.

Lemma no_char_Itoa c z : 0 ≤ z → digit c = None → no_char c (Itoa z) = true.
Proof.
  intros Hz Hc. eapply str_forall_impl; [|exact (Itoa_digits z Hz)].
  intros a Ha. apply bool_decide_eq_true. intros ->. unfold is_digit in Ha.
  apply bool_decide_eq_true in Ha. rewrite Hc in Ha. by destruct Ha.
Qed.

Lemma ParseInt_Itoa z : in_int64 z = true → ParseInt (Itoa z) = Some z.
Proof.
  intros Hz. unfold ParseInt. destruct (decide (0 ≤ z)) as [Hp|Hn].
  - pose proof (Itoa_digits z Hp) as Hd. pose proof (digits_Itoa z Hp) as E.
    destruct (Itoa z) as [|c s] eqn:Ez; [by apply Itoa_nonempty in Ez|].
    rewrite str_forall_cons_eq in Hd. apply andb_prop in Hd as [Hc _].
    rewrite decide_False by (intros ->; by vm_compute in Hc).
    rewrite decide_False by (intros ->; by vm_compute in Hc). rewrite E. cbn [mbind option_bind]. by rewrite Hz.
  - destruct z as [|p|p]; [lia|lia|]. change (Itoa (Z.neg p)) with (String "-" (pretty (N.pos p))).
    cbv iota beta. rewrite (decide_True (P := "-"%char = "-"%char)) by done. change (pretty (N.pos p)) with (pretty (Z.to_N (Z.pos p))). rewrite <-(Itoa_N (Z.pos p)) by lia. rewrite digits_Itoa by lia.
    cbn [mbind option_bind]. change (- Z.pos p) with (Z.neg p). by rewrite Hz.
Qed.
