(* ===== verification/IpTables.v ===== *)
(** * The packet filter

    The agent programs the host's packet filter by running [iptables] and
    [ip6tables].  The program is not part of the repository; the class
    [IpTables] is what the agent relies on, after its manual: a command that
    succeeds has done what it says to the tables, and one that fails, for
    whatever reason, has done nothing.  Rules are compared as they were given. *)
From S2P Require Import Prelude GoText.

(** A rule is its arguments; a chain of a table of a binary is its rules. *)
Abbreviation rule := (list string).
Abbreviation tables := (gmap (string * string * string) (list rule)).

Inductive ipt_cmd : Type :=
| NewChain (chain : string)
| Flush (chain : string)
| DeleteChain (chain : string)
| Append (chain : string) (r : rule)
| Insert (chain : string) (n : nat) (r : rule)
| CheckRule (chain : string) (r : rule)
| DeleteRule (chain : string) (r : rule).

Definition parse_cmd (args : list string) : option ipt_cmd :=
  match args with
  | ["-N"; c] => Some (NewChain c)
  | ["-F"; c] => Some (Flush c)
  | ["-X"; c] => Some (DeleteChain c)
  | "-A" :: c :: r => Some (Append c r)
  | "-I" :: c :: n :: r =>
      match digits n with
      | Some i => Some (Insert c (Z.to_nat (i - 1)) r)
      | None => Some (Insert c 0 (n :: r))
      end
  | "-C" :: c :: r => Some (CheckRule c r)
  | "-D" :: c :: r => Some (DeleteRule c r)
  | _ => None
  end.
Definition parse_args (args : list string) : option (string * ipt_cmd) :=
  match args with
  | "-t" :: table :: rest => pair table <$> parse_cmd rest
  | _ => pair "filter" <$> parse_cmd args
  end.

(** The chain a rule jumps to: options come with one argument each, but for the
    negation sign. *)
Fixpoint target (r : rule) : option string :=
  match r with
  | "-j" :: t :: _ => Some t
  | "!" :: r => target r
  | _ :: _ :: r => target r
  | _ => None
  end.
Definition referenced (bin table chain : string) (t : tables) : bool :=
  existsb (λ kv, bool_decide (kv.1.1 = (bin, table)) && existsb (λ r, bool_decide (target r = Some chain)) kv.2)
    (map_to_list t).

Fixpoint remove_first (r : rule) (l : list rule) : option (list rule) :=
  match l with
  | [] => None
  | x :: l => if decide (x = r) then Some l else cons x <$> remove_first r l
  end.

(** What a command does; [None] is a command that fails. *)
Definition effect (bin table : string) (c : ipt_cmd) (t : tables) : option tables :=
  match c with
  | NewChain ch =>
      match t !! (bin, table, ch) with Some _ => None | None => Some (<[(bin, table, ch) := []]> t) end
  | Flush ch => _ ← t !! (bin, table, ch); Some (<[(bin, table, ch) := []]> t)
  | DeleteChain ch =>
      rs ← t !! (bin, table, ch);
      if bool_decide (rs = []) && negb (referenced bin table ch t) then Some (delete (bin, table, ch) t) else None
  | Append ch r => rs ← t !! (bin, table, ch); Some (<[(bin, table, ch) := rs ++ [r]]> t)
  | Insert ch n r =>
      rs ← t !! (bin, table, ch);
      if bool_decide (n ≤ length rs)%nat then Some (<[(bin, table, ch) := take n rs ++ r :: drop n rs]> t) else None
  | CheckRule ch r => rs ← t !! (bin, table, ch); if bool_decide (r ∈ rs) then Some t else None
  | DeleteRule ch r =>
      rs ← t !! (bin, table, ch); rs' ← remove_first r rs; Some (<[(bin, table, ch) := rs']> t)
  end.
Definition iptables (bin : string) (args : list string) (t : tables) : option tables :=
  '(table, c) ← parse_args args; effect bin table c t.

Class IpTables (T : Type) : Type := {
  ipt_run : string → list string → T → bool * T;
  ipt_view : T → tables
}.
Class IpTablesLaws (T : Type) `{IpTables T} : Prop := {
  ipt_done bin args t t' : ipt_run bin args t = (true, t') → iptables bin args (ipt_view t) = Some (ipt_view t');
  ipt_failed bin args t t' : ipt_run bin args t = (false, t') → ipt_view t' = ipt_view t
}.

(** A filter that is its tables and fails only when it must. *)
#[export] Instance plain_tables : IpTables tables := {
  ipt_run bin args t := match iptables bin args t with Some t' => (true, t') | None => (false, t) end;
  ipt_view t := t
}.
#[export] Instance plain_tables_laws : IpTablesLaws tables.
Proof.
  split; intros bin args t t'; cbn [ipt_run ipt_view plain_tables];
    destruct (iptables bin args t) eqn:E; intros [= <-]; done.
Qed.

(** ** Sequences of commands *)
Section runs.
Context {T : Type} `{IpTables T}.

(** Stops at the first failure. *)
Fixpoint must (bin : string) (cmds : list (list string)) (t : T) : bool * T :=
  match cmds with
  | [] => (true, t)
  | c :: cmds => let '(ok, t) := ipt_run bin c t in if ok then must bin cmds t else (false, t)
  end.
(** Ignores failures. *)
Definition attempt (bin : string) (cmds : list (list string)) (t : T) : T :=
  foldl (λ t c, (ipt_run bin c t).2) t cmds.
End runs.

Section facts.
Context {T : Type} {I : IpTables T} {L : IpTablesLaws T}.

Lemma must_app bin cs cs' (t t' : T) :
  must bin (cs ++ cs') t = (true, t') ↔ ∃ t1, must bin cs t = (true, t1) ∧ must bin cs' t1 = (true, t').
Proof using.
  revert t. induction cs as [|c cs IH]; intros t; cbn [app must]; [naive_solver|].
  destruct (ipt_run bin c t) as [[] t1]; [apply IH|naive_solver].
Qed.

(** Appending to a chain that exists. *)
Lemma append_run bin ch r (t t' : T) :
  ipt_run bin ("-A" :: ch :: r) t = (true, t') →
  ∃ rs, ipt_view t !! (bin, "filter", ch) = Some rs
    ∧ ipt_view t' = <[(bin, "filter", ch) := rs ++ [r]]> (ipt_view t).
Proof using L.
  intros H%ipt_done. unfold iptables in H. cbn [parse_args parse_cmd fmap option_fmap option_map mbind option_bind effect] in H.
  destruct (ipt_view t !! (bin, "filter", ch)) as [rs|]; [|done]. exists rs. split; [done|]. by injection H.
Qed.
Lemma flush_run bin ch (t t' : T) :
  ipt_run bin ["-F"; ch] t = (true, t') → ipt_view t' = <[(bin, "filter", ch) := []]> (ipt_view t).
Proof using L.
  intros H%ipt_done. unfold iptables in H. cbn [parse_args parse_cmd fmap option_fmap option_map mbind option_bind effect] in H.
  destruct (ipt_view t !! (bin, "filter", ch)) as [rs|]; [|done]. by injection H.
Qed.

(** A command leaves the chains it does not name alone. *)
Definition names (c : ipt_cmd) : string :=
  match c with
  | NewChain ch | Flush ch | DeleteChain ch | Append ch _ | Insert ch _ _ | CheckRule ch _ | DeleteRule ch _ => ch
  end.
Lemma effect_frame bin table c t t' k :
  effect bin table c t = Some t' → k ≠ (bin, table, names c) → t' !! k = t !! k.
Proof using.
  intros E Hk.
  assert (∀ ch rs, k ≠ (bin, table, ch) → Some (<[(bin, table, ch) := rs]> t) = Some t' → t' !! k = t !! k) as Hi.
  { intros ch rs Hne [= <-]. by rewrite lookup_insert_ne. }
  destruct c as [ch|ch|ch|ch r|ch n r|ch r|ch r]; cbn [effect names] in *;
    destruct (t !! (bin, table, ch)) as [rs|]; try done; cbn [mbind option_bind] in E; eauto.
  - case_match; [|done]. injection E as <-. by rewrite lookup_delete_ne.
  - case_match; [|done]. eauto.
  - destruct (remove_first r rs) as [rs'|]; [|done]. cbn [mbind option_bind] in E. eauto.
Qed.
Lemma run_frame bin args (t : T) k :
  (∀ table c, parse_args args = Some (table, c) → k ≠ (bin, table, names c)) →
  ipt_view (ipt_run bin args t).2 !! k = ipt_view t !! k.
Proof using L.
  intros Hk. destruct (ipt_run bin args t) as [[] t'] eqn:E; simpl.
  - apply ipt_done in E. unfold iptables in E. destruct (parse_args args) as [[table c]|]; [|done].
    cbn [mbind option_bind] in E. by eapply effect_frame; eauto.
  - apply ipt_failed in E. by rewrite E.
Qed.
End facts.
