(* ===== verification/OverlayAcl.v ===== *)
(** * Enforcing the access policy

    cmd/agent/acl_linux.go: the policy of a default-deny mesh becomes three
    chains in each of [iptables] and [ip6tables], hooked into INPUT, OUTPUT and
    FORWARD for the overlay interface. *)
From S2P Require Import Prelude GoText NetAddr NetFacts Schema SchemaFacts Enroll EnrollFacts Acl Invariants StoreMachine PeerEntries EntryFacts NumText IpTables.
From Stdlib Require Import Ascii.

Definition aclInChain : string := "WGMESH-ACL-IN".
Definition aclOutChain : string := "WGMESH-ACL-OUT".
Definition aclFwdChain : string := "WGMESH-ACL-FWD".
Definition aclChains : list string := [aclInChain; aclOutChain; aclFwdChain].

Definition port_text (lo hi : Z) : string :=
  if (0 <? hi) && negb (hi =? lo) then Itoa lo +:+ ":" +:+ Itoa hi else Itoa lo.

(** The protocol's name for the filter; [None]: not a protocol of this family. *)
Definition filter_protocol (protocol : string) (v6 : bool) : option string :=
  let name := ToLower (TrimSpace protocol) in
  let name := if decide (name = "") then "any" else name in
  if decide (name = "icmp") then if v6 then None else Some "icmp"
  else if decide (name = "icmpv6") then if v6 then Some "ipv6-icmp" else None
  else if decide (name = "tcp" ∨ name = "udp" ∨ name = "any") then Some name
  else None.

(** [None]: the rule does not apply to this family. *)
Definition aclRuleArgs (r : ProtoACLRule) (v6 : bool) : option rule :=
  match filter_protocol (xr_Protocol r) v6 with
  | None => None
  | Some name =>
      let lost :=
        if v6 then bool_decide (xr_SrcIP r ≠ "" ∧ xr_SrcIP6 r = "") || bool_decide (xr_DstIP r ≠ "" ∧ xr_DstIP6 r = "")
        else bool_decide (xr_SrcIP6 r ≠ "" ∧ xr_SrcIP r = "") || bool_decide (xr_DstIP6 r ≠ "" ∧ xr_DstIP r = "") in
      if lost then None
      else
        let src := if v6 then xr_SrcIP6 r else xr_SrcIP r in
        let dst := if v6 then xr_DstIP6 r else xr_DstIP r in
        Some ((if decide (src = "") then [] else ["-s"; src])
              ++ (if decide (dst = "") then [] else ["-d"; dst])
              ++ (if decide (name = "any") then [] else ["-p"; name])
              ++ (if bool_decide (name = "tcp" ∨ name = "udp") && (0 <? xr_PortMin r)
                  then ["--dport"; port_text (xr_PortMin r) (xr_PortMax r)] else [])
              ++ ["-j"; "ACCEPT"])
  end.

Definition established : rule := ["-m"; "conntrack"; "--ctstate"; "ESTABLISHED,RELATED"; "-j"; "ACCEPT"].
Definition drop_all : rule := ["-j"; "DROP"].

Section acl.
Context {T : Type} `{IpTables T}.

Definition disableOverlayACL (bin iface : string) (t : T) : T :=
  attempt bin
    [["-D"; "INPUT"; "-i"; iface; "-j"; aclInChain];
     ["-D"; "OUTPUT"; "-o"; iface; "-j"; aclOutChain];
     ["-D"; "FORWARD"; "-i"; iface; "-j"; aclFwdChain];
     ["-D"; "FORWARD"; "-o"; iface; "-j"; aclFwdChain];
     ["-F"; aclInChain]; ["-F"; aclOutChain]; ["-F"; aclFwdChain];
     ["-X"; aclInChain]; ["-X"; aclOutChain]; ["-X"; aclFwdChain]] t.

Definition ensureJump (bin baseChain dirFlag iface aclChain : string) (t : T) : T :=
  let '(found, t) := ipt_run bin ["-C"; baseChain; dirFlag; iface; "-j"; aclChain] t in
  if found then t else (ipt_run bin ["-I"; baseChain; dirFlag; iface; "-j"; aclChain] t).2.

(** Everything that goes into the chains, in the order it is appended. *)
Definition chain_commands (rules : list ProtoACLRule) (v6 : bool) : list (list string) :=
  ((λ ch, "-A" :: ch :: established) <$> aclChains)
  ++ (omap (λ r, aclRuleArgs r v6) rules ≫= (λ cmd, (λ ch, "-A" :: ch :: cmd) <$> aclChains))
  ++ ((λ ch, "-A" :: ch :: drop_all) <$> aclChains).

Definition applyOverlayACLFamily (bin iface : string) (rules : list ProtoACLRule) (v6 : bool) (t : T) : bool * T :=
  let t := attempt bin ((λ ch, ["-N"; ch]) <$> aclChains) t in
  let '(ok, t) := must bin ((λ ch, ["-F"; ch]) <$> aclChains) t in
  if negb ok then (false, t)
  else
    let t := ensureJump bin "INPUT" "-i" iface aclInChain t in
    let t := ensureJump bin "OUTPUT" "-o" iface aclOutChain t in
    let t := ensureJump bin "FORWARD" "-i" iface aclFwdChain t in
    let t := ensureJump bin "FORWARD" "-o" iface aclFwdChain t in
    must bin (chain_commands rules v6) t.

Definition applyOverlayACL_linux (iface : string) (policy : option ACLPolicy) (t : T) : bool * T :=
  match policy with
  | Some p =>
      if decide (ap_DefaultPolicy p = "deny") then
        let '(ok, t) := applyOverlayACLFamily "iptables" iface (ap_Rules p) false t in
        if ok then applyOverlayACLFamily "ip6tables" iface (ap_Rules p) true t else (false, t)
      else (true, disableOverlayACL "ip6tables" iface (disableOverlayACL "iptables" iface t))
  | None => (true, disableOverlayACL "ip6tables" iface (disableOverlayACL "iptables" iface t))
  end.
End acl.

(** * What the filter lets through

    The chains the agent programs accept exactly the traffic that a stored rule
    of the mesh allows. *)
(** ** Packets

    A packet as the filter sees it; addresses in the form the store keeps them. *)
Record packet : Type := mkPacket {
  pk_src : string; pk_dst : string; pk_proto : string; pk_dport : Z; pk_established : bool
}.

(** [--dport a] and [--dport a:b]. *)
Definition port_in (range : string) (p : Z) : bool :=
  match cut ":" range with
  | None => match digits range with Some a => p =? a | None => false end
  | Some (a, b) =>
      match digits a, digits b with
      | Some a, Some b => (a <=? p) && (p <=? b)
      | _, _ => false
      end
  end.

(** The match of a rule's arguments, as the filter's manual has it. *)
Fixpoint matches (r : rule) (p : packet) : bool :=
  match r with
  | "-s" :: a :: r => bool_decide (pk_src p = a) && matches r p
  | "-d" :: a :: r => bool_decide (pk_dst p = a) && matches r p
  | "-p" :: n :: r => bool_decide (pk_proto p = n) && matches r p
  | "--dport" :: range :: r => port_in range (pk_dport p) && matches r p
  | "-m" :: _ :: r => matches r p
  | "--ctstate" :: st :: r =>
      (if decide (st = "ESTABLISHED,RELATED") then pk_established p else false) && matches r p
  | "-j" :: _ => true
  | [] => true
  | _ => false
  end.

(** The target of the first rule that matches and ends the traversal. *)
Fixpoint verdict (rs : list rule) (p : packet) : option string :=
  match rs with
  | [] => None
  | r :: rs =>
      if matches r p && bool_decide (target r = Some "ACCEPT" ∨ target r = Some "DROP")
      then target r else verdict rs p
  end.

(** ** The chains *)
Section chains.
Context {T : Type} {I : IpTables T} {L : IpTablesLaws T}.
Context (bin : string).

Definition chain_of (ch : string) (t : T) : option (list rule) := ipt_view t !! (bin, "filter", ch).

(** Appending the same rule to the three chains. *)
Lemma append_all cmd (t t' : T) l :
  (∀ ch, ch ∈ aclChains → chain_of ch t = Some l) →
  must bin ((λ ch, "-A" :: ch :: cmd) <$> aclChains) t = (true, t') →
  ∀ ch, ch ∈ aclChains → chain_of ch t' = Some (l ++ [cmd]).
Proof using L.
  intros Hl. unfold aclChains. cbn [fmap list_fmap must].
  destruct (ipt_run bin _ t) as [[] t1] eqn:E1; [|done].
  destruct (ipt_run bin _ t1) as [[] t2] eqn:E2; [|done].
  destruct (ipt_run bin _ t2) as [[] t3] eqn:E3; [|done]. intros [= <-].
  apply append_run in E1 as (l1 & H1 & V1), E2 as (l2 & H2 & V2), E3 as (l3 & H3 & V3).
  unfold chain_of in *. rewrite V3, V2, V1 in *.
  rewrite lookup_insert_ne in H2 by done. rewrite !lookup_insert_ne in H3 by done.
  rewrite Hl in H1, H2, H3 by set_solver. simplify_eq.
  intros ch [->|[->|[->|[]%elem_of_nil]%elem_of_cons]%elem_of_cons]%elem_of_cons;
    repeat (rewrite lookup_insert_eq || rewrite lookup_insert_ne by done); done.
Qed.

Lemma append_each cmds (t t' : T) l :
  (∀ ch, ch ∈ aclChains → chain_of ch t = Some l) →
  must bin (cmds ≫= (λ cmd, (λ ch, "-A" :: ch :: cmd) <$> aclChains)) t = (true, t') →
  ∀ ch, ch ∈ aclChains → chain_of ch t' = Some (l ++ cmds).
Proof using L.
  revert t l. induction cmds as [|cmd cmds IH]; intros t l Hl.
  - cbn. intros [= <-]. by rewrite app_nil_r.
  - rewrite bind_cons. intros (t1 & H1 & H2)%must_app. intros ch Hch.
    rewrite (IH t1 (l ++ [cmd])); [by rewrite <-app_assoc|by eapply append_all|done|done].
Qed.

Lemma flush_all (t t' : T) :
  must bin ((λ ch, ["-F"; ch]) <$> aclChains) t = (true, t') →
  ∀ ch, ch ∈ aclChains → chain_of ch t' = Some [].
Proof using L.
  unfold aclChains. cbn [fmap list_fmap must].
  destruct (ipt_run bin _ t) as [[] t1] eqn:E1; [|done].
  destruct (ipt_run bin _ t1) as [[] t2] eqn:E2; [|done].
  destruct (ipt_run bin _ t2) as [[] t3] eqn:E3; [|done]. intros [= <-].
  apply flush_run in E1, E2, E3. unfold chain_of. rewrite E3, E2, E1.
  intros ch [->|[->|[->|[]%elem_of_nil]%elem_of_cons]%elem_of_cons]%elem_of_cons;
    repeat (rewrite lookup_insert_eq || rewrite lookup_insert_ne by done); done.
Qed.

Lemma ensureJump_frame base flag iface acl (t : T) ch :
  base ∉ aclChains → flag = "-i" ∨ flag = "-o" → ch ∈ aclChains →
  chain_of ch (ensureJump bin base flag iface acl t) = chain_of ch t.
Proof using L.
  intros Hb Hf Hch. assert (ch ≠ base) as Hne by set_solver. unfold chain_of, ensureJump.
  assert (∀ cmd (t : T), cmd = "-C" ∨ cmd = "-I" →
    ipt_view (ipt_run bin [cmd; base; flag; iface; "-j"; acl] t).2 !! (bin, "filter", ch)
    = ipt_view t !! (bin, "filter", ch)) as Hfr.
  { intros cmd t0 Hc. apply run_frame. intros table c Hp.
    destruct Hc as [->| ->], Hf as [->| ->]; vm_compute in Hp; simplify_eq; simpl; congruence. }
  pose proof (Hfr "-C" t (or_introl eq_refl)) as H1.
  destruct (ipt_run bin _ t) as [[] t1]; simpl in H1; [done|]. rewrite Hfr by auto. done.
Qed.

(** After a successful run the three chains hold exactly the established rule,
    the rules of this family and the final drop. *)
Lemma family_chains iface rules v6 (t t' : T) :
  applyOverlayACLFamily bin iface rules v6 t = (true, t') →
  ∀ ch, ch ∈ aclChains →
  chain_of ch t' = Some (established :: omap (λ r, aclRuleArgs r v6) rules ++ [drop_all]).
Proof using L.
  unfold applyOverlayACLFamily. set (t0 := attempt bin _ t).
  destruct (must bin ((λ ch, ["-F"; ch]) <$> aclChains) t0) as [[] t1] eqn:E1; [|done]. cbn [negb].
  pose proof (flush_all _ _ E1) as Hf. set (t2 := ensureJump _ _ _ _ _ _).
  assert (∀ ch, ch ∈ aclChains → chain_of ch t2 = Some []) as H2.
  { intros ch Hch. unfold t2. rewrite !ensureJump_frame by (set_solver || auto). by apply Hf. }
  unfold chain_commands. intros (t3 & H3 & (t4 & H4 & H5)%must_app)%must_app ch Hch.
  pose proof (append_all _ _ _ _ H2 H3) as A1. pose proof (append_each _ _ _ _ A1 H4) as A2.
  pose proof (append_all _ _ _ _ A2 H5) as A3. rewrite (A3 ch Hch). done.
Qed.
End chains.

(** ** What a rule of the policy means

    An end without addresses is any peer; an end with addresses is that peer in
    the packet's family, and no packet of a family the peer has no address in. *)
Definition end_allows (v6 : bool) (ip ip6 a : string) : bool :=
  if decide (ip = "" ∧ ip6 = "") then true else bool_decide (a = (if v6 then ip6 else ip)).
Definition service_allows (v6 : bool) (protocol : string) (lo hi : Z) (p : packet) : bool :=
  let name := ToLower (TrimSpace protocol) in
  if decide (name = "" ∨ name = "any") then true
  else if decide (name = "tcp" ∨ name = "udp")
  then bool_decide (pk_proto p = name)
       && ((lo <=? 0) || ((lo <=? pk_dport p) && (pk_dport p <=? (if 0 <? hi then hi else lo))))
  else if decide (name = "icmp") then negb v6 && bool_decide (pk_proto p = "icmp")
  else if decide (name = "icmpv6") then v6 && bool_decide (pk_proto p = "ipv6-icmp")
  else false.
Definition allows (v6 : bool) (r : ProtoACLRule) (p : packet) : bool :=
  end_allows v6 (xr_SrcIP r) (xr_SrcIP6 r) (pk_src p) && end_allows v6 (xr_DstIP r) (xr_DstIP6 r) (pk_dst p)
  && service_allows v6 (xr_Protocol r) (xr_PortMin r) (xr_PortMax r) p.

Lemma port_text_in lo hi p :
  0 < lo → port_in (port_text lo hi) p = (lo <=? p) && (p <=? (if 0 <? hi then hi else lo)).
Proof.
  intros Hlo. unfold port_text, port_in. destruct (Z.ltb_spec 0 hi) as [Hh|Hh]; cbn [andb].
  - destruct (Z.eqb_spec hi lo) as [->|Hne]; cbn [negb].
    + rewrite cut_no_char by (by apply no_char_Itoa; [lia|]). rewrite digits_Itoa by lia. lia.
    + change (":" +:+ Itoa hi) with (String ":" (Itoa hi)).
      rewrite cut_app by (by apply no_char_Itoa; [lia|]). by rewrite !digits_Itoa by lia.
  - rewrite cut_no_char by (by apply no_char_Itoa; [lia|]). rewrite digits_Itoa by lia. lia.
Qed.

(** The part of the arguments after the addresses. *)
Definition service_args (name : string) (lo hi : Z) : rule :=
  (if decide (name = "any") then [] else ["-p"; name])
  ++ (if bool_decide (name = "tcp" ∨ name = "udp") && (0 <? lo) then ["--dport"; port_text lo hi] else [])
  ++ ["-j"; "ACCEPT"].

Lemma service_args_match v6 protocol lo hi p :
  match filter_protocol protocol v6 with
  | Some name => matches (service_args name lo hi) p
  | None => false
  end = service_allows v6 protocol lo hi p.
Proof.
  unfold filter_protocol, service_allows. set (name := ToLower (TrimSpace protocol)).
  destruct (decide (name = "")) as [->|Hne]; [done|].
  assert (∀ n, n ≠ "any" → n ≠ "tcp" → n ≠ "udp" →
    matches (service_args n lo hi) p = bool_decide (pk_proto p = n)) as Hplain.
  { intros n N1 N2 N3. unfold service_args. rewrite decide_False, bool_decide_false by (done || by intros [?|?]).
    cbn [app matches andb]. apply andb_true_r. }
  destruct (decide (name = "icmp")) as [->|H1]; [destruct v6; [done|]; rewrite Hplain by done; done|].
  destruct (decide (name = "icmpv6")) as [->|H2]; [destruct v6; [|done]; rewrite Hplain by done; done|].
  destruct (decide (name = "any")) as [->|H3]; [done|].
  destruct (decide (name = "tcp" ∨ name = "udp" ∨ name = "any")) as [H4|H4].
  - rewrite (decide_False (P := name = "" ∨ name = "any")) by tauto.
    rewrite (decide_True (P := name = "tcp" ∨ name = "udp")) by tauto.
    unfold service_args. rewrite (decide_False (P := name = "any")) by done.
    rewrite bool_decide_true by tauto. cbn [app matches andb]. f_equal.
    destruct (Z.ltb_spec 0 lo) as [Hl|Hl]; cbn [app matches].
    + rewrite port_text_in, andb_true_r by done. by rewrite (proj2 (Z.leb_gt lo 0)) by lia.
    + by rewrite (proj2 (Z.leb_le lo 0)) by lia.
  - rewrite (decide_False (P := name = "" ∨ name = "any")) by tauto.
    by rewrite (decide_False (P := name = "tcp" ∨ name = "udp")) by tauto.
Qed.

(** One end: [x] is its address in the packet's family, [y] in the other. *)
Lemma end_lost (x y a : string) :
  a ≠ "" → bool_decide (y ≠ "" ∧ x = "") = true →
  (if decide (y = "" ∧ x = "") then true else bool_decide (a = x)) = false.
Proof. intros Ha [Hy ->]%bool_decide_eq_true. rewrite decide_False by tauto. by rewrite bool_decide_false. Qed.
Lemma end_kept (x y a : string) :
  bool_decide (y ≠ "" ∧ x = "") = false →
  (if decide (y = "" ∧ x = "") then true else bool_decide (a = x))
  = if decide (x = "") then true else bool_decide (a = x).
Proof.
  intros H%bool_decide_eq_false. destruct (decide (x = "")) as [->|Hx].
  - rewrite decide_True; [done|]. split; [|done]. destruct (decide (y = "")); [done|]. tauto.
  - by rewrite decide_False by tauto.
Qed.

Lemma args_match s d rest p :
  matches ((if decide (s = "") then [] else ["-s"; s]) ++ (if decide (d = "") then [] else ["-d"; d]) ++ rest) p
  = (if decide (s = "") then true else bool_decide (pk_src p = s))
    && (if decide (d = "") then true else bool_decide (pk_dst p = d)) && matches rest p.
Proof. repeat case_decide; cbn [app matches]; repeat case_bool_decide; done. Qed.

Lemma aclRuleArgs_match v6 r p :
  pk_src p ≠ "" → pk_dst p ≠ "" →
  match aclRuleArgs r v6 with Some args => matches args p | None => false end = allows v6 r p.
Proof.
  intros Hs Hd. unfold allows. rewrite <-service_args_match. unfold aclRuleArgs.
  destruct (filter_protocol (xr_Protocol r) v6) as [name|]; [|by rewrite andb_false_r].
  fold (service_args name (xr_PortMin r) (xr_PortMax r)). unfold end_allows.
  assert (∀ (x y : string) (b : bool), (if decide (x = "" ∧ y = "") then true else b)
                          = if decide (y = "" ∧ x = "") then true else b) as Hcomm
    by (intros; repeat case_decide; tauto).
  destruct v6; cbn zeta.
  - destruct (bool_decide (xr_SrcIP r ≠ "" ∧ xr_SrcIP6 r = "")) eqn:E1; cbn [orb].
    { by rewrite (end_lost _ _ _ Hs E1). }
    destruct (bool_decide (xr_DstIP r ≠ "" ∧ xr_DstIP6 r = "")) eqn:E2.
    { by rewrite (end_lost _ _ _ Hd E2), andb_false_r. }
    by rewrite args_match, (end_kept _ _ _ E1), (end_kept _ _ _ E2).
  - rewrite (Hcomm (xr_SrcIP r)), (Hcomm (xr_DstIP r)).
    destruct (bool_decide (xr_SrcIP6 r ≠ "" ∧ xr_SrcIP r = "")) eqn:E1; cbn [orb].
    { by rewrite (end_lost _ _ _ Hs E1). }
    destruct (bool_decide (xr_DstIP6 r ≠ "" ∧ xr_DstIP r = "")) eqn:E2.
    { by rewrite (end_lost _ _ _ Hd E2), andb_false_r. }
    by rewrite args_match, (end_kept _ _ _ E1), (end_kept _ _ _ E2).
Qed.

Lemma args_target r v6 args : aclRuleArgs r v6 = Some args → target args = Some "ACCEPT".
Proof.
  unfold aclRuleArgs. destruct (filter_protocol _ _) as [name|]; [|done]. case_match; [done|]. intros [= <-].
  repeat case_match; done.
Qed.

Lemma verdict_chain rules p :
  (∀ r, r ∈ rules → target r = Some "ACCEPT") →
  verdict (established :: rules ++ [drop_all]) p
  = Some (if pk_established p || existsb (λ r, matches r p) rules then "ACCEPT" else "DROP").
Proof.
  intros Hr. cbn [verdict]. destruct (pk_established p) eqn:Ee.
  - cbn. rewrite Ee. done.
  - cbn [matches established]. rewrite Ee, decide_True by done. cbn [andb orb].
    induction rules as [|r rules IH]; [done|]. cbn [app verdict existsb].
    rewrite (Hr r) by by left. rewrite bool_decide_true, andb_true_r by auto.
    destruct (matches r p); [done|]. apply IH. intros r' Hr'. apply Hr. by right.
Qed.

Lemma matches_rules v6 rules p :
  pk_src p ≠ "" → pk_dst p ≠ "" →
  existsb (λ r, matches r p) (omap (λ r, aclRuleArgs r v6) rules) = existsb (λ r, allows v6 r p) rules.
Proof.
  intros Hs Hd. induction rules as [|r rules IH]; [done|]. cbn [omap list_omap existsb].
  rewrite <-(aclRuleArgs_match v6 r p Hs Hd), <-IH. destruct (aclRuleArgs r v6); done.
Qed.

(** ** One binary does not touch the other's tables *)
Section frames.
Context {T : Type} {I : IpTables T} {L : IpTablesLaws T}.

Lemma run_other bin bin' args (t : T) k :
  bin ≠ bin' → ipt_view (ipt_run bin args t).2 !! (bin', k.1, k.2) = ipt_view t !! (bin', k.1, k.2).
Proof using L. intros Hne. apply run_frame. intros table c _ [= ? _ _]. done. Qed.
Lemma must_other bin bin' cmds (t : T) k :
  bin ≠ bin' → ipt_view (must bin cmds t).2 !! (bin', k.1, k.2) = ipt_view t !! (bin', k.1, k.2).
Proof using L.
  intros Hne. revert t. induction cmds as [|c cmds IH]; intros t; [done|]. cbn [must].
  pose proof (run_other bin bin' c t k Hne) as Hr. destruct (ipt_run bin c t) as [[] t1]; simpl in Hr; [|done].
  by rewrite IH.
Qed.
Lemma attempt_other bin bin' cmds (t : T) k :
  bin ≠ bin' → ipt_view (attempt bin cmds t) !! (bin', k.1, k.2) = ipt_view t !! (bin', k.1, k.2).
Proof using L.
  intros Hne. unfold attempt. revert t. induction cmds as [|c cmds IH]; intros t; [done|]. cbn [foldl].
  by rewrite IH, run_other.
Qed.
Lemma ensureJump_other bin bin' a b c d (t : T) k :
  bin ≠ bin' → ipt_view (ensureJump bin a b c d t) !! (bin', k.1, k.2) = ipt_view t !! (bin', k.1, k.2).
Proof using L.
  intros Hne. unfold ensureJump. pose proof (run_other bin bin' ["-C"; a; b; c; "-j"; d] t k Hne) as Hr.
  destruct (ipt_run bin _ t) as [[] t1]; simpl in Hr; [done|]. by rewrite run_other.
Qed.
Lemma family_other bin bin' iface rules v6 (t : T) k :
  bin ≠ bin' →
  ipt_view (applyOverlayACLFamily bin iface rules v6 t).2 !! (bin', k.1, k.2) = ipt_view t !! (bin', k.1, k.2).
Proof using L.
  intros Hne. unfold applyOverlayACLFamily. set (t0 := attempt bin _ t).
  pose proof (must_other bin bin' ((λ ch, ["-F"; ch]) <$> aclChains) t0 k Hne) as Hm.
  unfold t0 at 2 in Hm. rewrite attempt_other in Hm by done. destruct (must bin _ t0) as [[] t1]; simpl in Hm; [|done].
  cbn [negb]. rewrite must_other by done. by rewrite !ensureJump_other by done.
Qed.
End frames.

(** ** The stored rules *)

(** A stored rule covers a packet: each end is open or an active peer with that
    address in the packet's family, and the service fits. *)
Definition end_covers (db : DB) (v6 : bool) (o : option Z) (a : string) : Prop :=
  match o with
  | None => True
  | Some i => ∃ q, q ∈ peers db ∧ p_id q = i ∧ active_row q
      ∧ a = if v6 then coalesce (p_assigned_ip6 q) "" else p_assigned_ip q
  end.
Definition covers (db : DB) (v6 : bool) (r : AclRow) (p : packet) : Prop :=
  end_covers db v6 (r_src_peer_id r) (pk_src p) ∧ end_covers db v6 (r_dst_peer_id r) (pk_dst p)
  ∧ service_allows v6 (r_protocol r) (default 0 (r_port_min r)) (default 0 (r_port_max r)) p = true.

Lemma end_rendered_covers st v6 o ip ip6 a :
  mesh_ok st → a ≠ "" → endpoint_rendered (sdb st) o ip ip6 →
  end_allows v6 ip ip6 a = true ↔ end_covers (sdb st) v6 o a.
Proof.
  intros Hm Ha. unfold end_allows, end_covers. destruct o as [i|]; simpl.
  - intros (q & Hq & Hi & Hact & -> & ->). pose proof (assigned_ip_ne st q Hm Hq).
    rewrite decide_False by naive_solver. rewrite bool_decide_eq_true. split.
    + intros ->. by exists q.
    + intros (q' & Hq' & Hi' & _ & ->).
      by rewrite (ids_ok_inj p_id (peers (sdb st)) q' q (ok_peer_ids _ (m_db _ Hm)) Hq' Hq ltac:(congruence)).
  - intros [-> ->]. by rewrite decide_True.
Qed.

Lemma policy_covers st v6 p :
  mesh_ok st → DefaultAllow (cfg st) = false → pk_src p ≠ "" → pk_dst p ≠ "" →
  existsb (λ x, allows v6 x p) (ap_Rules (buildACLPolicy (cfg st) (sdb st))) = true
  ↔ ∃ r, r ∈ acl_rules (sdb st) ∧ covers (sdb st) v6 r p.
Proof.
  intros Hm Hda Hs Hd. unfold buildACLPolicy. rewrite Hda. cbn [ap_Rules]. rewrite existsb_exists.
  setoid_rewrite <-list_elem_of_In. setoid_rewrite list_elem_of_omap. unfold ListACLRules.
  split.
  - intros (x & (y & Hy & Hx) & Ha). apply list_elem_of_fmap in Hy as (r & -> & Hr).
    apply policy_rule_spec in Hx as (H1 & H2 & H3 & H4 & H5); [|apply Hm].
    unfold allows in Ha. apply andb_prop in Ha as [[A1 A2]%andb_prop A3]. rewrite H3, H4, H5 in A3.
    exists r. split; [done|]. split_and!; [|  |done].
    + by apply (end_rendered_covers st v6 _ _ _ _ Hm Hs H1).
    + by apply (end_rendered_covers st v6 _ _ _ _ Hm Hd H2).
  - intros (r & Hr & C1 & C2 & C3).
    assert (∀ o a, end_covers (sdb st) v6 o a → ∃ ip ip6, endpoint_rendered (sdb st) o ip ip6) as Hrend.
    { intros [i|] a; simpl; [intros (q & ? & ? & ? & _); eauto 10|eauto]. }
    destruct (Hrend _ _ C1) as (s4 & s6 & R1), (Hrend _ _ C2) as (d4 & d6 & R2).
    set (x := mkProtoRule s4 s6 d4 d6 (r_protocol r) (default 0 (r_port_min r)) (default 0 (r_port_max r))).
    exists x. split.
    + exists (rule_info (sdb st) r). split; [by apply list_elem_of_fmap_2|]. apply policy_rule_spec; [apply Hm|done].
    + unfold allows. rewrite !andb_true_iff. split_and!; [..|exact C3].
      * by apply (end_rendered_covers st v6 _ _ _ _ Hm Hs R1).
      * by apply (end_rendered_covers st v6 _ _ _ _ Hm Hd R2).
Qed.

Definition binary (v6 : bool) : string := if v6 then "ip6tables" else "iptables".

(** C13: the policy is enforced as stored.  When the agent has applied the policy
    of a default-deny mesh, each of its chains, for both families, accepts
    exactly the packets of established connections and those that some stored
    rule covers, with the rule's ends being active peers at their current
    addresses and the service of the rule; everything else is dropped. *)
Theorem acl_enforced T `{IpTablesLaws T} st iface (t t' : T) v6 ch p :
  mesh_ok st → DefaultAllow (cfg st) = false → pk_src p ≠ "" → pk_dst p ≠ "" → ch ∈ aclChains →
  applyOverlayACL_linux iface (Some (buildACLPolicy (cfg st) (sdb st))) t = (true, t') →
  ∃ rs, ipt_view t' !! (binary v6, "filter", ch) = Some rs
    ∧ (verdict rs p = Some "ACCEPT"
       ↔ pk_established p = true ∨ ∃ r, r ∈ acl_rules (sdb st) ∧ covers (sdb st) v6 r p)
    ∧ (verdict rs p ≠ Some "ACCEPT" → verdict rs p = Some "DROP").
Proof.
  intros Hm Hda Hs Hd Hch Hrun. unfold applyOverlayACL_linux in Hrun.
  rewrite decide_True in Hrun by (unfold buildACLPolicy; by rewrite Hda).
  set (rules := ap_Rules _) in Hrun.
  destruct (applyOverlayACLFamily "iptables" iface rules false t) as [[] t1] eqn:E1; [|done].
  exists (established :: omap (λ r, aclRuleArgs r v6) rules ++ [drop_all]). split.
  - destruct v6; [by apply (family_chains "ip6tables" iface rules true t1 t' Hrun ch Hch)|].
    pose proof (family_other "ip6tables" "iptables" iface rules true t1 ("filter", ch) ltac:(done)) as Hf.
    rewrite Hrun in Hf. cbn [fst snd] in Hf. cbn [binary]. rewrite Hf.
    by apply (family_chains "iptables" iface rules false t t1 E1 ch Hch).
  - rewrite verdict_chain, matches_rules by (done || (intros r (x & _ & Hx)%list_elem_of_omap; by eapply args_target)).
    rewrite <-(policy_covers st v6 p Hm Hda Hs Hd). fold rules.
    destruct (pk_established p), (existsb _ rules); cbn; split; try done; naive_solver.
Qed.

(** ** A run on an empty filter *)
Definition empty_filter : tables :=
  list_to_map ((λ k, (k, [])) <$>
    [("iptables", "filter", "INPUT"); ("iptables", "filter", "OUTPUT"); ("iptables", "filter", "FORWARD");
     ("ip6tables", "filter", "INPUT"); ("ip6tables", "filter", "OUTPUT"); ("ip6tables", "filter", "FORWARD");
     ("iptables", "nat", "POSTROUTING"); ("ip6tables", "nat", "POSTROUTING")]).
Definition ex_filter : tables :=
  (applyOverlayACL_linux "wg-int" (Some (buildACLPolicy (cfg sample_run) (sdb sample_run))) empty_filter).2.
Definition ssh_packet (port : Z) : packet := mkPacket "100.64.0.1" "100.64.0.2" "tcp" port false.

Lemma acl_enforced_witness :
  ∃ rs, ipt_view ex_filter !! ("iptables", "filter", aclInChain) = Some rs
    ∧ (verdict rs (ssh_packet 22) = Some "ACCEPT"
       ↔ false = true ∨ ∃ r, r ∈ acl_rules (sdb sample_run) ∧ covers (sdb sample_run) false r (ssh_packet 22))
    ∧ verdict rs (ssh_packet 22) = Some "ACCEPT" ∧ verdict rs (ssh_packet 23) = Some "DROP".
Proof.
  destruct (acl_enforced tables sample_run "wg-int" empty_filter ex_filter false aclInChain (ssh_packet 22))
    as (rs & H1 & H2 & _).
  - exact sample_mesh.
  - vm_compute. reflexivity.
  - discriminate.
  - discriminate.
  - left.
  - unfold ex_filter. destruct (applyOverlayACL_linux _ _ empty_filter) as [[] t] eqn:E; [reflexivity|].
    apply (f_equal fst) in E. vm_compute in E. discriminate.
  - exists rs. split; [exact H1|]. split; [exact H2|].
    assert (rs = default [] (ipt_view ex_filter !! ("iptables", "filter", aclInChain))) as ->
      by (change "iptables" with (binary false); by rewrite H1).
    clear H1 H2. split; vm_compute; reflexivity.
Defined.

(** ** While the chains are rebuilt

    The chains are flushed before the rules come back one by one: a run that is
    stopped by a failing command leaves chains without their final drop, and
    packets fall through to whatever the base chain does. *)
Lemma acl_open_while_rebuilding p :
  let broken := (must "iptables" ((λ ch, ["-F"; ch]) <$> aclChains) ex_filter).2 in
  ∃ rs, ipt_view broken !! ("iptables", "filter", aclInChain) = Some rs ∧ verdict rs p = None.
Proof. exists []. split; [vm_compute; reflexivity|done]. Qed.
