(* ===== verification/HostNet.v ===== *)
(** * The Linux host's forwarding state

    cmd/agent/gateway_linux.go and cmd/agent/exitnode_linux.go: forwarding,
    masquerading and policy routing for gateways and for both ends of an exit
    node, over the packet filter ([IpTables]), the sysctl files and the routing
    tables of the kernel ([NetHost]). *)
From S2P Require Import Prelude GoText NetAddr IpTables.
From Stdlib Require Import Ascii.

(** ** What the agent relies on *)

(** A policy rule and a route of the kernel, as far as the agent sets them. *)
Inductive family : Type := FamilyV4 | FamilyV6.
#[export] Instance family_eq_dec : EqDecision family.
Proof. solve_decision. Defined.
#[export] Instance family_countable : Countable family.
Proof.
  refine (inj_countable' (λ f, match f with FamilyV4 => true | FamilyV6 => false end)
            (λ b, if b : bool then FamilyV4 else FamilyV6) _). by intros [].
Defined.
Record IpRule : Type := mkIpRule {
  ir_Family : family; ir_Priority : Z; ir_Table : Z; ir_Mark : Z; ir_Invert : bool;
  ir_SuppressPrefixlen : option Z
}.
#[export] Instance IpRule_eq_dec : EqDecision IpRule.
Proof. solve_decision. Defined.
#[export] Instance IpRule_countable : Countable IpRule.
Proof.
  refine (inj_countable' (λ r, (ir_Family r, ir_Priority r, ir_Table r, ir_Mark r, ir_Invert r, ir_SuppressPrefixlen r))
            (λ '(a, b, c, d, e, f), mkIpRule a b c d e f) _). by intros [].
Defined.
(** A default route of a table, and the link it leaves through. *)
Record Net : Type := mkNet { n_rules : gset IpRule; n_defaults : gmap (family * Z) Z }.

Inductive answer : Type := Done | Exists | Failed.

Class NetHost (T : Type) : Type := {
  nh_read : string → T → option string;
  nh_write : string → string → T → bool * T;
  nh_list : string → list string → T → option string;
  nh_link : string → T → option Z;
  nh_route_replace : family → Z → Z → T → bool * T;
  nh_rule_add : IpRule → T → answer * T;
  nh_rule_del : IpRule → T → answer * T;
  nh_routes_flush : family → Z → T → T;
  nh_net : T → Net
}.

Fixpoint str_contains (s w : string) : bool :=
  match s with
  | EmptyString => bool_decide (w = "")
  | String _ s' => bool_decide (is_Some (CutPrefix s w)) || str_contains s' w
  end.
(** Lines of a listing that mention a word: those of the rules that do. *)
Definition mentions (w : string) (r : rule) : bool := existsb (λ x, str_contains x w) r.
Definition rule_lines (ch out : string) : list string :=
  filter (λ l, is_Some (CutPrefix l ("-A " +:+ ch))) (Split out "010").

(** Files, routes and policy rules leave the filter alone and vice versa; a
    listing has a line for each rule of FORWARD, in order, which mentions the
    agent's own chain and comment exactly where the rule does; adding and
    deleting policy rules and replacing routes do what they say. *)
Class NetHostLaws (T : Type) `{IpTables T, NetHost T} : Prop := {
  nh_write_view f s t : ipt_view (nh_write f s t).2 = ipt_view t ∧ nh_net (nh_write f s t).2 = nh_net t;
  nh_run_net bin args t : nh_net (ipt_run bin args t).2 = nh_net t;
  nh_list_lines bin t out :
    nh_list bin ["-S"; "FORWARD"] t = Some out →
    (λ l, str_contains l "WGMESH-EXIT") <$> rule_lines "FORWARD" out
    = mentions "WGMESH-EXIT" <$> default [] (ipt_view t !! (bin, "filter", "FORWARD"));
  nh_route_done fam table link t t' :
    nh_route_replace fam table link t = (true, t') →
    nh_net t' = mkNet (n_rules (nh_net t)) (<[(fam, table) := link]> (n_defaults (nh_net t)));
  nh_route_failed fam table link t t' : nh_route_replace fam table link t = (false, t') → nh_net t' = nh_net t;
  nh_rule_add_done r t t' :
    nh_rule_add r t = (Done, t') → nh_net t' = mkNet ({[r]} ∪ n_rules (nh_net t)) (n_defaults (nh_net t));
  nh_rule_add_exists r t t' : nh_rule_add r t = (Exists, t') → nh_net t' = nh_net t ∧ r ∈ n_rules (nh_net t);
  nh_rule_add_failed r t t' : nh_rule_add r t = (Failed, t') → nh_net t' = nh_net t
}.

(** ** Forwarding *)
Section host.
Context {T : Type} `{IpTables T, NetHost T}.

Definition ensureForwarding (path : string) (t : T) : bool * T :=
  match nh_read path t with
  | Some current => if decide (TrimSpace current = "1") then (true, t) else nh_write path (String "1" (String "010" "")) t
  | None => nh_write path (String "1" (String "010" "")) t
  end.
Definition ip4_forward : string := "/proc/sys/net/ipv4/ip_forward".
Definition ip6_forward : string := "/proc/sys/net/ipv6/conf/all/forwarding".

(** The command line for a rule that may name its table first. *)
Definition with_cmd (cmd : string) (r : rule) : list string :=
  match r with
  | "-t" :: table :: rest => "-t" :: table :: cmd :: rest
  | _ => cmd :: r
  end.

Definition ensureTablesRule (bin : string) (r : rule) (t : T) : bool * T :=
  let '(found, t) := ipt_run bin (with_cmd "-C" r) t in
  if found then (true, t) else ipt_run bin (with_cmd "-I" r) t.

(** Repeats until a deletion fails; [fuel] bounds the repetitions. *)
Fixpoint deleteTablesRule (fuel : nat) (bin : string) (r : rule) (t : T) : option T :=
  match fuel with
  | O => None
  | S fuel =>
      let '(ok, t) := ipt_run bin (with_cmd "-D" r) t in
      if ok then deleteTablesRule fuel bin r t else Some t
  end.

(** ** Gateways *)
Definition gatewayRuleComment : string := "wgmesh-gateway".
Definition gatewayForwardRules (iface : string) : list rule :=
  [["FORWARD"; "-i"; iface; "-m"; "comment"; "--comment"; gatewayRuleComment; "-j"; "ACCEPT"];
   ["FORWARD"; "-o"; iface; "-m"; "comment"; "--comment"; gatewayRuleComment; "-j"; "ACCEPT"]].
Definition gatewayNATRule (iface : string) (cidr : Prefix) : rule :=
  ["-t"; "nat"; "POSTROUTING"; "-s"; prefix_string cidr; "-o"; iface; "-m"; "comment"; "--comment";
   gatewayRuleComment; "-j"; "MASQUERADE"].
Definition gatewayNeedsIPv6 (routes : list string) : bool := existsb (λ r, str_contains r ":") routes.

(** Stops at the first rule that cannot be installed. *)
Fixpoint ensure_rules (bin : string) (rs : list rule) (t : T) : bool * T :=
  match rs with
  | [] => (true, t)
  | r :: rs => let '(ok, t) := ensureTablesRule bin r t in if ok then ensure_rules bin rs t else (false, t)
  end.
Fixpoint delete_rules (fuel : nat) (bin : string) (rs : list rule) (t : T) : option T :=
  match rs with
  | [] => Some t
  | r :: rs => t ← deleteTablesRule fuel bin r t; delete_rules fuel bin rs t
  end.

(** The answer, the flag and the host; [None] only when [fuel] runs out. *)
Definition applyGatewayRoutes_linux (fuel : nat) (iface : string) (routes : list string) (enabled : bool) (t : T)
  : option (bool * bool * T) :=
  match routes with
  | [] =>
      if enabled then t ← delete_rules fuel "iptables" (gatewayForwardRules iface) t; Some (true, false, t)
      else Some (true, enabled, t)
  | _ =>
      let t := (ensureForwarding ip4_forward t).2 in
      let t := if gatewayNeedsIPv6 routes then (ensureForwarding ip6_forward t).2 else t in
      let '(ok, t) := ensure_rules "iptables" (gatewayForwardRules iface) t in
      Some (ok, if ok then true else enabled, t)
  end.

Definition ensureGatewayNATRules (iface : string) (cidrs : list Prefix) (t : T) : bool * T :=
  ensure_rules "iptables" (gatewayForwardRules iface ++ (gatewayNATRule iface <$> cidrs)) t.

(** One entry of the flag; an address is its own /32. *)
Definition gateway_cidr (part : string) : result Prefix :=
  match ParsePrefix part with
  | Some p => Ok p
  | None =>
      match ParseAddr part with
      | None => Err (ErrMsg ("parse gateway NAT CIDR " +:+ part))
      | Some a => if Is4 a then Ok (mkPrefix a 32)
                  else Err (ErrMsg ("gateway NAT only supports IPv4, got " +:+ addr_string a))
      end
  end.
Fixpoint gateway_cidrs (seen : list string) (parts : list string) : result (list Prefix) :=
  match parts with
  | [] => Ok []
  | part :: parts =>
      let part := TrimSpace part in
      if decide (part = "") then gateway_cidrs seen parts
      else
        p ← gateway_cidr part;
        let p := Masked p in
        if negb (Is4 (paddr p)) then Err (ErrMsg ("gateway NAT only supports IPv4, got " +:+ prefix_string p))
        else if decide (prefix_string p ∈ seen) then gateway_cidrs seen parts
        else rest ← gateway_cidrs (prefix_string p :: seen) parts; Ok (p :: rest)
  end.
Definition parseGatewayNATCIDRs (raw : string) : result (list Prefix) :=
  let raw := TrimSpace raw in
  if decide (raw = "") then Ok [] else gateway_cidrs [] (Split raw ",").

Definition refreshGatewayNAT_linux (iface rawCIDRs : string) (t : T) : bool * T :=
  match parseGatewayNATCIDRs rawCIDRs with
  | Err _ => (false, t)
  | Ok [] => (true, t)
  | Ok cidrs => ensureGatewayNATRules iface cidrs t
  end.
Definition enableGatewayNAT (iface rawCIDRs : string) (t : T) : bool * T :=
  match parseGatewayNATCIDRs rawCIDRs with
  | Err _ => (false, t)
  | Ok [] => (true, t)
  | Ok cidrs => ensureGatewayNATRules iface cidrs (ensureForwarding ip4_forward t).2
  end.

(** What the function returned by [enableGatewayNAT] undoes. *)
Definition gateway_cleanup (fuel : nat) (iface : string) (cidrs : list Prefix) (t : T) : option T :=
  delete_rules fuel "iptables" ((gatewayNATRule iface <$> cidrs) ++ gatewayForwardRules iface) t.

(** ** Exit nodes: the exit's side *)
Definition exitChain : string := "WGMESH-EXIT".
Definition exitRuleComment : string := "wgmesh-exit".
Definition exitChainRules (iface cidr : string) : list rule :=
  [[exitChain; "-i"; iface; "!"; "-o"; iface; "-s"; cidr; "-j"; "ACCEPT"];
   [exitChain; "!"; "-i"; iface; "-o"; iface; "-d"; cidr; "-m"; "conntrack"; "--ctstate";
    "RELATED,ESTABLISHED"; "-j"; "ACCEPT"]].
Definition exitNATRule (iface cidr : string) : rule :=
  ["-t"; "nat"; "POSTROUTING"; "-s"; cidr; "!"; "-o"; iface; "-m"; "comment"; "--comment"; exitRuleComment;
   "-j"; "MASQUERADE"].

(** The first rule of FORWARD, by its line in the listing. *)
Definition ensureExitJumpFirst (fuel : nat) (bin : string) (t : T) : option (bool * T) :=
  match nh_list bin ["-S"; "FORWARD"] t with
  | None => Some (false, t)
  | Some out =>
      let first := default "" (head (rule_lines "FORWARD" out)) in
      if str_contains first exitChain then Some (true, t)
      else
        t ← deleteTablesRule fuel bin ["FORWARD"; "-j"; exitChain] t;
        Some (ipt_run bin ["-I"; "FORWARD"; "1"; "-j"; exitChain] t)
  end.

Definition ensureExitNATFamily (fuel : nat) (bin iface : string) (overlay : Prefix) (t : T) : option (bool * T) :=
  if negb (prefix_valid overlay) then Some (true, t)
  else
    let cidr := prefix_string (Masked overlay) in
    let t := (ipt_run bin ["-N"; exitChain] t).2 in
    let '(ok, t) := ensure_rules bin (exitChainRules iface cidr) t in
    if negb ok then Some (false, t)
    else
      '(ok, t) ← ensureExitJumpFirst fuel bin t;
      if negb ok then Some (false, t) else Some (ensureTablesRule bin (exitNATRule iface cidr) t).

(** [strings.Fields] on a line of the listing, as far as blanks separate. *)
Definition Fields (s : string) : list string := filter (λ x, x ≠ "") (Split s " ").
Definition teardown_line (bin line : string) (t : T) : T :=
  if negb (str_contains line exitRuleComment) then t
  else match Fields line with
       | "-A" :: a :: rest => (ipt_run bin ("-t" :: "nat" :: "-D" :: a :: rest) t).2
       | _ => t
       end.
Definition teardown_bin (fuel : nat) (bin : string) (t : T) : option T :=
  t ← deleteTablesRule fuel bin ["FORWARD"; "-j"; exitChain] t;
  let t := match nh_list bin ["-t"; "nat"; "-S"; "POSTROUTING"] t with
           | Some out => foldl (λ t l, teardown_line bin l t) t (Split out "010")
           | None => t
           end in
  Some (attempt bin [["-F"; exitChain]; ["-X"; exitChain]] t).
Definition teardownExitNAT (fuel : nat) (t : T) : option T :=
  t ← teardown_bin fuel "iptables" t; teardown_bin fuel "ip6tables" t.

Definition applyExitNodeNAT_linux (fuel : nat) (iface : string) (active : bool) (net4 net6 : Prefix)
    (enabled : bool) (t : T) : option (bool * bool * T) :=
  if negb active then
    if enabled then t ← teardownExitNAT fuel t; Some (true, false, t) else Some (true, enabled, t)
  else
    let t := (ensureForwarding ip4_forward t).2 in
    let t := if prefix_valid net6 then (ensureForwarding ip6_forward t).2 else t in
    '(ok, t) ← ensureExitNATFamily fuel "iptables" iface net4 t;
    if negb ok then Some (false, enabled, t)
    else
      '(ok, t) ← (if prefix_valid net6 then ensureExitNATFamily fuel "ip6tables" iface net6 t else Some (true, t));
      Some (ok, if ok : bool then true else enabled, t).

(** ** Exit nodes: the client's side *)
Definition exitFwmark : Z := 51821.
Definition exitRouteTable : Z := 51821.
Definition exitRulePrefSuppress : Z := 32764.
Definition exitRulePrefFwmark : Z := 32765.
Definition mainTable : Z := 254.
Definition exitSuppressRule (f : family) : IpRule := mkIpRule f exitRulePrefSuppress mainTable 0 false (Some 0).
Definition exitFwmarkRule (f : family) : IpRule := mkIpRule f exitRulePrefFwmark exitRouteTable exitFwmark true None.
Definition exitFamilies (v6 : bool) : list family := if v6 then [FamilyV4; FamilyV6] else [FamilyV4].

(** A rule that is there already is as good as added. *)
Fixpoint add_rules (rs : list IpRule) (t : T) : bool * T :=
  match rs with
  | [] => (true, t)
  | r :: rs =>
      match nh_rule_add r t with
      | (Failed, t) => (false, t)
      | (_, t) => add_rules rs t
      end
  end.
Fixpoint exit_families (link : Z) (fs : list family) (t : T) : bool * T :=
  match fs with
  | [] => (true, t)
  | f :: fs =>
      let '(ok, t) := nh_route_replace f exitRouteTable link t in
      if negb ok then (false, t)
      else let '(ok, t) := add_rules [exitSuppressRule f; exitFwmarkRule f] t in
           if ok then exit_families link fs t else (false, t)
  end.
Definition teardownExitRoutes (t : T) : T :=
  foldl (λ t f, nh_routes_flush f exitRouteTable
                  (nh_rule_del (exitSuppressRule f) (nh_rule_del (exitFwmarkRule f) t).2).2)
    t [FamilyV4; FamilyV6].
Definition applyExitRoutes_linux (iface : string) (active v6 enabled : bool) (t : T) : bool * bool * T :=
  if negb active then
    if enabled then (true, false, teardownExitRoutes t) else (true, enabled, t)
  else match nh_link iface t with
       | None => (false, enabled, t)
       | Some link =>
           let t := (ensureForwarding "/proc/sys/net/ipv4/conf/all/src_valid_mark" t).2 in
           let '(ok, t) := exit_families link (exitFamilies v6) t in
           (ok, if ok then true else enabled, t)
       end.
Definition cleanupExitState (fuel : nat) (t : T) : option T := teardownExitNAT fuel (teardownExitRoutes t).
End host.
