(* ===== verification/HostNetFacts.v ===== *)
(** * Facts about the host's forwarding state

    Deleting a rule ends, after as many commands as the chain holds copies of
    it; once an exit node has been set up its accepts come before every other
    rule of FORWARD, the access rules' final DROP included; and the policy
    routing of a client sends exactly its unmarked default traffic through the
    tunnel. *)
From S2P Require Import Prelude GoText NetAddr IpTables OverlayAcl HostNet.
From Stdlib Require Import Ascii.

(** ** Rules in their chains *)

(** The table, chain and arguments a rule stands for; [insertable] rules do not
    start with a number, which [-I] would take for a position. *)
Definition place (r : rule) : option (string * string * rule) :=
  match r with
  | "-t" :: tb :: ch :: rest => Some (tb, ch, rest)
  | "-t" :: _ => None
  | ch :: rest => Some ("filter", ch, rest)
  | [] => None
  end.
Definition insertable (rest : rule) : Prop :=
  match rest with n :: _ => digits n = None | [] => False end.
Definition copies (r : rule) (rs : list rule) : nat := length (filter (λ x, x = r) rs).

Lemma copies_remove r rs :
  match remove_first r rs with
  | Some rs' => copies r rs = S (copies r rs') ∧ (∀ x, x ≠ r → filter (λ y, y = x) rs' = filter (λ y, y = x) rs)
  | None => copies r rs = 0%nat
  end.
Proof.
  unfold copies. induction rs as [|x rs IH]; cbn [remove_first]; [done|].
  destruct (decide (x = r)) as [->|Hx].
  - rewrite filter_cons_True by done. split; [done|].
    intros y Hy. by rewrite (filter_cons_False _ r) by congruence.
  - rewrite filter_cons_False by done. destruct (remove_first r rs) as [rs'|]; simpl; [|done].
    destruct IH as [IH1 IH2]. rewrite filter_cons_False by done. split; [done|].
    intros y Hy. rewrite !filter_cons. case_decide; [f_equal|]; auto.
Qed.

Lemma place_cmd cmd r tb ch rest :
  place r = Some (tb, ch, rest) → cmd ≠ "-t" → parse_args (with_cmd cmd r) = pair tb <$> parse_cmd (cmd :: ch :: rest).
Proof.
  intros Hp Hc. unfold place in Hp. unfold with_cmd.
  repeat (case_match; simplify_eq; try done).
  all: unfold parse_args; repeat (case_match; simplify_eq; try done).
Qed.

(** ** Policy routing

    How the kernel picks the table of a packet: among the rules of its family
    that match its mark and whose table has a route for it, of a length the
    rule does not suppress, one of least priority.  [best] is the length of the
    longest match of the packet's destination in each table. *)
Definition rule_matches (r : IpRule) (f : family) (mark : Z) : Prop :=
  ir_Family r = f ∧ (if ir_Invert r then mark ≠ ir_Mark r else ir_Mark r = 0 ∨ mark = ir_Mark r).
Definition rule_resolves (r : IpRule) (best : Z → option Z) : Prop :=
  ∃ n, best (ir_Table r) = Some n ∧ ∀ s, ir_SuppressPrefixlen r = Some s → s < n.
Definition chosen (rs : gset IpRule) (f : family) (mark : Z) (best : Z → option Z) (r : IpRule) : Prop :=
  r ∈ rs ∧ rule_matches r f mark ∧ rule_resolves r best
  ∧ ∀ r', r' ∈ rs → rule_matches r' f mark → rule_resolves r' best → ir_Priority r ≤ ir_Priority r'.

(** The main table has more than a default route for the packet. *)
Definition specific (best : Z → option Z) : bool :=
  match best mainTable with Some n => bool_decide (0 < n) | None => false end.

Definition exit_rules (fs : list family) : gset IpRule :=
  list_to_set (fs ≫= λ f, [exitSuppressRule f; exitFwmarkRule f]).
Lemma elem_of_exit_rules r fs :
  r ∈ exit_rules fs ↔ ∃ f, f ∈ fs ∧ (r = exitSuppressRule f ∨ r = exitFwmarkRule f).
Proof. unfold exit_rules. rewrite elem_of_list_to_set, list_elem_of_bind. set_solver. Qed.

(** A rule of the agent's, or one that does not interfere with them. *)
Definition foreign (best : Z → option Z) (r : IpRule) : Prop :=
  r = exitFwmarkRule (ir_Family r) ∨ r = exitSuppressRule (ir_Family r)
  ∨ (ir_Table r ≠ exitRouteTable ∧ (ir_Priority r ≤ exitRulePrefFwmark → ¬ rule_resolves r best)).
Lemma suppress_resolves f best : rule_resolves (exitSuppressRule f) best ↔ specific best = true.
Proof.
  unfold rule_resolves, specific. cbn. split.
  - intros (n & -> & Hs). apply bool_decide_eq_true. by apply Hs.
  - destruct (best mainTable) as [n|]; [|done]. intros Hn%bool_decide_eq_true. exists n. split; [done|].
    by intros s [= <-].
Qed.
Lemma fwmark_resolves f best : best exitRouteTable = Some 0 → rule_resolves (exitFwmarkRule f) best.
Proof. intros Hb. exists 0. by split. Qed.
Lemma marked_avoids rs f best :
  (∀ r, r ∈ rs → foreign best r) → ∀ r, chosen rs f exitFwmark best r → ir_Table r ≠ exitRouteTable.
Proof.
  intros Hall r (Hin & [Hf Hm] & _). destruct (Hall r Hin) as [Hr|[Hr|[Hr _]]]; [| |done].
  - rewrite Hr in Hm. cbn in Hm. done.
  - by rewrite Hr.
Qed.
Lemma unmarked_choice rs f best mark r :
  (∀ r, r ∈ rs → foreign best r) → exitSuppressRule f ∈ rs → exitFwmarkRule f ∈ rs →
  best exitRouteTable = Some 0 → mark ≠ exitFwmark →
  chosen rs f mark best r ↔ r = if specific best then exitSuppressRule f else exitFwmarkRule f.
Proof.
  intros Hall Hs Hw Hb Hm.
  pose proof (fwmark_resolves f best Hb) as Hrw. pose proof (suppress_resolves f best) as Hrs.
  assert (rule_matches (exitSuppressRule f) f mark) as Hms by (split; [done|by left]).
  assert (rule_matches (exitFwmarkRule f) f mark) as Hmw by (by split).
  split.
  - intros (Hin & [Hf Hmr] & Hres & Hleast). destruct (Hall r Hin) as [Hr|[Hr|[_ Hr]]].
    + rewrite Hf in Hr. subst r. destruct (specific best); [|done].
      specialize (Hleast _ Hs Hms (proj2 Hrs eq_refl)). by vm_compute in Hleast.
    + rewrite Hf in Hr. subst r. destruct (specific best) eqn:E; [done|]. by apply Hrs in Hres.
    + exfalso. apply Hr; [|done]. by apply (Hleast _ Hw Hmw Hrw).
  - assert (∀ r', r' ∈ rs → rule_matches r' f mark → rule_resolves r' best →
              exitRulePrefSuppress ≤ ir_Priority r' ∧ (specific best = false → exitRulePrefFwmark ≤ ir_Priority r'))
      as Hmin.
    { intros r' Hin' [Hf' _] Hres'. destruct (Hall r' Hin') as [Hr|[Hr|[_ Hr]]].
      - rewrite Hr. by vm_compute.
      - rewrite Hr in Hres' |- *. apply suppress_resolves in Hres'. rewrite Hres'. by vm_compute.
      - destruct (decide (ir_Priority r' ≤ exitRulePrefFwmark)) as [Hle|]; [by apply Hr in Hres'|].
        unfold exitRulePrefSuppress, exitRulePrefFwmark in *. lia. }
    intros ->. destruct (specific best) eqn:E; split_and!; auto; try (by apply Hrs);
      intros r' H1 H2 H3; by apply (Hmin r' H1 H2 H3).
Qed.

(** ** Chains and rules of a host *)
Section host.
Context {T : Type} {I : IpTables T} {IL : IpTablesLaws T}.
Implicit Types (t : T).

(** The rules of a chain that exists or not. *)
Definition chain (bin tb ch : string) t : list rule := default [] (ipt_view t !! (bin, tb, ch)).

Lemma delete_cmd r tb ch rest :
  place r = Some (tb, ch, rest) → parse_args (with_cmd "-D" r) = Some (tb, DeleteRule ch rest).
Proof using. intros Hp. by rewrite (place_cmd _ _ _ _ _ Hp). Qed.
Lemma check_cmd r tb ch rest :
  place r = Some (tb, ch, rest) → parse_args (with_cmd "-C" r) = Some (tb, CheckRule ch rest).
Proof using. intros Hp. by rewrite (place_cmd _ _ _ _ _ Hp). Qed.
Lemma insert_cmd r tb ch rest :
  place r = Some (tb, ch, rest) → insertable rest → parse_args (with_cmd "-I" r) = Some (tb, Insert ch 0 rest).
Proof using.
  intros Hp Hi. rewrite (place_cmd _ _ _ _ _ Hp) by done. destruct rest as [|n rest]; [done|].
  cbn [insertable] in Hi. cbn. by rewrite Hi.
Qed.

(** One deletion: a copy fewer, or nothing. *)
Lemma delete_step bin r tb ch rest t t' :
  place r = Some (tb, ch, rest) →
  ipt_run bin (with_cmd "-D" r) t = (true, t') →
  copies rest (chain bin tb ch t) = S (copies rest (chain bin tb ch t'))
  ∧ (∀ x, x ≠ rest → filter (λ y, y = x) (chain bin tb ch t') = filter (λ y, y = x) (chain bin tb ch t))
  ∧ (∀ k, k ≠ (bin, tb, ch) → ipt_view t' !! k = ipt_view t !! k)
  ∧ (is_Some (ipt_view t' !! (bin, tb, ch)) ↔ is_Some (ipt_view t !! (bin, tb, ch))).
Proof using IL.
  intros Hp H%ipt_done. unfold iptables in H. rewrite (delete_cmd _ _ _ _ Hp) in H.
  cbn [mbind option_bind effect] in H. unfold chain.
  destruct (ipt_view t !! (bin, tb, ch)) as [rs|] eqn:E; [|done]. cbn [mbind option_bind] in H.
  pose proof (copies_remove rest rs) as Hc. destruct (remove_first rest rs) as [rs'|]; [|done].
  cbn [mbind option_bind] in H. injection H as <-. rewrite lookup_insert_eq. cbn [default from_option id].
  destruct Hc as [Hc1 Hc2]. split_and!; [done|done| |split; eauto].
  intros k Hk. by rewrite lookup_insert_ne.
Qed.

(** The loop ends: with more fuel than there are copies it returns; what it
    leaves is the chain less some copies, all of them when the last command
    found none. *)
Lemma delete_loop bin r tb ch rest fuel t :
  place r = Some (tb, ch, rest) →
  (copies rest (chain bin tb ch t) < fuel)%nat →
  ∃ t', deleteTablesRule fuel bin r t = Some t'
    ∧ (copies rest (chain bin tb ch t') ≤ copies rest (chain bin tb ch t))%nat
    ∧ (∀ x, x ≠ rest → filter (λ y, y = x) (chain bin tb ch t') = filter (λ y, y = x) (chain bin tb ch t))
    ∧ (∀ k, k ≠ (bin, tb, ch) → ipt_view t' !! k = ipt_view t !! k)
    ∧ (is_Some (ipt_view t' !! (bin, tb, ch)) ↔ is_Some (ipt_view t !! (bin, tb, ch)))
    ∧ ((∀ args s s', ipt_run bin args s = (false, s') → iptables bin args (ipt_view s) = None) →
       rest ∉ chain bin tb ch t').
Proof using IL.
  intros Hp. revert t. induction fuel as [|fuel IH]; intros t Hf; [lia|].
  cbn [deleteTablesRule]. destruct (ipt_run bin (with_cmd "-D" r) t) as [[] t1] eqn:E.
  - destruct (delete_step _ _ _ _ _ _ _ Hp E) as (H1 & H2 & H3 & H4).
    destruct (IH t1) as (t' & -> & K1 & K2 & K3 & K4 & K5); [lia|].
    exists t'. split_and!; [done|lia| | |by rewrite K4|done].
    + intros x Hx. by rewrite K2, H2.
    + intros k Hk. by rewrite K3, H3.
  - exists t1. pose proof (ipt_failed _ _ _ _ E) as Hv.
    unfold chain. rewrite Hv. split_and!; try done.
    intros Hreal. apply Hreal in E. unfold iptables in E. rewrite (delete_cmd _ _ _ _ Hp) in E.
    cbn [mbind option_bind effect] in E. destruct (ipt_view t !! (bin, tb, ch)) as [rs|]; [|apply not_elem_of_nil].
    cbn [mbind option_bind default from_option id] in *.
    pose proof (copies_remove rest rs) as Hc. destruct (remove_first rest rs); [done|].
    intros Hin. unfold copies in Hc. apply length_zero_iff_nil in Hc.
    assert (rest ∈ filter (λ x, x = rest) rs) as Hx by (by apply list_elem_of_filter). rewrite Hc in Hx.
    by apply not_elem_of_nil in Hx.
Qed.

(** Ensuring a rule: it is there, and nothing that was there is gone. *)
Definition grows t t' : Prop :=
  ∀ k rs, ipt_view t !! k = Some rs → ∃ rs', ipt_view t' !! k = Some rs' ∧ (∀ x, x ∈ rs → x ∈ rs').
Lemma grows_refl t : grows t t.
Proof using. intros k rs. eauto. Qed.
Lemma grows_trans t1 t2 t3 : grows t1 t2 → grows t2 t3 → grows t1 t3.
Proof using.
  intros H1 H2 k rs Hk. apply H1 in Hk as (rs1 & Hk & Hr1). apply H2 in Hk as (rs2 & Hk & Hr2). eauto.
Qed.
Lemma grows_view t t' : ipt_view t' = ipt_view t → grows t t'.
Proof using. intros Hv k rs. rewrite Hv. eauto. Qed.
Definition holds (bin : string) (r : rule) t : Prop :=
  ∃ tb ch rest rs, place r = Some (tb, ch, rest) ∧ ipt_view t !! (bin, tb, ch) = Some rs ∧ rest ∈ rs.
Lemma holds_grows bin r t t' : grows t t' → holds bin r t → holds bin r t'.
Proof using.
  intros Hg (tb & ch & rest & rs & Hp & Hk & Hin). apply Hg in Hk as (rs' & Hk & Hr).
  exists tb, ch, rest, rs'. auto.
Qed.

Lemma ensure_rule bin r tb ch rest t :
  place r = Some (tb, ch, rest) → insertable rest →
  (∀ k, k ≠ (bin, tb, ch) → ipt_view (ensureTablesRule bin r t).2 !! k = ipt_view t !! k)
  ∧ grows t (ensureTablesRule bin r t).2
  ∧ ((ensureTablesRule bin r t).1 = true → holds bin r (ensureTablesRule bin r t).2).
Proof using IL.
  intros Hp Hi. unfold ensureTablesRule.
  destruct (ipt_run bin (with_cmd "-C" r) t) as [[] t1] eqn:E.
  - cbn [fst snd]. apply ipt_done in E. unfold iptables in E. rewrite (check_cmd _ _ _ _ Hp) in E.
    cbn [mbind option_bind effect] in E. destruct (ipt_view t !! (bin, tb, ch)) as [rs|] eqn:Ek; [|done].
    cbn [mbind option_bind] in E. case_bool_decide; [|done]. injection E as E.
    split_and!; [intros k _; by rewrite E|by apply grows_view|]. intros _.
    exists tb, ch, rest, rs. by rewrite <- E.
  - apply ipt_failed in E. destruct (ipt_run bin (with_cmd "-I" r) t1) as [[] t2] eqn:E2; cbn [fst snd].
    + apply ipt_done in E2. unfold iptables in E2. rewrite E, (insert_cmd _ _ _ _ Hp Hi) in E2.
      cbn [mbind option_bind effect] in E2. destruct (ipt_view t !! (bin, tb, ch)) as [rs|] eqn:Ek; [|done].
      cbn [mbind option_bind] in E2. rewrite bool_decide_true in E2 by lia. rewrite take_0, drop_0 in E2.
      injection E2 as E2. rewrite <- E2. split_and!.
      * intros k Hk. by rewrite lookup_insert_ne.
      * intros k rs' Hk. rewrite <- E2. destruct (decide (k = (bin, tb, ch))) as [->|Hne].
        -- rewrite lookup_insert_eq. simplify_eq. eexists. split; [done|]. intros x Hx. by right.
        -- rewrite lookup_insert_ne by done. eauto.
      * intros _. exists tb, ch, rest, (rest :: rs). rewrite <- E2, lookup_insert_eq. split_and!; [done|done|by left].
    + apply ipt_failed in E2. assert (ipt_view t2 = ipt_view t) as Hv by congruence.
      split_and!; [intros k _; by rewrite Hv|by apply grows_view|done].
Qed.

(** All the rules of a list, in chains of one table among [homes]. *)
Definition well_placed (home : string * string) (r : rule) : Prop :=
  ∃ rest, place r = Some (home.1, home.2, rest) ∧ insertable rest.
Lemma ensure_rules_spec bin home rs t :
  Forall (well_placed home) rs →
  (∀ k, k ≠ (bin, home.1, home.2) → ipt_view (ensure_rules bin rs t).2 !! k = ipt_view t !! k)
  ∧ grows t (ensure_rules bin rs t).2
  ∧ ((ensure_rules bin rs t).1 = true → Forall (λ r, holds bin r (ensure_rules bin rs t).2) rs).
Proof using IL.
  intros Hw. revert t. induction Hw as [|r rs (rest & Hp & Hi) Hw IH]; intros t; cbn [ensure_rules].
  - split_and!; [done|apply grows_refl|constructor].
  - destruct (ensure_rule bin r _ _ _ t Hp Hi) as (H1 & H2 & H3).
    destruct (ensureTablesRule bin r t) as [[] t1]; cbn [fst snd] in *; [|by split_and!].
    destruct (IH t1) as (K1 & K2 & K3). split_and!.
    + intros k Hk. by rewrite K1, H1.
    + by eapply grows_trans.
    + intros Ho. constructor; [|auto]. eapply holds_grows; [done|auto].
Qed.

Section exit.
Context {N : NetHost T} {NL : NetHostLaws T}.

Definition exit_jump : rule := ["-j"; exitChain].
(** FORWARD starts with the jump to the exit chain. *)
Definition exit_first (bin : string) t : Prop :=
  ∃ rs, ipt_view t !! (bin, "filter", "FORWARD") = Some (exit_jump :: rs).
(** The chain's name is the agent's own: no other rule of FORWARD mentions it.
    The code looks for the name in the first line of the listing. *)
Definition own_name (bin : string) t : Prop :=
  ∀ r, r ∈ chain bin "filter" "FORWARD" t → mentions exitChain r = true → r = exit_jump.

Lemma jump_first_spec fuel bin t :
  (copies exit_jump (chain bin "filter" "FORWARD" t) < fuel)%nat → own_name bin t →
  ∃ ok t', ensureExitJumpFirst fuel bin t = Some (ok, t')
    ∧ (∀ k, k ≠ (bin, "filter", "FORWARD") → ipt_view t' !! k = ipt_view t !! k)
    ∧ (ok = true → exit_first bin t').
Proof using IL NL.
  intros Hf Hown. unfold ensureExitJumpFirst.
  destruct (nh_list bin ["-S"; "FORWARD"] t) as [out|] eqn:El; [|by eexists _, _].
  apply nh_list_lines in El. destruct (str_contains _ exitChain) eqn:Ec.
  - exists true, t. split_and!; [done|done|]. intros _. unfold exit_first. unfold own_name, chain in Hown.
    destruct (rule_lines "FORWARD" out) as [|l ls]; [done|]. cbn in Ec.
    destruct (ipt_view t !! (bin, "filter", "FORWARD")) as [[|r rs]|]; try done. exists rs.
    rewrite !fmap_cons in El. injection El as El _. rewrite (Hown r); [done|by left|].
    unfold exitChain in *. by rewrite <- El.
  - change ["FORWARD"; "-j"; exitChain] with ("FORWARD" :: exit_jump).
    destruct (delete_loop bin ("FORWARD" :: exit_jump) "filter" "FORWARD" exit_jump fuel t)
      as (t1 & -> & _ & _ & H3 & _ & _); [done|done|].
    cbn [mbind option_bind]. set (args := ["-I"; "FORWARD"; "1"; "-j"; exitChain]).
    destruct (ipt_run bin args t1) as [ok t'] eqn:E. exists ok, t'.
    assert (parse_args args = Some ("filter", Insert "FORWARD" 0 exit_jump)) as Hargs by reflexivity.
    split_and!; [done| |].
    + intros k Hk. replace t' with (ipt_run bin args t1).2 by (by rewrite E).
      rewrite run_frame; [by apply H3|]. rewrite Hargs. by intros ? ? [= <- <-].
    + intros ->. apply ipt_done in E. unfold iptables in E. rewrite Hargs in E. cbn [mbind option_bind effect] in E.
      destruct (ipt_view t1 !! (bin, "filter", "FORWARD")) as [rs|]; [|done].
      cbn [mbind option_bind] in E. rewrite bool_decide_true, take_0, drop_0 in E by lia. injection E as E.
      exists rs. by rewrite <- E, lookup_insert_eq.
Qed.

(** One family of an exit: FORWARD starts with the jump, the chain accepts both
    directions, the sources are masqueraded. *)
Definition exit_ready (bin iface : string) (overlay : Prefix) t : Prop :=
  exit_first bin t
  ∧ Forall (λ r, holds bin r t) (exitChainRules iface (prefix_string (Masked overlay)))
  ∧ holds bin (exitNATRule iface (prefix_string (Masked overlay))) t.

Lemma holds_frame bin r t t' tb ch rest :
  place r = Some (tb, ch, rest) → ipt_view t' !! (bin, tb, ch) = ipt_view t !! (bin, tb, ch) →
  holds bin r t → holds bin r t'.
Proof using.
  intros Hp Hv (tb' & ch' & rest' & rs & Hp' & Hk & Hin). simplify_eq. exists tb, ch, rest, rs. by rewrite Hv.
Qed.
Lemma exit_rules_placed iface cidr : Forall (well_placed ("filter", exitChain)) (exitChainRules iface cidr).
Proof using. repeat constructor; eexists; split; reflexivity. Qed.

Lemma exit_family_spec fuel bin iface overlay t :
  (copies exit_jump (chain bin "filter" "FORWARD" t) < fuel)%nat → own_name bin t →
  ∃ ok t', ensureExitNATFamily fuel bin iface overlay t = Some (ok, t')
    ∧ (∀ k, k.1.1 ≠ bin → ipt_view t' !! k = ipt_view t !! k)
    ∧ (ok = true → prefix_valid overlay = true → exit_ready bin iface overlay t').
Proof using IL NL.
  intros Hf Hown. unfold ensureExitNATFamily. destruct (prefix_valid overlay) eqn:Ev; cbn [negb]; [|by eexists _, _].
  set (cidr := prefix_string (Masked overlay)). set (t1 := (ipt_run bin ["-N"; exitChain] t).2).
  assert (∀ k, k ≠ (bin, "filter", exitChain) → ipt_view t1 !! k = ipt_view t !! k) as H1.
  { intros k Hk. unfold t1. apply run_frame. cbn. by intros ? ? [= <- <-]. }
  destruct (ensure_rules_spec bin ("filter", exitChain) _ t1 (exit_rules_placed iface cidr)) as (H2 & _ & H3).
  destruct (ensure_rules bin _ t1) as [[] t2]; cbn [fst snd negb] in *.
  2:{ exists false, t2. split_and!; [done| |done]. intros k Hk. by rewrite H2, H1 by (intros ->; done). }
  destruct (jump_first_spec fuel bin t2) as (ok3 & t3 & -> & H4 & H5).
  { unfold chain. by rewrite H2, H1. }
  { unfold own_name, chain. by rewrite H2, H1. }
  cbn [mbind option_bind]. destruct ok3; cbn [negb].
  2:{ exists false, t3. split_and!; [done| |done]. intros k Hk. by rewrite H4, H2, H1 by (intros ->; done). }
  destruct (ensure_rule bin (exitNATRule iface cidr) "nat" "POSTROUTING" _ t3 eq_refl eq_refl) as (H6 & _ & H7).
  destruct (ensureTablesRule bin (exitNATRule iface cidr) t3) as [ok t'] eqn:E. cbn [fst snd] in *.
  exists ok, t'. split_and!; [done| |].
  - intros k Hk. by rewrite H6, H4, H2, H1 by (intros ->; done).
  - intros -> _. split_and!; [| |by apply H7].
    + destruct (H5 eq_refl) as (rs & Hr). exists rs. by rewrite H6.
    + specialize (H3 eq_refl). unfold exitChainRules in H3 |- *. rewrite !Forall_cons in H3 |- *. destruct H3 as (Ha & Hb & _).
      split_and!; [| |constructor]; (eapply (holds_frame bin); [reflexivity| |done]); by rewrite H6, H4.
Qed.

Lemma forwarding_view path t :
  ipt_view (ensureForwarding path t).2 = ipt_view t ∧ nh_net (ensureForwarding path t).2 = nh_net t.
Proof using NL.
  unfold ensureForwarding. destruct (nh_read path t) as [s|]; [case_decide; [done|]|]; apply nh_write_view.
Qed.

(** C30: setting up an exit node always returns, given more fuel than FORWARD
    has jumps to the exit chain; when it reports success, then for each overlay
    family the first rule of FORWARD is the jump to the exit chain, so the accepts
    come before any other rule, the final DROP of the access rules included, the
    exit chain holds both accepts and the sources are masqueraded; when it
    reports failure the flag keeps its value.  Proviso: no foreign rule of FORWARD
    mentions the name of the exit chain. *)
Theorem exit_node_ready fuel iface net4 net6 enabled t :
  (copies exit_jump (chain "iptables" "filter" "FORWARD" t) < fuel)%nat →
  (copies exit_jump (chain "ip6tables" "filter" "FORWARD" t) < fuel)%nat →
  own_name "iptables" t → own_name "ip6tables" t →
  ∃ ok t', applyExitNodeNAT_linux fuel iface true net4 net6 enabled t
           = Some (ok, if ok : bool then true else enabled, t')
    ∧ (ok = true → prefix_valid net4 = true → exit_ready "iptables" iface net4 t')
    ∧ (ok = true → prefix_valid net6 = true → exit_ready "ip6tables" iface net6 t').
Proof using IL NL.
  intros Hf4 Hf6 Ho4 Ho6. unfold applyExitNodeNAT_linux. cbn [negb]. set (t0 := (ensureForwarding ip4_forward t).2).
  set (t1 := if prefix_valid net6 then (ensureForwarding ip6_forward t0).2 else t0).
  assert (ipt_view t1 = ipt_view t) as Hv.
  { unfold t1, t0. destruct (prefix_valid net6); [rewrite (proj1 (forwarding_view _ _))|]; apply forwarding_view. }
  destruct (exit_family_spec fuel "iptables" iface net4 t1) as (ok4 & t4 & -> & H1 & H2).
  { unfold chain. by rewrite Hv. }
  { unfold own_name, chain. by rewrite Hv. }
  cbn [mbind option_bind]. destruct ok4; cbn [negb]; [|by exists false, t4].
  destruct (prefix_valid net6) eqn:E6; cbn [mbind option_bind].
  - destruct (exit_family_spec fuel "ip6tables" iface net6 t4) as (ok6 & t6 & -> & H3 & H4).
    { unfold chain. by rewrite H1, Hv by done. }
    { unfold own_name, chain. by rewrite H1, Hv by done. }
    cbn [mbind option_bind]. exists ok6, t6. split_and!; [done| |intros; by apply H4].
    intros -> E4. destruct (H2 eq_refl E4) as ((rs & Hr) & Hc & Hn). split_and!.
    + exists rs. by rewrite H3.
    + unfold exitChainRules in Hc |- *. rewrite !Forall_cons in Hc |- *. destruct Hc as (Ha & Hb & _).
      split_and!; [| |constructor]; (eapply (holds_frame "iptables"); [reflexivity| |done]); by rewrite H3.
    + eapply (holds_frame "iptables"); [reflexivity| |done]. by rewrite H3.
  - exists true, t4. split_and!; [done|intros; by apply H2|done].
Qed.

(** ** Teardown *)
Lemma teardown_line_frame bin line t k : k.1.2 ≠ "nat" ∨ k.1.1 ≠ bin → ipt_view (teardown_line bin line t) !! k = ipt_view t !! k.
Proof using IL.
  intros Hk. unfold teardown_line. destruct (negb _); [done|].
  repeat (case_match; try done). subst. apply run_frame. cbn. intros ? ? [= <- <-] ->. by destruct Hk.
Qed.
Lemma teardown_lines_frame bin ls t k :
  k.1.2 ≠ "nat" ∨ k.1.1 ≠ bin → ipt_view (foldl (λ t l, teardown_line bin l t) t ls) !! k = ipt_view t !! k.
Proof using IL.
  intros Hk. revert t. induction ls as [|l ls IH]; intros t; cbn [foldl]; [done|].
  by rewrite IH, teardown_line_frame.
Qed.
Definition reliable (bin : string) : Prop :=
  ∀ args (s s' : T), ipt_run bin args s = (false, s') → iptables bin args (ipt_view s) = None.
Lemma teardown_bin_spec fuel bin t :
  (copies exit_jump (chain bin "filter" "FORWARD" t) < fuel)%nat →
  ∃ t', teardown_bin fuel bin t = Some t'
    ∧ (∀ k, k.1.1 ≠ bin → ipt_view t' !! k = ipt_view t !! k)
    ∧ (∀ x, x ≠ exit_jump → filter (λ y, y = x) (chain bin "filter" "FORWARD" t')
                            = filter (λ y, y = x) (chain bin "filter" "FORWARD" t))
    ∧ (reliable bin → exit_jump ∉ chain bin "filter" "FORWARD" t').
Proof using IL.
  intros Hf. unfold teardown_bin. change ["FORWARD"; "-j"; exitChain] with ("FORWARD" :: exit_jump).
  destruct (delete_loop bin ("FORWARD" :: exit_jump) "filter" "FORWARD" exit_jump fuel t)
    as (t1 & -> & _ & H2 & H3 & _ & H5); [done|done|]. cbn [mbind option_bind].
  set (t2 := match nh_list bin ["-t"; "nat"; "-S"; "POSTROUTING"] t1 with Some out => _ | None => t1 end).
  assert (∀ k, k.1.2 ≠ "nat" ∨ k.1.1 ≠ bin → ipt_view t2 !! k = ipt_view t1 !! k) as Hn.
  { intros k Hk. unfold t2. case_match; [by apply teardown_lines_frame|done]. }
  eexists. split; [done|]. cbn [attempt foldl].
  assert (∀ c k s, k ≠ (bin, "filter", exitChain) → c = "-F" ∨ c = "-X" →
            ipt_view (ipt_run bin [c; exitChain] s).2 !! k = ipt_view s !! k) as Hc.
  { intros c k s Hk Hc. apply run_frame. destruct Hc as [-> | ->]; cbn; by intros ? ? [= <- <-]. }
  unfold chain. rewrite !Hc, !Hn by auto. split_and!; [|by apply H2|by apply H5].
  intros k Hk. assert (∀ a b : string, k ≠ (bin, a, b)) as Hk' by (intros a b ->; done).
  by rewrite !Hc, Hn, H3 by auto.
Qed.

(** C39: leaving the exit role always ends: the loop that deletes the jump runs
    at most once per copy of it, in each family, whatever else fails; every
    other rule of FORWARD stays as often as it was; and when commands fail only
    for want of what they name, no jump is left. *)
Theorem exit_teardown_ends fuel iface net4 net6 t :
  (copies exit_jump (chain "iptables" "filter" "FORWARD" t) < fuel)%nat →
  (copies exit_jump (chain "ip6tables" "filter" "FORWARD" t) < fuel)%nat →
  ∃ t', applyExitNodeNAT_linux fuel iface false net4 net6 true t = Some (true, false, t')
    ∧ ∀ bin, bin = "iptables" ∨ bin = "ip6tables" →
        (∀ x, x ≠ exit_jump → filter (λ y, y = x) (chain bin "filter" "FORWARD" t')
                              = filter (λ y, y = x) (chain bin "filter" "FORWARD" t))
        ∧ (reliable bin → exit_jump ∉ chain bin "filter" "FORWARD" t').
Proof using IL.
  intros Hf4 Hf6. unfold applyExitNodeNAT_linux, teardownExitNAT. cbn [negb].
  destruct (teardown_bin_spec fuel "iptables" t Hf4) as (t1 & -> & H1 & H2 & H3). cbn [mbind option_bind].
  destruct (teardown_bin_spec fuel "ip6tables" t1) as (t2 & -> & K1 & K2 & K3).
  { unfold chain. by rewrite H1. }
  cbn [mbind option_bind]. exists t2. split; [done|]. unfold chain in *.
  intros bin [-> | ->]; [by rewrite K1|]. split; [|done]. intros x Hx. by rewrite K2, H1.
Qed.

(** ** The client's routes *)
Lemma add_rules_spec rs t t' :
  add_rules rs t = (true, t') → nh_net t' = mkNet (list_to_set rs ∪ n_rules (nh_net t)) (n_defaults (nh_net t)).
Proof using IL NL.
  revert t. induction rs as [|r rs IH]; intros t; cbn [add_rules].
  { intros [= ->]. destruct (nh_net t'). f_equal. set_solver. }
  destruct (nh_rule_add r t) as [[] t1] eqn:E; [| |done]; intros ->%IH.
  - apply nh_rule_add_done in E as ->. simpl. f_equal. set_solver.
  - apply nh_rule_add_exists in E as [-> Hin]. f_equal. set_solver.
Qed.
Lemma exit_families_spec link fs t t' :
  exit_families link fs t = (true, t') →
  n_rules (nh_net t') = exit_rules fs ∪ n_rules (nh_net t)
  ∧ (∀ f, f ∈ fs → n_defaults (nh_net t') !! (f, exitRouteTable) = Some link)
  ∧ (∀ f, f ∉ fs → n_defaults (nh_net t') !! (f, exitRouteTable) = n_defaults (nh_net t) !! (f, exitRouteTable)).
Proof using IL NL.
  revert t. induction fs as [|f fs IH]; intros t; cbn [exit_families].
  { intros [= ->]. split_and!; [set_solver|set_solver|done]. }
  destruct (nh_route_replace f exitRouteTable link t) as [[] t1] eqn:E1; cbn [negb]; [|done].
  destruct (add_rules _ t1) as [[] t2] eqn:E2; [|done]. intros (H1 & H2 & H3)%IH.
  apply nh_route_done in E1. apply add_rules_spec in E2. rewrite E1 in E2. cbn [n_rules n_defaults] in E2.
  rewrite E2 in H1, H3. cbn [n_rules n_defaults] in H1, H3. split_and!.
  - rewrite H1. unfold exit_rules. cbn. set_solver.
  - intros g Hg. destruct (decide (g ∈ fs)); [auto|]. rewrite H3 by done.
    assert (g = f) as -> by set_solver. by rewrite lookup_insert_eq.
  - intros g Hg. rewrite not_elem_of_cons in Hg. rewrite H3 by tauto. rewrite lookup_insert_ne by naive_solver. done.
Qed.

(** C31: once the client side of an exit is set up, in each of its families: an
    unmarked packet for which the main table has nothing better than a default
    route is sent by the exit rule, whose table's default route is the tunnel;
    one with a more specific route keeps using the main table; and a packet
    with the agent's own mark (the tunnel's and the agent's traffic) is never
    sent to the exit table.  No rule but the agent's own names that table, and
    none of the others ranks before the agent's and resolves. *)
Theorem exit_routing iface v6 enabled t t' en f best :
  applyExitRoutes_linux iface true v6 enabled t = (true, en, t') →
  f ∈ exitFamilies v6 →
  best exitRouteTable = Some 0 →
  (∀ r, r ∈ n_rules (nh_net t) → foreign best r) →
  en = true
  ∧ (∃ link, nh_link iface t = Some link ∧ n_defaults (nh_net t') !! (f, exitRouteTable) = Some link)
  ∧ (∀ mark, mark ≠ exitFwmark → ∀ r, chosen (n_rules (nh_net t')) f mark best r ↔
       r = if specific best then exitSuppressRule f else exitFwmarkRule f)
  ∧ (∀ r, chosen (n_rules (nh_net t')) f exitFwmark best r → ir_Table r ≠ exitRouteTable).
Proof using IL NL.
  unfold applyExitRoutes_linux. cbn [negb]. destruct (nh_link iface t) as [link|] eqn:El; [|done].
  destruct (exit_families link _ _) as [[] t1] eqn:E; [|done]. intros [= <- ->] Hf Hb Hold.
  apply exit_families_spec in E as (Hr & Hd & _). rewrite (proj2 (forwarding_view _ _)) in Hr.
  assert (∀ r, r ∈ n_rules (nh_net t') → foreign best r) as Hall.
  { intros r. rewrite Hr. intros [Hin%elem_of_exit_rules|Hin]%elem_of_union; [|by apply Hold].
    destruct Hin as (g & _ & [-> | ->]); [by right; left|by left]. }
  assert (exitSuppressRule f ∈ n_rules (nh_net t') ∧ exitFwmarkRule f ∈ n_rules (nh_net t')) as [Hs Hw].
  { rewrite Hr. split; apply elem_of_union_l, elem_of_exit_rules; eauto. }
  split_and!; [done|eauto| |by apply marked_avoids].
  intros mark Hm r. by apply unmarked_choice.
Qed.
End exit.
End host.

(** ** A host that is its tables, routes and files

    Commands fail only when they must; a listing shows whether a rule mentions
    the exit chain. *)
Record Plain : Type := mkPlain { pl_filter : tables; pl_net : Net; pl_files : gmap string string }.
#[export] Instance plain_host_tables : IpTables Plain := {
  ipt_run bin args p :=
    match iptables bin args (pl_filter p) with
    | Some f => (true, mkPlain f (pl_net p) (pl_files p))
    | None => (false, p)
    end;
  ipt_view := pl_filter
}.
#[export] Instance plain_host_tables_laws : IpTablesLaws Plain.
Proof.
  split; intros bin args t t'; cbn [ipt_run ipt_view plain_host_tables];
    destruct (iptables bin args (pl_filter t)) eqn:E; intros [= <-]; done.
Qed.
Definition plain_line (r : rule) : string :=
  if mentions "WGMESH-EXIT" r then "-A FORWARD -j WGMESH-EXIT" else "-A FORWARD -j OTHER".
Definition plain_listing (rs : list rule) : string :=
  foldr (λ r out, plain_line r +:+ String "010" out) "" rs.
Definition set_net (p : Plain) (n : Net) : Plain := mkPlain (pl_filter p) n (pl_files p).
#[export] Instance plain_host : NetHost Plain := {
  nh_read f p := pl_files p !! f;
  nh_write f s p := (true, mkPlain (pl_filter p) (pl_net p) (<[f := s]> (pl_files p)));
  nh_list bin args p :=
    if decide (args = ["-S"; "FORWARD"])
    then Some ("-P FORWARD ACCEPT" +:+ String "010" (plain_listing (default [] (pl_filter p !! (bin, "filter", "FORWARD")))))
    else None;
  nh_link iface p := if decide (iface = "wg-int") then Some 7 else None;
  nh_route_replace f table link p :=
    (true, set_net p (mkNet (n_rules (pl_net p)) (<[(f, table) := link]> (n_defaults (pl_net p)))));
  nh_rule_add r p :=
    if decide (r ∈ n_rules (pl_net p)) then (Exists, p)
    else (Done, set_net p (mkNet ({[r]} ∪ n_rules (pl_net p)) (n_defaults (pl_net p))));
  nh_rule_del r p :=
    if decide (r ∈ n_rules (pl_net p)) then (Done, set_net p (mkNet (n_rules (pl_net p) ∖ {[r]}) (n_defaults (pl_net p))))
    else (Failed, p);
  nh_routes_flush f table p := set_net p (mkNet (n_rules (pl_net p)) (delete (f, table) (n_defaults (pl_net p))));
  nh_net := pl_net
}.
Lemma plain_listing_lines rs :
  (λ l, str_contains l "WGMESH-EXIT") <$> rule_lines "FORWARD" (plain_listing rs) = mentions "WGMESH-EXIT" <$> rs.
Proof.
  unfold rule_lines. induction rs as [|r rs IH]; [done|]. cbn [plain_listing foldr]. fold (plain_listing rs).
  rewrite Split_app by (unfold plain_line; by destruct (mentions _ r)).
  rewrite filter_cons_True by (unfold plain_line; destruct (mentions _ r); by eexists).
  rewrite !fmap_cons, IH. f_equal. unfold plain_line. by destruct (mentions _ r).
Qed.
#[export] Instance plain_host_laws : NetHostLaws Plain.
Proof.
  split; cbn; try done.
  - intros bin args t. by destruct (iptables bin args (pl_filter t)).
  - intros bin t out [= <-]. rewrite <- plain_listing_lines. unfold rule_lines.
    by rewrite (Split_app "010" "-P FORWARD ACCEPT").
  - by intros ? ? ? ? ? [= <-].
  - intros r t t'. case_decide; by intros [= <-].
  - intros r t t'. case_decide; by intros [= <-].
  - intros r t t'. case_decide; by intros [= <-].
Qed.
Lemma plain_reliable bin : reliable (T := Plain) bin.
Proof. intros args s s'. cbn. destruct (iptables bin args (pl_filter s)); [done|]. by intros [= ->]. Qed.

(** ** Runs on such a host, with the access rules of the sample mesh in place *)
Definition ex_net4 : Prefix := default no_prefix (ParsePrefix "100.64.0.0/10").
Definition ex_host : Plain := mkPlain ex_filter (mkNet ∅ ∅) ∅.
Definition ex_exit : Plain :=
  from_option snd ex_host (applyExitNodeNAT_linux 1 "wg-int" true ex_net4 no_prefix false ex_host).
Definition ex_client : Plain := (applyExitRoutes_linux "wg-int" true true false ex_host).2.

Lemma own_name_check bin (t : Plain) :
  forallb (λ r, negb (mentions exitChain r) || bool_decide (r = exit_jump)) (chain bin "filter" "FORWARD" t) = true →
  own_name bin t.
Proof.
  intros H r Hr%list_elem_of_In Hm. rewrite forallb_forall in H. specialize (H r Hr). rewrite Hm in H. by apply bool_decide_eq_true in H.
Qed.
Lemma exit_node_ready_witness :
  exit_ready "iptables" "wg-int" ex_net4 ex_exit ∧ chain "iptables" "filter" "FORWARD" ex_exit !! 0%nat = Some exit_jump.
Proof.
  destruct (exit_node_ready (T := Plain) 1 "wg-int" ex_net4 no_prefix false ex_host) as (ok & t' & H & H4 & _).
  - vm_compute. lia.
  - vm_compute. lia.
  - apply own_name_check. vm_compute. reflexivity.
  - apply own_name_check. vm_compute. reflexivity.
  - assert (t' = ex_exit) as -> by (unfold ex_exit; by rewrite H).
    split; [|vm_compute; reflexivity]. apply H4; [|vm_compute; reflexivity].
    apply (f_equal (from_option (λ r, fst (fst r)) false)) in H. vm_compute in H. by rewrite <- H.
Defined.

Lemma exit_teardown_ends_witness :
  ∃ t', applyExitNodeNAT_linux 2 "wg-int" false ex_net4 no_prefix true ex_exit = Some (true, false, t')
    ∧ exit_jump ∉ chain "iptables" "filter" "FORWARD" t'.
Proof.
  destruct (exit_teardown_ends (T := Plain) 2 "wg-int" ex_net4 no_prefix ex_exit) as (t' & H1 & H2).
  - vm_compute. lia.
  - vm_compute. lia.
  - exists t'. split; [exact H1|]. apply (H2 "iptables"); [by left|]. apply plain_reliable.
Defined.

(** The destination has a default route only, in the main and the exit table. *)
Definition ex_best (table : Z) : option Z := if decide (table = mainTable ∨ table = exitRouteTable) then Some 0 else None.
Lemma ex_client_run : applyExitRoutes_linux (T := Plain) "wg-int" true true false ex_host = (true, true, ex_client).
Proof.
  assert ((applyExitRoutes_linux "wg-int" true true false ex_host).1 = (true, true)) as H by (vm_compute; reflexivity).
  unfold ex_client. destruct (applyExitRoutes_linux _ _ _ _ ex_host) as [p t]. cbn [fst snd] in *. by subst p.
Qed.
Lemma exit_routing_witness :
  (∀ r, chosen (n_rules (nh_net ex_client)) FamilyV6 0 ex_best r ↔ r = exitFwmarkRule FamilyV6)
  ∧ n_defaults (nh_net ex_client) !! (FamilyV6, exitRouteTable) = Some 7.
Proof.
  destruct (exit_routing (T := Plain) "wg-int" true false ex_host ex_client true FamilyV6 ex_best)
    as (_ & (link & Hl & Hd) & Hu & _).
  - exact ex_client_run.
  - right. left.
  - vm_compute. reflexivity.
  - intros r Hr. by apply elem_of_empty in Hr.
  - split; [|by rewrite Hd, <- Hl]. intros r. rewrite (Hu 0) by done. done.
Defined.
