(* ===== verification/WsHub.v ===== *)
(** * The websocket and QUIC relay

    internal/relay/wshub.go: the hub that hands frames from one member of a pair
    to the other, and the sessions of cmd/server/relayws.go and relayquic.go
    that join it.

    A connection is its identity, a number: Go compares the interface values.
    The hub's mutex makes [join], [leave] and [peer] atomic; everything between
    two of them interleaves.  [Serve] is therefore a session with a phase, one
    step per lock, read or write, and a run of the system is a sequence of
    steps of any of its sessions. *)
From S2P Require Import Prelude GoText Psk Json Schema Enroll Telemetry ClientIP Handlers.
From Stdlib Require String.

Abbreviation conn := Z (only parsing).
Abbreviation frame := (list Z).

(** ** The hub *)
Record WSHub : Type := mkWSHub { pairs : gmap string (gmap string conn) }.
Definition NewWSHub : WSHub := mkWSHub ∅.

Inductive joined : Type :=
| PairFull
| Joined (other closes : option conn).

Definition others (memberID : string) (ms : gmap string conn) : option conn :=
  snd <$> head (map_to_list (delete memberID ms)).

Definition join (pairID memberID : string) (c : conn) (h : WSHub) : joined * WSHub :=
  let members := default ∅ (pairs h !! pairID) in
  let h := mkWSHub (<[pairID := members]> (pairs h)) in
  if bool_decide (members !! memberID = None) && (2 <=? size members)%nat then (PairFull, h)
  else
    let old := members !! memberID in
    let members := <[memberID := c]> members in
    (Joined (others memberID members) old, mkWSHub (<[pairID := members]> (pairs h))).

Definition leave (pairID memberID : string) (c : conn) (h : WSHub) : WSHub :=
  match pairs h !! pairID with
  | None => h
  | Some members =>
      let members := if decide (members !! memberID = Some c) then delete memberID members else members in
      mkWSHub (if decide (size members = 0%nat) then delete pairID (pairs h) else <[pairID := members]> (pairs h))
  end.

Definition MemberCount (pairID : string) (h : WSHub) : nat :=
  match pairs h !! pairID with None => 0 | Some members => size members end.

Definition peer (pairID memberID : string) (h : WSHub) : option conn :=
  members ← pairs h !! pairID; others memberID members.

(** ** Sessions *)

(** Where [Serve] is: waiting for a frame, holding one, about to write it. *)
Inductive phase : Type :=
| Reading
| Got (f : frame)
| Writing (f : frame) (other : conn).
Record Session : Type := mkSession { ss_pair : string; ss_member : string; ss_phase : phase }.

(** The hub, the sessions being served and the connections closed so far; and
    what happened: who joined with which connection, the frames read and the
    frames written, oldest first. *)
Record Sys : Type := mkSys {
  hub : WSHub; sessions : gmap conn Session; closed : gset conn;
  ids : gmap conn (string * string); reads : list (conn * frame); written : list (conn * frame * conn)
}.
Definition idle : Sys := mkSys NewWSHub ∅ ∅ ∅ [] [].

Inductive event : Type :=
| EJoin (c : conn) (pairID memberID : string)
| ERead (c : conn) (f : frame)
| EPeer (c : conn)
| EWrite (c : conn) (ok : bool)
| EEnd (c : conn).
Definition actor (e : event) : conn :=
  match e with EJoin c _ _ | ERead c _ | EPeer c | EWrite c _ | EEnd c => c end.

Definition set_phase (c : conn) (ss : Session) (ph : phase) (s : Sys) : Sys :=
  mkSys (hub s) (<[c := mkSession (ss_pair ss) (ss_member ss) ph]> (sessions s)) (closed s) (ids s) (reads s) (written s).

(** One step of [Serve]; [None] is a step that cannot happen.  A new connection
    joins once; a closed one delivers no frame and takes none; a connection is
    closed when the same member joins again, and by its handler at the end. *)
Definition step (e : event) (s : Sys) : option Sys :=
  match e with
  | EJoin c pairID memberID =>
      if bool_decide (ids s !! c = None) && bool_decide (c ∉ closed s) then
        match join pairID memberID c (hub s) with
        | (PairFull, h) => Some (mkSys h (sessions s) ({[c]} ∪ closed s) (ids s) (reads s) (written s))
        | (Joined _ closes, h) =>
            Some (mkSys h (<[c := mkSession pairID memberID Reading]> (sessions s))
                    (match closes with Some old => {[old]} ∪ closed s | None => closed s end)
                    (<[c := (pairID, memberID)]> (ids s)) (reads s) (written s))
        end
      else None
  | ERead c f =>
      ss ← sessions s !! c;
      match ss_phase ss with
      | Reading =>
          if bool_decide (c ∈ closed s) then None
          else let s := set_phase c ss (Got f) s in
               Some (mkSys (hub s) (sessions s) (closed s) (ids s) (reads s ++ [(c, f)]) (written s))
      | _ => None
      end
  | EPeer c =>
      ss ← sessions s !! c;
      match ss_phase ss with
      | Got f =>
          match peer (ss_pair ss) (ss_member ss) (hub s) with
          | None => Some (set_phase c ss Reading s)
          | Some other => Some (set_phase c ss (Writing f other) s)
          end
      | _ => None
      end
  | EWrite c ok =>
      ss ← sessions s !! c;
      match ss_phase ss with
      | Writing f other =>
          if ok then
            if bool_decide (other ∈ closed s) then None
            else let s := set_phase c ss Reading s in
                 Some (mkSys (hub s) (sessions s) (closed s) (ids s) (reads s) (written s ++ [(c, f, other)]))
          else Some (set_phase c ss Reading s)
      | _ => None
      end
  | EEnd c =>
      ss ← sessions s !! c;
      match ss_phase ss with
      | Reading =>
          Some (mkSys (leave (ss_pair ss) (ss_member ss) c (hub s)) (delete c (sessions s)) ({[c]} ∪ closed s)
                  (ids s) (reads s) (written s))
      | _ => None
      end
  end.
Fixpoint run (es : list event) (s : Sys) : option Sys :=
  match es with [] => Some s | e :: es => s ← step e s; run es s end.

(** ** Who may join *)

(** [pairID[:8]] of an identifier of 32 digits. *)
Definition first8 (s : string) : string := String.substring 0 8 s.

(** [handleRelayWS] up to the upgrade: the pair and the member it serves, or the
    answer; [enabled] is whether the hub exists, [target] the query parameter,
    [upgraded] whether the handshake of the websocket library succeeded (it has
    answered itself when not). *)
Definition handleRelayWS (now later : Z) (r : Request) (enabled : bool) (target : string) (upgraded : bool) (w : World)
  : (reply (string * string) * World) :=
  if negb enabled then (Status 503 "websocket relay not enabled", w)
  else match authenticate now later "relay_ws_rejected" r w with
  | inl (rep, w) => (rep, w)
  | inr (peerID, overlayIP) =>
      if decide (target = "") then (Status 400 "peer query parameter required", w)
      else match RelayPairKeys peerID target (w_db w) with
      | Err _ => (Status 500 "internal error", w)
      | Ok (selfKey, targetOK) =>
          if negb targetOK then (Status 404 "unknown or revoked target peer", w)
          else
            let pairID := relayPairID selfKey target in
            if negb upgraded then (Status 0 "upgrade failed", w)
            else (Good (pairID, selfKey),
                  audit later r (Some (peerID, overlayIP)) "relay_ws_open" 200
                    ("websocket relay pair " +:+ first8 pairID) w)
      end
  end.
(** After the session: the connection is closed and the end recorded. *)
Definition relay_ws_closed (later : Z) (r : Request) (who : Z * string) (pairID : string) (w : World) : World :=
  audit later r (Some who) "relay_ws_close" 200 ("websocket relay pair " +:+ first8 pairID) w.

(** [handleRelayQUICInfo]: where to dial, or the answer. *)
Definition handleRelayQUICInfo (now : Z) (r : Request) (enabled : bool) (endpoint : string) (b : body string) (w : World)
  : reply string :=
  if negb enabled || bool_decide (endpoint = "") then Status 503 "quic relay not enabled"
  else match CutPrefix (hr_Authorization r) "Bearer " with
  | None => Status 401 "unauthorized"
  | Some token =>
      match AuthenticatePeer (w_cfg w) now token (w_db w) with
      | Err _ => Status 401 "unauthorized"
      | Ok (peerID, _) =>
          match b with
          | Decoded target =>
              match RelayPairKeys peerID target (w_db w) with
              | Ok (_, true) => Good endpoint
              | _ => Status 404 "unknown or revoked target peer"
              end
          | _ => Status 400 "invalid request"
          end
      end
  end.

(** [quicRelayAuth] and [serveQUICRelay] up to [Serve]: the pair and the member,
    or the code the connection is closed with.  [datagrams] and [acked] are the
    peer's capability and whether the acknowledgement could be written. *)
Record quicRelayAuth : Type := mkQuicAuth { qa_Token : string; qa_Target : string }.
Definition serveQUICRelay (now : Z) (b : body quicRelayAuth) (datagrams acked : bool) (w : World)
  : Z + (string * string) :=
  match b with
  | Decoded auth =>
      match AuthenticatePeer (w_cfg w) now (qa_Token auth) (w_db w) with
      | Err (ErrUnauthorized _) => inl 2
      | Err _ => inl 0
      | Ok (peerID, _) =>
          match RelayPairKeys peerID (qa_Target auth) (w_db w) with
          | Ok (selfKey, true) =>
              if negb datagrams then inl 4
              else if negb acked then inl 0
              else inr (relayPairID selfKey (qa_Target auth), selfKey)
          | _ => inl 3
          end
      end
  | _ => inl 1
  end.
