(* ===== verification/WsHubFacts.v ===== *)
(** * Facts about the websocket and QUIC relay

    In every interleaving of the sessions: a pair has one or two members, each
    served by a running session; a frame read from one side is written only to
    the other side of its pair, in order and at most once; nothing is left of a
    pair whose sessions have ended. *)
From S2P Require Import Prelude GoText Psk Json Schema SchemaFacts Enroll EnrollFacts Visibility Telemetry TelemetryFacts ClientIP StoreMachine PeerEntries Handlers HandlerFacts WsHub.

(** ** The hub *)
Definition registered (h : WSHub) (p m : string) (c : conn) : Prop :=
  ∃ ms, pairs h !! p = Some ms ∧ ms !! m = Some c.
Definition hub_shape (h : WSHub) : Prop :=
  ∀ p ms, pairs h !! p = Some ms → ms ≠ ∅ ∧ (size ms ≤ 2)%nat.

Lemma others_Some m ms o : others m ms = Some o → ∃ m', m' ≠ m ∧ ms !! m' = Some o.
Proof.
  unfold others. destruct (map_to_list (delete m ms)) as [|[m' c] l] eqn:E; [done|]. intros [= <-].
  assert ((m', c) ∈ map_to_list (delete m ms)) as H by (rewrite E; by left).
  apply elem_of_map_to_list, lookup_delete_Some in H as [? ?]. by exists m'.
Qed.
Lemma others_None m ms : others m ms = None → ∀ m' c, ms !! m' = Some c → m' = m.
Proof.
  unfold others. destruct (map_to_list (delete m ms)) as [|kv l] eqn:E; [|done]. intros _ m' c Hc.
  apply map_to_list_empty_iff in E. destruct (decide (m' = m)) as [|Hne]; [done|].
  assert (delete m ms !! m' = Some c) as H by (by rewrite lookup_delete_ne). by rewrite E, lookup_empty in H.
Qed.
Lemma size_two (ms : gmap string conn) m1 m2 m3 c1 c2 c3 :
  (size ms ≤ 2)%nat → ms !! m1 = Some c1 → ms !! m2 = Some c2 → ms !! m3 = Some c3 →
  m1 ≠ m2 → m1 ≠ m3 → m2 = m3.
Proof.
  intros Hs H1 H2 H3 H12 H13. destruct (decide (m2 = m3)) as [|H23]; [done|].
  pose proof (map_size_delete_Some m1 ms ltac:(eauto)) as E1.
  pose proof (map_size_delete_Some m2 (delete m1 ms) ltac:(rewrite lookup_delete_ne by done; eauto)) as E2.
  pose proof (map_size_ne_0_lookup_2 (delete m2 (delete m1 ms)) m3 ltac:(rewrite !lookup_delete_ne by done; eauto)) as E3.
  lia.
Qed.
(** The other member of a pair, as [peer] finds it, whatever order Go visits the
    members in. *)
Lemma peer_spec h p m c o :
  hub_shape h → registered h p m c →
  peer p m h = Some o ↔ ∃ m', m' ≠ m ∧ registered h p m' o.
Proof.
  intros Hh (ms & Hp & Hm). unfold peer. rewrite Hp. cbn [mbind option_bind]. split.
  - intros (m' & Hne & Hm')%others_Some. exists m'. split; [done|]. by exists ms.
  - intros (m' & Hne & ms' & Hp' & Hm'). simplify_eq.
    destruct (others m ms) as [o'|] eqn:E; [|by apply (others_None _ _ E) in Hm'].
    apply others_Some in E as (m2 & Hne2 & Hm2). f_equal.
    assert (m' = m2) as -> by (eapply (size_two ms m); eauto; by apply (Hh p)). congruence.
Qed.

Lemma join_full p m c h h' : join p m c h = (PairFull, h') → h' = h ∧ (∀ c', ¬ registered h p m c').
Proof.
  unfold join. destruct (_ && _) eqn:E; [|done]. intros [= <-].
  apply andb_prop in E as [E1%bool_decide_eq_true E2%Nat.leb_le].
  destruct (pairs h !! p) as [ms|] eqn:Ep; [|cbn in E2; rewrite map_size_empty in E2; lia].
  cbn in *. split; [rewrite insert_id by done; by destruct h|].
  intros c' (ms' & Hp & Hm). congruence.
Qed.
Lemma join_registered p m c h other closes h' :
  join p m c h = (Joined other closes, h') →
  (∀ p' m' c', registered h' p' m' c' ↔
     (p' = p ∧ m' = m ∧ c' = c) ∨ ((p' ≠ p ∨ m' ≠ m) ∧ registered h p' m' c'))
  ∧ (∀ c', closes = Some c' ↔ registered h p m c').
Proof.
  unfold join. destruct (_ && _) eqn:E; [done|]. intros [= <- <- <-]. unfold registered. simpl. split.
  - intros p' m' c'. rewrite insert_insert_eq. destruct (decide (p' = p)) as [->|Hp].
    + rewrite lookup_insert_eq. destruct (decide (m' = m)) as [->|Hm].
      * split; [intros (ms & [= <-] & Hl); rewrite lookup_insert_eq in Hl; simplify_eq; by left|].
        intros [(_ & _ & ->)|[[]?]]; [|done|done]. eexists. split; [done|]. by rewrite lookup_insert_eq.
      * split.
        -- intros (ms & [= <-] & Hl). rewrite lookup_insert_ne in Hl by done. right. split; [by right|].
           destruct (pairs h !! p) as [ms|]; [by exists ms|done].
        -- intros [(_ & -> & _)|[_ (ms & -> & Hl)]]; [done|]. eexists. split; [done|].
           by rewrite lookup_insert_ne.
    + rewrite lookup_insert_ne by done. naive_solver.
  - intros c'. destruct (pairs h !! p) as [ms|]; cbn; [naive_solver|]. rewrite lookup_empty. naive_solver.
Qed.
Lemma join_shape p m c h other closes h' :
  hub_shape h → join p m c h = (Joined other closes, h') → hub_shape h'.
Proof.
  intros Hh. unfold join. destruct (_ && _) eqn:E; [done|]. intros [= <- <- <-] p' ms. simpl.
  rewrite insert_insert_eq. destruct (decide (p' = p)) as [->|Hp]; [|rewrite lookup_insert_ne by done; by apply Hh].
  rewrite lookup_insert_eq. intros [= <-]. split; [apply insert_non_empty|].
  rewrite map_size_insert. set (ms := default ∅ (pairs h !! p)) in *.
  assert (size ms ≤ 2)%nat as Hs.
  { unfold ms. destruct (pairs h !! p) as [ms'|] eqn:Ep; [by apply (Hh p)|]. cbn. rewrite map_size_empty. lia. }
  destruct (ms !! m) as [old|]; cbn [id]; [lia|]. rewrite bool_decide_true in E by done. apply Nat.leb_gt in E. lia.
Qed.
Lemma leave_registered p m c h p' m' c' :
  registered (leave p m c h) p' m' c' ↔ registered h p' m' c' ∧ ¬ (p' = p ∧ m' = m ∧ c' = c).
Proof.
  unfold leave, registered. destruct (pairs h !! p) as [ms|] eqn:Ep.
  2:{ split; [|by intros [? _]]. intros Hr. split; [done|]. intros (-> & -> & ->). destruct Hr as (? & ? & _). congruence. }
  set (ms' := if decide _ then _ else ms). cbn [pairs].
  assert (∀ x y, ms' !! x = Some y ↔ ms !! x = Some y ∧ ¬ (x = m ∧ y = c)) as Hms.
  { intros x y. unfold ms'. case_decide as Hd; [|naive_solver]. rewrite lookup_delete_Some. naive_solver. }
  clearbody ms'.
  destruct (decide (p' = p)) as [->|Hp].
  - rewrite Ep. case_decide as Hd.
    + apply map_size_empty_inv in Hd. rewrite lookup_delete_eq. split; [naive_solver|].
      intros [(ms0 & [= <-] & Hl) Hn]. assert (ms' !! m' = Some c') as H by (apply Hms; naive_solver).
      by rewrite Hd, lookup_empty in H.
    + rewrite lookup_insert_eq. split.
      * intros (ms0 & [= <-] & Hl). apply Hms in Hl as [? ?]. split; [by exists ms|naive_solver].
      * intros [(ms0 & [= <-] & Hl) Hn]. exists ms'. split; [done|]. apply Hms. naive_solver.
  - case_decide; [rewrite lookup_delete_ne by done|rewrite lookup_insert_ne by done]; naive_solver.
Qed.
Lemma leave_shape p m c h : hub_shape h → hub_shape (leave p m c h).
Proof.
  intros Hh p' ms'. unfold leave. destruct (pairs h !! p) as [ms|] eqn:Ep; [|by apply Hh]. cbn [pairs].
  case_decide as Hd.
  - rewrite lookup_delete_Some. intros [_ H]. by apply (Hh p').
  - destruct (decide (p' = p)) as [->|Hp]; [|rewrite lookup_insert_ne by done; by apply Hh].
    rewrite lookup_insert_eq. intros [= <-]. split; [intros E; by rewrite E, map_size_empty in Hd|].
    destruct (Hh p ms Ep) as [_ Hs]. case_decide; [|done].
    rewrite map_size_delete. case_match; cbn [id]; lia.
Qed.

(** ** The invariant *)
Definition opposite (s : Sys) (c o : conn) : Prop :=
  ∃ p m m', m ≠ m' ∧ ids s !! c = Some (p, m) ∧ ids s !! o = Some (p, m').
Definition pending (c : conn) (s : Sys) : list frame :=
  match ss_phase <$> sessions s !! c with
  | Some (Got f) | Some (Writing f _) => [f]
  | _ => []
  end.
Definition read_from (c : conn) (s : Sys) : list frame := snd <$> filter (λ x, x.1 = c) (reads s).
Definition written_from (c : conn) (s : Sys) : list frame := (λ x, x.1.2) <$> filter (λ x, x.1.1 = c) (written s).

Record sys_ok (s : Sys) : Prop := {
  so_shape : hub_shape (hub s);
  so_member : ∀ p m c, registered (hub s) p m c → (∃ ph, sessions s !! c = Some (mkSession p m ph)) ∧ c ∉ closed s;
  so_ids : ∀ c ss, sessions s !! c = Some ss → ids s !! c = Some (ss_pair ss, ss_member ss);
  so_live : ∀ c ss, sessions s !! c = Some ss → c ∉ closed s → registered (hub s) (ss_pair ss) (ss_member ss) c;
  so_writing : ∀ c ss f o, sessions s !! c = Some ss → ss_phase ss = Writing f o → opposite s c o;
  so_written : ∀ c f o, (c, f, o) ∈ written s → opposite s c o;
  so_order : ∀ c, (written_from c s ++ pending c s) `sublist_of` read_from c s
}.
Lemma idle_ok : sys_ok idle.
Proof.
  split; unfold idle; cbn; try done.
  - intros p m c (ms & H & _). done.
  - intros c f o H. by apply not_elem_of_nil in H.
Qed.

(** A step that only changes the phase of a session, and adds the frames it read
    and wrote to the logs. *)
Definition held (ph : phase) : list frame :=
  match ph with Reading => [] | Got f | Writing f _ => [f] end.
Definition logged (c : conn) (fr : list frame) (fw : list (frame * conn)) (s : Sys) : Sys :=
  mkSys (hub s) (sessions s) (closed s) (ids s) (reads s ++ (pair c <$> fr))
    (written s ++ ((λ fo, (c, fo.1, fo.2)) <$> fw)).
Lemma read_from_logged x c fr fw s :
  read_from x (logged c fr fw s) = read_from x s ++ (if decide (x = c) then fr else []).
Proof.
  unfold read_from, logged. cbn. rewrite filter_app, fmap_app. f_equal.
  induction fr as [|f fr IH]; [by case_decide|]. rewrite fmap_cons, filter_cons. cbn [fst].
  case_decide as E1; case_decide as E2; try congruence. rewrite fmap_cons, IH. done.
Qed.
Lemma written_from_logged x c fr fw s :
  written_from x (logged c fr fw s) = written_from x s ++ (if decide (x = c) then fw.*1 else []).
Proof.
  unfold written_from, logged. cbn. rewrite filter_app, fmap_app. f_equal.
  induction fw as [|f fw IH]; [by case_decide|]. rewrite fmap_cons, filter_cons. cbn [fst].
  case_decide as E1; case_decide as E2; try congruence. rewrite fmap_cons, IH. done.
Qed.
Lemma pending_set x c ss ph s :
  pending x (set_phase c ss ph s) = if decide (x = c) then held ph else pending x s.
Proof.
  unfold pending, set_phase. cbn. case_decide as E; [subst; by rewrite lookup_insert_eq; destruct ph|].
  by rewrite lookup_insert_ne.
Qed.
Lemma pending_session c s ss : sessions s !! c = Some ss → pending c s = held (ss_phase ss).
Proof. unfold pending. intros ->. cbn. by destruct (ss_phase ss). Qed.

Lemma set_phase_ok c ss ph s fr fw :
  sys_ok s → sessions s !! c = Some ss →
  (∀ f o, ph = Writing f o → opposite s c o) →
  (∀ f o, (f, o) ∈ fw → opposite s c o) →
  (written_from c s ++ fw.*1 ++ held ph) `sublist_of` (read_from c s ++ fr) →
  sys_ok (logged c fr fw (set_phase c ss ph s)).
Proof.
  intros Hs Hc Hw Hws Ho. set (s' := logged c fr fw (set_phase c ss ph s)).
  assert (∀ x sx, sessions s' !! x = Some sx → ∃ s0, sessions s !! x = Some s0
            ∧ ss_pair sx = ss_pair s0 ∧ ss_member sx = ss_member s0 ∧ (x = c ∧ ss_phase sx = ph ∨ sx = s0)) as Hx.
  { intros x sx Hsx. cbn in Hsx. destruct (decide (x = c)) as [->|Hne].
    - rewrite lookup_insert_eq in Hsx. simplify_eq. exists ss. split_and!; auto.
    - rewrite lookup_insert_ne in Hsx by done. exists sx. split_and!; auto. }
  split; [apply Hs| | | | | |].
  - intros p m x Hr. destruct (so_member s Hs p m x Hr) as [[ph' Hp] Hcl]. split; [|done].
    cbn. destruct (decide (x = c)) as [->|Hne].
    + rewrite Hc in Hp. simplify_eq. rewrite lookup_insert_eq. by eexists.
    + rewrite lookup_insert_ne by done. by eexists.
  - intros x sx (s0 & H0 & -> & -> & _)%Hx. by apply (so_ids s Hs).
  - intros x sx (s0 & H0 & -> & -> & _)%Hx. by apply (so_live s Hs).
  - intros x sx f o (s0 & H0 & _ & _ & [[-> Hph]| ->])%Hx Hf; [apply (Hw f o); congruence|].
    by eapply (so_writing s Hs).
  - intros x f o [Hin|([f' o'] & [= -> -> ->] & Hin)%list_elem_of_fmap]%elem_of_app;
      [by eapply (so_written s Hs)|by eapply Hws].
  - intros x. unfold s'. rewrite read_from_logged, written_from_logged.
    change (pending x (logged c fr fw (set_phase c ss ph s))) with (pending x (set_phase c ss ph s)).
    rewrite pending_set. change (read_from x (set_phase c ss ph s)) with (read_from x s).
    change (written_from x (set_phase c ss ph s)) with (written_from x s).
    case_decide as E; [subst x; by rewrite <- app_assoc|]. rewrite !app_nil_r. apply (so_order s Hs).
Qed.
Lemma logged_nil c s : logged c [] [] s = s.
Proof. unfold logged. cbn. rewrite !app_nil_r. by destruct s. Qed.

(** Once a connection has joined, who it is never changes. *)
Lemma opposite_mono s s' c o :
  (∀ x i, ids s !! x = Some i → ids s' !! x = Some i) → opposite s c o → opposite s' c o.
Proof. intros H (p & m & m' & Hne & H1 & H2). exists p, m, m'. auto. Qed.

Lemma join_ok c p m s other closes h :
  sys_ok s → ids s !! c = None → c ∉ closed s → join p m c (hub s) = (Joined other closes, h) →
  sys_ok (mkSys h (<[c := mkSession p m Reading]> (sessions s))
            (match closes with Some old => {[old]} ∪ closed s | None => closed s end)
            (<[c := (p, m)]> (ids s)) (reads s) (written s)).
Proof.
  intros Hs Hid Hcl Hj. destruct (join_registered _ _ _ _ _ _ _ Hj) as [Hr Hold].
  assert (sessions s !! c = None) as Hno.
  { destruct (sessions s !! c) eqn:E; [|done]. apply (so_ids s Hs) in E. congruence. }
  assert (∀ x i, ids s !! x = Some i → <[c := (p, m)]> (ids s) !! x = Some i) as Hmono.
  { intros x i Hx. rewrite lookup_insert_ne by congruence. done. }
  assert (∀ x, x ∈ match closes with Some old => {[old]} ∪ closed s | None => closed s end ↔
               x ∈ closed s ∨ registered (hub s) p m x) as Hclosed.
  { intros x. rewrite <- Hold. destruct closes; set_solver. }
  split; cbn.
  - by eapply join_shape; [apply Hs|].
  - intros p' m' x [(-> & -> & ->)|[Hne Hx]]%Hr.
    + rewrite lookup_insert_eq. split; [by eexists|]. rewrite Hclosed. intros [?|Hc]; [done|].
      destruct (so_member s Hs _ _ _ Hc) as [[ph Hp] _]. congruence.
    + destruct (so_member s Hs _ _ _ Hx) as [[ph Hp] Hxc]. rewrite lookup_insert_ne by congruence.
      split; [by eexists|]. rewrite Hclosed. intros [?|Hc]; [done|].
      destruct (so_member s Hs _ _ _ Hc) as [[ph' Hp'] _]. rewrite Hp in Hp'. injection Hp' as -> -> _. naive_solver.
  - intros x sx. destruct (decide (x = c)) as [->|Hne].
    + rewrite !lookup_insert_eq. by intros [= <-].
    + rewrite !lookup_insert_ne by done. apply (so_ids s Hs).
  - intros x sx Hx Hxc. rewrite Hclosed in Hxc. apply Hr. destruct (decide (x = c)) as [->|Hne].
    + rewrite lookup_insert_eq in Hx. simplify_eq. by left.
    + rewrite lookup_insert_ne in Hx by done.
      assert (registered (hub s) (ss_pair sx) (ss_member sx) x) as Hreg by (apply (so_live s Hs); tauto).
      right. split; [|done]. destruct (decide (ss_pair sx = p)) as [Ep|]; [|by left].
      right. intros Em. rewrite Ep, Em in Hreg. tauto.
  - intros x sx f o Hx Hph. eapply opposite_mono; [exact Hmono|]. destruct (decide (x = c)) as [->|Hne].
    + rewrite lookup_insert_eq in Hx. by simplify_eq.
    + rewrite lookup_insert_ne in Hx by done. by eapply (so_writing s Hs).
  - intros x f o Hin. eapply opposite_mono; [exact Hmono|]. by eapply (so_written s Hs).
  - intros x. pose proof (so_order s Hs x) as Ho. destruct (decide (x = c)) as [->|Hne].
    + rewrite (pending_session c (mkSys h _ _ _ _ _) (mkSession p m Reading)) by (cbn; by rewrite lookup_insert_eq).
      cbn [held ss_phase]. unfold pending in Ho. rewrite Hno in Ho. exact Ho.
    + unfold pending in *. cbn. rewrite lookup_insert_ne by done. exact Ho.
Qed.
Lemma end_ok c ss s :
  sys_ok s → sessions s !! c = Some ss →
  sys_ok (mkSys (leave (ss_pair ss) (ss_member ss) c (hub s)) (delete c (sessions s)) ({[c]} ∪ closed s)
            (ids s) (reads s) (written s)).
Proof.
  intros Hs Hc. split; cbn.
  - apply leave_shape, Hs.
  - intros p m x [Hr Hn]%leave_registered. destruct (so_member s Hs _ _ _ Hr) as [[ph Hp] Hxc].
    assert (x ≠ c) as Hne by (intros ->; rewrite Hc in Hp; simplify_eq; naive_solver).
    rewrite lookup_delete_ne by done. split; [by eexists|]. set_solver.
  - intros x sx [_ Hx]%lookup_delete_Some. by apply (so_ids s Hs).
  - intros x sx [Hne Hx]%lookup_delete_Some Hxc. apply leave_registered. split; [|naive_solver].
    apply (so_live s Hs); [done|set_solver].
  - intros x sx f o [_ Hx]%lookup_delete_Some. by apply (so_writing s Hs).
  - apply (so_written s Hs).
  - intros x. pose proof (so_order s Hs x) as Ho. unfold pending in *. cbn.
    destruct (decide (x = c)) as [->|Hne]; [|by rewrite lookup_delete_ne].
    rewrite lookup_delete_eq. cbn. rewrite app_nil_r.
    etrans; [|exact Ho]. by apply sublist_inserts_r.
Qed.

Lemma refuse_ok c s :
  sys_ok s → ids s !! c = None →
  sys_ok (mkSys (hub s) (sessions s) ({[c]} ∪ closed s) (ids s) (reads s) (written s)).
Proof.
  intros Hs Hid. split; cbn; try apply Hs.
  - intros p m x Hr. destruct (so_member s Hs _ _ _ Hr) as [[ph Hp] Hxc]. split; [by eexists|].
    apply (so_ids s Hs) in Hp. assert (x ≠ c) by congruence. set_solver.
  - intros x sx Hx Hxc. apply (so_live s Hs); [done|set_solver].
Qed.

(** What [peer] hands a running session is on the other side of its pair. *)
Lemma peer_opposite c ss s o :
  sys_ok s → sessions s !! c = Some ss → peer (ss_pair ss) (ss_member ss) (hub s) = Some o → opposite s c o.
Proof.
  intros Hs Hc Hp. unfold peer in Hp. destruct (pairs (hub s) !! ss_pair ss) as [ms|] eqn:E; [|done].
  cbn in Hp. apply others_Some in Hp as (m' & Hne & Hm).
  destruct (so_member s Hs (ss_pair ss) m' o) as [[ph Ho] _]; [by exists ms|].
  exists (ss_pair ss), (ss_member ss), m'. split_and!; [done|by apply (so_ids s Hs)|].
  by apply (so_ids s Hs) in Ho.
Qed.

Lemma hub_step_ok e s s' : sys_ok s → step e s = Some s' → sys_ok s'.
Proof.
  intros Hs. destruct e as [c p m|c f|c|c ok|c]; cbn [step].
  { destruct (_ && _) eqn:E; [|done]. apply andb_prop in E as [E1%bool_decide_eq_true E2%bool_decide_eq_true].
    destruct (join p m c (hub s)) as [[|other closes] h] eqn:Ej; intros [= <-]; [|by eapply join_ok].
    apply join_full in Ej as [-> _]. by apply refuse_ok. }
  all: destruct (sessions s !! c) as [ss|] eqn:Ec; [|done]; cbn [mbind option_bind].
  all: pose proof (so_order s Hs c) as Ho; rewrite (pending_session c s ss Ec) in Ho.
  - destruct (ss_phase ss) eqn:Ep; try done. case_bool_decide; [done|]. intros [= <-].
    pose proof (set_phase_ok c ss (Got f) s [f] [] Hs Ec ltac:(done) ltac:(set_solver)) as H'.
    unfold logged in H'. cbn in H'. rewrite app_nil_r in H'. apply H'. cbn in Ho. rewrite app_nil_r in Ho.
    by apply sublist_app.
  - destruct (ss_phase ss) as [|f|] eqn:Ep; try done. cbn in Ho.
    destruct (peer (ss_pair ss) (ss_member ss) (hub s)) as [o|] eqn:Eo; intros [= <-];
      rewrite <- (logged_nil c (set_phase _ _ _ _)); apply set_phase_ok; try done; try (by intros ? ? ?%not_elem_of_nil);
      rewrite ?app_nil_r.
    + intros f' o' [= <- <-]. by eapply peer_opposite.
    + done.
    + etrans; [|exact Ho]. by apply sublist_inserts_r.
  - destruct (ss_phase ss) as [| |f o] eqn:Ep; try done. cbn in Ho. destruct ok.
    + case_bool_decide; [done|]. intros [= <-].
      pose proof (set_phase_ok c ss Reading s [] [(f, o)] Hs Ec ltac:(done)) as H'.
      unfold logged in H'. cbn in H'. rewrite !app_nil_r in H'. apply H'; [|done].
      intros f' o' [= -> ->]%list_elem_of_singleton. by eapply (so_writing s Hs).
    + intros [= <-]. rewrite <- (logged_nil c (set_phase _ _ _ _)).
      apply set_phase_ok; try done; [by intros ? ? ?%not_elem_of_nil|].
      rewrite !app_nil_r. etrans; [|exact Ho]. by apply sublist_inserts_r.
  - destruct (ss_phase ss); try done. intros [= <-]. by apply end_ok.
Qed.
Lemma hub_run_ok es s s' : sys_ok s → run es s = Some s' → sys_ok s'.
Proof.
  revert s. induction es as [|e es IH]; intros s Hs; cbn [run]; [by intros [= <-]|].
  destruct (step e s) as [s1|] eqn:E; [|done]. cbn [mbind option_bind]. apply IH. by eapply hub_step_ok.
Qed.

(** ** Progress *)
Lemma step_keeps e s s' c :
  step e s = Some s' → actor e ≠ c → sessions s' !! c = sessions s !! c.
Proof.
  intros Hst Hne. destruct e as [x p m|x f|x|x ok|x]; cbn [step actor] in *;
    try (destruct (sessions s !! x) as [ss|]; [|done]; cbn [mbind option_bind] in Hst); repeat (case_match; try done);
    simplify_eq; cbn; rewrite ?lookup_insert_ne, ?lookup_delete_ne by done; done.
Qed.
Lemma run_keeps es s s' c :
  run es s = Some s' → Forall (λ e, actor e ≠ c) es → sessions s' !! c = sessions s !! c.
Proof.
  intros Hr Hf. revert s Hr. induction Hf as [|e es He Hf IH]; intros s; cbn [run]; [by intros [= <-]|].
  destruct (step e s) as [s1|] eqn:E; [|done]. cbn [mbind option_bind]. intros ->%IH. by eapply step_keeps.
Qed.

(** C38: a frame gets through.  In any run of the hub, once a session whose
    connection is open has read a frame, its next two steps hand the frame to
    the other member of the pair, no matter which steps of other sessions come
    in between, as long as the other side is there when it is looked up and
    still open when the frame is written. *)
Theorem ws_frame_delivered es0 s0 c p m f s1 es1 s2 o m' s3 es2 s4 :
  run es0 idle = Some s0 → sessions s0 !! c = Some (mkSession p m Reading) →
  step (ERead c f) s0 = Some s1 →
  run es1 s1 = Some s2 → Forall (λ e, actor e ≠ c) es1 → c ∉ closed s2 →
  registered (hub s2) p m' o → m' ≠ m →
  step (EPeer c) s2 = Some s3 →
  run es2 s3 = Some s4 → Forall (λ e, actor e ≠ c) es2 → o ∉ closed s4 →
  ∃ s5, step (EWrite c true) s4 = Some s5 ∧ written s5 = written s4 ++ [(c, f, o)]
    ∧ sessions s5 !! c = Some (mkSession p m Reading).
Proof.
  intros H0 Hc Hread H1 F1 Hcl Hreg Hne Hpeer H2 F2 Ho.
  pose proof (hub_run_ok _ _ _ idle_ok H0) as Hs0. pose proof (hub_step_ok _ _ _ Hs0 Hread) as Hs1.
  pose proof (hub_run_ok _ _ _ Hs1 H1) as Hs2.
  cbn [step] in Hread. rewrite Hc in Hread. cbn in Hread. case_bool_decide; [done|]. injection Hread as Hread.
  assert (sessions s2 !! c = Some (mkSession p m (Got f))) as E2.
  { rewrite (run_keeps _ _ _ _ H1 F1), <- Hread. cbn. by rewrite lookup_insert_eq. }
  cbn [step] in Hpeer. rewrite E2 in Hpeer. cbn in Hpeer.
  assert (peer p m (hub s2) = Some o) as Hpo.
  { apply (peer_spec _ _ _ c); [apply Hs2| |by exists m']. by apply (so_live s2 Hs2 c _ E2). }
  rewrite Hpo in Hpeer. injection Hpeer as Hpeer.
  assert (sessions s4 !! c = Some (mkSession p m (Writing f o))) as E4.
  { rewrite (run_keeps _ _ _ _ H2 F2), <- Hpeer. cbn. by rewrite lookup_insert_eq. }
  cbn [step]. rewrite E4. cbn. rewrite bool_decide_false by done. eexists. split_and!; [done|done|].
  cbn. by rewrite lookup_insert_eq.
Qed.

(** ** Only the two peers of a pair *)

(** What a connection was opened with: the credentials of its request, the peer
    it asked for and the database they were looked up in.  The QUIC handshake
    carries the bare token. *)
Record opening : Type := mkOpening { op_auth : string; op_target : string; op_db : DB }.
(** The server with one of its hubs, and how each connection was opened. *)
Record Relay : Type := mkRelay { rl_world : World; rl_sys : Sys; rl_openings : gmap conn opening }.
Definition keys_in (K : gset string) (w : World) : Prop := ∀ q, q ∈ peers (w_db w) → p_public_key q ∈ K.

(** Sessions open through their handler, run as above, and the rest of the
    server may change the world meanwhile, to a database that meets the
    constraints of its schema; [K] are the keys ever enrolled. *)
Inductive relay_step (quic : bool) (K : gset string) : Relay → Relay → Prop :=
| relay_ws c now later r target pairID self w w' s s' g :
    quic = false → handleRelayWS now later r true target true w = (Good (pairID, self), w') →
    step (EJoin c pairID self) s = Some s' →
    relay_step quic K (mkRelay w s g) (mkRelay w' s' (<[c := mkOpening (hr_Authorization r) target (w_db w)]> g))
| relay_quic c now auth pairID self w s s' g :
    quic = true → serveQUICRelay now (Decoded auth) true true w = inr (pairID, self) →
    step (EJoin c pairID self) s = Some s' →
    relay_step quic K (mkRelay w s g)
      (mkRelay w s' (<[c := mkOpening ("Bearer " +:+ qa_Token auth) (qa_Target auth) (w_db w)]> g))
| relay_serve e w s s' g :
    (∀ c p m, e ≠ EJoin c p m) → step e s = Some s' → relay_step quic K (mkRelay w s g) (mkRelay w s' g)
| relay_world w w' s g :
    db_ok (w_db w') → keys_in K w' → relay_step quic K (mkRelay w s g) (mkRelay w' s g).

(** The connection was opened with the token of the active peer that has key
    [k], and asked for [t]. *)
Definition opened_by (rl : Relay) (c : conn) (k t : string) : Prop :=
  ∃ o id, rl_openings rl !! c = Some o ∧ op_target o = t ∧ bearer_of (op_auth o) (op_db o) id k.

Lemma bearer_in K auth w id k : keys_in K w → bearer_of auth (w_db w) id k → k ∈ K.
Proof. intros HK (token & p & _ & Hp & _ & _ & _ & <-). by apply HK. Qed.
Lemma RelayPairKeys_Ok i target db self :
  RelayPairKeys i target db = Ok (self, true) →
  (∃ p, peer_by_id i db = Some p ∧ self = p_public_key p) ∧ ∃ q, q ∈ peers db ∧ target = p_public_key q.
Proof.
  unfold RelayPairKeys. destruct (peer_by_id i db) as [p|] eqn:Ep; [|done].
  intros [= <- Hc%Z.ltb_lt]. apply count_where_pos in Hc as (q & Hq & Hb).
  apply andb_prop in Hb as [<-%bool_decide_eq_true _]. split; eauto.
Qed.
Lemma handleRelayWS_Good now later r enabled target upgraded w pairID self w' :
  db_ok (w_db w) → handleRelayWS now later r enabled target upgraded w = (Good (pairID, self), w') →
  pairID = relayPairID self target ∧ (∃ id, bearer_of (hr_Authorization r) (w_db w) id self)
  ∧ (∃ q, q ∈ peers (w_db w) ∧ target = p_public_key q) ∧ calm w w'.
Proof.
  intros Hdb. unfold handleRelayWS. destruct enabled; cbn [negb]; [|done].
  destruct (authenticate now later "relay_ws_rejected" r w) as [[rep w1]|[i ip]] eqn:Ea.
  { intros [= -> ->]. exfalso. revert Ea. unfold authenticate. by repeat case_match. }
  case_decide; [done|]. destruct (RelayPairKeys i target (w_db w)) as [[self' []]|] eqn:Er; [|done|done].
  cbn [negb]. destruct upgraded; cbn [negb]; [|done]. intros [= <- <- <-].
  apply RelayPairKeys_Ok in Er as [(p & Hp & ->) Hq]. split_and!; [done| |done|by apply calm_audit].
  exists i. by eapply authenticate_bearer.
Qed.
Lemma serveQUICRelay_session now auth datagrams acked w pairID self :
  db_ok (w_db w) → serveQUICRelay now (Decoded auth) datagrams acked w = inr (pairID, self) →
  pairID = relayPairID self (qa_Target auth) ∧ (∃ id, bearer_of ("Bearer " +:+ qa_Token auth) (w_db w) id self)
  ∧ ∃ q, q ∈ peers (w_db w) ∧ qa_Target auth = p_public_key q.
Proof.
  intros Hdb. unfold serveQUICRelay. destruct (AuthenticatePeer _ _ _ _) as [[i ip]|[]] eqn:Ea; try done.
  destruct (RelayPairKeys i (qa_Target auth) (w_db w)) as [[self' []]|] eqn:Er; try done.
  destruct datagrams; [|done]. destruct acked; [|done]. cbn. intros [= <- <-].
  apply RelayPairKeys_Ok in Er as [(p & Hp & ->) Hq]. split_and!; [done| |done].
  exists i. by eapply AuthenticatePeer_bearer.
Qed.

(** Every connection that joined did so for the peer whose token it brought and
    the one it asked for. *)
Record relay_sound (K : gset string) (rl : Relay) : Prop := {
  rs_sys : sys_ok (rl_sys rl);
  rs_db : db_ok (w_db (rl_world rl));
  rs_keys : keys_in K (rl_world rl);
  rs_ids : ∀ c p m, ids (rl_sys rl) !! c = Some (p, m) →
    ∃ t, opened_by rl c m t ∧ p = relayPairID m t ∧ m ∈ K ∧ t ∈ K;
}.
Lemma join_ids c p m s s' :
  step (EJoin c p m) s = Some s' → ids s !! c = None ∧ (ids s' = ids s ∨ ids s' = <[c := (p, m)]> (ids s)).
Proof.
  cbn [step]. destruct (_ && _) eqn:E; [|done]. apply andb_prop in E as [E%bool_decide_eq_true _].
  destruct (join p m c (hub s)) as [[] h]; intros [= <-]; cbn; auto.
Qed.
Lemma other_ids e s s' : (∀ c p m, e ≠ EJoin c p m) → step e s = Some s' → ids s' = ids s.
Proof.
  intros He. destruct e as [x p m|x f|x|x ok|x]; [by destruct (He x p m)|..]; cbn [step];
    (destruct (sessions s !! x) as [ss|]; [|done]); cbn [mbind option_bind];
    repeat (case_match; try done); by intros [= <-].
Qed.
Lemma opened_join K w s s' g c self o id w' :
  relay_sound K (mkRelay w s g) → db_ok (w_db w') → keys_in K w' →
  bearer_of (op_auth o) (op_db o) id self → self ∈ K → op_target o ∈ K →
  step (EJoin c (relayPairID self (op_target o)) self) s = Some s' →
  relay_sound K (mkRelay w' s' (<[c := o]> g)).
Proof.
  intros [H1 _ _ H3] Hdb HK Hb Hself Htarget Hst. cbn [rl_sys rl_world rl_openings] in *.
  apply join_ids in Hst as Hi. destruct Hi as [Hn Hi].
  split; cbn [rl_sys rl_world rl_openings]; [by eapply hub_step_ok|done|done|]. intros x p m Hx.
  destruct (decide (x = c)) as [->|Hne].
  - destruct Hi as [Hi|Hi]; rewrite Hi in Hx; [congruence|]. rewrite lookup_insert_eq in Hx. simplify_eq.
    exists (op_target o). split_and!; try done. exists o, id. split; [apply lookup_insert_eq|done].
  - destruct (H3 x p m) as (t & (ox & idx & Ho & Hrest) & Hx').
    { destruct Hi as [Hi|Hi]; rewrite Hi in Hx; [done|]. by rewrite lookup_insert_ne in Hx. }
    exists t. split; [|done]. exists ox, idx. split; [|done]. cbn. by rewrite lookup_insert_ne.
Qed.
Lemma relay_step_sound quic K rl rl' : relay_sound K rl → relay_step quic K rl rl' → relay_sound K rl'.
Proof.
  intros Hs Hst. destruct Hst as [c now later r target pairID self w w' s s' g _ Hh Hj
    |c now auth pairID self w s s' g _ Hh Hj|e w s s' g He Hj|w w' s g HK].
  - destruct (handleRelayWS_Good _ _ _ _ _ _ _ _ _ _ (rs_db _ _ Hs) Hh) as (-> & [id Hb] & (q & Hq & Et) & Hc).
    pose proof (rs_keys _ _ Hs) as HK. cbn [rl_world] in HK.
    eapply (opened_join K w s s' g c self (mkOpening _ target _)); [done|exact (calm_ok _ _ Hc)| |exact Hb| |cbn|exact Hj].
    + intros x Hx. destruct (calm_peer_back _ _ _ Hc Hx) as (y & Hy & Hk). rewrite (kr_key _ _ Hk). by apply HK.
    + by eapply bearer_in.
    + rewrite Et. by apply HK.
  - destruct (serveQUICRelay_session _ _ _ _ _ _ _ (rs_db _ _ Hs) Hh) as (-> & [id Hb] & (q & Hq & Et)).
    pose proof (rs_keys _ _ Hs) as HK. cbn [rl_world] in HK.
    eapply (opened_join K w s s' g c self (mkOpening _ (qa_Target auth) _)); [done|apply Hs|done|exact Hb| |cbn|exact Hj].
    + by eapply bearer_in.
    + rewrite Et. by apply HK.
  - destruct Hs as [H1 H2 H3 H4]. split; cbn [rl_sys rl_world rl_openings] in *; [by eapply hub_step_ok|done|done|].
    intros x p m. rewrite (other_ids _ _ _ He Hj). apply H4.
  - destruct Hs as [H1 H2 H3 H4]. by split.
Qed.

(** C18: a relayed frame stays between the two peers of its pair.  However the
    sessions of a hub interleave, with each other and with the rest of the
    server, a frame goes from a connection opened with the token of an active
    peer, asking for another one, to a connection opened with the token of that
    other one, asking for the first, tokens and keys being those of the database
    the request was answered from; the frames of a connection are passed on in
    order and at most once; a pair has at most two members, and none when no
    session is left.  Proviso: no two pairs of the keys ever enrolled have the
    same pair identifier, a truncated SHA-256 hash. *)
Theorem relay_ws_private quic K w rl :
  (∀ a b d e, a ∈ K → b ∈ K → d ∈ K → e ∈ K → relayPairID a b = relayPairID d e → (a = d ∧ b = e) ∨ (a = e ∧ b = d)) →
  db_ok (w_db w) → keys_in K w → rtc (relay_step quic K) (mkRelay w idle ∅) rl →
  (∀ c f o, (c, f, o) ∈ written (rl_sys rl) → ∃ k t, k ≠ t ∧ opened_by rl c k t ∧ opened_by rl o t k)
  ∧ (∀ c, written_from c (rl_sys rl) `sublist_of` read_from c (rl_sys rl))
  ∧ (∀ pairID, (MemberCount pairID (hub (rl_sys rl)) ≤ 2)%nat)
  ∧ (sessions (rl_sys rl) = ∅ → pairs (hub (rl_sys rl)) = ∅).
Proof.
  intros Hinj Hdb HK Hrun.
  assert (relay_sound K rl) as Hs.
  { revert rl Hrun. apply (rtc_ind_r (relay_sound K) (mkRelay w idle ∅)).
    - split; cbn; [apply idle_ok|done|done|]. intros c p m. by rewrite lookup_empty.
    - intros. by eapply relay_step_sound. }
  destruct Hs as [Hs _ _ Hg]. split_and!.
  - intros c f o (p & m & m' & Hne & (t & H1 & -> & Km & Kt)%Hg & (t' & H2 & E & Km' & Kt')%Hg)%(so_written _ Hs).
    apply Hinj in E as [[-> ->]|[-> ->]]; [done| |done..]. exists t', m'. by split_and!.
  - intros c. etrans; [|apply (so_order _ Hs)]. by apply sublist_inserts_r.
  - intros p. unfold MemberCount. destruct (pairs _ !! p) as [ms|] eqn:E; [|lia]. by apply (so_shape _ Hs) in E as [_ ?].
  - intros He. apply map_empty. intros p. destruct (pairs _ !! p) as [ms|] eqn:E; [|done].
    destruct (so_shape _ Hs _ _ E) as [Hn _]. apply map_choose in Hn as (m & c & Hm).
    destruct (so_member _ Hs p m c) as [[ph Hp] _]; [by exists ms|]. by rewrite He, lookup_empty in Hp.
Qed.

(** ** Two peers of the sample mesh *)
Definition ex_keys : list string := ["pubA"; "pubB"; "phone"].
Definition ex_open (token target : string) (w : World) : reply (string * string) * World :=
  handleRelayWS sample_now sample_now (ex_request token) true target true w.
Definition ex_joins (c : conn) (rep : reply (string * string)) (s : Sys) : Sys :=
  match rep with Good (p, m) => default s (step (EJoin c p m) s) | Status _ _ => s end.
Definition ex_w1 : World := (ex_open "AQID" "pubB" ex_world).2.
Definition ex_s1 : Sys := ex_joins 1 (ex_open "AQID" "pubB" ex_world).1 idle.
Definition ex_w2 : World := (ex_open "BAUG" "pubA" ex_w1).2.
Definition ex_s2 : Sys := ex_joins 2 (ex_open "BAUG" "pubA" ex_w1).1 ex_s1.
Definition ex_s3 : Sys := default idle (step (ERead 1 [1; 2; 3]) ex_s2).
Definition ex_s4 : Sys := default idle (step (EPeer 1) ex_s3).
Definition ex_s5 : Sys := default idle (step (EWrite 1 true) ex_s4).
Definition ex_opening (token target : string) (w : World) : opening :=
  mkOpening (hr_Authorization (ex_request token)) target (w_db w).
Definition ex_op1 : gmap conn opening := <[1 := ex_opening "AQID" "pubB" ex_world]> ∅.
Definition ex_op2 : gmap conn opening := <[2 := ex_opening "BAUG" "pubA" ex_w1]> ex_op1.
Definition ex_relayed : Relay := mkRelay ex_w2 ex_s5 ex_op2.

Lemma ex_keys_in w :
  forallb (λ q, bool_decide (p_public_key q ∈ ex_keys)) (peers (w_db w)) = true → keys_in (list_to_set ex_keys) w.
Proof. intros H q Hq. apply elem_of_list_to_set. rewrite forallb_elem in H. by apply H, bool_decide_eq_true in Hq. Qed.
Definition pair_ids (ks : list string) : list (string * string * string) :=
  ks ≫= λ a, (λ b, (a, b, relayPairID a b)) <$> ks.
Definition ids_distinct (t : list (string * string * string)) : bool :=
  forallb (λ x, forallb (λ y, negb (bool_decide (x.2 = y.2))
    || bool_decide ((x.1.1 = y.1.1 ∧ x.1.2 = y.1.2) ∨ (x.1.1 = y.1.2 ∧ x.1.2 = y.1.1))) t) t.
Lemma ids_distinct_ok ks a b d e :
  ids_distinct (pair_ids ks) = true → a ∈ (list_to_set ks : gset string) → b ∈ (list_to_set ks : gset string) →
  d ∈ (list_to_set ks : gset string) → e ∈ (list_to_set ks : gset string) →
  relayPairID a b = relayPairID d e → (a = d ∧ b = e) ∨ (a = e ∧ b = d).
Proof.
  rewrite !elem_of_list_to_set. intros H Ha Hb Hd He E.
  assert (∀ x y, x ∈ ks → y ∈ ks → (x, y, relayPairID x y) ∈ pair_ids ks) as Hin.
  { intros x y Hx Hy. apply list_elem_of_bind. exists x. split; [|done]. apply list_elem_of_fmap. by exists y. }
  unfold ids_distinct in H. rewrite forallb_elem in H. specialize (H _ (Hin a b Ha Hb)).
  rewrite forallb_elem in H. specialize (H _ (Hin d e Hd He)). cbn [fst snd] in H.
  rewrite (bool_decide_true (relayPairID a b = _)) in H by exact E. by apply bool_decide_eq_true in H.
Qed.
Lemma ex_ws_step c token target p m w s g :
  (ex_open token target w).1 = Good (p, m) → is_Some (step (EJoin c p m) s) →
  relay_step false (list_to_set ex_keys) (mkRelay w s g)
    (mkRelay (ex_open token target w).2 (ex_joins c (ex_open token target w).1 s) (<[c := ex_opening token target w]> g)).
Proof.
  intros Hh [s' Hs]. eapply relay_ws; [done| |].
  - fold (ex_open token target w). rewrite <- Hh. apply surjective_pairing.
  - rewrite Hh. cbn [ex_joins]. by rewrite Hs.
Qed.
Lemma ex_serve_step e w s g :
  (∀ c p m, e ≠ EJoin c p m) → is_Some (step e s) →
  relay_step false (list_to_set ex_keys) (mkRelay w s g) (mkRelay w (default idle (step e s)) g).
Proof. intros He [s' Hs]. econstructor; [exact He|]. by rewrite Hs. Qed.

Lemma ex_ids : ids_distinct (pair_ids ex_keys) = true.
Proof. vm_compute. reflexivity. Qed.
Lemma ex_opened_1 :
  relay_step false (list_to_set ex_keys) (mkRelay ex_world idle ∅) (mkRelay ex_w1 ex_s1 ex_op1).
Proof.
  unfold ex_w1, ex_s1. eapply (ex_ws_step 1 "AQID" "pubB"); [vm_compute; reflexivity|vm_compute; by eexists].
Qed.
Lemma ex_opened_2 :
  relay_step false (list_to_set ex_keys) (mkRelay ex_w1 ex_s1 ex_op1) (mkRelay ex_w2 ex_s2 ex_op2).
Proof.
  unfold ex_w2, ex_s2. eapply (ex_ws_step 2 "BAUG" "pubA"); [vm_compute; reflexivity|vm_compute; by eexists].
Qed.
Lemma ex_passed : rtc (relay_step false (list_to_set ex_keys)) (mkRelay ex_world idle ∅) ex_relayed.
Proof.
  eapply rtc_l; [apply ex_opened_1|]. eapply rtc_l; [apply ex_opened_2|].
  eapply rtc_l; [apply (ex_serve_step (ERead 1 [1; 2; 3])); [done|vm_compute; by eexists]|].
  eapply rtc_l; [apply (ex_serve_step (EPeer 1)); [done|vm_compute; by eexists]|].
  apply rtc_once. unfold ex_relayed, ex_s5, ex_s4, ex_s3.
  apply (ex_serve_step (EWrite 1 true)); [done|vm_compute; by eexists].
Qed.
Lemma ex_written : written (rl_sys ex_relayed) = [(1, [1; 2; 3], 2)].
Proof. vm_compute. reflexivity. Qed.

Lemma relay_ws_private_witness :
  written (rl_sys ex_relayed) = [(1, [1; 2; 3], 2)]
  ∧ (∃ k t, k ≠ t ∧ opened_by ex_relayed 1 k t ∧ opened_by ex_relayed 2 t k).
Proof.
  destruct (relay_ws_private false (list_to_set ex_keys) ex_world ex_relayed) as (H1 & _).
  - intros a b d e. apply ids_distinct_ok. exact ex_ids.
  - exact ex_world_ok.
  - apply ex_keys_in. vm_compute. reflexivity.
  - exact ex_passed.
  - split; [exact ex_written|]. apply (H1 1 [1; 2; 3] 2). rewrite ex_written. left.
Defined.

(** Three sessions: the frame of the first reaches the second while a third one
    of another pair comes in. *)
Definition ex_two : Sys := default idle (run [EJoin 1 "ab" "a"; EJoin 2 "ab" "b"] idle).
Definition ex_got : Sys := default idle (step (ERead 1 [1; 2; 3]) ex_two).
Definition ex_found : Sys := default idle (step (EPeer 1) ex_got).
Definition ex_third : Sys := default idle (run [EJoin 3 "ac" "c"] ex_found).
Lemma ws_frame_delivered_witness :
  ∃ s5, step (EWrite 1 true) ex_third = Some s5 ∧ (1, [1; 2; 3], 2) ∈ written s5.
Proof.
  destruct (ws_frame_delivered [EJoin 1 "ab" "a"; EJoin 2 "ab" "b"] ex_two 1 "ab" "a" [1; 2; 3] ex_got [] ex_got
    2 "b" ex_found [EJoin 3 "ac" "c"] ex_third) as (s5 & H1 & H2 & _).
  all: try (vm_compute; reflexivity).
  - constructor.
  - by apply (bool_decide_eq_true_1 (1 ∉ closed ex_got)); vm_compute.
  - eexists. split; [vm_compute; reflexivity|]. vm_compute. reflexivity.
  - discriminate.
  - repeat constructor. discriminate.
  - by apply (bool_decide_eq_true_1 (2 ∉ closed ex_third)); vm_compute.
  - exists s5. split; [exact H1|]. rewrite H2. apply elem_of_app. right. left.
Defined.
