(* ===== verification/Uapi.v ===== *)
(** * The embedded WireGuard device

    cmd/agent/wgbackend.go and wgbackend_windows.go: on Windows the agent drives
    an in-process wireguard-go device through the text protocol of WireGuard's
    cross-platform interface.  [buildIPCSet] writes a configuration, [parseUAPI]
    reads the device back, and [embedded] makes a backend for the rest of the
    agent out of the two.

    Keys are their base64 text and networks and endpoints their printed form,
    as in [Sync]; the zero preshared key is [no_psk].  The device itself is a
    library: the class [Uapi] with the documented protocol as [UapiLaws]. *)
From S2P Require Import Prelude GoText TimeText NetAddr Codec HostPort NetCidr Sync.
From Stdlib Require Import Ascii.

(** ** Keys *)
Fixpoint hex_decode_chars (l : list ascii) : option (list Z) :=
  match l with
  | [] => Some []
  | a :: b :: l => x ← hex_val a; y ← hex_val b; r ← hex_decode_chars l; Some (16 * x + y :: r)
  | _ => None
  end.
(** [hex.DecodeString] *)
Definition hex_decode (s : string) : option (list Z) := hex_decode_chars (chars s).

Definition zero_key : list Z := replicate 32 0.
(** The bytes of a key's text and back. *)
Definition key_bytes (k : string) : list Z :=
  if decide (k = no_psk) then zero_key else default [] (b64_std_decode k).
Definition key_text (b : list Z) : string := if decide (b = zero_key) then no_psk else StdEncode b.

Definition hexKey (k : string) : string := hex_encode (key_bytes k).
Definition parseHexKey (s : string) : result string :=
  match hex_decode s with
  | None => Err (ErrMsg "decode hex key")
  | Some raw =>
      if (length raw =? 32)%nat then Ok (key_text raw) else Err (ErrMsg "wgtypes: incorrect key size")
  end.

(** ** Writing *)

(** [wgtypes.Config] *)
Record WgConfig : Type := mkWgConfig {
  wc_PrivateKey : option string; wc_ListenPort : option Z; wc_FirewallMark : option Z;
  wc_ReplacePeers : bool; wc_Peers : list PeerConfig
}.

Definition opt_line {A} (k : string) (f : A → string) (o : option A) : list (string * string) :=
  match o with Some x => [(k, f x)] | None => [] end.
Definition flag_line (k : string) (b : bool) : list (string * string) := if b then [(k, "true")] else [].

(** The keepalive is sent in whole seconds. *)
Definition peer_lines (p : PeerConfig) : list (string * string) :=
  ("public_key", hexKey (cf_PublicKey p))
  :: if cf_Remove p then [("remove", "true")]
     else flag_line "update_only" (cf_UpdateOnly p)
          ++ opt_line "preshared_key" hexKey (cf_PresharedKey p)
          ++ opt_line "endpoint" id (cf_Endpoint p)
          ++ opt_line "persistent_keepalive_interval" (λ d, Itoa (d ÷ Second)) (cf_Keepalive p)
          ++ flag_line "replace_allowed_ips" (cf_ReplaceAllowedIPs p)
          ++ (pair "allowed_ip" <$> cf_AllowedIPs p).
Definition set_lines (c : WgConfig) : list (string * string) :=
  opt_line "private_key" hexKey (wc_PrivateKey c)
  ++ opt_line "listen_port" Itoa (wc_ListenPort c)
  ++ opt_line "fwmark" Itoa (wc_FirewallMark c)
  ++ flag_line "replace_peers" (wc_ReplacePeers c)
  ++ (wc_Peers c ≫= peer_lines).
Definition line_text (kv : string * string) : string := kv.1 +:+ "=" +:+ kv.2.
Definition lines_text (l : list (string * string)) : string :=
  foldr (λ kv s, line_text kv +:+ String "010" s) "" l.
Definition buildIPCSet (c : WgConfig) : string := lines_text (set_lines c).

(** ** Reading *)

(** [wgtypes.Peer] with its counters, and [wgtypes.Device]; [None] is the zero
    time. *)
Record UPeer : Type := mkUPeer {
  up_PublicKey : string; up_PresharedKey : string; up_Endpoint : option string; up_Keepalive : Z;
  up_LastHandshake : option Z; up_ReceiveBytes : Z; up_TransmitBytes : Z; up_AllowedIPs : list string
}.
Record UDevice : Type := mkUDevice {
  ud_PrivateKey : string; ud_PublicKey : string; ud_ListenPort : Z; ud_FirewallMark : Z; ud_Peers : list UPeer
}.
Definition new_upeer (k : string) : UPeer := mkUPeer k no_psk None 0 None 0 0 [].

(** [netip.ParseAddrPort], then [net.UDPAddrFromAddrPort(...).String()]. *)
Definition udp_string (a : Addr) (port : Z) : string :=
  let zone := if decide (addr_zone a = "") then "" else String "%" (addr_zone a) in
  let ip := match a with
            | NoAddr => ""
            | V4 z => string4 z
            | V6 z _ => if Is4In6 z then string4 (z mod 2 ^ 32) else string6 z
            end in
  JoinHostPort (ip +:+ zone) (Itoa port).
Definition unbracket (ip : string) : option (string * bool) :=
  match ip with
  | String "[" rest =>
      match cut_last "]" rest with
      | Some (inner, "") => Some (inner, true)
      | _ => None
      end
  | _ => Some (ip, false)
  end.
Definition udp_endpoint (s : string) : option string :=
  '(ip, port) ← cut_last ":" s;
  if bool_decide (ip = "") || bool_decide (port = "") then None
  else
    '(ip, v6) ← unbracket ip;
    p ← digits port;
    if 65535 <? p then None
    else a ← ParseAddr ip; if bool_decide (v6 = Is4 a) then None else Some (udp_string a p).

Definition parse_int (what value : string) : result Z :=
  match ParseInt value with Some n => Ok n | None => Err (ErrMsg ("parse " +:+ what +:+ " " +:+ value)) end.

(** [applyPeerField]: the peer and the seconds of its last handshake, which
    come before the nanoseconds.  [time.Duration] products wrap at 64 bits. *)
Definition wrap64 (z : Z) : Z := (z + 2 ^ 63) mod 2 ^ 64 - 2 ^ 63.
Definition applyPeerField (key value : string) (st : UPeer * Z) : result (UPeer * Z) :=
  let '(p, hsSec) := st in
  if decide (key = "preshared_key") then
    k ← parseHexKey value;
    Ok (mkUPeer (up_PublicKey p) k (up_Endpoint p) (up_Keepalive p) (up_LastHandshake p)
          (up_ReceiveBytes p) (up_TransmitBytes p) (up_AllowedIPs p), hsSec)
  else if decide (key = "endpoint") then
    match udp_endpoint value with
    | None => Err (ErrMsg ("parse endpoint " +:+ value))
    | Some e =>
        Ok (mkUPeer (up_PublicKey p) (up_PresharedKey p) (Some e) (up_Keepalive p) (up_LastHandshake p)
              (up_ReceiveBytes p) (up_TransmitBytes p) (up_AllowedIPs p), hsSec)
    end
  else if decide (key = "last_handshake_time_sec") then
    n ← parse_int key value;
    Ok (mkUPeer (up_PublicKey p) (up_PresharedKey p) (up_Endpoint p) (up_Keepalive p)
          (if n =? 0 then up_LastHandshake p else Some (n * Second))
          (up_ReceiveBytes p) (up_TransmitBytes p) (up_AllowedIPs p), n)
  else if decide (key = "last_handshake_time_nsec") then
    n ← parse_int key value;
    Ok (mkUPeer (up_PublicKey p) (up_PresharedKey p) (up_Endpoint p) (up_Keepalive p)
          (if (hsSec =? 0) && (n =? 0) then up_LastHandshake p else Some (hsSec * Second + n))
          (up_ReceiveBytes p) (up_TransmitBytes p) (up_AllowedIPs p), hsSec)
  else if decide (key = "tx_bytes") then
    n ← parse_int key value;
    Ok (mkUPeer (up_PublicKey p) (up_PresharedKey p) (up_Endpoint p) (up_Keepalive p) (up_LastHandshake p)
          (up_ReceiveBytes p) n (up_AllowedIPs p), hsSec)
  else if decide (key = "rx_bytes") then
    n ← parse_int key value;
    Ok (mkUPeer (up_PublicKey p) (up_PresharedKey p) (up_Endpoint p) (up_Keepalive p) (up_LastHandshake p)
          n (up_TransmitBytes p) (up_AllowedIPs p), hsSec)
  else if decide (key = "persistent_keepalive_interval") then
    n ← parse_int key value;
    Ok (mkUPeer (up_PublicKey p) (up_PresharedKey p) (up_Endpoint p) (wrap64 (n * Second)) (up_LastHandshake p)
          (up_ReceiveBytes p) (up_TransmitBytes p) (up_AllowedIPs p), hsSec)
  else if decide (key = "allowed_ip") then
    match ParseCIDR value with
    | None => Err (ErrMsg ("parse allowed_ip " +:+ value))
    | Some n =>
        Ok (mkUPeer (up_PublicKey p) (up_PresharedKey p) (up_Endpoint p) (up_Keepalive p) (up_LastHandshake p)
              (up_ReceiveBytes p) (up_TransmitBytes p) (up_AllowedIPs p ++ [n]), hsSec)
    end
  else Ok (p, hsSec).

(** [Key.PublicKey] is curve arithmetic of the wgctrl module. *)
Section parse.
Context (PublicKeyOf : string → string).

(** The peer most recently opened is kept apart from the finished ones. *)
Record pstate : Type := mkPstate { ps_dev : UDevice; ps_cur : option (UPeer * Z) }.
Definition close_peer (s : pstate) : UDevice :=
  let d := ps_dev s in
  match ps_cur s with
  | None => d
  | Some (p, _) =>
      mkUDevice (ud_PrivateKey d) (ud_PublicKey d) (ud_ListenPort d) (ud_FirewallMark d) (ud_Peers d ++ [p])
  end.
Definition with_dev (f : UDevice → UDevice) (s : pstate) : pstate := mkPstate (f (ps_dev s)) (ps_cur s).

Definition parse_field (key value : string) (s : pstate) : result pstate :=
  if decide (key = "private_key") then
    match parseHexKey value with
    | Err _ => Err (ErrMsg "parse private_key")
    | Ok k => Ok (with_dev (λ d, mkUDevice k (PublicKeyOf k) (ud_ListenPort d) (ud_FirewallMark d) (ud_Peers d)) s)
    end
  else if decide (key = "listen_port") then
    n ← parse_int key value;
    Ok (with_dev (λ d, mkUDevice (ud_PrivateKey d) (ud_PublicKey d) n (ud_FirewallMark d) (ud_Peers d)) s)
  else if decide (key = "fwmark") then
    n ← parse_int key value;
    Ok (with_dev (λ d, mkUDevice (ud_PrivateKey d) (ud_PublicKey d) (ud_ListenPort d) n (ud_Peers d)) s)
  else if decide (key = "errno" ∨ key = "protocol_version") then Ok s
  else if decide (key = "public_key") then
    match parseHexKey value with
    | Err _ => Err (ErrMsg "parse public_key")
    | Ok k => Ok (mkPstate (close_peer s) (Some (new_upeer k, 0)))
    end
  else match ps_cur s with
       | None => Ok s
       | Some cur => c ← applyPeerField key value cur; Ok (mkPstate (ps_dev s) (Some c))
       end.
Fixpoint parse_lines (ls : list string) (s : pstate) : result pstate :=
  match ls with
  | [] => Ok s
  | l :: ls =>
      if decide (l = "") then parse_lines ls s
      else match cut "=" l with
           | None => parse_lines ls s
           | Some (key, value) => s ← parse_field key value s; parse_lines ls s
           end
  end.
Definition parseUAPI (conf : string) : result UDevice :=
  s ← parse_lines (Split conf "010") (mkPstate (mkUDevice "" "" 0 0 []) None); Ok (close_peer s).
End parse.

(** ** The protocol

    What the cross-platform interface documents of "set", as far as peers are
    concerned: lines up to the first blank one; [public_key] opens a peer, which
    comes into being unless [update_only] says otherwise; [allowed_ip] takes the
    network from whoever had it; a line it does not know is an error. *)
Record sstate : Type := mkSstate { s_dev : device; s_cur : option string; s_new : bool }.
Definition empty_peer : WgPeer := mkWgPeer None None [] no_psk 0.
Definition on_cur (f : WgPeer → WgPeer) (s : sstate) : sstate :=
  match s_cur s with
  | None => s
  | Some k => mkSstate (alter f k (s_dev s)) (s_cur s) (s_new s)
  end.
Definition drop_cur (s : sstate) : sstate :=
  match s_cur s with
  | None => s
  | Some k => mkSstate (delete k (s_dev s)) None false
  end.
Definition without (n : string) (p : WgPeer) : WgPeer :=
  mkWgPeer (wp_Endpoint p) (wp_LastHandshake p) (filter (λ r, r ≠ n) (wp_AllowedIPs p)) (wp_PresharedKey p) (wp_Keepalive p).
Definition claim (n : string) (s : sstate) : sstate :=
  match s_cur s with
  | None => s
  | Some k =>
      mkSstate (alter (λ p, mkWgPeer (wp_Endpoint p) (wp_LastHandshake p) (wp_AllowedIPs p ++ [n])
                              (wp_PresharedKey p) (wp_Keepalive p)) k (without n <$> s_dev s)) (s_cur s) (s_new s)
  end.
Definition uapi_key (value : string) : option string :=
  b ← hex_decode value; if (length b =? 32)%nat then Some (key_text b) else None.

Definition set_field (key value : string) (s : sstate) : option sstate :=
  if decide (key = "public_key") then
    k ← uapi_key value;
    Some (match s_dev s !! k with
          | Some _ => mkSstate (s_dev s) (Some k) false
          | None => mkSstate (<[k := empty_peer]> (s_dev s)) (Some k) true
          end)
  else if decide (key = "remove") then if decide (value = "true") then Some (drop_cur s) else None
  else if decide (key = "update_only") then
    if decide (value = "true") then Some (if s_new s then drop_cur s else s) else None
  else if decide (key = "preshared_key") then
    k ← uapi_key value;
    Some (on_cur (λ p, mkWgPeer (wp_Endpoint p) (wp_LastHandshake p) (wp_AllowedIPs p) k (wp_Keepalive p)) s)
  else if decide (key = "endpoint") then
    e ← udp_endpoint value;
    Some (on_cur (λ p, mkWgPeer (Some e) (wp_LastHandshake p) (wp_AllowedIPs p) (wp_PresharedKey p) (wp_Keepalive p)) s)
  else if decide (key = "persistent_keepalive_interval") then
    n ← digits value;
    if n <=? 65535
    then Some (on_cur (λ p, mkWgPeer (wp_Endpoint p) (wp_LastHandshake p) (wp_AllowedIPs p) (wp_PresharedKey p) (n * Second)) s)
    else None
  else if decide (key = "replace_allowed_ips") then
    if decide (value = "true")
    then Some (on_cur (λ p, mkWgPeer (wp_Endpoint p) (wp_LastHandshake p) [] (wp_PresharedKey p) (wp_Keepalive p)) s)
    else None
  else if decide (key = "allowed_ip") then n ← ParseCIDR value; Some (claim n s)
  else None.
Fixpoint set_loop (ls : list string) (s : sstate) : option sstate :=
  match ls with
  | [] => Some s
  | l :: ls =>
      if decide (l = "") then Some s
      else '(key, value) ← cut "=" l; s ← set_field key value s; set_loop ls s
  end.
Definition uapi_set (txt : string) (m : device) : option device :=
  s_dev <$> set_loop (Split txt "010") (mkSstate m None false).

(** And of "get": the device's own settings, then each peer's. *)
Definition get_lines (u : UPeer) : list (string * string) :=
  [("public_key", hexKey (up_PublicKey u)); ("preshared_key", hexKey (up_PresharedKey u)); ("protocol_version", "1")]
  ++ opt_line "endpoint" id (up_Endpoint u)
  ++ [("last_handshake_time_sec", Itoa (default 0 (up_LastHandshake u) / Second));
      ("last_handshake_time_nsec", Itoa (default 0 (up_LastHandshake u) mod Second));
      ("tx_bytes", Itoa (up_TransmitBytes u)); ("rx_bytes", Itoa (up_ReceiveBytes u));
      ("persistent_keepalive_interval", Itoa (up_Keepalive u ÷ Second))]
  ++ (pair "allowed_ip" <$> up_AllowedIPs u).
Definition nonzero_line (k : string) (n : Z) : list (string * string) := if n =? 0 then [] else [(k, Itoa n)].
Definition get_text (priv : string) (port mark : Z) (ups : list UPeer) : string :=
  lines_text (("private_key", hexKey priv) :: nonzero_line "listen_port" port ++ nonzero_line "fwmark" mark
              ++ (ups ≫= get_lines)).
Definition wg_peer (u : UPeer) : WgPeer :=
  mkWgPeer (up_Endpoint u) (up_LastHandshake u) (up_AllowedIPs u) (up_PresharedKey u) (up_Keepalive u).
Definition udev (ups : list UPeer) : device := list_to_map ((λ u, (up_PublicKey u, wg_peer u)) <$> ups).

(** Values as the types of the wgctrl module hold them. *)
Definition one_line (s : string) : bool := no_char "010" s.
Definition key_ok (k : string) : bool :=
  bool_decide (key_text (key_bytes k) = k) && (length (key_bytes k) =? 32)%nat && forallb is_byte (key_bytes k).
Definition endpoint_ok (e : string) : bool := bool_decide (udp_endpoint e = Some e) && one_line e.
Definition network_ok (r : string) : bool := bool_decide (ParseCIDR r = Some r) && one_line r.
Definition keepalive_ok (d : Z) : bool := (d =? d ÷ Second * Second) && (0 <=? d) && (d <=? 65535 * Second).
Definition opt_ok {A} (f : A → bool) (o : option A) : bool := match o with Some x => f x | None => true end.
Definition config_ok (c : PeerConfig) : bool :=
  key_ok (cf_PublicKey c) && opt_ok key_ok (cf_PresharedKey c) && opt_ok endpoint_ok (cf_Endpoint c)
  && opt_ok keepalive_ok (cf_Keepalive c) && forallb network_ok (cf_AllowedIPs c).
Definition upeer_ok (u : UPeer) : bool :=
  key_ok (up_PublicKey u) && key_ok (up_PresharedKey u) && opt_ok endpoint_ok (up_Endpoint u)
  && keepalive_ok (up_Keepalive u)
  && opt_ok (λ t, (0 <? t) && (t <? 2 ^ 63)) (up_LastHandshake u)
  && in_int64 (up_ReceiveBytes u) && in_int64 (up_TransmitBytes u) && forallb network_ok (up_AllowedIPs u).

Class Uapi (D : Type) : Type := {
  IpcGet : D → option string;
  IpcSet : string → D → option D;
  uapi_view : D → device
}.
(** "get" lists the peers in some order, each once, and the networks of each in
    some order, each once; a "set" that succeeds does what the protocol says, and
    leaves a device that can be read. *)
Class UapiLaws (D : Type) `{Uapi D} : Prop := {
  ipc_get d conf : IpcGet d = Some conf →
    ∃ priv port mark ups, conf = get_text priv port mark ups
      ∧ key_ok priv = true ∧ in_int64 port = true ∧ in_int64 mark = true
      ∧ forallb upeer_ok ups = true ∧ NoDup (up_PublicKey <$> ups)
      ∧ Forall (λ u, NoDup (up_AllowedIPs u)) ups ∧ same_device (uapi_view d) (udev ups);
  ipc_set txt d d' : IpcSet txt d = Some d' →
    is_Some (IpcGet d') ∧ ∃ m, uapi_set txt (uapi_view d) = Some m ∧ same_device m (uapi_view d')
}.

(** ** The backend

    [embeddedBackend]: only configurations that the types of the wgctrl module
    can hold exist, which [config_ok] says of their texts. *)
Section embedded.
Context (PublicKeyOf : string → string) (D : Type) `{Uapi D}.
Definition embedded_Device (d : D) : option UDevice :=
  conf ← IpcGet d; match parseUAPI PublicKeyOf conf with Ok dev => Some dev | Err _ => None end.
Definition embedded_ConfigureDevice (cfg : WgConfig) (d : D) : option D := IpcSet (buildIPCSet cfg) d.

(** As the agent's loop sees it. *)
Definition embedded : WgBackend D := {|
  Device d := udev ∘ ud_Peers <$> embedded_Device d;
  ConfigureDevice cs d :=
    if forallb config_ok cs then embedded_ConfigureDevice (mkWgConfig None None None false cs) d else None
|}.
End embedded.
