(* ===== verification/UapiFacts.v ===== *)
(** * Facts about the embedded WireGuard device

    A device that is written out is read back as it is; and the embedded device,
    driven through its text protocol, is a backend in the sense of [Sync]: a
    configuration the agent sends has the effect the agent means. *)
From S2P Require Import Prelude GoText TimeText NetAddr NetFacts Codec SchemaFacts HostPort Sync NetCidr NumText Uapi.
From Stdlib Require Import Ascii.

(** ** Lines *)
Definition pair_ok (kv : string * string) : Prop :=
  no_char "=" kv.1 = true ∧ one_line kv.1 = true ∧ one_line kv.2 = true.

Lemma line_text_cons k v : line_text (k, v) = k +:+ String "=" v.
Proof. done. Qed.
Lemma Split_lines l :
  Forall pair_ok l → Split (lines_text l) "010" = (line_text <$> l) ++ [""].
Proof.
  induction 1 as [|[k v] l (H1 & H2 & H3) _ IH]; [done|]. cbn [lines_text foldr fmap list_fmap app].
  fold (lines_text l). rewrite Split_app, IH; [done|].
  rewrite line_text_cons, no_char_app. unfold one_line in *. cbn [fst snd] in *. rewrite H2, no_char_cons, H3. done.
Qed.
Lemma line_nonempty kv : line_text kv ≠ "".
Proof. destruct kv as [[|a k] v]; done. Qed.
Lemma cut_line kv : pair_ok kv → cut "=" (line_text kv) = Some kv.
Proof. destruct kv as [k v]. intros (H & _). rewrite line_text_cons. by apply cut_app. Qed.

Fixpoint fields {S} (f : string → string → S → result S) (l : list (string * string)) (s : S) : result S :=
  match l with [] => Ok s | kv :: l => s ← f kv.1 kv.2 s; fields f l s end.
Lemma fields_app {S} f l1 l2 (s : S) : fields f (l1 ++ l2) s = (s ← fields f l1 s; fields f l2 s).
Proof. revert s. induction l1 as [|kv l1 IH]; intros s; [done|]. cbn. by destruct (f kv.1 kv.2 s); cbn. Qed.
Lemma parse_lines_fields pk l s :
  Forall pair_ok l → parse_lines pk ((line_text <$> l) ++ [""]) s = fields (parse_field pk) l s.
Proof.
  intros Hl. revert s. induction Hl as [|kv l Hkv _ IH]; intros s; [done|].
  cbn [fmap list_fmap app parse_lines fields]. rewrite decide_False by apply line_nonempty. rewrite cut_line by done.
  destruct kv as [k v]. cbn [fst snd]. destruct (parse_field pk k v s); cbn; [apply IH|done].
Qed.
Fixpoint sfields (l : list (string * string)) (s : sstate) : option sstate :=
  match l with [] => Some s | kv :: l => s ← set_field kv.1 kv.2 s; sfields l s end.
Lemma sfields_app l1 l2 s : sfields (l1 ++ l2) s = (s ← sfields l1 s; sfields l2 s).
Proof. revert s. induction l1 as [|kv l1 IH]; intros s; [done|]. cbn. by destruct (set_field kv.1 kv.2 s); cbn. Qed.
Lemma set_loop_fields l s : Forall pair_ok l → set_loop ((line_text <$> l) ++ [""]) s = sfields l s.
Proof.
  intros Hl. revert s. induction Hl as [|kv l Hkv _ IH]; intros s; [done|].
  cbn [fmap list_fmap app set_loop sfields]. rewrite decide_False by apply line_nonempty. rewrite cut_line by done.
  cbn [mbind option_bind]. destruct kv as [k v]. cbn [fst snd]. destruct (set_field k v s); cbn; [apply IH|done].
Qed.

(** ** Keys *)
Lemma hex_decode_encode b : forallb is_byte b = true → hex_decode (hex_encode b) = Some b.
Proof.
  unfold hex_decode. induction b as [|x b IH]; [done|]. cbn [forallb hex_encode].
  intros [Hx Hb]%andb_prop. unfold is_byte in Hx. apply andb_prop in Hx as [H1%Z.leb_le H2%Z.ltb_lt].
  change (chars (String ?a (String ?c ?s))) with (a :: c :: chars s). cbn [hex_decode_chars].
  rewrite !hex_val_char by (split; [by apply Z.div_pos || by apply Z.mod_pos_bound|];
    first [by apply Z.div_lt_upper_bound; lia|by apply Z.mod_pos_bound]).
  cbn [mbind option_bind]. rewrite IH by done. cbn [mbind option_bind]. f_equal. f_equal.
  pose proof (Z.div_mod x 16). lia.
Qed.
Lemma hex_one_line b : forallb is_byte b = true → one_line (hex_encode b) = true.
Proof.
  unfold one_line. induction b as [|x b IH]; [done|]. cbn [forallb hex_encode].
  intros [Hx Hb]%andb_prop. unfold is_byte in Hx. apply andb_prop in Hx as [H1%Z.leb_le H2%Z.ltb_lt].
  rewrite !no_char_cons, IH by done.
  assert (∀ d, 0 ≤ d < 16 → bool_decide (hex_char d ≠ "010"%char) = true) as Hd.
  { intros d Hd. apply bool_decide_eq_true. assert (hex_val (hex_char d) = Some d) as E by (by apply hex_val_char).
    intros E'. by rewrite E' in E. }
  rewrite !Hd; [done|by apply Z.mod_pos_bound|].
  split; [by apply Z.div_pos|by apply Z.div_lt_upper_bound; lia].
Qed.
Lemma key_ok_spec k :
  key_ok k = true → key_text (key_bytes k) = k ∧ length (key_bytes k) = 32%nat ∧ forallb is_byte (key_bytes k) = true.
Proof.
  unfold key_ok. intros [[H1%bool_decide_eq_true H2%Nat.eqb_eq]%andb_prop H3]%andb_prop. done.
Qed.
Lemma parseHexKey_hexKey k : key_ok k = true → parseHexKey (hexKey k) = Ok k.
Proof.
  intros (H1 & H2 & H3)%key_ok_spec. unfold parseHexKey, hexKey. rewrite hex_decode_encode by done.
  by rewrite H2, H1.
Qed.
Lemma uapi_key_hexKey k : key_ok k = true → uapi_key (hexKey k) = Some k.
Proof.
  intros (H1 & H2 & H3)%key_ok_spec. unfold uapi_key, hexKey. rewrite hex_decode_encode by done.
  cbn [mbind option_bind]. by rewrite H2, H1.
Qed.
Lemma hexKey_one_line k : key_ok k = true → one_line (hexKey k) = true.
Proof. intros (_ & _ & H3)%key_ok_spec. by apply hex_one_line. Qed.
Lemma Itoa_one_line z : one_line (Itoa z) = true.
Proof.
  unfold one_line. destruct (decide (0 ≤ z)) as [Hz|Hz]; [by apply no_char_Itoa|].
  destruct z as [|p|p]; [lia|lia|]. change (Itoa (Z.neg p)) with (String "-" (Itoa (Z.pos p))).
  rewrite no_char_cons. by rewrite no_char_Itoa by done.
Qed.

(** ** Reading back *)
Lemma parse_int_Itoa what n : in_int64 n = true → parse_int what (Itoa n) = Ok n.
Proof. intros H. unfold parse_int. by rewrite ParseInt_Itoa. Qed.

Lemma fields_cons {S} (f : string → string → S → result S) k v l s s' :
  f k v s = Ok s' → fields f ((k, v) :: l) s = fields f l s'.
Proof. cbn [fields fst snd]. by intros ->. Qed.
Lemma keepalive_spec d : keepalive_ok d = true → d = d ÷ Second * Second ∧ 0 ≤ d ÷ Second ≤ 65535.
Proof.
  unfold keepalive_ok. intros [[H1%Z.eqb_eq H2%Z.leb_le]%andb_prop H3%Z.leb_le]%andb_prop. split; [done|].
  unfold Second, Millisecond in *. lia.
Qed.

(** The equations of the single fields. *)
Lemma field_psk k' k psk ep ka hs rx tx al h : key_ok k' = true →
  applyPeerField "preshared_key" (hexKey k') (mkUPeer k psk ep ka hs rx tx al, h) = Ok (mkUPeer k k' ep ka hs rx tx al, h).
Proof.
  intros H. transitivity (k' ← parseHexKey (hexKey k'); Ok (mkUPeer k k' ep ka hs rx tx al, h)); [reflexivity|].
  by rewrite parseHexKey_hexKey.
Qed.
Lemma field_endpoint e k psk ep ka hs rx tx al h : endpoint_ok e = true →
  applyPeerField "endpoint" e (mkUPeer k psk ep ka hs rx tx al, h) = Ok (mkUPeer k psk (Some e) ka hs rx tx al, h).
Proof.
  intros [H%bool_decide_eq_true _]%andb_prop.
  transitivity (match udp_endpoint e with None => Err (ErrMsg ("parse endpoint " +:+ e))
                | Some e => Ok (mkUPeer k psk (Some e) ka hs rx tx al, h) end); [reflexivity|]. by rewrite H.
Qed.
Lemma field_sec n k psk ep ka rx tx al h : in_int64 n = true →
  applyPeerField "last_handshake_time_sec" (Itoa n) (mkUPeer k psk ep ka None rx tx al, h)
  = Ok (mkUPeer k psk ep ka (if n =? 0 then None else Some (n * Second)) rx tx al, n).
Proof.
  intros H. transitivity (n ← parse_int "last_handshake_time_sec" (Itoa n);
    Ok (mkUPeer k psk ep ka (if n =? 0 then None else Some (n * Second)) rx tx al, n)); [reflexivity|]. by rewrite parse_int_Itoa.
Qed.
Lemma field_nsec n k psk ep ka hs rx tx al h : in_int64 n = true →
  applyPeerField "last_handshake_time_nsec" (Itoa n) (mkUPeer k psk ep ka hs rx tx al, h)
  = Ok (mkUPeer k psk ep ka (if (h =? 0) && (n =? 0) then hs else Some (h * Second + n)) rx tx al, h).
Proof.
  intros H. transitivity (n ← parse_int "last_handshake_time_nsec" (Itoa n);
    Ok (mkUPeer k psk ep ka (if (h =? 0) && (n =? 0) then hs else Some (h * Second + n)) rx tx al, h)); [reflexivity|].
  by rewrite parse_int_Itoa.
Qed.
Lemma field_tx n k psk ep ka hs rx tx al h : in_int64 n = true →
  applyPeerField "tx_bytes" (Itoa n) (mkUPeer k psk ep ka hs rx tx al, h) = Ok (mkUPeer k psk ep ka hs rx n al, h).
Proof.
  intros H. transitivity (n ← parse_int "tx_bytes" (Itoa n); Ok (mkUPeer k psk ep ka hs rx n al, h)); [reflexivity|].
  by rewrite parse_int_Itoa.
Qed.
Lemma field_rx n k psk ep ka hs rx tx al h : in_int64 n = true →
  applyPeerField "rx_bytes" (Itoa n) (mkUPeer k psk ep ka hs rx tx al, h) = Ok (mkUPeer k psk ep ka hs n tx al, h).
Proof.
  intros H. transitivity (n ← parse_int "rx_bytes" (Itoa n); Ok (mkUPeer k psk ep ka hs n tx al, h)); [reflexivity|].
  by rewrite parse_int_Itoa.
Qed.
Lemma field_keepalive d k psk ep ka hs rx tx al h : keepalive_ok d = true →
  applyPeerField "persistent_keepalive_interval" (Itoa (d ÷ Second)) (mkUPeer k psk ep ka hs rx tx al, h)
  = Ok (mkUPeer k psk ep d hs rx tx al, h).
Proof.
  intros [Hd Hb]%keepalive_spec. transitivity (n ← parse_int "persistent_keepalive_interval" (Itoa (d ÷ Second));
    Ok (mkUPeer k psk ep (wrap64 (n * Second)) hs rx tx al, h)); [reflexivity|].
  rewrite parse_int_Itoa by (unfold in_int64, int64_min, int64_max; lia). cbn [mbind result_bind]. do 3 f_equal.
  rewrite <- Hd. unfold wrap64. rewrite Z.mod_small; [lia|]. unfold Second, Millisecond in *. lia.
Qed.

(** ** The lines of a "get" are one field each *)
Lemma pair_ok_intro k v : no_char "=" k && one_line k = true → one_line v = true → pair_ok (k, v).
Proof. intros [H1 H2]%andb_prop H3. done. Qed.
Lemma Forall_opt_line {A} k (f : A → string) (o : option A) :
  no_char "=" k && one_line k = true → (∀ x, o = Some x → one_line (f x) = true) → Forall pair_ok (opt_line k f o).
Proof. intros Hk Ho. destruct o as [x|]; repeat constructor; by apply pair_ok_intro; auto. Qed.
Lemma Forall_networks l : forallb network_ok l = true → Forall pair_ok (pair "allowed_ip" <$> l).
Proof.
  intros H. apply Forall_fmap, Forall_forall. intros r Hr. rewrite forallb_elem in H. apply H in Hr.
  apply andb_prop in Hr as [_ Hr]. by apply pair_ok_intro.
Qed.
Lemma get_lines_ok u : upeer_ok u = true → Forall pair_ok (get_lines u).
Proof.
  intros Hu. unfold upeer_ok in Hu. do 7 (apply andb_prop in Hu as [Hu ?]). unfold get_lines.
  repeat rewrite Forall_app. split_and!.
  - repeat constructor; apply pair_ok_intro; auto using hexKey_one_line.
  - apply Forall_opt_line; [done|]. intros e E. rewrite E in *. cbn in *.
    by match goal with H : endpoint_ok e = true |- _ => apply andb_prop in H as [_ ?] end.
  - repeat constructor; apply pair_ok_intro; auto using Itoa_one_line.
  - by apply Forall_networks.
Qed.
Lemma nonzero_ok k n : no_char "=" k && one_line k = true → Forall pair_ok (nonzero_line k n).
Proof. intros Hk. unfold nonzero_line. case_match; repeat constructor; apply pair_ok_intro; auto using Itoa_one_line. Qed.
Lemma get_pairs_ok priv port mark ups :
  key_ok priv = true → forallb upeer_ok ups = true →
  Forall pair_ok (("private_key", hexKey priv) :: nonzero_line "listen_port" port ++ nonzero_line "fwmark" mark
                  ++ (ups ≫= get_lines)).
Proof.
  intros H1 H2. constructor; [apply pair_ok_intro; auto using hexKey_one_line|].
  rewrite !Forall_app. split_and!; [by apply nonzero_ok|by apply nonzero_ok|].
  apply Forall_bind, Forall_forall. intros u Hu. apply get_lines_ok. rewrite forallb_elem in H2. auto.
Qed.

(** ** Reading a device back *)
Section reading.
Context (pk : string → string).

Lemma parse_allowed dev p hs l :
  forallb network_ok l = true →
  fields (parse_field pk) (pair "allowed_ip" <$> l) (mkPstate dev (Some (p, hs)))
  = Ok (mkPstate dev (Some (mkUPeer (up_PublicKey p) (up_PresharedKey p) (up_Endpoint p) (up_Keepalive p)
          (up_LastHandshake p) (up_ReceiveBytes p) (up_TransmitBytes p) (up_AllowedIPs p ++ l), hs))).
Proof.
  revert p. induction l as [|r l IH]; intros p Hl.
  - cbn. rewrite app_nil_r. by destruct p.
  - cbn [forallb] in Hl. apply andb_prop in Hl as [Hr Hl]. unfold network_ok in Hr.
    apply andb_prop in Hr as [Hr%bool_decide_eq_true _].
    cbn [fmap list_fmap fields fst snd].
    change (parse_field pk "allowed_ip" r (mkPstate dev (Some (p, hs)))) with
      (c ← applyPeerField "allowed_ip" r (p, hs); Ok (mkPstate dev (Some c))).
    change (applyPeerField "allowed_ip" r (p, hs)) with
      (match ParseCIDR r with
       | None => Err (ErrMsg ("parse allowed_ip " +:+ r))
       | Some n => Ok (mkUPeer (up_PublicKey p) (up_PresharedKey p) (up_Endpoint p) (up_Keepalive p) (up_LastHandshake p)
              (up_ReceiveBytes p) (up_TransmitBytes p) (up_AllowedIPs p ++ [n]), hs)
       end).
    rewrite Hr. cbn [mbind result_bind]. rewrite IH by done. cbn. by rewrite <- app_assoc.
Qed.

Lemma fields_peer k v l dev p hs c :
  parse_field pk k v (mkPstate dev (Some (p, hs))) = (c ← applyPeerField k v (p, hs); Ok (mkPstate dev (Some c))) →
  applyPeerField k v (p, hs) = Ok c →
  fields (parse_field pk) ((k, v) :: l) (mkPstate dev (Some (p, hs))) = fields (parse_field pk) l (mkPstate dev (Some c)).
Proof using. intros H1 H2. apply fields_cons. by rewrite H1, H2. Qed.

Lemma field_public k s : key_ok k = true →
  parse_field pk "public_key" (hexKey k) s = Ok (mkPstate (close_peer s) (Some (new_upeer k, 0))).
Proof using. intros H. transitivity (match parseHexKey (hexKey k) with Err _ => Err (ErrMsg "parse public_key")
  | Ok k => Ok (mkPstate (close_peer s) (Some (new_upeer k, 0))) end); [reflexivity|]. by rewrite parseHexKey_hexKey. Qed.
(** One peer's lines: the peer before is done, this one is open. *)
Lemma parse_upeer dev cur u :
  upeer_ok u = true →
  ∃ hs, fields (parse_field pk) (get_lines u) (mkPstate dev cur) = Ok (mkPstate (close_peer (mkPstate dev cur)) (Some (u, hs))).
Proof using pk.
  intros Hu. unfold upeer_ok in Hu. do 7 (apply andb_prop in Hu as [Hu ?]).
  destruct u as [key psk ep ka hs rx tx al]. cbn [up_PublicKey up_PresharedKey up_Endpoint up_Keepalive
    up_LastHandshake up_ReceiveBytes up_TransmitBytes up_AllowedIPs] in *.
  set (t := default 0 hs). exists (t / Second).
  assert (0 ≤ t < 2 ^ 63) as Ht.
  { unfold t. destruct hs as [n|]; [|done]. cbn in *.
    match goal with H : (0 <? n) && _ = true |- _ => apply andb_prop in H as [?%Z.ltb_lt ?%Z.ltb_lt] end. lia. }
  assert (in_int64 (t / Second) = true ∧ in_int64 (t mod Second) = true) as [Hs Hn].
  { unfold in_int64, int64_min, int64_max, Second, Millisecond. lia. }
  unfold get_lines, new_upeer. cbn [up_PublicKey up_PresharedKey up_Endpoint up_Keepalive up_LastHandshake
    up_ReceiveBytes up_TransmitBytes up_AllowedIPs app]. fold t.
  rewrite (fields_cons _ _ _ _ _ _ (field_public key _ Hu)). unfold new_upeer.
  erewrite fields_peer; [|reflexivity|by apply field_psk].
  erewrite (fields_cons _ "protocol_version"); [|reflexivity].
  assert (∀ l s0, fields (parse_field pk) (opt_line "endpoint" id ep ++ l) (mkPstate s0 (Some (mkUPeer key psk None 0 None 0 0 [], 0)))
    = fields (parse_field pk) l (mkPstate s0 (Some (mkUPeer key psk ep 0 None 0 0 [], 0)))) as Hep.
  { intros l s0. destruct ep as [e|]; [|done]. cbn [opt_line app id].
    erewrite fields_peer; [done|reflexivity|by apply field_endpoint]. }
  rewrite Hep. erewrite fields_peer; [|reflexivity|by apply field_sec].
  erewrite fields_peer; [|reflexivity|by apply field_nsec].
  erewrite fields_peer; [|reflexivity|by apply field_tx].
  erewrite fields_peer; [|reflexivity|by apply field_rx].
  erewrite fields_peer; [|reflexivity|by apply field_keepalive].
  rewrite parse_allowed by done. cbn [up_AllowedIPs app]. do 5 f_equal. cbn.
  unfold t in *. destruct hs as [n|]; cbn in *; [|done].
  assert (0 < n) by (apply Z.ltb_lt; by match goal with H : (0 <? n) && _ = true |- _ => apply andb_prop in H as [? _] end).
  assert (n / Second * Second + n mod Second = n) as En by (pose proof (Z.div_mod n Second); unfold Second, Millisecond in *; lia).
  rewrite En. destruct (n / Second =? 0) eqn:E1, (n mod Second =? 0) eqn:E2; cbn; try done.
  apply Z.eqb_eq in E1, E2. lia.
Qed.

Lemma parse_upeers ups : ∀ dev cur,
  forallb upeer_ok ups = true →
  ∃ cur' dev', fields (parse_field pk) (ups ≫= get_lines) (mkPstate dev cur) = Ok (mkPstate dev' cur')
    ∧ close_peer (mkPstate dev' cur')
      = mkUDevice (ud_PrivateKey dev) (ud_PublicKey dev) (ud_ListenPort dev) (ud_FirewallMark dev)
          (ud_Peers (close_peer (mkPstate dev cur)) ++ ups).
Proof using pk.
  induction ups as [|u ups IH]; intros dev cur Hu.
  - exists cur, dev. split; [done|]. rewrite app_nil_r. by destruct cur as [[p h]|], dev.
  - cbn [forallb] in Hu. apply andb_prop in Hu as [Hu Hups]. rewrite bind_cons, fields_app.
    destruct (parse_upeer dev cur u Hu) as [hs ->]. cbn [mbind result_bind].
    destruct (IH (close_peer (mkPstate dev cur)) (Some (u, hs)) Hups) as (cur' & dev' & -> & Hc).
    exists cur', dev'. split; [done|]. rewrite Hc. cbn. rewrite <- app_assoc. cbn [app].
    by destruct cur as [[p h]|].
Qed.
Lemma parse_number key n l dev f :
  (∀ v s, parse_field pk key v s = (n ← parse_int key v; Ok (with_dev (f n) s))) →
  in_int64 n = true → f 0 dev = dev →
  fields (parse_field pk) (nonzero_line key n ++ l) (mkPstate dev None) = fields (parse_field pk) l (mkPstate (f n dev) None).
Proof using pk.
  intros Hf Hn H0. unfold nonzero_line. destruct (n =? 0) eqn:E.
  - apply Z.eqb_eq in E as ->. by rewrite H0.
  - cbn [app]. apply fields_cons. rewrite Hf, parse_int_Itoa by done. done.
Qed.

Lemma parse_get priv port mark ups :
  key_ok priv = true → in_int64 port = true → in_int64 mark = true → forallb upeer_ok ups = true →
  parseUAPI pk (get_text priv port mark ups) = Ok (mkUDevice priv (pk priv) port mark ups).
Proof using pk.
  intros H1 H2 H3 H4. unfold parseUAPI, get_text. rewrite Split_lines by (by apply get_pairs_ok).
  rewrite parse_lines_fields by (by apply get_pairs_ok).
  erewrite fields_cons.
  2:{ transitivity (match parseHexKey (hexKey priv) with
        | Err _ => Err (ErrMsg "parse private_key")
        | Ok k => Ok (with_dev (λ d, mkUDevice k (pk k) (ud_ListenPort d) (ud_FirewallMark d) (ud_Peers d))
                        (mkPstate (mkUDevice "" "" 0 0 []) None)) end); [reflexivity|].
      by rewrite parseHexKey_hexKey. }
  unfold with_dev. cbn [ps_dev ps_cur ud_ListenPort ud_FirewallMark ud_Peers].
  rewrite (parse_number "listen_port" port _ _
    (λ n d, mkUDevice (ud_PrivateKey d) (ud_PublicKey d) n (ud_FirewallMark d) (ud_Peers d))) by done.
  rewrite (parse_number "fwmark" mark _ _
    (λ n d, mkUDevice (ud_PrivateKey d) (ud_PublicKey d) (ud_ListenPort d) n (ud_Peers d))) by done.
  destruct (parse_upeers ups (mkUDevice priv (pk priv) port mark []) None H4) as (cur' & dev' & E & Hc).
  cbn [ud_PrivateKey ud_PublicKey ud_ListenPort ud_FirewallMark ud_Peers] in *. rewrite E. cbn [mbind result_bind].
  rewrite Hc. done.
Qed.
End reading.

(** ** What a peer's lines do *)
Definition endpoint_of (c : PeerConfig) (p : WgPeer) : option string :=
  match cf_Endpoint c with Some e => Some e | None => wp_Endpoint p end.
Definition base (c : PeerConfig) (p : WgPeer) : WgPeer :=
  mkWgPeer (endpoint_of c p) (wp_LastHandshake p) (if cf_ReplaceAllowedIPs c then [] else wp_AllowedIPs p)
    (default (wp_PresharedKey p) (cf_PresharedKey c)) (default (wp_Keepalive p) (cf_Keepalive c)).
Definition rest_lines (c : PeerConfig) : list (string * string) :=
  opt_line "preshared_key" hexKey (cf_PresharedKey c)
  ++ opt_line "endpoint" id (cf_Endpoint c)
  ++ opt_line "persistent_keepalive_interval" (λ d, Itoa (d ÷ Second)) (cf_Keepalive c)
  ++ flag_line "replace_allowed_ips" (cf_ReplaceAllowedIPs c)
  ++ (pair "allowed_ip" <$> cf_AllowedIPs c).

Lemma on_cur_id (f : WgPeer → WgPeer) s : (∀ p, f p = p) → on_cur f s = s.
Proof.
  intros Hf. unfold on_cur. destruct s as [d [k|] b]; [|done]. cbn. f_equal. apply map_eq. intros k'.
  destruct (decide (k' = k)) as [->|Hne]; [|by rewrite lookup_alter_ne].
  rewrite lookup_alter_eq. destruct (d !! k); cbn; [by rewrite Hf|done].
Qed.
Lemma on_cur_comp (f g : WgPeer → WgPeer) s : on_cur g (on_cur f s) = on_cur (λ p, g (f p)) s.
Proof.
  unfold on_cur. destruct s as [d [k|] b]; [|done]. cbn. f_equal. apply map_eq. intros k'.
  destruct (decide (k' = k)) as [->|Hne]; [rewrite !lookup_alter_eq; by destruct (d !! k)|by rewrite !lookup_alter_ne].
Qed.
Lemma on_cur_ext (f g : WgPeer → WgPeer) s : (∀ p, f p = g p) → on_cur f s = on_cur g s.
Proof.
  intros H. unfold on_cur. destruct s as [d [k|] b]; [|done]. cbn. f_equal. apply map_eq. intros k'.
  destruct (decide (k' = k)) as [->|Hne]; [|by rewrite !lookup_alter_ne].
  rewrite !lookup_alter_eq. destruct (d !! k); cbn; [by rewrite H|done].
Qed.
Lemma opt_field {A} k (f : A → string) (o : option A) (g : A → WgPeer → WgPeer) l s :
  (∀ x s, o = Some x → set_field k (f x) s = Some (on_cur (g x) s)) →
  sfields (opt_line k f o ++ l) s = sfields l (on_cur (match o with Some x => g x | None => id end) s).
Proof.
  intros H. destruct o as [x|]; cbn [opt_line app sfields fst snd]; [by rewrite H|]. by rewrite on_cur_id.
Qed.
Lemma sfields_claims l s :
  forallb network_ok l = true → sfields (pair "allowed_ip" <$> l) s = Some (foldl (λ s n, claim n s) s l).
Proof.
  revert s. induction l as [|n l IH]; intros s; [done|]. cbn [forallb]. intros [Hn Hl]%andb_prop.
  apply andb_prop in Hn as [Hn%bool_decide_eq_true _]. cbn [fmap list_fmap sfields fst snd foldl].
  assert (set_field "allowed_ip" n s = Some (claim n s)) as ->; [|by apply IH].
  transitivity (n ← ParseCIDR n; Some (claim n s)); [reflexivity|]. by rewrite Hn.
Qed.
Lemma sfields_rest c s :
  config_ok c = true → sfields (rest_lines c) s = Some (foldl (λ s n, claim n s) (on_cur (base c) s) (cf_AllowedIPs c)).
Proof.
  intros Hc. unfold config_ok in Hc. do 4 (apply andb_prop in Hc as [Hc ?]). unfold rest_lines.
  rewrite (opt_field _ _ _ (λ k p, mkWgPeer (wp_Endpoint p) (wp_LastHandshake p) (wp_AllowedIPs p) k (wp_Keepalive p))).
  2:{ intros k s' E. rewrite E in *. transitivity (k' ← uapi_key (hexKey k);
        Some (on_cur (λ p, mkWgPeer (wp_Endpoint p) (wp_LastHandshake p) (wp_AllowedIPs p) k' (wp_Keepalive p)) s')); [reflexivity|].
      by rewrite uapi_key_hexKey. }
  rewrite (opt_field _ _ _ (λ e p, mkWgPeer (Some e) (wp_LastHandshake p) (wp_AllowedIPs p) (wp_PresharedKey p) (wp_Keepalive p))).
  2:{ intros e s' E. rewrite E in *. transitivity (e' ← udp_endpoint e;
        Some (on_cur (λ p, mkWgPeer (Some e') (wp_LastHandshake p) (wp_AllowedIPs p) (wp_PresharedKey p) (wp_Keepalive p)) s')); [reflexivity|].
      match goal with H : opt_ok endpoint_ok (Some e) = true |- _ => apply andb_prop in H as [H%bool_decide_eq_true _]; by rewrite H end. }
  rewrite (opt_field _ _ _ (λ d p, mkWgPeer (wp_Endpoint p) (wp_LastHandshake p) (wp_AllowedIPs p) (wp_PresharedKey p) d)).
  2:{ intros d s' E. rewrite E in *. transitivity (n ← digits (Itoa (d ÷ Second));
        if n <=? 65535 then Some (on_cur (λ p, mkWgPeer (wp_Endpoint p) (wp_LastHandshake p) (wp_AllowedIPs p) (wp_PresharedKey p) (n * Second)) s')
        else None); [reflexivity|].
      match goal with H : opt_ok keepalive_ok (Some d) = true |- _ => apply keepalive_spec in H as [Hd Hb] end.
      rewrite digits_Itoa by lia. cbn [mbind option_bind]. rewrite (proj2 (Z.leb_le _ _)) by lia. by rewrite <- Hd. }
  rewrite !on_cur_comp. rewrite sfields_app.
  assert (∀ s', sfields (flag_line "replace_allowed_ips" (cf_ReplaceAllowedIPs c)) s'
    = Some (on_cur (λ p, mkWgPeer (wp_Endpoint p) (wp_LastHandshake p)
              (if cf_ReplaceAllowedIPs c then [] else wp_AllowedIPs p) (wp_PresharedKey p) (wp_Keepalive p)) s')) as ->.
  { intros s'. destruct (cf_ReplaceAllowedIPs c); [reflexivity|]. cbn. by rewrite on_cur_id by (by intros []). }
  cbn [mbind option_bind]. rewrite on_cur_comp, sfields_claims by done. f_equal. f_equal. apply on_cur_ext.
  intros p. unfold base, endpoint_of. destruct (cf_PresharedKey c), (cf_Endpoint c), (cf_Keepalive c); done.
Qed.

(** ** Claiming networks *)
Definition claim_dev (k : string) (m : device) (n : string) : device :=
  alter (λ p, mkWgPeer (wp_Endpoint p) (wp_LastHandshake p) (wp_AllowedIPs p ++ [n]) (wp_PresharedKey p) (wp_Keepalive p)) k
    (without n <$> m).
Definition same_but_routes (p q : WgPeer) : Prop :=
  wp_Endpoint p = wp_Endpoint q ∧ wp_LastHandshake p = wp_LastHandshake q
  ∧ wp_PresharedKey p = wp_PresharedKey q ∧ wp_Keepalive p = wp_Keepalive q.
Lemma foldl_claim k b l m :
  foldl (λ s n, claim n s) (mkSstate m (Some k) b) l = mkSstate (foldl (claim_dev k) m l) (Some k) b.
Proof. revert m. induction l as [|n l IH]; intros m; [done|]. cbn [foldl]. apply IH. Qed.
Lemma foldl_claim_none m b l : foldl (λ s n, claim n s) (mkSstate m None b) l = mkSstate m None b.
Proof. induction l as [|n l IH]; [done|]. cbn [foldl]. apply IH. Qed.

Lemma claims_self k l : ∀ m p, m !! k = Some p → NoDup (wp_AllowedIPs p) →
  ∃ q, foldl (claim_dev k) m l !! k = Some q ∧ same_but_routes p q ∧ NoDup (wp_AllowedIPs q)
    ∧ ∀ r, r ∈ wp_AllowedIPs q ↔ r ∈ wp_AllowedIPs p ∨ r ∈ l.
Proof.
  induction l as [|n l IH]; intros m p Hp Hn; cbn [foldl].
  { exists p. split_and!; [done|done|done|]. intros r. set_solver. }
  destruct (IH (claim_dev k m n) (mkWgPeer (wp_Endpoint p) (wp_LastHandshake p)
    (filter (λ r, r ≠ n) (wp_AllowedIPs p) ++ [n]) (wp_PresharedKey p) (wp_Keepalive p))) as (q & Hq & Hs & Hd & Hr).
  - unfold claim_dev. by rewrite lookup_alter_eq, lookup_fmap, Hp.
  - cbn. apply NoDup_app. split_and!; [by apply NoDup_filter| |apply NoDup_singleton].
    intros r [Hne _]%list_elem_of_filter ->%list_elem_of_singleton. done.
  - exists q. split_and!; [done|done|done|]. intros r. rewrite Hr. cbn.
    rewrite elem_of_app, list_elem_of_filter, list_elem_of_singleton, elem_of_cons.
    destruct (decide (r = n)); naive_solver.
Qed.
Lemma claims_other k k' l : ∀ m, k' ≠ k →
  match m !! k' with
  | None => foldl (claim_dev k) m l !! k' = None
  | Some p => NoDup (wp_AllowedIPs p) →
      ∃ q, foldl (claim_dev k) m l !! k' = Some q ∧ same_but_routes p q ∧ NoDup (wp_AllowedIPs q)
        ∧ ∀ r, r ∈ wp_AllowedIPs q ↔ r ∈ wp_AllowedIPs p ∧ r ∉ l
  end.
Proof.
  induction l as [|n l IH]; intros m Hne; cbn [foldl].
  { destruct (m !! k') as [p|]; [|done]. intros Hn. exists p. split_and!; try done. intros r. set_solver. }
  specialize (IH (claim_dev k m n) Hne). unfold claim_dev in IH at 1. rewrite lookup_alter_ne, lookup_fmap in IH by done.
  destruct (m !! k') as [p|]; cbn in IH; [|done]. intros Hn.
  destruct (IH ltac:(by apply NoDup_filter)) as (q & Hq & Hs & Hd & Hr). exists q. split_and!; [done|done|done|].
  intros r. rewrite Hr. cbn. rewrite list_elem_of_filter, not_elem_of_cons. naive_solver.
Qed.

Definition install (c : PeerConfig) (m : device) : device :=
  let k := cf_PublicKey c in
  if cf_Remove c then delete k m
  else match m !! k with
       | None => if cf_UpdateOnly c then m else foldl (claim_dev k) (<[k := base c empty_peer]> m) (cf_AllowedIPs c)
       | Some p => foldl (claim_dev k) (<[k := base c p]> m) (cf_AllowedIPs c)
       end.
Lemma alter_insert_of (f : WgPeer → WgPeer) k (m : device) p : m !! k = Some p → alter f k m = <[k := f p]> m.
Proof.
  intros Hp. apply map_eq. intros k'. destruct (decide (k' = k)) as [->|Hne].
  - by rewrite lookup_alter_eq, lookup_insert_eq, Hp.
  - by rewrite lookup_alter_ne, lookup_insert_ne.
Qed.
Lemma peer_lines_cons c :
  peer_lines c = ("public_key", hexKey (cf_PublicKey c))
                 :: if cf_Remove c then [("remove", "true")] else flag_line "update_only" (cf_UpdateOnly c) ++ rest_lines c.
Proof. done. Qed.
Lemma peer_effect c m cur b :
  config_ok c = true → ∃ s, sfields (peer_lines c) (mkSstate m cur b) = Some s ∧ s_dev s = install c m.
Proof.
  intros Hc. pose proof Hc as Hc'. unfold config_ok in Hc'. do 4 (apply andb_prop in Hc' as [Hc' ?]).
  rewrite peer_lines_cons. set (k := cf_PublicKey c) in *. cbn [sfields fst snd].
  assert (set_field "public_key" (hexKey k) (mkSstate m cur b)
    = Some (match m !! k with
            | Some _ => mkSstate m (Some k) false
            | None => mkSstate (<[k := empty_peer]> m) (Some k) true
            end)) as ->.
  { transitivity (k' ← uapi_key (hexKey k);
      Some (match m !! k' with Some _ => mkSstate m (Some k') false
            | None => mkSstate (<[k' := empty_peer]> m) (Some k') true end)); [reflexivity|]. by rewrite uapi_key_hexKey. }
  cbn [mbind option_bind]. unfold install. fold k. destruct (cf_Remove c).
  - eexists. split; [reflexivity|]. destruct (m !! k) as [p|] eqn:Ep; cbn; [done|].
    by rewrite delete_insert_eq.
  - rewrite sfields_app. destruct (m !! k) as [p|] eqn:Ep.
    + assert (sfields (flag_line "update_only" (cf_UpdateOnly c)) (mkSstate m (Some k) false) = Some (mkSstate m (Some k) false))
        as -> by (by destruct (cf_UpdateOnly c)).
      cbn [mbind option_bind]. rewrite sfields_rest by done. eexists. split; [done|].
      cbn [on_cur s_cur s_dev s_new]. rewrite (alter_insert_of _ _ _ _ Ep), foldl_claim. done.
    + destruct (cf_UpdateOnly c).
      * assert (sfields (flag_line "update_only" true) (mkSstate (<[k := empty_peer]> m) (Some k) true)
          = Some (mkSstate (delete k (<[k := empty_peer]> m)) None false)) as -> by reflexivity.
        cbn [mbind option_bind]. rewrite sfields_rest by done. eexists. split; [done|].
        cbn [on_cur s_cur]. rewrite foldl_claim_none. cbn. by rewrite delete_insert_eq, delete_id.
      * cbn [flag_line sfields mbind option_bind]. rewrite sfields_rest by done. eexists. split; [done|].
        cbn [on_cur s_cur s_dev s_new].
        rewrite (alter_insert_of _ _ _ empty_peer) by (by rewrite lookup_insert_eq).
        rewrite insert_insert_eq, foldl_claim. done.
Qed.
Lemma config_effect cs : ∀ m cur b,
  forallb config_ok cs = true →
  s_dev <$> sfields (cs ≫= peer_lines) (mkSstate m cur b) = Some (foldl (λ m c, install c m) m cs).
Proof.
  induction cs as [|c cs IH]; intros m cur b; [done|]. cbn [forallb]. intros [Hc Hcs]%andb_prop.
  rewrite bind_cons, sfields_app. destruct (peer_effect c m cur b Hc) as ([d cur' b'] & -> & Hd). cbn [mbind option_bind foldl].
  cbn in Hd. subst d. by apply IH.
Qed.
Lemma peer_lines_ok c : config_ok c = true → Forall pair_ok (peer_lines c).
Proof.
  intros Hc. unfold config_ok in Hc. do 4 (apply andb_prop in Hc as [Hc ?]). rewrite peer_lines_cons.
  constructor; [apply pair_ok_intro; auto using hexKey_one_line|].
  destruct (cf_Remove c); [repeat constructor|]. apply Forall_app. split; [destruct (cf_UpdateOnly c); repeat constructor|].
  unfold rest_lines. rewrite !Forall_app. split_and!.
  - apply Forall_opt_line; [done|]. intros k E. rewrite E in *. by apply hexKey_one_line.
  - apply Forall_opt_line; [done|]. intros e E. rewrite E in *.
    by match goal with H : opt_ok endpoint_ok (Some e) = true |- _ => apply andb_prop in H as [_ ?] end.
  - apply Forall_opt_line; [done|]. intros; apply Itoa_one_line.
  - destruct (cf_ReplaceAllowedIPs c); repeat constructor.
  - by apply Forall_networks.
Qed.
(** The text a configuration of peers becomes has the effect of the protocol's
    steps, one peer after the other. *)
Lemma build_effect cs m :
  forallb config_ok cs = true →
  uapi_set (buildIPCSet (mkWgConfig None None None false cs)) m = Some (foldl (λ m c, install c m) m cs).
Proof.
  intros Hcs. unfold uapi_set, buildIPCSet.
  change (set_lines (mkWgConfig None None None false cs)) with (cs ≫= peer_lines).
  assert (Forall pair_ok (cs ≫= peer_lines)) as Hok.
  { apply Forall_bind, Forall_forall. intros c Hin. apply peer_lines_ok. rewrite forallb_elem in Hcs. auto. }
  rewrite Split_lines, set_loop_fields by done. by apply config_effect.
Qed.

(** ** Taking networks over changes nothing in the end

    The protocol moves a network to the peer that claims it; [apply_config] does
    not.  Where every network ends up with one peer the two agree: [taken] are
    the networks a peer may have lost on the way. *)
Record loose (taken : string → string → Prop) (k : string) (s m : WgPeer) : Prop := {
  lo_same : same_but_routes m s;
  lo_nodup : NoDup (wp_AllowedIPs s);
  lo_sub r : r ∈ wp_AllowedIPs s → r ∈ wp_AllowedIPs m;
  lo_taken r : r ∈ wp_AllowedIPs m → r ∈ wp_AllowedIPs s ∨ taken k r
}.
Definition loosely (taken : string → string → Prop) (sd m : device) : Prop :=
  ∀ k, option_Forall2 (loose taken k) (sd !! k) (m !! k).
Lemma loosely_impl (t t' : string → string → Prop) sd m :
  (∀ k r, t k r → t' k r) → loosely t sd m → loosely t' sd m.
Proof.
  intros Ht H k. destruct (H k) as [s m' [H1 H2 H3 H4]|]; constructor. split; try done.
  intros r Hr. destruct (H4 r Hr); auto.
Qed.

Definition takes (c : PeerConfig) (m : device) (k r : string) : Prop :=
  k ≠ cf_PublicKey c ∧ r ∈ cf_AllowedIPs c ∧ is_Some (apply_peer c (m !! cf_PublicKey c)).
Lemma install_self c sd m taken :
  loosely taken sd m →
  option_Forall2 (loose taken (cf_PublicKey c)) (install c sd !! cf_PublicKey c) (apply_peer c (m !! cf_PublicKey c)).
Proof.
  intros H. specialize (H (cf_PublicKey c)). unfold install, apply_peer. set (k := cf_PublicKey c) in *.
  destruct (cf_Remove c); [rewrite lookup_delete_eq; constructor|].
  destruct (sd !! k) as [s|] eqn:Es, (m !! k) as [p|] eqn:Em; [|by inversion H|by inversion H|].
  - assert (loose taken k s p) as [H1 H2 H3 H4] by (by inversion H).
    destruct (claims_self k (cf_AllowedIPs c) (<[k := base c s]> sd) (base c s)) as (q & -> & Hs & Hd & Hr).
    { by rewrite lookup_insert_eq. }
    { cbn. destruct (cf_ReplaceAllowedIPs c); [constructor|done]. }
    constructor. destruct H1 as (E1 & E2 & E3 & E4), Hs as (F1 & F2 & F3 & F4). cbn in F1, F2, F3, F4.
    split; [split_and!; cbn| |intros r; cbn; rewrite Hr; cbn|intros r; cbn; rewrite Hr; cbn]; try done.
    + rewrite <- F1. unfold endpoint_of. by destruct (cf_Endpoint c).
    + congruence.
    + rewrite <- F3. by rewrite E3.
    + rewrite <- F4. by rewrite E4.
    + destruct (cf_ReplaceAllowedIPs c); [set_solver|]. rewrite elem_of_app. naive_solver.
    + destruct (cf_ReplaceAllowedIPs c); [by auto|]. rewrite elem_of_app. intros [Hr'|Hr']; [|by auto].
      destruct (H4 r Hr'); auto.
  - destruct (cf_UpdateOnly c); [rewrite Es; constructor|].
    destruct (claims_self k (cf_AllowedIPs c) (<[k := base c empty_peer]> sd) (base c empty_peer)) as (q & -> & Hs & Hd & Hr).
    { by rewrite lookup_insert_eq. }
    { cbn. destruct (cf_ReplaceAllowedIPs c); constructor. }
    constructor. destruct Hs as (F1 & F2 & F3 & F4). cbn in F1, F2, F3, F4.
    assert (∀ r, r ∈ wp_AllowedIPs q ↔ r ∈ cf_AllowedIPs c) as Hr'.
    { intros r. rewrite Hr. cbn. destruct (cf_ReplaceAllowedIPs c); set_solver. }
    split; [split_and!; cbn|done|intros r; cbn; by rewrite Hr'|intros r; cbn; rewrite Hr'; by left]; try done.
    rewrite <- F1. unfold endpoint_of. by destruct (cf_Endpoint c).
Qed.
Lemma install_other c sd m taken k :
  loosely taken sd m → k ≠ cf_PublicKey c →
  option_Forall2 (loose (λ k r, taken k r ∨ takes c m k r) k) (install c sd !! k) (m !! k).
Proof.
  intros H Hne. pose proof (H k) as Hk. pose proof (H (cf_PublicKey c)) as Hc. unfold install.
  assert (∀ q, is_Some (apply_peer c (m !! cf_PublicKey c)) →
    option_Forall2 (loose (λ k r, taken k r ∨ takes c m k r) k)
      (foldl (claim_dev (cf_PublicKey c)) (<[cf_PublicKey c := q]> sd) (cf_AllowedIPs c) !! k) (m !! k)) as Hcl.
  { intros q Hm. pose proof (claims_other (cf_PublicKey c) k (cf_AllowedIPs c) (<[cf_PublicKey c := q]> sd) Hne) as Ho.
    rewrite lookup_insert_ne in Ho by done. destruct (sd !! k) as [s|], (m !! k) as [p|]; [|by inversion Hk|by inversion Hk|].
    2:{ rewrite Ho. constructor. }
    assert (loose taken k s p) as [H1 H2 H3 H4] by (by inversion Hk).
    destruct (Ho H2) as (q' & -> & Hs & Hd & Hr). constructor.
    destruct H1 as (E1 & E2 & E3 & E4), Hs as (F1 & F2 & F3 & F4).
    split; [split_and!; congruence|done|intros r [? _]%Hr; auto|].
    intros r Hrp. destruct (decide (r ∈ cf_AllowedIPs c)) as [Hin|Hout]; [by right; right|].
    destruct (H4 r Hrp); [left; by apply Hr|by right; left]. }
  assert (option_Forall2 (loose (λ k r, taken k r ∨ takes c m k r) k) (sd !! k) (m !! k)) as Hk'.
  { by apply (loosely_impl taken _ sd m); [left|]. }
  unfold apply_peer in Hcl. destruct (cf_Remove c); [by rewrite lookup_delete_ne|].
  destruct (sd !! cf_PublicKey c) as [s|], (m !! cf_PublicKey c) as [p|]; [|by inversion Hc|by inversion Hc|].
  - by apply Hcl.
  - destruct (cf_UpdateOnly c); [done|]. by apply Hcl.
Qed.
Lemma install_loosely c sd m taken :
  loosely taken sd m →
  loosely (λ k r, taken k r ∨ takes c m k r) (install c sd) (partial_alter (apply_peer c) (cf_PublicKey c) m).
Proof.
  intros H k. destruct (decide (k = cf_PublicKey c)) as [->|Hne].
  - rewrite lookup_partial_alter_eq. destruct (install_self c sd m taken H) as [s p [H1 H2 H3 H4]|]; constructor.
    split; try done. intros r Hr. destruct (H4 r Hr); auto.
  - rewrite lookup_partial_alter_ne by done. by apply install_other.
Qed.
Lemma installs_loosely cs : ∀ sd m taken,
  NoDup (cf_PublicKey <$> cs) → loosely taken sd m →
  loosely (λ k r, taken k r ∨ ∃ c, c ∈ cs ∧ takes c m k r) (foldl (λ m c, install c m) sd cs) (apply_config cs m).
Proof.
  induction cs as [|c cs IH]; intros sd m taken Hn H.
  { eapply loosely_impl; [|exact H]. auto. }
  rewrite fmap_cons in Hn. apply NoDup_cons in Hn as [Hc Hn]. cbn [foldl apply_config].
  eapply loosely_impl; [|exact (IH _ _ _ Hn (install_loosely c sd m taken H))].
  intros k r [[Ht|Ht]|(c' & Hin & Hk & Hr & Hs)]; [by left|right; exists c; split; [by left|done]|].
  right. exists c'. split; [by right|]. split_and!; [done|done|].
  rewrite lookup_partial_alter_ne in Hs; [done|]. intros E. apply Hc. rewrite E. by apply list_elem_of_fmap_2.
Qed.
Lemma apply_peer_routes c o p r : apply_peer c o = Some p → r ∈ cf_AllowedIPs c → r ∈ wp_AllowedIPs p.
Proof.
  unfold apply_peer. destruct (cf_Remove c); [done|]. destruct o as [q|].
  - intros [= <-] Hr. cbn. destruct (cf_ReplaceAllowedIPs c); [done|]. apply elem_of_app. by right.
  - destruct (cf_UpdateOnly c); [done|]. by intros [= <-].
Qed.
Lemma installs_apply cs sd m :
  NoDup (cf_PublicKey <$> cs) → routes_ok (apply_config cs m) →
  same_device m sd → (∀ k p, m !! k = Some p → NoDup (wp_AllowedIPs p)) →
  same_device (apply_config cs m) (foldl (λ m c, install c m) sd cs).
Proof.
  intros Hn [Hdis Hnd] Hsd Hm k.
  assert (loosely (λ _ _, False) sd m) as H0.
  { intros k'. specialize (Hsd k'). specialize (Hm k'). destruct Hsd as [p s [E1 E2 E3 E4 E5]|]; constructor.
    split; [by split_and!|rewrite <- E3; by apply Hm|intros r; by rewrite E3|intros r; rewrite E3; by left]. }
  pose proof (installs_loosely cs sd m _ Hn H0 k) as H. specialize (Hnd k). specialize (Hdis k).
  destruct (foldl _ sd cs !! k) as [s|], (apply_config cs m !! k) as [p|] eqn:Ep;
    [|by inversion H|by inversion H|constructor].
  assert (loose (λ k r, False ∨ ∃ c, c ∈ cs ∧ takes c m k r) k s p) as [(E1 & E2 & E3 & E4) H2 H3 H4] by (by inversion H).
  constructor. split; try done. apply NoDup_Permutation; [by apply Hnd|done|].
  intros r. split; [|by apply H3]. intros Hr. destruct (H4 r Hr) as [|[[]|(c & Hc & Hk & Hrc & [q Hq])]]; [done|].
  exfalso. apply Hk. eapply Hdis; [done| |exact Hr|by eapply apply_peer_routes].
  rewrite apply_config_one by done. exact Hq.
Qed.

(** ** The backend *)
Lemma udev_lookup ups k p :
  NoDup (up_PublicKey <$> ups) → udev ups !! k = Some p ↔ ∃ u, u ∈ ups ∧ up_PublicKey u = k ∧ wg_peer u = p.
Proof.
  intros Hn. unfold udev. rewrite <- elem_of_list_to_map.
  - rewrite list_elem_of_fmap. naive_solver.
  - rewrite <- list_fmap_compose. done.
Qed.

Section backend.
Context (pk : string → string) {D : Type} {U : Uapi D} {L : UapiLaws D}.

Lemma embedded_reads d conf :
  IpcGet d = Some conf →
  ∃ ups, embedded_Device pk D d ≫= (λ dev, Some (udev (ud_Peers dev))) = Some (udev ups) ∧ same_device (uapi_view d) (udev ups)
    ∧ ∀ k p, udev ups !! k = Some p → NoDup (wp_AllowedIPs p).
Proof using L.
  intros Hg. destruct (ipc_get d conf Hg) as (priv & port & mark & ups & -> & K1 & K2 & K3 & K4 & K5 & K6 & K7).
  exists ups. unfold embedded_Device. rewrite Hg. cbn [mbind option_bind]. rewrite parse_get by done.
  split_and!; [done|done|]. intros k p (u & Hu & _ & <-)%udev_lookup; [|done].
  rewrite Forall_forall in K6. by apply K6.
Qed.
Lemma embedded_Device_eq d : Device (WgBackend := embedded pk D) d = embedded_Device pk D d ≫= (λ dev, Some (udev (ud_Peers dev))).
Proof using. cbn. by destruct (embedded_Device pk D d). Qed.

Lemma embedded_applies cs (d d' : D) m :
  ConfigureDevice (WgBackend := embedded pk D) cs d = Some d' →
  Device (WgBackend := embedded pk D) d = Some m →
  NoDup (cf_PublicKey <$> cs) → routes_ok (apply_config cs m) →
  ∃ m', Device (WgBackend := embedded pk D) d' = Some m' ∧ same_device (apply_config cs m) m'.
Proof using L.
  rewrite !embedded_Device_eq. intros Hc Hd Hn Hr. cbn in Hc. destruct (forallb config_ok cs) eqn:Ecs; [|done].
  destruct (IpcGet d) as [conf|] eqn:Eg; [|by unfold embedded_Device in Hd; rewrite Eg in Hd].
  destruct (embedded_reads d conf Eg) as (ups & Hups & Hsame & Hnd). rewrite Hups in Hd. injection Hd as <-.
  destruct (ipc_set _ _ _ Hc) as [[conf' Eg'] (m1 & Hset & Hsame1)].
  rewrite build_effect in Hset by done. injection Hset as <-.
  destruct (embedded_reads d' conf' Eg') as (ups' & -> & Hsame' & _). exists (udev ups'). split; [done|].
  etrans; [|exact Hsame']. etrans; [|exact Hsame1]. apply installs_apply; [done|done|by symmetry|done].
Qed.
Lemma embedded_laws : @WgBackendLaws D (embedded pk D).
Proof using L. split. apply embedded_applies. Qed.
End backend.

(** A device described in the interface's "get" format is read back exactly:
    keys, preshared keys, endpoints, keepalives, networks in order, counters and
    the last handshake, which stays "never" for a peer that has had none. *)
Theorem uapi_roundtrip pk priv port mark ups :
  key_ok priv = true → in_int64 port = true → in_int64 mark = true → forallb upeer_ok ups = true →
  parseUAPI pk (get_text priv port mark ups) = Ok (mkUDevice priv (pk priv) port mark ups).
Proof. apply parse_get. Qed.

(** C20: the embedded device implements the interface the agent's loop is written
    against.  A sync through it, with the changes written as one text and the
    device read back from another, leaves exactly the wanted peers, with their
    networks, preshared keys and keepalives, established endpoints and sessions
    untouched, although the protocol moves networks between peers as it goes
    and would stop at a blank line. *)
Theorem embedded_refines pk D `{UapiLaws D} order desired (d d' : D) cur :
  (∀ l, order l ≡ₚ l) → desired_ok desired → Device (WgBackend := embedded pk D) d = Some cur →
  (∀ k p, cur !! k = Some p → no_comma (wp_AllowedIPs p)) →
  syncPeers (H := embedded pk D) order desired d = Some d' →
  ∃ cur', Device (WgBackend := embedded pk D) d' = Some cur'
    ∧ (∀ k, desiredByKey desired !! k = None → cur' !! k = None)
    ∧ (∀ k w, wanted desired k w → ∃ p, cur' !! k = Some p ∧ carries p w
         ∧ endpoint_after (cur !! k) w (wp_Endpoint p)
         ∧ wp_LastHandshake p = (cur !! k ≫= wp_LastHandshake)).
Proof. apply (@sync_result D (embedded pk D) (embedded_laws pk)). Qed.

(** ** A device that is its listing *)
Definition listing (m : device) : list UPeer :=
  (λ kp, mkUPeer kp.1 (wp_PresharedKey kp.2) (wp_Endpoint kp.2) (wp_Keepalive kp.2) (wp_LastHandshake kp.2) 0 0
           (wp_AllowedIPs kp.2)) <$> map_to_list m.
Lemma listing_keys m : NoDup (up_PublicKey <$> listing m).
Proof.
  unfold listing. rewrite <- list_fmap_compose.
  assert (up_PublicKey ∘ (λ kp : string * WgPeer, mkUPeer kp.1 (wp_PresharedKey kp.2) (wp_Endpoint kp.2) (wp_Keepalive kp.2)
    (wp_LastHandshake kp.2) 0 0 (wp_AllowedIPs kp.2)) <$> map_to_list m = (map_to_list m).*1) as ->
    by (by apply list_fmap_ext).
  apply NoDup_fst_map_to_list.
Qed.
Lemma udev_listing m : udev (listing m) = m.
Proof.
  apply map_eq. intros k. apply option_eq. intros p. rewrite udev_lookup by apply listing_keys. unfold listing. split.
  - intros (u & ([k' q] & -> & Hin%elem_of_map_to_list)%list_elem_of_fmap & <- & <-). cbn. by destruct q.
  - intros Hp. eexists. split; [apply list_elem_of_fmap; exists (k, p); split; [done|by apply elem_of_map_to_list]|].
    split; [done|]. by destruct p.
Qed.
Definition listing_ok (m : device) : bool :=
  forallb (λ u, upeer_ok u && bool_decide (NoDup (up_AllowedIPs u))) (listing m).
#[export] Instance plain_uapi : Uapi device := {
  IpcGet m := if listing_ok m then Some (get_text no_psk 51820 0 (listing m)) else None;
  IpcSet txt m := m' ← uapi_set txt m; if listing_ok m' then Some m' else None;
  uapi_view m := m
}.
#[export] Instance plain_uapi_laws : UapiLaws device.
Proof.
  split; cbn.
  - intros m conf. destruct (listing_ok m) eqn:E; [|done]. intros [= <-]. exists no_psk, 51820, 0, (listing m).
    unfold listing_ok in E. rewrite forallb_elem in E. split_and!; try done.
    + apply forallb_elem. intros u Hu. by apply E, andb_prop in Hu as [? _].
    + apply listing_keys.
    + apply Forall_forall. intros u Hu. by apply E, andb_prop in Hu as [_ ?%bool_decide_eq_true].
    + by rewrite udev_listing.
  - intros txt m m' (m1 & Hs & Hm)%option.bind_Some. destruct (listing_ok m1) eqn:E; [|done]. injection Hm as <-.
    rewrite E. split; [by eexists|]. by exists m1.
Qed.

Definition ex_key (i : Z) : string := StdEncode (i :: replicate 31 7).
Definition ex_upeer : UPeer :=
  mkUPeer (ex_key 1) (ex_key 2) (Some "[2001:db8::1]:51820") (25 * Second) (Some (1700000000 * Second + 5)) 10 20
    ["100.64.0.2/32"; "fd00:100:64::2/128"].
Lemma uapi_roundtrip_witness :
  parseUAPI id (get_text (ex_key 9) 51820 0 [ex_upeer; new_upeer (ex_key 3)])
  = Ok (mkUDevice (ex_key 9) (ex_key 9) 51820 0 [ex_upeer; new_upeer (ex_key 3)]).
Proof. apply (uapi_roundtrip id); vm_compute; reflexivity. Defined.

Definition ex_udesired : list PeerConfig :=
  [mkPeerCfg (ex_key 1) false false (Some (ex_key 2)) (Some "203.0.113.5:51820") (Some (25 * Second)) false ["100.64.0.2/32"];
   mkPeerCfg (ex_key 3) false false (Some (ex_key 4)) None (Some (25 * Second)) false ["100.64.0.3/32"; "100.64.0.9/32"]].
Definition ex_uold : device :=
  {[ex_key 1 := mkWgPeer (Some "192.0.2.77:1234") (Some 5) ["100.64.0.2/32"; "100.64.0.9/32"] no_psk 0;
    ex_key 5 := mkWgPeer None None ["100.64.0.8/32"] no_psk 0]}.
Definition ex_unew : device := default ∅ (syncPeers (H := embedded id device) reverse ex_udesired ex_uold).
Definition ex_ucur : device := default ∅ (Device (WgBackend := embedded id device) ex_uold).
Lemma from_computed {A} (x : A) o : bool_decide (is_Some o) = true → o = Some (default x o).
Proof. rewrite bool_decide_eq_true. by intros [y ->]. Qed.
Lemma all_computed (f : WgPeer → bool) (m : device) :
  forallb (λ kp, f kp.2) (map_to_list m) = true → ∀ k p, m !! k = Some p → f p = true.
Proof. intros H k p Hp%elem_of_map_to_list. rewrite forallb_elem in H. by apply (H (k, p)). Qed.

Lemma embedded_refines_witness :
  ∃ cur', Device (WgBackend := embedded id device) ex_unew = Some cur' ∧ cur' !! ex_key 5 = None
    ∧ (wp_Endpoint <$> cur' !! ex_key 1) = Some (Some "192.0.2.77:1234")
    ∧ ∃ p, cur' !! ex_key 3 = Some p ∧ wp_AllowedIPs p ≡ₚ ["100.64.0.3/32"; "100.64.0.9/32"].
Proof.
  destruct (embedded_refines id device reverse ex_udesired ex_uold ex_unew ex_ucur) as (cur' & H1 & H2 & H3).
  - intros l. apply reverse_Permutation.
  - split.
    + intros w [->|[->|[]%elem_of_nil]%elem_of_cons]%elem_of_cons; repeat split; try (by eexists); repeat constructor.
    + intros w [->|[->|[]%elem_of_nil]%elem_of_cons]%elem_of_cons; by apply (bool_decide_eq_true_1 (NoDup _)).
    + intros k k' w w' r [<- Hi]%desiredByKey_key [<- Hi']%desiredByKey_key.
      apply elem_of_cons in Hi as [->|[->|[]%elem_of_nil]%elem_of_cons];
        apply elem_of_cons in Hi' as [->|[->|[]%elem_of_nil]%elem_of_cons]; simpl; set_solver.
  - apply from_computed. vm_compute. reflexivity.
  - intros k p Hp. apply Forall_forall. intros r. apply forallb_elem. revert k p Hp.
    apply (all_computed (λ p, forallb (no_char ",") (wp_AllowedIPs p))). vm_compute. reflexivity.
  - apply from_computed. vm_compute. reflexivity.
  - exists cur'. split; [exact H1|]. split; [apply H2; vm_compute; reflexivity|]. split.
    + destruct (H3 (ex_key 1) _ ltac:(vm_compute; reflexivity)) as (p & -> & _ & He & _). cbn [fmap option_fmap option_map].
      f_equal. vm_compute in He. exact He.
    + destruct (H3 (ex_key 3) _ ltac:(vm_compute; reflexivity)) as (p & -> & [Hp _] & _). exists p. split; [reflexivity|].
      exact Hp.
Defined.
