(* ===== verification/AdminApi.v ===== *)
(** * The operators' endpoints

    cmd/server/admin.go, acl.go and users.go: the JSON handlers behind
    [requireAdmin], each a whole transition of the server and its store with
    its guards, its answer, the audit entry and the broadcast that makes every
    connected agent sync (signal.go [signalSync]).

    Audit texts quote operator input with [strconv.Quote] and a setup key's
    lifetime is read by [time.ParseDuration]: both are parameters, as is the
    clock. *)
From S2P Require Import Prelude GoText TimeText NetAddr Json Schema Enroll Admin Acl ExitNode Network Dns Users Telemetry ClientIP PeerEntries Handlers.
From Stdlib Require Import Ascii.

(** The server and the reasons of the broadcasts sent so far, oldest first. *)
Record Api : Type := mkApi { ap_world : World; ap_syncs : list string }.
Definition on_world (f : World → World) (a : Api) : Api := mkApi (f (ap_world a)) (ap_syncs a).
Definition signalSync (reason : string) (a : Api) : Api := mkApi (ap_world a) (ap_syncs a ++ [reason]).
Definition a_db (a : Api) : DB := w_db (ap_world a).
Definition a_cfg (a : Api) : Config := w_cfg (ap_world a).

(** A store transaction run by a handler. *)
Definition a_run {A} (m : tx DB A) (a : Api) : result A * Api :=
  let '(r, db) := run_tx m (a_db a) in (r, on_world (with_db db) a).

(** ** Answers *)
Record peerJSON : Type := mkPeerJSON {
  pj_Info : PeerInfo; pj_PeerType : string; pj_HealthStatus : string; pj_LastSeenAgeSec : Z
}.
Record peerPingJSON : Type := mkPing { pp_PeerID : Z; pp_Status : string; pp_LastSeenAt : string; pp_Age : Z }.
Record networkMigrationRequest : Type := mkMigration { nm_CIDR : string; nm_CIDR6 : string; nm_Confirm : string }.
Record aclImportRequest : Type := mkImport { ai_Replace : option bool; ai_Rules : list ACLRule }.
Record setupKeyRequest : Type := mkKeyReq { kr_Name : string; kr_MaxUses : Z; kr_ExpiresIn : string }.
Definition networkMigrationConfirm : string := "REASSIGN OVERLAY NETWORK".

Definition quoted (s : string) : string := String "034" (s +:+ String "034" "").

Definition peerType (kind : string) : string := if decide (kind = "static") then "static" else "agent".
(** Whole seconds, toward zero. *)
Definition peerHealth (now : Z) (lastSeenAt revokedAt kind : string) : string * Z :=
  if decide (revokedAt ≠ "") then ("revoked", 0)
  else if decide (peerType kind = "static") then ("static", 0)
  else if decide (lastSeenAt = "") then ("offline", 0)
  else match parse_time lastSeenAt with
       | None => ("unknown", 0)
       | Some t =>
           let age := (now - t) ÷ Second in
           (if age <=? 90 then "online" else if age <=? 300 then "stale" else "offline", age)
       end.
Definition peerInfoJSON (now : Z) (p : PeerInfo) : peerJSON :=
  let '(health, age) := peerHealth now (pi_LastSeenAt p) (pi_RevokedAt p) (pi_PeerType p) in
  mkPeerJSON p (peerType (pi_PeerType p)) health age.

Definition peerRefName (id : Z) (hostname : string) : string :=
  if decide (hostname = "") then "id=" +:+ Itoa id else "id=" +:+ Itoa id +:+ " (" +:+ hostname +:+ ")".
Definition peerRef (id : option Z) : string := from_option Itoa "any" id.
Definition portRange (portMin portMax : option Z) : string :=
  match portMin, portMax with
  | None, None => "any"
  | Some a, Some b => if a =? b then Itoa a else Itoa a +:+ "-" +:+ Itoa b
  | _, _ => from_option Itoa "any" portMin +:+ "-" +:+ from_option Itoa "any" portMax
  end.
Definition defaultPolicyName (c : Config) : string := if DefaultAllow c then "allow" else "deny".

Section handlers.
Context (Quote : string → string) (ParseDuration : string → option Z) (IDKey : list Z → list Z → Z → Z → Z → Z → list Z).
(** The clocks of the store operation and of the audit entry, and the request. *)
Context (now later : Z) (r : Request).

Definition admin_audit (event detail : string) : Api → Api := on_world (audit later r None event 200 detail).

(** ** Listings *)
Definition handleListPeers (a : Api) : reply (list peerJSON) := Good (peerInfoJSON now <$> ListPeers (a_db a)).
Definition handlePingPeer (rawID : string) (a : Api) : reply peerPingJSON :=
  match ParseInt rawID with
  | None => Status 400 "invalid id"
  | Some id =>
      match find (λ p, pi_ID p =? id) (ListPeers (a_db a)) with
      | None => Status 404 "peer not found"
      | Some p =>
          let '(status, age) := peerHealth now (pi_LastSeenAt p) (pi_RevokedAt p) (pi_PeerType p) in
          Good (mkPing (pi_ID p) status (pi_LastSeenAt p) age)
      end
  end.
Definition handleListSetupKeys (a : Api) : reply (list SetupKeyInfo) := Good (ListSetupKeys (a_db a)).
Definition currentNetworkConfig (w : World) : NetworkConfig :=
  mkNetworkConfig (sv_networkCIDR (w_server w)) (sv_network6CIDR (w_server w)).
Definition handleGetNetwork (a : Api) : reply NetworkConfig := Good (currentNetworkConfig (ap_world a)).
Definition handleGetDNS (a : Api) : reply DNSConfig :=
  match CurrentDNSConfig (a_db a) with Ok c => Good c | Err _ => Status 500 "internal error" end.
Definition handleListACL (a : Api) : reply (string * list ACLRule) :=
  Good (defaultPolicyName (a_cfg a), ListACLRules (a_db a)).
Definition handleListUsers (a : Api) : reply (list User) := Good (ListUsers (a_db a)).

(** ** Settings *)
Definition handleUpdateDNS (b : body DNSConfig) (a : Api) : reply DNSConfig * Api :=
  match DecodeJSON (64 * 1024) b with
  | inl (code, msg) => (Status code msg, a)
  | inr req =>
      match a_run (UpdateDNSConfig req) a with
      | (Err e, a) => (Status 400 (error_text e), a)
      | (Ok cfg, a) =>
          let a := admin_audit "dns_update"
                     ("enabled=" +:+ fmt_bool (dc_Enabled cfg) +:+ " nameservers=" +:+ Join (dc_Nameservers cfg) ","
                      +:+ " domain=" +:+ dc_Domain cfg +:+ " search=" +:+ Join (dc_SearchDomains cfg) ",") a in
          (Good cfg, signalSync "dns_update" a)
      end
  end.

Definition parseNetwork4 (raw : string) : result Prefix :=
  match ParsePrefix raw with
  | None => Err (ErrMsg ("parse network " +:+ raw))
  | Some p => if Is4 (paddr p) then Ok (Masked p) else Err (ErrMsg ("--network must be an IPv4 CIDR, got " +:+ raw))
  end.
Definition parseNetwork6 (raw : string) : result Prefix :=
  match ParsePrefix raw with
  | None => Err (ErrMsg ("parse network6 " +:+ raw))
  | Some p => if Is6 (paddr p) then Ok (Masked p) else Err (ErrMsg ("--network6 must be an IPv6 CIDR, got " +:+ raw))
  end.
Definition parseNetworkMigrationTarget (req : networkMigrationRequest) : result (Prefix * Prefix) :=
  t4 ← parseNetwork4 (nm_CIDR req); t6 ← parseNetwork6 (nm_CIDR6 req); Ok (t4, t6).
Definition set_message (msg : string) (p : NetworkMigrationPlan) : NetworkMigrationPlan :=
  mkPlan (pl_Current p) (pl_Target p) (pl_Changes p) msg.
Definition preview_message : string :=
  "Preview only. Applying this plan reassigns overlay IPs in the control plane; running peers adopt their new self IP from the next report response.".
Definition applied_message : string :=
  "Overlay assignments were updated. Running peers adopt their new interface address from the next report response; restart/re-enroll also receives the new assignment.".
Definition handlePreviewNetworkMigration (b : body networkMigrationRequest) (a : Api) : reply NetworkMigrationPlan :=
  match DecodeJSON (64 * 1024) b with
  | inl (code, msg) => Status code msg
  | inr req =>
      match parseNetworkMigrationTarget req with
      | Err e => Status 400 (error_text e)
      | Ok (t4, t6) =>
          match PreviewNetworkMigration (a_cfg a) t4 t6 (a_db a) with
          | Err e => Status 400 (error_text e)
          | Ok plan => Good (set_message preview_message plan)
          end
      end
  end.
Definition setNetworkConfig (c : NetworkConfig) (w : World) : World :=
  let s := w_server w in
  mkWorld (mkServer (nc_NetworkCIDR c) (nc_NetworkCIDR6 c) (sv_pskMaster s) (sv_keepalive s) (sv_relay s)
             (sv_stunServers s) (sv_trust s) (sv_punchEpochs s)) (w_store w) (w_signals w).
Definition handleApplyNetworkMigration (b : body networkMigrationRequest) (a : Api) : reply NetworkMigrationPlan * Api :=
  match DecodeJSON (64 * 1024) b with
  | inl (code, msg) => (Status code msg, a)
  | inr req =>
      if decide (nm_Confirm req ≠ networkMigrationConfirm)
      then (Status 400 ("confirm must be " +:+ quoted networkMigrationConfirm), a)
      else match parseNetworkMigrationTarget req with
      | Err e => (Status 400 (error_text e), a)
      | Ok (t4, t6) =>
          match ApplyNetworkMigration t4 t6 (w_store (ap_world a)) with
          | (Err e, _) => (Status 400 (error_text e), a)
          | (Ok plan, st) =>
              let a := on_world (λ w, setNetworkConfig (pl_Target plan) (mkWorld (w_server w) st (w_signals w))) a in
              let a := admin_audit "network_migrate"
                         (nc_NetworkCIDR (pl_Current plan) +:+ " -> " +:+ nc_NetworkCIDR (pl_Target plan) +:+ ", "
                          +:+ nc_NetworkCIDR6 (pl_Current plan) +:+ " -> " +:+ nc_NetworkCIDR6 (pl_Target plan)
                          +:+ ", peers=" +:+ Itoa (Z.of_nat (length (pl_Changes plan)))) a in
              (Good (set_message applied_message plan), signalSync "network_migrate" a)
          end
      end
  end.

(** ** Setup keys and peers *)
Definition handleCreateSetupKey (raw : list Z) (b : body setupKeyRequest) (a : Api) : reply string * Api :=
  match DecodeJSON (64 * 1024) b with
  | inl (code, msg) => (Status code msg, a)
  | inr req =>
      match (if decide (kr_ExpiresIn req = "") then Some 0 else ParseDuration (kr_ExpiresIn req)) with
      | None => (Status 400 ("expires_in must be a Go duration (e.g. " +:+ quoted "24h" +:+ ")"), a)
      | Some expiresIn =>
          match a_run (CreateNamedSetupKey now raw (kr_Name req) (kr_MaxUses req) expiresIn) a with
          | (Err _, a) => (Status 500 "internal error", a)
          | (Ok key, a) =>
              (Good key,
               admin_audit "setup_key_create"
                 ("name=" +:+ Quote (kr_Name req) +:+ " max_uses=" +:+ Itoa (kr_MaxUses req) +:+ " expires_in="
                  +:+ Quote (kr_ExpiresIn req)) a)
          end
      end
  end.

Definition handleRevoke (rawID : string) (revoke : Z → tx DB unit) (kind : string) (a : Api) : reply string * Api :=
  match ParseInt rawID with
  | None => (Status 400 "invalid id", a)
  | Some id =>
      match a_run (revoke id) a with
      | (Err (ErrNotFound _), a) => (Status 404 "not found or already revoked", a)
      | (Err _, a) => (Status 500 "internal error", a)
      | (Ok _, a) =>
          let a := admin_audit "revoke" (kind +:+ " id=" +:+ Itoa id) a in
          (Good "revoked", if decide (kind = "peer") then signalSync "peer_revoke" a else a)
      end
  end.
Definition handleRevokeSetupKey (rawID : string) : Api → reply string * Api :=
  handleRevoke rawID (RevokeSetupKey now) "setup key".
Definition handleRevokePeer (rawID : string) : Api → reply string * Api := handleRevoke rawID (RevokePeer now) "peer".

Definition handleRemovePeer (rawID : string) (a : Api) : reply string * Api :=
  match ParseInt rawID with
  | None => (Status 400 "invalid id", a)
  | Some id =>
      match a_run (RemovePeer id) a with
      | (Err (ErrNotFound _), a) => (Status 404 "peer not found or not revoked", a)
      | (Err _, a) => (Status 500 "internal error", a)
      | (Ok _, a) =>
          (Good "removed", signalSync "peer_remove" (admin_audit "peer_remove" ("peer id=" +:+ Itoa id) a))
      end
  end.

Definition handleUpdatePeerAddress (rawID : string) (b : body (string * string)) (a : Api) : reply peerJSON * Api :=
  match ParseInt rawID with
  | None => (Status 400 "invalid id", a)
  | Some id =>
      match DecodeJSON (64 * 1024) b with
      | inl (code, msg) => (Status code msg, a)
      | inr (ip, ip6) =>
          match a_run (UpdatePeerAddress (a_cfg a) id ip ip6) a with
          | (Err (ErrNotFound _), a) => (Status 404 "peer not found or revoked", a)
          | (Err (ErrAddressInUse d), a) => (Status 409 (error_text (ErrAddressInUse d)), a)
          | (Err e, a) => (Status 400 (error_text e), a)
          | (Ok peer, a) =>
              let a := admin_audit "peer_address_update"
                         ("peer id=" +:+ Itoa id +:+ " assigned_ip=" +:+ pi_AssignedIP peer +:+ " assigned_ip6="
                          +:+ pi_AssignedIP6 peer) a in
              (Good (peerInfoJSON later peer), signalSync "peer_address_update" a)
          end
      end
  end.

Definition handleSetExitNode (rawID : string) (b : body Z) (a : Api) : reply (Z * Z) * Api :=
  match ParseInt rawID with
  | None => (Status 400 "invalid id", a)
  | Some id =>
      match DecodeJSON (64 * 1024) b with
      | inl (code, msg) => (Status code msg, a)
      | inr exit =>
          match a_run (SetExitNode id exit) a with
          | (Err (ErrInvalid d), a) => (Status 400 (error_text (ErrInvalid d)), a)
          | (Err _, a) => (Status 500 "internal error", a)
          | (Ok asg, a) =>
              let detail :=
                if exit =? 0 then "peer " +:+ peerRefName id (ea_PeerHostname asg) +:+ " cleared its exit node"
                else "peer " +:+ peerRefName id (ea_PeerHostname asg) +:+ " now exits via "
                     +:+ peerRefName exit (ea_ExitHostname asg) in
              (Good (id, exit), signalSync "peer_exit_node_update" (admin_audit "peer_exit_node_update" detail a))
          end
      end
  end.

(** ** Access rules *)
Definition handleExportACL (a : Api) : reply (string * string * list ACLRule * Z) :=
  let out := ListACLRules (a_db a) in
  Good (fmt_time now, defaultPolicyName (a_cfg a), out, Z.of_nat (length out)).

(** Only what a rule says is imported, not its identity or labels. *)
Definition import_rule (rule : ACLRule) : ACLRule :=
  mkACLRule 0 (ar_SrcPeerID rule) "" (ar_DstPeerID rule) "" (ar_Name rule) (ar_Protocol rule) (ar_PortMin rule)
    (ar_PortMax rule) "".
Definition handleImportACL (b : body aclImportRequest) (a : Api) : reply (string * list ACLRule) * Api :=
  match DecodeJSON (1024 * 1024) b with
  | inl (code, msg) => (Status code msg, a)
  | inr req =>
      let replace := default true (ai_Replace req) in
      match a_run (ImportACLRules now (import_rule <$> ai_Rules req) replace) a with
      | (Err e, a) => (Status 400 (error_text e), a)
      | (Ok n, a) =>
          let a := admin_audit "acl_import" ("rules=" +:+ Itoa n +:+ " replace=" +:+ fmt_bool replace) a in
          let a := signalSync "acl_import" a in
          (Good (defaultPolicyName (a_cfg a), ListACLRules (a_db a)), a)
      end
  end.
Definition handleCreateACL (b : body ACLRule) (a : Api) : reply Z * Api :=
  match DecodeJSON (64 * 1024) b with
  | inl (code, msg) => (Status code msg, a)
  | inr req =>
      match a_run (CreateACLRuleDetailed now (import_rule req)) a with
      | (Err _, a) => (Status 400 "could not create rule (check peers, protocol, and port range)", a)
      | (Ok id, a) =>
          let proto := if decide (ar_Protocol req = "") then "any" else ar_Protocol req in
          let a := admin_audit "acl_create"
                     ("rule id=" +:+ Itoa id +:+ " name=" +:+ Quote (ar_Name req) +:+ " src=" +:+ peerRef (ar_SrcPeerID req)
                      +:+ " dst=" +:+ peerRef (ar_DstPeerID req) +:+ " proto=" +:+ Quote proto +:+ " ports="
                      +:+ portRange (ar_PortMin req) (ar_PortMax req)) a in
          (Good id, signalSync "acl_create" a)
      end
  end.
Definition handleDeleteACL (rawID : string) (a : Api) : reply string * Api :=
  match ParseInt rawID with
  | None => (Status 400 "invalid id", a)
  | Some id =>
      match a_run (DeleteACLRule id) a with
      | (Err (ErrNotFound _), a) => (Status 404 "not found", a)
      | (Err _, a) => (Status 500 "internal error", a)
      | (Ok _, a) => (Good "deleted", signalSync "acl_delete" (admin_audit "acl_delete" ("rule id=" +:+ Itoa id) a))
      end
  end.

(** ** Accounts *)
Definition handleCreateUser (salt : list Z) (b : body (string * string)) (a : Api) : reply User * Api :=
  match DecodeJSON (4 * 1024) b with
  | inl (code, msg) => (Status code msg, a)
  | inr (username, password) =>
      match a_run (CreateLocalUser IDKey now salt username password) a with
      | (Err (ErrUserExists d), a) => (Status 409 (error_text (ErrUserExists d)), a)
      | (Err e, a) => (Status 400 (error_text e), a)
      | (Ok u, a) => (Good u, admin_audit "user_create" ("user=" +:+ us_Username u) a)
      end
  end.
Definition handleDeleteUser (rawID : string) (a : Api) : reply string * Api :=
  match ParseInt rawID with
  | None => (Status 400 "invalid user id", a)
  | Some id =>
      match a_run (DeleteUser id) a with
      | (Err (ErrNotFound _), a) => (Status 404 "user not found", a)
      | (Err e, a) => (Status 400 (error_text e), a)
      | (Ok _, a) => (Good "deleted", admin_audit "user_delete" ("user_id=" +:+ Itoa id) a)
      end
  end.
End handlers.
