(* ===== verification/Session.v ===== *)
(** * Operators' sessions

    cmd/server/ui.go, and the parts of users.go and admin.go that decide who an
    operator is: signed session cookies, [requireAdmin], [requireSession], login
    and the change of one's own password.  The cookie of a request is its text,
    if it has one. *)
From S2P Require Import Prelude GoText TimeText NetAddr NetFacts Codec Sha256 Schema SchemaFacts Enroll Visibility Users StoreMachine ClientIP PeerEntries EntryFacts Handlers HandlerFacts NumText AdminApi.
From Stdlib Require Import Ascii.

Definition uiSessionTTL : Z := 12 * Hour.

(** ** Cookies *)
Section cookies.
Context (sessionKey : list Z).

Definition uiSessionMAC (payload : string) : list Z := hmac sessionKey (bytes_of ("wgmesh-ui-session." +:+ payload)).
Definition session_payload (id epoch issued : Z) : string := Join [Itoa id; Itoa epoch; Itoa issued] ".".
(** [t.Unix()] counts whole seconds. *)
Definition signUISession (u : User) (t : Z) : string :=
  let payload := session_payload (us_ID u) (us_SessionEpoch u) (t / Second) in
  RawURLEncode (bytes_of (payload +:+ String "|" (RawURLEncode (uiSessionMAC payload)))).

Definition sessionUser (now : Z) (cookie : option string) (db : DB) : option User :=
  value ← cookie;
  raw ← RawURLDecode value;
  '(payload, macRaw) ← cut "|" (string_of_bytes raw);
  match Split payload "." with
  | [f0; f1; f2] =>
      userID ← ParseInt f0; epoch ← ParseInt f1; issued ← ParseInt f2;
      got ← RawURLDecode macRaw;
      if negb (bool_decide (got = uiSessionMAC payload)) then None
      else if (now + Minute <? issued * Second) || (uiSessionTTL <? now - issued * Second) then None
      else match userByID userID db with
           | Ok u => if us_SessionEpoch u =? epoch then Some u else None
           | Err _ => None
           end
  | _ => None
  end.
Definition validUISession (now : Z) (cookie : option string) (db : DB) : bool :=
  bool_decide (is_Some (sessionUser now cookie db)).

(** ** Who may call *)

(** What [requireAdmin] lets through: the bearer token or a session. *)
Definition requireAdmin (adminToken : string) (now : Z) (r : Request) (cookie : option string) (db : DB) : bool :=
  match CutPrefix (hr_Authorization r) "Bearer " with
  | Some presented => bool_decide (presented = adminToken)
  | None => false
  end || validUISession now cookie db.
(** A handler behind it. *)
Definition guarded {A} (adminToken : string) (now : Z) (r : Request) (cookie : option string)
    (next : Api → reply A * Api) (a : Api) : reply A * Api :=
  if requireAdmin adminToken now r cookie (a_db a) then next a else (Status 401 "unauthorized", a).

Definition requireSession {A} (now : Z) (cookie : option string) (next : User → Api → reply A * Api) (a : Api)
  : reply A * Api :=
  match sessionUser now cookie (a_db a) with
  | Some u => next u a
  | None => (Status 401 "sign in to the web UI to use this endpoint", a)
  end.

Section accounts.
Context (IDKey : list Z → list Z → Z → Z → Z → Z → list Z).

(** The answer to a login is the new cookie. *)
Definition handleUILogin (now later : Z) (r : Request) (form : option (string * string)) (a : Api) : reply string * Api :=
  match form with
  | None => (Status 400 "invalid request", a)
  | Some (username, password) =>
      let username := TrimSpace username in
      match Authenticate IDKey username password (a_db a) with
      | Err _ =>
          (Status 401 "invalid username or password",
           on_world (audit later r None "ui_login_failed" 401 ("user=" +:+ username)) a)
      | Ok u =>
          (Good (signUISession u now), on_world (audit later r None "ui_login" 200 ("user=" +:+ us_Username u)) a)
      end
  end.

Definition handleAccount (u : User) (a : Api) : reply User * Api := (Good u, a).

(** The answer is the cookie that replaces the one the change made stale. *)
Definition handleChangePassword (now later : Z) (r : Request) (salt : list Z) (b : body (string * string))
    (u : User) (a : Api) : reply (option string) * Api :=
  match DecodeJSON (4 * 1024) b with
  | inl (code, msg) => (Status code msg, a)
  | inr (current, new) =>
      match Authenticate IDKey (us_Username u) current (a_db a) with
      | Err _ =>
          (Status 401 "current password is incorrect",
           on_world (audit later r None "password_change_failed" 401 ("user=" +:+ us_Username u)) a)
      | Ok _ =>
          match a_run (SetPassword IDKey now salt (us_ID u) new) a with
          | (Err e, a) => (Status 400 (error_text e), a)
          | (Ok _, a) =>
              let cookie := match userByID (us_ID u) (a_db a) with
                            | Ok refreshed => Some (signUISession refreshed later)
                            | Err _ => None
                            end in
              (Good cookie, on_world (audit later r None "password_change" 200 ("user=" +:+ us_Username u)) a)
          end
      end
  end.
End accounts.
End cookies.

(** * Facts about the operators' sessions

    A cookie is accepted exactly while its account exists with the session
    epoch it was signed for and it is younger than twelve hours; nothing is
    accepted without the MAC of its payload; changing the password ends every
    earlier session of the account. *)
(** ** Bytes *)
Lemma be_bytes_is_byte n z : forallb is_byte (be_bytes n z) = true.
Proof.
  unfold be_bytes. induction (rev (seq 0 n)) as [|i l IH]; [done|]. cbn. rewrite IH.
  unfold is_byte. pose proof (Z.mod_pos_bound (z / 2 ^ (8 * Z.of_nat i)) 256). lia.
Qed.
Lemma forallb_mjoin {A} (p : A → bool) ls : Forall (λ l, forallb p l = true) ls → forallb p (mjoin ls) = true.
Proof. induction 1 as [|l ls Hl _ IH]; [done|]. cbn. by rewrite forallb_app, Hl. Qed.
Lemma sha256_is_byte m : forallb is_byte (sha256 m) = true.
Proof.
  unfold sha256. apply forallb_mjoin, Forall_fmap, Forall_forall. intros z _. apply be_bytes_is_byte.
Qed.
Lemma hmac_is_byte key m : forallb is_byte (hmac key m) = true.
Proof. apply sha256_is_byte. Qed.

Lemma no_char_cons_digit c z : digit c = None → c ≠ "-"%char → no_char c (Itoa z) = true.
Proof.
  intros Hd Hm. destruct (decide (0 ≤ z)) as [Hz|Hz]; [by apply no_char_Itoa|].
  destruct z as [|p|p]; [lia|lia|]. change (Itoa (Z.neg p)) with (String "-" (Itoa (Z.pos p))).
  unfold no_char. rewrite str_forall_cons. rewrite bool_decide_eq_true_2 by done.
  by apply (no_char_Itoa c (Z.pos p)).
Qed.

(** ** Cookies *)
Section cookies.
Context (sessionKey : list Z).

Lemma session_payload_Split id epoch issued :
  Split (session_payload id epoch issued) "." = [Itoa id; Itoa epoch; Itoa issued].
Proof using.
  apply Split_Join; [done|]. rewrite !Forall_cons. split_and!; try done; by apply no_char_cons_digit.
Qed.
Lemma session_payload_no_bar id epoch issued : no_char "|" (session_payload id epoch issued) = true.
Proof using.
  unfold session_payload. cbn [Join]. unfold no_char. rewrite !str_forall_app.
  fold (no_char "|"). rewrite !andb_true_iff. split_and!; try done; by apply no_char_cons_digit.
Qed.

(** What becomes of a cookie. *)
Definition session_fresh (now issued : Z) : bool :=
  negb ((now + Minute <? issued * Second) || (uiSessionTTL <? now - issued * Second)).
Definition session_account (id epoch : Z) (db : DB) : option User :=
  match userByID id db with
  | Ok u => if us_SessionEpoch u =? epoch then Some u else None
  | Err _ => None
  end.

Lemma sessionUser_signed now u t db :
  in_int64 (us_ID u) = true → in_int64 (us_SessionEpoch u) = true → in_int64 (t / Second) = true →
  sessionUser sessionKey now (Some (signUISession sessionKey u t)) db =
  if session_fresh now (t / Second) then session_account (us_ID u) (us_SessionEpoch u) db else None.
Proof using.
  intros Hi He Ht. unfold sessionUser, signUISession, session_fresh. rewrite bind_Some.
  rewrite RawURLDecode_encode by apply bytes_of_is_byte. rewrite bind_Some, string_of_bytes_of.
  rewrite cut_app by apply session_payload_no_bar. rewrite bind_Some, session_payload_Split.
  rewrite !ParseInt_Itoa by done. rewrite !bind_Some.
  rewrite RawURLDecode_encode by apply hmac_is_byte. rewrite bind_Some.
  rewrite bool_decide_eq_true_2 by done. cbn [negb]. by destruct (_ || _).
Qed.

(** The account, epoch and time a cookie with a right MAC speaks of. *)
Definition session_claim (cookie : option string) : option (Z * Z * Z) :=
  value ← cookie;
  raw ← RawURLDecode value;
  '(payload, macRaw) ← cut "|" (string_of_bytes raw);
  match Split payload "." with
  | [f0; f1; f2] =>
      userID ← ParseInt f0; epoch ← ParseInt f1; issued ← ParseInt f2;
      got ← RawURLDecode macRaw;
      if bool_decide (got = uiSessionMAC sessionKey payload) then Some (userID, epoch, issued) else None
  | _ => None
  end.
Lemma sessionUser_claim now cookie db :
  sessionUser sessionKey now cookie db =
  '(id, epoch, issued) ← session_claim cookie;
  if session_fresh now issued then session_account id epoch db else None.
Proof using.
  unfold sessionUser, session_claim, session_fresh, session_account.
  destruct cookie as [value|]; [|done]. rewrite !bind_Some. destruct (RawURLDecode value) as [raw|]; [|done].
  rewrite !bind_Some. destruct (cut _ _) as [[payload mac]|]; [|done]. rewrite !bind_Some.
  destruct (Split payload ".") as [|f0 [|f1 [|f2 [|]]]]; try done.
  destruct (ParseInt f0); [|done]. destruct (ParseInt f1); [|done]. destruct (ParseInt f2); [|done].
  rewrite !bind_Some. destruct (RawURLDecode mac); [|done]. rewrite !bind_Some.
  destruct (bool_decide _); [|done]. cbn [negb]. rewrite bind_Some. by destruct (_ || _).
Qed.

Lemma session_account_Some id epoch db u :
  session_account id epoch db = Some u ↔ userByID id db = Ok u ∧ us_SessionEpoch u = epoch.
Proof using.
  unfold session_account. destruct (userByID id db) as [v|]; [|naive_solver].
  destruct (Z.eqb_spec (us_SessionEpoch v) epoch); naive_solver.
Qed.
Lemma userByID_id id db u : userByID id db = Ok u → us_ID u = id.
Proof using.
  unfold userByID. destruct (select1 _ _) as [r|] eqn:E; [|done]. intros [= <-].
  apply select1_Some in E as [_ E]. cbn in *. lia.
Qed.

(** ** The account table after a change of password *)
Lemma userByID_row db r : db_ok db → r ∈ users db → userByID (u_id r) db = Ok (user_info r).
Proof using. intros H Hr. unfold userByID. by rewrite (select1_by_id u_id) by (apply H || done). Qed.
Lemma userByID_Ok id db u : userByID id db = Ok u → ∃ r, r ∈ users db ∧ u_id r = id ∧ u = user_info r.
Proof using.
  unfold userByID. destruct (select1 _ _) as [r|] eqn:E; [|done]. intros [= <-].
  apply select1_Some in E as [Hr E]. exists r. split_and!; [done|lia|done].
Qed.
Lemma userByID_users id db1 db2 : users db1 = users db2 → userByID id db1 = userByID id db2.
Proof using. unfold userByID. by intros ->. Qed.

(** A session cookie is accepted exactly while its account exists with the
    session epoch it was signed for, from one minute before the second of its
    issue to twelve hours after it; and whatever text is accepted, at any time,
    decodes to a payload of three numbers followed by the MAC of that payload
    under the server's key, naming the accepted account and its epoch. *)
Theorem session_cookie_exact u t :
  in_int64 (us_ID u) = true → in_int64 (us_SessionEpoch u) = true → in_int64 (t / Second) = true →
  (∀ now db v, sessionUser sessionKey now (Some (signUISession sessionKey u t)) db = Some v ↔
     userByID (us_ID u) db = Ok v ∧ us_SessionEpoch v = us_SessionEpoch u
     ∧ t / Second * Second - Minute ≤ now ≤ t / Second * Second + uiSessionTTL)
  ∧ (∀ now text db v, sessionUser sessionKey now (Some text) db = Some v →
       ∃ raw payload mac f0 f1 f2, RawURLDecode text = Some raw
         ∧ cut "|" (string_of_bytes raw) = Some (payload, mac)
         ∧ Split payload "." = [f0; f1; f2]
         ∧ RawURLDecode mac = Some (uiSessionMAC sessionKey payload)
         ∧ ParseInt f0 = Some (us_ID v) ∧ ParseInt f1 = Some (us_SessionEpoch v)
         ∧ userByID (us_ID v) db = Ok v).
Proof using.
  intros Hi He Ht. split.
  - intros now db v. rewrite sessionUser_signed by done. unfold session_fresh.
    destruct (negb _) eqn:F; [rewrite session_account_Some|]; split; intros; destruct_and?; try done.
    + split_and!; [done..|lia|lia].
    + exfalso. lia.
  - intros now text db v H. unfold sessionUser in H. cbn [mbind option_bind] in H.
    destruct (RawURLDecode text) as [raw|]; [|done]. cbn [mbind option_bind] in H.
    destruct (cut "|" _) as [[payload mac]|] eqn:Ec; [|done]. cbn [mbind option_bind] in H.
    destruct (Split payload ".") as [|f0 [|f1 [|f2 [|]]]] eqn:Es; try done.
    destruct (ParseInt f0) as [id|] eqn:E0; [|done]. destruct (ParseInt f1) as [epoch|] eqn:E1; [|done].
    destruct (ParseInt f2); [|done]. cbn [mbind option_bind] in H.
    destruct (RawURLDecode mac) as [got|] eqn:Em; [|done]. cbn [mbind option_bind] in H.
    case_bool_decide as Hg; [|done]. cbn [negb] in H. case_match; [done|].
    apply session_account_Some in H as [Hu <-]. pose proof (userByID_id _ _ _ Hu) as <-. subst got.
    by exists raw, payload, mac, f0, f1, f2.
Qed.

Section accounts.
Context (IDKey : list Z → list Z → Z → Z → Z → Z → list Z).

Lemma SetPassword_account now salt id pw db u v db' :
  db_ok db → userByID id db = Ok u → SetPassword IDKey now salt id pw db = Ok (v, db') →
  (∃ u', userByID id db' = Ok u' ∧ us_SessionEpoch u' = us_SessionEpoch u + 1 ∧ us_ID u' = id)
  ∧ (∀ j, j ≠ id → userByID j db' = userByID j db).
Proof using.
  intros H (r & Hr & Hi & ->)%userByID_Ok Hp.
  pose proof (SetPassword_db_ok _ _ _ _ _ _ _ _ H Hp) as H'.
  apply SetPassword_Ok in Hp as (_ & (q & Hq & Hl)%count_where_pos & ->).
  unfold local_user in Hl. apply andb_prop in Hl as [Hqi%Z.eqb_eq Hql].
  assert (q = r) as -> by (apply (ids_ok_inj u_id (users db)); [apply H|done..|lia]). subst id. split.
  - set (r' := mkUser (u_id r) (u_username r) (hashPassword IDKey salt pw) (u_auth_source r)
                 (u_session_epoch r + 1) (u_created_at r) (fmt_time now)).
    exists (user_info r'). split; [|done]. apply (userByID_row _ r' H').
    apply elem_of_update_where. exists r. split; [done|]. unfold local_user. by rewrite Z.eqb_refl, Hql.
  - intros j Hj. unfold userByID. cbn [users set_users].
    destruct (select1 (λ u, u_id u =? j) (users db)) as [w|] eqn:E.
    + apply select1_Some in E as [Hw Ew%Z.eqb_eq].
      rewrite (select1_unique _ _ w); [done|..].
      * apply elem_of_update_where. exists w. split; [done|]. unfold local_user.
        by rewrite (proj2 (Z.eqb_neq (u_id w) (u_id r))) by lia.
      * lia.
      * intros y (y0 & Hy0 & ->)%elem_of_update_where. destruct (local_user (u_id r) y0) eqn:L; cbn; intros Ey.
        -- unfold local_user in L. lia.
        -- apply (ids_ok_inj u_id (users db)); [apply H|done..|lia].
    + rewrite select1_None in E. rewrite (proj2 (select1_None _ _)); [done|].
      intros y (y0 & Hy0 & ->)%elem_of_update_where. pose proof (E y0 Hy0). by destruct (local_user (u_id r) y0).
Qed.

(** ** A change of password *)
Lemma handleChangePassword_Good now later r salt b u a cookie a' :
  handleChangePassword sessionKey IDKey now later r salt b u a = (Good cookie, a') →
  ∃ current new db', DecodeJSON (4 * 1024) b = inr (current, new)
    ∧ is_ok (Authenticate IDKey (us_Username u) current (a_db a)) = true
    ∧ SetPassword IDKey now salt (us_ID u) new (a_db a) = Ok (tt, db')
    ∧ users (a_db a') = users db'
    ∧ cookie = match userByID (us_ID u) db' with
               | Ok refreshed => Some (signUISession sessionKey refreshed later) | Err _ => None end.
Proof using.
  unfold handleChangePassword. destruct (DecodeJSON _ b) as [[code msg]|[current new]]; [done|].
  destruct (Authenticate _ _ _ _) as [v|] eqn:Ea; [|done].
  unfold a_run, run_tx. destruct (SetPassword _ _ _ _ _ _) as [[[] db']|e] eqn:Es; [|done].
  intros [= <- <-]. exists current, new, db'. split_and!; [done|by rewrite Ea|done..].
Qed.

(** An epoch that lies behind is never accepted again. *)
Lemma stale_epoch id epoch db :
  epoch_from id (epoch + 1) db → session_account id epoch db = None.
Proof using.
  clear IDKey sessionKey. intros He. destruct (session_account id epoch db) as [v|] eqn:E; [|done].
  apply session_account_Some in E as [(q & Hq & Hi & ->)%userByID_Ok Ev]. specialize (He q Hq Hi). cbn in Ev. lia.
Qed.

(** C23: a successful change of the own password, made with a valid session on a
    database that meets its schema and with id, epoch and time within 64 bits,
    ends every other session of the account: no cookie, the presented one
    included, that the server would have accepted for the account before is
    accepted at any later time, whatever operations and migrations the store
    goes through while the account exists, and right after it is deleted (an
    account created after that may get its number); the cookie in the answer is
    accepted for twelve hours, for the same account with the next epoch;
    sessions of the other accounts go on exactly as before. *)
Theorem password_change_ends_sessions now later r salt b cookie a answer a' u :
  db_ok (a_db a) → sessionUser sessionKey now cookie (a_db a) = Some u →
  in_int64 (us_ID u) = true → in_int64 (us_SessionEpoch u + 1) = true → in_int64 (later / Second) = true →
  requireSession sessionKey now cookie (handleChangePassword sessionKey IDKey now later r salt b) a
    = (Good answer, a') →
  (∀ t1 t2 c v s, sessionUser sessionKey t1 c (a_db a) = Some v → us_ID v = us_ID u →
     while_account IDKey (us_ID u) (w_store (ap_world a')) s →
     sessionUser sessionKey t2 c (sdb s) = None)
  ∧ (∃ v, us_ID v = us_ID u ∧ us_SessionEpoch v = us_SessionEpoch u + 1
       ∧ answer = Some (signUISession sessionKey v later)
       ∧ ∀ t, later ≤ t ≤ later / Second * Second + uiSessionTTL →
           sessionUser sessionKey t answer (a_db a') = Some v)
  ∧ (∀ t c v, us_ID v ≠ us_ID u →
       sessionUser sessionKey t c (a_db a) = Some v ↔ sessionUser sessionKey t c (a_db a') = Some v).
Proof using.
  intros Hdb Hs Hi He Hl H. unfold requireSession in H. rewrite Hs in H.
  apply handleChangePassword_Good in H as (current & new & db' & _ & _ & Hp & Hu & Hc).
  rewrite sessionUser_claim in Hs. destruct (session_claim cookie) as [[[id epoch] issued]|]; [|done].
  rewrite bind_Some in Hs. destruct (session_fresh now issued); [|done].
  apply session_account_Some in Hs as [Hid _]. pose proof (userByID_id _ _ _ Hid) as <-.
  destruct (SetPassword_account now salt (us_ID u) new (a_db a) u tt db' Hdb Hid Hp) as [(u' & Hu' & Hepoch & Hid') Hother].
  rewrite Hu' in Hc. assert (∀ j, userByID j (a_db a') = userByID j db') as Hsame by (intros j; by apply userByID_users).
  split_and!.
  - intros t1 t2 c v s. rewrite !sessionUser_claim. destruct (session_claim c) as [[[i e] ts]|]; [|done].
    rewrite !bind_Some. destruct (session_fresh t1 ts); [|done]. intros [Hv He']%session_account_Some Hvi Hw.
    pose proof (userByID_id _ _ _ Hv) as Hiv. destruct (session_fresh t2 ts); [|done].
    assert (i = us_ID u) as -> by lia. rewrite Hid in Hv. injection Hv as <-.
    apply stale_epoch. eapply while_epoch; [exact Hw|]. intros q Hq Hqi.
    assert (users (sdb (w_store (ap_world a'))) = users db') as Eu by exact Hu. rewrite Eu in Hq.
    pose proof (userByID_row db' q (SetPassword_db_ok _ _ _ _ _ _ _ _ Hdb Hp) Hq) as Hq'. rewrite Hqi, Hu' in Hq'.
    injection Hq' as ->. cbn in Hepoch. lia.
  - exists u'. split_and!; [done..|]. intros t Ht. subst answer. rewrite sessionUser_signed by congruence.
    unfold session_fresh. assert (later / Second * Second ≤ later < later / Second * Second + Second) by (unfold Second, Millisecond; lia).
    assert (0 < Minute) by (vm_compute; done).
    replace (negb _) with true by (symmetry; apply negb_true_iff; lia).
    apply session_account_Some. split; [|done]. by rewrite Hsame, Hid'.
  - intros t c v Hv. rewrite !sessionUser_claim. destruct (session_claim c) as [[[i e] ts]|]; [|done].
    rewrite !bind_Some. destruct (session_fresh t ts); [|done]. rewrite !session_account_Some, Hsame.
    destruct (decide (i = us_ID u)) as [->|Hne]; [|by rewrite Hother].
    split; intros [Hx%userByID_id _]; congruence.
Qed.
End accounts.
End cookies.

(** ** Witnesses *)
Definition ex_session_key : list Z := replicate 32 9.
Definition ex_api : Api := mkApi (mkWorld ex_server (mkStore sample_cfg ex_users) []) [].
Definition ex_cookie : option string := Some (signUISession ex_session_key ex_user 0).
Definition ex_post : Request := mkRequest "192.0.2.7:4000" [] "ui" "" "POST" "/api/v1/account/password".
Definition ex_change : reply (option string) * Api :=
  requireSession ex_session_key Minute ex_cookie
    (handleChangePassword ex_session_key pad_key Minute Minute ex_post [3]
       (Decoded ("correct horse", "battery staple"))) ex_api.

Lemma session_cookie_exact_witness :
  sessionUser ex_session_key (11 * Hour) ex_cookie ex_users = Some ex_user
  ∧ sessionUser ex_session_key (13 * Hour) ex_cookie ex_users = None.
Proof.
  destruct (session_cookie_exact ex_session_key ex_user 0 eq_refl eq_refl eq_refl) as [H _].
  split.
  - apply H. split_and!; by vm_compute.
  - apply eq_None_not_Some. intros [v E]. apply H in E as (_ & _ & _ & E). by vm_compute in E.
Defined.

Definition is_good {A} (x : reply A) : bool := match x with Good _ => true | Status _ _ => false end.
Lemma good_pair {A B} (x : reply A * B) : is_good x.1 = true → ∃ y b, x = (Good y, b).
Proof. destruct x as [[|y] b]; [done|]. by exists y, b. Qed.
Lemma password_change_ends_sessions_witness :
  ∃ answer a', ex_change = (Good answer, a')
    ∧ sessionUser ex_session_key (2 * Minute) ex_cookie (a_db a') = None
    ∧ sessionUser ex_session_key (2 * Minute) answer (a_db a') ≠ None.
Proof.
  assert (sessionUser ex_session_key Minute ex_cookie (a_db ex_api) = Some ex_user) as Hs by (vm_compute; reflexivity).
  assert (Minute ≤ 2 * Minute ≤ Minute / Second * Second + uiSessionTTL) as Ht by (split; vm_compute; discriminate).
  assert (db_ok (a_db ex_api)) as Hdb by (apply db_okb_ok; vm_compute; reflexivity).
  assert (is_good ex_change.1 = true) as Hg by (vm_compute; reflexivity).
  destruct (good_pair _ Hg) as (answer & a' & E). exists answer, a'. split; [exact E|].
  destruct (password_change_ends_sessions ex_session_key pad_key Minute Minute ex_post [3]
    (Decoded ("correct horse", "battery staple")) ex_cookie ex_api answer a' ex_user Hdb Hs eq_refl eq_refl eq_refl E)
    as (H1 & (v & _ & _ & _ & H2) & _).
  split; [exact (H1 Minute _ _ ex_user _ Hs eq_refl (wa_here _ _ _))|rewrite (H2 _ Ht); discriminate].
Defined.

(** The number of a deleted account goes to the next one created, whose epoch
    starts at zero again: a cookie of the deleted account, even one its owner had
    ended by changing the password, opens a session of the new one. *)
Definition ex_second : DB := (run_tx (CreateLocalUser pad_key 0 [2] "bob" "correct horse") ex_users).2.
Definition ex_bob : User := mkUserInfo 2 "bob" "local" 0 (fmt_time 0) (fmt_time 0).
Definition ex_bob_cookie : option string := Some (signUISession ex_session_key ex_bob 0).
Definition ex_changed : DB := (run_tx (SetPassword pad_key Minute [4] 2 "battery staple") ex_second).2.
Definition ex_replaced : DB :=
  (run_tx (CreateLocalUser pad_key Hour [5] "carol" "another horse") (run_tx (DeleteUser 2) ex_changed).2).2.
Lemma session_of_deleted_account :
  us_Username <$> sessionUser ex_session_key Minute ex_bob_cookie ex_second = Some "bob"
  ∧ sessionUser ex_session_key (2 * Minute) ex_bob_cookie ex_changed = None
  ∧ us_Username <$> sessionUser ex_session_key (2 * Hour) ex_bob_cookie ex_replaced = Some "carol".
Proof. vm_compute. split_and!; reflexivity. Qed.
