(* ===== verification/Aes.v ===== *)
(** * AES-256 in Galois counter mode

    What internal/keyseal uses of crypto/aes and crypto/cipher, executable: the
    block cipher on four 32-bit columns, GHASH on 128-bit numbers, and the
    AEAD's [Seal] and [Open] with its standard twelve-byte nonce and
    sixteen-byte tag. *)
From S2P Require Import Prelude GoText Codec Sha256.

(** ** The field of the S-box *)
Definition xtime (a : Z) : Z := let b := 2 * a in if b <? 256 then b else Z.lxor (b - 256) 0x1b.
Fixpoint gf_mul (n : nat) (a b : Z) : Z :=
  match n with
  | O => 0
  | S n => Z.lxor (if Z.odd b then a else 0) (gf_mul n (xtime a) (Z.div2 b))
  end.
Fixpoint gf_pow (n : nat) (a : Z) : Z := match n with O => 1 | S n => gf_mul 8 a (gf_pow n a) end.
Definition rotl8 (k b : Z) : Z := Z.lor (Z.land (Z.shiftl b k) 255) (Z.shiftr b (8 - k)).
(** The inverse is the 254th power; zero stays zero. *)
Definition sbox_entry (b : Z) : Z :=
  let i := gf_pow 254 b in
  Z.lxor (Z.lxor (Z.lxor (Z.lxor (Z.lxor i (rotl8 1 i)) (rotl8 2 i)) (rotl8 3 i)) (rotl8 4 i)) 0x63.
Definition sbox_table : list Z := Eval vm_compute in sbox_entry <$> seqZ 0 256.
Definition sbox (b : Z) : Z := nth (Z.to_nat b) sbox_table 0.

(** ** Keys *)
Definition byte_at (k w : Z) : Z := Z.land (Z.shiftr w (8 * (3 - k))) 255.
Definition word4 (a b c d : Z) : Z := be_word [a; b; c; d].
Definition sub_word (w : Z) : Z :=
  word4 (sbox (byte_at 0 w)) (sbox (byte_at 1 w)) (sbox (byte_at 2 w)) (sbox (byte_at 3 w)).
Definition rot_word (w : Z) : Z := word4 (byte_at 1 w) (byte_at 2 w) (byte_at 3 w) (byte_at 0 w).

(** The words of the key schedule from the [i]th on; [w] holds the earlier ones,
    newest first. *)
Fixpoint expand (n : nat) (i rcon : Z) (w : list Z) : list Z :=
  match n with
  | O => rev w
  | S n =>
      let t := nth 0 w 0 in
      let '(t, rcon) :=
        if i mod 8 =? 0 then (Z.lxor (sub_word (rot_word t)) (Z.shiftl rcon 24), xtime rcon)
        else if i mod 8 =? 4 then (sub_word t, rcon) else (t, rcon) in
      expand n (i + 1) rcon (Z.lxor (nth 7 w 0) t :: w)
  end.
(** [aes.NewCipher] with a 32-byte key. *)
Definition NewCipher (key : list Z) : list Z := expand 52 8 1 (rev (be_word <$> chunks 8 4 key)).

(** ** The block cipher *)
Record columns : Type := Columns { c0 : Z; c1 : Z; c2 : Z; c3 : Z }.
Definition add_key (ks : list Z) (r : nat) (s : columns) : columns :=
  let k i := nth (4 * r + i) ks 0 in
  Columns (Z.lxor (c0 s) (k 0%nat)) (Z.lxor (c1 s) (k 1%nat)) (Z.lxor (c2 s) (k 2%nat)) (Z.lxor (c3 s) (k 3%nat)).
Definition mix (w : Z) : Z :=
  let a := byte_at 0 w in let b := byte_at 1 w in let c := byte_at 2 w in let d := byte_at 3 w in
  let m x y u v := Z.lxor (Z.lxor (xtime x) (Z.lxor (xtime y) y)) (Z.lxor u v) in
  word4 (m a b c d) (m b c d a) (m c d a b) (m d a b c).
(** SubBytes and ShiftRows. *)
Definition sub_shift (s : columns) : columns :=
  let col a b c d := word4 (sbox (byte_at 0 a)) (sbox (byte_at 1 b)) (sbox (byte_at 2 c)) (sbox (byte_at 3 d)) in
  Columns (col (c0 s) (c1 s) (c2 s) (c3 s)) (col (c1 s) (c2 s) (c3 s) (c0 s))
          (col (c2 s) (c3 s) (c0 s) (c1 s)) (col (c3 s) (c0 s) (c1 s) (c2 s)).
Definition mix_columns (s : columns) : columns := Columns (mix (c0 s)) (mix (c1 s)) (mix (c2 s)) (mix (c3 s)).
Definition aes_round (ks : list Z) (s : columns) (r : nat) : columns := add_key ks r (mix_columns (sub_shift s)).
Definition aes_columns (ks : list Z) (s : columns) : columns :=
  add_key ks 14 (sub_shift (foldl (aes_round ks) (add_key ks 0 s) (seq 1 13))).
Definition columns_of (l : list Z) : columns :=
  match be_word <$> chunks 4 4 l with [a; b; c; d] => Columns a b c d | _ => Columns 0 0 0 0 end.
Definition bytes_of_columns (s : columns) : list Z :=
  be_bytes 4 (c0 s) ++ be_bytes 4 (c1 s) ++ be_bytes 4 (c2 s) ++ be_bytes 4 (c3 s).
Definition aes_block (ks block : list Z) : list Z := bytes_of_columns (aes_columns ks (columns_of block)).

Example aes256_fips :
  aes_block (NewCipher (seqZ 0 32)) (Z.mul 17 <$> seqZ 0 16)
  = [0x8e; 0xa2; 0xb7; 0xca; 0x51; 0x67; 0x45; 0xbf; 0xea; 0xfc; 0x49; 0x90; 0x4b; 0x49; 0x60; 0x89].
Proof. by vm_compute. Qed.

(** ** GHASH *)
Fixpoint gcm_mul (n : nat) (x z v : Z) : Z :=
  match n with
  | O => z
  | S n =>
      gcm_mul n x (if Z.testbit x (Z.of_nat n) then Z.lxor z v else z)
        (if Z.odd v then Z.lxor (Z.div2 v) (Z.shiftl 0xe1 120) else Z.div2 v)
  end.
Definition pad16 (l : list Z) : list Z := l ++ replicate ((16 - length l mod 16) mod 16) 0.
Definition ghash (h : Z) (l : list Z) : Z :=
  foldl (λ y b, gcm_mul 128 (Z.lxor y (be_word b)) 0 h) 0 (chunks (length l) 16 l).

(** ** The AEAD *)
Definition nonceSize : nat := 12.
Definition tagSize : nat := 16.
Definition counter (nonce : list Z) (i : Z) : list Z := nonce ++ be_bytes 4 i.
Fixpoint keystream (ks nonce : list Z) (n : nat) (i : Z) : list Z :=
  match n with
  | O => []
  | S n => aes_block ks (counter nonce i) ++ keystream ks nonce n (i + 1)
  end.
Definition ctr (ks nonce l : list Z) : list Z := zip_with Z.lxor l (keystream ks nonce ((length l + 15) / 16) 2).
Definition gcm_tag (ks nonce aad c : list Z) : list Z :=
  let h := be_word (aes_block ks (replicate 16 0)) in
  let len l := be_bytes 8 (8 * Z.of_nat (length l)) in
  zip_with Z.lxor (be_bytes 16 (ghash h (pad16 aad ++ pad16 c ++ len aad ++ len c))) (aes_block ks (counter nonce 1)).

Definition gcm_seal (ks nonce plaintext aad : list Z) : list Z :=
  let c := ctr ks nonce plaintext in c ++ gcm_tag ks nonce aad c.
Definition gcm_open (ks nonce ciphertext aad : list Z) : option (list Z) :=
  if (length ciphertext <? tagSize)%nat then None
  else
    let n := (length ciphertext - tagSize)%nat in
    let c := take n ciphertext in
    if bool_decide (drop n ciphertext = gcm_tag ks nonce aad c) then Some (ctr ks nonce c) else None.

Example gcm_test_14 :
  hex_encode (gcm_seal (NewCipher (replicate 32 0)) (replicate 12 0) (replicate 16 0) [])
  = "cea7403d4d606b6e074ec5d3baf39d18d0d1c8a799996bf0265b98b5d48ab919".
Proof. by vm_compute. Qed.

(** ** Open reverses Seal, and nothing else opens *)
Lemma length_be_bytes n z : length (be_bytes n z) = n.
Proof. unfold be_bytes. by rewrite length_fmap, length_rev, length_seq. Qed.
Lemma length_aes_block ks b : length (aes_block ks b) = 16%nat.
Proof. unfold aes_block, bytes_of_columns. by rewrite !length_app, !length_be_bytes. Qed.
Lemma length_keystream ks nonce n i : length (keystream ks nonce n i) = (16 * n)%nat.
Proof.
  revert i. induction n as [|n IH]; intros i; [done|]. cbn [keystream]. rewrite length_app, length_aes_block, IH. lia.
Qed.
Lemma length_ctr ks nonce l : length (ctr ks nonce l) = length l.
Proof.
  unfold ctr. rewrite length_zip_with, length_keystream.
  pose proof (Nat.div_mod (length l + 15) 16). pose proof (Nat.mod_upper_bound (length l + 15) 16). lia.
Qed.
Lemma length_gcm_tag ks nonce aad c : length (gcm_tag ks nonce aad c) = tagSize.
Proof. unfold gcm_tag. by rewrite length_zip_with, length_be_bytes, length_aes_block. Qed.

Lemma zip_lxor_twice l k : (length l ≤ length k)%nat → zip_with Z.lxor (zip_with Z.lxor l k) k = l.
Proof.
  revert k. induction l as [|a l IH]; intros [|b k]; cbn; intros H; try done; [lia|].
  rewrite Z.lxor_assoc, Z.lxor_nilpotent, Z.lxor_0_r. f_equal. apply IH. lia.
Qed.
Lemma ctr_ctr ks nonce l : ctr ks nonce (ctr ks nonce l) = l.
Proof.
  pose proof (length_ctr ks nonce l) as E. unfold ctr at 1. rewrite E. unfold ctr. apply zip_lxor_twice.
  rewrite length_keystream. pose proof (Nat.div_mod (length l + 15) 16). pose proof (Nat.mod_upper_bound (length l + 15) 16). lia.
Qed.

Lemma gcm_open_seal ks nonce p aad : gcm_open ks nonce (gcm_seal ks nonce p aad) aad = Some p.
Proof.
  unfold gcm_open, gcm_seal. rewrite length_app, length_gcm_tag.
  destruct (Nat.ltb_spec (length (ctr ks nonce p) + tagSize) tagSize); [lia|].
  replace (length (ctr ks nonce p) + tagSize - tagSize)%nat with (length (ctr ks nonce p)) by lia.
  rewrite take_app_length, drop_app_length, bool_decide_eq_true_2 by done. by rewrite ctr_ctr.
Qed.
Lemma gcm_open_Some ks nonce c p aad : gcm_open ks nonce c aad = Some p → c = gcm_seal ks nonce p aad.
Proof.
  unfold gcm_open, gcm_seal. destruct (Nat.ltb_spec (length c) tagSize); [done|].
  case_bool_decide as Ht; [|done]. intros [= <-]. rewrite ctr_ctr, <- Ht. by rewrite take_drop.
Qed.
