(* ===== verification/Mobile.v ===== *)
(** * Static WireGuard devices

    internal/keyseal/keyseal.go (the private keys at rest) and
    cmd/server/mobile.go: creating a mobile peer behind a gateway agent and
    showing its configuration again.

    wgtypes.ParseKey, Key.PublicKey and Key.String belong to the wgctrl module
    and are parameters, as is strconv.Quote; the keys and nonces the random
    source yields are arguments. *)
From S2P Require Import Prelude GoText TimeText NetAddr NetFacts Codec Sha256 Schema SchemaFacts Alloc Enroll EnrollFacts Visibility Admin Acl ExitNode Invariants Network Dns Users Telemetry StoreMachine HostPort Psk ClientIP Candidates PeerEntries EntryFacts Handlers HandlerFacts NumText AdminApi Session Aes.
From Stdlib Require Import Ascii.

(** ** Sealing *)
Definition deviceKeyInfo : string := "wgmesh-device-key:v1".
(** [Sealer]: the expanded subkey of the AEAD. *)
Definition Sealer : Type := list Z.
Definition keyseal_New (master : list Z) : Sealer := NewCipher (hkdf_key master deviceKeyInfo 32).
Definition Seal (s : Sealer) (nonce : list Z) (binding plaintext : string) : string :=
  StdEncode (nonce ++ gcm_seal s nonce (bytes_of plaintext) (bytes_of binding)).
(** Every failure is [ErrCorrupt]. *)
Definition Open (s : Sealer) (binding sealed : string) : option string :=
  raw ← b64_std_decode sealed;
  if (length raw <? nonceSize)%nat then None
  else string_of_bytes <$> gcm_open s (take nonceSize raw) (drop nonceSize raw) (bytes_of binding).

(** ** Requests and answers *)
Record createMobilePeerRequest : Type := mkMobileReq {
  mq_Name : string; mq_PublicKey : string; mq_PrivateKey : string; mq_GatewayPublicKey : string;
  mq_GatewayEndpoint : string
}.
Record mobilePeerResponse : Type := mkMobileResp {
  mr_Peer : peerJSON; mr_Config : string; mr_PrivateKey : string; mr_PresharedKey : string;
  mr_Warnings : list string
}.

Definition validateMobileEndpoint (endpoint : string) : result unit :=
  let endpoint := TrimSpace endpoint in
  if decide (endpoint = "") then Err (ErrMsg "gateway_endpoint is required")
  else match SplitHostPort endpoint with
  | None => Err (ErrMsg "gateway_endpoint must be host:port, with IPv6 hosts in brackets")
  | Some (host, portRaw) =>
      if decide (TrimSpace host = "") then Err (ErrMsg "gateway_endpoint host is required")
      else match ParseInt portRaw with
           | Some port =>
               if (port <? 1) || (65535 <? port)
               then Err (ErrMsg "gateway_endpoint port must be between 1 and 65535") else Ok tt
           | None => Err (ErrMsg "gateway_endpoint port must be between 1 and 65535")
           end
  end.

(** The ellipsis in UTF-8. *)
Definition ellipsis : string := string_of_bytes [0xe2; 0x80; 0xa6].
Definition gatewayLabel (gateway : PeerInfo) : string :=
  if decide (pi_Hostname gateway ≠ "") then pi_Hostname gateway
  else
    let key := pi_PublicKey gateway in
    let key := if 12 <? str_len key then text (take 12 (chars key)) +:+ ellipsis else key in
    "peer " +:+ Itoa (pi_ID gateway) +:+ " (" +:+ key +:+ ")".

Definition activePeerByPublicKey (publicKey : string) (db : DB) : option PeerInfo :=
  find (λ p, bool_decide (pi_PublicKey p = publicKey) && bool_decide (pi_RevokedAt p = "")) (ListPeers db).

Definition line (s : string) : string := s +:+ String "010" "".
Definition mobileWireGuardConfig (w : World) (peer : PeerInfo) (privateKey gatewayPublicKey pairPSK endpoint : string)
    (dnsCfg : DNSConfig) : string :=
  let addresses := (pi_AssignedIP peer +:+ "/32")
                   :: (if decide (pi_AssignedIP6 peer = "") then [] else [pi_AssignedIP6 peer +:+ "/128"]) in
  let net := currentNetworkConfig w in
  let allowed := nc_NetworkCIDR net
                 :: (if decide (nc_NetworkCIDR6 net = "") then [] else [nc_NetworkCIDR6 net]) in
  line "[Interface]"
  +:+ line ("PrivateKey = " +:+ privateKey)
  +:+ line ("Address = " +:+ Join addresses ", ")
  +:+ (if dc_Enabled dnsCfg && bool_decide (dc_Nameservers dnsCfg ≠ [])
       then line ("DNS = " +:+ Join (dc_Nameservers dnsCfg) ", ") else "")
  +:+ line ""
  +:+ line "[Peer]"
  +:+ line ("PublicKey = " +:+ gatewayPublicKey)
  +:+ line ("PresharedKey = " +:+ pairPSK)
  +:+ line ("Endpoint = " +:+ TrimSpace endpoint)
  +:+ line ("AllowedIPs = " +:+ Join allowed ", ")
  +:+ line ("PersistentKeepalive = " +:+ Itoa (keepaliveOrDefault (w_server w))).

Definition relay_warning : string :=
  "Mobile/static WireGuard peers cannot use wgmesh WebSocket relay or live signal sync; the selected gateway endpoint must be reachable over UDP.".
Definition deny_warning : string :=
  "Your ACL default policy is deny; add an ACL rule that allows this mobile peer to the gateway/services it should reach.".
Definition own_key_warning : string :=
  "You supplied the private key, so the control plane did not store it; this config cannot be shown again.".

Section mobile.
Context (Quote : string → string).
Context (ParseKey : string → option (list Z)) (PublicKey : list Z → list Z) (KeyString : list Z → string).

Definition staticPeerWarnings (c : Config) (peer gateway : PeerInfo) : list string :=
  [relay_warning;
   "Traffic is routed (not NAT'd) through gateway peer " +:+ Quote (gatewayLabel gateway)
   +:+ ", so this mobile keeps its overlay source IP " +:+ pi_AssignedIP peer
   +:+ " end-to-end. That agent must run on Linux with IP forwarding permitted (it is enabled automatically)."]
  ++ (if DefaultAllow c then [] else [deny_warning]).

(** The private key, the text of its public key and whether it was generated
    here; [fresh] is what [GeneratePrivateKey] returns. *)
Definition parseMobileKeys (fresh : list Z) (rawPrivate rawPublic : string)
  : (Z * string) + (list Z * string * bool) :=
  let rawPrivate := TrimSpace rawPrivate in
  let rawPublic := TrimSpace rawPublic in
  if decide (rawPrivate = "" ∧ rawPublic = "") then inr (fresh, KeyString (PublicKey fresh), true)
  else if decide (rawPrivate = "") then
    match ParseKey rawPublic with
    | None => inl (400, "public_key must be a WireGuard public key")
    | Some _ =>
        inl (400, "private_key is required when public_key is supplied so an importable mobile config can be returned")
    end
  else match ParseKey rawPrivate with
  | None => inl (400, "private_key must be a WireGuard private key")
  | Some key =>
      let derived := KeyString (PublicKey key) in
      if decide (rawPublic ≠ "" ∧ rawPublic ≠ derived) then inl (400, "public_key does not match private_key")
      else inr (key, derived, false)
  end.

(** The server's sealer is derived from its master secret at start-up. *)
Definition deviceKeys (w : World) : Sealer := keyseal_New (sv_pskMaster (w_server w)).

(** [fresh], [nonce], [rawKey] and [rawToken] are reads from the random source. *)
Definition handleCreateMobilePeer (now later : Z) (fresh nonce rawKey rawToken : list Z) (r : Request)
    (b : body createMobilePeerRequest) (a : Api) : reply mobilePeerResponse * Api :=
  match DecodeJSON (64 * 1024) b with
  | inl (code, msg) => (Status code msg, a)
  | inr req =>
      match parseMobileKeys fresh (mq_PrivateKey req) (mq_PublicKey req) with
      | inl (code, msg) => (Status code msg, a)
      | inr (privateKey, publicKey, generated) =>
          let gatewayPublicKey := TrimSpace (mq_GatewayPublicKey req) in
          match ParseKey gatewayPublicKey with
          | None => (Status 400 "gateway_public_key must be a WireGuard public key", a)
          | Some _ =>
              match validateMobileEndpoint (mq_GatewayEndpoint req) with
              | Err e => (Status 400 (error_text e), a)
              | Ok _ =>
                  match activePeerByPublicKey gatewayPublicKey (a_db a) with
                  | None => (Status 400 "gateway_public_key must match an active peer", a)
                  | Some gateway =>
                      if decide (pi_PeerType gateway ≠ "agent")
                      then (Status 400 "gateway_public_key must be a wgmesh agent, not a static/mobile peer", a)
                      else
                        let sealedKey := if generated : bool
                                         then Seal (deviceKeys (ap_world a)) nonce publicKey (KeyString privateKey)
                                         else "" in
                        match a_run (CreateStaticPeer (a_cfg a) now rawKey rawToken
                                       (mkStatic publicKey (mq_Name req) (pi_ID gateway) sealedKey
                                          (TrimSpace (mq_GatewayEndpoint req)))) a with
                        | (Err (ErrPeerExists d), a) => (Status 409 (error_text (ErrPeerExists d)), a)
                        | (Err e, a) => (Status 400 (error_text e), a)
                        | (Ok peer, a) =>
                            let pairKey := DerivePairKey (sv_pskMaster (w_server (ap_world a))) publicKey
                                             (pi_PublicKey gateway) in
                            match CurrentDNSConfig (a_db a) with
                            | Err _ => (Status 500 "internal error", a)
                            | Ok dnsCfg =>
                                let cfg := mobileWireGuardConfig (ap_world a) peer (KeyString privateKey)
                                             (pi_PublicKey gateway) (KeyString pairKey) (mq_GatewayEndpoint req) dnsCfg in
                                let warnings := staticPeerWarnings (a_cfg a) peer gateway
                                                ++ (if generated then [] else [own_key_warning]) in
                                let a := admin_audit later r "mobile_peer_create"
                                           ("peer id=" +:+ Itoa (pi_ID peer) +:+ " gateway_peer=" +:+ Itoa (pi_ID gateway)
                                            +:+ " endpoint=" +:+ mq_GatewayEndpoint req +:+ " stored_key="
                                            +:+ fmt_bool generated) a in
                                (Good (mkMobileResp (peerInfoJSON later peer) cfg (KeyString privateKey)
                                         (KeyString pairKey) warnings),
                                 signalSync "mobile_peer_create" a)
                            end
                        end
                  end
              end
          end
      end
  end.

Definition handleStaticPeerConfig (later : Z) (r : Request) (rawID : string) (a : Api)
  : reply mobilePeerResponse * Api :=
  match ParseInt rawID with
  | None => (Status 400 "invalid id", a)
  | Some id =>
      match getPeerInfo id (a_db a) with
      | Err (ErrNotFound _) => (Status 404 "peer not found", a)
      | Err _ => (Status 500 "internal error", a)
      | Ok peer =>
          if decide (pi_PeerType peer ≠ "static")
          then (Status 400 "peer is a wgmesh agent, not a static WireGuard device", a)
          else if decide (pi_RevokedAt peer ≠ "") then (Status 409 "peer is revoked; its config would not connect", a)
          else if pi_GatewayPeerID peer =? 0
          then (Status 409 "peer has no gateway; its gateway agent was removed", a)
          else match SealedPrivateKey id (a_db a) with
          | Err (ErrNoStoredConfig _) =>
              (Status 409 "no stored key for this peer: it predates config storage, or its private key was supplied by the operator", a)
          | Err _ => (Status 500 "internal error", a)
          | Ok sealed =>
              match Open (deviceKeys (ap_world a)) (pi_PublicKey peer) sealed with
              | None =>
                  (Status 409 "stored key cannot be decrypted; the network preshared key file may have changed since this peer was created", a)
              | Some privateKey =>
                  match getPeerInfo (pi_GatewayPeerID peer) (a_db a) with
                  | Err _ => (Status 500 "internal error", a)
                  | Ok gateway =>
                      let pairKey := DerivePairKey (sv_pskMaster (w_server (ap_world a))) (pi_PublicKey peer)
                                       (pi_PublicKey gateway) in
                      match CurrentDNSConfig (a_db a) with
                      | Err _ => (Status 500 "internal error", a)
                      | Ok dnsCfg =>
                          let cfg := mobileWireGuardConfig (ap_world a) peer privateKey (pi_PublicKey gateway)
                                       (KeyString pairKey) (pi_GatewayEndpoint peer) dnsCfg in
                          (Good (mkMobileResp (peerInfoJSON later peer) cfg "" (KeyString pairKey)
                                   (staticPeerWarnings (a_cfg a) peer gateway)),
                           admin_audit later r "mobile_peer_config_view"
                             ("peer id=" +:+ Itoa (pi_ID peer) +:+ " gateway_peer=" +:+ Itoa (pi_ID gateway)) a)
                      end
                  end
              end
          end
      end
  end.
End mobile.

(** * Facts about static WireGuard devices

    Sealed keys open to what was sealed and nothing else opens; the
    configuration of a device is shown again exactly as it was created, and
    agrees with what its gateway agent is sent. *)
(** ** Bytes *)
Lemma lxor_is_byte a b : is_byte a = true → is_byte b = true → is_byte (Z.lxor a b) = true.
Proof.
  unfold is_byte. rewrite !andb_true_iff, !Z.leb_le, !Z.ltb_lt. intros [Ha Ha'] [Hb Hb'].
  assert (0 ≤ Z.lxor a b) as Hn by (by apply Z.lxor_nonneg).
  split; [done|]. destruct (decide (Z.lxor a b = 0)) as [->|]; [lia|].
  assert (∀ x, 0 ≤ x < 256 → Z.log2 x < 8) as H8.
  { intros x Hx. destruct (decide (x = 0)) as [->|]; [done|]. apply (Z.log2_lt_pow2 x 8); lia. }
  apply (Z.log2_lt_pow2 _ 8); [lia|]. eapply Z.le_lt_trans; [by apply Z.log2_lxor|].
  apply Z.max_lub_lt; apply H8; lia.
Qed.
Lemma zip_lxor_is_byte l k :
  forallb is_byte l = true → forallb is_byte k = true → forallb is_byte (zip_with Z.lxor l k) = true.
Proof.
  revert k. induction l as [|a l IH]; intros [|b k]; cbn; try done. rewrite !andb_true_iff.
  intros [? ?] [? ?]. split; [by apply lxor_is_byte|by apply IH].
Qed.
Lemma aes_block_is_byte ks b : forallb is_byte (aes_block ks b) = true.
Proof. unfold aes_block, bytes_of_columns. by rewrite !forallb_app, !be_bytes_is_byte. Qed.
Lemma keystream_is_byte ks nonce n i : forallb is_byte (keystream ks nonce n i) = true.
Proof. revert i. induction n as [|n IH]; intros i; [done|]. cbn [keystream]. by rewrite forallb_app, aes_block_is_byte, IH. Qed.
Lemma gcm_seal_is_byte ks nonce p aad :
  forallb is_byte p = true → forallb is_byte (gcm_seal ks nonce p aad) = true.
Proof.
  intros Hp. unfold gcm_seal. rewrite forallb_app, andb_true_iff. split.
  - apply zip_lxor_is_byte; [done|apply keystream_is_byte].
  - apply zip_lxor_is_byte; [apply be_bytes_is_byte|apply aes_block_is_byte].
Qed.

(** ** Sealing *)
Lemma Open_Seal s nonce binding p :
  length nonce = nonceSize → forallb is_byte nonce = true → Open s binding (Seal s nonce binding p) = Some p.
Proof.
  intros Hl Hb. unfold Open, Seal.
  rewrite b64_std_decode_encode by (by rewrite forallb_app, Hb, gcm_seal_is_byte by apply bytes_of_is_byte).
  rewrite bind_Some, length_app, Hl.
  destruct (Nat.ltb_spec (nonceSize + length (gcm_seal s nonce (bytes_of p) (bytes_of binding))) nonceSize); [lia|].
  rewrite take_app_length', drop_app_length' by done. rewrite gcm_open_seal. cbn. by rewrite string_of_bytes_of.
Qed.
Lemma Seal_nonempty s nonce binding p : (0 < length nonce)%nat → Seal s nonce binding p ≠ "".
Proof.
  intros Hn. unfold Seal, StdEncode. destruct nonce as [|x [|y [|z l]]]; cbn [length] in Hn; [lia|..]; cbn [app].
  1, 2: destruct (gcm_seal _ _ _ _) as [|? [|? ?]]; done.
  done.
Qed.
(** A value that opens is the seal of what it opens to under the same binding. *)
Lemma Open_Some s binding sealed p :
  Open s binding sealed = Some p →
  ∃ nonce plain, length nonce = nonceSize ∧ p = string_of_bytes plain
    ∧ b64_std_decode sealed = Some (nonce ++ gcm_seal s nonce plain (bytes_of binding)).
Proof.
  unfold Open. destruct (b64_std_decode sealed) as [raw|] eqn:Er; [|done]. rewrite bind_Some.
  destruct (Nat.ltb_spec (length raw) nonceSize) as [|Hn]; [done|]. intros (plain & Ho & ->)%fmap_Some.
  apply gcm_open_Some in Ho. exists (take nonceSize raw), plain.
  split; [rewrite length_take; lia|]. split; [done|]. by rewrite <- Ho, take_drop.
Qed.

(** ** The row of a new device *)
Lemma CreateStaticPeer_row c now rk rt spec db r db' :
  db_ok db → CreateStaticPeer c now rk rt spec db = Ok (r, db') →
  ∃ g ip ip6 kid hash,
    let p := static_peer_row (TrimSpace (sp_PublicKey spec)) ip ip6 (sp_GatewayPeerID spec) spec
               (TrimSpace (sp_Hostname spec)) kid hash (fmt_time now) (next_id p_id (peers db)) in
    db_ok db' ∧ peers db' = peers db ++ [p] ∧ settings db' = settings db ∧ audit_log db' = audit_log db
    ∧ peer_by_id (sp_GatewayPeerID spec) db = Some g ∧ p_revoked_at g = None ∧ agent g
    ∧ 0 < sp_GatewayPeerID spec ∧ getPeerInfo (next_id p_id (peers db)) db' = Ok r.
Proof.
  intros Hd. unfold CreateStaticPeer. case_decide; [done|]. destruct (Z.leb_spec (sp_GatewayPeerID spec) 0); [done|].
  intros HC. apply tx_bind_Ok in HC as (o & s0 & [= <- <-] & HC).
  destruct (peer_by_id _ db) as [g|] eqn:Eg; [|done]. case_bool_decide as Rg; [done|].
  destruct (bool_decide (p_peer_type g = "agent")) eqn:Tg; [|done].
  apply bool_decide_eq_true in Tg. cbn [negb] in HC.
  apply tx_bind_Ok in HC as (o & s0 & [= <- <-] & HC).
  destruct (select1 _ (peers db)) as [q|]; [done|].
  apply tx_bind_Ok in HC as (ki & s1 & H1 & HC).
  assert (db_ok s1) as Hd1 by (by eapply (db_ok_insert_key db); [..|exact H1]).
  apply insert_key_Ok in H1 as (-> & -> & _).
  apply tx_bind_Ok in HC as ([ip ip6] & s2 & H2 & HC).
  pose proof H2 as (_ & -> & _)%allocate_overlay_Ok.
  unfold newAuthToken in HC. apply tx_bind_Ok in HC as (pid & s3 & H3 & [Hr ->]%tx_query_Ok).
  assert (db_ok s3) as Hd3 by (by eapply db_ok_insert_peer; [exact Hd1|..|exact H3]).
  apply insert_peer_Ok in H3 as (-> & -> & _).
  exists g, ip, ip6. eexists _, _. cbn. split_and!; done.
Qed.

Lemma coalesce_nullable s : coalesce (nullable s) "" = s.
Proof. unfold coalesce, nullable. by case_decide. Qed.

(** ** Creating a device and showing its configuration again *)
Section devices.
Context (Quote : string → string).
Context (ParseKey : string → option (list Z)) (PublicKey : list Z → list Z) (KeyString : list Z → string).
(** [Key.String] is base64 text. *)
Context (KeyString_plain : ∀ k, str_forall plain (KeyString k) = true).

(** What a created device leaves behind. *)
Lemma peerInfoJSON_Info now p : pj_Info (peerInfoJSON now p) = p.
Proof using. unfold peerInfoJSON. by destruct (peerHealth _ _ _ _). Qed.
Lemma parseMobileKeys_public fresh private public key pk generated :
  parseMobileKeys ParseKey PublicKey KeyString fresh private public = inr (key, pk, generated) →
  pk = KeyString (PublicKey key) ∧ TrimSpace pk = pk.
Proof using KeyString_plain.
  intros H. assert (pk = KeyString (PublicKey key)) as ->.
  { unfold parseMobileKeys in H. clear Quote; repeat case_match; by simplify_eq. }
  split; [done|]. apply TrimSpace_plain, KeyString_plain.
Qed.
Lemma activePeerByPublicKey_row pk db gi :
  activePeerByPublicKey pk db = Some gi →
  ∃ g, g ∈ peers db ∧ gi = peer_info g ∧ p_public_key g = pk.
Proof using.
  unfold activePeerByPublicKey, ListPeers. intros [Hin Hp]%find_some.
  apply list_elem_of_In, list_elem_of_fmap in Hin as (g & -> & Hg). exists g. split_and!; [done..|].
  apply andb_prop in Hp as [Hp%bool_decide_eq_true _]. exact Hp.
Qed.
Lemma handleCreateMobilePeer_Good now later fresh nonce rk rt r b a resp a' :
  db_ok (a_db a) →
  handleCreateMobilePeer Quote ParseKey PublicKey KeyString now later fresh nonce rk rt r b a = (Good resp, a') →
  ∃ req key generated p g dns,
    b = Decoded req
    ∧ parseMobileKeys ParseKey PublicKey KeyString fresh (mq_PrivateKey req) (mq_PublicKey req)
      = inr (key, p_public_key p, generated)
    ∧ db_ok (a_db a') ∧ peers (a_db a') = peers (a_db a) ++ [p] ∧ w_server (ap_world a') = w_server (ap_world a)
    ∧ a_cfg a' = a_cfg a
    ∧ g ∈ peers (a_db a) ∧ p_revoked_at g = None ∧ agent g
    ∧ p_peer_type p = "static" ∧ p_revoked_at p = None ∧ p_gateway_peer_id p = Some (p_id g) ∧ 0 < p_id g
    ∧ p_gateway_endpoint p = nullable (TrimSpace (mq_GatewayEndpoint req))
    ∧ p_private_key_enc p = nullable (if generated : bool
        then Seal (deviceKeys (ap_world a)) nonce (p_public_key p) (KeyString key) else "")
    ∧ CurrentDNSConfig (a_db a') = Ok dns
    ∧ getPeerInfo (p_id p) (a_db a') = Ok (pj_Info (mr_Peer resp))
    ∧ mr_PresharedKey resp
      = KeyString (DerivePairKey (sv_pskMaster (w_server (ap_world a))) (p_public_key p) (p_public_key g))
    ∧ mr_Config resp = mobileWireGuardConfig (ap_world a) (pj_Info (mr_Peer resp)) (KeyString key) (p_public_key g)
        (mr_PresharedKey resp) (mq_GatewayEndpoint req) dns.
Proof using KeyString_plain.
  intros Hdb. unfold handleCreateMobilePeer. destruct b as [| |req]; try done. cbn [DecodeJSON].
  destruct (parseMobileKeys _ _ _ _ _ _) as [[code msg]|[[key pk] generated]] eqn:Ek; [done|].
  pose proof (parseMobileKeys_public _ _ _ _ _ _ Ek) as [_ Htrim].
  destruct (ParseKey _); [|done]. destruct (validateMobileEndpoint _); [|done].
  destruct (activePeerByPublicKey _ _) as [gi|] eqn:Eg; [|done].
  apply activePeerByPublicKey_row in Eg as (g & Hg & -> & _). case_decide; [done|].
  unfold a_run. destruct (run_tx _ (a_db a)) as [[info|e] db] eqn:Er; [|by destruct e].
  apply run_tx_Ok in Er.
  destruct (CreateStaticPeer_row _ _ _ _ _ _ _ _ Hdb Er)
    as (g' & ip & ip6 & kid & hash & Hdb' & Hpeers & _ & _ & Eg' & Rg & Ag & Hpos & Hinfo).
  cbn [sp_PublicKey sp_GatewayPeerID sp_Hostname peer_info pi_ID] in *.
  rewrite (peer_by_id_eq _ g Hdb Hg) in Eg'. injection Eg' as <-.
  set (p := static_peer_row _ _ _ _ _ _ _ _ _ _) in Hpeers.
  destruct (CurrentDNSConfig _) as [dns|] eqn:Ed; [|done]. intros [= <- <-].
  assert (p_public_key p = pk) as Epk by exact Htrim.
  rewrite <- Epk. cbn [mr_PresharedKey mr_Config mr_Peer]. rewrite !peerInfoJSON_Info.
  exists req, key, generated, p, g, dns. split_and!; try done; [by rewrite Epk| |by rewrite Epk].
  by apply (calm_ok _ _ (calm_audit later r None _ _ _ (ap_world (on_world (with_db db) a)) Hdb')).
Qed.

(** Looking at a later state in which the device and its gateway are unchanged. *)
Lemma handleStaticPeerConfig_shown later r a p g key dns nonce :
  db_ok (a_db a) → p ∈ peers (a_db a) → g ∈ peers (a_db a) → in_int64 (p_id p) = true →
  p_peer_type p = "static" → p_revoked_at p = None → p_gateway_peer_id p = Some (p_id g) →
  length nonce = nonceSize → forallb is_byte nonce = true →
  p_private_key_enc p = Some (Seal (deviceKeys (ap_world a)) nonce (p_public_key p) key) →
  CurrentDNSConfig (a_db a) = Ok dns →
  ∃ resp a', handleStaticPeerConfig Quote KeyString later r (Itoa (p_id p)) a = (Good resp, a')
    ∧ getPeerInfo (p_id p) (a_db a) = Ok (pj_Info (mr_Peer resp))
    ∧ mr_PresharedKey resp
      = KeyString (DerivePairKey (sv_pskMaster (w_server (ap_world a))) (p_public_key p) (p_public_key g))
    ∧ mr_Config resp = mobileWireGuardConfig (ap_world a) (pj_Info (mr_Peer resp)) key (p_public_key g)
        (mr_PresharedKey resp) (coalesce (p_gateway_endpoint p) "") dns
    ∧ audited (ap_world a) (ap_world a') "mobile_peer_config_view" 200
        ("peer id=" +:+ Itoa (p_id p) +:+ " gateway_peer=" +:+ Itoa (p_id g)).
Proof using.
  clear ParseKey PublicKey KeyString_plain. intros Hdb Hp Hg Hid Ht Hr Hgw Hl Hb Hk Hd. unfold handleStaticPeerConfig.
  rewrite ParseInt_Itoa by done. unfold getPeerInfo at 1. rewrite (peer_by_id_eq _ p Hdb Hp).
  cbn [pi_PeerType pi_RevokedAt pi_GatewayPeerID pi_PublicKey pi_GatewayEndpoint]. rewrite Hr, Hgw.
  rewrite decide_False by (intros F; by apply F). rewrite decide_False by (intros F; by apply F).
  change (default 0 (Some (p_id g))) with (p_id g). pose proof (peer_id_pos _ _ Hdb Hg). destruct (Z.eqb_spec (p_id g) 0); [lia|].
  assert (SealedPrivateKey (p_id p) (a_db a)
    = Ok (Seal (deviceKeys (ap_world a)) nonce (p_public_key p) key)) as ->.
  { unfold SealedPrivateKey. rewrite (select1_unique _ (peers (a_db a)) p Hp).
    - rewrite Hk, decide_False; [done|]. apply Seal_nonempty. rewrite Hl. unfold nonceSize. lia.
    - by rewrite Z.eqb_refl, bool_decide_eq_true_2.
    - intros y Hy [E _]%andb_prop. apply (ids_ok_inj p_id (peers (a_db a))); [apply Hdb|done..|lia]. }
  rewrite Open_Seal by done. unfold getPeerInfo at 1. rewrite (peer_by_id_eq _ g Hdb Hg), Hd.
  eexists _, _. split; [reflexivity|]. cbn [mr_PresharedKey mr_Config mr_Peer]. rewrite !peerInfoJSON_Info.
  split; [|split; [done|split; [done|]]].
  - unfold getPeerInfo. rewrite (peer_by_id_eq _ p Hdb Hp). by rewrite Hr, Hgw.
  - apply audit_anonymous.
Qed.

(** C32: the configuration of a device whose key the server generated can be
    shown again: in any later state in which the rows of the device and of its
    gateway, the DNS settings and the server's own settings are the same, asking
    for it answers with exactly the configuration text and preshared key of the
    creation, and leaves one audit entry. *)
Theorem mobile_config_shown_again now later fresh nonce rk rt r req a resp a' id g later2 r2 a2 :
  db_ok (a_db a) → length nonce = nonceSize → forallb is_byte nonce = true →
  TrimSpace (mq_PrivateKey req) = "" →
  handleCreateMobilePeer Quote ParseKey PublicKey KeyString now later fresh nonce rk rt r (Decoded req) a
    = (Good resp, a') →
  id = pi_ID (pj_Info (mr_Peer resp)) → g = pi_GatewayPeerID (pj_Info (mr_Peer resp)) → in_int64 id = true →
  db_ok (a_db a2) → peer_by_id id (a_db a2) = peer_by_id id (a_db a') →
  peer_by_id g (a_db a2) = peer_by_id g (a_db a') →
  CurrentDNSConfig (a_db a2) = CurrentDNSConfig (a_db a') → w_server (ap_world a2) = w_server (ap_world a') →
  ∃ resp2 a3, handleStaticPeerConfig Quote KeyString later2 r2 (Itoa id) a2 = (Good resp2, a3)
    ∧ mr_Config resp2 = mr_Config resp ∧ mr_PresharedKey resp2 = mr_PresharedKey resp
    ∧ pj_Info (mr_Peer resp2) = pj_Info (mr_Peer resp)
    ∧ audited (ap_world a2) (ap_world a3) "mobile_peer_config_view" 200
        ("peer id=" +:+ Itoa id +:+ " gateway_peer=" +:+ Itoa g).
Proof using KeyString_plain.
  intros Hdb Hl Hb Hgen Hc Eid Eg H64 Hdb2 Sid Sg Sdns Ssrv.
  apply handleCreateMobilePeer_Good in Hc as (req' & key & generated & p & gw & dns & [= <-] & Hkeys & Hdb' & Hpeers
    & Hsrv & _ & Hgw & Rgw & Agw & Tp & Rp & Gp & Hpos & Ep & Kp & Hdns & Hinfo & Hpsk & Hcfg); [|done].
  assert (generated = true) as ->.
  { unfold parseMobileKeys in Hkeys. rewrite Hgen in Hkeys. repeat case_match; naive_solver. }
  assert (p ∈ peers (a_db a')) as Hp by (rewrite Hpeers; apply elem_of_app; right; by left).
  assert (gw ∈ peers (a_db a')) as Hgw' by (rewrite Hpeers; apply elem_of_app; by left).
  pose proof Hinfo as Hinfo'. unfold getPeerInfo in Hinfo'. rewrite (peer_by_id_eq _ p Hdb' Hp), Gp in Hinfo'.
  injection Hinfo' as Hinfo'. rewrite <- Hinfo' in Eid, Eg. cbn [pi_ID pi_GatewayPeerID] in Eid, Eg.
  change (g = p_id gw) in Eg. subst id g.
  rewrite (peer_by_id_eq _ p Hdb' Hp) in Sid. rewrite (peer_by_id_eq _ gw Hdb' Hgw') in Sg.
  apply peer_by_id_Some in Sid as [Hp2 _]. apply peer_by_id_Some in Sg as [Hgw2 _].
  assert (deviceKeys (ap_world a2) = deviceKeys (ap_world a)) as Hdk by (unfold deviceKeys; congruence).
  destruct (handleStaticPeerConfig_shown later2 r2 a2 p gw (KeyString key) dns nonce)
    as (resp2 & a3 & H1 & H2 & H3 & H4 & H5); [done..| | |].
  - rewrite Kp, Hdk. unfold nullable. rewrite decide_False; [done|]. apply Seal_nonempty. rewrite Hl. unfold nonceSize. lia.
  - congruence.
  - assert (pj_Info (mr_Peer resp2) = pj_Info (mr_Peer resp)) as Hsame.
    { unfold getPeerInfo in H2. rewrite (peer_by_id_eq _ p Hdb2 Hp2), Gp in H2.
      injection H2 as H2. rewrite <- H2. exact Hinfo'. }
    assert (mr_PresharedKey resp2 = mr_PresharedKey resp) as Hpsk2 by (rewrite H3, Hpsk, Ssrv, Hsrv; reflexivity).
    exists resp2, a3. split; [exact H1|]. split; [|split; [exact Hpsk2|split; [exact Hsame|exact H5]]].
    rewrite H4, Hcfg, Hsame, Hpsk2, Ep.
    unfold mobileWireGuardConfig, currentNetworkConfig. rewrite Ssrv, Hsrv, coalesce_nullable, TrimSpace_idem. reflexivity.
Qed.

(** The device and its gateway agent agree from the moment of the creation:
    the peer list the gateway is sent next has an entry for the device's public
    key with the preshared key of the device's configuration, routes exactly the
    addresses of that configuration to it, and the gateway is told to forward
    those addresses; the device is sent the public key of that agent. *)
Theorem mobile_gateway_agrees now later fresh nonce rk rt r b a resp a' :
  db_ok (a_db a) →
  handleCreateMobilePeer Quote ParseKey PublicKey KeyString now later fresh nonce rk rt r b a = (Good resp, a') →
  let info := pj_Info (mr_Peer resp) in
  let addresses := (pi_AssignedIP info +:+ "/32")
                   :: (if decide (pi_AssignedIP6 info = "") then [] else [pi_AssignedIP6 info +:+ "/128"]) in
  ∃ self others, PeersForID (a_cfg a') (pi_GatewayPeerID info) (a_db a') = Ok (self, others)
    ∧ (∃ e, e ∈ buildPeerEntries KeyString (w_server (ap_world a')) self others
         ∧ pcr_PublicKey e = pi_PublicKey info ∧ pcr_PresharedKey e = Some (mr_PresharedKey resp)
         ∧ pcr_AllowedIPs e = addresses)
    ∧ addresses ⊆ gatewayRoutesFor self others
    ∧ ∃ key endpoint dns, mr_Config resp = mobileWireGuardConfig (ap_world a) info key (pr_PublicKey self)
        (mr_PresharedKey resp) endpoint dns.
Proof using KeyString_plain.
  intros Hdb Hc info addresses.
  apply handleCreateMobilePeer_Good in Hc as (req & key & generated & p & g & dns & _ & _ & Hdb' & Hpeers
    & Hsrv & _ & Hg & Rg & Ag & Tp & Rp & Gp & Hpos & _ & _ & _ & Hinfo & Hpsk & Hcfg); [|done].
  assert (p ∈ peers (a_db a')) as Hp by (rewrite Hpeers; apply elem_of_app; right; by left).
  assert (g ∈ peers (a_db a')) as Hg' by (rewrite Hpeers; apply elem_of_app; by left).
  unfold getPeerInfo in Hinfo. rewrite (peer_by_id_eq _ p Hdb' Hp), Gp in Hinfo. injection Hinfo as Hinfo.
  fold info in Hinfo. assert (addresses = allowedIPsForPeer (peer_row p)) as Ea by (unfold addresses; by rewrite <- Hinfo).
  assert (pi_GatewayPeerID info = p_id g) as Egw by (by rewrite <- Hinfo).
  assert (pi_PublicKey info = p_public_key p) as Epk by (by rewrite <- Hinfo).
  assert (p_id p ≠ p_id g) as Hne.
  { intros E. assert (p = g) as -> by (apply (ids_ok_inj p_id (peers (a_db a'))); [apply Hdb'|done..]).
    unfold agent in Ag. congruence. }
  assert (visible (p_id g) (DefaultAllow (a_cfg a')) (a_db a') p = true) as Hv.
  { apply visible_may_see; [done..|]. split; [done|]. split; [done|]. right. by left. }
  assert (peer_row p ∈ listVisible (p_id g) (DefaultAllow (a_cfg a')) (a_db a')) as Hin by (apply listVisible_elem; by exists p).
  assert (is_static (peer_row p) = true) as Hst by (by apply bool_decide_eq_true).
  exists (self_row g), (listVisible (p_id g) (DefaultAllow (a_cfg a')) (a_db a')).
  split; [unfold PeersForID; by rewrite Egw, (peer_by_id_eq _ g Hdb' Hg')|]. split; [|split].
  - eexists. split; [apply elem_of_entries; exists (peer_row p); split_and!; [done| |reflexivity]|].
    + unfold skipped. rewrite andb_false_iff. right. cbn. rewrite Gp. change (default 0 (Some (p_id g))) with (p_id g). lia.
    + unfold peer_entry. rewrite Hst. cbn [pcr_PublicKey pcr_PresharedKey pcr_AllowedIPs].
      split; [by rewrite Epk|]. split; [|by rewrite Ea]. rewrite Hpsk, Hsrv, DerivePairKey_comm. done.
  - rewrite Ea. intros x Hx. unfold gatewayRoutesFor. apply list_elem_of_bind. exists (peer_row p). split; [done|].
    apply list_elem_of_filter. split; [|done]. rewrite Hst. cbn. rewrite Gp.
    change (default 0 (Some (p_id g))) with (p_id g). by rewrite Z.eqb_refl.
  - exists (KeyString key), (mq_GatewayEndpoint req), dns. exact Hcfg.
Qed.
End devices.

(** ** Witnesses *)

(** Stand-ins for the key functions: keys are printed as numbers, and every text
    is a key. *)
Definition ex_key_string (k : list Z) : string := Itoa (Z.abs (be_word k)).
Definition ex_parse_key (s : string) : option (list Z) := Some (bytes_of s).
Lemma ex_key_string_plain k : str_forall plain (ex_key_string k) = true.
Proof.
  eapply str_forall_impl; [|apply Itoa_digits; lia]. intros c. unfold is_digit, digit, plain.
  intros H%bool_decide_eq_true. destruct ((48 <=? byte_of c) && (byte_of c <=? 57)) eqn:E; [lia|by destruct H].
Qed.
Definition ex_mobile_store : Store := foldl (λ s o, exec pad_key o s) (fresh_store sample_cfg) (take 3 sample_ops).
Definition ex_mobile_api : Api := mkApi (mkWorld ex_server ex_mobile_store []) [].
Lemma ex_mobile_ok : db_ok (a_db ex_mobile_api).
Proof. apply db_okb_ok. vm_compute. reflexivity. Qed.
Definition ex_mobile_req : createMobilePeerRequest := mkMobileReq "phone" "" "" " pubA " "gw.example:51820".
Definition ex_mobile : reply mobilePeerResponse * Api :=
  handleCreateMobilePeer id ex_parse_key id ex_key_string 0 0 [4; 2] (replicate 12 5) [1] [2] ex_post
    (Decoded ex_mobile_req) ex_mobile_api.
Definition good_and {A B} (p : A → B → bool) (x : reply A * B) : bool :=
  match x with (Good y, b) => p y b | _ => false end.
Lemma good_and_pair {A B} (p : A → B → bool) x : good_and p x = true → ∃ y b, x = (Good y, b) ∧ p y b = true.
Proof. destruct x as [[|y] b]; [done|]. intros H. by exists y, b. Qed.
Lemma ex_mobile_good :
  good_and (λ resp a', in_int64 (pi_ID (pj_Info (mr_Peer resp))) && db_okb (a_db a')) ex_mobile = true.
Proof. vm_compute. reflexivity. Qed.

Lemma mobile_config_shown_again_witness :
  ∃ resp a' resp2 a3, ex_mobile = (Good resp, a')
    ∧ handleStaticPeerConfig id ex_key_string 9 ex_post (Itoa (pi_ID (pj_Info (mr_Peer resp)))) a' = (Good resp2, a3)
    ∧ mr_Config resp2 = mr_Config resp.
Proof.
  destruct (good_and_pair _ _ ex_mobile_good) as (resp & a' & E & [H64 Hok]%andb_prop).
  destruct (mobile_config_shown_again id ex_parse_key id ex_key_string ex_key_string_plain 0 0 [4; 2] (replicate 12 5)
    [1] [2] ex_post ex_mobile_req ex_mobile_api resp a' _ _ 9 ex_post a' ex_mobile_ok eq_refl eq_refl eq_refl E eq_refl eq_refl
    H64 (db_okb_ok _ Hok) eq_refl eq_refl eq_refl eq_refl) as (resp2 & a3 & H1 & H2 & _).
  exists resp, a', resp2, a3. split; [exact E|]. split; [exact H1|exact H2].
Defined.

Lemma mobile_gateway_agrees_witness :
  ∃ resp a', ex_mobile = (Good resp, a')
    ∧ is_ok (PeersForID (a_cfg a') (pi_GatewayPeerID (pj_Info (mr_Peer resp))) (a_db a')) = true.
Proof.
  destruct (good_and_pair _ _ ex_mobile_good) as (resp & a' & E & _).
  destruct (mobile_gateway_agrees id ex_parse_key id ex_key_string ex_key_string_plain 0 0 [4; 2] (replicate 12 5)
    [1] [2] ex_post (Decoded ex_mobile_req) ex_mobile_api resp a' ex_mobile_ok E) as (self & others & H & _).
  exists resp, a'. split; [exact E|]. rewrite H. reflexivity.
Defined.

(** The endpoint's host is not checked for line breaks, which the rendered
    configuration then contains as lines of their own. *)
Lemma mobile_endpoint_line_break :
  let endpoint := "gw" +:+ String "010" ("AllowedIPs = 0.0.0.0/0" +:+ String "010" "Endpoint = x:51820") in
  validateMobileEndpoint endpoint = Ok tt ∧ TrimSpace endpoint = endpoint.
Proof. by vm_compute. Qed.
