(* ===== verification/Signal.v ===== *)
(** * Live signalling

    cmd/server/signal.go: the hub of connected agents, the websocket sessions
    ([handleSignalWS]) and the messages they exchange ([handleSignalMessage]);
    cmd/server/observability.go: the ring of recent requests.

    A connection is a number, its pointer in Go.  Whether a write succeeds is
    decided by the socket: [ok] tells, per connection.  Many sessions run at
    once; each of their visits to the hub is one step, as its mutex makes it. *)
From S2P Require Import Prelude GoText TimeText Codec Schema SchemaFacts Enroll Visibility Admin Users Telemetry TelemetryFacts StoreMachine ClientIP PeerEntries EntryFacts Handlers HandlerFacts AdminApi Session Mobile.
From Stdlib Require Import Ascii.

(** [payload] is raw JSON, passed on as it is. *)
Record signalMessage : Type := mkSignal {
  sg_Type : string; sg_From : string; sg_To : string; sg_At : string; sg_Payload : string
}.
Definition conn : Type := Z.
Record signalClient : Type := mkClient { sc_peerID : Z; sc_publicKey : string; sc_conn : conn }.
#[export] Instance signalClient_eq_dec : EqDecision signalClient.
Proof. solve_decision. Defined.
Record signalHub : Type := mkHub { clients : gmap string signalClient }.
Definition newSignalHub : signalHub := mkHub ∅.

(** The hub after it and the connection that is closed, if another client was
    registered for the key. *)
Definition register (c : signalClient) (h : signalHub) : option conn * signalHub :=
  (match clients h !! sc_publicKey c with
   | Some old => if decide (old = c) then None else Some (sc_conn old)
   | None => None
   end, mkHub (<[sc_publicKey c := c]> (clients h))).
Definition unregister (c : signalClient) (h : signalHub) : signalHub :=
  if decide (clients h !! sc_publicKey c = Some c) then mkHub (delete (sc_publicKey c) (clients h)) else h.

(** What is written to which connection; a write that fails writes nothing. *)
Definition delivery : Type := conn * signalMessage.
Section writes.
Context (ok : conn → bool).
Definition client_write (c : signalClient) (msg : signalMessage) : list delivery :=
  if ok (sc_conn c) then [(sc_conn c, msg)] else [].
Definition send (to : string) (msg : signalMessage) (h : signalHub) : bool * list delivery :=
  match clients h !! to with
  | None => (false, [])
  | Some c => (ok (sc_conn c), client_write c msg)
  end.
(** In the order Go's map yields its entries. *)
Definition broadcast (order : list signalClient → list signalClient) (msg : signalMessage) (h : signalHub) : Z * list delivery :=
  let out := order (snd <$> map_to_list (clients h)) ≫= λ c, client_write c msg in
  (Z.of_nat (length out), out).

(** [json.Marshal(map[string]string{"reason": reason})]; the reasons are plain words. *)
Definition reason_json (reason : string) : string :=
  String "{" (String "034" ("reason" +:+ String "034" (String ":" (String "034" (reason +:+ String "034" (String "}" "")))))).
Definition sync_now (to at_ reason : string) : signalMessage := mkSignal "sync-now" "" to at_ (reason_json reason).
Definition server_signalSync (order : list signalClient → list signalClient) (at_ reason : string) (h : signalHub)
  : list delivery := (broadcast order (sync_now "" at_ reason) h).2.
Definition signalPeerSync (at_ publicKey reason : string) (h : signalHub) : list delivery :=
  (send publicKey (sync_now publicKey at_ reason) h).2.

(** ** A message from an agent; [None] is data that is no JSON message *)
Definition handleSignalMessage (at_ : string) (c : signalClient) (data : option signalMessage) (w : World) (h : signalHub)
  : result unit * list delivery :=
  match data with
  | None => (Err (ErrMsg "invalid signal message"), [])
  | Some msg =>
      if decide (sg_Type msg = "") then (Err (ErrMsg "signal type required"), [])
      else if decide (sg_Type msg = "hello" ∨ sg_To msg = "") then (Ok tt, [])
      else match PeersForID (w_cfg w) (sc_peerID c) (w_db w) with
      | Err _ => (Err (ErrMsg "target lookup failed"), [])
      | Ok (_, others) =>
          if negb (existsb (λ p, bool_decide (pr_PublicKey p = sg_To msg)) others)
          then (Err (ErrMsg "unknown or revoked target peer"), [])
          else
            let '(sent, out) :=
              send (sg_To msg) (mkSignal (sg_Type msg) (sc_publicKey c) (sg_To msg) at_ (sg_Payload msg)) h in
            if sent : bool then (Ok tt, out) else (Err (ErrMsg "target peer is not connected to signal"), out)
      end
  end.
End writes.

(** ** Sessions *)

(** The guards before the upgrade; the answer is the client to register, for
    the connection the upgrade yields.  When the upgrade fails the handler
    returns without an answer of its own. *)
Definition handleSignalWS (now later : Z) (r : Request) (upgraded : option conn) (w : World)
  : reply (option signalClient) * World :=
  match authenticate now later "signal_rejected" r w with
  | inl rw => rw
  | inr (peerID, overlayIP) =>
      match PeersForID (w_cfg w) peerID (w_db w) with
      | Err _ => (Status 500 "internal error", w)
      | Ok (self, _) =>
          match upgraded with
          | None => (Good None, w)
          | Some conn =>
              (Good (Some (mkClient peerID (pr_PublicKey self) conn)),
               audit later r (Some (peerID, overlayIP)) "signal_open" 200 "signal websocket opened" w)
          end
      end
  end.

(** After the session. *)
Definition signal_closed (later : Z) (r : Request) (who : Z * string) (w : World) : World :=
  audit later r (Some who) "signal_close" 200 "signal websocket closed" w.

(** The running server: its world, the hub, the open sessions and all that was
    written, oldest first; and, for what is said about the sessions, the request
    each connection was upgraded from with the world it was answered in. *)
Record SignalSys : Type := mkSignalSys {
  ss_world : World; ss_hub : signalHub; ss_open : list signalClient; ss_written : list delivery;
  ss_upgrades : gmap conn (Request * World)
}.
(** One step of some session: opening it (with the hello), a message it read
    (with the error it is told), or its end; or anything else the server does,
    which leaves a database that meets the constraints of its schema.  A
    connection number is used once. *)
Inductive signal_step : SignalSys → SignalSys → Prop :=
| sig_open now later r conn at_ c ok w' s :
    ss_upgrades s !! conn = None →
    handleSignalWS now later r (Some conn) (ss_world s) = (Good (Some c), w') →
    signal_step s (mkSignalSys w' (register c (ss_hub s)).2 (ss_open s ++ [c])
      (ss_written s ++ client_write ok c (mkSignal "hello" "" (sc_publicKey c) at_ ""))
      (<[conn := (r, ss_world s)]> (ss_upgrades s)))
| sig_message ok at_ at_' c data res out quoted s :
    c ∈ ss_open s → handleSignalMessage ok at_ c data (ss_world s) (ss_hub s) = (res, out) →
    signal_step s (mkSignalSys (ss_world s) (ss_hub s) (ss_open s)
      (ss_written s ++ out ++
       match res with Ok _ => [] | Err _ => client_write ok c (mkSignal "error" "" "" at_' quoted) end) (ss_upgrades s))
| sig_close later r who c s :
    c ∈ ss_open s →
    signal_step s (mkSignalSys (signal_closed later r who (ss_world s))
      (unregister c (ss_hub s)) (filter (λ x, x ≠ c) (ss_open s)) (ss_written s) (ss_upgrades s))
| sig_world w' s :
    db_ok (w_db w') → signal_step s (mkSignalSys w' (ss_hub s) (ss_open s) (ss_written s) (ss_upgrades s))
| sig_sync ok order at_ reason s :
    (∀ l, order l ≡ₚ l) →
    signal_step s (mkSignalSys (ss_world s) (ss_hub s) (ss_open s)
      (ss_written s ++ server_signalSync ok order at_ reason (ss_hub s)) (ss_upgrades s))
| sig_peer_sync ok at_ key reason s :
    signal_step s (mkSignalSys (ss_world s) (ss_hub s) (ss_open s)
      (ss_written s ++ signalPeerSync ok at_ key reason (ss_hub s)) (ss_upgrades s)).

(** ** Recent requests *)
Section ring.
Context {L : Type} (zero : L).
Inductive accessLogMode : Type := accessLogMemory | accessLogStdout | accessLogOff.
Definition parseAccessLogMode (raw : string) : result accessLogMode :=
  if decide (raw = "memory") then Ok accessLogMemory
  else if decide (raw = "stdout") then Ok accessLogStdout
  else if decide (raw = "off") then Ok accessLogOff
  else Err (ErrMsg "access-log must be memory, stdout, or off").
Record accessLogSink : Type := mkSink { al_mode : accessLogMode; al_next : nat; al_full : bool; al_lines : list L }.
Definition newAccessLogSink (mode : accessLogMode) (size : Z) : accessLogSink :=
  mkSink mode 0 false (replicate (Z.to_nat (if size <? 1 then 1 else size)) zero).
(** The sink after it, and the line printed, if any. *)
Definition accessLog_write (line : L) (s : accessLogSink) : option L * accessLogSink :=
  match al_mode s with
  | accessLogOff => (None, s)
  | accessLogStdout => (Some line, s)
  | accessLogMemory =>
      let next := ((al_next s + 1) mod length (al_lines s))%nat in
      (None, mkSink (al_mode s) next (if (next =? 0)%nat then true else al_full s) (<[al_next s := line]> (al_lines s)))
  end.
Definition accessLog_list (limit : Z) (s : accessLogSink) : list L :=
  match al_mode s with
  | accessLogMemory =>
      if limit <=? 0 then []
      else
        let total := if al_full s then length (al_lines s) else al_next s in
        let limit := Z.to_nat (Z.min limit (Z.of_nat total)) in
        (λ i, let idx := Z.of_nat (al_next s) - 1 - Z.of_nat i in
              nth (Z.to_nat (if idx <? 0 then idx + Z.of_nat (length (al_lines s)) else idx)) (al_lines s) zero)
        <$> seq 0 limit
  | _ => []
  end.
End ring.
Arguments accessLogSink L : clear implicits.

(** * Facts about live signalling and the request log

    Whoever relays a message through the hub is named truthfully and may see the
    one it is for; a reconnecting agent is not cut off by the end of its old
    session; the ring of requests holds exactly the latest ones, newest first. *)
(** ** Sessions *)

(** The session's connection was upgraded from a request with the token of an
    active peer, as the database had it then, and the session speaks for that
    peer. *)
Definition opened (s : SignalSys) (c : signalClient) : Prop :=
  ∃ r w, ss_upgrades s !! sc_conn c = Some (r, w)
    ∧ bearer_of (hr_Authorization r) (w_db w) (sc_peerID c) (sc_publicKey c).

Lemma handleSignalWS_opened now later r conn w c w' :
  db_ok (w_db w) → handleSignalWS now later r (Some conn) w = (Good (Some c), w') →
  bearer_of (hr_Authorization r) (w_db w) (sc_peerID c) (sc_publicKey c) ∧ sc_conn c = conn ∧ db_ok (w_db w').
Proof.
  intros Hdb. unfold handleSignalWS. destruct (authenticate _ _ _ r w) as [[rep w1]|[id ip]] eqn:Ea.
  { intros [= -> _]. exfalso. revert Ea. unfold authenticate. by repeat case_match. }
  unfold PeersForID. destruct (peer_by_id id (w_db w)) as [p|] eqn:Ep; [|done]. intros [= <- <-].
  split; [exact (authenticate_bearer _ _ _ _ _ _ _ _ Hdb Ea Ep)|]. split; [done|]. exact (calm_ok _ _ (calm_audit _ _ _ _ _ _ _ Hdb)).
Qed.

Record signal_ok (s : SignalSys) : Prop := {
  so_db : db_ok (w_db (ss_world s));
  so_clients : ∀ k c, clients (ss_hub s) !! k = Some c → sc_publicKey c = k ∧ c ∈ ss_open s;
  so_opened : ∀ c, c ∈ ss_open s → opened s c
}.

Lemma register_lookup c h k d :
  clients (register c h).2 !! k = Some d → d = c ∧ k = sc_publicKey c ∨ clients h !! k = Some d.
Proof. cbn. intros [[-> ->]|[? ?]]%lookup_insert_Some; auto. Qed.
Lemma unregister_lookup c h k d :
  clients (unregister c h) !! k = Some d → clients h !! k = Some d ∧ (k = sc_publicKey c → d ≠ c).
Proof.
  unfold unregister. case_decide as E; cbn.
  - intros [? ?]%lookup_delete_Some. split; [done|]. congruence.
  - intros H. split; [done|]. intros -> ->. done.
Qed.

Lemma signal_step_ok s s' : signal_step s s' → signal_ok s → signal_ok s'.
Proof.
  intros Hstep [Hdb Hc Ho]. destruct Hstep as [now later r conn at_ c ok w' s Hn Hw| |later r who c s Hin|w' s Hdb'| |];
    cbn in *; try (by split).
  - destruct (handleSignalWS_opened _ _ _ _ _ _ _ Hdb Hw) as (Hb & Hconn & Hdb'). split; cbn; [done|..].
    + intros k d [[-> ->]|Hk]%register_lookup; [split; [done|apply elem_of_app; right; by left]|].
      destruct (Hc k d Hk). split; [done|]. apply elem_of_app. by left.
    + intros d [Hd| ->%list_elem_of_singleton]%elem_of_app.
      * destruct (Ho d Hd) as (rd & wd & Hu & Hbd). exists rd, wd. split; [|done]. cbn.
        rewrite lookup_insert_ne; [done|congruence].
      * exists r, (ss_world s). split; [cbn; by rewrite Hconn, lookup_insert_eq|done].
  - split; [exact (calm_ok _ _ (calm_audit later r (Some who) _ _ _ _ Hdb))|..]; cbn.
    + intros k d [Hk Hne]%unregister_lookup. destruct (Hc k d Hk) as [<- Hd]. split; [done|].
      apply list_elem_of_filter. split; [|done]. intros ->. by apply Hne.
    + intros d [_ Hd]%list_elem_of_filter. by apply Ho.
Qed.
Definition signal_start (w : World) : SignalSys := mkSignalSys w newSignalHub [] [] ∅.
Lemma signal_reachable_ok w s : db_ok (w_db w) → rtc signal_step (signal_start w) s → signal_ok s.
Proof.
  intros Hdb. revert s. apply (rtc_ind_r signal_ok (signal_start w)).
  - split; cbn; [done|intros k c; by rewrite lookup_empty|]. intros c Hc. by apply elem_of_nil in Hc.
  - intros s1 s2 _ Hs. by apply signal_step_ok.
Qed.

Lemma client_write_elem ok c msg d : d ∈ client_write ok c msg → d = (sc_conn c, msg).
Proof. unfold client_write. case_match; [by intros ->%list_elem_of_singleton|by intros ?%elem_of_nil]. Qed.
Lemma send_elem ok to msg h d : d ∈ (send ok to msg h).2 → ∃ c, clients h !! to = Some c ∧ d = (sc_conn c, msg).
Proof.
  unfold send. destruct (clients h !! to) as [c|] eqn:E; [|by intros ?%elem_of_nil].
  cbn. intros ->%client_write_elem. by exists c.
Qed.

(** A peer that passes a message on may see the one it is for. *)
Definition sees (w : World) (id : Z) (key : string) : Prop :=
  ∃ self others p, PeersForID (w_cfg w) id (w_db w) = Ok (self, others) ∧ p ∈ others ∧ pr_PublicKey p = key.

Lemma handleSignalMessage_out ok at_ c data w h res out d :
  handleSignalMessage ok at_ c data w h = (res, out) → d ∈ out →
  ∃ to, clients h !! sg_To d.2 = Some to ∧ d.1 = sc_conn to ∧ sg_From d.2 = sc_publicKey c
    ∧ sg_At d.2 = at_ ∧ sees w (sc_peerID c) (sg_To d.2).
Proof.
  unfold handleSignalMessage. destruct data as [msg|]; [|intros [= _ <-] H; by apply elem_of_nil in H].
  case_decide; [intros [= _ <-] Hd; by apply elem_of_nil in Hd|].
  case_decide; [intros [= _ <-] Hd; by apply elem_of_nil in Hd|].
  destruct (PeersForID _ _ _) as [[self others]|] eqn:Ep; [|intros [= _ <-] Hd; by apply elem_of_nil in Hd].
  destruct (existsb _ others) eqn:Ex; [|intros [= _ <-] Hd; by apply elem_of_nil in Hd]. cbn [negb].
  match goal with |- context [send ok ?t ?m h] => pose proof (send_elem ok t m h d) as Hs; destruct (send ok t m h) as [b l] end.
  cbn [snd] in Hs. intros Hres Hd. assert (out = l) as -> by (destruct b; by injection Hres as _ <-).
  apply Hs in Hd as (to & Hto & ->). exists to. split_and!; try done.
  apply existsb_exists in Ex as (p & Hp & Hk%bool_decide_eq_true). exists self, others, p. split_and!; try done.
  by apply list_elem_of_In.
Qed.


(** The end of an agent's old session does not remove its new one. *)
Lemma signal_reconnect old new h :
  new ≠ old → clients (unregister old (register new h).2) !! sc_publicKey new = Some new.
Proof.
  intros Hne. unfold unregister. cbn. case_decide as E; cbn.
  - rewrite lookup_delete_ne; [by rewrite lookup_insert_eq|]. intros Ek. rewrite Ek, lookup_insert_eq in E. congruence.
  - by rewrite lookup_insert_eq.
Qed.

(** ** The ring of requests *)
Lemma mod_apart n a b : (a < b)%nat → (b < a + n)%nat → (a mod n ≠ b mod n)%nat.
Proof.
  intros H1 H2 E. pose proof (Nat.div_mod_eq a n) as Ea. pose proof (Nat.div_mod_eq b n) as Eb.
  rewrite E in Ea. generalize dependent (b mod n)%nat. intros r _ Ea Eb.
  generalize dependent (a / n)%nat. generalize dependent (b / n)%nat. intros q2 Eb q1 Ea.
  assert (n * q1 < n * q2)%nat as Hq by lia. apply Nat.mul_lt_mono_pos_l in Hq; [|lia].
  assert (n * S q1 ≤ n * q2)%nat by (apply Nat.mul_le_mono_l; lia). lia.
Qed.
Section ring.
Context {L : Type} (zero : L).
Definition filled (size : Z) (ls : list L) : accessLogSink L :=
  foldl (λ s l, (accessLog_write l s).2) (newAccessLogSink zero accessLogMemory size) ls.

(** The [i]th newest line, where the sink has seen [ls], oldest first. *)
Record ring_ok (n : nat) (ls : list L) (s : accessLogSink L) : Prop := {
  ri_mode : al_mode s = accessLogMemory;
  ri_size : length (al_lines s) = n;
  ri_next : al_next s = (length ls mod n)%nat;
  ri_full : al_full s = (n <=? length ls)%nat;
  ri_lines : ∀ i x, (i < n)%nat → reverse ls !! i = Some x →
    al_lines s !! ((length ls - 1 - i) mod n)%nat = Some x
}.
Lemma ring_write n ls s l :
  (0 < n)%nat → ring_ok n ls s → ring_ok n (ls ++ [l]) (accessLog_write l s).2.
Proof using.
  intros Hn [Hm Hs Hx Hf Hl]. unfold accessLog_write. rewrite Hm. cbn [snd]. rewrite Hs, Hx.
  assert ((length ls mod n + 1) mod n = (length ls + 1) mod n)%nat as En by apply Nat.Div0.add_mod_idemp_l.
  split; cbn; rewrite ?length_app, ?length_insert, ?Hf; cbn [length]; try done.
  - rewrite En. destruct (Nat.eqb_spec ((length ls + 1) mod n) 0) as [E|E].
    + symmetry. apply Nat.leb_le. apply Nat.Div0.mod_divides in E as [c Ec]. destruct c; [lia|nia].
    + destruct (Nat.leb_spec n (length ls)), (Nat.leb_spec n (length ls + 1)); try done; [lia|].
      exfalso. apply E. replace (length ls + 1)%nat with n by lia. apply Nat.Div0.mod_same.
  - intros i x Hi. rewrite reverse_app. cbn [reverse rev_append app]. destruct i as [|i].
    + intros [= ->]. replace (length ls + 1 - 1 - 0)%nat with (length ls) by lia.
      apply list_lookup_insert_eq. rewrite Hs. apply Nat.mod_upper_bound. lia.
    + intros Hr. change (reverse ls !! i = Some x) in Hr. pose proof (lookup_lt_Some _ _ _ Hr) as Hlt. rewrite length_reverse in Hlt.
      replace (length ls + 1 - 1 - S i)%nat with (length ls - 1 - i)%nat by lia.
      rewrite list_lookup_insert_ne; [apply Hl; [lia|done]|]. intros E.
      apply (mod_apart n (length ls - 1 - i) (length ls)); [lia|lia|congruence].
Qed.
Lemma ring_filled (size : Z) ls : ring_ok (Z.to_nat (if size <? 1 then 1 else size)) ls (filled size ls).
Proof using.
  unfold filled. induction ls as [|l ls IH] using rev_ind.
  - split; cbn; [done|by rewrite length_replicate|by rewrite Nat.Div0.mod_0_l| |intros i x _; by rewrite lookup_nil].
    destruct (Z.ltb_spec size 1); [done|]. symmetry. apply Nat.leb_gt. lia.
  - rewrite foldl_app. apply ring_write; [|exact IH]. clear IH. destruct (Z.ltb_spec size 1); lia.
Qed.
Lemma ring_index n N i :
  (0 < n)%nat → (i < n)%nat → (i < N)%nat →
  let idx := Z.of_nat (N mod n) - 1 - Z.of_nat i in
  Z.to_nat (if idx <? 0 then idx + Z.of_nat n else idx) = ((N - 1 - i) mod n)%nat.
Proof using.
  clear zero. intros Hn Hi HN idx. pose proof (Nat.div_mod_eq N n) as E. pose proof (Nat.mod_upper_bound N n ltac:(lia)) as Hr.
  destruct (Z.ltb_spec idx 0) as [H|H].
  - destruct (N / n)%nat as [|q] eqn:Eq; [rewrite Nat.mul_0_r in E; lia|].
    apply (Nat.mod_unique _ _ q); [lia|]. rewrite Nat.mul_succ_r in E. lia.
  - apply (Nat.mod_unique _ _ (N / n)); lia.
Qed.
Lemma ring_list n ls s limit :
  (0 < n)%nat → ring_ok n ls s →
  accessLog_list zero limit s = take (Z.to_nat limit `min` n) (reverse ls).
Proof using.
  intros Hn [Hm Hs Hx Hf Hl]. unfold accessLog_list. rewrite Hm, Hs.
  destruct (Z.leb_spec limit 0) as [H|H]; [replace (Z.to_nat limit) with 0%nat by lia; done|].
  assert ((if al_full s then n else al_next s) = n `min` length ls)%nat as ->.
  { rewrite Hf, Hx. destruct (Nat.leb_spec n (length ls)); [lia|]. rewrite Nat.mod_small by lia. lia. }
  set (k := Z.to_nat _). assert (k = (Z.to_nat limit `min` n) `min` length ls)%nat as Ek by (unfold k; lia).
  apply list_eq. intros i. rewrite list_lookup_fmap. destruct (decide (i < k)%nat) as [Hi|Hi].
  - rewrite lookup_seq_lt by done. cbn. rewrite lookup_take_lt by lia.
    destruct (lookup_lt_is_Some_2 (reverse ls) i) as [x Ex]; [rewrite length_reverse; lia|]. rewrite Ex.
    f_equal. rewrite Hx. rewrite ring_index by lia. apply nth_lookup_Some. apply Hl; [lia|done].
  - rewrite lookup_seq_ge by lia. cbn. symmetry. apply lookup_ge_None. rewrite length_take, length_reverse. lia.
Qed.

(** The request log is a window on the most recent requests: after any
    sequence of requests, asking for some number of lines answers with exactly
    that many of the latest ones, newest first, as many as there have been and
    as the ring keeps; a size below one counts as one. *)
Theorem access_log_recent (size limit : Z) ls :
  accessLog_list zero limit (filled size ls) = take (Z.to_nat limit `min` Z.to_nat (Z.max 1 size)) (reverse ls).
Proof using.
  assert (Z.to_nat (if size <? 1 then 1 else size) = Z.to_nat (Z.max 1 size)) as E
    by (clear ls zero; destruct (Z.ltb_spec size 1); lia).
  rewrite <- E. apply ring_list; [rewrite E; clear ls zero; lia|apply ring_filled].
Qed.
End ring.

(** ** Witnesses *)
Definition ex_ok : conn → bool := λ _, true.
Definition ex_A : signalClient := mkClient 1 "pubA" 1.
Definition ex_B : signalClient := mkClient 2 "pubB" 2.
Lemma pair_of {A B} (x : A * B) a : x.1 = a → x = (a, x.2).
Proof. destruct x. by intros <-. Qed.
Definition ex_w1 : World := (handleSignalWS sample_now sample_now (ex_request "AQID") (Some 1) ex_world).2.
Definition ex_w2 : World := (handleSignalWS sample_now sample_now (ex_request "BAUG") (Some 2) ex_w1).2.
Lemma ex_open_A : handleSignalWS sample_now sample_now (ex_request "AQID") (Some 1) ex_world = (Good (Some ex_A), ex_w1).
Proof. unfold ex_w1. apply pair_of. vm_compute. reflexivity. Qed.
Lemma ex_open_B : handleSignalWS sample_now sample_now (ex_request "BAUG") (Some 2) ex_w1 = (Good (Some ex_B), ex_w2).
Proof. unfold ex_w2. apply pair_of. vm_compute. reflexivity. Qed.

Definition ex_hello (c : signalClient) : signalMessage := mkSignal "hello" "" (sc_publicKey c) "t" "".
Definition ex_s0 : SignalSys := signal_start ex_world.
Definition ex_up1 : gmap conn (Request * World) := <[1 := (ex_request "AQID", ex_world)]> ∅.
Definition ex_s1 : SignalSys :=
  mkSignalSys ex_w1 (register ex_A newSignalHub).2 [ex_A] [(1, ex_hello ex_A)] ex_up1.
Definition ex_s2 : SignalSys :=
  mkSignalSys ex_w2 (register ex_B (ss_hub ex_s1)).2 [ex_A; ex_B] [(1, ex_hello ex_A); (2, ex_hello ex_B)]
    (<[2 := (ex_request "BAUG", ex_w1)]> ex_up1).
Lemma ex_two_sessions : rtc signal_step ex_s0 ex_s2.
Proof.
  eapply rtc_l; [|apply rtc_once].
  - exact (sig_open sample_now sample_now (ex_request "AQID") 1 "t" ex_A ex_ok ex_w1 ex_s0 (lookup_empty _) ex_open_A).
  - refine (sig_open sample_now sample_now (ex_request "BAUG") 2 "t" ex_B ex_ok ex_w2 ex_s1 _ ex_open_B). done.
Qed.

(** The sender's own [From] is not believed. *)
Definition ex_offer : signalMessage := mkSignal "offer" "pubX" "pubB" "" "{}".
Definition ex_relayed : delivery := (2, mkSignal "offer" "pubA" "pubB" "t" "{}").
Lemma ex_message : handleSignalMessage ex_ok "t" ex_A (Some ex_offer) ex_w2 (ss_hub ex_s2) = (Ok tt, [ex_relayed]).
Proof. vm_compute. reflexivity. Qed.
#[local] Opaque ex_w1 ex_w2.
Definition ex_s3 : SignalSys :=
  mkSignalSys ex_w2 (ss_hub ex_s2) [ex_A; ex_B] (ss_written ex_s2 ++ [ex_relayed] ++ []) (ss_upgrades ex_s2).
Lemma ex_message_step : signal_step ex_s2 ex_s3.
Proof.
  refine (sig_message ex_ok "t" "t" ex_A (Some ex_offer) (Ok tt) [ex_relayed] "" ex_s2 _ ex_message). by left.
Qed.


(** A session that is already open outlives the revocation of its peer: only the
    other end of a message is looked up among the active peers. *)
Lemma signal_revoked_sender :
  let w := with_db (run_tx (RevokePeer sample_now 1) (w_db ex_w2)).2 ex_w2 in
  is_ok (AuthenticatePeer (w_cfg w) sample_now "AQID" (w_db w)) = false
  ∧ handleSignalMessage ex_ok "t" ex_A (Some ex_offer) w (ss_hub ex_s2) = (Ok tt, [ex_relayed]).
Proof. vm_compute. done. Qed.
