(* ===== verification/Logs.v ===== *)
(** * Listings, retention and the request log

    cmd/server/report.go, connections.go, proxy.go and observability.go: the
    read-only listings of the dashboard with their limits, the retention loops,
    and the middleware that writes one line per request ([logRequests], with
    [safeHeaders] and [statusRecorder]); cmd/server/listener.go: whose PROXY
    protocol header is believed ([proxyHeaderPolicy]).

    A listing answers with the rows of the store in their order; the JSON records
    have the fields of the rows, but for flows, which get three more. *)
From S2P Require Import Prelude GoText TimeText NetAddr NetFacts HostPort Codec Schema Telemetry ClientIP PeerEntries Handlers Signal.
From Stdlib Require Import Ascii.

(** ** Listings *)

(** The query parameter [limit]: [None] is a refusal. *)
Definition list_limit (def max : Z) (q : string) : option Z :=
  if decide (q = "") then Some def
  else match ParseInt q with
       | Some n => if (n <? 1) || (max <? n) then None else Some n
       | None => None
       end.
Definition list_with {A} (def max : Z) (q : string) (rows : nat → result (list A)) : reply (list A) :=
  match list_limit def max q with
  | None => Status 400 ("limit must be 1-" +:+ Itoa max)
  | Some n => match rows (Z.to_nat n) with Ok l => Good l | Err _ => Status 500 "internal error" end
  end.
Definition handleListConnectionEvents (q : string) (w : World) : reply (list ConnectionEventRow) :=
  list_with 200 2000 q (λ n, Ok (ListConnectionEvents n (w_db w))).
Definition handleListProxyEvents (q : string) (w : World) : reply (list ProxyEventRow) :=
  list_with 200 2000 q (λ n, Ok (ListProxyEvents n (w_db w))).
Definition handleListAudit (q : string) (w : World) : reply (list AuditRow) :=
  list_with 200 2000 q (λ n, Ok (ListAuditLog n (w_db w))).
Definition handleListAccessLog {L} (zero : L) (q : string) (sink : accessLogSink L) : reply (list L) :=
  list_with 200 2000 q (λ n, Ok (accessLog_list zero (Z.of_nat n) sink)).
Definition handleListLinkStats (w : World) : reply (list LinkStat) :=
  match ListLinkStats (w_db w) with Ok l => Good l | Err _ => Status 500 "internal error" end.

Definition protocolName (p : Z) : string :=
  if p =? 1 then "icmp" else if p =? 6 then "tcp" else if p =? 17 then "udp" else if p =? 58 then "icmpv6" else Itoa p.
(** Direction, ingress and egress port. *)
Definition flowDirection (peerIP peerIP6 srcIP : string) (srcPort : Z) (dstIP : string) (dstPort : Z) : string * Z * Z :=
  let is_peer ip := bool_decide (ip = peerIP) || bool_decide (peerIP6 ≠ "") && bool_decide (ip = peerIP6) in
  if is_peer srcIP then ("egress", srcPort, dstPort)
  else if is_peer dstIP then ("ingress", dstPort, srcPort)
  else ("transit", dstPort, srcPort).
Record flowJSON : Type := mkFlowJSON {
  fj_Row : FlowRow; fj_ProtocolName : string; fj_Direction : string; fj_IngressPort : Z; fj_EgressPort : Z
}.
Definition flow_json (f : FlowRow) : flowJSON :=
  let r := fw_Flow f in
  let '(dir, ingress, egress) :=
    flowDirection (fw_PeerIP f) (fw_PeerIP6 f) (f_src_ip r) (f_src_port r) (f_dst_ip r) (f_dst_port r) in
  mkFlowJSON f (protocolName (f_protocol r)) dir ingress egress.
Definition handleListFlows (q : string) (w : World) : reply (list flowJSON) :=
  list_with 100 1000 q (λ n, Ok (flow_json <$> RecentFlows n (w_db w))).

(** ** Retention: one pass of each loop *)
Definition prune_flows_pass (now retention : Z) (db : DB) : DB := (run_tx (PruneFlows now retention) db).2.
Definition prune_audit_pass (now retention : Z) (db : DB) : DB :=
  (run_tx (PruneProxyEvents now retention)
     (run_tx (PruneConnectionEvents now retention) (run_tx (PruneAuditLog now retention) db).2).2).2.

(** ** The request log *)

(** [http.CanonicalHeaderKey]: a key that is no token stays as it is. *)
Definition token_char (c : ascii) : bool :=
  let b := byte_of c in
  ((48 <=? b) && (b <=? 57)) || ((65 <=? b) && (b <=? 90)) || ((97 <=? b) && (b <=? 122))
  || bool_decide (c ∈ ["!"; "#"; "$"; "%"; "&"; "'"; "*"; "+"; "-"; "."; "^"; "_"; "`"; "|"; "~"]%char).
Definition upper1 (c : ascii) : ascii := let b := byte_of c in if (97 <=? b) && (b <=? 122) then chr (b - 32) else c.
Fixpoint canonical (upper : bool) (l : list ascii) : list ascii :=
  match l with
  | [] => []
  | c :: l => (if upper then upper1 c else lower1 c) :: canonical (bool_decide (c = "-"%char)) l
  end.
Definition CanonicalHeaderKey (k : string) : string :=
  if forallb token_char (chars k) then text (canonical true (chars k)) else k.

Definition secret_header (k : string) : bool :=
  bool_decide (CanonicalHeaderKey k ∈ ["Authorization"; "Cookie"; "Sec-Websocket-Key"]).
Definition safeHeaders (h : gmap string (list string)) : gmap string string :=
  map_imap (λ k v, Some (if secret_header k then "[redacted]" else Join v ",")) h.

(** What a handler does with the response writer, in order. *)
Inductive write_event : Type :=
| WriteHeader (code : Z)
| Write (n : Z)
| Hijack (supported : bool).
Record statusRecorder : Type := mkRecorder { sr_status : Z; sr_bytes : Z }.
Definition record_write (s : statusRecorder) (e : write_event) : statusRecorder :=
  match e with
  | WriteHeader code => mkRecorder code (sr_bytes s)
  | Write n => mkRecorder (if sr_status s =? 0 then 200 else sr_status s) (sr_bytes s + n)
  | Hijack ok => if ok : bool then mkRecorder (if sr_status s =? 0 then 101 else sr_status s) (sr_bytes s) else s
  end.

(** A request with all its headers; the handlers see [request_of] it. *)
Record HttpRequest : Type := mkHttp {
  hq_RemoteAddr : string; hq_Method : string; hq_Path : string; hq_Header : gmap string (list string)
}.
Definition header (q : HttpRequest) (k : string) : list string := default [] (hq_Header q !! k).
Definition request_of (q : HttpRequest) : Request :=
  mkRequest (hq_RemoteAddr q) (header q "X-Forwarded-For") (header_get (header q "User-Agent"))
    (header_get (header q "Authorization")) (hq_Method q) (hq_Path q).
Record accessLogLine : Type := mkLine {
  ln_Time : string; ln_Event : string; ln_Method : string; ln_Path : string; ln_Status : Z; ln_DurationMS : Z;
  ln_RemoteIP : string; ln_ForwardedFor : string; ln_OverlayIP : string; ln_PeerID : Z; ln_UserAgent : string;
  ln_Headers : gmap string string
}.
(** The line of a request that took from [start] to [stop]; [next] is the wrapped
    handler: what it wrote and the peer it attached to the request.  [rfc3339]
    prints the start. *)
Definition logRequests (rfc3339 : Z → string) (trust : ProxyTrust) (start stop : Z)
    (next : HttpRequest → list write_event * caller) (q : HttpRequest) (sink : accessLogSink accessLogLine)
  : option accessLogLine * accessLogSink accessLogLine :=
  let '(writes, who) := next q in
  let rec := foldl record_write (mkRecorder 0 0) writes in
  let status := if sr_status rec =? 0 then 200 else sr_status rec in
  let r := request_of q in
  accessLog_write
    (mkLine (rfc3339 start) "http_request" (hq_Method q) (hq_Path q) status (Z.quot (stop - start) Millisecond)
       (clientIP trust r) (header_get (hr_ForwardedFor r)) (from_option snd "" who) (from_option fst 0 who)
       (hr_UserAgent r) (safeHeaders (hq_Header q))) sink.

(** ** Listeners *)
Definition proxyHeaderPolicy (trusted : list Prefix) (upstream : string) : bool :=
  match SplitHostPort upstream with
  | None => false
  | Some (host, _) =>
      match ParseAddr host with
      | None => false
      | Some addr => existsb (λ p, Contains p (Unmap addr)) trusted
      end
  end.

(** ** Facts *)

(** A listing never has more rows than were asked for, nor more than its maximum. *)
Lemma list_limit_bounds def max q n : 1 ≤ def ≤ max → list_limit def max q = Some n → 1 ≤ n ≤ max.
Proof.
  intros Hd. unfold list_limit. case_decide; [by intros [= <-]|]. destruct (ParseInt q) as [m|]; [|done].
  destruct (Z.ltb_spec m 1), (Z.ltb_spec max m); cbn [orb]; try done. intros [= <-]. lia.
Qed.
Lemma listing_bounded {A} def max q rows (l : list A) :
  1 ≤ def ≤ max → (∀ n l, rows n = Ok l → (length l ≤ n)%nat) → list_with def max q rows = Good l →
  Z.of_nat (length l) ≤ max.
Proof.
  intros Hd Hr. unfold list_with. destruct (list_limit def max q) as [n|] eqn:En; [|done].
  apply list_limit_bounds in En; [|done]. destruct (rows (Z.to_nat n)) as [l'|] eqn:E; [|done].
  intros [= ->]. apply Hr in E. lia.
Qed.

(** A pass of the retention loop removes exactly the expired rows. *)
Lemma prune_audit_exact now retention db :
  let db' := prune_audit_pass now retention db in
  let live t := str_lt t (cutoff now retention) = false in
  (∀ a, a ∈ audit_log db' ↔ a ∈ audit_log db ∧ live (a_at a))
  ∧ (∀ e, e ∈ connection_events db' ↔ e ∈ connection_events db ∧ live (ce_at e))
  ∧ (∀ e, e ∈ proxy_events db' ↔ e ∈ proxy_events db ∧ live (pe_at e))
  ∧ peers db' = peers db ∧ flows db' = flows db.
Proof.
  cbv zeta. unfold prune_audit_pass, PruneProxyEvents, PruneConnectionEvents, PruneAuditLog, run_tx. cbn [snd].
  destruct db. cbn. unfold delete_where. split_and!; try done; intros x; rewrite list_elem_of_filter.
  all: destruct (str_lt _ _); cbn; naive_solver.
Qed.

(** The headers that carry credentials, in whatever case their names are written. *)
Definition credential_name (k : string) : Prop :=
  lower1 <$> chars k ∈ [chars "authorization"; chars "cookie"; chars "sec-websocket-key"].
#[export] Instance credential_name_dec k : Decision (credential_name k).
Proof. unfold credential_name. apply _. Defined.

Lemma fold_case c :
  lower1 (lower1 c) = lower1 c ∧ upper1 (lower1 c) = upper1 c ∧ lower1 (upper1 c) = lower1 c
  ∧ token_char (lower1 c) = token_char c ∧ bool_decide (lower1 c = "-"%char) = bool_decide (c = "-"%char).
Proof. destruct c as [[] [] [] [] [] [] [] []]; vm_compute; split_and!; reflexivity. Qed.
Lemma canonical_lower u l : canonical u (lower1 <$> l) = canonical u l.
Proof.
  revert u. induction l as [|c l IH]; intros u; [done|]. destruct (fold_case c) as (H1 & H2 & _ & _ & H5).
  rewrite fmap_cons. cbn [canonical]. rewrite IH, H1, H2, H5. done.
Qed.
Lemma lower_canonical u l : lower1 <$> canonical u l = lower1 <$> l.
Proof.
  revert u. induction l as [|c l IH]; intros u; [done|]. destruct (fold_case c) as (H1 & _ & H3 & _).
  cbn [canonical]. rewrite !fmap_cons, IH. destruct u; by rewrite ?H1, ?H3.
Qed.
Lemma tokens_lower l : forallb token_char (lower1 <$> l) = forallb token_char l.
Proof.
  induction l as [|c l IH]; [done|]. destruct (fold_case c) as (_ & _ & _ & H4 & _).
  rewrite fmap_cons. cbn [forallb]. by rewrite IH, H4.
Qed.
(** What the code recognises after canonicalisation are exactly these names. *)
Lemma secret_credential k : secret_header k = bool_decide (credential_name k).
Proof.
  unfold secret_header. apply bool_decide_ext. unfold CanonicalHeaderKey, credential_name.
  rewrite <- (tokens_lower (chars k)), <- (canonical_lower true (chars k)). split.
  - destruct (forallb token_char _) eqn:Et.
    + intros H. rewrite <- (lower_canonical true). rewrite canonical_lower in *.
      rewrite !elem_of_cons in H. destruct H as [H|[H|[H|H]]]; [| | |by apply elem_of_nil in H];
        apply (f_equal chars) in H; rewrite chars_text in H; rewrite H; [left|right; left|right; right; left].
    + intros H. rewrite !elem_of_cons in H. destruct H as [-> |[-> |[-> |H]]]; [done..|by apply elem_of_nil in H].
  - intros H. rewrite !elem_of_cons in H. destruct H as [-> |[-> |[-> |H]]]; [left|right; left|right; right; left|by apply elem_of_nil in H].
Qed.

(** Two requests that differ at most in the values of such headers. *)
Definition same_but_credentials (q q' : HttpRequest) : Prop :=
  hq_RemoteAddr q = hq_RemoteAddr q' ∧ hq_Method q = hq_Method q' ∧ hq_Path q = hq_Path q'
  ∧ ∀ k, if decide (credential_name k) then is_Some (hq_Header q !! k) ↔ is_Some (hq_Header q' !! k)
         else hq_Header q !! k = hq_Header q' !! k.

Lemma safeHeaders_lookup h k :
  safeHeaders h !! k = (λ v, if decide (credential_name k) then "[redacted]" else Join v ",") <$> h !! k.
Proof.
  unfold safeHeaders. rewrite map_lookup_imap, secret_credential. destruct (h !! k); [|done]. cbn. f_equal.
  by case_bool_decide; case_decide.
Qed.
Lemma safeHeaders_same q q' : same_but_credentials q q' → safeHeaders (hq_Header q) = safeHeaders (hq_Header q').
Proof.
  intros (_ & _ & _ & H). apply map_eq. intros k. rewrite !safeHeaders_lookup. specialize (H k).
  case_decide; [|by rewrite H]. destruct (hq_Header q !! k), (hq_Header q' !! k); try done; exfalso.
  - destruct H as [H _]. by destruct (H ltac:(by eexists)).
  - destruct H as [_ H]. by destruct (H ltac:(by eexists)).
Qed.

(** C28: the request log keeps no credentials.  Of two requests that differ only
    in the values of the Authorization, Cookie and Sec-WebSocket-Key headers,
    however these names are written, the line of one and what the log holds
    afterwards is what they would be for the other if the handler did the same:
    the values enter only through what the handler wrote (the status) and the
    peer it identified (its number and overlay address).  In the logged headers
    their values are replaced; every other header is kept as it came. *)
Theorem request_log_redacted rfc3339 trust start stop next q q' sink :
  same_but_credentials q q' →
  logRequests rfc3339 trust start stop next q sink = logRequests rfc3339 trust start stop (λ _, next q) q' sink
  ∧ (∀ k v, hq_Header q !! k = Some v →
     safeHeaders (hq_Header q) !! k = Some (if decide (credential_name k) then "[redacted]" else Join v ",")).
Proof.
  intros Hq. split.
  - unfold logRequests. destruct (next q) as [writes who]. rewrite (safeHeaders_same q q' Hq).
    destruct Hq as (Hr & Hm & Hp & Hh).
    assert (∀ k, bool_decide (credential_name k) = false → header q k = header q' k) as Hk.
    { intros k E%bool_decide_eq_false. specialize (Hh k). rewrite decide_False in Hh by done. unfold header. by rewrite Hh. }
    assert (clientIP trust (request_of q) = clientIP trust (request_of q')) as Hip.
    { unfold clientIP, request_of. cbn [hr_RemoteAddr hr_ForwardedFor]. by rewrite Hr, Hk by reflexivity. }
    rewrite Hip. unfold request_of. cbn [hr_ForwardedFor hr_UserAgent]. rewrite Hm, Hp, !Hk by reflexivity. done.
  - intros k v Hv. by rewrite safeHeaders_lookup, Hv.
Qed.

Definition ex_http (token : string) : HttpRequest :=
  mkHttp "192.0.2.1:5000" "POST" "/report"
    {["Authorization" := ["Bearer " +:+ token]; "User-Agent" := ["wgmesh-agent"]]}.
Definition ex_next (q : HttpRequest) : list write_event * caller := ([WriteHeader 401], None).
Definition ex_log (q : HttpRequest) : option accessLogLine * accessLogSink accessLogLine :=
  logRequests (λ _, "") (mkProxyTrust false []) 0 0 ex_next q
    (newAccessLogSink (mkLine "" "" "" "" 0 0 "" "" "" 0 "" ∅) accessLogMemory 10).
Lemma request_log_redacted_witness : ex_log (ex_http "one") = ex_log (ex_http "two").
Proof.
  apply (request_log_redacted (λ _, "") (mkProxyTrust false []) 0 0 ex_next (ex_http "one") (ex_http "two")).
  split_and!; [reflexivity..|]. intros k. destruct (decide (k = "Authorization")) as [->|Hne]; [done|].
  assert (hq_Header (ex_http "one") !! k = hq_Header (ex_http "two") !! k) as E.
  { cbn [hq_Header ex_http]. by rewrite !lookup_insert_ne by done. }
  rewrite E. by destruct (decide (credential_name k)).
Defined.

(** The PROXY header is believed from the same addresses as X-Forwarded-For. *)
Lemma proxy_header_same_rule trusted upstream host port :
  SplitHostPort upstream = Some (host, port) →
  proxyHeaderPolicy trusted upstream = trustsXFFFrom (mkProxyTrust false trusted) host.
Proof.
  intros E. unfold proxyHeaderPolicy, trustsXFFFrom. rewrite E. cbn [trustProxy trustedProxies].
  destruct trusted; [by destruct (ParseAddr host)|done].
Qed.
