(* ===== verification/AdminFacts.v ===== *)
(** * Every request against the store

    Every changing endpoint of the operators is one store operation followed by
    one audit entry and, when what agents are sent may have changed, a broadcast;
    a refused request changes nothing but, for a wrong password, the audit log.
    With the agents' endpoints, the relay and signalling connections, the
    retention loops and the command that makes a setup key, these are all the
    ways a server writes its store ([request]): it only ever moves by the steps of
    StoreMachine, and the store's invariants hold behind the API. *)
From S2P Require Import Prelude GoText WsHub TimeText NetAddr NetFacts Codec Sha256 Json Schema SchemaFacts Alloc Enroll EnrollFacts Visibility Admin Acl ExitNode Invariants Network Dns Users Telemetry TelemetryFacts Reports StoreMachine HostPort Psk ClientIP Candidates Punch PeerEntries EntryFacts Handlers HandlerFacts NumText AdminApi Session Mobile Signal Logs.

(** ** Requests *)
Inductive admin_op : Type :=
| AoLogin (form : option (string * string))
| AoChangePassword (salt : list Z) (b : body (string * string))
| AoUpdateDNS (b : body DNSConfig)
| AoMigrate (b : body networkMigrationRequest)
| AoCreateKey (raw : list Z) (b : body setupKeyRequest)
| AoRevokeKey (rawID : string)
| AoRevokePeer (rawID : string)
| AoRemovePeer (rawID : string)
| AoUpdateAddress (rawID : string) (b : body (string * string))
| AoSetExit (rawID : string) (b : body Z)
| AoImportACL (b : body aclImportRequest)
| AoCreateACL (b : body ACLRule)
| AoDeleteACL (rawID : string)
| AoCreateUser (salt : list Z) (b : body (string * string))
| AoDeleteUser (rawID : string)
| AoCreateMobile (fresh nonce rawKey rawToken : list Z) (b : body createMobilePeerRequest)
| AoShowMobile (rawID : string).

(** What agents are sent is computed from these. *)
Definition agent_view (w : World) : Server * Config * list Peer * list AclRow * gmap string string :=
  (w_server w, w_cfg w, peers (w_db w), acl_rules (w_db w), settings (w_db w)).

Definition announce (reason : option string) (a : Api) : Api :=
  match reason with Some x => signalSync x a | None => a end.

Section api.
Context (Quote : string → string) (ParseDuration : string → option Z).
Context (IDKey : list Z → list Z → Z → Z → Z → Z → list Z).
Context (ParseKey : string → option (list Z)) (PublicKey : list Z → list Z) (KeyString : list Z → string).

(** The credentials: the key cookies are signed with and the bearer token. *)
Context (sessionKey : list Z) (adminToken : string).

(** Whether the answer is a success, and the server after it. *)
Definition ok_of {A} (x : reply A * Api) : bool * Api := (is_good x.1, x.2).
(** A request with its cookie, through the guard of its route: the login is open,
    one's own password needs a session, everything else the token or a session. *)
Definition admin_exec (now later : Z) (r : Request) (cookie : option string) (o : admin_op) (a : Api) : bool * Api :=
  let admin {A} (h : Api → reply A * Api) := ok_of (guarded sessionKey adminToken now r cookie h a) in
  match o with
  | AoLogin form => ok_of (handleUILogin sessionKey IDKey now later r form a)
  | AoChangePassword salt b =>
      ok_of (requireSession sessionKey now cookie (handleChangePassword sessionKey IDKey now later r salt b) a)
  | AoUpdateDNS b => admin (handleUpdateDNS later r b)
  | AoMigrate b => admin (handleApplyNetworkMigration later r b)
  | AoCreateKey raw b => admin (handleCreateSetupKey Quote ParseDuration now later r raw b)
  | AoRevokeKey i => admin (handleRevokeSetupKey now later r i)
  | AoRevokePeer i => admin (handleRevokePeer now later r i)
  | AoRemovePeer i => admin (handleRemovePeer later r i)
  | AoUpdateAddress i b => admin (handleUpdatePeerAddress later r i b)
  | AoSetExit i b => admin (handleSetExitNode later r i b)
  | AoImportACL b => admin (handleImportACL now later r b)
  | AoCreateACL b => admin (handleCreateACL Quote now later r b)
  | AoDeleteACL i => admin (handleDeleteACL later r i)
  | AoCreateUser salt b => admin (handleCreateUser IDKey now later r salt b)
  | AoDeleteUser i => admin (handleDeleteUser later r i)
  | AoCreateMobile f n rk rt b =>
      admin (handleCreateMobilePeer Quote ParseKey PublicKey KeyString now later f n rk rt r b)
  | AoShowMobile i => admin (handleStaticPeerConfig Quote KeyString later r i)
  end.

(** The requests whose refusal for a wrong password is recorded, and the one that
    can fail after its store operation. *)
Definition noted_refusal (o : admin_op) : option string :=
  match o with
  | AoLogin _ => Some "ui_login_failed"
  | AoChangePassword _ _ => Some "password_change_failed"
  | _ => None
  end.
Definition renders_dns (o : admin_op) : bool := match o with AoCreateMobile _ _ _ _ _ => true | _ => false end.

(** The networks the server announces are those addresses are given out from. *)
Definition network_agrees (w : World) : Prop :=
  currentNetworkConfig w = mkNetworkConfig (prefix_string (network (w_cfg w))) (prefix_string (Network6 (w_cfg w))).
(** Steps of the store that leave both the networks and the server's copy alone. *)
Definition moves (w w' : World) : Prop :=
  rtc (step IDKey) (w_store w) (w_store w') ∧ (network_agrees w → network_agrees w').

Lemma moves_refl w : moves w w.
Proof using. by split. Qed.
Lemma moves_trans w w' w'' : moves w w' → moves w' w'' → moves w w''.
Proof using. intros [H1 H2] [H3 H4]. split; [by etransitivity|auto]. Qed.
Lemma moves_run {A} o (m : tx DB A) w :
  exec IDKey o (w_store w) = run_db m (w_store w) → moves w (with_db (run_tx m (w_db w)).2 w).
Proof using.
  intros He. split; [|done]. apply rtc_once.
  replace (w_store (with_db _ w)) with (exec IDKey o (w_store w)) by (by rewrite He). apply step_op.
Qed.
Lemma moves_audit now r who event status detail w : moves w (audit now r who event status detail w).
Proof using. unfold audit.
  match goal with |- context [Audit now ?e] => exact (moves_run (OpAudit now e) (Audit now e) w eq_refl) end. Qed.

(** ** The shape of every handler *)
Inductive outcome (o : admin_op) (later : Z) (r : Request) (a : Api) : bool * Api → Prop :=
| out_refused : outcome o later r a (false, a)
| out_noted event detail :
    noted_refusal o = Some event → outcome o later r a (false, on_world (audit later r None event 401 detail) a)
| out_unrendered w :
    renders_dns o = true → is_ok (CurrentDNSConfig (a_db a)) = false → moves (ap_world a) w →
    audit_log (w_db w) = audit_log (a_db a) → outcome o later r a (false, mkApi w (ap_syncs a))
| out_done w event detail reason :
    moves (ap_world a) w →
    length (audit_log (w_db w)) = length (audit_log (a_db a)) →
    (reason = None → agent_view w = agent_view (ap_world a)) →
    outcome o later r a (true, announce reason (admin_audit later r event detail (mkApi w (ap_syncs a)))).

Lemma outcome_guarded {A} o now later r cookie (h : Api → reply A * Api) a :
  outcome o later r a (ok_of (h a)) → outcome o later r a (ok_of (guarded sessionKey adminToken now r cookie h a)).
Proof using. unfold guarded. case_match; [done|]. intros _. apply out_refused. Qed.

Lemma a_run_cases {A} (m : tx DB A) a :
  (∃ e, a_run m a = (Err e, a)) ∨
  ∃ x db, a_run m a = (Ok x, on_world (with_db db) a) ∧ m (a_db a) = Ok (x, db).
Proof using.
  unfold a_run, run_tx. destruct (m (a_db a)) as [[x db]|e] eqn:E; [right; by eauto|left].
  exists e. f_equal. unfold on_world, a_db. rewrite with_db_same. by destruct a.
Qed.

(** A successful transaction is the step of its operation. *)
Lemma outcome_run {A} q o (m : tx DB A) later r a x db event detail reason :
  exec IDKey o (w_store (ap_world a)) = run_db m (w_store (ap_world a)) →
  m (a_db a) = Ok (x, db) →
  length (audit_log db) = length (audit_log (a_db a)) →
  (reason = None → peers db = peers (a_db a) ∧ acl_rules db = acl_rules (a_db a) ∧ settings db = settings (a_db a)) →
  outcome q later r a (true, announce reason (admin_audit later r event detail (on_world (with_db db) a))).
Proof using.
  intros He Hm Hl Hv. apply (out_done q later r a (with_db db (ap_world a)) event detail reason).
  - split; [|done]. apply rtc_once. replace (w_store (with_db db (ap_world a))) with (exec IDKey o (w_store (ap_world a))).
    + apply step_op.
    + rewrite He. unfold run_db, run_tx. change (sdb (w_store (ap_world a))) with (a_db a). by rewrite Hm.
  - exact Hl.
  - intros E. destruct (Hv E) as (E1 & E2 & E3). unfold agent_view.
    change (w_db (with_db db (ap_world a))) with db. rewrite E1, E2, E3. done.
Qed.

Ltac handler_cases :=
  repeat first
    [ match goal with |- context [DecodeJSON _ ?b] => destruct b; cbn [DecodeJSON]; [apply out_refused|apply out_refused|] end
    | match goal with |- context [ParseInt ?s] => destruct (ParseInt s); [|apply out_refused] end ].
Ltac run_cases :=
  match goal with |- context [a_run ?m ?a] =>
    let e := fresh "e" in let x := fresh "x" in let db := fresh "db" in let E := fresh "E" in let Hm := fresh "Hm" in
    destruct (a_run_cases m a) as [(e & E)|(x & db & E & Hm)]; rewrite E;
    [try (destruct e; apply out_refused); apply out_refused|]
  end.

(** None of the operations touches the length of the audit log. *)
Definition log_kept {A} (m : tx DB A) : Prop :=
  ∀ db x db', m db = Ok (x, db') → length (audit_log db') = length (audit_log db).
Lemma UpdateDNSConfig_log c : log_kept (UpdateDNSConfig c).
Proof using. intros db x db'. unfold UpdateDNSConfig, saveDNSConfig, upsertSetting. intros H. by tx_simpl. Qed.
Lemma CreateNamedSetupKey_log now raw name m e : log_kept (CreateNamedSetupKey now raw name m e).
Proof using.
  intros db x db' H. apply tx_bind_Ok in H as (i & s1 & (_ & -> & _)%insert_key_Ok & [= _ <-]). done.
Qed.
Lemma RevokeSetupKey_log now id : log_kept (RevokeSetupKey now id).
Proof using. intros db x db'. unfold RevokeSetupKey. case_match; [done|]. by intros [= _ <-]. Qed.
Lemma RevokePeer_log now id : log_kept (RevokePeer now id).
Proof using. by intros db x db' [-> _]%RevokePeer_Ok. Qed.
Lemma RemovePeer_log id : log_kept (RemovePeer id).
Proof using. intros db x db'. unfold RemovePeer. case_match; [done|]. intros [= _ <-]. cbn. by rewrite length_fmap. Qed.
Lemma UpdatePeerAddress_log c id ip ip6 : log_kept (UpdatePeerAddress c id ip ip6).
Proof using. by intros db x db' (? & ? & _ & _ & _ & -> & _)%UpdatePeerAddress_Ok. Qed.
Lemma SetExitNode_log id exit : log_kept (SetExitNode id exit).
Proof using. by intros db x db' (? & _ & _ & _ & _ & -> & _)%SetExitNode_Ok. Qed.
Lemma insertACLRule_log now rule : log_kept (insertACLRule now rule).
Proof using. by intros db x db' (? & _ & _ & _ & _ & _ & -> & _)%insertACLRule_Ok. Qed.
Lemma ImportACLRules_log now rules b : log_kept (ImportACLRules now rules b).
Proof using.
  intros db x db' H. unfold ImportACLRules in H. apply tx_bind_Ok in H as (u & s1 & H1 & H).
  apply tx_bind_Ok in H as (u2 & s2 & H2 & H). injection H as _ <-.
  assert (length (audit_log s1) = length (audit_log db)) as <- by (destruct b; by injection H1 as _ <-).
  apply (tx_iter_invariant (λ s, length (audit_log s) = length (audit_log s1)) _ _ _ _ _) in H2; [done| |done].
  intros y s u3 s' Hs Hx. apply tx_bind_Ok in Hx as (j & s3 & Hx & Hm). injection Hm as _ <-.
  by rewrite (insertACLRule_log _ _ _ _ _ Hx).
Qed.
Lemma DeleteACLRule_log id : log_kept (DeleteACLRule id).
Proof using. intros db x db'. unfold DeleteACLRule. case_match; [done|]. by intros [= _ <-]. Qed.
Lemma CreateLocalUser_log now salt u p : log_kept (CreateLocalUser IDKey now salt u p).
Proof using. by intros db x db' (n & i & _ & (_ & _ & ->)%insert_user_Ok & _)%CreateLocalUser_Ok. Qed.
Lemma DeleteUser_log id : log_kept (DeleteUser id).
Proof using. intros db x db'. unfold DeleteUser. do 2 (case_match; [done|]). by intros [= _ <-]. Qed.

Ltac announced o lem :=
  eapply (outcome_run _ o _ _ _ _ _ _ _ _ (Some _)); [reflexivity|eassumption|eapply lem; eassumption|done].

(** ** The handlers one by one *)
Lemma handleUpdateDNS_outcome q later r b a : outcome q later r a (ok_of (handleUpdateDNS later r b a)).
Proof using. unfold handleUpdateDNS. handler_cases. run_cases. announced (OpUpdateDNS a0) UpdateDNSConfig_log. Qed.
Lemma handleCreateSetupKey_outcome q now later r raw b a :
  outcome q later r a (ok_of (handleCreateSetupKey Quote ParseDuration now later r raw b a)).
Proof using.
  unfold handleCreateSetupKey. handler_cases. destruct (if decide _ then _ else _) as [e|]; [|apply out_refused].
  run_cases.
  eapply (outcome_run _ (OpCreateKey now raw (kr_Name a0) (kr_MaxUses a0) e) _ _ _ _ _ _ _ _ None);
    [reflexivity|eassumption|by eapply CreateNamedSetupKey_log|intros _].
  apply tx_bind_Ok in Hm as (i & s1 & (_ & -> & _)%insert_key_Ok & [= _ <-]). done.
Qed.
Lemma handleRevokeSetupKey_outcome q now later r i a :
  outcome q later r a (ok_of (handleRevokeSetupKey now later r i a)).
Proof using.
  unfold handleRevokeSetupKey, handleRevoke. handler_cases. run_cases.
  eapply (outcome_run _ (OpRevokeKey now z) _ _ _ _ _ _ _ _ None);
    [reflexivity|eassumption|by eapply RevokeSetupKey_log|intros _].
  unfold RevokeSetupKey in Hm. case_match; [done|]. by injection Hm as _ <-.
Qed.
Lemma handleRevokePeer_outcome q now later r i a : outcome q later r a (ok_of (handleRevokePeer now later r i a)).
Proof using.
  unfold handleRevokePeer, handleRevoke. handler_cases. run_cases. announced (OpRevokePeer now z) RevokePeer_log.
Qed.
Lemma handleRemovePeer_outcome q later r i a : outcome q later r a (ok_of (handleRemovePeer later r i a)).
Proof using. unfold handleRemovePeer. handler_cases. run_cases. announced (OpRemovePeer z) RemovePeer_log. Qed.
Lemma handleUpdatePeerAddress_outcome q later r i b a :
  outcome q later r a (ok_of (handleUpdatePeerAddress later r i b a)).
Proof using.
  unfold handleUpdatePeerAddress. handler_cases. destruct a0 as [ip ip6]. run_cases.
  announced (OpUpdateAddress z ip ip6) UpdatePeerAddress_log.
Qed.
Lemma handleSetExitNode_outcome q later r i b a : outcome q later r a (ok_of (handleSetExitNode later r i b a)).
Proof using. unfold handleSetExitNode. handler_cases. run_cases. announced (OpSetExit z a0) SetExitNode_log. Qed.
Lemma handleImportACL_outcome q now later r b a : outcome q later r a (ok_of (handleImportACL now later r b a)).
Proof using.
  unfold handleImportACL. handler_cases. run_cases.
  announced (OpImportRules now (import_rule <$> ai_Rules a0) (default true (ai_Replace a0))) ImportACLRules_log.
Qed.
Lemma handleCreateACL_outcome q now later r b a : outcome q later r a (ok_of (handleCreateACL Quote now later r b a)).
Proof using.
  unfold handleCreateACL. handler_cases. run_cases. announced (OpCreateRule now (import_rule a0)) insertACLRule_log.
Qed.
Lemma handleDeleteACL_outcome q later r i a : outcome q later r a (ok_of (handleDeleteACL later r i a)).
Proof using. unfold handleDeleteACL. handler_cases. run_cases. announced (OpDeleteRule z) DeleteACLRule_log. Qed.
Lemma handleCreateUser_outcome q now later r salt b a :
  outcome q later r a (ok_of (handleCreateUser IDKey now later r salt b a)).
Proof using.
  unfold handleCreateUser. handler_cases. destruct a0 as [u p]. run_cases.
  eapply (outcome_run _ (OpCreateUser now salt u p) _ _ _ _ _ _ _ _ None);
    [reflexivity|eassumption|by eapply CreateLocalUser_log|intros _].
  by apply CreateLocalUser_Ok in Hm as (n & i & _ & (_ & _ & ->)%insert_user_Ok & _).
Qed.
Lemma handleDeleteUser_outcome q later r i a : outcome q later r a (ok_of (handleDeleteUser later r i a)).
Proof using.
  unfold handleDeleteUser. handler_cases. run_cases.
  eapply (outcome_run _ (OpDeleteUser z) _ _ _ _ _ _ _ _ None);
    [reflexivity|eassumption|by eapply DeleteUser_log|intros _].
  unfold DeleteUser in Hm. do 2 (case_match; [done|]). by injection Hm as _ <-.
Qed.

Lemma migration_log t4 t6 s plan s' :
  ApplyNetworkMigration t4 t6 s = (Ok plan, s') → length (audit_log (sdb s')) = length (audit_log (sdb s)).
Proof using.
  unfold ApplyNetworkMigration, run_store.
  match goal with |- context [match ?m (sdb s) with _ => _ end] => set (body := m) end.
  destruct (body (sdb s)) as [[x db]|e] eqn:E; [|done]. intros [= _ <-]. cbn [sdb]. unfold body in E.
  apply tx_bind_Ok in E as (pl & s1 & [_ ->]%tx_query_Ok & E).
  apply tx_bind_Ok in E as (u1 & s2 & H1 & E). apply tx_bind_Ok in E as (u2 & s3 & H2 & E).
  assert (∀ (f : NetworkPeerChange → Z * string * string) l s s' u,
    tx_iter (λ c, update_addrs (f c)) l s = Ok (u, s') → length (audit_log s') = length (audit_log s)) as Hi.
  { intros f l s0 s0' u H.
    apply (tx_iter_invariant (λ t, length (audit_log t) = length (audit_log s0)) _ _ _ _ _) in H; [done| |done].
    intros c t v t' Ht Hu. unfold update_addrs, put_peers in Hu. apply tx_bind_Ok in Hu as (ps & t1 & [= <- <-] & Hu).
    case_match; [|done]. by injection Hu as _ <-. }
  apply Hi in H1, H2. unfold upsertSetting in E. tx_simpl. congruence.
Qed.
Lemma parse_target req t4 t6 :
  parseNetworkMigrationTarget req = Ok (t4, t6) → parseNetworkConfig (nm_CIDR req) (nm_CIDR6 req) = Ok (t4, t6).
Proof using.
  unfold parseNetworkMigrationTarget, parseNetworkConfig, parseNetwork4, parseNetwork6, mbind, result_bind.
  destruct (ParsePrefix (nm_CIDR req)) as [n4|]; [|done]. destruct (Is4 (paddr n4)); [|done].
  destruct (ParsePrefix (nm_CIDR6 req)) as [n6|]; [|done]. by destruct (Is6 (paddr n6)).
Qed.
Lemma parsed_masked raw4 raw6 t4 t6 :
  parseNetworkConfig raw4 raw6 = Ok (t4, t6) → Masked t4 = t4 ∧ Masked t6 = t6.
Proof using.
  unfold parseNetworkConfig. destruct (ParsePrefix raw4) as [n4|] eqn:P4; [|done]. case_match; [done|].
  destruct (ParsePrefix raw6) as [n6|] eqn:P6; [|done]. case_match; [done|]. intros [= <- <-].
  destruct (ParsePrefix_ok _ _ P4), (ParsePrefix_ok _ _ P6). split; by apply parse_masked.
Qed.
Lemma migration_agrees raw4 raw6 t4 t6 s plan s' srv sig :
  parseNetworkConfig raw4 raw6 = Ok (t4, t6) → ApplyNetworkMigration t4 t6 s = (Ok plan, s') →
  network_agrees (setNetworkConfig (pl_Target plan) (mkWorld srv s' sig)).
Proof using.
  intros [M4 M6]%parsed_masked. unfold ApplyNetworkMigration, run_store. rewrite M4, M6.
  match goal with |- context [match ?m (sdb s) with _ => _ end] => set (body := m) end.
  destruct (body (sdb s)) as [[x db]|e] eqn:E; [|done]. intros [= <- <-]. unfold body in E.
  apply tx_bind_Ok in E as (pl & s1 & [Hpl ->]%tx_query_Ok & E).
  apply tx_bind_Ok in E as (u1 & s2 & _ & E). apply tx_bind_Ok in E as (u2 & s3 & _ & E).
  apply tx_bind_Ok in E as (u3 & s4 & _ & E). apply tx_bind_Ok in E as (u4 & s5 & _ & E). injection E as <- _.
  unfold buildNetworkMigrationPlan, mbind, result_bind in Hpl.
  destruct (firstOverlayHosts t4 _); [|done]. destruct (firstOverlayHosts t6 _); [|done]. injection Hpl as <-.
  unfold network_agrees, currentNetworkConfig, setNetworkConfig, w_cfg, setNetworks.
  cbn -[prefix_string Masked]. by rewrite M4, M6.
Qed.
Lemma handleApplyNetworkMigration_outcome q later r b a :
  outcome q later r a (ok_of (handleApplyNetworkMigration later r b a)).
Proof using.
  unfold handleApplyNetworkMigration. handler_cases. case_decide; [apply out_refused|].
  destruct (parseNetworkMigrationTarget a0) as [[t4 t6]|] eqn:Et; [|apply out_refused].
  destruct (ApplyNetworkMigration t4 t6 _) as [[plan|] st] eqn:Em; [|apply out_refused].
  eapply (out_done q later r a (setNetworkConfig (pl_Target plan) (mkWorld _ st _)) _ _ (Some _)); [|by eapply migration_log|done].
  pose proof (parse_target _ _ _ Et) as Hp. split.
  - apply rtc_once. replace st with (ApplyNetworkMigration t4 t6 (w_store (ap_world a))).2 by (by rewrite Em).
    eapply step_migrate, Hp.
  - intros _. by eapply migration_agrees.
Qed.

Lemma CurrentDNSConfig_settings db db' : settings db' = settings db → CurrentDNSConfig db' = CurrentDNSConfig db.
Proof using. unfold CurrentDNSConfig, loadDNSConfig. by intros ->. Qed.
Lemma handleCreateMobilePeer_outcome q now later r f n rk rt b a :
  renders_dns q = true → db_ok (a_db a) →
  outcome q later r a (ok_of (handleCreateMobilePeer Quote ParseKey PublicKey KeyString now later f n rk rt r b a)).
Proof using.
  intros Hq Hdb. unfold handleCreateMobilePeer. handler_cases.
  destruct (parseMobileKeys _ _ _ _ _ _) as [[code msg]|[[key pk] generated]]; [apply out_refused|].
  destruct (ParseKey _); [|apply out_refused]. destruct (validateMobileEndpoint _); [|apply out_refused].
  destruct (activePeerByPublicKey _ _) as [g|]; [|apply out_refused]. case_decide; [apply out_refused|].
  match goal with |- context [a_run ?m a] =>
    pose proof (moves_run (OpCreateStatic now rk rt _) m (ap_world a) eq_refl) as Hmv end.
  run_cases.
  destruct (CreateStaticPeer_row _ _ _ _ _ _ _ _ Hdb Hm) as (g' & ip & ip6 & kid & hash & _ & _ & Hset & Hlog & _).
  change (a_db (on_world (with_db db) a)) with db. rewrite (CurrentDNSConfig_settings _ _ Hset).
  destruct (CurrentDNSConfig (a_db a)) as [dns|] eqn:Ed.
  - eapply (outcome_run _ (OpCreateStatic now rk rt _) _ _ _ _ _ _ _ _ (Some _)); [reflexivity|exact Hm|by rewrite Hlog|done].
  - change (w_db (ap_world a)) with (a_db a) in Hmv. apply run_tx_Ok in Hm. rewrite Hm in Hmv.
    apply (out_unrendered q later r a (with_db db (ap_world a))); [done|by rewrite Ed|exact Hmv|exact Hlog].
Qed.
Lemma SetPassword_kept now salt id p db x db' : SetPassword IDKey now salt id p db = Ok (x, db') →
  audit_log db' = audit_log db ∧ peers db' = peers db ∧ acl_rules db' = acl_rules db ∧ settings db' = settings db.
Proof using.
  by intros (_ & _ & ->)%SetPassword_Ok.
Qed.
Lemma handleUILogin_outcome now later r form a :
  outcome (AoLogin form) later r a (ok_of (handleUILogin sessionKey IDKey now later r form a)).
Proof using.
  unfold handleUILogin. destruct form as [[u p]|]; [|apply out_refused].
  destruct (Authenticate _ _ _ _) as [usr|e]; [|by apply out_noted].
  pose proof (out_done (AoLogin (Some (u, p))) later r a (ap_world a) "ui_login" ("user=" +:+ us_Username usr) None
    (moves_refl _) eq_refl (λ _, eq_refl)) as Ho. by destruct a.
Qed.
Lemma handleChangePassword_outcome now later r cookie salt b a :
  outcome (AoChangePassword salt b) later r a
    (ok_of (requireSession sessionKey now cookie (handleChangePassword sessionKey IDKey now later r salt b) a)).
Proof using.
  unfold requireSession. destruct (sessionUser _ _ _ _) as [u|]; [|apply out_refused].
  unfold handleChangePassword. destruct b as [| |[current new]]; cbn [DecodeJSON]; [apply out_refused..|].
  destruct (Authenticate _ _ _ _) as [usr|e]; [|by apply out_noted].
  run_cases. destruct (SetPassword_kept _ _ _ _ _ _ _ Hm) as (Hl & Hp & Hr & Hs).
  eapply (outcome_run _ (OpSetPassword now salt (us_ID u) new) _ _ _ _ _ _ _ _ None); [reflexivity|exact Hm|by rewrite Hl|done].
Qed.
Lemma handleStaticPeerConfig_outcome q later r i a :
  outcome q later r a (ok_of (handleStaticPeerConfig Quote KeyString later r i a)).
Proof using.
  unfold handleStaticPeerConfig. handler_cases.
  destruct (getPeerInfo z _) as [p|e]; [|destruct e; apply out_refused].
  case_decide; [apply out_refused|]. case_decide; [apply out_refused|]. case_match; [apply out_refused|].
  destruct (SealedPrivateKey _ _) as [sealed|e]; [|destruct e; apply out_refused].
  destruct (Open _ _ _); [|apply out_refused]. destruct (getPeerInfo (pi_GatewayPeerID p) _) as [g|e]; [|apply out_refused].
  destruct (CurrentDNSConfig _); [|apply out_refused].
  pose proof (out_done q later r a (ap_world a) "mobile_peer_config_view"
    ("peer id=" +:+ Itoa (pi_ID p) +:+ " gateway_peer=" +:+ Itoa (pi_ID g)) None (conj (rtc_refl _ _) (λ H, H)) eq_refl (λ _, eq_refl)) as Ho.
  by destruct a.
Qed.

Lemma admin_exec_outcome now later r cookie o a :
  db_ok (a_db a) → outcome o later r a (admin_exec now later r cookie o a).
Proof using.
  intros Hdb. destruct o; cbn [admin_exec]; [apply handleUILogin_outcome|apply handleChangePassword_outcome|..];
    apply outcome_guarded;
    eauto using handleUpdateDNS_outcome, handleApplyNetworkMigration_outcome, handleCreateSetupKey_outcome,
      handleRevokeSetupKey_outcome, handleRevokePeer_outcome, handleRemovePeer_outcome,
      handleUpdatePeerAddress_outcome, handleSetExitNode_outcome, handleImportACL_outcome, handleCreateACL_outcome,
      handleDeleteACL_outcome, handleCreateUser_outcome, handleDeleteUser_outcome, handleCreateMobilePeer_outcome,
      handleStaticPeerConfig_outcome.
Qed.


(** ** The server as a whole *)
Context (KeyOk ResolveUDPAddr : string → bool).
(** All that writes the store while a server runs: the operators' requests, the
    agents' (with the end of the connections they keep open), the retention
    loops, and the command that makes a setup key beside the server.  What is not
    in the store is given: the relay's answer to an allocation, whether an
    upgrade succeeds.  The listings and relay-quic only read. *)
Inductive request : Type :=
| RqAdmin (now later : Z) (r : Request) (cookie : option string) (o : admin_op)
| RqEnroll (now later : Z) (raw : list Z) (r : Request) (b : body EnrollRequest)
| RqReport (now later n1 n2 : Z) (r : Request) (b : body ReportRequest)
| RqRelayPair (now later : Z) (relayHost : string) (relay : option alloc_answer) (r : Request) (b : body string)
| RqRelayWS (now later : Z) (r : Request) (enabled : bool) (target : string) (upgraded : bool)
| RqRelayWSClosed (later : Z) (r : Request) (who : Z * string) (pairID : string)
| RqSignal (now later : Z) (r : Request) (upgraded : option conn)
| RqSignalClosed (later : Z) (r : Request) (who : Z * string)
| RqPruneFlows (now retention : Z)
| RqPruneAudit (now retention : Z)
| RqKeyCommand (now : Z) (raw : list Z) (name : string) (maxUses expiresIn : Z).
Definition in_world (f : World → World) (a : Api) : Api := mkApi (f (ap_world a)) (ap_syncs a).
Definition serve (q : request) (a : Api) : Api :=
  match q with
  | RqAdmin now later r cookie o => (admin_exec now later r cookie o a).2
  | RqEnroll now later raw r b =>
      in_world (λ w, (handleEnroll KeyOk ResolveUDPAddr KeyString now later raw r b w).2) a
  | RqReport now later n1 n2 r b =>
      in_world (λ w, (handleReport ResolveUDPAddr KeyString now later n1 n2 r b w).2) a
  | RqRelayPair now later relayHost relay r b =>
      in_world (λ w, (relay_pair (λ _ answer, (answer, answer)) relayHost now later r b relay w).2) a
  | RqRelayWS now later r enabled target upgraded =>
      in_world (λ w, (handleRelayWS now later r enabled target upgraded w).2) a
  | RqRelayWSClosed later r who pairID => in_world (relay_ws_closed later r who pairID) a
  | RqSignal now later r upgraded => in_world (λ w, (handleSignalWS now later r upgraded w).2) a
  | RqSignalClosed later r who => in_world (signal_closed later r who) a
  | RqPruneFlows now retention => in_world (λ w, with_db (prune_flows_pass now retention (w_db w)) w) a
  | RqPruneAudit now retention => in_world (λ w, with_db (prune_audit_pass now retention (w_db w)) w) a
  | RqKeyCommand now raw name maxUses expiresIn =>
      in_world (λ w, with_db (run_tx (CreateNamedSetupKey now raw name maxUses expiresIn) (w_db w)).2 w) a
  end.

Lemma rtc_reachable s s' : rtc (step IDKey) s s' → reachable IDKey s s'.
Proof using.
  revert s'. apply rtc_ind_r; [apply reach_start|]. intros y z _ Hs Hy. by eapply reach_step.
Qed.
Lemma outcome_moves o later r a x : outcome o later r a x → moves (ap_world a) (ap_world x.2).
Proof using.
  intros [|event detail _|w _ _ Hm _|w event detail reason Hm _ _]; [apply moves_refl|apply moves_audit|exact Hm|].
  eapply moves_trans; [exact Hm|]. destruct reason; apply moves_audit.
Qed.
Lemma moves_guarded {A} now r cookie (h : Api → reply A * Api) a :
  moves (ap_world a) (ap_world (ok_of (h a)).2) →
  moves (ap_world a) (ap_world (ok_of (guarded sessionKey adminToken now r cookie h a)).2).
Proof using. unfold guarded. case_match; [done|]. intros _. apply moves_refl. Qed.
Lemma mobile_moves now later r f n rk rt b a :
  moves (ap_world a)
    (ap_world (handleCreateMobilePeer Quote ParseKey PublicKey KeyString now later f n rk rt r b a).2).
Proof using.
  unfold handleCreateMobilePeer. destruct b as [| |req]; cbn [DecodeJSON]; [apply moves_refl..|].
  destruct (parseMobileKeys _ _ _ _ _ _) as [[code msg]|[[key pk] generated]]; [apply moves_refl|].
  destruct (ParseKey _); [|apply moves_refl]. destruct (validateMobileEndpoint _); [|apply moves_refl].
  destruct (activePeerByPublicKey _ _) as [g|]; [|apply moves_refl]. case_decide; [apply moves_refl|].
  match goal with |- context [a_run ?m a] =>
    pose proof (moves_run (OpCreateStatic now rk rt _) m (ap_world a) eq_refl) as Hm;
    destruct (a_run_cases m a) as [(e & E)|(x & db & E & Hok)]; rewrite E end; [destruct e; apply moves_refl|].
  change (w_db (ap_world a)) with (a_db a) in Hm. apply run_tx_Ok in Hok. rewrite Hok in Hm. cbn [snd] in Hm.
  destruct (CurrentDNSConfig _); [|exact Hm]. eapply moves_trans; [exact Hm|]. apply moves_audit.
Qed.
Lemma admin_moves now later r cookie o a :
  moves (ap_world a) (ap_world (admin_exec now later r cookie o a).2).
Proof using.
  destruct o; cbn [admin_exec];
    [eapply outcome_moves, handleUILogin_outcome|eapply outcome_moves, handleChangePassword_outcome|..];
    apply moves_guarded;
    first [apply mobile_moves | eapply (outcome_moves (AoLogin None));
      eauto using handleUpdateDNS_outcome, handleApplyNetworkMigration_outcome, handleCreateSetupKey_outcome,
      handleRevokeSetupKey_outcome, handleRevokePeer_outcome, handleRemovePeer_outcome,
      handleUpdatePeerAddress_outcome, handleSetExitNode_outcome, handleImportACL_outcome, handleCreateACL_outcome,
      handleDeleteACL_outcome, handleCreateUser_outcome, handleDeleteUser_outcome, handleStaticPeerConfig_outcome].
  Unshelve. all: exact 0 || exact r.
Qed.

Lemma enroll_moves now later raw r b w :
  moves w (handleEnroll KeyOk ResolveUDPAddr KeyString now later raw r b w).2.
Proof using.
  unfold handleEnroll. destruct b as [| |req]; cbn [DecodeJSON]; [apply moves_refl..|].
  case_decide; [apply moves_refl|]. case_match; [apply moves_refl|]. case_match; [apply moves_refl|].
  match goal with |- context [run_tx ?m (w_db w)] =>
    pose proof (moves_run (OpEnroll now raw _ _ _ _ _ _) m w eq_refl) as Hm;
    destruct (run_tx m (w_db w)) as [[res|e] db] end; cbn [snd] in Hm.
  2: { destruct e; try exact Hm. eapply moves_trans; [exact Hm|apply moves_audit]. }
  eapply moves_trans; [exact Hm|].
  assert (moves (with_db db w) (enroll_candidates ResolveUDPAddr req (er_Peer res) (with_db db w)).2) as Hw1.
  { unfold enroll_candidates. case_decide; [apply moves_refl|].
    match goal with |- context [run_tx ?m ?d] =>
      pose proof (moves_run (OpCandidates _ _) m (with_db db w) eq_refl) as Hx; destruct (run_tx m d) as [[?|?] ?] end; exact Hx. }
  destruct (enroll_candidates _ _ _ _) as [p1 w1]. cbn [snd] in Hw1. eapply moves_trans; [exact Hw1|].
  assert (moves w1 (enroll_offer req p1 w1).2) as Hw2.
  { unfold enroll_offer. case_match; [apply moves_refl|].
    match goal with |- context [run_tx ?m ?d] =>
      pose proof (moves_run (OpAdvertise _ _) m w1 eq_refl) as Hx; destruct (run_tx m d) as [[?|?] ?] end; exact Hx. }
  destruct (enroll_offer req p1 w1) as [p2 w2]. cbn [snd] in Hw2. eapply moves_trans; [exact Hw2|].
  match goal with |- context [buildResponse KeyString (w_server ?x) _ _ _] => set (w3 := x) end.
  assert (moves w2 w3) as Hw3 by (unfold w3; case_match; apply moves_audit).
  by destruct (buildResponse _ _ _ _ _).
Qed.
Lemma report_moves now later n1 n2 r b w :
  moves w (handleReport ResolveUDPAddr KeyString now later n1 n2 r b w).2.
Proof using.
  unfold handleReport, authenticate. destruct (CutPrefix _ _) as [token|]; [|apply moves_refl].
  destruct (AuthenticatePeer _ _ _ _) as [[id ip]|e]; [|destruct e; try apply moves_refl; apply moves_audit].
  destruct b as [| |rq]; cbn [DecodeJSON]; [apply moves_refl..|].
  match goal with |- context [run_tx ?m (w_db w)] =>
    pose proof (moves_run (OpReport now id _ _) m w eq_refl) as Hm;
    destruct (run_tx m (w_db w)) as [[res|e] db] end; cbn [snd] in Hm; [|exact Hm].
  destruct (PeersForID _ _ _) as [[self others]|]; [|exact Hm].
  destruct (coordinatePunches _ _ _ _ _ _ _ _) as [m sig].
  by destruct (CurrentDNSConfig _).
Qed.
(** An answer or, refused, at most an audit entry. *)
Lemma authenticate_moves {A} now later event r w (rep : reply A) w' :
  authenticate now later event r w = inl (rep, w') → moves w w'.
Proof using.
  unfold authenticate. destruct (CutPrefix _ _) as [token|]; [|intros [= _ <-]; apply moves_refl].
  destruct (AuthenticatePeer _ _ _ _) as [[id ip]|e]; [done|].
  destruct e; intros [= _ <-]; first [apply moves_refl|apply moves_audit].
Qed.
Lemma relay_pair_moves {R} (allocate : string → R → alloc_answer * R) host now later r b relay w :
  moves w (relay_pair allocate host now later r b relay w).2.
Proof using.
  unfold relay_pair. destruct (authenticate _ _ _ _ _) as [[rep w']|[id ip]] eqn:E; [by eapply authenticate_moves|].
  repeat case_match; first [apply moves_refl|apply moves_audit].
Qed.
Lemma relay_ws_moves now later r enabled target upgraded w :
  moves w (handleRelayWS now later r enabled target upgraded w).2.
Proof using.
  unfold handleRelayWS. destruct enabled; cbn [negb]; [|apply moves_refl].
  destruct (authenticate _ _ _ _ _) as [[rep w']|[id ip]] eqn:E; [by eapply authenticate_moves|].
  repeat case_match; first [apply moves_refl|apply moves_audit].
Qed.
Lemma signal_ws_moves now later r upgraded w : moves w (handleSignalWS now later r upgraded w).2.
Proof using.
  unfold handleSignalWS. destruct (authenticate _ _ _ _ _) as [[rep w']|[id ip]] eqn:E; [by eapply authenticate_moves|].
  repeat case_match; first [apply moves_refl|apply moves_audit].
Qed.
Lemma prune_audit_moves now retention w : moves w (with_db (prune_audit_pass now retention (w_db w)) w).
Proof using.
  unfold prune_audit_pass.
  eapply moves_trans; [apply (moves_run (OpPruneAudit now retention) (PruneAuditLog now retention) w eq_refl)|].
  eapply moves_trans; [apply (moves_run (OpPruneConnections now retention) (PruneConnectionEvents now retention) _ eq_refl)|].
  apply (moves_run (OpPruneProxy now retention) (PruneProxyEvents now retention)
    (with_db _ (with_db _ w)) eq_refl).
Qed.
Lemma serve_moves q a : moves (ap_world a) (ap_world (serve q a)).
Proof using.
  destruct q; cbn [serve in_world ap_world];
    [apply admin_moves|apply enroll_moves|apply report_moves|apply relay_pair_moves|apply relay_ws_moves|apply moves_audit
    |apply signal_ws_moves|apply moves_audit|apply (moves_run (OpPruneFlows now retention) _ _ eq_refl)
    |apply prune_audit_moves|apply (moves_run (OpCreateKey now raw name maxUses expiresIn) _ _ eq_refl)].
Qed.

(** C10: a server that starts with an empty store and valid networks, and
    announces the networks it allocates from, keeps to the store's state
    machine.  Let it answer any sequence of requests one after another: the
    operators' endpoints through their guards, login and change of password
    included; enrollments and reports; relay allocations, relay and signalling
    connections that open and close; passes of the retention loops; and the
    command that makes a setup key.  Then its store has only taken steps of the
    store's machine; hence every invariant of reachable stores (addresses, key
    limits, routing, rules) holds in the running server, and the networks it
    announces to agents and operators are at all times the ones it allocates
    addresses from. *)
Theorem server_refines_store c srv qs :
  nets_ok c → network_agrees (mkWorld srv (fresh_store c) []) →
  let a := foldl (λ a q, serve q a) (mkApi (mkWorld srv (fresh_store c) []) []) qs in
  reachable IDKey (fresh_store c) (w_store (ap_world a))
  ∧ mesh_ok (w_store (ap_world a)) ∧ network_agrees (ap_world a).
Proof using.
  intros Hn Hag. set (a0 := mkApi (mkWorld srv (fresh_store c) []) []).
  assert (∀ qs a, moves (ap_world a0) (ap_world a) →
    moves (ap_world a0) (ap_world (foldl (λ a q, serve q a) a qs))) as H.
  { intros l. induction l as [|q l IH]; intros a Ha; [done|]. cbn [foldl]. apply IH.
    eapply moves_trans; [exact Ha|apply serve_moves]. }
  destruct (H qs a0 (moves_refl _)) as [Hs Hnet].
  assert (reachable IDKey (fresh_store c) (w_store (ap_world (foldl (λ a q, serve q a) a0 qs)))) as Hr.
  { apply rtc_reachable, Hs. }
  split_and!; [done|by eapply reachable_mesh|by apply Hnet].
Qed.
End api.

(** ** Witnesses *)
Definition ex_bearer : Request := mkRequest "192.0.2.7:4000" [] "ui" "Bearer top" "POST" "/api/peers/1/revoke".
Definition ex_revoke : bool * Api :=
  admin_exec id (λ _, Some 0) pad_key ex_parse_key id ex_key_string [1] "top" 0 0 ex_bearer None (AoRevokePeer "1") ex_mobile_api.
Lemma ex_revoke_good : ex_revoke.1 = true.
Proof. vm_compute. reflexivity. Qed.
Lemma ex_revoke_view :
  bool_decide ((p_revoked_at <$> peers (a_db ex_revoke.2)) = (p_revoked_at <$> peers (a_db ex_mobile_api))) = false.
Proof. vm_compute. reflexivity. Qed.

(** Without the token the request is refused. *)
Example ex_revoke_unguarded :
  admin_exec id (λ _, Some 0) pad_key ex_parse_key id ex_key_string [1] "other" 0 0 ex_bearer None (AoRevokePeer "1") ex_mobile_api
  = (false, ex_mobile_api).
Proof. reflexivity. Qed.

Definition ex_cfg6 : Config :=
  mkConfig (mkPrefix (V4 1681915904) 24) (mkPrefix (V6 (0xfd00 * 2 ^ 112) "") 64) true (24 * Hour).
Definition ex_server6 : Server :=
  mkServer "100.64.0.0/24" "fd00::/64" (replicate 32 7) 0 None [] (mkProxyTrust false []) ∅.
Lemma ex_agrees6 : network_agrees (mkWorld ex_server6 (fresh_store ex_cfg6) []).
Proof. vm_compute. reflexivity. Qed.
Lemma ex_nets6 : nets_ok ex_cfg6.
Proof. split; vm_compute; done. Qed.
Definition ex_requests : list request :=
  [RqAdmin 0 0 ex_post None (AoLogin (Some ("admin", "guess")));
   RqAdmin 0 0 ex_bearer None (AoCreateKey [9; 9; 9] (Decoded (mkKeyReq "ci" 2 "")));
   RqEnroll 0 0 [1] ex_post (Decoded (mkEnrollRequest "CQkJ" "pubA" "a" 51820 "" [] false));
   RqAdmin 0 0 ex_bearer None (AoMigrate (Decoded (mkMigration "10.1.0.0/24" "fd01::/64" networkMigrationConfirm)));
   RqSignal 0 0 ex_post (Some 7); RqRelayPair 0 0 "relay.example" (Some (PortPair 40000 40001)) ex_post (Decoded "pubB");
   RqPruneAudit (90 * Hour) Hour].
Lemma server_refines_store_witness :
  let a := foldl (λ a q, serve id (λ _, Some 0) pad_key ex_parse_key id ex_key_string [1] "top" (λ _, true) (λ _, true) q a)
             (mkApi (mkWorld ex_server6 (fresh_store ex_cfg6) []) []) ex_requests in
  mesh_ok (w_store (ap_world a)) ∧ network_agrees (ap_world a).
Proof.
  apply (server_refines_store id (λ _, Some 0) pad_key ex_parse_key id ex_key_string [1] "top" (λ _, true) (λ _, true)
    ex_cfg6 ex_server6 ex_requests ex_nets6 ex_agrees6).
Defined.
(** The requests do take effect. *)
Example ex_requests_run :
  let a := foldl (λ a q, serve id (λ _, Some 0) pad_key ex_parse_key id ex_key_string [1] "top" (λ _, true) (λ _, true) q a)
             (mkApi (mkWorld ex_server6 (fresh_store ex_cfg6) []) []) ex_requests in
  p_assigned_ip <$> peers (a_db a) = ["10.1.0.1"].
Proof. vm_compute. reflexivity. Qed.
