(* ===== verification/LocalCandidates.v ===== *)
(** * The endpoints a host offers by itself

    cmd/agent/candidates.go: the addresses of the host's interfaces under which
    other peers may reach the WireGuard socket ([gatherLocalCandidates]), with
    the filter on addresses ([candidateAddr]) and the list of rotating IPv6
    addresses ([temporaryV6Addrs]).  The classification of addresses is the one
    of [net/netip].

    What the kernel reports is an argument: the interfaces with their flags and
    addresses, the latter as byte slices the way [net.IPNet] has them, and the
    IPv6 addresses with their flags that netlink lists. *)
From stdpp Require Import sorting.
From S2P Require Import Prelude GoText NetAddr NetFacts HostPort NumText Json Candidates.

(** ** Classes of addresses *)

(** [Addr.Unmap]: an IPv4 address mapped into IPv6 becomes IPv4. *)
Definition Unmap (a : Addr) : Addr :=
  match a with
  | V6 z _ => if Is4In6 z then V4 (z mod 2 ^ 32) else a
  | _ => a
  end.
Definition IsLinkLocalUnicast (a : Addr) : bool :=
  match Unmap a with
  | V4 z => z / 2 ^ 16 =? 169 * 2 ^ 8 + 254
  | V6 z _ => z / 2 ^ 118 =? 0x3FA
  | NoAddr => false
  end.
Definition IsLinkLocalMulticast (a : Addr) : bool :=
  match Unmap a with
  | V4 z => z / 2 ^ 8 =? 224 * 2 ^ 16
  | V6 z _ => Z.land (z / 2 ^ 112) 0xFF0F =? 0xFF02
  | NoAddr => false
  end.
Definition IsMulticast (a : Addr) : bool :=
  match Unmap a with
  | V4 z => z / 2 ^ 28 =? 0xE
  | V6 z _ => z / 2 ^ 120 =? 0xFF
  | NoAddr => false
  end.
Definition IsUnspecified (a : Addr) : bool := bool_decide (a = V4 0) || bool_decide (a = V6 0 "").
Definition IsGlobalUnicast (a : Addr) : bool :=
  match Unmap a with
  | NoAddr => false
  | V4 z => negb ((z =? 0) || (z =? 2 ^ 32 - 1)) && negb (IsLoopback (V4 z)) && negb (IsMulticast (V4 z))
            && negb (IsLinkLocalUnicast (V4 z))
  | V6 z zn => negb (bool_decide (V6 z zn = V6 0 "")) && negb (IsLoopback (V6 z zn))
               && negb (IsMulticast (V6 z zn)) && negb (IsLinkLocalUnicast (V6 z zn))
  end.
Definition IsPrivate (a : Addr) : bool :=
  match Unmap a with
  | V4 z => (z / 2 ^ 24 =? 10) || (z / 2 ^ 20 =? 172 * 2 ^ 4 + 1) || (z / 2 ^ 16 =? 192 * 2 ^ 8 + 168)
  | V6 z _ => z / 2 ^ 121 =? 0x7E
  | NoAddr => false
  end.

(** [netip.AddrFromSlice]: four or sixteen bytes. *)
Definition be (l : list Z) : Z := foldl (λ acc b, 256 * acc + b) 0 l.
Definition AddrFromSlice (l : list Z) : option Addr :=
  if decide (length l = 4%nat) then Some (V4 (be l))
  else if decide (length l = 16%nat) then Some (V6 (be l) "") else None.

(** [Addr.Less]: by width, then by number, then by zone. *)
Definition Less (a b : Addr) : bool :=
  (addr_width a <? addr_width b)
  || ((addr_width a =? addr_width b)
      && ((addr_num a <? addr_num b) || ((addr_num a =? addr_num b) && str_lt (addr_zone a) (addr_zone b)))).
Definition addr_le (a b : Addr) : Prop := Less b a = false.
#[export] Instance addr_le_dec : RelDecision addr_le.
Proof. intros a b. unfold addr_le. apply _. Defined.

Example classes :
  (IsPrivate <$> [V4 (10 * 2 ^ 24); V4 (172 * 2 ^ 24 + 31 * 2 ^ 16); V4 (172 * 2 ^ 24 + 32 * 2 ^ 16);
                  V6 (0xFD * 2 ^ 120) ""; V6 (0xFFFF * 2 ^ 32 + 10 * 2 ^ 24) ""])
  = [true; true; false; true; true].
Proof. reflexivity. Qed.

(** ** The host *)
Definition ifaceName : string := "wg-int".

(** [net.Interface] with its addresses, which may not be readable; an address
    that is no [*net.IPNet] is [None]. *)
Record Iface : Type := mkIface {
  if_Name : string; if_Up : bool; if_Loopback : bool; if_Addrs : option (list (option (list Z)))
}.

Definition IFA_F_TEMPORARY : Z := 0x01.
Definition IFA_F_DEPRECATED : Z := 0x20.
(** [listed]: flags and bytes of every IPv6 address, or [None] when netlink
    fails. *)
Definition temporaryV6Addrs (listed : option (list (Z * list Z))) : list Addr :=
  omap (λ '(flags, ip),
    if negb (Z.land flags IFA_F_TEMPORARY =? 0) || negb (Z.land flags IFA_F_DEPRECATED =? 0)
    then Unmap <$> AddrFromSlice ip else None) (default [] listed).

(** ** Candidates *)
Definition maxHostCandidates : nat := 4.
Definition maxHost6Candidates : nat := 2.
Definition cgnat : Prefix := mkPrefix (V4 (100 * 2 ^ 24 + 64 * 2 ^ 16)) 10.
Example cgnat_text : ParsePrefix "100.64.0.0/10" = Some cgnat.
Proof. reflexivity. Qed.

Definition candidateAddr (addr : Addr) (overlays : list Prefix) : bool :=
  if negb (addr_valid addr) || IsLoopback addr || IsLinkLocalUnicast addr
     || IsLinkLocalMulticast addr || IsMulticast addr || IsUnspecified addr then false
  else if existsb (λ p, prefix_valid p && Contains p addr) overlays then false
  else if Is4 addr then negb (Contains cgnat addr)
  else IsGlobalUnicast addr && negb (IsPrivate addr).

(** The addresses of one interface that pass the filter, and of all. *)
Definition iface_addrs (overlays : list Prefix) (i : Iface) : list Addr :=
  if negb (if_Up i) || if_Loopback i || bool_decide (if_Name i = ifaceName) then []
  else omap (λ x, raw ← x; a ← AddrFromSlice raw;
                  if candidateAddr (Unmap a) overlays then Some (Unmap a) else None)
         (default [] (if_Addrs i)).
Definition v4_addrs (overlays : list Prefix) (ifs : list Iface) : list Addr :=
  filter (λ a, Is_true (Is4 a)) (mjoin (iface_addrs overlays <$> ifs)).
Definition v6_addrs (advertiseV6 : bool) (temporary : list Addr) (overlays : list Prefix) (ifs : list Iface)
  : list Addr :=
  filter (λ a, Is_true (negb (Is4 a) && advertiseV6 && negb (bool_decide (a ∈ temporary))))
    (mjoin (iface_addrs overlays <$> ifs)).

(** [uint16(port)]. *)
Definition u16 (z : Z) : Z := z mod 2 ^ 16.
Definition candidate_of (port : Z) (typ : string) (a : Addr) : AgentCandidate :=
  mkAgentCandidate (addrport_string (mkAddrPort a (u16 port))) typ.

(** [ifs]: [None] when the interfaces cannot be listed.  [sort.Slice] is not
    stable, but equal addresses are the same value. *)
Definition gatherLocalCandidates (listenPort : Z) (advertiseV6 : bool) (temporary : list Addr)
    (overlays : list Prefix) (ifs : option (list Iface)) : list AgentCandidate :=
  match ifs with
  | None => []
  | Some ifs =>
      (candidate_of listenPort "host" <$> take maxHostCandidates (merge_sort addr_le (v4_addrs overlays ifs)))
      ++ (candidate_of listenPort "host6" <$>
            take maxHost6Candidates (merge_sort addr_le (v6_addrs advertiseV6 temporary overlays ifs)))
  end.

Definition ex_ifaces : list Iface :=
  [mkIface "lo" true true (Some [Some [127; 0; 0; 1]]);
   mkIface "eth0" true false (Some [Some [192; 168; 1; 20]; Some [10; 0; 0; 7];
     Some [0x20; 1; 13; 0xB8; 0; 0; 0; 0; 0; 0; 0; 0; 0; 0; 0; 5]; Some [100; 64; 0; 9]; None]);
   mkIface "wg-int" true false (Some [Some [100; 64; 0; 1]]); mkIface "eth1" false false (Some [Some [8; 8; 8; 8]])].
Example gathered :
  gatherLocalCandidates 51820 true [] [no_prefix] (Some ex_ifaces)
  = [mkAgentCandidate "10.0.0.7:51820" "host"; mkAgentCandidate "192.168.1.20:51820" "host";
     mkAgentCandidate "[2001:db8::5]:51820" "host6"].
Proof. vm_compute. reflexivity. Qed.

(** ** The order on addresses *)
Lemma addr_le_alt a b :
  addr_le a b ↔ addr_width a < addr_width b
    ∨ (addr_width a = addr_width b
       ∧ (addr_num a < addr_num b ∨ (addr_num a = addr_num b ∧ str_lt (addr_zone b) (addr_zone a) = false))).
Proof.
  unfold addr_le, Less. rewrite orb_false_iff, andb_false_iff, orb_false_iff, andb_false_iff.
  rewrite !Z.ltb_ge, !Z.eqb_neq. destruct (str_lt (addr_zone b) (addr_zone a)); intuition (try lia; try done).
Qed.
#[export] Instance addr_le_total : Total addr_le.
Proof.
  intros a b. rewrite !addr_le_alt.
  destruct (Z.lt_trichotomy (addr_width a) (addr_width b)) as [?|[?|?]]; [by auto| |by auto].
  destruct (Z.lt_trichotomy (addr_num a) (addr_num b)) as [?|[?|?]]; [by auto 6| |by auto 6].
  destruct (str_lt (addr_zone b) (addr_zone a)) eqn:E; [|by auto 6].
  apply str_lt_antisym in E. by auto 8.
Qed.
#[export] Instance addr_le_antisymm : AntiSymm (=) addr_le.
Proof.
  intros a b. rewrite !addr_le_alt. intros [?|(Hw & [?|[Hn H1]])] [?|(Hw2 & [?|[Hn2 H2]])]; try (exfalso; lia).
  assert (addr_zone a = addr_zone b) as Hz by (by apply str_lt_total).
  destruct a, b; simpl in *; try lia; congruence.
Qed.
Lemma str_le_trans a b c : str_lt b a = false → str_lt c b = false → str_lt c a = false.
Proof.
  intros H1 H2. destruct (str_lt c a) eqn:E; [|done].
  destruct (str_lt a b) eqn:F; [by rewrite (str_lt_trans _ _ _ E F) in H2|].
  assert (a = b) as <- by (by apply str_lt_total). congruence.
Qed.
#[export] Instance addr_le_trans : Transitive addr_le.
Proof.
  intros a b c. rewrite !addr_le_alt. intros H1 H2.
  destruct H1 as [?|(? & [?|[? Hz]])]; [lia|lia|]. destruct H2 as [?|(? & [?|[? Hz']])]; [lia|lia|].
  right. split; [lia|]. right. split; [lia|]. by eapply str_le_trans.
Qed.
Lemma sort_addrs_perm l l' : l ≡ₚ l' → merge_sort addr_le l = merge_sort addr_le l'.
Proof.
  intros H. apply (Sorted_unique addr_le); [apply Sorted_merge_sort, _..|].
  by rewrite !merge_sort_Permutation.
Qed.

(** ** What is gathered *)

(** What the kernel hands out are bytes. *)
Definition bytes (l : list Z) : Prop := Forall (λ b, 0 ≤ b < 256) l.
Definition host_ok (ifs : list Iface) : Prop :=
  Forall (λ i, Forall (λ x, match x with Some raw => bytes raw | None => True end) (default [] (if_Addrs i))) ifs.

Lemma ex_ifaces_ok : host_ok ex_ifaces.
Proof.
  unfold host_ok, bytes. repeat first [apply Forall_nil_2|apply Forall_cons_2|exact I|lia].
Qed.

Lemma be_bound l : bytes l → 0 ≤ be l < 2 ^ (8 * Z.of_nat (length l)).
Proof.
  unfold be. intros H.
  assert (∀ acc n, 0 ≤ n → 0 ≤ acc < 2 ^ n →
    0 ≤ foldl (λ acc b, 256 * acc + b) acc l < 2 ^ (n + 8 * Z.of_nat (length l))) as G; [|by apply (G 0 0)].
  induction H as [|b l Hb Hl IH]; intros acc n Hn Ha; simpl; [by rewrite Z.add_0_r|].
  replace (n + 8 * Z.of_nat (S (length l))) with ((n + 8) + 8 * Z.of_nat (length l)) by lia.
  apply IH; [lia|]. rewrite Z.pow_add_r by lia. change (2 ^ 8) with 256. lia.
Qed.

Lemma AddrFromSlice_plain raw a :
  bytes raw → AddrFromSlice raw = Some a → addr_wf (Unmap a) = true ∧ addr_zone (Unmap a) = "".
Proof.
  intros Hb. pose proof (be_bound raw Hb) as Hz. unfold AddrFromSlice, addr_wf.
  destruct (decide (length raw = 4%nat)) as [E|_].
  - intros [= <-]. rewrite E in Hz. cbn [Unmap addr_num addr_width addr_zone]. split; [lia|done].
  - destruct (decide (length raw = 16%nat)) as [E|_]; [|done]. intros [= <-]. rewrite E in Hz.
    cbn [Unmap]. destruct (Is4In6 (be raw)); cbn [addr_num addr_width addr_zone]; (split; [|done]); [|lia].
    pose proof (Z.mod_pos_bound (be raw) (2 ^ 32)). lia.
Qed.

(** Where a gathered address comes from. *)
Lemma elem_of_gathered overlays ifs a :
  a ∈ mjoin (iface_addrs overlays <$> ifs) →
  ∃ i raw b, i ∈ ifs ∧ if_Up i = true ∧ if_Loopback i = false ∧ if_Name i ≠ ifaceName
    ∧ Some raw ∈ default [] (if_Addrs i) ∧ AddrFromSlice raw = Some b ∧ a = Unmap b ∧ candidateAddr a overlays = true.
Proof.
  intros (l & Ha & (i & -> & Hi)%list_elem_of_fmap)%list_elem_of_join. unfold iface_addrs in Ha.
  case_match eqn:E; [by apply elem_of_nil in Ha|].
  apply orb_false_elim in E as [[E1%negb_false_iff E2]%orb_false_elim E3%bool_decide_eq_false].
  apply list_elem_of_omap in Ha as (x & Hx & Hr). destruct x as [raw|]; [|done].
  cbn [mbind option_bind] in Hr. destruct (AddrFromSlice raw) as [b|] eqn:Eb; [|done]. cbn [mbind option_bind] in Hr.
  case_match eqn:Ec; [|done]. injection Hr as <-. by exists i, raw, b.
Qed.

Lemma merge_sort_elem l a : a ∈ merge_sort addr_le l ↔ a ∈ l.
Proof. by rewrite merge_sort_Permutation. Qed.

Lemma elem_of_gather port v6 tmp overlays ifs c :
  c ∈ gatherLocalCandidates port v6 tmp overlays ifs →
  ∃ l a, ifs = Some l ∧ c = candidate_of port (if Is4 a then "host" else "host6") a
    ∧ a ∈ mjoin (iface_addrs overlays <$> l) ∧ (Is4 a = false → v6 = true ∧ a ∉ tmp).
Proof.
  unfold gatherLocalCandidates. destruct ifs as [l|]; [|by intros ?%elem_of_nil].
  intros [H|H]%elem_of_app; apply list_elem_of_fmap in H as (a & -> & H%elem_of_take);
    destruct H as (i & H%list_elem_of_lookup_2 & _); apply merge_sort_elem, list_elem_of_filter in H as [Hp Hin];
    exists l, a; (split; [done|]).
  - apply Is_true_true in Hp. rewrite Hp. by split_and!.
  - apply Is_true_true, andb_prop in Hp as [[H4%negb_true_iff H6]%andb_prop Ht%negb_true_iff%bool_decide_eq_false].
    rewrite H4. by split_and!.
Qed.

Lemma gather_length port v6 tmp overlays ifs :
  (length (gatherLocalCandidates port v6 tmp overlays ifs) ≤ 6)%nat.
Proof.
  unfold gatherLocalCandidates. destruct ifs as [l|]; simpl; [|lia].
  rewrite length_app, !length_fmap, !length_take. unfold maxHostCandidates, maxHost6Candidates. lia.
Qed.

(** The same host, interfaces and addresses listed in any order. *)
Definition iface_perm (i j : Iface) : Prop :=
  if_Name i = if_Name j ∧ if_Up i = if_Up j ∧ if_Loopback i = if_Loopback j
  ∧ option_Forall2 Permutation (if_Addrs i) (if_Addrs j).
Definition same_host (l k : list Iface) : Prop := ∃ m, Forall2 iface_perm l m ∧ m ≡ₚ k.

Lemma iface_addrs_perm overlays i j : iface_perm i j → iface_addrs overlays i ≡ₚ iface_addrs overlays j.
Proof.
  intros (Hn & Hu & Hl & Ha). unfold iface_addrs. rewrite Hn, Hu, Hl. case_match; [done|].
  destruct Ha as [x y Hxy|]; simpl; [|done]. by rewrite Hxy.
Qed.
Lemma addrs_perm overlays l k :
  same_host l k → mjoin (iface_addrs overlays <$> l) ≡ₚ mjoin (iface_addrs overlays <$> k).
Proof.
  intros (m & Hf & Hp). rewrite <- Hp. clear k Hp. induction Hf as [|i j l m Hij _ IH]; [done|].
  simpl. by rewrite (iface_addrs_perm _ _ _ Hij), IH.
Qed.

(** The list does not depend on the order the kernel lists things in, so that
    the digest the server keeps of it changes only when the host does. *)
Lemma gather_order_independent port v6 tmp tmp' overlays l k :
  same_host l k → tmp ≡ₚ tmp' →
  gatherLocalCandidates port v6 tmp overlays (Some l) = gatherLocalCandidates port v6 tmp' overlays (Some k).
Proof.
  intros H%(addrs_perm overlays) Ht. unfold gatherLocalCandidates. f_equal; do 2 f_equal; apply sort_addrs_perm.
  - unfold v4_addrs. by rewrite H.
  - unfold v6_addrs. rewrite H. erewrite list_filter_iff; [done|]. intros a. simpl.
    by rewrite (bool_decide_ext (a ∈ tmp) (a ∈ tmp')) by (by rewrite Ht).
Qed.
