(* ===== verification/NatCheck.v ===== *)
(** * How the host appears from outside

    cmd/agent/stun.go: one STUN query ([stunQueryFamily]), the public endpoint
    of a port ([discoverPublicEndpoint], [discoverPublicEndpoint6]) and the
    classification of the NAT ([checkNAT]); cmd/agent/telemetry.go: the periodic
    check ([maybeNATCheck], which measures in the background, and
    [refreshV6Endpoint]) and the candidates every report carries
    ([selfCandidates]).

    A STUN message is read by the pion/stun module: [decode] gives the
    transaction of a datagram and the address of its XOR-MAPPED-ADDRESS
    attribute, if it has one.  Sockets and the resolver are the record [Wire]. *)
From S2P Require Import Prelude GoText NetAddr NetFacts Json HostPort Candidates NumText LocalCandidates.

(** ** STUN queries *)

(** What a query from a socket of the given network ("udp4" or "udp6") and port
    ([0]: any) meets: whether the port can be bound, a server name resolved and
    the request sent, and the datagrams read before the deadline. *)
Record Wire : Type := mkWire {
  wi_bind : string → Z → bool; wi_resolve : string → string → bool; wi_send : string → string → bool;
  wi_inbox : string → Z → string → list (list Z)
}.

Section stun.
Context (decode : list Z → option (list Z * option (list Z * Z))).

(** The loop over what arrives: datagrams that are no STUN message or answer an
    earlier query are skipped. *)
Fixpoint stun_answer (tx : list Z) (inbox : list (list Z)) : option AddrPort :=
  match inbox with
  | [] => None
  | pkt :: inbox =>
      match decode pkt with
      | None => stun_answer tx inbox
      | Some (tx', mapped) =>
          if decide (tx' = tx) then
            '(ip, port) ← mapped;
            addr ← AddrFromSlice ip;
            Some (mkAddrPort (Unmap addr) (u16 port))
          else stun_answer tx inbox
      end
  end.
Definition stunQueryFamily (w : Wire) (tx : list Z) (network : string) (port : Z) (server : string)
  : option AddrPort :=
  if wi_resolve w network server && wi_send w network server
  then stun_answer tx (wi_inbox w network port server) else None.

Definition discoverPublicEndpointFamily (w : Wire) (tx : list Z) (network server : string) (port : Z)
  : option string :=
  if wi_bind w network port then addrport_string <$> stunQueryFamily w tx network port server else None.
Definition discoverPublicEndpoint (w : Wire) (tx : list Z) := discoverPublicEndpointFamily w tx "udp4".
Definition discoverPublicEndpoint6 (w : Wire) (tx : list Z) := discoverPublicEndpointFamily w tx "udp6".
Definition stunReflexive6 (w : Wire) (tx : list Z) (server : string) : option AddrPort :=
  if wi_bind w "udp6" 0 then stunQueryFamily w tx "udp6" 0 server else None.

(** Two servers are asked from the same socket, each in its own transaction. *)
Definition checkNAT (w : Wire) (tx1 tx2 : list Z) (servers : list string) : option (AddrPort * string) :=
  match servers with
  | [] => None
  | s1 :: rest =>
      if negb (wi_bind w "udp4" 0) then None
      else
        first ← stunQueryFamily w tx1 "udp4" 0 s1;
        match rest with
        | [] => Some (first, "")
        | s2 :: _ =>
            match stunQueryFamily w tx2 "udp4" 0 s2 with
            | None => Some (first, "")
            | Some second => Some (first, if decide (first = second) then "easy" else "hard")
            end
        end
  end.
End stun.

(** ** The state the reports are made from *)

(** The NAT-traversal fields of [telemetryReporter]; [n_external] is the port
    mapper's endpoint, [None] when there is no port mapper. *)
Record Nat : Type := mkNat {
  n_listenPort : Z; n_stunFallback : string; n_stunServers : list string;
  n_publicEndpoint : string; n_publicEndpoint6 : string; n_endpointPinned : bool;
  n_stun6Server : string; n_noIPv6 : bool; n_natType : string; n_external : option string;
  n_natTick : Z; n_natBusy : bool; n_advertiseV6 : bool; n_network : Prefix; n_network6 : Prefix
}.
Definition with_tick (tick : Z) (busy : bool) (n : Nat) : Nat :=
  mkNat (n_listenPort n) (n_stunFallback n) (n_stunServers n) (n_publicEndpoint n) (n_publicEndpoint6 n)
    (n_endpointPinned n) (n_stun6Server n) (n_noIPv6 n) (n_natType n) (n_external n) tick busy
    (n_advertiseV6 n) (n_network n) (n_network6 n).
Definition with_measured (ep ep6 typ : string) (busy : bool) (n : Nat) : Nat :=
  mkNat (n_listenPort n) (n_stunFallback n) (n_stunServers n) ep ep6
    (n_endpointPinned n) (n_stun6Server n) (n_noIPv6 n) typ (n_external n) (n_natTick n) busy
    (n_advertiseV6 n) (n_network n) (n_network6 n).
Definition with_external (e : option string) (n : Nat) : Nat :=
  mkNat (n_listenPort n) (n_stunFallback n) (n_stunServers n) (n_publicEndpoint n) (n_publicEndpoint6 n)
    (n_endpointPinned n) (n_stun6Server n) (n_noIPv6 n) (n_natType n) e (n_natTick n) (n_natBusy n)
    (n_advertiseV6 n) (n_network n) (n_network6 n).
(** [applySync]: the mesh's STUN servers, if the answer names any, and the networks. *)
Definition with_sync (servers : list string) (net net6 : Prefix) (n : Nat) : Nat :=
  mkNat (n_listenPort n) (n_stunFallback n) (match servers with [] => n_stunServers n | _ => servers end)
    (n_publicEndpoint n) (n_publicEndpoint6 n) (n_endpointPinned n) (n_stun6Server n) (n_noIPv6 n)
    (n_natType n) (n_external n) (n_natTick n) (n_natBusy n) (n_advertiseV6 n) net net6.

Definition natCheckEvery : Z := 4.

(** The part of [maybeNATCheck] that runs on the tick: the servers a check is
    started for, if it starts one. *)
Definition maybeNATCheck (n : Nat) : Nat * option (list string) :=
  if n_endpointPinned n then (n, None)
  else
    let n := with_tick (n_natTick n + 1) (n_natBusy n) n in
    if negb (Z.rem (n_natTick n - 1) natCheckEvery =? 0) then (n, None)
    else if n_natBusy n then (n, None)
    else
      let servers :=
        if bool_decide (n_stunServers n = []) && bool_decide (n_stunFallback n ≠ "")
        then [n_stunFallback n] else n_stunServers n in
      if bool_decide (servers = []) || (n_listenPort n =? 0) then (with_tick (n_natTick n) false n, None)
      else (with_tick (n_natTick n) true n, Some servers).

(** The v6 endpoint after a probe: [probe] is what [stunReflexive6] returned. *)
Definition refreshV6Endpoint (probe : option AddrPort) (n : Nat) : string :=
  if n_noIPv6 n || n_endpointPinned n || bool_decide (n_stun6Server n = "") then n_publicEndpoint6 n
  else match probe with
       | None => ""
       | Some m => JoinHostPort (addr_string (ap_Addr m)) (Itoa (n_listenPort n))
       end.

(** The part that runs in the background, once the servers have answered. *)
Definition nat_check_done (measured : option (AddrPort * string)) (probe6 : option AddrPort) (n : Nat) : Nat :=
  match measured with
  | None => with_tick (n_natTick n) false n
  | Some (mapped, typ) =>
      let natType := if decide (typ = "") then n_natType n else typ in
      let ep6 := refreshV6Endpoint probe6 n in
      let mappedIP := addr_string (ap_Addr mapped) in
      let curHost := match SplitHostPort (n_publicEndpoint n) with Some (h, _) => h | None => "" end in
      let ep := if decide (curHost = mappedIP) then n_publicEndpoint n
                else JoinHostPort mappedIP (Itoa (n_listenPort n)) in
      with_measured ep ep6 natType false n
  end.

(** The interfaces and the rotating addresses are read at every report. *)
Definition selfCandidates (listed : option (list (Z * list Z))) (ifs : option (list Iface)) (n : Nat)
  : list AgentCandidate :=
  if n_listenPort n =? 0 then []
  else
    gatherLocalCandidates (n_listenPort n) (n_advertiseV6 n) (temporaryV6Addrs listed)
      [n_network n; n_network6 n] ifs
    ++ (match n_external n with
        | Some ep => if decide (ep = "") then [] else [mkAgentCandidate ep "upnp"]
        | None => []
        end)
    ++ (if decide (n_publicEndpoint6 n = "") then [] else [mkAgentCandidate (n_publicEndpoint6 n) "stun6"])
    ++ (if n_endpointPinned n && bool_decide (n_publicEndpoint n ≠ "")
        then [mkAgentCandidate (n_publicEndpoint n) "pinned"] else []).

(** ** The reporter over time

    Ticks, checks that end (whatever they measured), the port mapper's changes
    and the answers of the server, in any order. *)
Inductive nat_step : Nat → Nat → Prop :=
| nat_tick n : nat_step n (maybeNATCheck n).1
| nat_done n measured probe6 : n_natBusy n = true → nat_step n (nat_check_done measured probe6 n)
| nat_mapped n ep ep' : n_external n = Some ep → nat_step n (with_external (Some ep') n)
| nat_synced n servers net net6 : nat_step n (with_sync servers net net6 n).

Definition nat_steps : Nat → Nat → Prop := rtc nat_step.

(** ** Invariants *)

(** An operator's pin: nothing measured can replace it. *)
Definition pinned_at (ep typ : string) (n : Nat) : Prop :=
  n_endpointPinned n = true ∧ n_publicEndpoint n = ep ∧ n_publicEndpoint6 n = "" ∧ n_natType n = typ
  ∧ n_natBusy n = false.

Lemma pinned_at_step ep typ n n' : nat_step n n' → pinned_at ep typ n → pinned_at ep typ n'.
Proof.
  intros [n0|n0 m p Hb|n0 e e' _|n0 s x y] (H1 & H2 & H3 & H4 & H5); [|congruence|done..].
  unfold maybeNATCheck. by rewrite H1.
Qed.

(** Without a pin the endpoint is the one found at start-up or a measured
    address with the WireGuard port: the port of a throwaway socket is never
    advertised. *)
Definition own_port (port : Z) (ep0 : string) (ep : string) : Prop :=
  ep = ep0 ∨ ∃ a, ep = JoinHostPort (addr_string a) (Itoa port).
Definition measured_at (port : Z) (ep0 ep6 : string) (n : Nat) : Prop :=
  n_listenPort n = port ∧ own_port port ep0 (n_publicEndpoint n)
  ∧ (n_publicEndpoint6 n = "" ∨ own_port port ep6 (n_publicEndpoint6 n)).

Lemma measured_at_step port ep0 ep6 n n' : nat_step n n' → measured_at port ep0 ep6 n → measured_at port ep0 ep6 n'.
Proof.
  intros [n0|n0 m p Hb|n0 e e' _|n0 s x y] (H1 & H2 & H3); [|..|done|done].
  - unfold maybeNATCheck. repeat (case_match; try done).
  - unfold nat_check_done. destruct m as [[mapped typ]|]; [|done]. split; [done|]. cbn. split.
    + case_decide; [done|]. right. rewrite H1. by eexists.
    + unfold refreshV6Endpoint. case_match; [done|]. destruct p as [m|]; [|by left].
      right; right. rewrite H1. by eexists.
Qed.

Lemma nat_steps_ind (P : Nat → Prop) n n' :
  (∀ a b, nat_step a b → P a → P b) → nat_steps n n' → P n → P n'.
Proof. induction 2; eauto. Qed.

(** ** The candidates fit

    The server keeps eight candidates of an agent. *)
Lemma selfCandidates_length listed ifs n :
  (n_endpointPinned n = true → n_publicEndpoint6 n = "") →
  (length (selfCandidates listed ifs n) ≤ maxAgentCandidates)%nat.
Proof.
  intros Hp. unfold selfCandidates, maxAgentCandidates. case_match; [simpl; lia|].
  rewrite !length_app. pose proof (gather_length (n_listenPort n) (n_advertiseV6 n) (temporaryV6Addrs listed)
    [n_network n; n_network6 n] ifs) as Hg.
  destruct (n_endpointPinned n) eqn:E; cbn [andb]; [rewrite (decide_True _ _ (Hp eq_refl))|];
    repeat case_match; cbn [length]; lia.
Qed.

(** [net.ResolveUDPAddr] takes the literal form of an address and port. *)
Definition literals_resolve (resolve : string → bool) : Prop :=
  ∀ a p, addr_valid a = true → addr_wf a = true → addr_zone a = "" → 0 ≤ p < 2 ^ 16 →
    resolve (addrport_string (mkAddrPort a p)) = true.

Lemma gather_accepted resolve port v6 tmp overlays ifs c :
  literals_resolve resolve → from_option host_ok True ifs →
  c ∈ gatherLocalCandidates port v6 tmp overlays ifs → accepted resolve c = true.
Proof.
  intros Hr Hok (l & a & -> & -> & Ha & _)%elem_of_gather.
  apply elem_of_gathered in Ha as (i & raw & b & Hi & _ & _ & _ & Hraw & Hb & -> & Hc).
  destruct (AddrFromSlice_plain raw b) as [Hw Hz]; [|done|].
  { simpl in Hok. unfold host_ok in Hok. rewrite Forall_forall in Hok. specialize (Hok i Hi). rewrite Forall_forall in Hok.
    by apply (Hok (Some raw)). }
  unfold accepted, candidate_of. cbn [ac_Type ac_Endpoint]. apply andb_true_intro. split.
  - apply bool_decide_eq_true. destruct (Is4 (Unmap b)); set_solver.
  - apply Hr; [|done..|apply Z.mod_pos_bound; lia]. unfold candidateAddr in Hc. destruct (addr_valid (Unmap b)); done.
Qed.

Lemma keep_all resolve cands :
  (length cands ≤ maxAgentCandidates)%nat →
  validAgentCandidates resolve cands = filter (λ c, Is_true (accepted resolve c)) cands.
Proof.
  intros H. unfold validAgentCandidates. rewrite keep_valid_filter, take_ge; [done|].
  etrans; [apply length_filter|done].
Qed.
