(* ===== verification/PortMap.v ===== *)
(** * The port mapping at the router

    cmd/agent/portmap.go and portmap_gateway_linux.go: asking the local router
    (UPnP, then NAT-PMP) to forward the WireGuard port, renewing the lease and
    giving it back ([mapPort], [upnpMap], [natpmpMap], [portMapper.run]).

    The routers answer through the goupnp and go-nat-pmp modules; what they
    answer during one attempt is the record [Attempt].  Every message that
    changes something at a router is listed ([request]), so that the theorems
    say what the agent can open on a router, whatever the routers answer. *)
From S2P Require Import Prelude GoText TimeText NetAddr NetFacts HostPort NumText Uapi Json Candidates LocalCandidates NatCheck.
From Stdlib Require Import Ascii.

Definition portMapLease : Z := 30 * Minute.
Definition portMapRenew : Z := portMapLease / 2.
Definition portMapRetryMin : Z := 5 * Minute.
Definition portMapRetryMax : Z := Hour.
Definition lease_seconds : Z := portMapLease / Second.

Definition publicV4 (a : Addr) : bool :=
  let ip := Unmap a in
  Is4 ip && negb (IsPrivate ip) && negb (IsLoopback ip) && negb (IsLinkLocalUnicast ip)
  && negb (IsMulticast ip) && negb (IsUnspecified ip) && negb (Contains cgnat ip).

(** ** The default gateway *)

(** [strings.Fields]; [skip] bytes of a blank just met are left. *)
Definition flush_word (w : list ascii) (out : list string) : list string :=
  match w with [] => out | _ => text (rev w) :: out end.
Fixpoint fields_go (skip : nat) (w : list ascii) (l : list ascii) : list string :=
  match l with
  | [] => flush_word w []
  | c :: l' =>
      match skip with
      | S k => fields_go k w l'
      | O =>
          if space1 c then flush_word w (fields_go 0 [] l')
          else match l' with
               | c2 :: l2 =>
                   if space2 c c2 then flush_word w (fields_go 1 [] l')
                   else match l2 with
                        | c3 :: _ => if space3 c c2 c3 then flush_word w (fields_go 2 [] l')
                                     else fields_go 0 (c :: w) l'
                        | [] => fields_go 0 (c :: w) l'
                        end
               | [] => fields_go 0 (c :: w) l'
               end
      end
  end.
Definition strings_Fields (s : string) : list string := fields_go 0 [] (chars s).

(** The addresses of the table are little-endian. *)
Definition route_gateway (line : string) : option Addr :=
  match strings_Fields line with
  | _ :: dst :: gw :: _ =>
      if bool_decide (dst ≠ "00000000") || bool_decide (gw = "00000000") then None
      else match hex_decode gw with
           | Some [b0; b1; b2; b3] => Some (V4 (be [b3; b2; b1; b0]))
           | _ => None
           end
  | _ => None
  end.
Definition newline : ascii := chr 10.
Definition parseProcRoute (content : string) : option Addr :=
  head (omap route_gateway (tail (Split content newline))).
(** [None]: /proc/net/route cannot be read. *)
Definition defaultGatewayIP (file : option string) : option Addr := data ← file; parseProcRoute data.

Definition ex_routes : string :=
  "Iface Destination Gateway" +:+ String newline ("eth0 0000A8C0 00000000 0001" +:+ String newline
    ("eth0  00000000 0101A8C0 0003" +:+ String newline "")).
Example gateway_found : defaultGatewayIP (Some ex_routes) = Some (V4 (be [192; 168; 1; 1])).
Proof. reflexivity. Qed.

(** ** Talking to routers *)

(** What changes state at a router. *)
Inductive request : Type :=
| UpnpAdd (router : string) (extPort : Z) (proto : string) (intPort : Z) (client desc : string) (lease : Z)
| UpnpDelete (router : string) (extPort : Z) (proto : string)
| PmpMap (gateway : Addr) (proto : string) (intPort extPort lease : Z).

(** How a mapping is given back. *)
Inductive unmapper : Type :=
| UpnpUnmap (router : string) (port : Z)
| PmpUnmap (gateway : Addr) (port : Z).
Definition unmap_request (u : unmapper) : request :=
  match u with
  | UpnpUnmap r port => UpnpDelete r port "UDP"
  | PmpUnmap g port => PmpMap g "udp" port 0 0
  end.

(** One gateway device found by UPnP: the host of its control URL and its
    answers. *)
Record Igd : Type := mkIgd { ig_host : string; ig_getIP : option string; ig_add : bool }.
(** What one attempt meets: the devices found, the address of this host toward
    another one, the routing table, and the gateway's NAT-PMP answers. *)
Record Attempt : Type := mkAttempt {
  at_igds : list Igd; at_dial : string → option string; at_routes : option string;
  at_external : option Z; at_mapped : option Z
}.

Definition localAddrToward (dial : string → option string) (host : string) : option string :=
  dial (match SplitHostPort host with Some _ => host | None => JoinHostPort host "1900" end).

(** The loop over the devices. *)
Fixpoint upnp_try (dial : string → option string) (port : Z) (igds : list Igd)
  : option (string * unmapper) * list request :=
  match igds with
  | [] => (None, [])
  | c :: rest =>
      match ig_getIP c with
      | None => upnp_try dial port rest
      | Some extIP =>
          if negb (from_option publicV4 false (ParseAddr extIP)) then upnp_try dial port rest
          else match localAddrToward dial (ig_host c) with
               | None => upnp_try dial port rest
               | Some localIP =>
                   let add := UpnpAdd (ig_host c) (u16 port) "UDP" (u16 port) localIP "wgmesh-agent" lease_seconds in
                   if ig_add c
                   then (Some (JoinHostPort extIP (Itoa port), UpnpUnmap (ig_host c) (u16 port)), [add])
                   else let '(r, q) := upnp_try dial port rest in (r, add :: q)
               end
      end
  end.
Definition upnpMap (a : Attempt) (port : Z) : option (string * unmapper) * list request :=
  upnp_try (at_dial a) port (at_igds a).

Definition natpmpMap (a : Attempt) (port : Z) : option (string * unmapper) * list request :=
  match defaultGatewayIP (at_routes a) with
  | None => (None, [])
  | Some gw =>
      match at_external a with
      | None => (None, [])
      | Some ext =>
          if negb (publicV4 (V4 ext)) then (None, [])
          else
            let add := PmpMap gw "udp" port port lease_seconds in
            match at_mapped a with
            | None => (None, [add])
            | Some extPort => (Some (JoinHostPort (addr_string (V4 ext)) (Itoa extPort), PmpUnmap gw port), [add])
            end
      end
  end.
Definition mapPort (a : Attempt) (port : Z) : option (string * unmapper) * list request :=
  match upnpMap a port with
  | (Some r, q) => (Some r, q)
  | (None, q) => let '(r, q') := natpmpMap a port in (r, q ++ q')
  end.

(** ** The mapper *)
Record Mapper : Type := mkMapper { pm_port : Z; pm_ext : string; pm_retry : Z; pm_unmap : option unmapper }.
Definition newPortMapper (port : Z) : Mapper := mkMapper port "" portMapRetryMin None.

(** One round of [run]: the new state, how long it waits, and what was sent. *)
Definition map_round (a : Attempt) (m : Mapper) : Mapper * Z * list request :=
  match mapPort a (pm_port m) with
  | (None, q) => (mkMapper (pm_port m) "" (Z.min (pm_retry m * 2) portMapRetryMax) None, pm_retry m, q)
  | (Some (ep, um), q) => (mkMapper (pm_port m) ep portMapRetryMin (Some um), portMapRenew, q)
  end.

(** [run] until [close]: the rounds, what they waited, and everything sent; at
    the end the mapping is given back. *)
Fixpoint map_rounds (l : list Attempt) (m : Mapper) : Mapper * list Z * list request :=
  match l with
  | [] => (m, [], [])
  | a :: l =>
      let '(m1, w, q) := map_round a m in
      let '(m2, ws, q') := map_rounds l m1 in (m2, w :: ws, q ++ q')
  end.
Definition portmap_run (l : list Attempt) (m : Mapper) : list request :=
  let '(m', _, q) := map_rounds l m in q ++ from_option (λ u, [unmap_request u]) [] (pm_unmap m').

(** ** What may be asked of a router *)

(** The mapping a round may ask for: this host's WireGuard port, UDP, for half
    an hour, towards the address this host has on the way to that router; with
    NAT-PMP only of the default gateway. *)
Definition asked (port : Z) (a : Attempt) (q : request) : Prop :=
  match q with
  | UpnpAdd r e pr i client d l =>
      e = u16 port ∧ i = u16 port ∧ pr = "UDP" ∧ d = "wgmesh-agent" ∧ l = 1800
      ∧ localAddrToward (at_dial a) r = Some client
      ∧ ∃ c ip ext, c ∈ at_igds a ∧ ig_host c = r ∧ ig_getIP c = Some ip ∧ ParseAddr ip = Some ext ∧ publicV4 ext = true
  | PmpMap g pr i e l =>
      pr = "udp" ∧ i = port ∧ e = port ∧ l = 1800 ∧ defaultGatewayIP (at_routes a) = Some g
      ∧ ∃ z, at_external a = Some z ∧ publicV4 (V4 z) = true
  | UpnpDelete _ _ _ => False
  end.
(** What giving a mapping back may ask for. *)
Definition returned (port : Z) (u : unmapper) : Prop :=
  match u with UpnpUnmap _ p => p = u16 port | PmpUnmap _ p => p = port end.
(** The texts the mapper may advertise. *)
Definition reachable_ext (ep : string) : Prop :=
  ∃ host ext p, ParseAddr host = Some ext ∧ publicV4 ext = true ∧ ep = JoinHostPort host (Itoa p).

Definition attempt_ok (port : Z) (a : Attempt) (r : option (string * unmapper) * list request) : Prop :=
  Forall (asked port a) r.2
  ∧ match r.1 with Some (ep, u) => reachable_ext ep ∧ returned port u | None => True end.

Lemma upnp_try_ok a port igds :
  (∀ c, c ∈ igds → c ∈ at_igds a) → attempt_ok port a (upnp_try (at_dial a) port igds).
Proof.
  induction igds as [|c rest IH]; intros Hin; [by split; [constructor|]|]. cbn [upnp_try].
  assert (attempt_ok port a (upnp_try (at_dial a) port rest)) as Hr by (apply IH; intros; apply Hin; by right).
  destruct (ig_getIP c) as [ip|] eqn:Eip; [|done].
  destruct (ParseAddr ip) as [ext|] eqn:Ep; [|done]. cbn [from_option].
  destruct (publicV4 ext) eqn:Epub; [|done]. cbn [negb].
  destruct (localAddrToward (at_dial a) (ig_host c)) as [localIP|] eqn:El; [|done].
  assert (asked port a (UpnpAdd (ig_host c) (u16 port) "UDP" (u16 port) localIP "wgmesh-agent" lease_seconds)) as Hask.
  { split_and!; try done. exists c, ip, ext. split_and!; try done. apply Hin. by left. }
  destruct (ig_add c).
  - split; [by constructor|]. split; [|done]. by exists ip, ext, port.
  - destruct (upnp_try (at_dial a) port rest) as [r q]. destruct Hr as [Hq Hr]. split; [by constructor|done].
Qed.

Lemma natpmp_ok a port : 0 ≤ default 0 (at_external a) < 2 ^ 32 → attempt_ok port a (natpmpMap a port).
Proof.
  intros Hz. unfold natpmpMap. destruct (defaultGatewayIP (at_routes a)) as [gw|] eqn:Eg; [|by split; [constructor|]].
  destruct (at_external a) as [ext|] eqn:Ee; [|by split; [constructor|]]. cbn [from_option id] in Hz.
  destruct (publicV4 (V4 ext)) eqn:Ep; [|by split; [constructor|]]. cbn [negb].
  assert (asked port a (PmpMap gw "udp" port port lease_seconds)) as Hask.
  { split_and!; try done. by exists ext. }
  destruct (at_mapped a) as [extPort|]; (split; [by constructor|]); [|done]. split; [|done].
  exists (addr_string (V4 ext)), (V4 ext), extPort. split; [|done]. apply ParseAddr_string; [done|].
  unfold addr_wf. cbn [addr_num addr_width]. lia.
Qed.

Lemma mapPort_ok a port : 0 ≤ default 0 (at_external a) < 2 ^ 32 → attempt_ok port a (mapPort a port).
Proof.
  intros Hz. unfold mapPort, upnpMap. pose proof (upnp_try_ok a port (at_igds a) (λ _ H, H)) as [H1 H2].
  destruct (upnp_try _ _ _) as [[r|] q]; [done|]. pose proof (natpmp_ok a port Hz) as [H3 H4].
  destruct (natpmpMap a port) as [r q']. split; [by apply Forall_app|done].
Qed.

(** The state between rounds. *)
Definition mapper_ok (m : Mapper) : Prop :=
  (pm_ext m = "" ∨ reachable_ext (pm_ext m))
  ∧ portMapRetryMin ≤ pm_retry m ≤ portMapRetryMax
  ∧ from_option (returned (pm_port m)) True (pm_unmap m).
(** NAT-PMP carries the external address in four bytes. *)
Definition attempts_ok (l : list Attempt) : Prop := Forall (λ a, 0 ≤ default 0 (at_external a) < 2 ^ 32) l.

Lemma asked_more port a l q q' :
  Forall (asked port a) q → Forall (λ x, ∃ b, b ∈ l ∧ asked port b x) q' →
  Forall (λ x, ∃ b, b ∈ a :: l ∧ asked port b x) (q ++ q').
Proof.
  intros H H'. apply Forall_app. split; (eapply Forall_impl; [eassumption|]); simpl.
  - intros x Hx. exists a. split; [by left|done].
  - intros x (b & ? & ?). exists b. split; [by right|done].
Qed.

Lemma map_round_ok a m :
  mapper_ok m → 0 ≤ default 0 (at_external a) < 2 ^ 32 →
  let '(m', w, q) := map_round a m in
  mapper_ok m' ∧ pm_port m' = pm_port m ∧ portMapRetryMin ≤ w ≤ portMapRetryMax ∧ Forall (asked (pm_port m) a) q.
Proof.
  intros (H1 & H2 & H3) Ha. unfold map_round, mapper_ok.
  change portMapRetryMin with 300000000000 in *. change portMapRetryMax with 3600000000000 in *.
  change portMapRenew with 900000000000.
  pose proof (mapPort_ok a (pm_port m) Ha) as [Hq Hr]. destruct (mapPort a (pm_port m)) as [[[ep u]|] q].
  - destruct Hr. split_and!; try done; by right.
  - cbn. split_and!; try done; [by left|lia..].
Qed.

Lemma map_rounds_ok l : ∀ m, mapper_ok m → attempts_ok l →
  let '(m', ws, q) := map_rounds l m in
  mapper_ok m' ∧ pm_port m' = pm_port m
  ∧ Forall (λ w, portMapRetryMin ≤ w ≤ portMapRetryMax) ws
  ∧ Forall (λ x, ∃ a, a ∈ l ∧ asked (pm_port m) a x) q.
Proof.
  induction l as [|a l IH]; intros m Hm Hl; [by split_and!|]. apply Forall_cons in Hl as [Ha Hl].
  cbn [map_rounds]. pose proof (map_round_ok a m Hm Ha) as Hr. destruct (map_round a m) as [[m1 w] q].
  destruct Hr as (R1 & R2 & R3 & R4). specialize (IH m1 R1 Hl). destruct (map_rounds l m1) as [[m2 ws] q'].
  destruct IH as (I1 & I2 & I3 & I4). rewrite R2 in I2, I4. split_and!; [done..| |].
  - by constructor.
  - by apply asked_more.
Qed.

(** The router is asked for nothing but the agent's own WireGuard port.
    Whatever routers answer, over any number of rounds and up to the end of the
    agent: every mapping asked for is UDP, for the listen port on both sides, for
    half an hour, towards this host's own address on the way to that router (or
    of the default gateway, with NAT-PMP), and only of a router whose outside
    address is public; the only other request gives such a mapping back.  What is
    advertised is a public address, and between two rounds pass five minutes to
    one hour. *)
Theorem port_mapping_narrow port l :
  attempts_ok l →
  (∀ q, q ∈ portmap_run l (newPortMapper port) →
     (∃ a, a ∈ l ∧ asked port a q)
     ∨ (∃ r, q = UpnpDelete r (u16 port) "UDP") ∨ (∃ g, q = PmpMap g "udp" port 0 0))
  ∧ (let m := (map_rounds l (newPortMapper port)).1.1 in pm_ext m = "" ∨ reachable_ext (pm_ext m))
  ∧ Forall (λ w, 5 * Minute ≤ w ≤ Hour) (map_rounds l (newPortMapper port)).1.2.
Proof.
  intros Hl. unfold portmap_run. pose proof (map_rounds_ok l (newPortMapper port)) as H.
  destruct (map_rounds l (newPortMapper port)) as [[m ws] qs].
  destruct H as ((M1 & _ & M3) & Hp & Hw & Hq); [by split_and!; [left|..]|done|]. cbn [newPortMapper pm_port] in *.
  split_and!; [|done..]. intros q [Hin|Hin]%elem_of_app; [left; by eapply Forall_forall in Hq|right].
  destruct (pm_unmap m) as [u|]; cbn [from_option] in *; [|by apply elem_of_nil in Hin].
  apply list_elem_of_singleton in Hin as ->. rewrite Hp in M3. destruct u as [r p|g p]; cbn in M3; subst p; eauto.
Qed.

(** A mapping whose renewal failed is not given back at the end: it stays at the
    router until its lease is over. *)
Definition ex_igd : Igd := mkIgd "192.168.1.1:5000" (Some "203.0.113.7") true.
Definition ex_attempt (igds : list Igd) : Attempt := mkAttempt igds (λ _, Some "192.168.1.20") None None None.
Lemma portmap_left_open :
  portmap_run [ex_attempt [ex_igd]; ex_attempt []] (newPortMapper 51820)
  = [UpnpAdd "192.168.1.1:5000" 51820 "UDP" 51820 "192.168.1.20" "wgmesh-agent" 1800].
Proof. vm_compute. reflexivity. Qed.

Lemma port_mapping_narrow_witness :
  attempts_ok [ex_attempt [ex_igd]]
  ∧ (pm_ext (map_rounds [ex_attempt [ex_igd]] (newPortMapper 51820)).1.1 = "203.0.113.7:51820")
  ∧ ∀ q, q ∈ portmap_run [ex_attempt [ex_igd]] (newPortMapper 51820) →
     (∃ a, a ∈ [ex_attempt [ex_igd]] ∧ asked 51820 a q)
     ∨ (∃ r, q = UpnpDelete r (u16 51820) "UDP") ∨ (∃ g, q = PmpMap g "udp" 51820 0 0).
Proof.
  assert (attempts_ok [ex_attempt [ex_igd]]) as H by (constructor; [by vm_compute|constructor]).
  split; [exact H|]. split; [vm_compute; reflexivity|].
  exact (proj1 (port_mapping_narrow 51820 [ex_attempt [ex_igd]] H)).
Defined.
