(* ===== verification/Startup.v ===== *)
(** * Starting an agent

    cmd/agent/runner.go, main.go and config.go: reading the configuration,
    asking the control plane for a place in the mesh ([enroll], [startupState])
    until it gives an answer ([startupStateRetry]), and handing what it said to
    the reporter ([startReporter]).

    The outside world of one attempt is the record [StartEnv]: STUN sockets, the
    host's name and interfaces, the certificate file, and the control plane, which
    answers a request.  The answer of the real control plane is [handleEnroll];
    [agent_starts] puts the two together. *)
From S2P Require Import Prelude GoText TimeText NetAddr NetFacts Codec Json Schema SchemaFacts Alloc Enroll EnrollFacts Visibility Invariants Dns Reports StoreMachine HostPort Psk ClientIP Candidates PeerEntries EntryFacts Handlers HandlerFacts Path Sync Collect NetCidr AgentSync AgentSyncFacts NumText LocalCandidates NatCheck PortMap.

(** [agentConfig]. *)
Record agentConfig : Type := mkAgentConfig {
  c_Addr : string; c_Addr6 : string; c_PeerKey : string; c_PeerEndpoint : string; c_PeerAddr : string;
  c_PeerAddr6 : string; c_PeerPSK : string; c_Server : string; c_SetupKey : string; c_Hostname : string;
  c_ServerCA : string; c_ReportInterval : Z; c_STUNServer : string; c_PortMapping : bool;
  c_RelayTransport : string; c_DirectProbe : bool; c_GatewayNATCIDRs : string; c_AdvertiseEndpoint : string;
  c_DNSMode : string; c_DNSFallback : bool; c_ManageFirewall : bool; c_NoIPv6 : bool;
  c_AdvertiseExitNode : bool; c_KeyFile : string; c_LogLevel : string; c_TraefikAccessLog : string;
  c_ListenPort : Z
}.
(** [agentStartupState]; [su_initialACL] is [None] without a control plane. *)
Record agentStartupState : Type := mkStartup {
  su_overlayAddr : string; su_overlayAddr6 : string; su_enrolledPeers : list PeerConfig;
  su_gatewayRoutes : list string; su_exitNodePeer : bool; su_exitNodeActive : bool; su_authToken : string;
  su_initialACL : option ACLPolicy; su_initialDNS : DNSConfig; su_networkPrefix : Prefix;
  su_networkPrefix6 : Prefix; su_publicEndpoint : string; su_publicEndpoint6 : string;
  su_stunServers : list string; su_listenPort : Z
}.
Definition no_dns : DNSConfig := mkDNS false false "" [] [].

(** ** Settings *)
Definition validateAdvertiseEndpoint (ep : string) : bool :=
  if decide (ep = "") then true
  else match SplitHostPort ep with
       | None => false
       | Some (host, portStr) =>
           if decide (host = "") then false
           else match ParseInt portStr with
                | None => false
                | Some port => (1 <=? port) && (port <=? 65535)
                end
       end.
Inductive dnsMode : Type := dnsModeAuto | dnsModeResolved | dnsModeResolvConf | dnsModeOff.
Definition parseDNSMode (s : string) : option dnsMode :=
  let m := TrimSpace (ToLower s) in
  if decide (m ∈ [""; "auto"]) then Some dnsModeAuto
  else if decide (m ∈ ["resolved"; "systemd-resolved"]) then Some dnsModeResolved
  else if decide (m ∈ ["resolv-conf"; "resolvconf"; "resolv.conf"]) then Some dnsModeResolvConf
  else if decide (m ∈ ["off"; "none"]) then Some dnsModeOff else None.
Definition parseRelayTransport (s : string) : option relayTransport :=
  if decide (s ∈ ["auto"; "quic"]) then Some relayAuto
  else if decide (s ∈ ["websocket"; "ws"]) then Some relayWebSocket
  else if decide (s = "udp") then Some relayUDP else None.
Definition effectiveListenPort (flagPort resolvedPort : Z) : Z :=
  if 0 <? resolvedPort then resolvedPort else flagPort.
Definition agentHostname (override : string) (os : option string) : string :=
  let name := TrimSpace override in
  if decide (name = "") then from_option TrimSpace "" os else name.

(** ** The control plane *)

(** What comes back from a POST: nothing, or a status with a body that decodes
    (after at most one megabyte) or does not. *)
Inductive answer : Type :=
| NoAnswer
| Answer (status : Z) (body : option EnrollResponse).
Inductive startup_error : Type :=
| errSetupKeyRequired
| enrollRejected (status : Z)
| errOther (what : string).

(** The pool the client trusts: [None] is an error, [Some None] the system's.
    [read] is [os.ReadFile]; [has_certs] is [AppendCertsFromPEM]. *)
Definition newPinnedTLSConfig (read : string → option string) (has_certs : string → bool) (caFile : string)
  : option (option string) :=
  if decide (caFile = "") then Some None
  else pem ← read caFile; if has_certs pem then Some (Some pem) else None.

Record StartEnv : Type := mkStartEnv {
  se_wire : Wire; se_tx4 : list Z; se_tx6 : list Z; se_hostname : option string;
  se_listed : option (list (Z * list Z)); se_ifs : option (list Iface);
  se_read : string → option string; se_certs : string → bool;
  se_post : string → EnrollRequest → answer
}.

Definition enroll (e : StartEnv) (serverURL serverCA : string) (req : EnrollRequest)
  : startup_error + EnrollResponse :=
  match newPinnedTLSConfig (se_read e) (se_certs e) serverCA with
  | None => inl (errOther "server CA")
  | Some _ =>
      match se_post e (serverURL +:+ "/enroll") req with
      | NoAnswer => inl (errOther "post enroll")
      | Answer status body =>
          if negb (status =? 200) then inl (enrollRejected status)
          else match body with None => inl (errOther "decode enroll response") | Some r => inr r end
      end
  end.

Section startup.
Context (decode : list Z → option (list Z * option (list Z * Z))).
Context (ResolveUDPAddr ParseKey : string → option string).

(** ** One attempt *)
Definition discover4 (c : agentConfig) (e : StartEnv) (listenPort : Z) : string :=
  if decide (c_AdvertiseEndpoint c ≠ "") then c_AdvertiseEndpoint c
  else if decide (c_STUNServer c = "") then ""
  else default "" (discoverPublicEndpoint decode (se_wire e) (se_tx4 e) (c_STUNServer c) listenPort).
Definition discover6 (c : agentConfig) (e : StartEnv) (listenPort : Z) : string :=
  if bool_decide (c_AdvertiseEndpoint c ≠ "") || bool_decide (c_STUNServer c = "") || c_NoIPv6 c then ""
  else default "" (discoverPublicEndpoint6 decode (se_wire e) (se_tx6 e) (c_STUNServer c) listenPort).

(** The request: no overlay network is known yet. *)
Definition enroll_request (c : agentConfig) (e : StartEnv) (publicKey : string) (listenPort : Z) : EnrollRequest :=
  let port := effectiveListenPort (c_ListenPort c) listenPort in
  let ep6 := discover6 c e port in
  mkEnrollRequest (c_SetupKey c) publicKey (agentHostname (c_Hostname c) (se_hostname e)) port
    (discover4 c e listenPort)
    (gatherLocalCandidates port (c_ManageFirewall c) (temporaryV6Addrs (se_listed e)) [] (se_ifs e)
     ++ (if decide (ep6 = "") then [] else [mkAgentCandidate ep6 "stun6"])
     ++ (if decide (c_AdvertiseEndpoint c = "") then [] else [mkAgentCandidate (c_AdvertiseEndpoint c) "pinned"]))
    (c_AdvertiseExitNode c).

Definition or_other {A} (what : string) (o : option A) : startup_error + A :=
  match o with Some a => inr a | None => inl (errOther what) end.

(** What the answer means for this host.  [--addr6] stays in force in a mesh
    without IPv6. *)
Definition adopt_enrollment (c : agentConfig) (ep ep6 : string) (port : Z) (r : EnrollResponse)
  : startup_error + agentStartupState :=
  match ParsePrefix (rs_NetworkCIDR r) with
  | None => inl (errOther "parse network CIDR")
  | Some net =>
      match overlayAddress (rs_AssignedIP r) net with
      | None => inl (errOther "parse overlay address")
      | Some addr =>
          let v6 := if decide (rs_NetworkCIDR6 r = "") then Some (no_prefix, c_Addr6 c)
                    else net6 ← ParsePrefix (rs_NetworkCIDR6 r);
                         addr6 ← overlayAddress (rs_AssignedIP6 r) net6; Some (net6, addr6) in
          match v6 with
          | None => inl (errOther "parse IPv6 network")
          | Some (net6, addr6) =>
              match mapM (peerConfigFromProto ResolveUDPAddr ParseKey) (rs_Peers r) with
              | None => inl (errOther "peer entry")
              | Some peers =>
                  inr (mkStartup addr addr6 peers (rs_GatewayRoutes r) (existsb pcr_ExitNode (rs_Peers r))
                         (rs_ExitNodeActive r) (rs_AuthToken r) (Some (rs_ACL r)) (rs_DNS r) net net6 ep ep6
                         (rs_STUNServers r) port)
              end
          end
      end
  end.

Definition startupState (c : agentConfig) (e : StartEnv) (publicKey : string) (listenPort : Z)
  : startup_error + agentStartupState :=
  if decide (c_Server c = "") then
    inr (mkStartup (c_Addr c) (c_Addr6 c) [] [] false false "" None no_dns no_prefix no_prefix "" "" [] 0)
  else if decide (c_SetupKey c = "") then inl errSetupKeyRequired
  else
    let port := effectiveListenPort (c_ListenPort c) listenPort in
    match enroll e (c_Server c) (c_ServerCA c) (enroll_request c e publicKey listenPort) with
    | inl err => inl err
    | inr r => adopt_enrollment c (discover4 c e listenPort) (discover6 c e port) port r
    end.
End startup.

(** ** Retrying *)
Definition startupRetryMin : Z := 2 * Second.
Definition startupRetryMax : Z := Minute.

Definition isPermanentStartupErr (e : startup_error) : bool :=
  match e with
  | errSetupKeyRequired => true
  | enrollRejected status =>
      (400 <=? status) && (status <? 500) && negb (status =? 408) && negb (status =? 404) && negb (status =? 429)
  | errOther _ => false
  end.

(** How the loop ends; [Trying] is a loop that has not ended with the attempts
    that were made. *)
Inductive started (A : Type) : Type :=
| Started (a : A)
| Refused (e : startup_error)
| Stopped (e : startup_error)
| Trying.
Arguments Started {A}. Arguments Refused {A}. Arguments Stopped {A}. Arguments Trying {A}.

(** Each attempt comes with its result and whether the agent is stopped while it
    waits after it; the second component are the waits. *)
Fixpoint startupStateRetry {A} (delay : Z) (l : list ((startup_error + A) * bool)) : started A * list Z :=
  match l with
  | [] => (Trying, [])
  | (inr a, _) :: _ => (Started a, [])
  | (inl e, stop) :: l =>
      if isPermanentStartupErr e then (Refused e, [])
      else if stop : bool then (Stopped e, [delay])
      else let '(r, ws) := startupStateRetry (Z.min (delay * 2) startupRetryMax) l in (r, delay :: ws)
  end.

(** ** Peers given by hand *)
Section manual.
Context (ResolveUDPAddr ParseKey : string → option string).

Definition buildPeerConfig (pubkey endpoint allowedCIDR allowedCIDR6 presharedKey : string) : option PeerConfig :=
  publicKey ← ParseKey pubkey;
  udpAddr ← (if decide (endpoint = "") then Some None else Some <$> ResolveUDPAddr endpoint);
  allowed ← ParseCIDR allowedCIDR;
  allowed6 ← (if decide (allowedCIDR6 = "") then Some [] else (λ x, [x]) <$> ParseCIDR allowedCIDR6);
  psk ← (if decide (presharedKey = "") then Some None else Some <$> ParseKey presharedKey);
  Some (mkPeerCfg publicKey false false psk udpAddr (Some (25 * Second)) false (allowed :: allowed6)).

Definition initialPeers (c : agentConfig) (enrolled : list PeerConfig) : option (list PeerConfig) :=
  if decide (c_PeerKey c = "") then Some enrolled
  else if decide (c_PeerAddr c = "") then None
  else p ← buildPeerConfig (c_PeerKey c) (c_PeerEndpoint c) (c_PeerAddr c) (c_PeerAddr6 c) (c_PeerPSK c);
       Some (enrolled ++ [p]).
End manual.

(** ** The reporter's first state *)

(** The part of [startReporter] and [newTelemetryReporter] that fills in the
    NAT-traversal fields; the port mapper starts without a mapping. *)
Definition reporter_nat (c : agentConfig) (s : agentStartupState) : Nat :=
  mkNat (su_listenPort s) (c_STUNServer c) (su_stunServers s) (su_publicEndpoint s) (su_publicEndpoint6 s)
    (bool_decide (c_AdvertiseEndpoint c ≠ "")) (c_STUNServer c) (c_NoIPv6 c)
    (if decide (c_AdvertiseEndpoint c = "") then "" else "static")
    (if c_PortMapping c then Some (pm_ext (newPortMapper (su_listenPort s))) else None) 0 false
    (c_ManageFirewall c) (su_networkPrefix s) (su_networkPrefix6 s).
(** The part a sync works on: no peer has a path yet, and the exit-node rules
    the runner installed are known. *)
Definition reporter_agent {D H} (s : agentStartupState) (exitRoutesOn exitNATOn : bool) (d : D) (h : H) : Agent D H :=
  mkAgent d h ∅ ∅ (su_stunServers s) (su_overlayAddr s) (su_overlayAddr6 s) (su_networkPrefix s)
    (su_networkPrefix6 s) "" false false false exitRoutesOn exitNATOn.

(** [None] is an error of the configuration; [Some None] an agent without a
    reporter. *)
Definition startReporter {D H} (e : StartEnv) (c : agentConfig) (s : agentStartupState)
    (exitRoutesOn exitNATOn : bool) (d : D) (h : H) : option (option (Nat * Agent D H * relayTransport)) :=
  if decide (su_authToken s = "") then Some None
  else match parseRelayTransport (c_RelayTransport c) with
       | None => None
       | Some t =>
           match newPinnedTLSConfig (se_read e) (se_certs e) (c_ServerCA c) with
           | None => Some None
           | Some _ => Some (Some (reporter_nat c s, reporter_agent s exitRoutesOn exitNATOn d h, t))
           end
       end.

(** * An agent and its control plane, from the first request on

    The agent's start-up run against the server's own handler: what [handleEnroll]
    answers is what the agent's interface and device are set up with; the retry
    loop reaches that answer; and the candidates the agent reports afterwards
    never exceed what the server keeps. *)
(** ** What an enrollment hands out *)
Lemma Enroll_hosts now raw sk pk hn lp oip pep s res db' :
  mesh_ok s → Enroll (cfg s) now raw sk pk hn lp oip pep (sdb s) = Ok (res, db') →
  is_host (network (cfg s)) (pr_AssignedIP (er_Peer res))
  ∧ (v6Enabled (cfg s) = true → is_host (Network6 (cfg s)) (pr_AssignedIP6 (er_Peer res)))
  ∧ (∀ o, o ∈ er_Others res → ∃ p, p ∈ peers db' ∧ o = peer_row p)
  ∧ pr_PublicKey (er_Peer res) = pk.
Proof.
  intros H He. pose proof (m_db _ H) as Hd. pose proof (m_nets _ H) as Hn.
  destruct (known_or_unknown pk (sdb s)) as [Hu|(q & Hq & Epk)].
  - destruct (Enroll_new_inv _ _ _ _ _ _ _ _ _ _ _ _ Hd Hu He) as (k & ip & ip6 & _ & _ & A & _ & -> & ->).
    destruct (allocate_overlay_hosts _ _ _ _ _ Hn A) as [H4 _]. apply allocate_overlay_Ok in A as (_ & _ & A6).
    split_and!; [done| | |done].
    + intros V. rewrite V in A6. eapply allocateAddr_host; [by apply Hn|exact A6].
    + intros o (p & ? & _ & ?)%listVisible_elem. eauto.
  - destruct (Enroll_known_inv _ _ _ _ _ _ _ _ _ _ _ _ _ Hd Hq Epk He)
      as (k & ip6 & _ & _ & _ & _ & Hb & _ & -> & _ & E4 & Ek & _ & _ & Eo & E6).
    destruct (m_overlay _ H q Hq) as [O4 O6]. split_and!; [by rewrite E4| | |done].
    + intros V. rewrite E6. unfold backfill in Hb. rewrite V in Hb. cbn [andb] in Hb. unfold if_set.
      case_bool_decide as Eq.
      * case_decide as E; [|by eapply allocateAddr_host; [apply Hn|exact Hb]].
        destruct (addr_string_nonempty _ _ _ _ _ (proj2 Hn V) Hb E).
      * injection Hb as <-. rewrite decide_True by done.
        destruct (p_assigned_ip6 q) as [a|] eqn:Ea; [|done]. by apply O6.
    + rewrite Eo. intros o (p & ? & _ & ?)%listVisible_elem. eauto.
Qed.

(** The server announces the networks it allocates from; without IPv6, none. *)
Definition announces (w : World) : Prop :=
  sv_networkCIDR (w_server w) = prefix_string (network (w_cfg w))
  ∧ sv_network6CIDR (w_server w) = if v6Enabled (w_cfg w) then prefix_string (Network6 (w_cfg w)) else "".

Lemma prefix_round_trip p : net_ok p = true → ParsePrefix (prefix_string p) = Some p.
Proof.
  intros H. pose proof (net_ok_elim p H) as (w & Hv & Hz & Hw & Hs & Hp & _ & Hb).
  apply ParsePrefix_string; [done| |done]. unfold addr_wf. rewrite Hw. lia.
Qed.
Lemma overlayAddress_host net t :
  net_ok net = true → is_host net t → overlayAddress t net = Some (t +:+ "/" +:+ Itoa (pbits net)).
Proof.
  intros Hn (k & Hk & ->). destruct (host_wf net k Hn ltac:(lia)) as [Hv Hw]. unfold overlayAddress.
  by rewrite ParseAddr_string.
Qed.
Lemma prefix_string_ne p : prefix_string p ≠ "".
Proof. unfold prefix_string. case_match; [|done]. by destruct (addr_string (paddr p)). Qed.

(** ** The agent meets the server *)

(** The server's reply as the agent's client sees it. *)
Definition server_answer (rep : reply EnrollResponse) : answer :=
  match rep with Good out => Answer 200 (Some out) | Status code _ => Answer code None end.

(** A peer of the answer and the configuration made of it. *)
Definition entry_adopted (KS : list Z → string) (master : list Z) (pub : string) (e : PeerConfigResponse)
    (p : PeerConfig) : Prop :=
  cf_PublicKey p = pcr_PublicKey e ∧ cf_AllowedIPs p = pcr_AllowedIPs e
  ∧ cf_PresharedKey p = Some (KS (DerivePairKey master pub (pcr_PublicKey e))).

Lemma skipped_endpoint KS s self others o :
  skipped self o = true → entry_endpoint (peer_entry KS s self others o) = "".
Proof.
  unfold skipped, routed_mobile. intros [[Hs _]%andb_prop _]%andb_prop. unfold peer_entry. by rewrite Hs.
Qed.

Lemma Enroll_entries_convert resolve ParseKey KS sv self now raw sk pk hn lp oip pep s res db' :
  mesh_ok s → families (cfg s) → Enroll (cfg s) now raw sk pk hn lp oip pep (sdb s) = Ok (res, db') →
  pr_PublicKey self = pk →
  (∀ k, ParseKey (KS k) = Some (KS k)) → ParseKey pk = Some pk →
  (∀ p, p ∈ peers (sdb s) → ParseKey (p_public_key p) = Some (p_public_key p)) →
  (∀ e, e ∈ buildPeerEntries KS sv self (er_Others res) → entry_endpoint e = "" ∨ is_Some (resolve (entry_endpoint e))) →
  ∃ ps, mapM (peerConfigFromProto resolve ParseKey) (buildPeerEntries KS sv self (er_Others res)) = Some ps
    ∧ Forall2 (entry_adopted KS (sv_pskMaster sv) pk) (buildPeerEntries KS sv self (er_Others res)) ps.
Proof.
  intros H Hf He Hpk Hks Hpub Hkeys Hep. pose proof (Enroll_hosts _ _ _ _ _ _ _ _ _ _ _ H He) as (_ & _ & Ho & _).
  pose proof (enroll_mesh _ _ _ _ _ _ _ _ _ _ _ H He) as H'.
  assert (usable_entries KS sv self (er_Others res) resolve ParseKey db') as Hu.
  { split_and!; [|done|].
    - intros p Hp. destruct (Enroll_token_row _ _ _ _ _ _ _ _ _ _ _ _ (m_db _ H) He) as (x & _ & _ & _ & Ex & _ & _ & Hall & _).
      destruct (Hall p Hp) as [->|?]; [by rewrite Ex|by apply Hkeys].
    - intros o Hin. cbn zeta. destruct (skipped self o) eqn:Es; [left; by apply skipped_endpoint|].
      apply Hep, list_elem_of_fmap. exists o. split; [done|]. by apply elem_of_direct. }
  exists (entry_config KS sv self (er_Others res) resolve <$>
    filter (λ o, Is_true (negb (skipped self o))) (er_Others res)). split.
  - eapply entries_convert; [apply (m_nets _ H')|exact Hf|apply (m_overlay _ H')|exact Hu|exact Ho].
  - unfold buildPeerEntries. apply Forall2_fmap, Forall_Forall2_diag, Forall_forall. intros o _.
    unfold entry_adopted, entry_config. cbn. rewrite entry_key, Hpk. done.
Qed.

Section startup.
Context (decode : list Z → option (list Z * option (list Z * Z))).
Context (resolve ParseKey : string → option string) (accepts resolves : string → bool) (KS : list Z → string).

(** C14: an agent that is enrolled comes up with what the server recorded, if it
    can resolve the endpoints it is told.  Let an agent with a server, a setup
    key and a readable certificate pin send its start-up request to a server
    with a well-formed store that announces the networks it allocates from, an
    IPv4 and possibly an IPv6 one, whose keys are in the form the key parser
    gives back, and let the server's handler accept it.  If every entry's first
    endpoint is absent or resolves at the agent, the start-up succeeds: the
    interface address is the host address of the overlay the server assigned,
    with the length of the server's network, in both families; the token is the
    one the server stored the hash of; and the device is given a peer for every
    entry, with the entry's networks and the pair's preshared key.  If one does
    not resolve, the attempt fails, with an error that is tried again. *)
Theorem agent_starts c e pub port now later raw r w out w' :
  mesh_ok (w_store w) → families (w_cfg w) → announces w →
  c_Server c ≠ "" → c_SetupKey c ≠ "" → is_Some (newPinnedTLSConfig (se_read e) (se_certs e) (c_ServerCA c)) →
  handleEnroll accepts resolves KS now later raw r (Decoded (enroll_request decode c e pub port)) w = (Good out, w') →
  se_post e (c_Server c +:+ "/enroll") (enroll_request decode c e pub port) = server_answer (Good out) →
  (∀ k, ParseKey (KS k) = Some (KS k)) → ParseKey pub = Some pub →
  (∀ p, p ∈ peers (w_db w) → ParseKey (p_public_key p) = Some (p_public_key p)) →
  ((∀ x, x ∈ rs_Peers out → entry_endpoint x = "" ∨ is_Some (resolve (entry_endpoint x))) →
   ∃ s, startupState decode resolve ParseKey c e pub port = inr s
    ∧ is_host (network (w_cfg w)) (rs_AssignedIP out)
    ∧ su_overlayAddr s = rs_AssignedIP out +:+ "/" +:+ Itoa (pbits (network (w_cfg w)))
    ∧ su_networkPrefix s = network (w_cfg w)
    ∧ (v6Enabled (w_cfg w) = true →
        is_host (Network6 (w_cfg w)) (rs_AssignedIP6 out) ∧ su_networkPrefix6 s = Network6 (w_cfg w)
        ∧ su_overlayAddr6 s = rs_AssignedIP6 out +:+ "/" +:+ Itoa (pbits (Network6 (w_cfg w))))
    ∧ (∃ p, p ∈ peers (w_db w') ∧ p_public_key p = pub ∧ p_assigned_ip p = rs_AssignedIP out
         ∧ p_auth_token_hash p = Some (HashToken (su_authToken s)))
    ∧ Forall2 (entry_adopted KS (sv_pskMaster (w_server w)) pub) (rs_Peers out) (su_enrolledPeers s))
  ∧ ∀ x, x ∈ rs_Peers out → entry_endpoint x ≠ "" → resolve (entry_endpoint x) = None →
      ∃ err, startupState decode resolve ParseKey c e pub port = inl err ∧ isPermanentStartupErr err = false.
Proof using.
  intros H Hf [Ha4 Ha6] Hsrv Hkey [pool Hca] Hh Hpost Hks Hpub Hkeys. split.
  2:{ intros x Hx Hne Hr. unfold startupState. rewrite !decide_False by done. unfold enroll. rewrite Hca, Hpost.
      cbn [server_answer]. change (negb (200 =? 200)) with false. cbv iota. unfold adopt_enrollment.
      rewrite (unresolved_entry resolve ParseKey x _ Hx Hne Hr). repeat case_match; (eexists; split; reflexivity). }
  intros Hep.
  apply handleEnroll_Good in Hh as (req & res & db & [= <-] & He & Hcalm & _ & Etok & E4 & _ & E6 & En4 & En6 & self & Es & Eps);
    [|apply H].
  pose proof (Enroll_hosts _ _ _ _ _ _ _ _ _ _ _ H He) as (H4 & H6 & _ & Epub).
  rewrite Eps in Hep. destruct (Enroll_entries_convert resolve ParseKey KS (w_server w) self _ _ _ _ _ _ _ _ _ _ _
    H Hf He (eq_trans Es Epub) Hks Hpub Hkeys Hep) as (ps & Hps & Hall).
  destruct (m_nets _ H) as [Hn4 Hn6]. change (cfg (w_store w)) with (w_cfg w) in *.
  assert (∃ p, p ∈ peers (w_db w') ∧ p_public_key p = pub ∧ p_assigned_ip p = rs_AssignedIP out
    ∧ p_auth_token_hash p = Some (HashToken (rs_AuthToken out))) as Hrow.
  { destruct (Enroll_token_row _ _ _ _ _ _ _ _ _ _ _ _ (m_db _ H) He) as (p & Hp & _ & R2 & R3 & R4 & _).
    apply list_elem_of_lookup in Hp as [i Hi].
    destruct (Forall2_lookup_l _ _ _ _ _ (calm_rows _ _ Hcalm) Hi) as (p' & Hi' & K).
    change (en_PublicKey (enroll_request decode c e pub port)) with pub in R3.
    exists p'. split; [by eapply list_elem_of_lookup_2|]. destruct K. split_and!; congruence. }
  unfold startupState. rewrite !decide_False by done. unfold enroll. rewrite Hca, Hpost. cbn [server_answer].
  change (negb (200 =? 200)) with false. cbv iota. unfold adopt_enrollment.
  rewrite En4, Ha4, (prefix_round_trip _ Hn4), E4, (overlayAddress_host _ _ Hn4 H4), En6, Ha6, E6, Eps.
  destruct (v6Enabled (w_cfg w)) eqn:V.
  - rewrite decide_False by (apply prefix_string_ne). rewrite (prefix_round_trip _ (Hn6 eq_refl)). cbn [mbind option_bind].
    rewrite (overlayAddress_host _ _ (Hn6 eq_refl) (H6 eq_refl)). cbn [mbind option_bind]. rewrite Hps.
    eexists. split; [done|]. cbn. rewrite <-E4. split_and!; auto. congruence.
  - rewrite decide_True by done. rewrite Hps. eexists. split; [done|]. cbn. rewrite <-E4. split_and!; auto; congruence.
Qed.

(** ** What an agent reports afterwards *)
Lemma startup_endpoints c e pub port s :
  c_Server c ≠ "" → startupState decode resolve ParseKey c e pub port = inr s →
  su_publicEndpoint s = discover4 decode c e port
  ∧ su_publicEndpoint6 s = discover6 decode c e (su_listenPort s).
Proof using.
  intros Hsrv. unfold startupState. rewrite decide_False by done. case_decide; [done|].
  destruct (enroll _ _ _ _) as [?|r]; [done|]. unfold adopt_enrollment.
  repeat (case_match; try done); by intros [= <-].
Qed.

Lemma startup_pinned c e pub port s :
  c_Server c ≠ "" → c_AdvertiseEndpoint c ≠ "" → startupState decode resolve ParseKey c e pub port = inr s →
  pinned_at (c_AdvertiseEndpoint c) "static" (reporter_nat c s).
Proof using.
  intros Hsrv Hpin Hs. destruct (startup_endpoints _ _ _ _ _ Hsrv Hs) as [E4 E6].
  unfold discover4 in E4. rewrite decide_True in E4 by done. unfold discover6 in E6.
  rewrite bool_decide_true in E6 by done. unfold pinned_at, reporter_nat. cbn.
  rewrite bool_decide_true, decide_False by done. done.
Qed.

Lemma nat_step_pinned n n' : nat_step n n' → n_endpointPinned n' = n_endpointPinned n ∧ n_listenPort n' = n_listenPort n.
Proof using.
  intros [n0|n0 m p Hb|n0 x x' _|n0 l x y]; [|unfold nat_check_done; by destruct m as [[? ?]|]|done..].
  unfold maybeNATCheck. by repeat (case_match; try done).
Qed.

(** C15: the server keeps the candidates a running agent reports.  Let the
    interfaces' addresses be well formed, and let literal addresses resolve at
    the server.  However the agent's public address, its router's mapping, the
    mesh's networks and the answers to its periodic checks change after
    start-up, it reports at most eight candidates, the number the server stores,
    so that none is cut off and the stored ones are exactly those that pass the
    server's check; with a known (non-zero) listen port those of its own
    interfaces all pass it.  An endpoint pinned by the operator is never
    replaced by a measurement; it is among the stored candidates if the listen
    port is known and the server can resolve it, and dropped if the server
    cannot. *)
Theorem candidates_fit c e pub port s n listed ifs :
  c_Server c ≠ "" → startupState decode resolve ParseKey c e pub port = inr s →
  nat_steps (reporter_nat c s) n → literals_resolve resolves → from_option host_ok True ifs →
  let cs := selfCandidates listed ifs n in
  (length cs ≤ maxAgentCandidates)%nat
  ∧ validAgentCandidates resolves cs = filter (λ x, Is_true (accepted resolves x)) cs
  ∧ (su_listenPort s ≠ 0 → ∀ x,
       x ∈ gatherLocalCandidates (su_listenPort s) (n_advertiseV6 n) (temporaryV6Addrs listed)
             [n_network n; n_network6 n] ifs → x ∈ validAgentCandidates resolves cs)
  ∧ (c_AdvertiseEndpoint c ≠ "" →
       n_publicEndpoint n = c_AdvertiseEndpoint c ∧ n_natType n = "static"
       ∧ (su_listenPort s ≠ 0 →
            (mkAgentCandidate (c_AdvertiseEndpoint c) "pinned" ∈ validAgentCandidates resolves cs
             ↔ resolves (c_AdvertiseEndpoint c) = true))).
Proof using.
  intros Hsrv Hs Hn Hlit Hok cs.
  assert (n_endpointPinned n = bool_decide (c_AdvertiseEndpoint c ≠ "") ∧ n_listenPort n = su_listenPort s) as [Hp Hl].
  { apply (nat_steps_ind (λ n, n_endpointPinned n = bool_decide (c_AdvertiseEndpoint c ≠ "") ∧ n_listenPort n = su_listenPort s)
      (reporter_nat c s)); [|done|done]. intros a b [-> ->]%nat_step_pinned. done. }
  assert (c_AdvertiseEndpoint c ≠ "" → pinned_at (c_AdvertiseEndpoint c) "static" n) as Hpin.
  { intros Ha. eapply nat_steps_ind; [intros a b; apply pinned_at_step|exact Hn|by eapply startup_pinned]. }
  assert (length cs ≤ maxAgentCandidates)%nat as Hlen.
  { apply selfCandidates_length. rewrite Hp. intros Ha%bool_decide_eq_true. apply (Hpin Ha). }
  pose proof (keep_all resolves cs Hlen) as Hkeep.
  assert (∀ x, x ∈ cs → accepted resolves x = true → x ∈ validAgentCandidates resolves cs) as Hin.
  { intros x Hx Ha. rewrite Hkeep. apply list_elem_of_filter. split; [by rewrite Ha|done]. }
  split_and!; [done|done| |].
  - intros Hport x Hx. apply Hin; [|by eapply gather_accepted].
    unfold cs, selfCandidates. rewrite Hl. destruct (Z.eqb_spec (su_listenPort s) 0); [done|]. apply elem_of_app. by left.
  - intros Ha. destruct (Hpin Ha) as (P1 & P2 & _ & P4 & _). split_and!; [done|done|]. intros Hport. split.
    { rewrite Hkeep. intros [Hr _]%list_elem_of_filter. apply Is_true_true in Hr. unfold accepted in Hr. cbn in Hr.
      by apply andb_prop in Hr as [_ ?]. }
    intros Hr. apply Hin.
    + unfold cs, selfCandidates. rewrite Hl. destruct (Z.eqb_spec (su_listenPort s) 0); [done|].
      rewrite P1, P2, bool_decide_true by done. cbn [andb]. rewrite !elem_of_app. right; right; right. by left.
    + unfold accepted. cbn. by rewrite Hr.
Qed.
End startup.

(** ** Retrying *)
Definition retry_wait (i : nat) : Z := Z.min (2 ^ (Z.of_nat i + 1) * Second) Minute.

Lemma retry_schedule {A} d errs (l : list ((startup_error + A) * bool)) :
  0 ≤ d → Forall (λ e, isPermanentStartupErr e = false) errs →
  (∀ d', (startupStateRetry d' l).2 = []) →
  startupStateRetry (Z.min d startupRetryMax) (((λ e, (inl e, false)) <$> errs) ++ l)
  = ((startupStateRetry 0 l).1, (λ i, Z.min (d * 2 ^ Z.of_nat i) startupRetryMax) <$> seq 0 (length errs)).
Proof.
  intros Hd He Hl. revert d Hd. induction He as [|e errs He _ IH]; intros d Hd.
  - simpl. destruct l as [|[[e|a] b] l]; [done| |done]. simpl. specialize (Hl 0). cbn in Hl.
    destruct (isPermanentStartupErr e); [done|]. destruct b; [done|]. by destruct (startupStateRetry _ l).
  - cbn [fmap list_fmap app startupStateRetry]. rewrite He.
    replace (Z.min (Z.min d startupRetryMax * 2) startupRetryMax) with (Z.min (d * 2) startupRetryMax)
      by (pose proof (eq_refl : (0 <=? startupRetryMax) = true); lia).
    rewrite IH by lia. cbn [length seq fmap list_fmap]. f_equal. f_equal; [by rewrite Z.pow_0_r, Z.mul_1_r|].
    rewrite <-fmap_S_seq, <-list_fmap_compose. apply list_fmap_ext. intros i x _. simpl.
    rewrite Nat2Z.inj_succ, Z.pow_succ_r by lia. by rewrite Z.mul_assoc.
Qed.

(** Start-up ends with the first verdict.  As long as the control plane
    cannot be reached, is overloaded or is not there yet, the agent tries again,
    after two seconds, doubled each time up to one minute; the first success is
    what it starts with, and the first refusal ends it, without further waiting. *)
Theorem startup_retry {A} errs (last : startup_error + A) b rest :
  Forall (λ e, isPermanentStartupErr e = false) errs →
  (∀ e, last = inl e → isPermanentStartupErr e = true) →
  startupStateRetry startupRetryMin (((λ e, (inl e, false)) <$> errs) ++ (last, b) :: rest)
  = (match last with inr a => Started a | inl e => Refused e end, retry_wait <$> seq 0 (length errs)).
Proof.
  intros He Hlast. change startupRetryMin with (Z.min startupRetryMin startupRetryMax) at 1.
  rewrite retry_schedule; [|by vm_compute|done|].
  - f_equal.
    + destruct last as [e|a]; [|done]. simpl. by rewrite (Hlast e).
    + apply list_fmap_ext. intros i x _. unfold retry_wait, startupRetryMin, startupRetryMax.
      rewrite Z.add_1_r, Z.pow_succ_r by lia. f_equal. lia.
  - intros d'. destruct last as [e|a]; [|done]. simpl. by rewrite (Hlast e).
Qed.

(** ** An agent and a server *)
Definition ex_config (pin : string) : agentConfig :=
  mkAgentConfig "100.64.0.1/16" "" "" "" "" "" "" "https://mesh.example" "CQkJ" "" "" 0 "stun.example:3478" true "auto"
    true "" pin "auto" true true false false "wgkey.key" "info" "" 51820.
Definition ex_wire : Wire := mkWire (λ _ _, true) (λ _ _, true) (λ _ _, true) (λ _ _ _, [[1]]).
Definition ex_decode (pkt : list Z) : option (list Z * option (list Z * Z)) :=
  Some ([7], Some ([203; 0; 113; 9], 40000)).
Local Abbreviation ex_serve req :=
  (handleEnroll any_key any_key StdEncode sample_now sample_now [5; 6; 7] (ex_request "") (Decoded req) ex_world).
Definition ex_env : StartEnv :=
  mkStartEnv ex_wire [7] [8] (Some "host") None (Some ex_ifaces) (λ _, None) (λ _, false)
    (λ _ req, server_answer (ex_serve req).1).
Definition ex_started : startup_error + agentStartupState :=
  startupState ex_decode Some Some (ex_config "") ex_env "pubA" 51820.

Local Abbreviation ex_first_request := (enroll_request ex_decode (ex_config "") ex_env "pubA" 51820).
Definition ex_state : agentStartupState :=
  match ex_started with
  | inr s => s
  | inl _ => mkStartup "" "" [] [] false false "" None no_dns no_prefix no_prefix "" "" [] 0
  end.
Lemma ex_started_state :
  ex_started = inr ex_state ∧ su_overlayAddr ex_state = "100.64.0.1/30"
  ∧ su_publicEndpoint ex_state = "203.0.113.9:40000" ∧ (cf_PublicKey <$> su_enrolledPeers ex_state) = ["pubB"; "phone"].
Proof. vm_compute. split_and!; reflexivity. Qed.
Lemma ex_env_post url req : se_post ex_env url req = server_answer (ex_serve req).1.
Proof. reflexivity. Qed.
Lemma ex_good : match (ex_serve ex_first_request).1 with Good _ => true | Status _ _ => false end = true.
Proof. vm_compute. reflexivity. Qed.
Lemma ex_served : ∃ out w',
  ex_serve ex_first_request = (Good out, w')
  ∧ se_post ex_env (c_Server (ex_config "") +:+ "/enroll") ex_first_request = server_answer (Good out).
Proof.
  rewrite ex_env_post. pose proof ex_good as G.
  destruct (ex_serve ex_first_request) as [[code msg|out] w']; [discriminate G|]. exists out, w'. split; reflexivity.
Qed.

Lemma agent_starts_witness :
  ∃ s, ex_started = inr s ∧ su_overlayAddr s = "100.64.0.1/30"
    ∧ su_publicEndpoint s = "203.0.113.9:40000" ∧ (cf_PublicKey <$> su_enrolledPeers s) = ["pubB"; "phone"]
    ∧ ∃ p, p ∈ peers (w_db (ex_serve ex_first_request).2) ∧ p_auth_token_hash p = Some (HashToken (su_authToken s)).
Proof.
  destruct ex_served as (out & w' & E & Epost).
  destruct (agent_starts ex_decode Some Some any_key any_key StdEncode (ex_config "") ex_env "pubA" 51820 sample_now
    sample_now [5; 6; 7] (ex_request "") ex_world out w') as [Hup _].
  - exact sample_mesh.
  - split; [vm_compute; reflexivity|]. intros H. vm_compute in H. discriminate.
  - split; vm_compute; reflexivity.
  - discriminate.
  - discriminate.
  - by eexists.
  - exact E.
  - exact Epost.
  - intros k. reflexivity.
  - reflexivity.
  - intros q _. reflexivity.
  - destruct Hup as (s & H & _ & _ & _ & _ & (p & Hp & _ & _ & Ht) & _); [intros x _; right; by eexists|].
    destruct ex_started_state as (E0 & E1 & E2 & E3). exists s.
    pose proof (eq_trans (eq_sym E0) H) as Hs. apply (f_equal (λ x, match x with inr a => a | inl _ => s end)) in Hs.
    cbv beta iota in Hs. destruct Hs.
    split; [exact H|]. split; [exact E1|]. split; [exact E2|]. split; [exact E3|].
    exists p. rewrite E. split; [exact Hp|exact Ht].
Defined.

Definition ex_pinned : agentStartupState :=
  match startupState ex_decode Some Some (ex_config "vpn.example:51820") ex_env "pubA" 51820 with
  | inr s => s
  | inl _ => mkStartup "" "" [] [] false false "" None no_dns no_prefix no_prefix "" "" [] 0
  end.
(** Literal addresses resolve, and so does the pinned name. *)
Definition ex_nat : Nat :=
  with_external (Some "203.0.113.9:51820") (maybeNATCheck (reporter_nat (ex_config "vpn.example:51820") ex_pinned)).1.
Lemma ex_pinned_port : su_listenPort ex_pinned = 51820.
Proof. vm_compute. reflexivity. Qed.
Lemma candidates_fit_witness :
  selfCandidates None (Some ex_ifaces) ex_nat
  = [mkAgentCandidate "10.0.0.7:51820" "host"; mkAgentCandidate "192.168.1.20:51820" "host";
     mkAgentCandidate "[2001:db8::5]:51820" "host6"; mkAgentCandidate "203.0.113.9:51820" "upnp";
     mkAgentCandidate "vpn.example:51820" "pinned"]
  ∧ mkAgentCandidate "vpn.example:51820" "pinned"
    ∈ validAgentCandidates any_key (selfCandidates None (Some ex_ifaces) ex_nat).
Proof.
  split; [vm_compute; reflexivity|].
  destruct (candidates_fit ex_decode Some Some any_key (ex_config "vpn.example:51820") ex_env "pubA" 51820 ex_pinned
    ex_nat None (Some ex_ifaces)) as (_ & _ & _ & H).
  - discriminate.
  - vm_compute. reflexivity.
  - eapply rtc_l; [apply nat_tick|]. eapply rtc_l; [|apply rtc_refl]. eapply nat_mapped. vm_compute. reflexivity.
  - intros a p _ _ _ _. reflexivity.
  - exact ex_ifaces_ok.
  - apply H; [discriminate|rewrite ex_pinned_port; discriminate|reflexivity].
Defined.

Lemma startup_retry_witness :
  startupStateRetry startupRetryMin
    [(inl (errOther "post enroll"), false); (inl (enrollRejected 503), false); (inl (enrollRejected 404), false);
     (ex_started, false)]
  = (match ex_started with inr a => Started a | inl e => Refused e end, [2 * Second; 4 * Second; 8 * Second]).
Proof.
  refine (eq_trans (startup_retry [errOther "post enroll"; enrollRejected 503; enrollRejected 404] ex_started false [] _ _) _).
  - repeat constructor.
  - intros e H. rewrite (proj1 ex_started_state) in H. discriminate H.
  - reflexivity.
Defined.
