(* ===== verification/Firewall.v ===== *)
(** * Opening ports on the host firewall

    internal/firewall: the manager each component of the mesh uses to open its
    own ports on whatever firewall the host runs ([Open], [OpenWithReconcile],
    [allow], [Close]) and the four Linux backends and the one of Windows, which
    translate a rule into commands ([allowCmds], [removeCmds], [teardownCmds],
    [detect]).

    Commands are run on a host behind the class [FwHost]; what a backend's
    commands do is the class [FwLaws], with the rules of one component on one side
    and everything else on the host on the other.  Instances: a host with
    iptables and one with nftables, whose commands are interpreted argument by
    argument. *)
From S2P Require Import Prelude GoText NetFacts NumText IpTables.
From Stdlib Require Import Ascii.

Record Rule : Type := mkRule { fr_Proto : string; fr_PortMin : Z; fr_PortMax : Z }.
Inductive backend : Type := firewalldBackend | ufwBackend | nftablesBackend | iptablesBackend | netshBackend.
#[export] Instance backend_eq_dec : EqDecision backend.
Proof. solve_decision. Defined.

Definition backend_name (b : backend) : string :=
  match b with
  | firewalldBackend => "firewalld" | ufwBackend => "ufw"
  | nftablesBackend => "nftables" | iptablesBackend => "iptables" | netshBackend => "windows-defender"
  end.

(** ** Commands *)
Definition span_text (sep : string) (r : Rule) : string :=
  if fr_PortMin r =? fr_PortMax r then Itoa (fr_PortMin r)
  else Itoa (fr_PortMin r) +:+ sep +:+ Itoa (fr_PortMax r).
Definition firewalldPort (r : Rule) : string := span_text "-" r +:+ "/" +:+ fr_Proto r.
Definition ufwPort (r : Rule) : string := span_text ":" r +:+ "/" +:+ fr_Proto r.
Definition nftPort : Rule → string := span_text "-".
Definition iptablesPort : Rule → string := span_text ":".
Definition netshPort : Rule → string := span_text "-".
(** [strings.ToUpper] of the two protocols. *)
Definition netshProto (r : Rule) : string :=
  if decide (fr_Proto r = "udp") then "UDP" else if decide (fr_Proto r = "tcp") then "TCP" else fr_Proto r.
Definition netshAllow (tag : string) (r : Rule) : list string :=
  ["netsh"; "advfirewall"; "firewall"; "add"; "rule"; "name=" +:+ tag; "dir=in"; "action=allow";
   "protocol=" +:+ netshProto r; "localport=" +:+ netshPort r].
Definition netshRemove (tag : string) (r : Rule) : list string :=
  ["netsh"; "advfirewall"; "firewall"; "delete"; "rule"; "name=" +:+ tag;
   "protocol=" +:+ netshProto r; "localport=" +:+ netshPort r].
Definition iptablesCmd (action tag : string) (r : Rule) : list string :=
  ["iptables"; action; "INPUT"; "-p"; fr_Proto r; "--dport"; iptablesPort r; "-j"; "ACCEPT";
   "-m"; "comment"; "--comment"; tag].

Definition allowCmds (b : backend) (tag : string) (r : Rule) : list (list string) :=
  match b with
  | firewalldBackend => [["firewall-cmd"; "--add-port=" +:+ firewalldPort r]]
  | ufwBackend => [["ufw"; "allow"; ufwPort r; "comment"; tag]]
  | nftablesBackend =>
      [["nft"; "add"; "table"; "inet"; tag];
       ["nft"; "add"; "chain"; "inet"; tag; "input"; "{"; "type"; "filter"; "hook"; "input"; "priority"; "-10"; ";"; "}"];
       ["nft"; "add"; "rule"; "inet"; tag; "input"; fr_Proto r; "dport"; nftPort r; "accept"]]
  | iptablesBackend => [iptablesCmd "-I" tag r]
  | netshBackend => [netshAllow tag r]
  end.
Definition removeCmds (b : backend) (tag : string) (r : Rule) : list (list string) :=
  match b with
  | firewalldBackend => [["firewall-cmd"; "--remove-port=" +:+ firewalldPort r]]
  | ufwBackend => [["ufw"; "--force"; "delete"; "allow"; ufwPort r]]
  | nftablesBackend => []
  | iptablesBackend => [iptablesCmd "-D" tag r]
  | netshBackend => [netshRemove tag r]
  end.
Definition teardownCmds (b : backend) (tag : string) : option (list (list string)) :=
  match b with
  | nftablesBackend => Some [["nft"; "delete"; "table"; "inet"; tag]]
  | _ => None
  end.

(** [strings.Contains]. *)
Fixpoint str_contains (s sub : string) : bool :=
  match CutPrefix s sub with
  | Some _ => true
  | None => match s with String _ s => str_contains s sub | EmptyString => false end
  end.

(** ** The manager *)
Class FwHost (H : Type) : Type := { fw_windows : bool; fw_run : list string → H → bool * string * H }.

(** The state file: absent or not readable, or the rules it holds; [None] inside
    is a file that does not decode.  With it, what goes wrong with its coming
    writes and removals, in order; nothing once the list is used up: [Kept] leaves
    the file as it was, [Torn] is a write cut short after the file was truncated,
    whose text does not decode. *)
Inductive file_fault : Type := Kept | Torn.
Record state_file : Type := mkState { st_content : option (option (list Rule)); st_faults : list (option file_fault) }.
Definition no_state : state_file := mkState None [].
(** [os.WriteFile] and [os.Remove]; the callers do not look at the error. *)
Definition write_state (rs : list Rule) (f : state_file) : state_file :=
  mkState (match st_faults f with
           | Some Kept :: _ => st_content f
           | Some Torn :: _ => Some None
           | _ => Some (Some rs)
           end) (tail (st_faults f)).
Definition remove_state (f : state_file) : state_file :=
  mkState (match st_faults f with Some _ :: _ => st_content f | _ => None end) (tail (st_faults f)).
Record Manager : Type := mkManager {
  fm_tag : string; fm_backend : option backend; fm_rules : list Rule; fm_stateFile : string
}.

Section manager.
Context {H : Type} `{FwHost H}.

Definition detect_linux (h : H) : option backend * H :=
  let '(ok, out, h) := fw_run ["firewall-cmd"; "--state"] h in
  if ok && str_contains out "running" then (Some firewalldBackend, h)
  else
    let '(ok, out, h) := fw_run ["ufw"; "status"] h in
    if ok && str_contains out "Status: active" then (Some ufwBackend, h)
    else
      let '(ok, _, h) := fw_run ["nft"; "list"; "tables"] h in
      if ok : bool then (Some nftablesBackend, h)
      else
        let '(ok, _, h) := fw_run ["iptables"; "-S"; "INPUT"] h in
        if ok : bool then (Some iptablesBackend, h) else (None, h).

Definition detect_windows (h : H) : option backend * H :=
  let '(ok, out, h) := fw_run ["netsh"; "advfirewall"; "show"; "currentprofile"; "state"] h in
  (if ok && str_contains out "ON" then Some netshBackend else None, h).
Definition detect (h : H) : option backend * H := if fw_windows then detect_windows h else detect_linux h.

(** Stops at the first failure. *)
Fixpoint run_must (cmds : list (list string)) (h : H) : bool * H :=
  match cmds with
  | [] => (true, h)
  | c :: cmds => let '(ok, _, h) := fw_run c h in if ok : bool then run_must cmds h else (false, h)
  end.
(** Runs all of them; were there failures? *)
Fixpoint run_all (cmds : list (list string)) (h : H) : bool * H :=
  match cmds with
  | [] => (true, h)
  | c :: cmds => let '(ok, _, h) := fw_run c h in let '(ok', h) := run_all cmds h in (ok && ok', h)
  end.

Definition Open (tag : string) (h : H) : bool * Manager * H :=
  let '(b, h) := detect h in (bool_decide (is_Some b), mkManager tag b [] "", h).

Definition reconcile (m : Manager) (b : backend) (f : state_file) (h : H) : state_file * H :=
  match st_content f with
  | None | Some None => (f, h)
  | Some (Some prior) =>
      let h := (run_all (prior ≫= removeCmds b (fm_tag m)) h).2 in
      let h := match teardownCmds b (fm_tag m) with Some cmds => (run_all cmds h).2 | None => h end in
      (remove_state f, h)
  end.
Definition OpenWithReconcile (tag stateFile : string) (f : state_file) (h : H)
  : bool * Manager * state_file * H :=
  let '(ok, m, h) := Open tag h in
  let m := mkManager (fm_tag m) (fm_backend m) (fm_rules m) stateFile in
  match fm_backend m with
  | None => (ok, m, f, h)
  | Some b => let '(f, h) := reconcile m b f h in (ok, m, f, h)
  end.

Definition persist (m : Manager) (f : state_file) : state_file :=
  if decide (fm_stateFile m = "") then f else write_state (fm_rules m) f.
Definition allow (r : Rule) (m : Manager) (f : state_file) (h : H) : bool * Manager * state_file * H :=
  match fm_backend m with
  | None => (true, m, f, h)
  | Some b =>
      let '(ok, h) := run_must (allowCmds b (fm_tag m) r) h in
      if ok then
        let m := mkManager (fm_tag m) (fm_backend m) (fm_rules m ++ [r]) (fm_stateFile m) in
        (true, m, persist m f, h)
      else (false, m, f, h)
  end.
Definition AllowUDP (port : Z) := allow (mkRule "udp" port port).
Definition AllowUDPRange (min max : Z) := allow (mkRule "udp" min max).
Definition AllowTCP (port : Z) := allow (mkRule "tcp" port port).

Definition clearState (m : Manager) (f : state_file) : Manager * state_file :=
  (mkManager (fm_tag m) (fm_backend m) [] (fm_stateFile m), if decide (fm_stateFile m = "") then f else remove_state f).
(** [Manager.Close]. *)
Definition Close (m : Manager) (f : state_file) (h : H) : bool * Manager * state_file * H :=
  match fm_backend m with
  | None => (true, m, f, h)
  | Some b =>
      match fm_rules m with
      | [] => (true, m, f, h)
      | rules =>
          let cmds := match teardownCmds b (fm_tag m) with
                      | Some cmds => cmds
                      | None => reverse rules ≫= removeCmds b (fm_tag m)
                      end in
          let '(ok, h) := run_all cmds h in
          let '(m, f) := clearState m f in (ok, m, f, h)
      end
  end.
End manager.

(** ** What the commands of a backend do

    [ours] are the rules of the component with this tag, as the firewall keeps
    them; [others] is the rest of the host.  The laws are those of a firewall that
    tells the component's rules from others', keeps a rule as often as it was
    added, and removes one that is there when told to; iptables and nftables,
    whose commands are interpreted below, are such.  firewalld, which has one bit
    per port, is not: see [firewalld_closes_foreign_port]. *)
Definition rule_text (b : backend) (tag : string) (r : Rule) : list string :=
  match b with
  | firewalldBackend => [firewalldPort r]
  | ufwBackend => [ufwPort r]
  | nftablesBackend => [fr_Proto r; "dport"; nftPort r; "accept"]
  | iptablesBackend => ["-p"; fr_Proto r; "--dport"; iptablesPort r; "-j"; "ACCEPT"; "-m"; "comment"; "--comment"; tag]
  | netshBackend => ["name=" +:+ tag; "protocol=" +:+ netshProto r; "localport=" +:+ netshPort r]
  end.

Class FwLaws (H O : Type) `{FwHost H} (b : backend) (tag : string) : Type := {
  ours : H → list (list string);
  others : H → O;
  detected h : detect h = (Some b, h);
  allow_done r h h' : run_must (allowCmds b tag r) h = (true, h') →
    ours h' ≡ₚ rule_text b tag r :: ours h ∧ others h' = others h;
  allow_failed r h h' : run_must (allowCmds b tag r) h = (false, h') →
    ours h' ≡ₚ ours h ∧ others h' = others h;
  remove_done r h : teardownCmds b tag = None → rule_text b tag r ∈ ours h →
    ∃ h', run_all (removeCmds b tag r) h = (true, h')
      ∧ rule_text b tag r :: ours h' ≡ₚ ours h ∧ others h' = others h;
  remove_absent r h : teardownCmds b tag = None → rule_text b tag r ∉ ours h →
    ours (run_all (removeCmds b tag r) h).2 = ours h ∧ others (run_all (removeCmds b tag r) h).2 = others h;
  teardown_done cmds h : teardownCmds b tag = Some cmds →
    (∀ r, removeCmds b tag r = [])
    ∧ ours (run_all cmds h).2 = [] ∧ others (run_all cmds h).2 = others h
    ∧ (ours h ≠ [] → (run_all cmds h).1 = true)
}.

Section facts.
Context {H O : Type} {F : FwHost H} {b : backend} {tag : string} {L : FwLaws H O b tag}.

Lemma run_all_app cs cs' (h : H) :
  run_all (cs ++ cs') h = ((run_all cs h).1 && (run_all cs' (run_all cs h).2).1, (run_all cs' (run_all cs h).2).2).
Proof using.
  revert h. induction cs as [|c cs IH]; intros h; simpl; [by destruct (run_all cs' h)|].
  destruct (fw_run c h) as [[ok out] h1]. rewrite IH. destruct (run_all cs h1) as [ok1 h2]. simpl.
  by rewrite andb_assoc.
Qed.

Lemma run_must_app cs cs' (h : H) :
  run_must (cs ++ cs') h = let '(ok, h1) := run_must cs h in if ok then run_must cs' h1 else (false, h1).
Proof using.
  revert h. induction cs as [|c cs IH]; intros h; [done|]. simpl. by destruct (fw_run c h) as [[[] out] h1].
Qed.

(** Removing the rules there are, in any order, and perhaps some more. *)
Lemma remove_all rs : ∀ h, teardownCmds b tag = None → ours h ⊆+ (rule_text b tag <$> rs) →
  ours (run_all (rs ≫= removeCmds b tag) h).2 = []
  ∧ others (run_all (rs ≫= removeCmds b tag) h).2 = others h.
Proof using L.
  induction rs as [|r rs IH]; intros h Ht Hr.
  - split; [|done]. by apply submseteq_nil_r.
  - change ((r :: rs) ≫= removeCmds b tag) with (removeCmds b tag r ++ (rs ≫= removeCmds b tag)).
    rewrite run_all_app. cbn [snd]. set (h1 := (run_all (removeCmds b tag r) h).2).
    assert (ours h1 ⊆+ (rule_text b tag <$> rs) ∧ others h1 = others h) as [H1 O1].
    { cbn [fmap list_fmap] in Hr. destruct (decide (rule_text b tag r ∈ ours h)) as [Hin|Hout].
      - destruct (remove_done r h Ht Hin) as (h' & E & Hp & Ho). unfold h1. rewrite E. split; [|done]. cbn [snd].
        rewrite <- Hp in Hr. by apply (submseteq_app_inv_l _ _ [rule_text b tag r]).
      - destruct (remove_absent r h Ht Hout) as [Hp Ho]. split; [|done]. unfold h1. rewrite Hp.
        apply submseteq_cons_r in Hr as [Hr|(l & El & _)]; [done|]. destruct Hout. rewrite El. left. }
    destruct (IH h1 Ht H1) as [-> ->]. done.
Qed.
(** Removing exactly the rules there are succeeds. *)
Lemma remove_exact rs : ∀ h, teardownCmds b tag = None → ours h ≡ₚ rule_text b tag <$> rs →
  ∃ h', run_all (rs ≫= removeCmds b tag) h = (true, h') ∧ ours h' = [] ∧ others h' = others h.
Proof using L.
  induction rs as [|r rs IH]; intros h Ht Hr.
  - exists h. split; [done|]. split; [|done]. by apply Permutation_nil_r.
  - destruct (remove_done r h Ht) as (h1 & E & Hp & Ho); [rewrite Hr; left|].
    rewrite Hr in Hp. cbn [fmap list_fmap] in Hp. apply Permutation_cons_inv in Hp.
    destruct (IH h1 Ht Hp) as (h2 & E2 & H2 & O2). exists h2.
    change ((r :: rs) ≫= removeCmds b tag) with (removeCmds b tag r ++ (rs ≫= removeCmds b tag)).
    rewrite run_all_app, E. cbn [fst snd]. rewrite E2. split; [done|]. split; [done|congruence].
Qed.
Lemma no_removal rs : (∀ r, removeCmds b tag r = []) → rs ≫= removeCmds b tag = [].
Proof using. intros Hn. induction rs as [|r rs IH]; [done|]. cbn. by rewrite Hn. Qed.

(** ** Lives of a component

    What the file records covers the rules the host has; a file that does not
    decode or is absent records none. *)
Definition recorded (f : state_file) : list Rule :=
  match st_content f with Some (Some rs) => rs | _ => [] end.
Definition fw_covered (f : state_file) (h : H) : Prop := ours h ⊆+ (rule_text b tag <$> recorded f).
(** While it runs the manager knows its rules. *)
Definition fw_running (m : Manager) (h : H) : Prop :=
  fm_tag m = tag ∧ fm_backend m = Some b ∧ fm_stateFile m ≠ "" ∧ ours h ≡ₚ rule_text b tag <$> fm_rules m.
(** Without faults the file is as up to date as the manager. *)
Definition fw_quiet (m : Manager) (f : state_file) : Prop :=
  st_faults f = [] ∧ recorded f = fm_rules m ∧ (fm_rules m = [] → st_content f ≠ Some None → st_content f = None).

Lemma open_running sf f (h : H) :
  sf ≠ "" → fw_covered f h →
  ∃ m f' h', OpenWithReconcile tag sf f h = (true, m, f', h') ∧ fm_rules m = []
    ∧ fw_running m h' ∧ others h' = others h
    ∧ (st_faults f = [] → fw_quiet m f' ∧ (st_content f ≠ Some None → st_content f' ≠ Some None)).
Proof using L.
  intros Hsf Hc. unfold OpenWithReconcile, Open. rewrite detected. cbn [fm_backend fm_tag fm_rules].
  unfold fw_covered, recorded in Hc. unfold fw_running, fw_quiet, recorded, reconcile.
  destruct (st_content f) as [[prior|]|] eqn:Ef; cbn [fm_tag].
  2,3: eexists _, _, _; split; [done|]; apply submseteq_nil_r in Hc; rewrite Ef; cbn; split_and!; [done..|by rewrite Hc|done|done].
  set (h1 := (run_all (prior ≫= removeCmds b tag) h).2).
  set (h2 := match teardownCmds b tag with Some cmds => (run_all cmds h1).2 | None => h1 end).
  assert (ours h2 = [] ∧ others h2 = others h) as [Ho Hx].
  { unfold h2, h1. destruct (teardownCmds b tag) as [cmds|] eqn:Et; [|by apply remove_all].
    destruct (teardown_done cmds h Et) as (Hn & Ho & Hx & _). by rewrite no_removal. }
  eexists _, _, _. split; [done|]. cbn. split_and!; [done..|by rewrite Ho|done|]. intros E0. by rewrite E0.
Qed.

Lemma allow_running r m f (h : H) :
  fw_running m h →
  let '(ok, m', f', h') := allow r m f h in
  fw_running m' h' ∧ others h' = others h ∧ fm_rules m' = fm_rules m ++ (if ok : bool then [r] else [])
  ∧ (fw_quiet m f → fw_quiet m' f' ∧ (st_content f ≠ Some None → st_content f' ≠ Some None)).
Proof using L.
  intros (Et & Eb & Es & Eo). unfold allow. rewrite Eb, Et.
  destruct (run_must _ h) as [[] h'] eqn:E.
  - destruct (allow_done r h h' E) as [Ho Hx]. split_and!; [|done|done|].
    + unfold fw_running. cbn. split_and!; try done. by rewrite Ho, Eo, fmap_app, Permutation_app_comm.
    + intros (Q1 & _ & _). unfold fw_quiet, persist, recorded, write_state. cbn. rewrite decide_False by done. rewrite Q1. cbn.
      split_and!; [done|done|by intros [_ ?]%app_eq_nil|done].
  - destruct (allow_failed r h h' E) as [Ho Hx]. split_and!; [|done|by rewrite app_nil_r|done].
    unfold fw_running. split_and!; try done. by rewrite Ho.
Qed.

Lemma close_running m f (h : H) :
  fw_running m h →
  ∃ m' f' h', Close m f h = (true, m', f', h') ∧ ours h' = [] ∧ others h' = others h
    ∧ (fw_quiet m f → st_content f ≠ Some None → st_content f' = None).
Proof using L.
  intros (Et & Eb & Es & Eo). unfold Close. rewrite Eb, Et. destruct (fm_rules m) as [|r rs] eqn:Er.
  - exists m, f, h. split_and!; [done|by apply Permutation_nil_r|done|]. intros (_ & _ & Hn). by apply Hn.
  - unfold clearState. rewrite decide_False by done.
    assert (∀ cmds, match teardownCmds b tag with Some cs => cs | None => reverse (r :: rs) ≫= removeCmds b tag end = cmds →
      ∃ h', run_all cmds h = (true, h') ∧ ours h' = [] ∧ others h' = others h) as Hrun.
    { intros cmds <-. destruct (teardownCmds b tag) as [cs|] eqn:Ec.
      - destruct (teardown_done cs h Ec) as (_ & Ho & Hx & Hok). destruct (run_all cs h) as [ok h'] eqn:Erun.
        cbn [fst snd] in *. rewrite Hok by (intros E0; rewrite E0 in Eo; by apply Permutation_nil_l in Eo). by exists h'.
      - apply remove_exact; [done|]. by rewrite Eo, reverse_Permutation. }
    destruct (Hrun _ eq_refl) as (h' & -> & Ho & Hx). eexists _, _, h'. split_and!; [done..|].
    intros (Q & _) _. cbn. by rewrite Q.
Qed.

(** One life: the rules asked for, whether it ends in [Close] or dies, and what
    goes wrong with its file operations. *)
Fixpoint allow_rules (rs : list Rule) (m : Manager) (f : state_file) (h : H) : Manager * state_file * H :=
  match rs with
  | [] => (m, f, h)
  | r :: rs => let '(_, m, f, h) := allow r m f h in allow_rules rs m f h
  end.
Record fw_life : Type := mkFwLife { fl_rules : list Rule; fl_closes : bool; fl_faults : list (option file_fault) }.
Definition life (sf : string) (l : fw_life) (f : state_file) (h : H) : state_file * H :=
  let '(_, m, f, h) := OpenWithReconcile tag sf (mkState (st_content f) (fl_faults l)) h in
  let '(m, f, h) := allow_rules (fl_rules l) m f h in
  if fl_closes l then let '(_, _, f, h) := Close m f h in (f, h) else (f, h).
Fixpoint lives (sf : string) (l : list fw_life) (f : state_file) (h : H) : state_file * H :=
  match l with
  | [] => (f, h)
  | x :: l => let '(f, h) := life sf x f h in lives sf l f h
  end.

Lemma allow_rules_running rs : ∀ m f (h : H), fw_running m h →
  let '(m', f', h') := allow_rules rs m f h in
  fw_running m' h' ∧ others h' = others h
  ∧ (fw_quiet m f → fw_quiet m' f' ∧ (st_content f ≠ Some None → st_content f' ≠ Some None)).
Proof using L.
  induction rs as [|r rs IH]; intros m f h Hm; [done|]. cbn [allow_rules].
  pose proof (allow_running r m f h Hm) as Ha. destruct (allow r m f h) as [[[ok m1] f1] h1].
  destruct Ha as (Hm1 & Hx & _ & Hq). specialize (IH m1 f1 h1 Hm1).
  destruct (allow_rules rs m1 f1 h1) as [[m2 f2] h2]. destruct IH as (? & ? & Hq2).
  split; [done|]. split; [congruence|]. intros [Q1 Q2]%Hq. destruct (Hq2 Q1). split; auto.
Qed.

Lemma life_covered sf l f (h : H) :
  sf ≠ "" → fw_covered f h → fl_closes l = true ∨ fl_faults l = [] →
  let '(f', h') := life sf l f h in
  fw_covered f' h' ∧ others h' = others h
  ∧ (fl_closes l = true → ours h' = []
     ∧ (fl_faults l = [] → st_content f ≠ Some None → st_content f' = None)).
Proof using L.
  intros Hsf Hs Hok. unfold life.
  destruct (open_running sf (mkState (st_content f) (fl_faults l)) h Hsf Hs) as (m & f1 & h1 & -> & _ & Hm & Hx & Hq).
  pose proof (allow_rules_running (fl_rules l) m f1 h1 Hm) as Ha. destruct (allow_rules _ m f1 h1) as [[m2 f2] h2].
  destruct Ha as (Hm2 & Hx2 & Hq2). destruct (fl_closes l).
  - destruct (close_running m2 f2 h2 Hm2) as (m3 & f3 & h3 & -> & Ho & Hx3 & Hc). split_and!; [|congruence|].
    + unfold fw_covered. rewrite Ho. apply submseteq_nil_l.
    + intros _. split; [done|]. intros E0 Ht. destruct (Hq E0) as [Q1 Q2]. destruct (Hq2 Q1) as [Q3 Q4]. auto.
  - destruct Hok as [|E0]; [done|]. destruct (Hq E0) as [Q1 _]. destruct (Hq2 Q1) as [(_ & Q3 & _) _]. split_and!; [|congruence|done].
    unfold fw_covered. destruct Hm2 as (_ & _ & _ & ->). by rewrite Q3.
Qed.
Lemma lives_covered sf l : ∀ f (h : H), sf ≠ "" → fw_covered f h →
  Forall (λ x, fl_closes x = true ∨ fl_faults x = []) l →
  let '(f', h') := lives sf l f h in fw_covered f' h' ∧ others h' = others h.
Proof using L.
  induction l as [|x l IH]; intros f h Hsf Hs Hl; [done|]. cbn [lives]. apply Forall_cons in Hl as [Hx Hl].
  pose proof (life_covered sf x f h Hsf Hs Hx) as Hc. destruct (life sf x f h) as [f1 h1].
  destruct Hc as (Hs1 & Hx1 & _). specialize (IH f1 h1 Hsf Hs1 Hl). destruct (lives sf l f1 h1). destruct IH. split; [done|congruence].
Qed.

(** C22: no port outlives its component.  On a host whose firewall is as
    [FwLaws] says (it tells the component's rules from others', keeps a rule as
    often as it was added, and removes one that is there when told to: proved of
    iptables and of nftables, not the case for firewalld, ufw and netsh), where
    the component has no rules and left no state file (a path for one is set),
    let it run any number of times, opening whatever ports and ending in a
    shutdown or in a crash between two of its operations, and then run once more
    to a shutdown: all its rules are gone, and everything else on the host's
    firewall is as it was.  In runs that end in a shutdown the state file may
    fail to be written or removed, or be torn; in runs that crash it has been
    written.  The state file is gone too if it was removed without a fault and
    no earlier run left it torn. *)
Theorem firewall_restored sf l last (h : H) :
  sf ≠ "" → ours h = [] → Forall (λ x, fl_closes x = true ∨ fl_faults x = []) l → fl_closes last = true →
  let '(f, h1) := lives sf l no_state h in
  let '(f', h') := life sf last f h1 in
  ours h' = [] ∧ others h' = others h
  ∧ (fl_faults last = [] → st_content f ≠ Some None → st_content f' = None).
Proof using L.
  intros Hsf Ho Hl Hlast. pose proof (lives_covered sf l no_state h Hsf) as Hc. destruct (lives sf l no_state h) as [f h1].
  destruct Hc as [Hs Hx]; [unfold fw_covered; rewrite Ho; apply submseteq_nil_l|done|].
  pose proof (life_covered sf last f h1 Hsf Hs (or_introl Hlast)) as Hf. destruct (life sf last f h1) as [f' h'].
  destruct Hf as (_ & Hx' & Hc). destruct (Hc Hlast) as [-> Hn]. split; [done|]. split; [congruence|done].
Qed.
End facts.

(** ** A host with iptables *)
Definition input_chain : string * string * string := ("iptables", "filter", "INPUT").
Definition tagged (tag : string) (r : list string) : bool :=
  match reverse r with
  | t :: "--comment" :: "comment" :: "-m" :: _ => bool_decide (t = tag)
  | _ => false
  end.
#[export] Instance iptables_host : FwHost tables := {
  fw_windows := false;
  fw_run cmd t :=
    match cmd with
    | ["iptables"; "-S"; "INPUT"] => (true, "-P INPUT ACCEPT", t)
    | "iptables" :: args => match iptables "iptables" args t with Some t' => (true, "", t') | None => (false, "", t) end
    | _ => (false, "command not found", t)
    end
}.
Definition ipt_ours (tag : string) (t : tables) : list (list string) :=
  filter (λ r, Is_true (tagged tag r)) (default [] (t !! input_chain)).
Definition ipt_others (tag : string) (t : tables) : tables :=
  alter (filter (λ r, Is_true (negb (tagged tag r)))) input_chain t.

Lemma tagged_text tag r : tagged tag (rule_text iptablesBackend tag r) = true.
Proof. cbn. by apply bool_decide_eq_true. Qed.
Lemma iptables_insert (tag : string) (r : Rule) (t : tables) :
  iptables "iptables" (tail (iptablesCmd "-I" tag r)) t
  = rs ← t !! input_chain; Some (<[input_chain := rule_text iptablesBackend tag r :: rs]> t).
Proof. reflexivity. Qed.
Lemma iptables_delete (tag : string) (r : Rule) (t : tables) :
  iptables "iptables" (tail (iptablesCmd "-D" tag r)) t
  = rs ← t !! input_chain; rs' ← remove_first (rule_text iptablesBackend tag r) rs; Some (<[input_chain := rs']> t).
Proof. reflexivity. Qed.

Lemma remove_first_elem (p : list string → bool) r l :
  r ∈ l → p r = true → ∃ l', remove_first r l = Some l'
    ∧ r :: filter (λ x, Is_true (p x)) l' ≡ₚ filter (λ x, Is_true (p x)) l
    ∧ filter (λ x, Is_true (negb (p x))) l' = filter (λ x, Is_true (negb (p x))) l.
Proof.
  intros Hr Hp. induction l as [|x l IH]; [by apply elem_of_nil in Hr|]. cbn [remove_first].
  destruct (decide (x = r)) as [->|Hne].
  - exists l. split; [done|]. rewrite !filter_cons, Hp. done.
  - apply elem_of_cons in Hr as [->|Hr]; [done|]. destruct (IH Hr) as (l' & -> & H1 & H2).
    exists (x :: l'). split; [done|]. rewrite !filter_cons, H2. destruct (p x); cbn; [|done].
    split; [|done]. etrans; [apply perm_swap|]. apply perm_skip. exact H1.
Qed.

Lemma remove_first_None r (l : list (list string)) : r ∉ l → remove_first r l = None.
Proof.
  induction l as [|x l IH]; [done|]. rewrite not_elem_of_cons. intros [Hne Hl]. cbn [remove_first].
  rewrite decide_False by congruence. by rewrite IH.
Qed.
Lemma others_input (tag : string) (rs rs' : list (list string)) (t : tables) :
  t !! input_chain = Some rs →
  filter (λ x, Is_true (negb (tagged tag x))) rs' = filter (λ x, Is_true (negb (tagged tag x))) rs →
  ipt_others tag (<[input_chain := rs']> t) = ipt_others tag t.
Proof.
  intros E Hf. unfold ipt_others. rewrite alter_insert_eq, Hf. apply map_eq. intros k.
  destruct (decide (k = input_chain)) as [->|Hk].
  - by rewrite lookup_insert_eq, lookup_alter_eq, E.
  - by rewrite lookup_insert_ne, lookup_alter_ne.
Qed.
Lemma iptables_exec (action tag : string) (r : Rule) (t : tables) :
  action = "-I" ∨ action = "-D" →
  fw_run (iptablesCmd action tag r) t
  = match iptables "iptables" (tail (iptablesCmd action tag r)) t with Some t' => (true, "", t') | None => (false, "", t) end.
Proof. by intros [->| ->]. Qed.

#[export] Instance iptables_laws tag : FwLaws tables tables iptablesBackend tag.
Proof.
  refine {| ours := ipt_ours tag; others := ipt_others tag |}; [done|..].
  - intros r h h'. cbn [allowCmds run_must]. rewrite iptables_exec by auto.
    rewrite (iptables_insert tag r). destruct (h !! input_chain) as [rs|] eqn:E; cbn [mbind option_bind]; [|done].
    intros E2%(f_equal snd). cbn [snd] in E2. subst h'. split.
    + unfold ipt_ours. rewrite lookup_insert_eq, E. cbn [default from_option id]. by rewrite filter_cons, tagged_text.
    + eapply others_input; [done|]. by rewrite filter_cons, tagged_text.
  - intros r h h'. cbn [allowCmds run_must]. rewrite iptables_exec by auto.
    rewrite (iptables_insert tag r). destruct (h !! input_chain) as [rs|] eqn:E; cbn [mbind option_bind]; [done|].
    by intros [= <-].
  - intros r h _ Hr. cbn [removeCmds run_all]. rewrite iptables_exec by auto.
    rewrite (iptables_delete tag r). unfold ipt_ours in *. apply list_elem_of_filter in Hr as [_ Hr].
    destruct (h !! input_chain) as [rs|] eqn:E; cbn [default from_option id] in *; [|by apply elem_of_nil in Hr].
    destruct (remove_first_elem (tagged tag) _ rs Hr (tagged_text tag r)) as (rs' & E' & H1 & H2).
    cbn [mbind option_bind]. rewrite E'. cbn [mbind option_bind]. eexists. split; [done|].
    rewrite lookup_insert_eq. cbn [default from_option id]. split; [done|]. by eapply others_input.
  - intros r h _ Hr. cbn [removeCmds run_all]. rewrite iptables_exec by auto.
    rewrite (iptables_delete tag r). unfold ipt_ours in *.
    destruct (h !! input_chain) as [rs|] eqn:E; cbn [default from_option id mbind option_bind] in *;
      [|cbn; by rewrite E].
    rewrite remove_first_None; [cbn; by rewrite E|]. intros Hin. apply Hr, list_elem_of_filter. split; [|done]. by rewrite tagged_text.
  - done.
Defined.

(** ** A host with nftables *)
Abbreviation nft_tables := (gmap string (gmap string (list (list string)))).
#[export] Instance nft_host : FwHost nft_tables := {
  fw_windows := false;
  fw_run cmd t :=
    match cmd with
    | ["nft"; "list"; "tables"] => (true, "", t)
    | ["nft"; "add"; "table"; "inet"; n] => (true, "", match t !! n with Some _ => t | None => <[n := ∅]> t end)
    | "nft" :: "add" :: "chain" :: "inet" :: n :: c :: _ =>
        match t !! n with
        | None => (false, "No such file or directory", t)
        | Some m => (true, "", match m !! c with Some _ => t | None => <[n := <[c := []]> m]> t end)
        end
    | "nft" :: "add" :: "rule" :: "inet" :: n :: c :: r =>
        match t !! n ≫= λ m, pair m <$> m !! c with
        | None => (false, "No such file or directory", t)
        | Some (m, rs) => (true, "", <[n := <[c := rs ++ [r]]> m]> t)
        end
    | ["nft"; "delete"; "table"; "inet"; n] =>
        match t !! n with None => (false, "No such file or directory", t) | Some _ => (true, "", delete n t) end
    | _ => (false, "command not found", t)
    end
}.
Definition nft_ours (tag : string) (t : nft_tables) : list (list string) := default [] (t !! tag ≫= λ m, m !! "input").

Lemma nft_table_chain (tag : string) (t : nft_tables) :
  ∃ t' m rs, run_must (take 2 (allowCmds nftablesBackend tag (mkRule "" 0 0))) t = (true, t')
    ∧ t' !! tag = Some m ∧ m !! "input" = Some rs ∧ rs = nft_ours tag t ∧ delete tag t' = delete tag t.
Proof.
  cbn [allowCmds take run_must fw_run nft_host]. unfold nft_ours.
  destruct (t !! tag) as [m|] eqn:E.
  - rewrite E. cbn [mbind option_bind]. destruct (m !! "input") as [rs|] eqn:Ei.
    + by exists t, m, rs.
    + eexists _, _, _. split; [done|]. rewrite lookup_insert_eq. split; [done|]. rewrite lookup_insert_eq.
      split; [done|]. split; [done|]. by rewrite delete_insert_eq.
  - rewrite lookup_insert_eq, lookup_empty. eexists _, _, _. split; [done|]. rewrite lookup_insert_eq. split; [done|].
    rewrite lookup_insert_eq. split; [done|]. split; [done|]. by rewrite !delete_insert_eq.
Qed.
Lemma nft_allow (tag : string) (r : Rule) (t : nft_tables) :
  ∃ t', run_must (allowCmds nftablesBackend tag r) t = (true, t')
    ∧ nft_ours tag t' = nft_ours tag t ++ [rule_text nftablesBackend tag r] ∧ delete tag t' = delete tag t.
Proof.
  destruct (nft_table_chain tag t) as (t1 & m & rs & E & Et & Em & -> & Hd).
  change (allowCmds nftablesBackend tag r) with (take 2 (allowCmds nftablesBackend tag (mkRule "" 0 0))
    ++ [["nft"; "add"; "rule"; "inet"; tag; "input"; fr_Proto r; "dport"; nftPort r; "accept"]]).
  rewrite run_must_app, E. cbn [run_must fw_run nft_host]. rewrite Et. cbn [mbind option_bind]. rewrite Em. cbn [fmap option_fmap option_map]. eexists. split; [done|].
  split; [|by rewrite delete_insert_eq]. unfold nft_ours at 1. rewrite lookup_insert_eq. cbn [mbind option_bind].
  by rewrite lookup_insert_eq.
Qed.
#[export] Instance nft_laws tag : FwLaws nft_tables nft_tables nftablesBackend tag.
Proof.
  refine {| ours := nft_ours tag; others t := delete tag t |}; [done|..].
  - intros r h h'. destruct (nft_allow tag r h) as (t' & -> & Ho & Hd). intros [= <-]. split; [|done].
    by rewrite Ho, Permutation_app_comm.
  - intros r h h'. by destruct (nft_allow tag r h) as (t' & -> & _).
  - done.
  - done.
  - intros cmds h [= <-]. split; [done|]. cbn [run_all fw_run nft_host]. unfold nft_ours.
    destruct (h !! tag) as [m|] eqn:E; cbn [fst snd].
    + rewrite lookup_delete_eq, delete_delete_eq. done.
    + rewrite E. done.
Defined.

(** ** Examples *)

(** A crash, a run whose state file could neither be written nor removed, another
    crash; and a last run. *)
Definition ex_lives : list fw_life :=
  [mkFwLife [mkRule "udp" 51820 51820] false [];
   mkFwLife [mkRule "udp" 51820 51820; mkRule "udp" 40000 40100] true [None; Some Torn; Some Kept; Some Kept];
   mkFwLife [mkRule "tcp" 8080 8080] false []].
Definition ex_last : fw_life := mkFwLife [mkRule "udp" 3478 3479] true [].
Definition ex_input : tables := {[input_chain := [["-p"; "tcp"; "--dport"; "22"; "-j"; "ACCEPT"]]]}.
Lemma firewall_restored_witness :
  (let '(f, h1) := lives (tag := "wgmesh-relay") "relay-secret.fw" ex_lives no_state ex_input in
   let '(f', h') := life (tag := "wgmesh-relay") "relay-secret.fw" ex_last f h1 in
   ours (b := iptablesBackend) (tag := "wgmesh-relay") h' = []
   ∧ others (b := iptablesBackend) (tag := "wgmesh-relay") h' = others (b := iptablesBackend) (tag := "wgmesh-relay") ex_input
   ∧ (fl_faults ex_last = [] → st_content f ≠ Some None → st_content f' = None))
  ∧ length (default [] ((lives (tag := "wgmesh-relay") "relay-secret.fw" ex_lives no_state ex_input).2 !! input_chain)) = 2%nat.
Proof.
  split; [|vm_compute; reflexivity].
  apply (firewall_restored (b := iptablesBackend) (tag := "wgmesh-relay") "relay-secret.fw" ex_lives ex_last ex_input).
  - discriminate.
  - vm_compute. reflexivity.
  - apply Forall_cons. split; [right; reflexivity|]. apply Forall_cons. split; [left; reflexivity|].
    apply Forall_cons. split; [right; reflexivity|]. apply Forall_nil. exact I.
  - reflexivity.
Defined.

(** A crash between the command and the record of it leaves a rule nobody
    removes: [allow] writes the state file after the commands have run. *)
Lemma firewall_crash_window :
  let h := (run_must (allowCmds iptablesBackend "wgmesh-agent" (mkRule "udp" 51820 51820)) ex_input).2 in
  let '(f, h') := life (tag := "wgmesh-agent") "wgkey.key.fw" (mkFwLife [] true []) no_state h in
  ipt_ours "wgmesh-agent" h' = [rule_text iptablesBackend "wgmesh-agent" (mkRule "udp" 51820 51820)].
Proof. vm_compute. reflexivity. Qed.

(** So does a crash after a write of the state file that failed. *)
Lemma firewall_unwritten_crash :
  let '(f, h) := life (tag := "wgmesh-agent") "wgkey.key.fw" (mkFwLife [mkRule "udp" 51820 51820] false [Some Kept]) no_state ex_input in
  let '(_, h') := life (tag := "wgmesh-agent") "wgkey.key.fw" (mkFwLife [] true []) f h in
  ipt_ours "wgmesh-agent" h' = [rule_text iptablesBackend "wgmesh-agent" (mkRule "udp" 51820 51820)].
Proof. vm_compute. reflexivity. Qed.

(** A host on which another program holds the lock of iptables for a while: no
    rule can be deleted meanwhile. *)
#[export] Instance locked_host : FwHost (bool * tables) := {
  fw_windows := false;
  fw_run cmd '(held, t) :=
    match cmd with
    | "iptables" :: "-D" :: _ => if held then (false, "xtables lock", (held, t)) else let '(ok, out, t) := fw_run cmd t in (ok, out, (held, t))
    | _ => let '(ok, out, t) := fw_run cmd t in (ok, out, (held, t))
    end
}.
(** A rule whose removal fails at shutdown is forgotten: [Close] removes the state
    file all the same, so no later run removes the rule. *)
Lemma firewall_forgets_failed_removal :
  let '(f, (_, t)) := life (tag := "wgmesh-agent") "wgkey.key.fw" (mkFwLife [mkRule "udp" 51820 51820] true []) no_state (true, ex_input) in
  let '(_, (_, t')) := life (tag := "wgmesh-agent") "wgkey.key.fw" (mkFwLife [] true []) f (false, t) in
  ipt_ours "wgmesh-agent" t' = [rule_text iptablesBackend "wgmesh-agent" (mkRule "udp" 51820 51820)].
Proof. vm_compute. reflexivity. Qed.

(** A host with firewalld: a port is open or not, and opening one that is open
    succeeds. *)
#[export] Instance firewalld_host : FwHost (gset string) := {
  fw_windows := false;
  fw_run cmd ports :=
    match cmd with
    | ["firewall-cmd"; "--state"] => (true, "running", ports)
    | ["firewall-cmd"; arg] =>
        match CutPrefix arg "--add-port=", CutPrefix arg "--remove-port=" with
        | Some p, _ => (true, "success", {[p]} ∪ ports)
        | None, Some p => (true, "success", ports ∖ {[p]})
        | None, None => (false, "", ports)
        end
    | _ => (false, "command not found", ports)
    end
}.
(** A port the administrator had open is closed with the component. *)
Lemma firewalld_closes_foreign_port :
  (life (tag := "wgmesh-server") "server.fw" (mkFwLife [mkRule "tcp" 8080 8080] true []) no_state ({["8080/tcp"; "22/tcp"]} : gset string)).2
  = {["22/tcp"]}.
Proof. vm_compute. reflexivity. Qed.

(** A host with Windows Defender: a rule is its name, protocol and ports;
    deleting takes every rule that matches. *)
#[export] Instance defender_host : FwHost (list (string * string * string)) := {
  fw_windows := true;
  fw_run cmd rules :=
    match cmd with
    | ["netsh"; "advfirewall"; "show"; "currentprofile"; "state"] => (true, "State ON", rules)
    | ["netsh"; "advfirewall"; "firewall"; "add"; "rule"; n; "dir=in"; "action=allow"; p; l] => (true, "Ok.", rules ++ [(n, p, l)])
    | ["netsh"; "advfirewall"; "firewall"; "delete"; "rule"; n; p; l] =>
        (bool_decide ((n, p, l) ∈ rules), "", filter (λ r, r ≠ (n, p, l)) rules)
    | _ => (false, "not recognized", rules)
    end
}.
(** A crash and a regular run later, the rules of others are what is left. *)
Example defender_restored :
  let rules := [("name=Remote Desktop", "protocol=TCP", "localport=3389")] in
  let '(f, h) := lives (tag := "wgmesh-agent") "wgkey.key.fw" [mkFwLife [mkRule "udp" 51820 51820] false []] no_state rules in
  h = rules ++ [("name=wgmesh-agent", "protocol=UDP", "localport=51820")]
  ∧ life (tag := "wgmesh-agent") "wgkey.key.fw" (mkFwLife [mkRule "udp" 40000 40010] true []) f h = (no_state, rules).
Proof. vm_compute. split; reflexivity. Qed.
