(* ===== verification/Secrets.v ===== *)
(** * What the programs keep in files

    The load-or-generate files of the three programs: the agent's private key
    and listen port (cmd/agent/main.go), the network's preshared key
    (internal/psk), the admin token and the session key (cmd/server/admin.go),
    the relay's shared secret (cmd/relay/main.go, read by the server's relay
    client), and the presence check of the TLS files (internal/tlsutil).

    A disk is its files, with the paths that cannot be read or written.  What is
    generated (random bytes, a key) is an argument; a WireGuard key is its printed
    form, and [ParseKey] is wgtypes.ParseKey followed by [Key.String]. *)
From S2P Require Import Prelude GoText NetAddr NetFacts NumText Codec Schema SchemaFacts Sync Uapi UapiFacts.
From Stdlib Require Import Ascii.

Record Disk : Type := mkDisk {
  d_files : gmap string string; d_unreadable : string → bool; d_unwritable : string → bool
}.
Inductive read_result : Type := Content (s : string) | NotExist | ReadError.
Definition ReadFile (path : string) (d : Disk) : read_result :=
  if d_unreadable d path then ReadError
  else match d_files d !! path with Some s => Content s | None => NotExist end.
(** [false]: the write failed. *)
Definition WriteFile (path text : string) (d : Disk) : bool * Disk :=
  if d_unwritable d path then (false, d)
  else (true, mkDisk (<[path := text]> (d_files d)) (d_unreadable d) (d_unwritable d)).
Definition line (s : string) : string := s +:+ String (chr 10) "".

(** The shape all of them share: [make] is the text of a new value, [None] when
    none can be made; [load] reads the text back.  [None] is an error. *)
Definition load_or_generate {A} (path : string) (make : option (A * string)) (load : string → option A) (d : Disk)
  : option A * Disk :=
  match ReadFile path d with
  | ReadError => (None, d)
  | Content data => (load (TrimSpace data), d)
  | NotExist =>
      match make with
      | None => (None, d)
      | Some (a, text) => let '(ok, d) := WriteFile path (line text) d in ((if ok then Some a else None), d)
      end
  end.

(** ** The files *)
Section keys.
Context (ParseKey : string → option string).
(** [cmd/agent]; [gen] is the generated private key. *)
Definition loadOrGenerateKey (path : string) (gen : option string) : Disk → option string * Disk :=
  load_or_generate path ((λ k, (k, k)) <$> gen) ParseKey.
(** [internal/psk]. *)
Definition LoadOrGenerate (path : string) (gen : option string) : Disk → option string * Disk :=
  load_or_generate path ((λ k, (k, k)) <$> gen) ParseKey.
End keys.

Definition hex_secret (raw : list Z) : string * string := (hex_encode raw, hex_encode raw).
(** [cmd/relay]; [raw] are 32 random bytes. *)
Definition loadOrGenerateSecret (path : string) (raw : option (list Z)) : Disk → option string * Disk :=
  load_or_generate path (hex_secret <$> raw) Some.
Definition loadOrGenerateAdminToken (path : string) (raw : option (list Z)) : Disk → option string * Disk :=
  load_or_generate path (hex_secret <$> raw) (λ s, if decide (s = "") then None else Some s).
Definition loadOrGenerateSessionKey (path : string) (raw : option (list Z)) : Disk → option (list Z) * Disk :=
  load_or_generate path ((λ k, (k, hex_encode k)) <$> raw)
    (λ s, key ← hex_decode s; if (length key <? 32)%nat then None else Some key).
(** The server's side of the relay secret. *)
Definition newRelayClient (secretFile : string) (d : Disk) : option string :=
  match ReadFile secretFile d with Content data => Some (TrimSpace data) | _ => None end.

(** [os.Stat]: an unreadable path stands for one that cannot be examined. *)
Definition LoadOrGenerateCert (certPath keyPath : string) (make : option (string * string)) (d : Disk) : bool * Disk :=
  match ReadFile certPath d, ReadFile keyPath d with
  | Content _, Content _ => (true, d)
  | ReadError, _ | _, ReadError => (false, d)
  | Content _, NotExist | NotExist, Content _ => (false, d)
  | NotExist, NotExist =>
      match make with
      | None => (false, d)
      | Some (certPEM, keyPEM) =>
          let '(ok, d) := WriteFile keyPath keyPEM d in
          if ok then WriteFile certPath certPEM d else (false, d)
      end
  end.

(** [bindable] are the UDP ports the agent can bind, [auto] the one the system
    picks.  A port that was stored goes before the one that is asked for. *)
Definition stored_port (text : string) : option Z :=
  port ← ParseInt (TrimSpace text); if (0 <? port) && (port <=? 65535) then Some port else None.
Definition resolveListenPort (bindable : Z → bool) (auto : option Z) (preferred : Z) (portFile : string) (d : Disk)
  : option Z * Disk :=
  let saved :=
    if decide (portFile = "") then None
    else match ReadFile portFile d with
         | Content data => port ← stored_port data; if bindable port then Some port else None
         | _ => None
         end in
  match saved with
  | Some port => (Some port, d)
  | None =>
      if (0 <? preferred) && bindable preferred then (Some preferred, d)
      else match auto with
           | None => (None, d)
           | Some port =>
               if decide (portFile = "") then (Some port, d)
               else let '(ok, d) := WriteFile portFile (line (Itoa port)) d in ((if ok then Some port else None), d)
           end
  end.

(** ** A restart finds what was there *)

(** A line of printable characters without blanks is read back as it was. *)
Lemma TrimSpace_line s : str_forall plain s = true → TrimSpace (line s) = s.
Proof.
  intros H. unfold TrimSpace, line. rewrite str_forall_chars in H. rewrite chars_app.
  change (chars (String (chr 10) "")) with [chr 10].
  assert (trim_left (chars s ++ [chr 10]) = match chars s with [] => [] | l => l ++ [chr 10] end) as ->.
  { destruct (chars s) as [|c l]; [done|]. cbn [forallb] in H. apply andb_prop in H as [H _].
    by apply (trim_left_plain c). }
  destruct (chars s) as [|c l] eqn:E; [by rewrite <- (text_chars s), E|].
  rewrite rev_app_distr. cbn [rev app]. 
  assert (∀ k, forallb plain k = true → trim_right_rev (chr 10 :: k) = k) as Ht.
  { intros [|a [|b k]] Hk; [done|..]; cbn [forallb] in Hk; apply andb_prop in Hk as [Hk _];
      cbn [trim_right_rev]; change (space1 (chr 10)) with true; cbv iota.
    - by rewrite (plain_space1 _ Hk).
    - exact (trim_right_rev_plain a (b :: k) Hk). }
  change (rev l ++ [c]) with (rev (c :: l)). rewrite Ht.
  - rewrite rev_involutive, <- E. apply text_chars.
  - apply forallb_forall. intros x Hx. rewrite <- in_rev in Hx. by apply (proj1 (forallb_forall _ _) H).
Qed.

(** A file that was written well is never written again, and every later start
    reads the same value, whatever would be generated then. *)
Lemma load_or_generate_stable {A} path (make make' : option (A * string)) load d a d' :
  (∀ a text, make = Some (a, text) → str_forall plain text = true ∧ load text = Some a) →
  load_or_generate path make load d = (Some a, d') →
  load_or_generate path make' load d' = (Some a, d').
Proof.
  intros Hm. unfold load_or_generate, ReadFile, WriteFile.
  destruct (d_unreadable d path) eqn:Er; [done|]. destruct (d_files d !! path) as [data|] eqn:Ef.
  - intros [= Hl <-]. by rewrite Er, Ef, Hl.
  - destruct make as [[a' text]|]; [|done]. destruct (Hm a' text eq_refl) as [Hp Hl].
    destruct (d_unwritable d path); [done|]. intros [= -> <-]. cbn. rewrite Er, lookup_insert_eq, TrimSpace_line by done. by rewrite Hl.
Qed.

Lemma plain_hex_char d : 0 ≤ d < 16 → plain (hex_char d) = true.
Proof.
  intros H. assert (forallb (λ d, plain (hex_char d)) (seqZ 0 16) = true) as Hall by (vm_compute; reflexivity).
  rewrite forallb_elem in Hall. apply Hall, elem_of_seqZ. lia.
Qed.
Lemma hex_plain b : forallb is_byte b = true → str_forall plain (hex_encode b) = true.
Proof.
  induction b as [|x b IH]; [done|]. cbn [forallb hex_encode]. intros [Hx Hb]%andb_prop. unfold is_byte in Hx.
  rewrite !str_forall_cons, !plain_hex_char, IH; [done|done|..].
  - apply Z.mod_pos_bound. lia.
  - split; [apply Z.div_pos; lia|apply Z.div_lt_upper_bound; lia].
Qed.

(** Random material is bytes. *)
Definition random32 (raw : option (list Z)) : Prop :=
  ∀ l, raw = Some l → length l = 32%nat ∧ forallb is_byte l = true.
Definition printed_key (ParseKey : string → option string) (gen : option string) : Prop :=
  ∀ k, gen = Some k → ParseKey k = Some k ∧ str_forall plain k = true.

(** C29: what a program generated once is what it has ever after.  When the agent
    starts with a private key, the server with a network key, an admin token and
    a session key, or the relay with a secret, every later start with the same
    disk has the same one, whatever would be generated then, and writes nothing;
    and the server's relay client reads exactly the relay's secret. *)
Theorem secrets_survive_restart ParseKey path d :
  (∀ gen gen' k d', printed_key ParseKey gen → loadOrGenerateKey ParseKey path gen d = (Some k, d') →
     loadOrGenerateKey ParseKey path gen' d' = (Some k, d'))
  ∧ (∀ gen gen' k d', printed_key ParseKey gen → LoadOrGenerate ParseKey path gen d = (Some k, d') →
     LoadOrGenerate ParseKey path gen' d' = (Some k, d'))
  ∧ (∀ raw raw' t d', random32 raw → loadOrGenerateAdminToken path raw d = (Some t, d') →
     loadOrGenerateAdminToken path raw' d' = (Some t, d'))
  ∧ (∀ raw raw' k d', random32 raw → loadOrGenerateSessionKey path raw d = (Some k, d') →
     loadOrGenerateSessionKey path raw' d' = (Some k, d'))
  ∧ (∀ raw raw' t d', random32 raw → loadOrGenerateSecret path raw d = (Some t, d') →
     loadOrGenerateSecret path raw' d' = (Some t, d') ∧ newRelayClient path d' = Some t).
Proof.
  assert (∀ gen, printed_key ParseKey gen → ∀ a text, (λ k, (k, k)) <$> gen = Some (a, text) →
    str_forall plain text = true ∧ ParseKey text = Some a) as Hk.
  { intros gen Hg a text (k & -> & [= -> ->])%fmap_Some. split; by apply Hg. }
  assert (∀ raw, random32 raw → ∀ a text, hex_secret <$> raw = Some (a, text) →
    text = a ∧ str_forall plain text = true ∧ text ≠ "") as Hh.
  { intros raw Hr a text (l & -> & [= -> ->])%fmap_Some. destruct (Hr l eq_refl) as [Hl Hb].
    split_and!; [done|by apply hex_plain|by destruct l]. }
  split_and!.
  - intros gen gen' k d' Hg. apply load_or_generate_stable, Hk, Hg.
  - intros gen gen' k d' Hg. apply load_or_generate_stable, Hk, Hg.
  - intros raw raw' t d' Hr. apply load_or_generate_stable. intros a text (-> & Hp & Hn)%Hh; [|done].
    split; [done|]. by rewrite decide_False.
  - intros raw raw' k d' Hr. apply load_or_generate_stable. intros a text (l & -> & [= -> ->])%fmap_Some.
    destruct (Hr l eq_refl) as [Hl Hb]. split; [by apply hex_plain|]. rewrite hex_decode_encode by done.
    cbn [mbind option_bind]. by rewrite Hl.
  - intros raw raw' t d' Hr H.
    assert (loadOrGenerateSecret path raw' d' = (Some t, d')) as H'.
    { eapply load_or_generate_stable; [|exact H]. intros a text (-> & Hp & _)%Hh; [|done]. by split. }
    split; [exact H'|]. revert H'. unfold loadOrGenerateSecret, load_or_generate, newRelayClient.
    destruct (ReadFile path d') as [data| |] eqn:E; [by intros [= ->]| |done].
    destruct (hex_secret <$> raw') as [[a text]|]; [|done]. unfold WriteFile.
    destruct (d_unwritable d' path); [done|]. intros [= _ Hd]. exfalso.
    assert (d_files d' !! path = Some (line text)) as Hx by (rewrite <- Hd; apply lookup_insert_eq).
    unfold ReadFile in E. destruct (d_unreadable d' path); [done|]. by rewrite Hx in E.
Qed.

(** ** The listen port *)

(** A port the system picked once is kept as long as it can be bound, whatever
    [--listen-port] says later. *)
Lemma listen_port_sticky bindable bindable' auto auto' preferred preferred' portFile d port d' :
  portFile ≠ "" → d_unreadable d portFile = false → (∀ p, auto = Some p → 0 < p ≤ 65535) →
  resolveListenPort bindable auto preferred portFile d = (Some port, d') → d' ≠ d → bindable' port = true →
  resolveListenPort bindable' auto' preferred' portFile d' = (Some port, d').
Proof.
  intros Hf Hr Ha. unfold resolveListenPort. destruct (decide (portFile = "")) as [?|_]; [done|].
  match goal with |- context [match ?x with Some port => (Some port, d) | None => _ end] => destruct x end;
    [by intros [= _ ->]; intros []|].
  case_match; [by intros [= _ ->]; intros []|]. destruct auto as [p|]; [|done]. specialize (Ha p eq_refl).
  unfold WriteFile. destruct (d_unwritable d portFile); [done|]. intros [= -> <-] _ Hb. unfold ReadFile. cbn.
  rewrite Hr, lookup_insert_eq. unfold stored_port. rewrite TrimSpace_line.
  - rewrite ParseInt_Itoa by (unfold in_int64, int64_min, int64_max; lia). cbn [mbind option_bind].
    destruct (Z.ltb_spec 0 port); [|lia]. destruct (Z.leb_spec port 65535); [|lia]. cbn [andb mbind option_bind].
    by rewrite Hb.
  - eapply str_forall_impl; [|apply Itoa_digits; lia]. intros c Hc. unfold is_digit in Hc.
    apply bool_decide_eq_true in Hc as [z Hz]. unfold digit in Hz. unfold plain. repeat case_match; try done; lia.
Qed.

(** An earlier automatic choice goes before the port an operator asks for. *)
Lemma listen_port_ignores_flag :
  let d := mkDisk {["wgkey.key.port" := line "40000"]} (λ _, false) (λ _, false) in
  resolveListenPort (λ _, true) None 51820 "wgkey.key.port" d = (Some 40000, d).
Proof. reflexivity. Qed.

Lemma secrets_survive_restart_witness :
  let d := (loadOrGenerateSecret "relay-secret" (Some (replicate 32 171)) (mkDisk ∅ (λ _, false) (λ _, false))).2 in
  newRelayClient "relay-secret" d = Some (hex_encode (replicate 32 171)).
Proof.
  destruct (secrets_survive_restart Some "relay-secret" (mkDisk ∅ (λ _, false) (λ _, false))) as (_ & _ & _ & _ & H).
  refine (proj2 (H (Some (replicate 32 171)) None (hex_encode (replicate 32 171)) _ _ _)).
  - intros l [= <-]. split; vm_compute; reflexivity.
  - reflexivity.
Defined.
