(* ===== verification/HostDns.v ===== *)
(** * The host's resolver on Linux

    cmd/agent/dns_linux.go: pushing the mesh's name servers to systemd-resolved
    ([applyResolvedDNS]) or into /etc/resolv.conf ([applyResolvConfDNS]), and
    giving the file back ([restoreResolvConf]).

    Programs and files of the host are behind the class [DnsHost]; [DnsHostLaws]
    is what the code relies on: a successful write or removal has happened, one
    that fails has at most damaged the file it was about, and resolvectl does not
    write the two files.  The flags of the process, [dnsApplyMode] and
    [dnsKeepFallback], are arguments. *)
From S2P Require Import Prelude GoText NetAddr NetFacts Schema Dns PeerEntries Handlers AgentSync LocalCandidates PortMap Startup Secrets.
From Stdlib Require Import Ascii.

Class DnsHost (T : Type) : Type := {
  dh_look : string → T → option string;
  dh_exec : string → list string → T → bool * T;
  fs_read : string → T → read_result;
  fs_write : string → string → T → bool * T;
  fs_remove : string → T → bool * T;
  fs_view : T → gmap string string
}.
Definition resolvConfPath : string := "/etc/resolv.conf".
Definition resolvConfBackupPath : string := "/etc/resolv.conf.wgmesh-orig".
Definition resolvConfMarker : string := "# Generated by wgmesh".
Definition resolvConfMaxNS : nat := 3.

Class DnsHostLaws (T : Type) `{DnsHost T} : Prop := {
  fs_read_view p t : match fs_read p t with
                     | Content s => fs_view t !! p = Some s
                     | NotExist => fs_view t !! p = None
                     | ReadError => True
                     end;
  fs_written p s t t' : fs_write p s t = (true, t') → fs_view t' = <[p := s]> (fs_view t);
  fs_not_written p s t t' q : fs_write p s t = (false, t') → q ≠ p → fs_view t' !! q = fs_view t !! q;
  fs_removed p t t' : fs_remove p t = (true, t') → fs_view t' = delete p (fs_view t);
  fs_not_removed p t t' : fs_remove p t = (false, t') → fs_view t' = fs_view t;
  dh_exec_view n args t : fs_view (dh_exec n args t).2 = fs_view t
}.

(** ** Search domains *)
Definition add_once (out : list string) (domain : string) : list string :=
  if bool_decide (domain = "") || bool_decide (domain ∈ out) then out else out ++ [domain].
Definition dnsResolvedDomains (cfg : DNSConfig) : list string :=
  foldl add_once []
    ((d ← dc_SearchDomains cfg; if dc_MagicDNS cfg then [d; "~" +:+ d] else [d])
     ++ (if dc_MagicDNS cfg && bool_decide (dc_Domain cfg ≠ "") then [dc_Domain cfg; "~" +:+ dc_Domain cfg] else [])).
Definition dnsPlainSearchDomains (cfg : DNSConfig) : list string :=
  foldl add_once [] (dc_SearchDomains cfg ++ (if dc_MagicDNS cfg then [dc_Domain cfg] else [])).

(** ** What is written *)

(** The loop over the lines of the original; [n] name servers are chosen so far. *)
Fixpoint fallback_go (n : nat) (have : list string) (lines : list string) : list string :=
  match lines with
  | [] => []
  | l :: lines =>
      match strings_Fields l with
      | key :: a :: _ =>
          if decide (key = "nameserver") then
            match ParseAddr a with
            | None => fallback_go n have lines
            | Some addr =>
                let s := addr_string addr in
                if decide (s ∈ have) then fallback_go n have lines
                else s :: (if (resolvConfMaxNS <=? S n)%nat then [] else fallback_go (S n) (s :: have) lines)
            end
          else fallback_go n have lines
      | _ => fallback_go n have lines
      end
  end.
Definition fallbackNameservers (keep : bool) (original : string) (pushed : list string) : list string :=
  if keep then fallback_go (length pushed) pushed (Split original newline) else [].

Definition resolv_lines (pushed fallbacks domains : list string) : list string :=
  [resolvConfMarker +:+ " (dns push); do not edit.";
   "# Original saved at " +:+ resolvConfBackupPath +:+ "; restored when dns push is disabled or the agent exits."]
  ++ ((λ ns, "nameserver " +:+ ns) <$> pushed)
  ++ (match fallbacks with
      | [] => []
      | _ => ["# Fallback: the host's original nameservers, so name resolution";
              "# (including the control plane's own name) survives mesh DNS loss."]
             ++ ((λ ns, "nameserver " +:+ ns) <$> fallbacks) ++ ["options timeout:2 attempts:2"]
      end)
  ++ (match domains with [] => [] | _ => ["search " +:+ Join domains " "] end).
Definition resolv_text (pushed fallbacks domains : list string) : string :=
  foldr (λ l s, line l +:+ s) "" (resolv_lines pushed fallbacks domains).

Definition pushed_text (keep : bool) (original : string) (cfg : DNSConfig) : string :=
  resolv_text (dc_Nameservers cfg) (fallbackNameservers keep original (dc_Nameservers cfg))
    (dnsPlainSearchDomains cfg).

(** [strings.ContainsAny] with the blanks of the check. *)
Definition has_blank (s : string) : bool :=
  str_exists (λ c, bool_decide (c ∈ [" "%char; chr 9; chr 10; chr 13])) s.
Definition ours (content : string) : bool := bool_decide (is_Some (CutPrefix content resolvConfMarker)).

Section host.
Context {T : Type} `{DnsHost T}.

(** ** systemd-resolved *)
Definition resolvedUsable (t : T) : bool * T :=
  match dh_look "resolvectl" t with None => (false, t) | Some path => dh_exec path ["status"] t end.
Definition applyResolvedDNS (iface : string) (cfg : DNSConfig) (t : T) : dns_answer * T :=
  let answer (r : bool * T) := ((if r.1 then DnsApplied else DnsFailed), r.2) in
  match dh_look "resolvectl" t with
  | None => (DnsUnsupported, t)
  | Some resolvectl =>
      if negb (dc_Enabled cfg) then answer (dh_exec resolvectl ["revert"; iface] t)
      else if decide (dc_Nameservers cfg = []) then (DnsApplied, t)
      else
        let '(ok, t) := dh_exec resolvectl ("dns" :: iface :: dc_Nameservers cfg) t in
        if negb ok then (DnsFailed, t)
        else
          let domains := dnsResolvedDomains cfg in
          let '(ok, t) := if decide (domains = []) then (true, t)
                          else dh_exec resolvectl ("domain" :: iface :: domains) t in
          if negb ok then (DnsFailed, t)
          else (DnsApplied, (dh_exec resolvectl ["default-route"; iface; "false"] t).2)
  end.

(** ** /etc/resolv.conf *)
Definition writeResolvConf (content : string) (t : T) : bool * T :=
  fs_write resolvConfPath content (fs_remove resolvConfPath t).2.

Definition restoreResolvConf (mode : dnsMode) (t : T) : bool * T :=
  match mode with
  | dnsModeResolved | dnsModeOff => (true, t)
  | _ =>
      let foreign := (true, (fs_remove resolvConfBackupPath t).2) in
      match fs_read resolvConfPath t with
      | ReadError => (false, t)
      | NotExist => foreign
      | Content current =>
          if negb (ours current) then foreign
          else match fs_read resolvConfBackupPath t with
               | Content backup =>
                   let '(ok, t) := writeResolvConf backup t in
                   if ok then fs_remove resolvConfBackupPath t else (false, t)
               | _ => (false, t)
               end
      end
  end.

Definition applyResolvConfDNS (mode : dnsMode) (keep : bool) (cfg : DNSConfig) (t : T) : bool * T :=
  if negb (dc_Enabled cfg) then restoreResolvConf mode t
  else if decide (dc_Nameservers cfg = []) then (true, t)
  else if negb (forallb (λ ns, bool_decide (is_Some (ParseAddr ns))) (dc_Nameservers cfg)) then (false, t)
  else
    if existsb has_blank (dnsPlainSearchDomains cfg) then (false, t)
    else
      match fs_read resolvConfPath t with
      | ReadError => (false, t)
      | r =>
          let current := match r with Content s => s | _ => "" end in
          let '(ok, original, t) :=
            if negb (ours current) then
              let '(ok, t) := fs_write resolvConfBackupPath current t in (ok, current, t)
            else (true, match fs_read resolvConfBackupPath t with Content b => b | _ => current end, t) in
          if negb ok then (false, t)
          else writeResolvConf (pushed_text keep original cfg) t
      end.

Definition applyDNSConfig_linux (mode : dnsMode) (keep : bool) (iface : string) (cfg : DNSConfig) (t : T)
  : dns_answer * T :=
  let file (t : T) := let '(ok, t) := applyResolvConfDNS mode keep cfg t in ((if ok then DnsApplied else DnsFailed), t) in
  match mode with
  | dnsModeOff => (DnsUnsupported, t)
  | dnsModeResolved => applyResolvedDNS iface cfg t
  | dnsModeResolvConf => file t
  | dnsModeAuto => let '(usable, t) := resolvedUsable t in if usable then applyResolvedDNS iface cfg t else file t
  end.
End host.

(** A host that is its files, where nothing fails and there is no resolvectl. *)
#[export] Instance plain_dns_host : DnsHost (gmap string string) := {
  dh_look _ _ := None;
  dh_exec _ _ t := (false, t);
  fs_read p t := match t !! p with Some s => Content s | None => NotExist end;
  fs_write p s t := (true, <[p := s]> t);
  fs_remove p t := match t !! p with Some _ => (true, delete p t) | None => (false, t) end;
  fs_view t := t
}.
#[export] Instance plain_dns_laws : DnsHostLaws (gmap string string).
Proof.
  split; cbn [fs_read fs_write fs_remove fs_view dh_exec plain_dns_host]; intros.
  - by destruct (t !! p).
  - by simplify_eq.
  - by simplify_eq.
  - by destruct (t !! p); simplify_eq.
  - by destruct (t !! p); simplify_eq.
  - done.
Qed.
Example resolv_example :
  snd (applyDNSConfig_linux dnsModeAuto true "wg-int" (mkDNS true true "vpn" ["100.64.0.7"] ["corp"])
         ({[resolvConfPath := line "nameserver 9.9.9.9"]} : gmap string string)) !! resolvConfPath
  = Some (resolv_text ["100.64.0.7"] ["9.9.9.9"] ["corp"; "vpn"]).
Proof. vm_compute. reflexivity. Qed.

(** ** Giving the file back

    Processes of the agent with any mode, any number of pushes and restores, and
    other writers of resolv.conf, in any order; a crash is a process that stops
    between two events. *)
Inductive dns_event : Type :=
| PushDns (mode : dnsMode) (keep : bool) (iface : string) (cfg : DNSConfig)
| RestoreDns (mode : dnsMode)
| Rewrite (content : string).
(** The contents the host's owner wrote last. *)
Definition owner_text (c : string) (e : dns_event) : string :=
  match e with Rewrite s => s | _ => c end.
Definition clean_event (e : dns_event) : Prop :=
  match e with Rewrite s => ours s = false | _ => True end.

Section facts.
Context {T : Type} {D : DnsHost T} {L : DnsHostLaws T}.
(** The file can be replaced at any time. *)
Context (writable : ∀ (s : string) (t : T), (fs_write resolvConfPath s t).1 = true).

Definition dns_step (t : T) (e : dns_event) : T :=
  match e with
  | PushDns mode keep iface cfg => (applyDNSConfig_linux mode keep iface cfg t).2
  | RestoreDns mode => (restoreResolvConf mode t).2
  | Rewrite s => (fs_write resolvConfPath s t).2
  end.

(** The file is its owner's, or the agent's with the owner's contents beside it. *)
Definition kept_safe (c : string) (t : T) : Prop :=
  ours c = false
  ∧ (default "" (fs_view t !! resolvConfPath) = c
     ∨ ∃ m, fs_view t !! resolvConfPath = Some m ∧ ours m = true ∧ fs_view t !! resolvConfBackupPath = Some c).

Lemma ours_text pushed fallbacks domains : ours (resolv_text pushed fallbacks domains) = true.
Proof using. reflexivity. Qed.

Lemma conf_written s (t : T) : ∃ t', fs_write resolvConfPath s t = (true, t') ∧ fs_view t' = <[resolvConfPath := s]> (fs_view t).
Proof using writable L.
  specialize (writable s t). destruct (fs_write resolvConfPath s t) as [ok t'] eqn:E. simpl in writable. subst ok.
  exists t'. split; [done|]. by apply fs_written.
Qed.
Lemma remove_other p q (t : T) : q ≠ p → fs_view (fs_remove p t).2 !! q = fs_view t !! q.
Proof using L.
  intros Hne. destruct (fs_remove p t) as [[] t'] eqn:E; cbn [snd].
  - rewrite (fs_removed _ _ _ E). by rewrite lookup_delete_ne.
  - by rewrite (fs_not_removed _ _ _ E).
Qed.
Lemma write_other p q s (t : T) : q ≠ p → fs_view (fs_write p s t).2 !! q = fs_view t !! q.
Proof using L.
  intros Hne. destruct (fs_write p s t) as [[] t'] eqn:E; cbn [snd].
  - rewrite (fs_written _ _ _ _ E). by rewrite lookup_insert_ne.
  - by apply (fs_not_written _ _ _ _ _ E).
Qed.
Lemma replaced s (t : T) :
  ∃ t', writeResolvConf s t = (true, t') ∧ fs_view t' !! resolvConfPath = Some s
    ∧ fs_view t' !! resolvConfBackupPath = fs_view t !! resolvConfBackupPath.
Proof using writable L.
  unfold writeResolvConf. destruct (conf_written s (fs_remove resolvConfPath t).2) as (t' & E & Hv).
  exists t'. split; [exact E|]. rewrite Hv, lookup_insert, decide_True by done. split; [done|].
  rewrite lookup_insert_ne by done. by apply remove_other.
Qed.

Lemma resolved_frame iface cfg (t : T) : fs_view (applyResolvedDNS iface cfg t).2 = fs_view t.
Proof using L.
  assert (∀ n a (u u' : T) ok, dh_exec n a u = (ok, u') → fs_view u' = fs_view u) as Hx.
  { intros n a u u' ok E. pose proof (dh_exec_view n a u) as Hv. by rewrite E in Hv. }
  unfold applyResolvedDNS. destruct (dh_look "resolvectl" t) as [path|]; [|done].
  destruct (dc_Enabled cfg); cbn [negb]; [|apply dh_exec_view].
  case_decide; [done|]. destruct (dh_exec path _ t) as [ok1 t1] eqn:E1. apply Hx in E1.
  destruct ok1; cbn [negb]; [|exact E1].
  case_decide; cbn [negb].
  - cbn [snd]. by rewrite dh_exec_view.
  - destruct (dh_exec path ("domain" :: _) t1) as [ok2 t2] eqn:E2. apply Hx in E2.
    destruct ok2; cbn [negb snd]; [rewrite dh_exec_view|]; by rewrite E2.
Qed.

(** The last hypothesis of the next lemma's second part: nothing stops the
    agent from looking at the two files. *)
Definition readable (t : T) : Prop :=
  fs_read resolvConfPath t ≠ ReadError ∧ fs_read resolvConfBackupPath t ≠ ReadError.
Definition takes_over (mode : dnsMode) : bool :=
  match mode with dnsModeAuto | dnsModeResolvConf => true | _ => false end.

Lemma backup_removed c (t : T) : default "" (fs_view t !! resolvConfPath) = c →
  default "" (fs_view (fs_remove resolvConfBackupPath t).2 !! resolvConfPath) = c.
Proof using L. intros <-. by rewrite remove_other. Qed.

(** Restoring keeps the owner's contents safe whatever fails, and puts them back
    when the files can be read. *)
Lemma restore_ok mode c (t : T) : kept_safe c t →
  let '(ok, t') := restoreResolvConf mode t in
  kept_safe c t' ∧ (takes_over mode = true → readable t → default "" (fs_view t' !! resolvConfPath) = c).
Proof using writable L.
  intros Hs. pose proof Hs as [Hc Hcase]. unfold restoreResolvConf.
  destruct mode; try (split; [exact Hs|done]).
  all: pose proof (fs_read_view resolvConfPath t) as Hr; destruct (fs_read resolvConfPath t) as [cur| |] eqn:Er.
  all: try (split; [exact Hs|by intros _ [He _]]).
  all: destruct Hcase as [Hd|(m & Hm & Hours & Hb)]; rewrite ?Hr in *; simplify_eq/=.
  all: try (rewrite Hc; cbn [negb]; split; [split; [done|left]|intros _ _]; apply backup_removed; by rewrite Hr).
  all: try (split; [split; [done|left]|intros _ _]; apply backup_removed; by rewrite Hr).
  all: rewrite Hours; cbn [negb]; pose proof (fs_read_view resolvConfBackupPath t) as Hrb;
    destruct (fs_read resolvConfBackupPath t) as [b| |] eqn:Erb; rewrite ?Hb in Hrb; simplify_eq/=.
  all: try (split; [exact Hs|intros _ [_ He]; done]).
  all: destruct (replaced b t) as (t1 & -> & Ht1 & _);
    destruct (fs_remove resolvConfBackupPath t1) as [ok t2] eqn:E2;
    pose proof (backup_removed b t1) as Hk; rewrite E2, Ht1 in Hk; specialize (Hk eq_refl); cbn [snd] in Hk;
    split; [split; [done|by left]|done].
Qed.

(** A push: the owner's contents stay safe, and a file that was written lists the
    pushed name servers before those of the owner's file. *)
Definition pushed_ok (keep : bool) (cfg : DNSConfig) (c : string) (t : T) (r : bool * T) : Prop :=
  kept_safe c r.2
  ∧ (dc_Enabled cfg = true → dc_Nameservers cfg ≠ [] → r.1 = true → readable t →
     fs_view r.2 !! resolvConfPath = Some (pushed_text keep c cfg)).

Lemma push_written keep cfg original c (t u : T) :
  ours c = false → fs_view u !! resolvConfBackupPath = Some c → original = c ∨ ¬ readable t →
  pushed_ok keep cfg c t (writeResolvConf (pushed_text keep original cfg) u).
Proof using writable L.
  intros Hc Hb Ho. destruct (replaced (pushed_text keep original cfg) u) as (t' & -> & Hv & Hb').
  rewrite Hb in Hb'. split; cbn [fst snd].
  - split; [done|right]. eexists. split; [exact Hv|]. split; [apply ours_text|exact Hb'].
  - intros _ _ _ Hread. destruct Ho as [->|Ho]; [exact Hv|by destruct Ho].
Qed.
Lemma push_over_owner keep cfg c (t : T) :
  ours c = false → default "" (fs_view t !! resolvConfPath) = c →
  pushed_ok keep cfg c t
    (let '(ok, original, u) := let '(ok, u) := fs_write resolvConfBackupPath c t in (ok, c, u) in
     if negb ok then (false, u) else writeResolvConf (pushed_text keep original cfg) u).
Proof using writable L.
  intros Hc Hd. pose proof (write_other resolvConfBackupPath resolvConfPath c t ltac:(done)) as Hk.
  destruct (fs_write resolvConfBackupPath c t) as [[] t1] eqn:E; cbn [negb].
  - apply push_written; [done| |by left]. rewrite (fs_written _ _ _ _ E). by rewrite lookup_insert, decide_True.
  - split; [|done]. split; [done|left]. cbn [fst snd] in *. by rewrite Hk.
Qed.
Lemma push_ok mode keep cfg c (t : T) : kept_safe c t → pushed_ok keep cfg c t (applyResolvConfDNS mode keep cfg t).
Proof using writable L.
  intros Hs. unfold applyResolvConfDNS. destruct (dc_Enabled cfg) eqn:Een; cbn [negb].
  2:{ pose proof (restore_ok mode c t Hs) as Hr. destruct (restoreResolvConf mode t) as [ok t'].
      split; [apply Hr|by rewrite Een]. }
  case_decide; [split; done|]. destruct (forallb _ _); cbn [negb]; [|split; done].
  destruct (existsb has_blank _); [split; done|].
  pose proof Hs as [Hc Hcase]. pose proof (fs_read_view resolvConfPath t) as Hr.
  destruct (fs_read resolvConfPath t) as [cur| |]; [| |split; done].
  - destruct Hcase as [Hd|(m & Hm & Hours & Hb)].
    + assert (cur = c) as -> by (by rewrite Hr in Hd). rewrite Hc. by apply push_over_owner.
    + assert (cur = m) as -> by congruence. rewrite Hours. cbn [negb]. apply push_written; [done|done|].
      pose proof (fs_read_view resolvConfBackupPath t) as Hrb.
      destruct (fs_read resolvConfBackupPath t) eqn:E; [left|right|right]; try congruence; intros [_ He]; congruence.
  - destruct Hcase as [Hd|(m & Hm & _)]; [|congruence].
    assert (c = "") as -> by (by rewrite Hr in Hd). by apply push_over_owner.
Qed.

Lemma dns_step_safe c e (t : T) : clean_event e → kept_safe c t → kept_safe (owner_text c e) (dns_step t e).
Proof using writable L.
  assert (∀ u u' : T, fs_view u' = fs_view u → kept_safe c u → kept_safe c u') as Hsame
    by (by intros u u' E; unfold kept_safe; rewrite E).
  intros He Hs. destruct e as [mode keep iface cfg|mode|s]; cbn [dns_step owner_text].
  - assert (∀ u : T, kept_safe c u → kept_safe c (let '(ok, t') := applyResolvConfDNS mode keep cfg u in
      ((if ok then DnsApplied else DnsFailed), t')).2) as Hp.
    { intros u Hu. pose proof (push_ok mode keep cfg c u Hu) as Hp. destruct (applyResolvConfDNS _ _ _ _). apply Hp. }
    unfold applyDNSConfig_linux. destruct mode; [|eapply Hsame; [apply resolved_frame|done]|by apply Hp|done].
    assert (fs_view (resolvedUsable t).2 = fs_view t) as Hu.
    { unfold resolvedUsable. destruct (dh_look _ _); [apply dh_exec_view|done]. }
    destruct (resolvedUsable t) as [[] t1]; cbn [snd] in Hu.
    + eapply Hsame; [apply resolved_frame|]. by eapply Hsame.
    + apply Hp. by eapply Hsame.
  - pose proof (restore_ok mode c t Hs) as Hr. destruct (restoreResolvConf mode t). apply Hr.
  - destruct (conf_written s t) as (t' & -> & Hv). cbn [snd]. split; [exact He|left].
    rewrite Hv. by rewrite lookup_insert, decide_True.
Qed.
Lemma dns_steps_safe evs : ∀ c (t : T), Forall clean_event evs → kept_safe c t →
  kept_safe (foldl owner_text c evs) (foldl dns_step t evs).
Proof using writable L.
  induction evs as [|e evs IH]; intros c t Hc Hs; [done|]. apply Forall_cons in Hc as [He Hc].
  cbn [foldl]. apply IH; [done|]. by apply dns_step_safe.
Qed.

(** C21: The agent gives /etc/resolv.conf back: as long as the file itself can be
    replaced, then after any sequence of pushes, restores and restarts of the
    agent, in any mode, and of rewrites by others, restoring puts back exactly
    what the owner of the file wrote last; and a push writes its name servers
    followed by those of the owner's file, never by its own from before. *)
Theorem resolv_conf_restored evs c (t : T) :
  Forall clean_event evs → ours c = false → default "" (fs_view t !! resolvConfPath) = c →
  let t1 := foldl dns_step t evs in let c1 := foldl owner_text c evs in
  readable t1 →
  (∀ mode, takes_over mode = true →
     default "" (fs_view (restoreResolvConf mode t1).2 !! resolvConfPath) = c1)
  ∧ (∀ mode keep cfg t2, dc_Enabled cfg = true → dc_Nameservers cfg ≠ [] →
     applyResolvConfDNS mode keep cfg t1 = (true, t2) →
     fs_view t2 !! resolvConfPath
     = Some (pushed_text keep c1 cfg)).
Proof using writable L.
  intros Hev Hc Ht t1 c1 Hread.
  assert (kept_safe c1 t1) as Hs by (apply dns_steps_safe; [done|split; [done|by left]]).
  split.
  - intros mode Hm. pose proof (restore_ok mode c1 t1 Hs) as Hr.
    destruct (restoreResolvConf mode t1) as [ok t2]. by apply Hr.
  - intros mode keep cfg t2 He Hn Ha. pose proof (push_ok mode keep cfg c1 t1 Hs) as Hp. rewrite Ha in Hp.
    by apply Hp.
Qed.
End facts.

(** ** Examples *)
Definition ex_push : dns_event := PushDns dnsModeAuto true "wg-int" (mkDNS true true "vpn" ["100.64.0.7"] []).
Definition ex_dns_events : list dns_event :=
  [ex_push; RestoreDns dnsModeOff; ex_push; Rewrite (line "nameserver 192.168.1.1"); ex_push].
Lemma resolv_conf_restored_witness :
  default "" ((restoreResolvConf dnsModeAuto
     (foldl dns_step {[resolvConfPath := line "nameserver 9.9.9.9"]} ex_dns_events) : bool * gmap string string).2
     !! resolvConfPath) = line "nameserver 192.168.1.1".
Proof.
  apply (resolv_conf_restored (D := plain_dns_host) (λ _ _, eq_refl) ex_dns_events (line "nameserver 9.9.9.9")).
  - by repeat constructor.
  - reflexivity.
  - reflexivity.
  - split; vm_compute; discriminate.
  - reflexivity.
Defined.

(** A push that is cut off after the old file is removed: the next start finds no
    file, takes the backup for a stale one and removes the owner's contents. *)
Lemma resolv_conf_lost_in_crash :
  let t : gmap string string :=
    {[resolvConfPath := line "nameserver 9.9.9.9"; resolvConfBackupPath := line "nameserver 9.9.9.9"]} in
  (restoreResolvConf dnsModeAuto (fs_remove resolvConfPath t).2).2 = ∅.
Proof. vm_compute. reflexivity. Qed.

(** An address with a zone passes the check of the name servers, whatever the
    zone contains. *)
Definition zone_nameserver : string := "fe80::1%eth0" +:+ String newline "nameserver 6.6.6.6".
Lemma resolv_conf_zone_injection :
  match applyResolvConfDNS dnsModeAuto false (mkDNS true false "" [zone_nameserver] [])
          ({[resolvConfPath := ""]} : gmap string string) with
  | (ok, t) => ok = true ∧ "nameserver 6.6.6.6" ∈ Split (default "" (t !! resolvConfPath)) newline
  end.
Proof. vm_compute. split; [done|]. repeat first [by left | right]. Qed.

(** Three name servers fill the resolver's list; one of the owner's is appended
    all the same. *)
Lemma fallback_beyond_max :
  fallbackNameservers true (line "nameserver 9.9.9.9") ["10.0.0.1"; "10.0.0.2"; "10.0.0.3"] = ["9.9.9.9"].
Proof. vm_compute. reflexivity. Qed.
