(* ===== verification/QuicFrames.v ===== *)
(** * The QUIC relay's datagrams

    cmd/agent/relayquic.go: WireGuard's packets are cut into numbered fragments
    that fit into QUIC datagrams ([udpToQUIC]) and put together again on the
    other side ([quicToUDP]).  The hub between them forwards datagrams unchanged
    (WsHub); the network may lose, repeat and reorder them.

    A byte is a number; [victim] is the entry Go's map iteration meets first when
    the table is full. *)
From S2P Require Import Prelude Sha256 LocalCandidates.

Definition quicFragmentPayload : nat := 1000.
Definition quicFragmentHeader : nat := 8.
Definition max_assemblies : nat := 64.

(** ** Sending *)
Definition fragment_count (d : list Z) : nat := Nat.div (length d + quicFragmentPayload - 1) quicFragmentPayload.
Definition fragment (i : nat) (d : list Z) : list Z :=
  take quicFragmentPayload (drop (i * quicFragmentPayload) d).
Definition quic_frame (id : Z) (count : nat) (d : list Z) (i : nat) : list Z :=
  [87; 81; Z.of_nat i mod 256; Z.of_nat count mod 256] ++ be_bytes 4 id ++ fragment i d.
Definition frames_of (id : Z) (d : list Z) : list (list Z) :=
  let count := fragment_count d in
  if bool_decide (count = 0 ∨ 255 < count)%nat then [] else quic_frame id count d <$> seq 0 count.

(** One packet read from the local socket; [seq] is the number of the last one.
    A packet that is not WireGuard's is dropped before it is numbered. *)
Definition udpToQUIC (wgPort : Z) (seq : Z) (pkt : Z * bool * list Z) : Z * list (list Z) :=
  let '(port, loopback, d) := pkt in
  if negb (port =? wgPort) || negb loopback then (seq, [])
  else let id := (seq + 1) mod 2 ^ 32 in (id, frames_of id d).

(** ** Receiving *)

(** A part that is missing, or empty, is nil. *)
Record quicAssembly : Type := mkAssembly { qa_parts : list (option (list Z)); qa_seen : Z }.
Definition as_part (p : list Z) : option (list Z) := match p with [] => None | _ => Some p end.

(** A part for the assembly [a], the entry of [m] at [id]. *)
Definition add_part (id idx count : Z) (payload : list Z) (a : quicAssembly) (m : gmap Z quicAssembly)
  : gmap Z quicAssembly * list (list Z) :=
  if negb (Z.of_nat (length (qa_parts a)) =? count) then (m, [])
  else match qa_parts a !! Z.to_nat idx with
       | Some None =>
           let a := mkAssembly (<[Z.to_nat idx := as_part payload]> (qa_parts a)) (qa_seen a + 1) in
           if negb (qa_seen a =? count) then (<[id := a]> m, [])
           else
             let packet := concat (default [] <$> qa_parts a) in
             (delete id m, if Z.of_nat (length packet) <=? 65536 then [packet] else [])
       | _ => (m, [])
       end.
(** A fragment with a well-formed header. *)
Definition assemble (victim id idx count : Z) (payload : list Z) (m : gmap Z quicAssembly)
  : gmap Z quicAssembly * list (list Z) :=
  match m !! id with
  | Some a => add_part id idx count payload a m
  | None =>
      let m := if (max_assemblies <=? size m)%nat then delete victim m else m in
      let a := mkAssembly (replicate (Z.to_nat count) None) 0 in
      add_part id idx count payload a (<[id := a]> m)
  end.
Definition quicToUDP (victim : Z) (m : gmap Z quicAssembly) (frame : list Z) : gmap Z quicAssembly * list (list Z) :=
  match frame with
  | w :: q :: idx :: count :: b0 :: b1 :: b2 :: b3 :: payload =>
      if negb (w =? 87) || negb (q =? 81) then (m, [])
      else if (count =? 0) || (count <=? idx) then (m, [])
      else assemble victim (be [b0; b1; b2; b3]) idx count payload m
  | _ => (m, [])
  end.

(** ** The two loops *)
Fixpoint send_all (wgPort seq : Z) (pkts : list (Z * bool * list Z)) : list (list Z) :=
  match pkts with
  | [] => []
  | p :: pkts => let '(seq, fs) := udpToQUIC wgPort seq p in fs ++ send_all wgPort seq pkts
  end.
Fixpoint receive_all (m : gmap Z quicAssembly) (l : list (Z * list Z)) : gmap Z quicAssembly * list (list Z) :=
  match l with
  | [] => (m, [])
  | (victim, f) :: l =>
      let '(m, out) := quicToUDP victim m f in
      let '(m, outs) := receive_all m l in (m, out ++ outs)
  end.

Example quic_example :
  let d := replicate 2500 (7 : Z) in
  (receive_all ∅ ((pair 0) <$> rev (send_all 51820 0 [(51820, true, d)]))).2 = [d].
Proof. vm_compute. reflexivity. Qed.

(** ** Fragments *)
Lemma count_bound d i : (i < fragment_count d)%nat ↔ (i * quicFragmentPayload < length d)%nat.
Proof.
  unfold fragment_count, quicFragmentPayload.
  pose proof (Nat.div_mod_eq (length d + 1000 - 1) 1000). pose proof (Nat.mod_upper_bound (length d + 1000 - 1) 1000).
  split; intros; nia.
Qed.
Lemma fragment_ne i d : (i < fragment_count d)%nat → as_part (fragment i d) = Some (fragment i d).
Proof.
  intros Hi%count_bound. unfold as_part. destruct (fragment i d) eqn:E; [|done].
  apply (f_equal length) in E. unfold fragment in E. rewrite length_take, length_drop in E.
  unfold quicFragmentPayload in *. simpl length in E. lia.
Qed.
Lemma concat_prefix d n :
  concat ((λ i, fragment i d) <$> seq 0 n) = take (n * quicFragmentPayload) d.
Proof.
  induction n as [|n IH]; [done|]. rewrite seq_S, fmap_app, concat_app, IH. cbn [Nat.add fmap list_fmap concat].
  rewrite app_nil_r. unfold fragment. rewrite take_take_drop. f_equal. lia.
Qed.
Lemma concat_fragments d : concat ((λ i, fragment i d) <$> seq 0 (fragment_count d)) = d.
Proof.
  rewrite concat_prefix. apply take_ge. pose proof (count_bound d (fragment_count d)) as H. lia.
Qed.
Lemma be_be4 z : 0 ≤ z < 2 ^ 32 → be (be_bytes 4 z) = z.
Proof.
  intros Hz. change (be (be_bytes 4 z)) with
    (256 * (256 * (256 * (256 * 0 + z / 2 ^ 24 mod 256) + z / 2 ^ 16 mod 256) + z / 2 ^ 8 mod 256) + z / 1 mod 256).
  change (2 ^ 24) with (256 * 256 * 256). change (2 ^ 16) with (256 * 256). change (2 ^ 8) with 256.
  rewrite Z.div_1_r, <- (Z.div_div z (256 * 256) 256), <- (Z.div_div z 256 256) by done.
  rewrite (Z.mod_small (z / 256 / 256 / 256)) by (rewrite !Z.div_div by done; split; [apply Z.div_pos|apply Z.div_lt_upper_bound]; lia).
  pose proof (Z.div_mod z 256). pose proof (Z.div_mod (z / 256) 256). pose proof (Z.div_mod (z / 256 / 256) 256). lia.
Qed.

(** What the receiver makes of a frame. *)
Lemma frame_read victim m id d i :
  0 ≤ id < 2 ^ 32 → (i < fragment_count d ≤ 255)%nat →
  quicToUDP victim m (quic_frame id (fragment_count d) d i)
  = assemble victim id (Z.of_nat i) (Z.of_nat (fragment_count d)) (fragment i d) m.
Proof.
  intros Hid Hi. unfold quic_frame. rewrite !Z.mod_small by lia.
  pose proof (be_be4 id Hid) as Hb. pose proof (eq_refl : length (be_bytes 4 id) = 4%nat) as Hl.
  destruct (be_bytes 4 id) as [|b0 [|b1 [|b2 [|b3 [|]]]]]; try done.
  cbn [app quicToUDP Z.eqb Pos.eqb negb orb]. rewrite Hb.
  destruct (Z.eqb_spec (Z.of_nat (fragment_count d)) 0); [lia|].
  destruct (Z.leb_spec (Z.of_nat (fragment_count d)) (Z.of_nat i)); [lia|done].
Qed.

(** ** Parts *)
Fixpoint present {A} (l : list (option A)) : nat :=
  match l with
  | [] => 0
  | Some _ :: l => S (present l)
  | None :: l => present l
  end.
Lemma present_le {A} (l : list (option A)) : (present l ≤ length l)%nat.
Proof. induction l as [|[]]; simpl; lia. Qed.
Lemma present_replicate {A} n : present (replicate n (None : option A)) = 0%nat.
Proof. by induction n. Qed.
Lemma present_insert {A} (l : list (option A)) i x :
  l !! i = Some None → present (<[i := Some x]> l) = S (present l).
Proof.
  revert i. induction l as [|o l IH]; intros [|i] Hi; simplify_eq/=; [done|].
  destruct o; simpl; by rewrite (IH i Hi).
Qed.
Lemma present_all {A} (l : list (option A)) i : present l = length l → (i < length l)%nat → is_Some (l !! i ≫= id).
Proof.
  revert i. induction l as [|[x|] l IH]; intros i Hp Hi; simpl in *; [lia| |].
  - destruct i; [by eexists|]. apply IH; lia.
  - pose proof (present_le l). lia.
Qed.

(** A packet that is being put together: the parts so far are its fragments. *)
Definition assembling (d : list Z) (a : quicAssembly) : Prop :=
  length (qa_parts a) = fragment_count d
  ∧ (∀ i p, qa_parts a !! i = Some (Some p) → p = fragment i d)
  ∧ qa_seen a = Z.of_nat (present (qa_parts a)).

Lemma assembling_new d : assembling d (mkAssembly (replicate (fragment_count d) None) 0).
Proof.
  split; [|split]; cbn [qa_parts qa_seen].
  - by rewrite length_replicate.
  - intros i p [Hx _]%lookup_replicate_1. done.
  - by rewrite present_replicate.
Qed.
Lemma assembling_part d a i : (i < fragment_count d)%nat → qa_parts a !! i = Some None → assembling d a →
  assembling d (mkAssembly (<[i := as_part (fragment i d)]> (qa_parts a)) (qa_seen a + 1)).
Proof.
  intros Hi Hn (Hl & Hp & Hs). rewrite fragment_ne by done. split; [|split]; cbn [qa_parts qa_seen].
  - by rewrite length_insert.
  - intros j p. destruct (decide (i = j)) as [<-|Hne].
    + rewrite list_lookup_insert_eq by lia. congruence.
    + rewrite list_lookup_insert_ne by done. apply Hp.
  - rewrite present_insert by done. lia.
Qed.
Lemma assembled d a : assembling d a → qa_seen a = Z.of_nat (fragment_count d) →
  concat (default [] <$> qa_parts a) = d.
Proof.
  intros (Hl & Hp & Hs) Hc. transitivity (concat ((λ i, fragment i d) <$> seq 0 (fragment_count d))); [|apply concat_fragments].
  f_equal. apply list_eq_same_length with (fragment_count d).
  - by rewrite length_fmap, length_seq.
  - by rewrite length_fmap.
  - intros i x y Hi Hx Hy. rewrite list_lookup_fmap in Hx. rewrite list_lookup_fmap, lookup_seq_lt in Hy by done. simplify_eq/=.
    pose proof (present_all (qa_parts a) i ltac:(lia) ltac:(lia)) as [z Hz].
    destruct (qa_parts a !! i) as [[p|]|] eqn:E; simplify_eq/=. by apply Hp.
Qed.

(** ** What comes out was sent *)
Section safety.
(** The packets that were cut up, with their numbers. *)
Context (sent : list (Z * list Z)) (Hsent : NoDup sent.*1).

Definition safe (m : gmap Z quicAssembly) : Prop :=
  map_Forall (λ id a, ∃ d, (id, d) ∈ sent ∧ assembling d a) m.
Lemma sent_unique id d d' : (id, d) ∈ sent → (id, d') ∈ sent → d = d'.
Proof using Hsent.
  clear -Hsent. intros H H'. induction sent as [|[i e] l IH]; [by apply not_elem_of_nil in H|].
  rewrite fmap_cons, NoDup_cons in Hsent. destruct Hsent as [Hn Hd].
  assert (∀ x, (id, x) ∈ l → id ∈ l.*1) as Hin by (intros x Hx; by apply (list_elem_of_fmap_2 fst _ _ Hx)).
  apply elem_of_cons in H as [[=]|H]; apply elem_of_cons in H' as [[=]|H']; subst; simpl in *; [done| | |by apply IH];
    by destruct Hn; eapply Hin.
Qed.

Lemma safe_delete m id : safe m → safe (delete id m).
Proof. intros H. by apply map_Forall_delete. Qed.
Lemma safe_insert m id d a : (id, d) ∈ sent → assembling d a → safe m → safe (<[id := a]> m).
Proof. intros Hd Ha H. apply map_Forall_insert_2; [by exists d|done]. Qed.

Lemma add_part_safe id d i a m :
  (id, d) ∈ sent → (i < fragment_count d)%nat → assembling d a → safe m →
  let '(m', out) := add_part id (Z.of_nat i) (Z.of_nat (fragment_count d)) (fragment i d) a m in
  safe m' ∧ Forall (eq d) out.
Proof using.
  intros Hd Hi Ha Hm. unfold add_part. rewrite Nat2Z.id.
  destruct (negb _); [done|]. destruct (qa_parts a !! i) as [[?|]|] eqn:E; [done| |done].
  pose proof (assembling_part d a i Hi E Ha) as Ha'. cbn zeta.
  destruct (Z.eqb_spec (qa_seen (mkAssembly (<[i := as_part (fragment i d)]> (qa_parts a)) (qa_seen a + 1)))
              (Z.of_nat (fragment_count d))) as [Hc|Hc]; cbn [negb].
  - rewrite (assembled d _ Ha' Hc). split; [by apply safe_delete|]. case_match; [by repeat constructor|done].
  - split; [by eapply safe_insert|done].
Qed.
Lemma assemble_safe victim id d i m :
  (id, d) ∈ sent → (i < fragment_count d)%nat → safe m →
  let '(m', out) := assemble victim id (Z.of_nat i) (Z.of_nat (fragment_count d)) (fragment i d) m in
  safe m' ∧ Forall (eq d) out.
Proof using Hsent.
  intros Hd Hi Hm. unfold assemble. destruct (m !! id) as [a|] eqn:Em.
  - destruct (Hm id a Em) as (d' & Hd' & Ha). rewrite <- (sent_unique id d d' Hd Hd') in Ha. by apply add_part_safe.
  - rewrite Nat2Z.id. apply add_part_safe; [done|done|apply assembling_new|].
    eapply safe_insert; [done|apply assembling_new|]. case_match; [by apply safe_delete|done].
Qed.

(** What may arrive: a frame of a packet that was sent, or something else that
    does not claim to be one. *)
Definition arrives (f : list Z) : Prop :=
  (∃ id d, (id, d) ∈ sent ∧ 0 ≤ id < 2 ^ 32 ∧ f ∈ frames_of id d) ∨ take 2 f ≠ [87; 81].

Lemma receive_safe victim m f : arrives f → safe m →
  let '(m', out) := quicToUDP victim m f in safe m' ∧ Forall (λ d, ∃ id, (id, d) ∈ sent) out.
Proof using Hsent.
  intros [(id & d & Hd & Hid & Hf)|Hj] Hm.
  - unfold frames_of in Hf. case_bool_decide as Hc; [by apply not_elem_of_nil in Hf|].
    apply list_elem_of_fmap in Hf as (i & -> & Hi). apply elem_of_seq in Hi.
    rewrite frame_read by lia. pose proof (assemble_safe victim id d i m Hd ltac:(lia) Hm) as Hs.
    destruct (assemble _ _ _ _ _ _) as [m' out]. destruct Hs as [Hs Ho]. split; [done|].
    eapply Forall_impl; [exact Ho|]. intros x <-. by exists id.
  - unfold quicToUDP. destruct f as [|w [|q [|i [|c [|b0 [|b1 [|b2 [|b3 pl]]]]]]]]; try done.
    destruct (Z.eqb_spec w 87) as [->|]; [|done]. destruct (Z.eqb_spec q 81) as [->|]; done.
Qed.
Lemma receive_all_safe rs : ∀ m, Forall (λ r, arrives r.2) rs → safe m →
  Forall (λ d, ∃ id, (id, d) ∈ sent) (receive_all m rs).2.
Proof using Hsent.
  induction rs as [|[v f] rs IH]; intros m Hr Hm; [done|]. apply Forall_cons in Hr as [Hf Hr].
  cbn [receive_all]. pose proof (receive_safe v m f Hf Hm) as Hs. destruct (quicToUDP v m f) as [m1 out].
  destruct Hs as [Hm1 Ho]. specialize (IH m1 Hr Hm1). destruct (receive_all m1 rs) as [m2 outs].
  by apply Forall_app.
Qed.
End safety.

(** ** What arrives whole comes out *)
Section delivery.
Context (d : list Z).

(** The table when the fragments [got] have arrived. *)
Definition partial (got : list nat) : quicAssembly :=
  mkAssembly ((λ i, if decide (i ∈ got) then Some (fragment i d) else None) <$> seq 0 (fragment_count d))
    (Z.of_nat (length got)).
Lemma partial_lookup got i : (i < fragment_count d)%nat →
  qa_parts (partial got) !! i = Some (if decide (i ∈ got) then Some (fragment i d) else None).
Proof using. intros Hi. cbn [qa_parts partial]. by rewrite list_lookup_fmap, lookup_seq_lt. Qed.
Lemma partial_length got : length (qa_parts (partial got)) = fragment_count d.
Proof using. cbn [qa_parts partial]. by rewrite length_fmap, length_seq. Qed.
Lemma partial_nil : partial [] = mkAssembly (replicate (fragment_count d) None) 0.
Proof using.
  unfold partial. f_equal. apply list_eq. intros i. rewrite list_lookup_fmap.
  destruct (decide (i < fragment_count d)%nat) as [Hi|Hi].
  - rewrite lookup_seq_lt, lookup_replicate_2 by done. cbn. by rewrite decide_False by apply not_elem_of_nil.
  - rewrite lookup_seq_ge, lookup_ge_None_2 by (rewrite ?length_replicate; lia). done.
Qed.
Lemma partial_cons i got : (i < fragment_count d)%nat →
  <[i := Some (fragment i d)]> (qa_parts (partial got)) = qa_parts (partial (i :: got)).
Proof using.
  intros Hi. apply list_eq. intros j. destruct (decide (j < fragment_count d)%nat) as [Hj|Hj].
  - rewrite partial_lookup by done. destruct (decide (i = j)) as [<-|Hne].
    + rewrite list_lookup_insert_eq by (rewrite partial_length; done). by rewrite decide_True by left.
    + rewrite list_lookup_insert_ne, partial_lookup by done. f_equal.
      apply decide_ext. rewrite elem_of_cons. naive_solver.
  - rewrite !lookup_ge_None_2 by (rewrite ?length_insert, ?partial_length; lia). done.
Qed.

Lemma partial_assembling got : NoDup got → Forall (λ i, i < fragment_count d)%nat got → assembling d (partial got).
Proof using.
  intros Hn Hf. induction Hn as [|i got Hi Hn IH]; [rewrite partial_nil; apply assembling_new|].
  apply Forall_cons in Hf as [Hlt Hf].
  replace (partial (i :: got)) with
    (mkAssembly (<[i := as_part (fragment i d)]> (qa_parts (partial got))) (qa_seen (partial got) + 1)).
  - apply assembling_part; [done| |by apply IH]. by rewrite partial_lookup, decide_False.
  - rewrite fragment_ne, partial_cons by done. unfold partial. f_equal. cbn [qa_seen length]. lia.
Qed.

Context (Hd : 0 < Z.of_nat (length d) ≤ 65535) (id : Z) (Hid : 0 ≤ id < 2 ^ 32).
Context (m : gmap Z quicAssembly) (Hfresh : m !! id = None) (Hroom : (size m < max_assemblies)%nat).
Definition table (got : list nat) : gmap Z quicAssembly :=
  match got with [] => m | _ => <[id := partial got]> m end.

Lemma table_step victim i got :
  assemble victim id (Z.of_nat i) (Z.of_nat (fragment_count d)) (fragment i d) (table got)
  = add_part id (Z.of_nat i) (Z.of_nat (fragment_count d)) (fragment i d) (partial got) (<[id := partial got]> m).
Proof using Hfresh Hroom Hid.
  unfold assemble, table. destruct got as [|j got].
  - rewrite Hfresh. destruct (Nat.leb_spec max_assemblies (size m)); [lia|]. by rewrite partial_nil, Nat2Z.id.
  - by rewrite lookup_insert_eq.
Qed.
(** One more fragment, and the last. *)
Lemma deliver_step victim i got :
  NoDup (i :: got) → Forall (λ i, i < fragment_count d)%nat (i :: got) →
  assemble victim id (Z.of_nat i) (Z.of_nat (fragment_count d)) (fragment i d) (table got)
  = if decide (S (length got) = fragment_count d) then (m, [d]) else (table (i :: got), []).
Proof using Hfresh Hroom Hid Hd.
  intros Hn Hf. pose proof (partial_assembling _ Hn Hf) as Ha.
  apply NoDup_cons in Hn as [Hi _]. apply Forall_cons in Hf as [Hlt _].
  rewrite table_step. unfold add_part. rewrite partial_length, Z.eqb_refl, Nat2Z.id. cbn [negb].
  rewrite partial_lookup, decide_False, fragment_ne, partial_cons by done. cbn zeta.
  change (mkAssembly (qa_parts (partial (i :: got))) (qa_seen (partial got) + 1))
    with (mkAssembly (qa_parts (partial (i :: got))) (Z.of_nat (length got) + 1)).
  replace (mkAssembly _ _) with (partial (i :: got)) by (unfold partial; f_equal; cbn [length]; lia).
  assert (qa_seen (partial (i :: got)) = Z.of_nat (S (length got))) as Hs by done.
  destruct (Z.eqb_spec (qa_seen (partial (i :: got))) (Z.of_nat (fragment_count d))) as [E|E]; cbn [negb].
  - rewrite (assembled d _ Ha E), decide_True by lia.
    rewrite delete_insert_eq, delete_id by done. destruct (Z.leb_spec (Z.of_nat (length d)) 65536); [done|lia].
  - rewrite decide_False by lia. cbn [table]. by rewrite insert_insert_eq.
Qed.

Lemma small_count : (1 ≤ fragment_count d ≤ 255)%nat.
Proof using Hd.
  clear -Hd.
  pose proof (count_bound d 0) as H0. pose proof (count_bound d 254) as H1. unfold quicFragmentPayload in *. lia.
Qed.
Lemma deliver_rest ks : ∀ got rs,
  NoDup (ks ++ got) → Forall (λ i, i < fragment_count d)%nat (ks ++ got) →
  length (ks ++ got) = fragment_count d → ks ≠ [] →
  rs.*2 = quic_frame id (fragment_count d) d <$> ks → receive_all (table got) rs = (m, [d]).
Proof using Hfresh Hroom Hid Hd.
  pose proof small_count as Hc.
  induction ks as [|i ks IH]; intros got rs Hn Hf Hl Hne Hr; [done|].
  destruct rs as [|[v f] rs]; [done|]. rewrite !fmap_cons in Hr. injection Hr as -> Hr. cbn [receive_all snd].
  assert (NoDup (i :: got) ∧ Forall (λ i, i < fragment_count d)%nat (i :: got)) as [Hn' Hf'].
  { rewrite <- app_comm_cons in Hn, Hf. apply NoDup_cons in Hn as [H1 H2]. apply Forall_cons in Hf as [H3 H4].
    apply NoDup_app in H2 as (_ & _ & H2). apply Forall_app in H4 as [_ H4].
    split; [apply NoDup_cons; split; [|done]|by apply Forall_cons].
    intros Hin. apply H1, elem_of_app. by right. }
  rewrite frame_read by (apply Forall_cons in Hf' as [? _]; lia). rewrite deliver_step by done.
  destruct ks as [|j ks].
  - rewrite decide_True by done. destruct rs; [done|discriminate Hr].
  - rewrite decide_False by (rewrite !length_app in Hl; cbn [length] in Hl; lia).
    rewrite (IH (i :: got) rs); [done| | | |done|done].
    + by rewrite <- Permutation_middle.
    + by rewrite <- Permutation_middle.
    + rewrite <- Hl. by rewrite <- Permutation_middle.
Qed.
Lemma delivered rs : rs.*2 ≡ₚ frames_of id d → receive_all m rs = (m, [d]).
Proof using Hfresh Hroom Hid Hd.
  pose proof small_count as Hc. unfold frames_of. rewrite bool_decide_eq_false_2 by lia.
  intros Hp. apply Permutation_map_inv in Hp as (ks & Hr & Hp).
  apply (deliver_rest ks [] rs); rewrite ?app_nil_r.
  - rewrite <- Hp. apply NoDup_seq.
  - rewrite <- Hp. apply Forall_seq. lia.
  - rewrite <- Hp. apply length_seq.
  - intros ->. apply Permutation_length in Hp. rewrite length_seq in Hp. simpl in Hp. lia.
  - done.
Qed.
End delivery.

(** ** Among other datagrams

    The table has room before each of them. *)
Fixpoint roomy (m : gmap Z quicAssembly) (rs : list (Z * list Z)) : Prop :=
  match rs with
  | [] => True
  | (v, f) :: rs => (size m < max_assemblies)%nat ∧ roomy (quicToUDP v m f).1 rs
  end.
Lemma fresh_index n (got : list nat) : (length got < n)%nat → ∃ i, (i < n)%nat ∧ i ∉ got.
Proof.
  intros Hl. destruct (decide (Exists (λ i, i ∉ got) (seq 0 n))) as [He|He].
  - apply Exists_exists in He as (i & Hi%elem_of_seq & Hg). exists i. split; [lia|done].
  - exfalso. apply not_Exists_Forall in He; [|intros ?; apply _]. rewrite Forall_forall in He.
    assert (seq 0 n ⊆+ got) as Hs.
    { apply NoDup_submseteq; [apply NoDup_seq|]. intros i Hi. specialize (He i Hi). by apply dec_stable in He. }
    apply submseteq_length in Hs. rewrite length_seq in Hs. lia.
Qed.
Section mixed.
Context (sent : list (Z * list Z)) (Hsent : NoDup sent.*1) (id : Z) (d : list Z).
Context (Hin : (id, d) ∈ sent) (Hid : 0 ≤ id < 2 ^ 32) (Hd : 0 < Z.of_nat (length d) ≤ 65535).

Lemma add_part_other id' idx count pl a m : id' ≠ id → (add_part id' idx count pl a m).1 !! id = m !! id.
Proof using.
  intros Hne. unfold add_part. destruct (negb _); [done|]. destruct (qa_parts a !! _) as [[|]|]; try done. cbn zeta.
  destruct (negb _); cbn [fst]; [by rewrite lookup_insert_ne|by rewrite lookup_delete_ne].
Qed.
Lemma assemble_other v id' idx count pl m :
  id' ≠ id → (size m < max_assemblies)%nat → (assemble v id' idx count pl m).1 !! id = m !! id.
Proof using.
  clear Hin Hid Hd Hsent sent d. intros Hne Hm. unfold assemble. destruct (m !! id'); [by apply add_part_other|].
  destruct (Nat.leb_spec max_assemblies (size m)); [lia|]. cbn zeta. rewrite add_part_other by done. by rewrite lookup_insert_ne.
Qed.
(** A datagram that is none of the packet's leaves its entry alone. *)
Lemma foreign_kept v m f :
  arrives sent f → f ∉ frames_of id d → (size m < max_assemblies)%nat → (quicToUDP v m f).1 !! id = m !! id.
Proof using Hsent Hin.
  clear Hid Hd. intros [(id' & d' & Hd' & Hid' & Hf)|Hj] Hn Hm.
  - assert (id' ≠ id) as Hne.
    { intros ->. by rewrite (sent_unique sent Hsent id d d' Hin Hd') in Hn. }
    unfold frames_of in Hf. case_bool_decide as Hc; [by apply not_elem_of_nil in Hf|].
    apply list_elem_of_fmap in Hf as (i & -> & Hi). apply elem_of_seq in Hi. rewrite frame_read by lia.
    by apply assemble_other.
  - unfold quicToUDP. destruct f as [|w [|q [|i [|c [|b0 [|b1 [|b2 [|b3 pl]]]]]]]]; try done.
    destruct (Z.eqb_spec w 87) as [->|]; [|done]. destruct (Z.eqb_spec q 81) as [->|]; done.
Qed.
Lemma quic_frame_inj i j :
  (i < fragment_count d)%nat → (j < fragment_count d)%nat →
  quic_frame id (fragment_count d) d i = quic_frame id (fragment_count d) d j → i = j.
Proof using Hd.
  pose proof (small_count d Hd) as Hc. clear Hid. intros Hi Hj E. unfold quic_frame in E. rewrite !Z.mod_small in E by lia.
  injection E as E _. lia.
Qed.

Definition entry (got : list nat) : option quicAssembly := match got with [] => None | _ => Some (partial d got) end.
Lemma entry_table m got : m !! id = entry got → table d id (delete id m) got = m.
Proof using.
  unfold table, entry. destruct got; intros H; [by rewrite delete_id|]. by rewrite insert_delete_eq, insert_id.
Qed.
Lemma mixed_rest rs : ∀ m got,
  Forall (λ r, arrives sent r.2) rs → roomy m rs → m !! id = entry got →
  NoDup got → Forall (λ i, i < fragment_count d)%nat got → (length got < fragment_count d)%nat →
  (∀ i, (i < fragment_count d)%nat → i ∉ got → quic_frame id (fragment_count d) d i ∈ rs.*2) →
  d ∈ (receive_all m rs).2.
Proof using Hsent Hin Hid Hd.
  pose proof (small_count d Hd) as Hc.
  induction rs as [|[v f] rs IH]; intros m got Ha Hr Hm Hn Hf Hl Hall.
  { exfalso. destruct (fresh_index (fragment_count d) got Hl) as (i & Hi & Hig).
    specialize (Hall i Hi Hig). by apply not_elem_of_nil in Hall. }
  apply Forall_cons in Ha as [Hfa Ha]. destruct Hr as [Hroom Hr]. cbn [receive_all snd] in *.
  destruct (quicToUDP v m f) as [m1 out] eqn:Eq. cbn [fst] in Hr. destruct (receive_all m1 rs) as [m2 outs] eqn:Er. cbn [snd].
  apply elem_of_app. destruct (decide (f ∈ frames_of id d)) as [Hff|Hff].
  2:{ right. replace outs with (receive_all m1 rs).2 by (by rewrite Er). apply (IH m1 got Ha Hr); try done.
      - replace m1 with (quicToUDP v m f).1 by (by rewrite Eq). by rewrite foreign_kept.
      - intros i Hi Hig. specialize (Hall i Hi Hig). apply elem_of_cons in Hall as [E|]; [|done].
        destruct Hff. unfold frames_of. rewrite bool_decide_eq_false_2 by lia. cbn [snd] in E. rewrite <- E.
        apply list_elem_of_fmap_2, elem_of_seq. lia. }
  unfold frames_of in Hff. rewrite bool_decide_eq_false_2 in Hff by lia.
  apply list_elem_of_fmap in Hff as (i & -> & Hi). apply elem_of_seq in Hi. rewrite frame_read in Eq by lia.
  assert (∀ j, (j < fragment_count d)%nat → j ≠ i → quic_frame id (fragment_count d) d j ∈
      quic_frame id (fragment_count d) d i :: rs.*2 → quic_frame id (fragment_count d) d j ∈ rs.*2) as Htail.
  { intros j Hj Hne [E%quic_frame_inj|]%elem_of_cons; [|lia|lia|done]. done. }
  destruct (decide (i ∈ got)) as [Hig|Hig].
  - assert (m1 = m ∧ out = []) as [-> ->].
    { destruct got as [|g got]; [by apply not_elem_of_nil in Hig|]. unfold assemble in Eq. rewrite Hm in Eq. cbn [entry] in Eq.
      unfold add_part in Eq. rewrite partial_length, Z.eqb_refl, Nat2Z.id, partial_lookup, decide_True in Eq by (done || lia).
      by injection Eq as <- <-. }
    right. replace outs with (receive_all m rs).2 by (by rewrite Er). apply (IH m got Ha Hr); try done.
    intros j Hj Hjg. apply Htail; [done|congruence|by apply Hall].
  - rewrite <- (entry_table m got Hm) in Eq.
    rewrite (deliver_step d Hd id Hid (delete id m)) in Eq; [|apply lookup_delete_eq| | |].
    + destruct (decide (S (length got) = fragment_count d)); injection Eq as <- <-; [left; left|].
      right. replace outs with (receive_all (table d id (delete id m) (i :: got)) rs).2 by exact (f_equal snd Er).
      apply (IH _ (i :: got) Ha Hr); [cbn [table entry]; by rewrite lookup_insert_eq|by constructor|constructor; [lia|done]|cbn [length]; lia|].
      intros j Hj Hjg. rewrite not_elem_of_cons in Hjg. destruct Hjg. apply Htail; [done|done|by apply Hall].
    + rewrite map_size_delete. destruct (m !! id); cbn [Datatypes.id]; lia.
    + by constructor.
    + constructor; [lia|done].
Qed.
End mixed.

(** ** The sender's numbers *)
Fixpoint numbered (wgPort seq : Z) (pkts : list (Z * bool * list Z)) : list (Z * list Z) :=
  match pkts with
  | [] => []
  | (port, loopback, d) :: pkts =>
      if negb (port =? wgPort) || negb loopback then numbered wgPort seq pkts
      else let id := (seq + 1) mod 2 ^ 32 in (id, d) :: numbered wgPort id pkts
  end.

Lemma numbered_ids wgPort pkts : ∀ seq, 0 ≤ seq →
  (numbered wgPort seq pkts).*1
  = (λ k, (seq + 1 + Z.of_nat k) mod 2 ^ 32) <$> List.seq 0 (length (numbered wgPort seq pkts)).
Proof.
  induction pkts as [|[[port lb] d] pkts IH]; intros seq Hs; [done|]. cbn [numbered].
  destruct (negb _ || negb _); [by apply IH|]. cbn zeta. set (id := (seq + 1) mod 2 ^ 32).
  assert (0 ≤ id) as Hid by (apply Z.mod_pos_bound; lia).
  cbn [length List.seq]. rewrite !fmap_cons. cbn [fst]. f_equal; [unfold id; f_equal; lia|].
  rewrite (IH id Hid), <- seq_shift. change (map S) with (fmap (M := list) S). rewrite <- list_fmap_compose.
  apply list_fmap_ext. intros _ k _. unfold compose, id. rewrite <- Z.add_assoc, Zplus_mod_idemp_l. f_equal. lia.
Qed.
Lemma numbered_length wgPort pkts : ∀ seq, (length (numbered wgPort seq pkts) ≤ length pkts)%nat.
Proof.
  induction pkts as [|[[port lb] d] pkts IH]; intros seq; [done|]. cbn [numbered length].
  destruct (negb _ || negb _); [specialize (IH seq); lia|]. cbn [length]. specialize (IH ((seq + 1) mod 2 ^ 32)). lia.
Qed.
Lemma numbered_nodup wgPort pkts seq :
  0 ≤ seq → Z.of_nat (length pkts) ≤ 2 ^ 32 → NoDup (numbered wgPort seq pkts).*1.
Proof.
  intros Hs Hl. rewrite numbered_ids by done. pose proof (numbered_length wgPort pkts seq) as Hle.
  apply NoDup_fmap_2_strong; [|apply NoDup_seq]. intros j k Hj%elem_of_seq Hk%elem_of_seq E.
  assert ((Z.of_nat j - Z.of_nat k) mod 2 ^ 32 = 0) as E'.
  { replace (Z.of_nat j - Z.of_nat k) with ((seq + 1 + Z.of_nat j) - (seq + 1 + Z.of_nat k)) by lia.
    rewrite Zminus_mod, E, Z.sub_diag. done. }
  apply Z.mod_divide in E'; [|lia]. destruct E' as [q Hq]. nia.
Qed.
Lemma numbered_sent wgPort pkts : ∀ seq f, f ∈ send_all wgPort seq pkts →
  ∃ id d, (id, d) ∈ numbered wgPort seq pkts ∧ 0 ≤ id < 2 ^ 32 ∧ f ∈ frames_of id d.
Proof.
  induction pkts as [|[[port lb] d] pkts IH]; intros seq f Hf; [by apply not_elem_of_nil in Hf|].
  cbn [send_all numbered udpToQUIC] in *. destruct (negb _ || negb _); [by apply IH|].
  apply elem_of_app in Hf as [Hf|Hf].
  - exists ((seq + 1) mod 2 ^ 32), d. split; [left|]. split; [apply Z.mod_pos_bound; lia|done].
  - destruct (IH _ _ Hf) as (id & d' & Hin & Hr). exists id, d'. split; [by right|done].
Qed.
Lemma numbered_from wgPort pkts : ∀ seq id d, (id, d) ∈ numbered wgPort seq pkts → (wgPort, true, d) ∈ pkts.
Proof.
  induction pkts as [|[[port lb] e] pkts IH]; intros seq id d; cbn [numbered]; [by intros ?%not_elem_of_nil|].
  destruct (Z.eqb_spec port wgPort) as [->|]; cbn [negb orb]; [|intros H; right; by eapply IH].
  destruct lb; cbn [negb]; [|intros H; right; by eapply IH]. cbn zeta.
  intros H. apply elem_of_cons in H as [H|H]; [injection H as _ ->; left|right; by eapply IH].
Qed.

(** C19: the QUIC relay path hands WireGuard's packets over unharmed, as long as
    neither proxy is started again (the sender numbers its packets from one) and
    at most 2^32 packets, of 1 to 65535 bytes, are sent.  Whatever the network
    does with the datagrams (loss, repetition, any order, datagrams of other
    kinds), every packet that comes out is one WireGuard put in at the other
    end; when all datagrams of a packet arrive, in any order, repeated or not
    and mixed with any others, while fewer than 64 packets are incomplete, that
    packet comes out; and when they arrive once each with nothing in between,
    exactly that packet comes out and the table is as before. *)
Theorem quic_packets_intact wgPort pkts :
  Z.of_nat (length pkts) ≤ 2 ^ 32 →
  (∀ rs, Forall (λ r, r.2 ∈ send_all wgPort 0 pkts ∨ take 2 r.2 ≠ [87; 81]) rs →
     Forall (λ d, (wgPort, true, d) ∈ pkts) (receive_all ∅ rs).2
     ∧ ∀ id d, (id, d) ∈ numbered wgPort 0 pkts → 0 < Z.of_nat (length d) ≤ 65535 →
         roomy ∅ rs → (∀ f, f ∈ frames_of id d → f ∈ rs.*2) → d ∈ (receive_all ∅ rs).2)
  ∧ (∀ id d m rs, 0 ≤ id < 2 ^ 32 → 0 < Z.of_nat (length d) ≤ 65535 →
     m !! id = None → (size m < max_assemblies)%nat → rs.*2 ≡ₚ frames_of id d →
     receive_all m rs = (m, [d])).
Proof.
  intros Hl. split; [|intros; eapply delivered; eassumption].
  intros rs Hr. pose proof (numbered_nodup wgPort pkts 0 ltac:(lia) Hl) as Hn.
  assert (Forall (λ r, arrives (numbered wgPort 0 pkts) r.2) rs) as Ha.
  { eapply Forall_impl; [exact Hr|]. intros [v f] [Hf|Hf]; [left|by right]. by apply numbered_sent. }
  split.
  - pose proof (receive_all_safe (numbered wgPort 0 pkts) Hn rs ∅) as Hs.
    eapply Forall_impl; [apply Hs; [done|apply map_Forall_empty]|intros d [id Hd]; by eapply numbered_from].
  - intros id d Hin Hd Hroom Hall. pose proof (small_count d Hd) as Hc.
    apply (mixed_rest (numbered wgPort 0 pkts) Hn id d Hin) with []; try done.
    + apply (list_elem_of_fmap_2 fst) in Hin. rewrite numbered_ids in Hin by lia.
      apply list_elem_of_fmap in Hin as (k & E & _). cbn [fst] in E. rewrite E. apply Z.mod_pos_bound. lia.
    + constructor.
    + cbn [length]. lia.
    + intros i Hi _. apply Hall. unfold frames_of. rewrite bool_decide_eq_false_2 by lia.
      apply list_elem_of_fmap_2, elem_of_seq. lia.
Qed.

Definition ex_packet : list Z := replicate 1500 7.
Lemma quic_packets_intact_witness :
  Z.of_nat (length [(51820, true, ex_packet)]) ≤ 2 ^ 32
  ∧ receive_all ∅ (pair 0 <$> rev (frames_of 1 ex_packet)) = (∅, [ex_packet]).
Proof.
  split; [vm_compute; discriminate|].
  apply (proj2 (quic_packets_intact 51820 [(51820, true, ex_packet)] ltac:(vm_compute; discriminate)) 1).
  - done.
  - vm_compute. split; [reflexivity|discriminate].
  - reflexivity.
  - vm_compute. lia.
  - replace (pair 0 <$> rev (frames_of 1 ex_packet)).*2 with (rev (frames_of 1 ex_packet)) by (vm_compute; reflexivity).
    symmetry. apply Permutation_rev.
Defined.

(** Incomplete packets are never given up on account of their age.  A peer whose
    proxy starts again numbers its packets from one: the fragment left over from
    before becomes part of a new packet, which then comes out as neither. *)
Definition old_packet : list Z := replicate 1500 1.
Definition new_packet : list Z := replicate 1500 2.
Lemma quic_stale_fragment_mixed :
  let rs := take 1 (frames_of 1 old_packet) ++ frames_of 1 new_packet in
  (receive_all ∅ (pair 0 <$> rs)).2 = [replicate 1000 1 ++ replicate 500 2].
Proof. vm_compute. reflexivity. Qed.
