(* ===== verification/Capture.v ===== *)
(** * Flow counters from captured packets

    cmd/agent/capture_linux.go: the flow source used when the kernel does not
    count bytes per connection.  Packets are read off the overlay interface
    ([run]), taken apart ([parseFlowTuple]) and counted per flow ([account]);
    [Dump] is what the reporter asks for (collectFlows in Collect).  Also
    [parseSelfAddr] of cmd/agent/telemetry.go and the choice of the source in
    cmd/agent/flows_linux.go.

    A packet is a list of bytes; what the socket delivers is its first
    [captureSnapLen] bytes and its true length. *)
From S2P Require Import Prelude GoText TimeText NetAddr Schema Telemetry Reports Handlers Collect LocalCandidates Secrets.

Definition captureSnapLen : nat := 128.
Definition captureFlowTTL : Z := 5 * Minute.
Definition captureMaxFlows : Z := 8192.
Record flowAccum : Type := mkAccum {
  fa_txBytes : Z; fa_txPackets : Z; fa_rxBytes : Z; fa_rxPackets : Z; fa_lastSeen : Z
}.

(** ** Headers *)
Definition l4Ports (proto : Z) (l4 : list Z) : Z * Z :=
  match l4 with
  | a :: b :: c :: d :: _ =>
      if (proto =? 6) || (proto =? 17) then (be [a; b], be [c; d]) else (0, 0)
  | _ => (0, 0)
  end.
Definition range (lo hi : nat) (pkt : list Z) : list Z := take (hi - lo) (drop lo pkt).
Definition parseFlowTuple (pkt : list Z) : option (Z * Addr * Z * Addr * Z) :=
  match pkt with
  | [] => None
  | b0 :: _ =>
      if Z.shiftr b0 4 =? 4 then
        if (length pkt <? 20)%nat then None
        else
          let ihl := Z.to_nat (Z.land b0 15 * 4) in
          if (ihl <? 20)%nat || (length pkt <? ihl)%nat then None
          else
            let proto := nth 9 pkt 0 in
            let '(sport, dport) := l4Ports proto (drop ihl pkt) in
            Some (proto, V4 (be (range 12 16 pkt)), sport, V4 (be (range 16 20 pkt)), dport)
      else if Z.shiftr b0 4 =? 6 then
        if (length pkt <? 40)%nat then None
        else
          let proto := nth 6 pkt 0 in
          let '(sport, dport) := l4Ports proto (drop 40 pkt) in
          Some (proto, V6 (be (range 8 24 pkt)) "", sport, V6 (be (range 24 40 pkt)) "", dport)
      else None
  end.

(** ** Counting *)
Definition parseSelfAddr (s : string) : option Addr :=
  if decide (s = "") then None
  else match ParseAddr s with
       | Some a => Some (Unmap a)
       | None => (λ p, Unmap (paddr p)) <$> ParsePrefix s
       end.

Section capture.
(** The agent's own addresses when the capture was started. *)
Context (self4 self6 : option Addr).

Definition isSelf (a : Addr) : bool := bool_decide (self4 = Some a) || bool_decide (self6 = Some a).
(** The flow a packet belongs to, and whether it leaves the host. *)
Definition classify (pkt : list Z) : option (flowKey * bool) :=
  '(proto, src, sport, dst, dport) ← parseFlowTuple pkt;
  if isSelf src then Some (mkFlowKey proto src sport dst dport, true)
  else if isSelf dst then Some (mkFlowKey proto dst dport src sport, false)
  else None.
Definition evictLocked (now : Z) (flows : gmap flowKey flowAccum) : gmap flowKey flowAccum :=
  filter (λ kv, ¬ captureFlowTTL < now - fa_lastSeen kv.2) flows.
Definition add_packet (outbound : bool) (len now : Z) (a : flowAccum) : flowAccum :=
  if outbound
  then mkAccum (u64 (fa_txBytes a + len)) (u64 (fa_txPackets a + 1)) (fa_rxBytes a) (fa_rxPackets a) now
  else mkAccum (fa_txBytes a) (fa_txPackets a) (u64 (fa_rxBytes a + len)) (u64 (fa_rxPackets a + 1)) now.
Definition full (flows : gmap flowKey flowAccum) : bool := captureMaxFlows <=? Z.of_nat (size flows).
Definition account (now : Z) (pkt : list Z) (len : Z) (flows : gmap flowKey flowAccum) : gmap flowKey flowAccum :=
  match classify pkt with
  | None => flows
  | Some (key, outbound) =>
      match flows !! key with
      | Some a => <[key := add_packet outbound len now a]> flows
      | None =>
          let flows := if full flows then evictLocked now flows else flows in
          if full flows then flows
          else <[key := add_packet outbound len now (mkAccum 0 0 0 0 0)]> flows
      end
  end.
(** One packet of the interface: at most [captureSnapLen] bytes are looked at. *)
Definition capture_packet (now : Z) (pkt : list Z) (flows : gmap flowKey flowAccum) : gmap flowKey flowAccum :=
  if decide (pkt = []) then flows else account now (take captureSnapLen pkt) (Z.of_nat (length pkt)) flows.
(** The answer, in the order of the map, and the table that remains. *)
Definition Dump (now : Z) (flows : gmap flowKey flowAccum) : list ctFlow * gmap flowKey flowAccum :=
  let flows := evictLocked now flows in
  ((λ kv : flowKey * flowAccum, let '(k, a) := kv in
      mkCtFlow (fk_protocol k) (fk_src k) (fk_dst k) (fk_srcPort k) (fk_dstPort k)
        (fa_txBytes a) (fa_txPackets a) (fa_rxBytes a) (fa_rxPackets a)) <$> map_to_list flows, flows).

(** The socket over time. *)
Inductive capture_event : Type :=
| Packet (now : Z) (pkt : list Z)
| Asked (now : Z).
Definition capture_step (flows : gmap flowKey flowAccum) (e : capture_event) : gmap flowKey flowAccum :=
  match e with
  | Packet now pkt => capture_packet now pkt flows
  | Asked now => (Dump now flows).2
  end.
End capture.

(** ** The source of flow records *)
Definition conntrackAcctPath : string := "/proc/sys/net/netfilter/nf_conntrack_acct".
Definition conntrackAcctEnabled (d : Disk) : bool :=
  match ReadFile conntrackAcctPath d with Content s => bool_decide (TrimSpace s = "1") | _ => false end.
Definition conntrackAcctReady (d : Disk) : bool * Disk :=
  if conntrackAcctEnabled d then (true, d) else WriteFile conntrackAcctPath (line "1") d.
Inductive flow_source : Type := Conntrack | Capture (self4 self6 : option Addr).
(** [dial], [socket]: whether the kernel's interfaces can be opened. *)
Definition newFlowDumper (dial socket : bool) (self4 self6 : option Addr) (d : Disk) : option flow_source * Disk :=
  let '(ready, d) := conntrackAcctReady d in
  if ready && dial then (Some Conntrack, d)
  else (if socket then Some (Capture (Unmap <$> self4) (Unmap <$> self6)) else None, d).

Definition ex_udp (src dst : list Z) (sport dport : Z) (len : nat) : list Z :=
  let b (n : Z) := [n / 256; n mod 256] in
  [69; 0; 0; 0; 0; 0; 0; 0; 64; 17; 0; 0] ++ src ++ dst ++ b sport ++ b dport ++ replicate len 0.
Example capture_example :
  parseFlowTuple (ex_udp [100; 64; 0; 1] [100; 64; 0; 2] 40000 53 10)
  = Some (17, V4 (be [100; 64; 0; 1]), 40000, V4 (be [100; 64; 0; 2]), 53).
Proof. vm_compute. reflexivity. Qed.

(** ** What the counters say *)
Section facts.
Context (self4 self6 : option Addr).
Abbreviation flow_of e := (classify self4 self6 (take captureSnapLen e.2)).

Implicit Types evs : list (Z * list Z).
(** Each flow's share of a sequence of packets, given with their times. *)
Definition sizes (k : flowKey) (outbound : bool) (evs : list (Z * list Z)) : list Z :=
  (λ e, Z.of_nat (length e.2)) <$> filter (λ e, flow_of e = Some (k, outbound)) evs.
Definition flow_packets (k : flowKey) (evs : list (Z * list Z)) : list (Z * list Z) :=
  filter (λ e, fst <$> flow_of e = Some k) evs.
Definition sum (l : list Z) : Z := foldr Z.add 0 l.
Definition accumulated (k : flowKey) (evs : list (Z * list Z)) : option flowAccum :=
  e ← last (flow_packets k evs);
  Some (mkAccum (u64 (sum (sizes k true evs))) (u64 (Z.of_nat (length (sizes k true evs))))
          (u64 (sum (sizes k false evs))) (u64 (Z.of_nat (length (sizes k false evs)))) e.1).
Definition flow_keys (evs : list (Z * list Z)) : gset flowKey := list_to_set (omap (λ e, fst <$> flow_of e) evs).
(** The table after packets and questions. *)
Definition captured (l : list capture_event) : gmap flowKey flowAccum := foldl (capture_step self4 self6) ∅ l.
Definition packets (l : list capture_event) : list (Z * list Z) :=
  omap (λ e, match e with Packet now pkt => Some (now, pkt) | Asked _ => None end) l.
(** The packets that count for a flow: all of them, or those since the reporter
    last asked and found the flow idle for more than five minutes. *)
Definition given_up (k : flowKey) (now : Z) (evs : list (Z * list Z)) : bool :=
  match accumulated k evs with Some a => captureFlowTTL <? now - fa_lastSeen a | None => false end.
Definition since_step (k : flowKey) (evs : list (Z * list Z)) (e : capture_event) : list (Z * list Z) :=
  match e with
  | Packet now pkt => evs ++ [(now, pkt)]
  | Asked now => if given_up k now evs then [] else evs
  end.
Definition since (k : flowKey) (l : list capture_event) : list (Z * list Z) := foldl (since_step k) [] l.

Lemma sum_app l l' : sum (l ++ l') = sum l + sum l'.
Proof using. induction l as [|x l IH]; [done|]. cbn [app sum foldr]. unfold sum in *. lia. Qed.
Lemma u64_step a b : u64 (u64 a + b) = u64 (a + b).
Proof using. unfold u64. apply Zplus_mod_idemp_l. Qed.

Lemma sizes_snoc k o evs e :
  sizes k o (evs ++ [e])
  = sizes k o evs ++ (if decide (flow_of e = Some (k, o)) then [Z.of_nat (length e.2)] else []).
Proof using.
  unfold sizes. rewrite filter_app, fmap_app. f_equal. rewrite filter_cons, filter_nil. by case_decide.
Qed.
Lemma packets_snoc k evs e :
  flow_packets k (evs ++ [e]) = flow_packets k evs ++ (if decide (fst <$> flow_of e = Some k) then [e] else []).
Proof using. unfold flow_packets. by rewrite filter_app. Qed.
Lemma no_packets_no_sizes k o evs : flow_packets k evs = [] → sizes k o evs = [].
Proof using.
  intros H. unfold sizes. replace (filter _ evs) with ([] : list (Z * list Z)); [done|].
  symmetry. apply elem_of_nil_inv. intros e [He Hin]%list_elem_of_filter.
  apply (not_elem_of_nil e). rewrite <- H. apply list_elem_of_filter. by rewrite He.
Qed.
(** The counters before the packet, as far as they are known. *)
Lemma accumulated_default k evs :
  default (mkAccum 0 0 0 0 0) (accumulated k evs)
  = mkAccum (u64 (sum (sizes k true evs))) (u64 (Z.of_nat (length (sizes k true evs))))
      (u64 (sum (sizes k false evs))) (u64 (Z.of_nat (length (sizes k false evs))))
      (from_option fst 0 (last (flow_packets k evs))).
Proof using.
  unfold accumulated. destruct (last (flow_packets k evs)) as [e|] eqn:E; [done|].
  apply last_None in E. by rewrite !no_packets_no_sizes.
Qed.
(** A packet changes its own flow only. *)
Lemma accumulated_snoc k evs e :
  accumulated k (evs ++ [e])
  = match flow_of e with
    | Some (k', outbound) =>
        if decide (k' = k)
        then Some (add_packet outbound (Z.of_nat (length e.2)) e.1 (default (mkAccum 0 0 0 0 0) (accumulated k evs)))
        else accumulated k evs
    | None => accumulated k evs
    end.
Proof using.
  rewrite accumulated_default. unfold accumulated. rewrite packets_snoc, !sizes_snoc.
  destruct (flow_of e) as [[k' o]|]; cbn [fmap option_fmap option_map fst].
  2:{ by rewrite !decide_False, !app_nil_r by done. }
  destruct (decide (k' = k)) as [->|Hne].
  2:{ by rewrite !decide_False, !app_nil_r by congruence. }
  rewrite (decide_True (P := Some k = Some k)), last_snoc by done. cbn [mbind option_bind].
  destruct o; [rewrite decide_True, decide_False by done|rewrite decide_False, decide_True by done];
    rewrite app_nil_r, sum_app, length_app; unfold add_packet; cbn [fa_txBytes fa_txPackets fa_rxBytes fa_rxPackets sum foldr length];
    by rewrite !u64_step, Nat2Z.inj_add, Z.add_0_r.
Qed.

(** The table grows by the flow of the packet. *)
Lemma captured_snoc l e : captured (l ++ [e]) = capture_step self4 self6 (captured l) e.
Proof using. unfold captured. by rewrite foldl_app. Qed.
Lemma since_snoc k l e : since k (l ++ [e]) = since_step k (since k l) e.
Proof using. unfold since. by rewrite foldl_app. Qed.
Lemma packets_app l l' : packets (l ++ l') = packets l ++ packets l'.
Proof using. apply omap_app. Qed.
Lemma flow_of_nil (e : Z * list Z) : e.2 = [] → flow_of e = None.
Proof using. by intros ->. Qed.
Lemma keys_snoc evs e : flow_keys (evs ++ [e]) = flow_keys evs ∪ list_to_set (option_list (fst <$> flow_of e)).
Proof using.
  unfold flow_keys. by rewrite omap_app, list_to_set_app_L.
Qed.

(** The table says of every flow what [R] says. *)
Definition tells (flows : gmap flowKey flowAccum) (R : flowKey → list (Z * list Z)) : Prop :=
  ∀ k, flows !! k = accumulated k (R k).
Lemma tells_packet flows R now pkt :
  (∀ key o, flow_of (now, pkt) = Some (key, o) → flows !! key = None → full flows = false) →
  tells flows R → tells (capture_packet self4 self6 now pkt flows) (λ k, R k ++ [(now, pkt)]).
Proof using.
  intros Hroom Hk. unfold capture_packet.
  assert (flow_of (now, pkt) = None → tells flows (λ k, R k ++ [(now, pkt)])) as Hnone.
  { intros E k. by rewrite accumulated_snoc, E. }
  case_decide as Hnil; [by apply Hnone, flow_of_nil|]. unfold account.
  cbn [snd] in *. destruct (classify self4 self6 _) as [[key o]|] eqn:E; [|by apply Hnone].
  specialize (Hroom key o eq_refl).
  assert (∀ a0, default (mkAccum 0 0 0 0 0) (flows !! key) = a0 →
    tells (<[key := add_packet o (Z.of_nat (length pkt)) now a0]> flows) (λ k, R k ++ [(now, pkt)])) as Hins.
  { intros a0 Ha0 k. rewrite accumulated_snoc. cbn [snd fst]. rewrite E.
    destruct (decide (key = k)) as [<-|Hne]; [by rewrite lookup_insert_eq, <- (Hk key), Ha0|by rewrite lookup_insert_ne]. }
  destruct (flows !! key) as [a|] eqn:Ea; [by apply Hins|].
  rewrite (Hroom eq_refl). cbn iota. rewrite (Hroom eq_refl). by apply Hins.
Qed.
Lemma tells_asked flows R now :
  tells flows R → tells (evictLocked now flows) (λ k, if given_up k now (R k) then [] else R k).
Proof using.
  intros Hk k. unfold evictLocked, given_up. rewrite <- (Hk k). destruct (flows !! k) as [a|] eqn:E.
  - destruct (Z.ltb_spec captureFlowTTL (now - fa_lastSeen a)).
    + apply map_lookup_filter_None_2. right. intros x Hx. cbn. simplify_eq. lia.
    + rewrite <- Hk. rewrite E. apply map_lookup_filter_Some_2; [done|]. cbn. lia.
  - rewrite <- Hk, E. apply map_lookup_filter_None_2. by left.
Qed.
(** As long as the table has room, it has every flow that was not given up, with
    the counters of all its packets. *)
Lemma captured_exact l : Z.of_nat (size (flow_keys (packets l))) ≤ captureMaxFlows →
  dom (captured l) ⊆ flow_keys (packets l) ∧ tells (captured l) (λ k, since k l).
Proof using.
  induction l as [|e l IH] using rev_ind; intros Hroom; [by split; [set_solver|intros k]|].
  rewrite packets_app in Hroom |- *.
  assert (flow_keys (packets l) ⊆ flow_keys (packets l ++ packets [e])) as Hsub.
  { unfold flow_keys. rewrite omap_app, list_to_set_app_L. set_solver. }
  destruct IH as [Hd Hk]; [pose proof (subseteq_size _ _ Hsub); lia|].
  rewrite captured_snoc. destruct e as [now pkt|now]; cbn [capture_step].
  - assert (∀ key o, flow_of (now, pkt) = Some (key, o) → captured l !! key = None → full (captured l) = false) as Hfull.
    { intros key o E Hnew. unfold full. apply Z.leb_gt. change (packets [Packet now pkt]) with [(now, pkt)] in Hroom.
      rewrite keys_snoc, E in Hroom. cbn in Hroom. rewrite union_empty_r_L in Hroom.
      assert (size (dom (captured l)) < size (flow_keys (packets l) ∪ {[key]}))%nat as Hlt.
      { apply subset_size. split; [set_solver|]. intros Hs. apply not_elem_of_dom in Hnew. apply Hnew, Hs. set_solver. }
      rewrite size_dom in Hlt. lia. }
    split.
    + change (packets [Packet now pkt]) with [(now, pkt)]. rewrite keys_snoc. unfold capture_packet.
      case_decide; [set_solver|]. unfold account. cbn [snd]. destruct (classify _ _ _) as [[key o]|] eqn:E; [|set_solver].
      cbn. rewrite union_empty_r_L. destruct (captured l !! key) eqn:Ek; [rewrite dom_insert_L; set_solver|].
      rewrite (Hfull key o eq_refl Ek). cbn iota. rewrite (Hfull key o eq_refl Ek), dom_insert_L. set_solver.
    + intros k. rewrite since_snoc. cbn [since_step]. exact (tells_packet _ (λ k, since k l) now pkt Hfull Hk k).
  - split.
    + cbn [Dump snd]. etrans; [apply dom_filter_subseteq|]. etrans; [exact Hd|exact Hsub].
    + intros k. rewrite since_snoc. cbn [since_step Dump snd]. exact (tells_asked _ (λ k, since k l) now Hk k).
Qed.

(** The table never outgrows its limit. *)
Lemma capture_bounded (l : list capture_event) : ∀ flows, Z.of_nat (size flows) ≤ captureMaxFlows →
  Z.of_nat (size (foldl (capture_step self4 self6) flows l)) ≤ captureMaxFlows.
Proof using.
  assert (∀ now flows, (size (evictLocked now flows) ≤ size flows)%nat) as Hev.
  { intros now flows. rewrite <- !(size_dom (D := gset flowKey)). apply subseteq_size, dom_filter_subseteq. }
  induction l as [|e l IH]; intros flows Hf; [done|]. apply IH. destruct e as [now pkt|now]; cbn [capture_step].
  - unfold capture_packet. case_decide; [done|]. unfold account.
    destruct (classify _ _ _) as [[key o]|]; [|done].
    destruct (flows !! key) eqn:Ek; [by rewrite map_size_insert_Some|].
    set (fl := if full flows then _ else _).
    assert (Z.of_nat (size fl) ≤ captureMaxFlows) as Hfl by (unfold fl; case_match; [specialize (Hev now flows); lia|done]).
    destruct (full fl) eqn:Efull; [done|]. unfold full in Efull. apply Z.leb_gt in Efull.
    rewrite map_size_insert. destruct (fl !! key); unfold id; lia.
  - cbn [Dump snd]. specialize (Hev now flows). lia.
Qed.

(** C26: the captured counters are exact.  Over any sequence of packets and of
    questions by the reporter, as long as the packets seen belong to at most 8192
    flows, the answer to a question is exactly the flows that were not idle for
    more than five minutes, each with the number and total size (true sizes,
    modulo 2^64) of its packets in each direction since the capture started or,
    if an earlier question found the flow idle for more than five minutes, since
    that question, which gave its counts up.  The packets of both directions of a
    conversation count for the same flow, and the table never has more than 8192
    entries, however many flows there are. *)
Theorem capture_exact l now :
  Z.of_nat (size (flow_keys (packets l))) ≤ captureMaxFlows →
  (∀ f, f ∈ (Dump now (captured l)).1 ↔
     ∃ k a, accumulated k (since k l) = Some a ∧ now - fa_lastSeen a ≤ captureFlowTTL ∧ flow_key f = k
       ∧ (ct_txBytes f, ct_txPackets f, ct_rxBytes f, ct_rxPackets f)
         = (fa_txBytes a, fa_txPackets a, fa_rxBytes a, fa_rxPackets a))
  ∧ (∀ pkt pkt' proto src sport dst dport key,
       parseFlowTuple pkt = Some (proto, src, sport, dst, dport) →
       parseFlowTuple pkt' = Some (proto, dst, dport, src, sport) → isSelf self4 self6 dst = false →
       classify self4 self6 pkt = Some (key, true) → classify self4 self6 pkt' = Some (key, false))
  ∧ (∀ l, Z.of_nat (size (captured l)) ≤ captureMaxFlows).
Proof using.
  intros Hroom. destruct (captured_exact l Hroom) as [_ Hk]. split; [|split].
  - intros f. cbn [Dump fst]. rewrite list_elem_of_fmap. split.
    + intros ([k a] & -> & Hin). apply elem_of_map_to_list, map_lookup_filter_Some in Hin as [Hl Hlive]. cbn [snd] in Hlive.
      exists k, a. rewrite <- (Hk k). split; [done|]. split; [lia|]. by destruct k.
    + intros (k & a & Ha & Hlive & Hf & Hc). exists (k, a). split.
      * subst k. destruct f. cbn in *. congruence.
      * apply elem_of_map_to_list, map_lookup_filter_Some. rewrite (Hk k). split; [done|]. cbn [snd]. lia.
  - unfold classify. intros pkt pkt' proto src sport dst dport key -> -> Hd. cbn [mbind option_bind]. rewrite Hd.
    destruct (isSelf self4 self6 src); [|done]. by intros [= <-].
  - intros l'. apply capture_bounded. rewrite map_size_empty. unfold captureMaxFlows. lia.
Qed.
End facts.

Definition ex_self : option Addr := Some (V4 (be [100; 64; 0; 1])).
(** A packet, a question after six minutes that gives the flow up, two packets. *)
Definition ex_packets : list capture_event :=
  [Packet (1 * Second) (ex_udp [100; 64; 0; 1] [100; 64; 0; 2] 40000 53 100); Asked (6 * Minute);
   Packet (7 * Minute) (ex_udp [100; 64; 0; 1] [100; 64; 0; 2] 40000 53 30);
   Packet (8 * Minute) (ex_udp [100; 64; 0; 2] [100; 64; 0; 1] 53 40000 400)].
Lemma capture_exact_witness :
  Z.of_nat (size (flow_keys ex_self None (packets ex_packets))) ≤ captureMaxFlows
  ∧ mkCtFlow 17 (V4 (be [100; 64; 0; 1])) (V4 (be [100; 64; 0; 2])) 40000 53 54 1 424 1
    ∈ (Dump (9 * Minute) (captured ex_self None ex_packets)).1.
Proof.
  split; [vm_compute; discriminate|].
  apply (proj1 (capture_exact ex_self None ex_packets (9 * Minute) ltac:(vm_compute; discriminate))).
  exists (mkFlowKey 17 (V4 (be [100; 64; 0; 1])) 40000 (V4 (be [100; 64; 0; 2])) 53), (mkAccum 54 1 424 1 (8 * Minute)).
  repeat split; vm_compute; try reflexivity; discriminate.
Defined.

(** The capture keeps the addresses it was started with: after a migration to
    another network none of the agent's packets is counted. *)
Lemma capture_blind_after_migration flows :
  capture_packet ex_self None (1 * Second) (ex_udp [10; 20; 0; 1] [10; 20; 0; 2] 40000 53 30) flows = flows.
Proof. reflexivity. Qed.
