(* ===== verification/ProxyTail.v ===== *)
(** * Following the reverse proxy's access log

    cmd/agent/proxytail.go: the file is looked at every two seconds ([run],
    [readNew]), complete lines are parsed ([ingest]) into a bounded queue, and
    the reporter takes events off it with each report ([drain]).

    A file is its bytes.  One look sees the size of the file first and its
    contents afterwards, which may have changed in between. *)
From S2P Require Import Prelude GoText NetAddr Codec Json Schema Telemetry.

Definition proxyTailMaxQueue : nat := 2000.
Definition proxyDrainPerTick : nat := 256.
Definition proxyLineMax : nat := 64 * 1024.

(** ** One line *)
Record traefikAccessLine : Type := mkAccessLine {
  tl_StartUTC : string; tl_RequestMethod : string; tl_RequestHost : string; tl_RequestPath : string;
  tl_DownstreamStatus : Z; tl_Duration : Z; tl_DownstreamContentSize : Z; tl_RequestContentSize : Z;
  tl_ClientHost : string; tl_ServiceName : string
}.
(** [json.Unmarshal] into a field: null leaves it alone. *)
Definition string_field (v : J) (old : string) : option string :=
  match v with JNull => Some old | JStr s => Some (string_of_bytes s) | _ => None end.
Definition int_field (v : J) (old : Z) : option Z :=
  match v with JNull => Some old | JNum raw => ParseInt (string_of_bytes raw) | _ => None end.
Fixpoint access_fields (ms : list (list Z * J)) (a : traefikAccessLine) : option traefikAccessLine :=
  match ms with
  | [] => Some a
  | (k, v) :: ms =>
      let '(mkAccessLine st me ho pa ds du dc rc ch sn) := a in
      a ← (if key_is "startutc" k then x ← string_field v st; Some (mkAccessLine x me ho pa ds du dc rc ch sn)
           else if key_is "requestmethod" k then x ← string_field v me; Some (mkAccessLine st x ho pa ds du dc rc ch sn)
           else if key_is "requesthost" k then x ← string_field v ho; Some (mkAccessLine st me x pa ds du dc rc ch sn)
           else if key_is "requestpath" k then x ← string_field v pa; Some (mkAccessLine st me ho x ds du dc rc ch sn)
           else if key_is "downstreamstatus" k then x ← int_field v ds; Some (mkAccessLine st me ho pa x du dc rc ch sn)
           else if key_is "duration" k then x ← int_field v du; Some (mkAccessLine st me ho pa ds x dc rc ch sn)
           else if key_is "downstreamcontentsize" k then x ← int_field v dc; Some (mkAccessLine st me ho pa ds du x rc ch sn)
           else if key_is "requestcontentsize" k then x ← int_field v rc; Some (mkAccessLine st me ho pa ds du dc x ch sn)
           else if key_is "clienthost" k then x ← string_field v ch; Some (mkAccessLine st me ho pa ds du dc rc x sn)
           else if key_is "servicename" k then x ← string_field v sn; Some (mkAccessLine st me ho pa ds du dc rc ch x)
           else Some a);
      access_fields ms a
  end.
Definition unmarshal_access (l : list Z) : option traefikAccessLine :=
  let zero := mkAccessLine "" "" "" "" 0 0 0 0 "" "" in
  v ← parse_json (string_of_bytes l);
  match v with JObj ms => access_fields ms zero | JNull => Some zero | _ => None end.

(** The event of a line, if it is an access-log entry. *)
Definition parse_line (l : list Z) : option ProxyEvent :=
  if (proxyLineMax <? length l)%nat then None
  else
    a ← unmarshal_access l;
    if bool_decide (tl_RequestMethod a = "") && bool_decide (tl_RequestHost a = "") then None
    else Some (mkProxyEvent (tl_StartUTC a) (tl_RequestMethod a) (tl_RequestHost a) (tl_RequestPath a)
                 (tl_DownstreamStatus a) (Z.quot (tl_Duration a) 1000000) (tl_RequestContentSize a)
                 (tl_DownstreamContentSize a) (tl_ClientHost a) (tl_ServiceName a)).
(** A full queue loses its oldest events. *)
Definition enqueue (q : list ProxyEvent) (ev : ProxyEvent) : list ProxyEvent :=
  (if (proxyTailMaxQueue <=? length q)%nat then drop (length q - proxyTailMaxQueue + 1) q else q) ++ [ev].
Definition ingest (q : list ProxyEvent) (l : list Z) : list ProxyEvent :=
  match parse_line l with Some ev => enqueue q ev | None => q end.
Definition drain (max : nat) (q : list ProxyEvent) : list ProxyEvent * list ProxyEvent :=
  (take max q, drop max q).

(** ** The file *)
Fixpoint split_nl (l : list Z) : list (list Z) :=
  match l with
  | [] => [[]]
  | b :: l => if b =? 10 then [] :: split_nl l
              else match split_nl l with w :: ws => (b :: w) :: ws | [] => [[b]] end
  end.
(** [bytes.LastIndexByte] for the line break. *)
Fixpoint last_nl (l : list Z) : option nat :=
  match l with
  | [] => None
  | b :: l => match last_nl l with Some i => Some (S i) | None => if b =? 10 then Some 0%nat else None end
  end.
(** [file]: the contents when the file is opened, [None] when it cannot be. *)
Definition readNew (offset size : nat) (file : option (list Z)) (q : list ProxyEvent) : nat * list ProxyEvent :=
  match file with
  | None => (offset, q)
  | Some content =>
      let data := take (size - offset) (drop offset content) in
      match last_nl data with
      | None => (offset, q)
      | Some i =>
          (offset + i + 1, foldl ingest q (filter (λ l, l ≠ []) (split_nl (take i data))))%nat
      end
  end.
(** One turn of the loop; the offset is [None] before the end is known. *)
Definition tail_poll (stat : option nat) (file : option (list Z)) (s : option nat * list ProxyEvent)
  : option nat * list ProxyEvent :=
  let '(offset, q) := s in
  match stat, offset with
  | None, _ => (None, q)
  | Some size, None => (Some size, q)
  | Some size, Some offset =>
      let offset := if (size <? offset)%nat then 0%nat else offset in
      if (size =? offset)%nat then (Some offset, q)
      else let '(offset, q) := readNew offset size file q in (Some offset, q)
  end.

(** ** Complete lines

    The complete lines of a text that continues [w], and what remains. *)
Fixpoint lines_of (w l : list Z) : list (list Z) * list Z :=
  match l with
  | [] => ([], w)
  | b :: l => if b =? 10 then let '(ls, r) := lines_of [] l in (w :: ls, r) else lines_of (w ++ [b]) l
  end.
Lemma lines_of_app w a b :
  lines_of w (a ++ b) = let '(la, r) := lines_of w a in let '(lb, r') := lines_of r b in (la ++ lb, r').
Proof.
  revert w. induction a as [|x a IH]; intros w; cbn [app lines_of]; [by destruct (lines_of w b)|].
  case_match; rewrite IH; [|done]. destruct (lines_of [] a) as [la r]. by destruct (lines_of r b).
Qed.
Lemma lines_of_plain w l : Forall (λ b, b ≠ 10) l → lines_of w l = ([], w ++ l).
Proof.
  intros H. revert w. induction H as [|b l Hb _ IH]; intros w; cbn [lines_of]; [by rewrite app_nil_r|].
  apply Z.eqb_neq in Hb. by rewrite Hb, IH, <- app_assoc.
Qed.
Lemma lines_of_rest w l : Forall (λ b, b ≠ 10) w →
  let '(ls, r) := lines_of w l in Forall (λ b, b ≠ 10) r ∧ ∃ p, w ++ l = p ++ r.
Proof.
  revert w. induction l as [|b l IH]; intros w Hw; cbn [lines_of]; [split; [done|by exists []; rewrite app_nil_r]|].
  destruct (Z.eqb_spec b 10) as [->|Hb].
  - specialize (IH [] (Forall_nil_2 _)). destruct (lines_of [] l) as [ls r]. destruct IH as [Hr [p Hp]].
    split; [done|]. exists (w ++ 10 :: p). simpl in Hp. by rewrite Hp, <- app_assoc.
  - specialize (IH (w ++ [b])). destruct (lines_of (w ++ [b]) l) as [ls r].
    destruct IH as [Hr [p Hp]]; [apply Forall_app; by repeat constructor|].
    split; [done|]. exists p. by rewrite <- Hp, <- app_assoc.
Qed.
Lemma lines_of_split w a :
  lines_of w (a ++ [10]) = (match split_nl a with x :: xs => (w ++ x) :: xs | [] => [] end, []).
Proof.
  revert w. induction a as [|b a IH]; intros w; cbn [app lines_of split_nl]; [by rewrite app_nil_r|].
  destruct (Z.eqb_spec b 10); rewrite IH.
  - rewrite app_nil_r. by destruct (split_nl a).
  - destruct (split_nl a) as [|x xs] eqn:E; [|by rewrite <- app_assoc].
    destruct a as [|c a]; simpl in E; [done|]. case_match; [done|]. by destruct (split_nl a).
Qed.
Lemma last_nl_spec l :
  match last_nl l with
  | Some i => ∃ a r, l = a ++ 10 :: r ∧ length a = i ∧ Forall (λ b, b ≠ 10) r
  | None => Forall (λ b, b ≠ 10) l
  end.
Proof.
  induction l as [|b l IH]; cbn [last_nl]; [done|]. destruct (last_nl l) as [i|].
  - destruct IH as (a & r & -> & <- & Hr). by exists (b :: a), r.
  - destruct (Z.eqb_spec b 10) as [->|]; [by exists [], l|by constructor].
Qed.

(** A read takes exactly the complete lines. *)
Lemma readNew_lines offset size content q :
  let '(ls, r) := lines_of [] (take (size - offset) (drop offset content)) in
  let '(offset', q') := readNew offset size (Some content) q in
  q' = foldl ingest q (filter (λ l, l ≠ []) ls)
  ∧ (offset' + length r = offset + length (take (size - offset) (drop offset content)))%nat.
Proof.
  unfold readNew. set (data := take _ _). pose proof (last_nl_spec data) as Hl. destruct (last_nl data) as [i|].
  - destruct Hl as (a & r & -> & <- & Hr). replace (a ++ 10 :: r) with ((a ++ [10]) ++ r) by by rewrite <- app_assoc.
    rewrite lines_of_app, lines_of_split, lines_of_plain by done. rewrite take_app_le, take_app_length by (rewrite length_app; simpl; lia).
    split; [|rewrite !length_app; simpl; lia]. f_equal. f_equal. rewrite app_nil_r. by destruct (split_nl a).
  - by rewrite lines_of_plain.
Qed.

(** ** The queue *)
Definition queue_ok (parsed shipped q : list ProxyEvent) : Prop :=
  shipped ++ q `sublist_of` parsed ∧ (length q ≤ proxyTailMaxQueue)%nat
  ∧ ((length parsed ≤ proxyTailMaxQueue)%nat → shipped ++ q = parsed).
Lemma queue_ingest parsed shipped q l :
  queue_ok parsed shipped q → queue_ok (parsed ++ option_list (parse_line l)) shipped (ingest q l).
Proof.
  intros (Hs & Hq & He). unfold ingest. destruct (parse_line l) as [ev|]; cbn [option_list]; [|by rewrite app_nil_r].
  unfold enqueue. destruct (Nat.leb_spec proxyTailMaxQueue (length q)) as [Hf|Hf].
  - assert (length q = proxyTailMaxQueue) as E by lia. rewrite E.
    replace (proxyTailMaxQueue - proxyTailMaxQueue + 1)%nat with 1%nat by lia. split; [|split].
    + rewrite app_assoc. apply sublist_app; [|done]. etransitivity; [|exact Hs].
      apply sublist_app; [done|]. apply sublist_drop.
    + rewrite length_app, length_drop, E. unfold proxyTailMaxQueue. simpl. lia.
    + rewrite length_app. intros Hl. apply sublist_length in Hs. rewrite length_app in Hs. simpl in Hl. lia.
  - split; [|split].
    + rewrite app_assoc. by apply sublist_app.
    + rewrite length_app. simpl. lia.
    + rewrite length_app. intros Hl. simpl in Hl. rewrite app_assoc, He by lia. done.
Qed.
Lemma queue_ingests ls : ∀ parsed shipped q, queue_ok parsed shipped q →
  queue_ok (parsed ++ omap parse_line ls) shipped (foldl ingest q ls).
Proof.
  induction ls as [|l ls IH]; intros parsed shipped q Hq; [by rewrite app_nil_r|].
  cbn [foldl]. apply (queue_ingest _ _ _ l) in Hq. apply IH in Hq.
  replace (parsed ++ omap parse_line (l :: ls)) with ((parsed ++ option_list (parse_line l)) ++ omap parse_line ls); [done|].
  rewrite <- app_assoc. f_equal. simpl. by destruct (parse_line l).
Qed.
Lemma queue_drain n parsed shipped q :
  queue_ok parsed shipped q → queue_ok parsed (shipped ++ (drain n q).1) (drain n q).2.
Proof.
  intros (Hs & Hq & He). cbn [drain fst snd]. unfold queue_ok. rewrite <- app_assoc, take_drop.
  split; [done|]. split; [rewrite length_drop; lia|done].
Qed.

(** ** A log that only grows *)

(** A look at the file, which has [size] bytes when its size is taken and
    [content] when it is read; or a report, which takes events away. *)
Inductive tail_event : Type :=
| Look (size : nat) (content : list Z)
| Report.
Definition tail_step (s : option nat * list ProxyEvent * list ProxyEvent) (e : tail_event)
  : option nat * list ProxyEvent * list ProxyEvent :=
  let '(offset, q, shipped) := s in
  match e with
  | Look size content => let '(offset, q) := tail_poll (Some size) (Some content) (offset, q) in (offset, q, shipped)
  | Report => let '(out, q) := drain proxyDrainPerTick q in (offset, q, shipped ++ out)
  end.
(** What each look sees continues what the one before saw; [v] is what was seen
    last. *)
Fixpoint growing (v : list Z) (evs : list tail_event) : Prop :=
  match evs with
  | [] => True
  | Look size content :: evs =>
      (size ≤ length content)%nat ∧ v `prefix_of` take size content ∧ growing (take size content) evs
  | Report :: evs => growing v evs
  end.
Fixpoint seen (v : list Z) (evs : list tail_event) : list Z :=
  match evs with
  | [] => v
  | Look size content :: evs => seen (take size content) evs
  | Report :: evs => seen v evs
  end.
(** The events of the complete lines written after the text [c0]. *)
Definition logged (c0 v : list Z) : list ProxyEvent :=
  omap parse_line (filter (λ l, l ≠ []) (lines_of [] (drop (length c0) v)).1).

(** The tailer has dealt with the complete lines of what it has seen. *)
Definition tail_at (c0 v : list Z) (s : option nat * list ProxyEvent * list ProxyEvent) : Prop :=
  let '(offset, q, shipped) := s in
  c0 `prefix_of` v
  ∧ (∃ o, offset = Some o ∧ o + length (lines_of [] (drop (length c0) v)).2 = length v)%nat
  ∧ queue_ok (logged c0 v) shipped q.

Lemma unread_rest c0 v o : c0 `prefix_of` v →
  (o + length (lines_of [] (drop (length c0) v)).2 = length v)%nat →
  drop o v = (lines_of [] (drop (length c0) v)).2.
Proof.
  intros [n ->] Ho. rewrite drop_app_length in *. pose proof (lines_of_rest [] n (Forall_nil_2 _)) as Hr.
  destruct (lines_of [] n) as [ls r]. destruct Hr as [_ [p Hp]]. simpl in Hp, Ho. subst n. cbn [snd] in *.
  rewrite app_assoc. replace o with (length (c0 ++ p)) by (rewrite !length_app in *; lia). by rewrite drop_app_length.
Qed.
Lemma lines_continue c0 v x : c0 `prefix_of` v →
  let '(ls, r) := lines_of [] (drop (length c0) v) in
  lines_of [] (drop (length c0) (v ++ x)) = ((ls ++ (lines_of [] (r ++ x)).1), (lines_of [] (r ++ x)).2).
Proof.
  intros [n ->]. rewrite <- app_assoc, !drop_app_length, lines_of_app.
  pose proof (lines_of_rest [] n (Forall_nil_2 _)) as Hr. destruct (lines_of [] n) as [ls r]. destruct Hr as [Hr _].
  rewrite (lines_of_app [] r x), (lines_of_plain [] r Hr). simpl app. by destruct (lines_of r x).
Qed.
Lemma tail_look c0 v size content s :
  (size ≤ length content)%nat → v `prefix_of` take size content → tail_at c0 v s →
  tail_at c0 (take size content) (tail_step s (Look size content)).
Proof.
  destruct s as [[offset q] shipped]. intros Hsize [x Hx] (Hc & (o & -> & Ho) & Hq).
  assert (length (v ++ x) = size) as Hlen by (rewrite <- Hx, length_take; lia). rewrite Hx.
  pose proof (unread_rest c0 v o Hc Ho) as Hu. pose proof (lines_continue c0 v x Hc) as Hl.
  destruct (lines_of [] (drop (length c0) v)) as [ls r] eqn:Els. cbn [snd] in *.
  assert (c0 `prefix_of` v ++ x) as Hc' by (destruct Hc as [n ->]; exists (n ++ x); by rewrite app_assoc).
  assert (take (size - o) (drop o content) = r ++ x) as Hdata.
  { rewrite take_drop_commute. replace (o + (size - o))%nat with size by (rewrite length_app in Hlen; lia).
    rewrite Hx, drop_app_le by lia. by rewrite Hu. }
  unfold tail_step, tail_poll. rewrite length_app in Hlen.
  destruct (Nat.ltb_spec size o); [lia|]. destruct (Nat.eqb_spec size o) as [->|Hne].
  - assert (r = [] ∧ x = []) as [-> ->] by (split; apply length_zero_iff_nil; lia). rewrite app_nil_r in *.
    split; [done|]. rewrite Els. split; [exists o; split; [done|exact Ho]|]. unfold logged in *. by rewrite Els in *.
  - pose proof (readNew_lines o size content q) as Hr. rewrite Hdata in Hr.
    destruct (lines_of [] (r ++ x)) as [l2 r2] eqn:E2. destruct (readNew o size (Some content) q) as [o' q'].
    destruct Hr as [-> Ho']. split; [done|]. rewrite Hl. cbn [fst snd]. split.
    + exists o'. split; [done|]. rewrite length_app in *. lia.
    + unfold logged in *. rewrite Hl, Els in *. cbn [fst] in *. rewrite filter_app, omap_app. by apply queue_ingests.
Qed.
Lemma tail_run c0 evs : ∀ v s, growing v evs → tail_at c0 v s → tail_at c0 (seen v evs) (foldl tail_step s evs).
Proof.
  induction evs as [|[size content|] evs IH]; intros v s Hg Ht; [done| |]; cbn [growing seen foldl] in *.
  - destruct Hg as (Hs & Hp & Hg). apply IH; [done|]. by eapply tail_look.
  - apply IH; [done|]. destruct s as [[offset q] shipped]. destruct Ht as (Hc & Ho & Hq). unfold tail_step.
    destruct (drain proxyDrainPerTick q) as [out q'] eqn:E. apply (queue_drain proxyDrainPerTick) in Hq. by rewrite E in Hq.
Qed.

(** The access log is followed without loss or repetition: on a log that only
    grows, with looks and reports at any times, what was reported followed by
    what waits in the queue consists of the entries of the complete lines written
    since the first look, each at most once and in order; a line that is still
    being written is left for later; the queue never has more than 2000 entries,
    and as long as at most 2000 entries were logged, none is missing. *)
Theorem proxy_log_followed c0 evs :
  growing c0 evs →
  let '(offset, q, shipped) := foldl tail_step (None, [], []) (Look (length c0) c0 :: evs) in
  let entries := logged c0 (seen c0 evs) in
  shipped ++ q `sublist_of` entries
  ∧ (length q ≤ proxyTailMaxQueue)%nat
  ∧ ((length entries ≤ proxyTailMaxQueue)%nat → shipped ++ q = entries).
Proof.
  intros Hg. cbn [foldl tail_step tail_poll].
  assert (tail_at c0 c0 (Some (length c0), [], [])) as H0.
  { split; [done|]. unfold logged. rewrite drop_all. cbn [lines_of fst snd].
    split; [exists (length c0); split; [done|simpl; lia]|]. split; [apply sublist_nil_l|]. split; [simpl; lia|done]. }
  apply (tail_run c0 evs) in H0; [|done]. destruct (foldl tail_step _ evs) as [[offset q] shipped]. apply H0.
Qed.

Definition ex_line (host : string) : list Z :=
  [123; 34] ++ str_bytes "RequestHost" ++ [34; 58; 34] ++ str_bytes host ++ [34; 125; 10].
Definition ex_log : list tail_event :=
  [Look 40 (ex_line "x.vpn" ++ ex_line "y.vpn"); Report;
   Look 48 (ex_line "x.vpn" ++ ex_line "y.vpn"); Report].
Lemma ex_log_growing : growing (ex_line "x.vpn") ex_log.
Proof.
  cbn [growing ex_log]. split; [vm_compute; lia|]. split; [by exists (take 16 (ex_line "y.vpn"))|].
  split; [vm_compute; lia|]. split; [|done]. by exists (drop 16 (ex_line "y.vpn")).
Qed.
Lemma ex_log_entries :
  logged (ex_line "x.vpn") (seen (ex_line "x.vpn") ex_log) = [mkProxyEvent "" "" "y.vpn" "" 0 0 0 0 "" ""].
Proof. vm_compute. reflexivity. Qed.
Lemma proxy_log_followed_witness :
  (let '(_, q, shipped) := foldl tail_step (None, [], []) (Look (length (ex_line "x.vpn")) (ex_line "x.vpn") :: ex_log) in
   shipped ++ q) = [mkProxyEvent "" "" "y.vpn" "" 0 0 0 0 "" ""].
Proof.
  pose proof (proxy_log_followed (ex_line "x.vpn") ex_log ex_log_growing) as H.
  destruct (foldl tail_step _ _) as [[offset q] shipped]. rewrite ex_log_entries in H.
  apply H. cbn [length]. unfold proxyTailMaxQueue. lia.
Defined.
