(* ===== verification/RelayControl.v ===== *)
(** * The control channel of a stand-alone relay

    cmd/server/relay.go: the two implementations of [relayAllocator], the
    embedded relay ([embedded_allocate] in Handlers) and the client of a relay on
    another host ([relayClient.allocate]); cmd/relay/main.go: what that relay
    answers ([handleAllocate]).

    Requests and answers are the texts that travel, written and read the way
    encoding/json does (Json).  Whether a request or its answer arrives is up to
    the transport, an argument of the client. *)
From S2P Require Import Prelude GoText TimeText NetAddr NetFacts Codec Sha256 Json Schema Telemetry HostPort Psk Candidates RelayUdp RelayFacts Handlers NumText Session Secrets ProxyTail.
From Stdlib Require Import Ascii.

(** ** Texts *)
Definition json_obj (ms : list (string * list Z)) : list Z :=
  [123] ++ join_bytes ((λ m, quote (str_bytes m.1) ++ [58] ++ m.2) <$> ms) ++ [125].
Definition json_str (s : string) : list Z := quote (str_bytes s).
Definition json_int (z : Z) : list Z := str_bytes (Itoa z).
(** [writeJSON] ends the text with a line break. *)
Definition json_reply (ms : list (string * list Z)) : string := string_of_bytes (json_obj ms ++ [10]).

(** [json.Decoder.Decode]: the first value of the text. *)
Definition decode_first (s : string) : option J :=
  let l := str_bytes s in fst <$> parse_value (S (S (2 * length l))) l.
Fixpoint pair_id_field (ms : list (list Z * J)) (old : string) : option string :=
  match ms with
  | [] => Some old
  | (k, v) :: ms => if key_is "pair_id" k then x ← string_field v old; pair_id_field ms x else pair_id_field ms old
  end.
Fixpoint port_fields (ms : list (list Z * J)) (a b : Z) : option (Z * Z) :=
  match ms with
  | [] => Some (a, b)
  | (k, v) :: ms =>
      if key_is "port_a" k then x ← int_field v a; port_fields ms x b
      else if key_is "port_b" k then x ← int_field v b; port_fields ms a x
      else port_fields ms a b
  end.

(** ** The relay's side *)
Section relay.
Context (foreign : Z → bool) (ephemeral : gset Z → option Z) (c : RelayConfig).

Definition handleAllocate (secret : string) (now : Z) (authorization request : string) (pairs : gmap string pair)
  : (Z * string) * gmap string pair :=
  let error msg := json_reply [("error", json_str msg)] in
  match CutPrefix authorization "Bearer " with
  | None => ((401, error "unauthorized"), pairs)
  | Some presented =>
      if decide (presented ≠ secret) then ((401, error "unauthorized"), pairs)
      else
        match decode_first request with
        | Some (JObj ms) =>
            match pair_id_field ms "" with
            | None | Some "" => ((400, error "pair_id is required"), pairs)
            | Some pairID =>
                match embedded_allocate foreign ephemeral c now pairID pairs with
                | (PortsExhausted, pairs) => ((503, error "relay port range exhausted"), pairs)
                | (AllocFailed, pairs) => ((500, error "internal error"), pairs)
                | (PortPair a b, pairs) => ((200, json_reply [("port_a", json_int a); ("port_b", json_int b)]), pairs)
                end
            end
        | _ => ((400, error "pair_id is required"), pairs)
        end
  end.
End relay.

(** ** The server's side *)

(** A transport carries the header and the text of a request to the relay [R]
    and brings back the status and the text of the answer, if any. *)
Definition transport (R : Type) : Type := string → string → R → option (Z * string) * R.

(** The answer is read up to 64 kilobytes. *)
Definition limited (s : string) : string := text (take (2 ^ 16) (chars s)).
Definition client_allocate {R} (secret : string) (send : transport R) (pairID : string) (r : R) : alloc_answer * R :=
  match send ("Bearer " +:+ secret) (string_of_bytes (json_obj [("pair_id", json_str pairID)])) r with
  | (None, r) => (AllocFailed, r)
  | (Some (status, body), r) =>
      if status =? 503 then (PortsExhausted, r)
      else if negb (status =? 200) then (AllocFailed, r)
      else match parse_json (limited body) with
           | Some (JObj ms) =>
               match port_fields ms 0 0 with Some (a, b) => (PortPair a b, r) | None => (AllocFailed, r) end
           | Some JNull => (PortPair 0 0, r)
           | _ => (AllocFailed, r)
           end
  end.
(** [relayClient.observed]: not available. *)
Definition client_observed {R} (pairID : string) (r : R) : option (AddrPort * AddrPort) := None.

Definition ex_config : RelayConfig := mkRelayConfig 40000 40003.
Example control_example :
  (client_allocate "s3cret"
     (λ h b pairs, let '(resp, pairs) := handleAllocate (λ _, false) (λ _, None) ex_config "s3cret" 0 h b pairs in
                   (Some resp, pairs)) "00ff" ∅).1 = PortPair 40000 40001.
Proof. vm_compute. reflexivity. Qed.

(** ** Reading back what was written *)
Lemma printable_key s : forallb (λ z, (32 <=? z) && (z <=? 126)) (str_bytes s) = true → printable_text s.
Proof.
  intros H. apply Forall_forall. intros z Hz. rewrite forallb_forall in H.
  specialize (H z ltac:(by apply list_elem_of_In)). unfold printable. lia.
Qed.
(** A member whose value is read back. *)
Lemma parse_member_value fuel k enc v r sep :
  Forall printable k → parse_value fuel (enc ++ sep :: r) = Some (v, sep :: r) → sep = 44 ∨ sep = 125 →
  parse_members (S fuel) (quote k ++ [58] ++ enc ++ sep :: r)
  = if sep =? 125 then Some ([(k, v)], r) else '(ms, r) ← parse_members fuel r; Some ((k, v) :: ms, r).
Proof.
  intros Hk Hv Hsep. unfold quote. rewrite <- !app_assoc. cbn [app parse_members skip_ws].
  change (is_ws 34) with false. cbv iota. rewrite unquote_escape, bind_Some by done.
  cbn [skip_ws]. change (is_ws 58) with false. cbv iota. rewrite Hv, bind_Some.
  destruct Hsep as [->| ->]; reflexivity.
Qed.
Lemma open_object fuel k rest : 
  parse_value (S fuel) (123 :: quote k ++ rest) = '(ms, r) ← parse_members fuel (quote k ++ rest); Some (JObj ms, r).
Proof.
  unfold quote. rewrite <- !app_assoc. cbn [app parse_value skip_ws]. change (is_ws 123) with false. cbv iota.
  change (is_ws 34) with false. reflexivity.
Qed.

(** Port numbers: digits, at most five, no leading zero. *)
Definition number_text (l : list Z) : bool :=
  forallb (within 48 57) l && bool_decide (l ≠ []) && (length l <=? 5)%nat
  && (bool_decide (head l ≠ Some 48) || bool_decide (l = [48])).
Lemma pretty_short k : ∀ n s, (n < 10 ^ N.of_nat k)%N →
  (String.length (pretty_N_go n s) ≤ k + String.length s)%nat.
Proof.
  induction k as [|k IH]; intros n s Hn.
  - assert (n = 0%N) as -> by (simpl in Hn; lia). by rewrite pretty_N_go_0.
  - destruct (decide (n = 0)%N) as [->|Hne]; [rewrite pretty_N_go_0; lia|].
    rewrite pretty_N_go_step by lia. specialize (IH (n / 10)%N (String (pretty_N_char (n mod 10)) s)).
    cbn [String.length] in IH. etransitivity; [apply IH|lia].
    apply N.Div0.div_lt_upper_bound. rewrite Nat2N.inj_succ, N.pow_succ_r' in Hn. lia.
Qed.
Lemma pretty_head n : ∀ s, (0 < n)%N → ∃ c s', pretty_N_go n s = String c s' ∧ c ≠ "0"%char.
Proof.
  induction (N.lt_wf_0 n) as [n _ IH]; intros s Hn. rewrite pretty_N_go_step by lia.
  destruct (decide (n / 10 = 0)%N) as [E|E]; [|apply IH; [apply N.div_lt; lia|lia]].
  rewrite E, pretty_N_go_0. eexists _, _. split; [done|]. rewrite N.mod_small by (apply N.div_small_iff; lia).
  assert (n < 10)%N as Hlt by (apply N.div_small_iff; lia). intros Hc. pose proof (digit_char n Hlt) as Hd.
  rewrite Hc in Hd. change (digit "0"%char) with (Some 0) in Hd. injection Hd as Hd. lia.
Qed.
Lemma str_bytes_length s : length (str_bytes s) = String.length s.
Proof. unfold str_bytes, bytes_of. rewrite length_fmap. unfold chars. by induction s; simpl; f_equal. Qed.
Lemma port_text z : 0 ≤ z ≤ 65535 → number_text (json_int z) = true.
Proof.
  intros Hz. unfold number_text, json_int. rewrite !andb_true_iff. split_and!.
  - pose proof (Itoa_digits z ltac:(lia)) as Hd. rewrite str_forall_chars in Hd. unfold str_bytes, bytes_of.
    apply forallb_forall. intros b Hb. apply list_elem_of_In, list_elem_of_fmap in Hb as (c & -> & Hc).
    rewrite forallb_forall in Hd. specialize (Hd c ltac:(by apply list_elem_of_In)). unfold is_digit in Hd.
    apply bool_decide_eq_true in Hd as [d Hd]. unfold digit in Hd. case_match eqn:E; [|done]. unfold within. lia.
  - apply bool_decide_eq_true. intros E. apply (f_equal length) in E. rewrite str_bytes_length in E.
    pose proof (Itoa_nonempty z). by destruct (Itoa z).
  - rewrite str_bytes_length, Itoa_N by lia. unfold pretty, pretty_N. case_decide; [done|].
    apply Nat.leb_le. apply (pretty_short 5). change (10 ^ N.of_nat 5)%N with 100000%N. lia.
  - rewrite Itoa_N by lia. unfold pretty, pretty_N. case_decide as E0; [by rewrite orb_true_iff; right|].
    destruct (pretty_head (Z.to_N z) "" ltac:(lia)) as (c & s' & -> & Hc). apply orb_true_iff. left.
    apply bool_decide_eq_true. cbn [str_bytes bytes_of chars]. intros [= Hb]. apply Hc.
    rewrite <- (ascii_N_embedding c). unfold byte_of in Hb. assert (N_of_ascii c = 48%N) as -> by lia. done.
Qed.
Lemma take_digits_app l c r : forallb (within 48 57) l = true → within 48 57 c = false →
  take_digits (l ++ c :: r) = (l, c :: r).
Proof.
  intros Hl Hc. induction l as [|b l IH]; cbn [app take_digits]; [by rewrite Hc|].
  cbn [forallb] in Hl. apply andb_true_iff in Hl as [-> Hl]. by rewrite IH.
Qed.
Lemma digit_byte (P : Z → Prop) b :
  within 48 57 b = true → P 48 → P 49 → P 50 → P 51 → P 52 → P 53 → P 54 → P 55 → P 56 → P 57 → P b.
Proof.
  intros Hb **. assert (b ∈ [48; 49; 50; 51; 52; 53; 54; 55; 56; 57]) as Hin.
  { change [48; 49; 50; 51; 52; 53; 54; 55; 56; 57] with (seqZ 48 10). apply elem_of_seqZ. unfold within in Hb. lia. }
  repeat (apply elem_of_cons in Hin as [->|Hin]; [done|]). by apply not_elem_of_nil in Hin.
Qed.
Lemma take_int_text l c r : number_text l = true → within 48 57 c = false → take_int (l ++ c :: r) = Some (l, c :: r).
Proof.
  unfold number_text. rewrite !andb_true_iff. intros [[[Hd Hne] _] Hz] Hc.
  apply bool_decide_eq_true in Hne. apply orb_true_iff in Hz as [Hz|Hz]; apply bool_decide_eq_true in Hz; [|by subst].
  pose proof (take_digits_app l c r Hd Hc) as Ht. destruct l as [|b l]; [done|].
  cbn [forallb] in Hd. apply andb_true_iff in Hd as [Hb _]. cbn [app head] in *. revert Hz Ht.
  pattern b. apply (digit_byte _ b Hb); intros Hz Ht; [by destruct Hz|..]; unfold take_int; by rewrite Ht.
Qed.
Lemma parse_port fuel l c r : number_text l = true → c = 44 ∨ c = 125 →
  parse_value (S fuel) (l ++ c :: r) = Some (JNum l, c :: r).
Proof.
  intros Hn Hc. assert (within 48 57 c = false) as Hcd by by destruct Hc as [->| ->].
  pose proof (take_int_text l c r Hn Hcd) as Hi. unfold number_text in Hn. rewrite !andb_true_iff in Hn.
  destruct Hn as [[[Hd Hne] _] _]. apply bool_decide_eq_true in Hne.
  destruct l as [|b l]; [done|]. cbn [forallb] in Hd. apply andb_true_iff in Hd as [Hb _]. cbn [app] in *.
  assert (parse_value (S fuel) (b :: l ++ c :: r) = parse_number (b :: l ++ c :: r)) as ->.
  { clear Hi. pattern b. apply (digit_byte _ b Hb); reflexivity. }
  assert (parse_number (b :: l ++ c :: r)
    = '(i, l) ← take_int (b :: l ++ c :: r); '(f, l) ← take_frac l; '(e, l) ← take_exp l; Some (JNum (i ++ f ++ e), l)) as ->.
  { clear Hi. pattern b. apply (digit_byte _ b Hb); reflexivity. }
  rewrite Hi, bind_Some. destruct Hc as [->| ->]; cbn; by rewrite app_nil_r.
Qed.

Lemma member_bytes k v : forallb is_byte v = true → forallb is_byte (quote (str_bytes k) ++ [58] ++ v) = true.
Proof.
  intros Hv. rewrite !forallb_app, quote_bytes, Hv by apply bytes_of_is_byte. done.
Qed.
Lemma json_obj_bytes ms : Forall (λ m, forallb is_byte m.2 = true) ms → forallb is_byte (json_obj ms) = true.
Proof.
  intros Hm. unfold json_obj. rewrite !forallb_app. rewrite join_bytes_bytes; [done|].
  intros l Hl. apply list_elem_of_fmap in Hl as ([k v] & -> & Hin). apply member_bytes.
  rewrite Forall_forall in Hm. by apply (Hm (k, v)).
Qed.
Lemma request_read id : printable_text id →
  decode_first (string_of_bytes (json_obj [("pair_id", json_str id)]))
  = Some (JObj [(str_bytes "pair_id", JStr (str_bytes id))]).
Proof.
  intros Hid. unfold decode_first. cbv zeta.
  replace (str_bytes (string_of_bytes (json_obj [("pair_id", json_str id)]))) with (json_obj [("pair_id", json_str id)]).
  2:{ symmetry. apply bytes_of_string, json_obj_bytes. repeat constructor. apply quote_bytes, bytes_of_is_byte. }
  unfold json_obj. cbn [fmap list_fmap join_bytes fst snd app]. rewrite <- !app_assoc. rewrite open_object.
  set (fuel := (2 * _)%nat). assert (1 < fuel)%nat as Hf by (unfold fuel; simpl length; lia).
  destruct fuel as [|[|fuel]]; [lia|lia|].
  pose proof (parse_member_value (S (S fuel)) (str_bytes "pair_id") (json_str id) (JStr (str_bytes id)) [] 125) as P.
  cbn [app] in *. rewrite P; [done|by apply printable_key|by apply parse_quote|by right].
Qed.
Lemma limited_short s : (String.length s ≤ 2 ^ 5)%nat → limited s = s.
Proof.
  intros Hs. unfold limited. rewrite take_ge; [apply text_chars|].
  etransitivity; [|apply (Nat.pow_le_mono_r 2 5 16); lia]. etransitivity; [|exact Hs].
  unfold chars. clear. induction s; simpl; lia.
Qed.
Lemma int_bytes z : forallb is_byte (json_int z) = true.
Proof. apply bytes_of_is_byte. Qed.
Lemma reply_read a b : 0 ≤ a ≤ 65535 → 0 ≤ b ≤ 65535 →
  parse_json (limited (json_reply [("port_a", json_int a); ("port_b", json_int b)]))
  = Some (JObj [(str_bytes "port_a", JNum (json_int a)); (str_bytes "port_b", JNum (json_int b))]).
Proof.
  intros Ha Hb. pose proof (port_text a Ha) as Ta. pose proof (port_text b Hb) as Tb.
  assert (length (json_int a) ≤ 5 ∧ length (json_int b) ≤ 5)%nat as [La Lb].
  { unfold number_text in Ta, Tb. rewrite !andb_true_iff, !Nat.leb_le in Ta, Tb. naive_solver. }
  set (l := json_obj [("port_a", json_int a); ("port_b", json_int b)] ++ [10]).
  assert (str_bytes (string_of_bytes l) = l) as Hl.
  { apply bytes_of_string. unfold l. rewrite forallb_app, json_obj_bytes; [done|]. repeat constructor; apply int_bytes. }
  unfold json_reply. fold l. rewrite limited_short.
  2:{ rewrite <- str_bytes_length, Hl. unfold l, json_obj. rewrite !length_app. cbn [fmap list_fmap join_bytes fst snd].
      rewrite !length_app. change (length (quote (str_bytes "port_a"))) with 8%nat.
      change (length (quote (str_bytes "port_b"))) with 8%nat. cbn [length Nat.pow Nat.mul Nat.add]. lia. }
  unfold parse_json. rewrite Hl. cbv zeta.
  set (fuel := (2 * length l)%nat). assert (2 < fuel)%nat as Hf.
  { unfold fuel, l, json_obj. rewrite !length_app. simpl length. lia. }
  unfold l, json_obj. cbn [fmap list_fmap join_bytes fst snd]. rewrite <- !app_assoc. cbn [app]. rewrite open_object.
  destruct fuel as [|[|[|fuel]]]; [lia..|].
  pose proof (parse_member_value (S (S (S fuel))) (str_bytes "port_a") (json_int a) (JNum (json_int a))
    (quote (str_bytes "port_b") ++ [58] ++ json_int b ++ [125; 10]) 44) as Pa.
  cbn [app] in Pa. rewrite Pa; [|by apply printable_key|apply parse_port; [done|by left]|by left].
  change (44 =? 125) with false. cbv iota.
  pose proof (parse_member_value (S (S fuel)) (str_bytes "port_b") (json_int b) (JNum (json_int b)) [10] 125) as Pb.
  cbn [app] in Pb. rewrite Pb; [reflexivity|by apply printable_key|apply parse_port; [done|by right]|by right].
Qed.

(** ** One relay or the other *)
Section transparent.
Context (foreign : Z → bool) (ephemeral : gset Z → option Z) (c : RelayConfig).
Context (Hc : 0 ≤ PortMin c ∧ PortMax c ≤ 65535).
Context (Heph : ∀ used p, ephemeral used = Some p → 0 ≤ p ≤ 65535).

(** The relay's sockets have port numbers. *)
Definition ports_fit (pairs : gmap string pair) : Prop :=
  map_Forall (λ _ p, 0 ≤ pa_portA p ≤ 65535 ∧ 0 ≤ pa_portB p ≤ 65535) pairs.
Lemma listen_fits used p : listenUDP foreign ephemeral c used = Some p → 0 ≤ p ≤ 65535.
Proof using Hc Heph.
  unfold listenUDP. case_match; [apply Heph|].
  assert (∀ n q, 0 ≤ q → q + Z.of_nat n ≤ 65536 → bind_walk foreign n q used = Some p → 0 ≤ p ≤ 65535) as Hw.
  { induction n as [|n IH]; intros q Hq Hn E; [done|]. cbn [bind_walk] in E. case_match; [|simplify_eq; lia].
    eapply (IH (q + 1)); [lia|lia|done]. }
  intros E. destruct (Z.le_gt_cases (PortMin c) (PortMax c)).
  - eapply Hw; [| |exact E]; lia.
  - replace (Z.to_nat (PortMax c - PortMin c + 1)) with 0%nat in E by lia. done.
Qed.
Lemma Allocate_fits now id pairs a b pairs' : ports_fit pairs →
  Allocate foreign ephemeral c now id pairs = (Some (a, b), pairs') →
  0 ≤ a ≤ 65535 ∧ 0 ≤ b ≤ 65535 ∧ ∃ p, pairs' !! id = Some p ∧ pa_portA p = a ∧ pa_portB p = b.
Proof using Hc Heph.
  intros Hf. unfold Allocate. destruct (pairs !! id) as [p|] eqn:Ep.
  - intros [= <- <- <-]. destruct (Hf id p Ep). rewrite lookup_insert_eq. eauto 10.
  - destruct (listenUDP _ _ _ _) as [x|] eqn:E1; [|done]. destruct (listenUDP _ _ _ ({[x]} ∪ _)) as [y|] eqn:E2; [|done].
    intros [= <- <- <-]. apply listen_fits in E1. apply listen_fits in E2. rewrite lookup_insert_eq. eauto 10.
Qed.

(** A transport that carries the request to the relay and the answer back. *)
Definition reaches (secret : string) (now : Z) : transport (gmap string pair) := λ header request pairs,
  let '(resp, pairs) := handleAllocate foreign ephemeral c secret now header request pairs in (Some resp, pairs).

Lemma client_same secret now id pairs :
  printable_text id → id ≠ "" → ports_fit pairs →
  client_allocate secret (reaches secret now) id pairs = embedded_allocate foreign ephemeral c now id pairs.
Proof using Hc Heph.
  intros Hid Hne Hf. unfold client_allocate, reaches, handleAllocate. rewrite CutPrefix_app, decide_False by (by intros []).
  rewrite request_read by done. cbn [pair_id_field]. change (key_is "pair_id" (str_bytes "pair_id")) with true. cbv iota.
  cbn [string_field mbind option_bind]. rewrite str_bytes_back. destruct id as [|ch id]; [done|].
  unfold embedded_allocate. destruct (Allocate _ _ _ _ _ _) as [[[a b]|] pairs'] eqn:E.
  2:{ destruct (PortMin c =? 0); reflexivity. }
  destruct (Allocate_fits _ _ _ _ _ _ Hf E) as (Ha & Hb & _). cbn [Z.eqb Pos.eqb negb].
  rewrite reply_read by done. cbn [port_fields].
  change (key_is "port_a" (str_bytes "port_a")) with true. change (key_is "port_a" (str_bytes "port_b")) with false.
  change (key_is "port_b" (str_bytes "port_b")) with true. cbv iota. cbn [int_field]. unfold json_int.
  rewrite !str_bytes_back, !ParseInt_Itoa; [done|..]; unfold in_int64, int64_min, int64_max; lia.
Qed.
End transparent.

Lemma round_length s kw : length (round s kw) = length s.
Proof. by destruct s as [|? [|? [|? [|? [|? [|? [|? [|? [|? ?]]]]]]]]]. Qed.
Lemma compress_length h block : length (compress h block) = length h.
Proof.
  unfold compress. rewrite length_zip_with.
  assert (∀ l s, length (foldl round s l) = length s) as ->; [|lia].
  induction l as [|x l IH]; intros s; [done|]. cbn [foldl]. by rewrite IH, round_length.
Qed.
Lemma digest_length h : length h = 8%nat → length (mjoin (be_bytes 4 <$> h)) = 32%nat.
Proof.
  intros Hl. destruct h as [|? [|? [|? [|? [|? [|? [|? [|? [|? ?]]]]]]]]]; cbn [length] in Hl; try lia. reflexivity.
Qed.
Lemma sha256_length m : length (sha256 m) = 32%nat.
Proof.
  unfold sha256. cbv zeta. apply digest_length. set (f := λ h b, compress h (be_word <$> chunks 16 4 b)).
  assert (∀ blocks h, length (foldl f h blocks) = length h) as Hf; [|by rewrite Hf].
  induction blocks as [|b blocks IH]; intros h; [done|]. cbn [foldl]. rewrite IH. apply compress_length.
Qed.
Lemma pair_id_text a b : printable_text (relayPairID a b) ∧ relayPairID a b ≠ "".
Proof.
  unfold relayPairID. destruct (ordered_pair a b) as [lo hi]. set (m := bytes_of _).
  pose proof (sha256_is_byte m) as Hb. pose proof (sha256_length m) as Hl.
  assert (forallb is_byte (take 16 (sha256 m)) = true) as Hb16.
  { apply forallb_forall. intros x Hx. rewrite forallb_forall in Hb. apply Hb.
    apply list_elem_of_In, (subseteq_take 16), list_elem_of_In. done. }
  split.
  - apply printable_key. pose proof (hex_plain _ Hb16) as Hp. rewrite str_forall_chars in Hp.
    apply forallb_forall. intros x Hx. apply list_elem_of_In, list_elem_of_fmap in Hx as (ch & -> & Hin).
    rewrite forallb_forall in Hp. specialize (Hp ch ltac:(by apply list_elem_of_In)). unfold plain in Hp. lia.
  - destruct (sha256 m) as [|x l]; [done|]. cbn [take]. done.
Qed.

(** C27: A relay on another host serves the control server exactly as the
    embedded one does: when requests and answers arrive and the secrets agree,
    [handleRelayPair] gives the same reply, leaves the same relay and the same
    database.  With another secret the relay changes nothing; and when only the
    answer is lost, the next attempt gets the ports the first one allocated. *)
Theorem relay_client_transparent foreign ephemeral c secret now pairs :
  (0 ≤ PortMin c ∧ PortMax c ≤ 65535) → (∀ used p, ephemeral used = Some p → 0 ≤ p ≤ 65535) → ports_fit pairs →
  (∀ host later r b w,
     relay_pair (client_allocate secret (reaches foreign ephemeral c secret now)) host now later r b (Some pairs) w
     = handleRelayPair foreign ephemeral c host now later r b (Some pairs) w)
  ∧ (∀ secret' id, secret' ≠ secret →
     client_allocate secret' (reaches foreign ephemeral c secret now) id pairs = (AllocFailed, pairs))
  ∧ (∀ id a b pairs' now', printable_text id → id ≠ "" →
     embedded_allocate foreign ephemeral c now id pairs = (PortPair a b, pairs') → ports_fit pairs' →
     (client_allocate secret (reaches foreign ephemeral c secret now') id pairs').1 = PortPair a b).
Proof.
  intros Hc Heph Hf. split; [|split].
  - intros host later r b w. unfold handleRelayPair, relay_pair.
    destruct (authenticate _ _ _ _ _) as [[? ?]|[peerID ip]]; [done|].
    destruct (DecodeJSON _ _) as [[? ?]|target]; [done|]. case_decide; [done|].
    destruct (RelayPairKeys _ _ _) as [[selfKey targetOK]|]; [|done]. destruct targetOK; [|done]. cbn [negb].
    destruct (pair_id_text selfKey target). by rewrite client_same.
  - intros secret' id Hne. unfold client_allocate, reaches, handleAllocate. by rewrite CutPrefix_app, decide_True.
  - intros id a b pairs' now' Hid Hne E Hf'. rewrite client_same by done.
    unfold embedded_allocate in E |- *. destruct (Allocate foreign ephemeral c now id pairs) as [[[a0 b0]|] pairs0] eqn:E0;
      [|by destruct (PortMin c =? 0)].
    injection E as <- <- <-. destruct (Allocate_fits _ _ _ Hc Heph _ _ _ _ _ _ Hf E0) as (_ & _ & p & Hp & <- & <-).
    unfold Allocate. by rewrite Hp.
Qed.

Lemma relay_client_transparent_witness :
  ports_fit ∅
  ∧ client_allocate "other" (reaches (λ _, false) (λ _, None) ex_config "s3cret" 0) "00ff" ∅ = (AllocFailed, ∅).
Proof.
  assert (ports_fit ∅) as H0 by apply map_Forall_empty. split; [exact H0|].
  apply (relay_client_transparent (λ _, false) (λ _, None) ex_config "s3cret" 0 ∅).
  - vm_compute. split; discriminate.
  - discriminate.
  - exact H0.
  - discriminate.
Defined.
