(* ===== verification/RateLimit.v ===== *)
(** * Rate limiting of public endpoints

    internal/httpx/ratelimit.go: one token bucket per client address, forgotten
    after ten idle minutes.  The bucket itself is the Limiter of
    golang.org/x/time/rate, behind the class [TokenBucket]; time is a number of
    nanoseconds; a call reads the clock once. *)
From S2P Require Import Prelude TimeText Handlers.

Class TokenBucket (L : Type) : Type := { tb_new : L; tb_allow : Z → L → bool * L }.
Definition idle_limit : Z := 10 * Minute.

(** The documentation of rate.Limiter: a bucket of a given size, full at first,
    refilled at a steady rate; a request takes a token if there is one and is
    refused otherwise.  Tokens are counted in a unit of which [token] make one,
    [rate] flow in per nanosecond and [burst] fit: any rational rate has such a
    unit. *)
Class TokenBucketLaws (L : Type) `{TokenBucket L} (token rate burst : Z) : Type := {
  tb_level : Z → L → Z;
  tb_full now : tb_level now tb_new = burst;
  tb_verdict now l : (tb_allow now l).1 = (token <=? tb_level now l);
  tb_refill now t l : now ≤ t →
    tb_level t (tb_allow now l).2
    = Z.min burst (tb_level now l - (if token <=? tb_level now l then token else 0) + rate * (t - now))
}.

Section limiter.
Context {L : Type} `{TokenBucket L}.

Record clientLimiter : Type := mkClient { cl_limiter : L; cl_last : Z }.
Abbreviation clients := (gmap string clientLimiter).

Definition Allow (now : Z) (key : string) (m : clients) : bool * clients :=
  let l := match m !! key with Some c => cl_limiter c | None => tb_new end in
  let '(ok, l) := tb_allow now l in (ok, <[key := mkClient l now]> m).
(** One pass of [evictLoop]. *)
Definition evict (now : Z) (m : clients) : clients := filter (λ kc, ¬ idle_limit < now - cl_last kc.2) m.
Definition Middleware {S A} (now : Z) (clientIP : string) (next : S → reply A * S) (m : clients) (s : S)
  : reply A * clients * S :=
  let '(ok, m) := Allow now clientIP m in
  if ok then let '(rep, s) := next s in (rep, m, s) else (Status 429 "rate limit exceeded", m, s).

(** ** The limiter over time *)
Inductive limit_event : Type :=
| Ask (now : Z) (key : string)
| Evict (now : Z).
(** The verdicts, each with the client that asked. *)
Fixpoint verdicts (m : clients) (evs : list limit_event) : list (string * bool) :=
  match evs with
  | [] => []
  | Ask now key :: evs => let '(ok, m) := Allow now key m in (key, ok) :: verdicts m evs
  | Evict now :: evs => verdicts (evict now m) evs
  end.
(** A bucket of one's own. *)
Fixpoint own_verdicts (l : L) (times : list Z) : list bool :=
  match times with
  | [] => []
  | now :: times => let '(ok, l) := tb_allow now l in ok :: own_verdicts l times
  end.
Definition asks (key : string) (evs : list limit_event) : list Z :=
  omap (λ e, match e with Ask now k => if decide (k = key) then Some now else None | Evict _ => None end) evs.
Definition verdicts_of (key : string) (evs : list limit_event) : list bool :=
  omap (λ v : string * bool, if decide (v.1 = key) then Some v.2 else None) (verdicts ∅ evs).
(** Time does not run backwards. *)
Definition event_time (e : limit_event) : Z := match e with Ask now _ | Evict now => now end.
Fixpoint in_order (t : Z) (evs : list limit_event) : Prop :=
  match evs with [] => True | e :: evs => t ≤ event_time e ∧ in_order (event_time e) evs end.
End limiter.
Arguments clientLimiter : clear implicits.

(** The flags make sense: a token costs something, and a bucket idle for the time
    after which an entry is evicted is full again.  [publicLimit] only checks that
    the rate is positive, [NewRateLimiter] that a token fits. *)
Record refills_in_time (token rate burst : Z) : Prop := {
  rt_token : 0 < token; rt_rate : 0 ≤ rate; rt_burst : token ≤ burst; rt_idle : burst ≤ rate * idle_limit
}.

Section facts.
Context {L : Type} {B : TokenBucket L} {token rate burst : Z} {Laws : TokenBucketLaws L token rate burst}
  (Hflags : refills_in_time token rate burst).

(** From [t] on the two buckets hold the same. *)
Definition alike (t : Z) (l l' : L) : Prop := ∀ u, t ≤ u → tb_level u l = tb_level u l'.
(** The client's entry agrees with [l], a bucket that is never forgotten; [t] is
    the present. *)
Definition entry_agrees (key : string) (t : Z) (m : gmap string (clientLimiter L)) (l : L) : Prop :=
  match m !! key with
  | Some c => alike t (cl_limiter c) l ∧ ∀ u, t ≤ u → idle_limit < u - cl_last c → tb_level u l = burst
  | None => ∀ u, t ≤ u → tb_level u l = burst
  end.
Definition non_negative (t : Z) (l : L) : Prop := ∀ u, t ≤ u → 0 ≤ tb_level u l.

Lemma agrees_later key t t' m l : t ≤ t' → entry_agrees key t m l → entry_agrees key t' m l.
Proof using.
  unfold entry_agrees, alike. intros Ht. destruct (m !! key).
  - intros [H1 H2]. split; intros u Hu; [apply H1|apply H2]; lia.
  - intros H1 u Hu. apply H1. lia.
Qed.
Lemma agrees_evict key t m l : entry_agrees key t m l → entry_agrees key t (evict t m) l.
Proof using.
  unfold entry_agrees, evict. destruct (m !! key) as [c|] eqn:E.
  - intros [Hl Ht]. destruct (decide (idle_limit < t - cl_last c)) as [Hi|Hi].
    + rewrite map_lookup_filter_None_2; [intros u Hu; apply Ht; lia|]. right. intros x Hx. cbn. simplify_eq. tauto.
    + rewrite (map_lookup_filter_Some_2 _ _ _ c); done.
  - intros H1. by rewrite map_lookup_filter_None_2 by by left.
Qed.
Lemma ask_alike t l l' : alike t l l' →
  (tb_allow t l).1 = (tb_allow t l').1 ∧ alike t (tb_allow t l).2 (tb_allow t l').2.
Proof using Laws.
  intros Ha. rewrite !tb_verdict, (Ha t) by lia. split; [done|]. intros u Hu. by rewrite !tb_refill, (Ha t) by lia.
Qed.
Lemma ask_refills t l : non_negative t l →
  non_negative t (tb_allow t l).2
  ∧ ∀ u, idle_limit < u - t → tb_level u (tb_allow t l).2 = burst.
Proof using Hflags Laws.
  intros Hn. specialize (Hn t ltac:(lia)). destruct Hflags as [H1 H2 H3 H4].
  assert (0 ≤ tb_level t l - (if token <=? tb_level t l then token else 0)) as Hx
    by (destruct (Z.leb_spec token (tb_level t l)); lia).
  assert (0 < idle_limit) by (vm_compute; done). split; intros u Hu.
  - rewrite tb_refill by lia. pose proof (Z.mul_nonneg_nonneg rate (u - t) H2 ltac:(lia)). lia.
  - rewrite tb_refill by lia. pose proof (Z.mul_le_mono_nonneg_l idle_limit (u - t) rate H2 ltac:(lia)). lia.
Qed.
(** The verdict is that of the client's own bucket. *)
Lemma agrees_ask key t m l : entry_agrees key t m l → non_negative t l →
  let '(ok, m') := Allow t key m in
  ok = (tb_allow t l).1 ∧ entry_agrees key t m' (tb_allow t l).2.
Proof using Hflags Laws.
  intros Ha Hn. unfold Allow. set (l0 := match m !! key with Some c => cl_limiter c | None => tb_new end).
  assert (alike t l0 l) as Hl.
  { unfold entry_agrees in Ha. unfold l0. destruct (m !! key); [apply Ha|]. intros u Hu. by rewrite tb_full, Ha. }
  destruct (ask_alike t l0 l Hl) as [Hv Hl']. destruct (tb_allow t l0) as [ok l1]. cbn in Hv, Hl'. split; [done|].
  unfold entry_agrees. rewrite lookup_insert_eq. cbn [cl_limiter cl_last]. split; [done|].
  intros u _. by apply ask_refills.
Qed.
Lemma agrees_other key key' t m l : key ≠ key' → entry_agrees key t m l →
  entry_agrees key t (Allow t key' m).2 l.
Proof using.
  intros Hne. unfold entry_agrees, Allow. destruct (tb_allow t _) as [ok l1]. cbn [snd]. by rewrite lookup_insert_ne.
Qed.

Lemma verdicts_agree key evs : ∀ t m l,
  in_order t evs → non_negative t l → entry_agrees key t m l →
  omap (λ v : string * bool, if decide (v.1 = key) then Some v.2 else None) (verdicts m evs)
  = own_verdicts l (asks key evs).
Proof using Hflags Laws.
  induction evs as [|[now k|now] evs IH]; intros t m l Ho Hn Ha; [done| |]; destruct Ho as [Hle Ho]; cbn [event_time] in *;
    apply (agrees_later _ _ now) in Ha; try done;
    assert (non_negative now l) as Hn' by (intros u Hu; apply Hn; lia).
  - cbn [verdicts asks omap list_omap]. destruct (decide (k = key)) as [->|Hne].
    + pose proof (agrees_ask key now m l Ha Hn') as Hstep. destruct (Allow now key m) as [ok m'].
      destruct Hstep as [-> Ha']. cbn [omap list_omap fst snd]. rewrite decide_True by done. cbn [own_verdicts].
      destruct (ask_refills now l Hn') as [Hn2 _]. destruct (tb_allow now l) as [ok l']. cbn [fst snd] in *. f_equal.
      by apply (IH now m').
    + pose proof (agrees_other key k now m l (not_eq_sym Hne) Ha) as Ha'. destruct (Allow now k m) as [ok m'].
      cbn [omap list_omap fst snd] in *. rewrite decide_False by done. by apply (IH now).
  - cbn [verdicts asks omap list_omap]. apply (IH now); [done..|by apply agrees_evict].
Qed.

(** C35: with a clock that does not run backwards, clients are limited
    independently of each other and of the clean-up, if the flags let a bucket
    refill within the ten minutes after which an idle entry is evicted, rate *
    600 s >= burst (as the defaults, 20 per second and 40, do; the flags are not
    checked for it): whatever other clients do and whenever idle entries are
    evicted, each client's requests are let through exactly as by a token bucket
    of its own that is never forgotten; a request over the limit is answered 429
    and does not reach the handler, any other one does. *)
Theorem rate_limit_per_client evs t :
  in_order t evs →
  (∀ key, verdicts_of key evs = own_verdicts tb_new (asks key evs))
  ∧ (∀ S A now key (next : S → reply A * S) m s,
     Middleware now key next m s =
       if (Allow now key m).1 then ((next s).1, (Allow now key m).2, (next s).2)
       else (Status 429 "rate limit exceeded", (Allow now key m).2, s)).
Proof using Hflags Laws.
  intros Ho. split.
  - intros key. apply (verdicts_agree key evs t ∅ tb_new); [done|..].
    + intros u _. rewrite tb_full. destruct Hflags. lia.
    + unfold entry_agrees. rewrite lookup_empty. intros u _. apply tb_full.
  - intros S A now key next m s. unfold Middleware. destruct (Allow now key m) as [[] m']; [|done].
    by destruct (next s).
Qed.
End facts.

(** ** A bucket

    What it holds and when that was reckoned; [None] was never asked. *)
Definition plain_bucket (token rate burst : Z) : TokenBucket (option (Z * Z)) := {|
  tb_new := None;
  tb_allow now l :=
    let tokens := match l with None => burst | Some (n, t) => Z.min burst (n + rate * (now - t)) end in
    if token <=? tokens then (true, Some (tokens - token, now)) else (false, Some (tokens, now))
|}.
Definition plain_bucket_laws token rate burst :
  @TokenBucketLaws _ (plain_bucket token rate burst) token rate burst.
Proof.
  refine (@Build_TokenBucketLaws _ (plain_bucket token rate burst) token rate burst
    (λ now l, match l with None => burst | Some (n, t) => Z.min burst (n + rate * (now - t)) end) _ _ _).
  - done.
  - intros now l. cbn. by destruct (_ <=? _).
  - intros now t l Ht. cbn. destruct (_ <=? _); [done|]. by rewrite Z.sub_0_r.
Defined.

(** Three tokens, one regained per second. *)
Definition ex_asks : list limit_event :=
  [Ask 0 "a"; Ask 1 "a"; Ask 2 "b"; Ask 3 "a"; Ask 4 "a"; Evict Minute; Evict Hour; Ask Hour "a"].
Lemma ex_flags : refills_in_time Second 1 (3 * Second).
Proof. split; vm_compute; congruence. Qed.
Lemma rate_limit_per_client_witness :
  @verdicts_of _ (plain_bucket Second 1 (3 * Second)) "a" ex_asks = [true; true; true; false; true].
Proof.
  rewrite (proj1 (@rate_limit_per_client _ _ _ _ _ (plain_bucket_laws Second 1 (3 * Second)) ex_flags ex_asks 0
    ltac:(vm_compute; intuition discriminate))).
  vm_compute. reflexivity.
Defined.

(** With a rate of one request per hour and a burst of three, which the flags
    accept, a client that pauses for eleven minutes is let through again: its
    bucket was forgotten. *)
Lemma eviction_resets_slow_limits :
  let evs := [Ask 0 "a"; Ask 1 "a"; Ask 2 "a"; Ask 3 "a"; Evict (11 * Minute); Ask (11 * Minute) "a"] in
  @verdicts_of _ (plain_bucket Hour 1 (3 * Hour)) "a" evs = [true; true; true; false; true]
  ∧ @own_verdicts _ (plain_bucket Hour 1 (3 * Hour)) None (asks "a" evs) = [true; true; true; false; false].
Proof. vm_compute. split; reflexivity. Qed.
