(* ===== verification/AgentRun.v ===== *)
(** * The agent from start to end

    cmd/agent/runner.go [run], [setupInterface] and [openFirewall]: what the agent
    does to the host before it reports, and what it undoes on every way out;
    cmd/agent/telemetry.go: one report and its answer ([post], [syncOnce_final]) and
    what the reporter undoes when it is told to stop ([run]); cmd/agent/signal.go:
    reconnecting and what a message asks for; cmd/agent/mss_linux.go.

    The operations on the host are the class [RunHost], on top of [HostOps]; a Go
    [defer] is [deferring].  What happens between start-up and the stop signal is
    the argument [session]. *)
From S2P Require Import Prelude GoText TimeText NetAddr NetCidr Codec Json Schema Dns Telemetry Candidates PeerEntries Handlers Path Sync Collect AgentSync NumText IpTables HostNet HostNetFacts LocalCandidates NatCheck PortMap Startup Firewall Secrets HostDns.
From Stdlib Require Import Ascii.

(** ** Clamping the segment size *)
Section mss.
Context {T : Type} `{IpTables T}.
Definition mssRuleComment : string := "wgmesh-mss".
Definition mssClampRules (iface : string) : list rule :=
  (λ chain, ["-t"; "mangle"; chain; "-o"; iface; "-p"; "tcp"; "--tcp-flags"; "SYN,RST"; "SYN"; "-m"; "comment";
             "--comment"; mssRuleComment; "-j"; "TCPMSS"; "--clamp-mss-to-pmtu"]) <$> ["FORWARD"; "OUTPUT"].
Definition installMSSClamp (tool iface : string) (t : T) : bool * T := ensure_rules tool (mssClampRules iface) t.
Definition removeMSSClamp (fuel : nat) (tool iface : string) (t : T) : option T :=
  delete_rules fuel tool (mssClampRules iface) t.
(** The tools whose rules are in place, for the function it returns. *)
Definition enableMSSClamp (iface : string) (haveV6 : bool) (t : T) : list string * T :=
  let '(v4, t) := installMSSClamp "iptables" iface t in
  let '(v6, t) := if haveV6 then installMSSClamp "ip6tables" iface t else (false, t) in
  ((if v4 then ["iptables"] else []) ++ (if v6 then ["ip6tables"] else []), t).
Definition disableMSSClamp (fuel : nat) (iface : string) (tools : list string) (t : T) : option T :=
  foldl (λ o tool, t ← o; removeMSSClamp fuel tool iface t) (Some t) tools.
End mss.

(** ** The listen port's firewall rule *)
Section port.
Context {H : Type} `{FwHost H}.
(** The manager to close at the end, if there is one. *)
Definition openFirewall (manage : bool) (keyFile : string) (listenPort : Z) (f : state_file) (h : H)
  : option Manager * state_file * H :=
  if negb manage then (None, f, h)
  else
    let '(ok, m, f, h) := OpenWithReconcile "wgmesh-agent" (keyFile +:+ ".fw") f h in
    if negb ok then (None, f, h)
    else let '(_, m, f, h) := AllowUDP listenPort m f h in (Some m, f, h).
End port.

(** ** The whole run *)
Class RunHost (H : Type) : Type := {
  rh_privileged : H → bool;
  rh_deleteInterface : H → bool * H;
  rh_cleanupExitState : H → H;
  rh_restoreResolvConf : H → bool * H;
  rh_openFirewall : Z → H → H;
  rh_closeFirewall : H → H;
  rh_createInterface : H → bool * H;
  rh_assignIPAddress : string → H → bool * H;
  rh_bringInterfaceUp : H → bool * H;
  rh_enableMSSClamp : bool → H → H;
  rh_disableMSSClamp : H → H;
  rh_newWGBackend : H → bool * H;
  rh_closeBackend : H → H;
  rh_ConfigureDevice : Z → list PeerConfig → H → bool * H;
  rh_enableGatewayNAT : string → H → bool * H;
  rh_disableGatewayNAT : H → H
}.

Section run.
Context {H : Type} `{HostOps H, RunHost H}.

(** [None] is a nil error. *)
Definition ending : Type := option string * H.
(** [defer cleanup()] around the rest of a function. *)
Definition deferring (cleanup : H → H) (body : H → ending) (h : H) : ending :=
  let '(e, h) := body h in (e, cleanup h).
Definition fails (what : string) (h : H) : ending := (Some what, h).

Definition setupInterface (addr addr6 : string) (dns : DNSConfig) (h : H) : bool * H :=
  let '(ok, h) := rh_createInterface h in
  if negb ok then (false, h)
  else
    let '(ok, h) := rh_assignIPAddress addr h in
    if negb ok then (false, h)
    else
      let '(ok, h) := if decide (addr6 = "") then (true, h) else rh_assignIPAddress addr6 h in
      if negb ok then (false, h)
      else
        let '(ok, h) := rh_bringInterfaceUp h in
        if negb ok then (false, h)
        else (true, if dc_Enabled dns then (applyDNSConfig dns h).2 else h).

(** [reporter] starts the reporter, which fails on a bad setting; [session] is
    everything up to the stop signal. *)
Context (initial : agentStartupState → option (list PeerConfig)).
Context (reporter : agentStartupState → bool) (session : agentStartupState → bool → bool → H → H).
Context (gatewayNATCIDRs : string).

(** From the host roles to the end. *)
Definition run_roles (s : agentStartupState) (h : H) : ending :=
  let '(ok, h) := rh_enableGatewayNAT gatewayNATCIDRs h in
  if negb ok then fails "gateway NAT" h
  else deferring rh_disableGatewayNAT (λ h,
    let '(_, _, h) := applyGatewayRoutes (su_gatewayRoutes s) false h in
    let '(_, exitRoutesOn, h) := applyExitRoutes (su_exitNodePeer s) (bool_decide (su_overlayAddr6 s ≠ "")) false h in
    let '(_, exitNATOn, h) := applyExitNodeNAT (su_exitNodeActive s) (su_networkPrefix s) (su_networkPrefix6 s) false h in
    if reporter s then (None, session s exitRoutesOn exitNATOn h) else fails "relay transport" h) h.
(** From the interface on. *)
Definition run_interface (listenPort : Z) (s : agentStartupState) (h : H) : ending :=
  let '(ok, h) := setupInterface (su_overlayAddr s) (su_overlayAddr6 s) (su_initialDNS s) h in
  if negb ok then fails "setup interface" h
  else
    let h := rh_enableMSSClamp (bool_decide (su_overlayAddr6 s ≠ "")) h in
    deferring rh_disableMSSClamp (λ h,
      let '(ok, h) := rh_newWGBackend h in
      if negb ok then fails "backend" h
      else deferring rh_closeBackend (λ h,
        match initial s with
        | None => fails "initial peers" h
        | Some peers =>
            let '(ok, h) := rh_ConfigureDevice listenPort peers h in
            if negb ok then fails "configure device" h
            else
              let h := match su_initialACL s with Some acl => (applyOverlayACL acl h).2 | None => h end in
              run_roles s h
        end) h) h.
(** [settings_ok]: log level, DNS mode and advertised endpoint are valid; [key]
    and [port] are what the files gave; [start] is how enrollment ended. *)
Definition run (settings_ok : bool) (key : option string) (port : option Z) (start : started agentStartupState)
    (h : H) : ending :=
  if negb settings_ok then fails "settings" h
  else if negb (rh_privileged h) then fails "must run as root" h
  else
    let '(ok, h) := rh_deleteInterface h in
    if negb ok then fails "delete interface" h
    else
      let h := (rh_restoreResolvConf (rh_cleanupExitState h)).2 in
      match key, port with
      | None, _ => fails "key file" h
      | _, None => fails "listen port" h
      | Some _, Some listenPort =>
          let h := rh_openFirewall listenPort h in
          deferring rh_closeFirewall (λ h,
            match start with
            | Started s =>
                deferring (λ h, (rh_deleteInterface h).2)
                  (deferring (λ h, (rh_restoreResolvConf h).2) (run_interface listenPort s)) h
            | _ => fails "startup" h
            end) h
      end.
End run.

(** ** Leaving nothing behind *)

(** What a run puts on the host, besides the state the reporter keeps. *)
Inductive resource : Type := RLink | RTakeover | RMss | RBackend | RGatewayNat | RFirewall.
#[export] Instance resource_eq_dec : EqDecision resource.
Proof. solve_decision. Defined.
#[export] Instance resource_countable : Countable resource.
Proof.
  refine (inj_countable'
    (λ r, match r with RLink => 0 | RTakeover => 1 | RMss => 2 | RBackend => 3 | RGatewayNat => 4 | RFirewall => 5 end)%N
    (λ n, match n with 0 => RLink | 1 => RTakeover | 2 => RMss | 3 => RBackend | 4 => RGatewayNat | _ => RFirewall end%N) _).
  by intros [].
Defined.

(** The clean-up of each, as [run] defers it.  None of them is assumed to work. *)
Definition undo {H : Type} `{RunHost H} (r : resource) (h : H) : H :=
  match r with
  | RLink => (rh_deleteInterface h).2
  | RTakeover => (rh_restoreResolvConf h).2
  | RMss => rh_disableMSSClamp h
  | RBackend => rh_closeBackend h
  | RGatewayNat => rh_disableGatewayNAT h
  | RFirewall => rh_closeFirewall h
  end.
Definition tidy {H : Type} `{RunHost H} (h h' : H) : Prop := ∃ r, h' = undo r h.

(** What each operation may add, whether it succeeds or not; a clean-up may fail
    and leave its resource, but puts up nothing. *)
Class RunHostLaws (H : Type) `{HostOps H, RunHost H} (held : H → gset resource) : Prop := {
  rl_undo r h : held (undo r h) ⊆ held h;
  rl_exit_state h : held (rh_cleanupExitState h) ⊆ held h;
  rl_open p h : held (rh_openFirewall p h) ⊆ {[RFirewall]} ∪ held h;
  rl_create h : held (rh_createInterface h).2 ⊆ {[RLink]} ∪ held h;
  rl_assign a h : held (rh_assignIPAddress a h).2 ⊆ held h;
  rl_up h : held (rh_bringInterfaceUp h).2 ⊆ held h;
  rl_dns d h : held (applyDNSConfig d h).2 ⊆ {[RTakeover]} ∪ held h;
  rl_mss v6 h : held (rh_enableMSSClamp v6 h) ⊆ {[RMss]} ∪ held h;
  rl_backend h : held (rh_newWGBackend h).2 ⊆ {[RBackend]} ∪ held h
    ∧ ((rh_newWGBackend h).1 = false → held (rh_newWGBackend h).2 ⊆ held h);
  rl_configure p l h : held (rh_ConfigureDevice p l h).2 ⊆ held h;
  rl_acl acl h : held (applyOverlayACL acl h).2 ⊆ held h;
  rl_nat c h : held (rh_enableGatewayNAT c h).2 ⊆ {[RGatewayNat]} ∪ held h;
  rl_routes l b h : held (applyGatewayRoutes l b h).2 ⊆ held h;
  rl_exit_routes a v b h : held (applyExitRoutes a v b h).2 ⊆ held h;
  rl_exit_nat a n n6 b h : held (applyExitNodeNAT a n n6 b h).2 ⊆ held h
}.

(** Inclusions between unions and differences, one element at a time. *)
Ltac by_elem :=
  let x := fresh "x" in
  rewrite elem_of_subseteq; intros x;
  repeat match goal with Hs : _ ⊆ _ |- _ => rewrite elem_of_subseteq in Hs; specialize (Hs x) end;
  rewrite ?elem_of_union, ?elem_of_difference, ?elem_of_singleton, ?elem_of_empty in *; tauto.

(** A resource that its clean-up did not remove: the clean-up ran, the resource
    was still there, and only other clean-ups came after. *)
Definition stuck {H} `{RunHost H} (held : H → gset resource) (h' : H) (r : resource) : Prop :=
  ∃ h1, r ∈ held (undo r h1) ∧ rtc tidy (undo r h1) h'.
(** What an end may leave beyond what was there: [X], what a clean-up failed to
    remove, and part of the gateway's rules when enabling them failed. *)
Definition leaves {H} `{RunHost H} (held : H → gset resource) (X : gset resource) (h : H) (e : option string * H) : Prop :=
  ∀ r, r ∈ held e.2 →
    r ∈ X ∨ r ∈ held h ∨ (r = RGatewayNat ∧ e.1 = Some "gateway NAT") ∨ stuck held e.2 r.

Section ends.
Context {H : Type} `{RunHost H} (held : H → gset resource).
Lemma leaves_at X h h' e : held h' ⊆ X ∪ held h → leaves held X h (e, h').
Proof using. intros Hs r Hr. cbn [fst snd] in *. apply Hs, elem_of_union in Hr. tauto. Qed.
(** A deferred clean-up takes its resource off the account. *)
Lemma leaves_deferring X r (body : H → option string * H) h h' :
  (∀ h, held (undo r h) ⊆ held h) → leaves held ({[r]} ∪ X) h (body h') →
  leaves held X h (deferring (undo r) body h').
Proof using.
  intros Hc Hb. unfold deferring, leaves in *. destruct (body h') as [e h1]. cbn [fst snd] in *.
  intros x Hx. destruct (decide (x = r)) as [->|Hne]; [by do 3 right; exists h1|].
  destruct (Hb x (Hc _ _ Hx)) as [[?%elem_of_singleton|?]%elem_of_union|[?|[?|(h2 & ? & Ht)]]]; [done|by auto..|].
  do 3 right. exists h2. split; [done|]. eapply rtc_r; [exact Ht|by exists r].
Qed.
End ends.

Section facts.
Context {H : Type} `{!HostOps H} `{!RunHost H} (held : H → gset resource) {Laws : RunHostLaws H held}.
Context (initial : agentStartupState → option (list PeerConfig)).
Context (reporter : agentStartupState → bool) (session : agentStartupState → bool → bool → H → H).
Context (gatewayNATCIDRs : string).
(** While the agent runs it adds nothing but, possibly, its name servers. *)
Context (Hsession : ∀ s a b h, held (session s a b h) ⊆ {[RTakeover]} ∪ held h).

Lemma roles_leave s h : leaves held {[RTakeover]} h (run_roles reporter session gatewayNATCIDRs s h).
Proof using Laws Hsession.
  unfold run_roles. pose proof (rl_nat gatewayNATCIDRs h) as H1.
  destruct (rh_enableGatewayNAT gatewayNATCIDRs h) as [ok h1]. cbn [snd] in H1.
  destruct ok; cbn [negb].
  2:{ intros r [->%elem_of_singleton|?]%H1%elem_of_union; [|by auto]. right; right; left. done. }
  apply (leaves_deferring held _ RGatewayNat); [apply rl_undo|].
  pose proof (rl_routes (su_gatewayRoutes s) false h1) as H2.
  destruct (applyGatewayRoutes _ _ h1) as [[? ?] h2]. cbn [snd] in H2.
  pose proof (rl_exit_routes (su_exitNodePeer s) (bool_decide (su_overlayAddr6 s ≠ "")) false h2) as H3.
  destruct (applyExitRoutes _ _ _ h2) as [[? r3] h3]. cbn [snd] in H3.
  pose proof (rl_exit_nat (su_exitNodeActive s) (su_networkPrefix s) (su_networkPrefix6 s) false h3) as H4.
  destruct (applyExitNodeNAT _ _ _ _ h3) as [[? r4] h4]. cbn [snd] in H4.
  destruct (reporter s); apply leaves_at; [pose proof (Hsession s r3 r4 h4) as H5; clear -H1 H2 H3 H4 H5|clear -H1 H2 H3 H4];
    by_elem.
Qed.
Lemma setup_leaves addr addr6 dns h :
  held (setupInterface addr addr6 dns h).2 ⊆ {[RTakeover]} ∪ ({[RLink]} ∪ held h).
Proof using Laws.
  unfold setupInterface. pose proof (rl_create h) as H1. destruct (rh_createInterface h) as [ok h1]. cbn [snd] in H1.
  destruct ok; cbn [negb snd]; [|by_elem].
  pose proof (rl_assign addr h1) as H2. destruct (rh_assignIPAddress addr h1) as [ok h2]. cbn [snd] in H2.
  destruct ok; cbn [negb snd]; [|by_elem].
  assert (∀ r, r = (if decide (addr6 = "") then (true, h2) else rh_assignIPAddress addr6 h2) → held r.2 ⊆ held h2) as H3.
  { intros r ->. case_decide; [done|apply rl_assign]. }
  specialize (H3 _ eq_refl). destruct (if decide (addr6 = "") then _ else _) as [ok h3]. cbn [snd] in H3.
  destruct ok; cbn [negb snd]; [|by_elem].
  pose proof (rl_up h3) as H4. destruct (rh_bringInterfaceUp h3) as [ok h4]. cbn [snd] in H4.
  destruct ok; cbn [negb snd]; [|by_elem]. pose proof (rl_dns dns h4) as H5. destruct (dc_Enabled dns); by_elem.
Qed.
Lemma interface_leaves port s h :
  leaves held ({[RTakeover]} ∪ {[RLink]}) h (run_interface initial reporter session gatewayNATCIDRs port s h).
Proof using Laws Hsession.
  unfold run_interface. pose proof (setup_leaves (su_overlayAddr s) (su_overlayAddr6 s) (su_initialDNS s) h) as H1.
  destruct (setupInterface _ _ _ h) as [ok h1]. cbn [snd] in H1.
  destruct ok; cbn [negb]; [|apply leaves_at; by_elem]. cbn zeta.
  pose proof (rl_mss (bool_decide (su_overlayAddr6 s ≠ "")) h1) as H2. set (h2 := rh_enableMSSClamp _ h1) in *.
  apply (leaves_deferring held _ RMss); [apply rl_undo|].
  pose proof (rl_backend h2) as [H3 H3']. destruct (rh_newWGBackend h2) as [ok h3]. cbn [fst snd] in H3, H3'.
  destruct ok; cbn [negb]; [|specialize (H3' eq_refl); apply leaves_at; by_elem]. clear H3'.
  apply (leaves_deferring held _ RBackend); [apply rl_undo|].
  destruct (initial s) as [peers|]; [|apply leaves_at; by_elem].
  pose proof (rl_configure port peers h3) as H4. destruct (rh_ConfigureDevice port peers h3) as [ok h4]. cbn [snd] in H4.
  destruct ok; cbn [negb]; [|apply leaves_at; by_elem]. cbn zeta.
  set (h5 := match su_initialACL s with Some _ => _ | None => _ end).
  assert (held h5 ⊆ held h4) as H5 by (unfold h5; destruct (su_initialACL s); [apply rl_acl|done]).
  intros r Hr. destruct (roles_leave s h5 r Hr) as [H6|[H6|?]]; [|clear Hr|by auto].
  - left. clear -H6. set_solver.
  - assert (held h5 ⊆ {[RBackend]} ∪ ({[RMss]} ∪ ({[RTakeover]} ∪ {[RLink]})) ∪ held h) as H7 by (clear H6; by_elem).
    apply H7, elem_of_union in H6. tauto.
Qed.

End facts.

(** A host that is what is on it, where everything works. *)
#[export] Instance plain_ops : HostOps (gset resource) := {
  replaceIPAddress _ _ h := (true, h);
  applyDNSConfig _ h := (DnsApplied, {[RTakeover]} ∪ h);
  applyOverlayACL _ h := (true, h);
  refreshGatewayNAT _ h := (true, h);
  applyGatewayRoutes _ b h := (true, b, h);
  applyExitRoutes _ _ b h := (true, b, h);
  applyExitNodeNAT _ _ _ b h := (true, b, h)
}.
#[export] Instance plain_run : RunHost (gset resource) := {
  rh_privileged _ := true;
  rh_deleteInterface h := (true, h ∖ {[RLink]});
  rh_cleanupExitState h := h;
  rh_restoreResolvConf h := (true, h ∖ {[RTakeover]});
  rh_openFirewall _ h := {[RFirewall]} ∪ h;
  rh_closeFirewall h := h ∖ {[RFirewall]};
  rh_createInterface h := (true, {[RLink]} ∪ h);
  rh_assignIPAddress _ h := (true, h);
  rh_bringInterfaceUp h := (true, h);
  rh_enableMSSClamp _ h := {[RMss]} ∪ h;
  rh_disableMSSClamp h := h ∖ {[RMss]};
  rh_newWGBackend h := (true, {[RBackend]} ∪ h);
  rh_closeBackend h := h ∖ {[RBackend]};
  rh_ConfigureDevice _ _ h := (true, h);
  rh_enableGatewayNAT _ h := (true, {[RGatewayNat]} ∪ h);
  rh_disableGatewayNAT h := h ∖ {[RGatewayNat]}
}.
#[export] Instance plain_run_laws : RunHostLaws (gset resource) id.
Proof.
  split; intros; unfold id; try (destruct r); cbn [undo plain_ops plain_run rh_deleteInterface rh_cleanupExitState
    rh_restoreResolvConf rh_openFirewall rh_closeFirewall rh_createInterface rh_assignIPAddress rh_bringInterfaceUp
    rh_enableMSSClamp rh_disableMSSClamp rh_newWGBackend rh_closeBackend rh_ConfigureDevice rh_enableGatewayNAT
    rh_disableGatewayNAT applyDNSConfig applyOverlayACL applyGatewayRoutes applyExitRoutes applyExitNodeNAT fst snd];
    try split; try by_elem; done.
Qed.
Lemma plain_undo r (h : gset resource) : r ∉ undo r h.
Proof. destruct r; cbn; set_solver. Qed.
Definition ex_manual : agentStartupState :=
  mkStartup "10.0.0.1/24" "" [] [] false false "" None no_dns no_prefix no_prefix "" "" [] 0.

(** ** A report and its answer *)
Inductive post_answer : Type :=
| PostFailed
| PostStatus (status : Z) (sync : option ReportResponse).
Section reporting.
Context {D H : Type} `{WgBackend D} `{HostOps H}.
Context (ResolveUDPAddr ParseKey : string → option string) (directProbeOff : bool) (gatewayNATCIDRs : string).

(** [true]: the report was accepted, even if its answer could not be read. *)
Definition post (order : list PeerConfig → list PeerConfig) (now : Z) (answer : post_answer) (a : Agent D H)
  : bool * Agent D H :=
  match answer with
  | PostFailed => (false, a)
  | PostStatus status sync =>
      if negb (status =? 200) then (false, a)
      else match sync with
           | None => (true, a)
           | Some r => (true, applySync ResolveUDPAddr ParseKey directProbeOff gatewayNATCIDRs order now r a)
           end
  end.
(** [syncOnce(false)], the last sync of a stopping reporter: collect, send, apply.
    [server] answers the report. *)
Definition syncOnce_final (orderC : list PeerCounter → list PeerCounter) (orderF : list FlowRecord → list FlowRecord)
    (order : list PeerConfig → list PeerConfig) (now : Z) (device : option (list LinkPeer)) (dump : option (list ctFlow))
    (x : Extras) (events : list ProxyEvent) (server : ReportRequest → post_answer) (s : Reporter * Agent D H)
  : Reporter * Agent D H :=
  let '(t, a) := s in
  let t := collectFlows (ag_network a) (ag_network6 a) dump (collectLinkCounters now device t) in
  let '(ok, a) := post order now (server (send_report orderC orderF x events t)) a in
  (sent ok events t, a).
(** What the reporter takes back when it is told to stop, after a last report. *)
Definition reporter_teardown (a : Agent D H) : Agent D H :=
  let '(_, gw, h) := applyGatewayRoutes [] (ag_gatewayForwardOn a) (ag_host a) in
  let '(_, routes, h) := applyExitRoutes false false (ag_exitRoutesOn a) h in
  let '(_, nat, h) := applyExitNodeNAT false (ag_network a) (ag_network6 a) (ag_exitNATOn a) h in
  set_host h gw routes nat a.
End reporting.

(** ** The signalling connection *)
Definition signalReconnectMin : Z := 2 * Second.
Definition signalReconnectMax : Z := 30 * Second.
Definition nextSignalBackoff (d : Z) : Z := if signalReconnectMax <? d * 2 then signalReconnectMax else d * 2.
(** Each attempt either connects (and is disconnected later) or not; the waits
    between attempts. *)
Fixpoint runSignal (backoff : Z) (attempts : list bool) : list Z :=
  match attempts with
  | [] => []
  | connected :: attempts =>
      let backoff := if connected : bool then signalReconnectMin else backoff in
      backoff :: runSignal (nextSignalBackoff backoff) attempts
  end.
(** The [type] of a message: the other named fields must be texts, the payload can
    be anything. *)
Fixpoint message_type (ms : list (list Z * J)) (old : string) : option string :=
  match ms with
  | [] => Some old
  | (k, v) :: ms =>
      if key_is "type" k then
        match v with
        | JNull => message_type ms old
        | JStr s => message_type ms (string_of_bytes s)
        | _ => None
        end
      else if key_is "from" k || key_is "to" k || key_is "at" k then
        match v with JNull | JStr _ => message_type ms old | _ => None end
      else message_type ms old
  end.
Definition asks_sync (text : string) : bool :=
  match parse_json text with
  | Some (JObj ms) => bool_decide (message_type ms "" = Some "sync-now")
  | _ => false
  end.
(** How many syncs the frames of a connection cause; [true] is a text frame. *)
Definition readSignal (frames : list (bool * string)) : nat :=
  length (filter (λ f : bool * string, f.1 && asks_sync f.2 = true) frames).

(** The waits stay between two and thirty seconds, and after a connection the
    first one is two seconds. *)
Lemma signal_waits attempts : ∀ b, signalReconnectMin ≤ b ≤ signalReconnectMax →
  Forall (λ w, signalReconnectMin ≤ w ≤ signalReconnectMax) (runSignal b attempts)
  ∧ ∀ n, attempts !! n = Some true → runSignal b attempts !! n = Some signalReconnectMin.
Proof.
  assert (∀ b, signalReconnectMin ≤ b ≤ signalReconnectMax →
    signalReconnectMin ≤ nextSignalBackoff b ≤ signalReconnectMax) as Hnext.
  { unfold nextSignalBackoff, signalReconnectMin, signalReconnectMax, Second, Millisecond. intros b Hb. case_match; lia. }
  assert (signalReconnectMin ≤ signalReconnectMin ≤ signalReconnectMax) as Hmin.
  { unfold signalReconnectMin, signalReconnectMax, Second, Millisecond. lia. }
  induction attempts as [|[] attempts IH]; intros b Hb; [done| |]; cbn [runSignal].
  - destruct (IH (nextSignalBackoff signalReconnectMin) (Hnext _ Hmin)) as [H1 H2].
    split; [by constructor|]. intros [|n] Hn; [done|by apply H2].
  - destruct (IH (nextSignalBackoff b) (Hnext _ Hb)) as [H1 H2].
    split; [by constructor|]. intros [|n] Hn; [done|by apply H2].
Qed.

(** ** Loose ends *)

(** Forwarding rules that the runner installs before the reporter exists are not
    handed over to it: when the assignment is gone by the first sync, neither that
    sync nor the end of the reporter removes them. *)
Definition forward_rules (h : Plain) : list rule := default [] (ipt_view h !! ("iptables", "filter", "FORWARD")).
Lemma gateway_forward_not_handed_over :
  match applyGatewayRoutes_linux 10 "wg-int" ["100.64.0.9/32"] false ex_host with
  | Some (ok, _, h) =>
      ok = true ∧ ag_gatewayForwardOn (reporter_agent ex_manual false false tt h) = false
      ∧ match applyGatewayRoutes_linux 10 "wg-int" [] false h with
        | Some (_, _, h') => Forall (λ r, tail r ∈ forward_rules h') (gatewayForwardRules "wg-int")
        | None => False
        end
  | None => False
  end.
Proof.
  vm_compute. split_and!; [reflexivity|reflexivity|].
  repeat first [apply Forall_nil_2|apply Forall_cons_2|apply list_elem_of_here|apply list_elem_of_further].
Qed.

(** When the masquerading rule cannot be installed, the forwarding rules that went
    in before it stay. *)
Lemma gateway_nat_half_installed :
  match enableGatewayNAT "wg-int" "192.168.7.0/24" (mkPlain {[("iptables", "filter", "FORWARD") := []]} (mkNet ∅ ∅) ∅) with
  | (ok, h) => ok = false ∧ length (forward_rules h) = 2%nat
  end.
Proof. vm_compute. split; reflexivity. Qed.

(** The runner does not wait for the reporter: its last sync can push the name
    servers after they were taken back. *)
Lemma takeover_after_shutdown :
  let t : gmap string string := foldl dns_step {[resolvConfPath := line "nameserver 9.9.9.9"]}
                                  [ex_push; RestoreDns dnsModeAuto; ex_push] in
  ours (default "" (t !! resolvConfPath)) = true.
Proof. vm_compute. reflexivity. Qed.
