(* ===== verification/Stun.v ===== *)
(** * The mesh's own STUN servers

    internal/relay/stun.go: binding requests are answered with the address they
    came from, on two ports ([NewSTUNResponder], [serveSTUN],
    [stunBindingResponse]); together with the agent's side (NatCheck) they tell
    what kind of NAT an agent is behind.

    Messages are read and built by the pion/stun module: [IsRequest] gives the
    transaction of a datagram that is a well-formed binding request (IsMessage,
    Decode and the comparison of the type), [BuildResponse] the success response,
    [BuildRequest] the agent's request and [Decode] what the agent reads from a
    response. *)
From S2P Require Import Prelude GoText NetAddr NetFacts HostPort NumText Sha256 Json Candidates LocalCandidates NatCheck.

Class StunCodec : Type := {
  IsRequest : list Z → option (list Z);
  BuildRequest : list Z → list Z;
  BuildResponse : list Z → AddrPort → option (list Z);
  Decode : list Z → option (list Z * option (list Z * Z))
}.
(** What the module's documentation says of them, for addresses and ports of the
    wire: a request and a response are read back; an IPv4 address may come back
    in either of its forms. *)
Definition wire_addr (a : AddrPort) : Prop :=
  0 ≤ ap_Port a < 2 ^ 16
  ∧ match ap_Addr a with
    | NoAddr => False
    | V4 z => 0 ≤ z < 2 ^ 32
    | V6 z zone => 0 ≤ z < 2 ^ 128 ∧ zone = ""
    end.
Class StunLaws `{StunCodec} : Prop := {
  request_read tx : IsRequest (BuildRequest tx) = Some tx;
  response_built tx a : wire_addr a → ∃ pkt raw addr,
    BuildResponse tx a = Some pkt ∧ Decode pkt = Some (tx, Some (raw, ap_Port a))
    ∧ AddrFromSlice raw = Some addr ∧ Unmap addr = Unmap (ap_Addr a)
}.

(** ** The responder *)

(** The ports that are bound; [bind] says which can be. *)
Definition NewSTUNResponder (bind : Z → bool) (port : Z) : option (list Z) :=
  if (port <=? 0) || (65535 <? port + 1) then None
  else if bind port && bind (port + 1) then Some [port; port + 1] else None.
Definition stunBindingResponse `{StunCodec} (pkt : list Z) (src : AddrPort) : option (list Z) :=
  match IsRequest pkt with None => None | Some tx => BuildResponse tx src end.
(** The datagrams sent for those received, each with the address it came from;
    [pkt] is cut to 1500 bytes. *)
Definition serveSTUN `{StunCodec} (received : list (AddrPort * list Z)) : list (AddrPort * list Z) :=
  omap (λ r, pair r.1 <$> stunBindingResponse (take 1500 r.2) r.1) received.

(** ** An agent behind a NAT *)
Section nat.
Context `{Codec : StunCodec} {Laws : StunLaws}.

(** A NAT gives the agent's socket an address towards each server; the server
    answers the request it sees from there. *)
Definition answered (nat : string → AddrPort) (tx : list Z) (server : string) : list (list Z) :=
  snd <$> serveSTUN [(nat server, BuildRequest tx)].
(** Datagrams that are not an answer to the query. *)
Definition unrelated (tx : list Z) (pkts : list (list Z)) : Prop :=
  Forall (λ p, match Decode p with Some (tx', _) => tx' ≠ tx | None => True end) pkts.

Lemma stun_answer_skip tx junk rest : unrelated tx junk → stun_answer Decode tx (junk ++ rest) = stun_answer Decode tx rest.
Proof using.
  induction 1 as [|p junk Hp _ IH]; [done|]. cbn [app stun_answer]. destruct (Decode p) as [[tx' m]|]; [|done].
  by rewrite decide_False.
Qed.
Lemma answer_read nat tx server rest : wire_addr (nat server) → (length (BuildRequest tx) ≤ 1500)%nat →
  stun_answer Decode tx (answered nat tx server ++ rest)
  = Some (mkAddrPort (Unmap (ap_Addr (nat server))) (ap_Port (nat server))).
Proof using Laws.
  intros Hw Hl. unfold answered, serveSTUN, stunBindingResponse. cbn [omap list_omap fst snd].
  rewrite take_ge by done. rewrite request_read. destruct (response_built tx (nat server) Hw) as (pkt & raw & addr & -> & Hd & Ha & Hu).
  cbn [fmap option_fmap option_map list_fmap app stun_answer snd]. rewrite Hd, decide_True by done.
  rewrite bind_Some, Ha, bind_Some, Hu. unfold u16. rewrite Z.mod_small by apply Hw. done.
Qed.

(** The NAT check tells the truth about the NAT: when the two STUN servers of
    the mesh answer, with whatever else arrives before and after their answers,
    the agent learns the address its NAT gives it towards the first server, and
    calls the NAT easy exactly when it gives the same address towards both; with
    one server it does not judge. *)
Theorem nat_classified (w : Wire) (nat : string → AddrPort) tx1 tx2 s1 s2 junk1 late1 junk2 late2 :
  wi_bind w "udp4" 0 = true →
  Forall (λ s, wi_resolve w "udp4" s = true ∧ wi_send w "udp4" s = true ∧ wire_addr (nat s)) [s1; s2] →
  Forall (λ tx, length (BuildRequest tx) ≤ 1500)%nat [tx1; tx2] →
  unrelated tx1 junk1 → unrelated tx2 junk2 →
  wi_inbox w "udp4" 0 s1 = junk1 ++ answered nat tx1 s1 ++ late1 →
  wi_inbox w "udp4" 0 s2 = junk2 ++ answered nat tx2 s2 ++ late2 →
  let seen s := mkAddrPort (Unmap (ap_Addr (nat s))) (ap_Port (nat s)) in
  checkNAT Decode w tx1 tx2 [s1; s2] = Some (seen s1, if decide (seen s1 = seen s2) then "easy" else "hard")
  ∧ checkNAT Decode w tx1 tx2 [s1] = Some (seen s1, "").
Proof using Laws.
  intros Hb Hs Htx Hj1 Hj2 Hi1 Hi2 seen. apply Forall_cons in Hs as [(Hr1 & Hs1 & Hw1) Hs].
  apply Forall_cons in Hs as [(Hr2 & Hs2 & Hw2) _]. apply Forall_cons in Htx as [Hl1 Htx]. apply Forall_cons in Htx as [Hl2 _].
  assert (stunQueryFamily Decode w tx1 "udp4" 0 s1 = Some (seen s1)) as E1.
  { unfold stunQueryFamily. rewrite Hr1, Hs1, Hi1. cbn [andb]. rewrite stun_answer_skip by done. by apply answer_read. }
  assert (stunQueryFamily Decode w tx2 "udp4" 0 s2 = Some (seen s2)) as E2.
  { unfold stunQueryFamily. rewrite Hr2, Hs2, Hi2. cbn [andb]. rewrite stun_answer_skip by done. by apply answer_read. }
  unfold checkNAT. rewrite Hb. cbn [negb]. rewrite E1, bind_Some, E2. done.
Qed.
End nat.

(** A codec for the example: a tag, the transaction and, in a response, the
    address. *)
Definition addr_bytes (a : Addr) : list Z :=
  match a with NoAddr => [] | V4 z => be_bytes 4 z | V6 z _ => be_bytes 16 z end.
#[export] Instance ex_codec : StunCodec := {
  IsRequest pkt := match pkt with 1 :: tx => Some tx | _ => None end;
  BuildRequest tx := 1 :: tx;
  BuildResponse tx a := Some (2 :: ap_Port a :: Z.of_nat (length (addr_bytes (ap_Addr a))) :: addr_bytes (ap_Addr a) ++ tx);
  Decode pkt := match pkt with
                | 2 :: p :: n :: rest => Some (drop (Z.to_nat n) rest, Some (take (Z.to_nat n) rest, p))
                | _ => None
                end
}.
Lemma be_cons b l : be (b :: l) = b * 2 ^ (8 * Z.of_nat (length l)) + be l.
Proof.
  unfold be. cbn [foldl]. rewrite Z.add_0_l.
  assert (∀ acc, foldl (λ a b, 256 * a + b) acc l = acc * 2 ^ (8 * Z.of_nat (length l)) + foldl (λ a b, 256 * a + b) 0 l) as ->.
  { induction l as [|x l IH]; intros acc; cbn [foldl length]; [lia|]. rewrite (IH (256 * acc + x)), (IH (256 * 0 + x)).
    replace (8 * Z.of_nat (S (length l))) with (8 + 8 * Z.of_nat (length l)) by lia.
    rewrite Z.pow_add_r by lia. change (2 ^ 8) with 256. ring. }
  done.
Qed.
Lemma be_bytes_S n z : be_bytes (S n) z = z / 2 ^ (8 * Z.of_nat n) mod 256 :: be_bytes n z.
Proof. unfold be_bytes. rewrite seq_S, rev_app_distr. done. Qed.
Lemma be_bytes_mod n z : 0 ≤ z → be (be_bytes n z) = z mod 2 ^ (8 * Z.of_nat n).
Proof.
  intros Hz. induction n as [|n IH]; [by rewrite Z.mod_1_r|].
  rewrite be_bytes_S, be_cons, IH. unfold be_bytes at 1. rewrite length_fmap, length_rev, length_seq.
  replace (8 * Z.of_nat (S n)) with (8 * Z.of_nat n + 8) by lia. rewrite Z.pow_add_r by lia. change (2 ^ 8) with 256.
  rewrite Z.rem_mul_r by lia. lia.
Qed.
Lemma addr_back a : (match a with NoAddr => False | V4 z => 0 ≤ z < 2 ^ 32 | V6 z zone => 0 ≤ z < 2 ^ 128 ∧ zone = "" end) →
  AddrFromSlice (addr_bytes a) = Some a.
Proof.
  assert (∀ n z, length (be_bytes n z) = n) as Hl by (intros; unfold be_bytes; by rewrite length_fmap, length_rev, length_seq).
  unfold AddrFromSlice. destruct a as [|z|z zone]; [done| |]; cbn [addr_bytes]; rewrite Hl.
  - intros Hz. rewrite decide_True, be_bytes_mod, Z.mod_small by (try done; lia). done.
  - intros [Hz ->]. rewrite decide_False, decide_True, be_bytes_mod, Z.mod_small by (try done; lia). done.
Qed.
#[export] Instance ex_stun_laws : StunLaws.
Proof.
  split; [done|]. intros tx a [_ Ha]. eexists _, (addr_bytes (ap_Addr a)), (ap_Addr a). split; [reflexivity|].
  cbn [Decode ex_codec]. rewrite Nat2Z.id, drop_app_length, take_app_length. split; [done|]. split; [by apply addr_back|done].
Qed.

Definition ex_nat (server : string) : AddrPort := mkAddrPort (V4 3405803783) (if decide (server = "a") then 4001 else 4002).
Definition ex_stun_wire : Wire :=
  mkWire (λ _ _, true) (λ _ _, true) (λ _ _, true)
    (λ _ _ s, [7; 7] :: answered ex_nat (if decide (s = "a") then [1] else [2]) s).
Lemma nat_classified_witness :
  checkNAT Decode ex_stun_wire [1] [2] ["a"; "b"] = Some (mkAddrPort (V4 3405803783) 4001, "hard").
Proof.
  refine (proj1 (nat_classified ex_stun_wire ex_nat [1] [2] "a" "b" [[7; 7]] [] [[7; 7]] [] _ _ _ _ _ _ _)).
  - reflexivity.
  - repeat constructor; vm_compute; try reflexivity; discriminate.
  - repeat constructor; simpl; lia.
  - by repeat constructor.
  - by repeat constructor.
  - by rewrite app_nil_r.
  - by rewrite app_nil_r.
Defined.
