(* ===== verification/Migrate.v ===== *)
(** * The database file

    internal/store/store.go, [Open] and [ensureSchema]: the base schema
    (schema.sql), the seventeen migrations, and the loop that brings a database
    of any version to the current one.  The statements are values of a small
    language; [exec] is what SQLite does with one, on tables whose rows are maps
    from column names to values.  Every statement commits on its own: the program
    runs them outside a transaction.  A statement fails for the reasons SQLite
    has in its schema (a name that is taken or missing, a column that may not be
    added), not for want of disk.

    [records_conform] says that the records of Schema.v are rows of these tables. *)
From S2P Require Import Prelude GoText NetAddr Schema.

(** ** Statements *)
Inductive Value : Type := VNull | VInt (z : Z) | VText (s : string).
#[export] Instance Value_eq_dec : EqDecision Value.
Proof. solve_decision. Defined.
Inductive coltype : Type := INTEGER | TEXT.
Inductive action : Type := CASCADE | SET_NULL | RESTRICT.
(** [DefNow] is strftime('%Y-%m-%dT%H:%M:%fZ', 'now'). *)
Inductive default_value : Type := NoDefault | DefInt (z : Z) | DefText (s : string) | DefNow.
Record Column : Type := mkColumn {
  c_name : string; c_type : coltype; c_notnull : bool; c_default : default_value;
  c_unique : bool; c_primary : bool; c_references : option (string * action)
}.
Inductive check : Type :=
| NullOrAtLeast (c : string) (z : Z)
| AtLeast (c : string) (z : Z)
| NullOrAtMost (c bound : string)
| NullOrBetween (c : string) (lo hi : Z).
Record Table : Type := mkTable { t_columns : list Column; t_key : list string; t_checks : list check }.
(** [i_set]: only rows where the column is not NULL. *)
Record Index : Type := mkIndex { i_table : string; i_column : string; i_unique : bool; i_set : bool }.

(** [MarkStatic]: the UPDATE of version 12. *)
Inductive statement : Type :=
| CreateTable (name : string) (t : Table)
| AddColumn (table : string) (c : Column)
| CreateIndex (name : string) (i : Index)
| MarkStatic.

Abbreviation row := (gmap string Value).
Record Database : Type := mkDatabase {
  d_tables : gmap string Table; d_indexes : gmap string Index; d_rows : gmap string (list row); d_version : Z
}.

(** ** SQLite *)
Definition column_names (t : Table) : list string := c_name <$> t_columns t.
(** The value existing rows get: a NOT NULL column must have one, a reference
    must be NULL, and neither UNIQUE, PRIMARY KEY nor a computed default is
    possible in ALTER TABLE. *)
Definition added_value (c : Column) : option Value :=
  if c_unique c || c_primary c then None
  else match c_default c with
       | DefNow => None
       | NoDefault => if c_notnull c then None else Some VNull
       | DefInt z => if decide (c_references c = None) then Some (VInt z) else None
       | DefText s => if decide (c_references c = None) then Some (VText s) else None
       end.
Definition name_taken (name : string) (d : Database) : bool :=
  bool_decide (is_Some (d_tables d !! name)) || bool_decide (is_Some (d_indexes d !! name)).
Definition rows_of (t : string) (d : Database) : list row := default [] (d_rows d !! t).
Definition column_values (c : string) (rs : list row) : list Value :=
  filter (λ v, v ≠ VNull) ((λ r : row, default VNull (r !! c)) <$> rs).
(** [x LIKE 'static peer%']; LIKE ignores the case of ASCII letters. *)
Definition like_static (v : Value) : bool :=
  match v with
  | VText s => bool_decide (is_Some (CutPrefix (text (lower1 <$> chars s)) "static peer"))
  | _ => false
  end.
Definition static_keys (d : Database) : list Value :=
  (λ r : row, default VNull (r !! "id"))
    <$> filter (λ r : row, like_static (default VNull (r !! "name")) = true) (rows_of "setup_keys" d).
Definition mark_static (ids : list Value) (r : row) : row :=
  if decide (default VNull (r !! "setup_key_id") ∈ ids ∧ default VNull (r !! "setup_key_id") ≠ VNull)
  then <["peer_type" := VText "static"]> r else r.

Definition exec (s : statement) (d : Database) : option Database :=
  match s with
  | CreateTable name t =>
      if name_taken name d then None
      else Some (mkDatabase (<[name := t]> (d_tables d)) (d_indexes d) (<[name := []]> (d_rows d)) (d_version d))
  | AddColumn table c =>
      t ← d_tables d !! table;
      if decide (c_name c ∈ column_names t) then None
      else
        v ← added_value c;
        Some (mkDatabase (<[table := mkTable (t_columns t ++ [c]) (t_key t) (t_checks t)]> (d_tables d)) (d_indexes d)
                (alter (fmap (<[c_name c := v]>)) table (d_rows d)) (d_version d))
  | CreateIndex name i =>
      t ← d_tables d !! i_table i;
      if name_taken name d || bool_decide (i_column i ∉ column_names t) then None
      else if i_unique i && negb (bool_decide (NoDup (column_values (i_column i) (rows_of (i_table i) d)))) then None
      else Some (mkDatabase (d_tables d) (<[name := i]> (d_indexes d)) (d_rows d) (d_version d))
  | MarkStatic =>
      Some (mkDatabase (d_tables d) (d_indexes d) (alter (fmap (mark_static (static_keys d))) "peers" (d_rows d))
              (d_version d))
  end.
(** [db.Exec] of several statements: up to the first that fails. *)
Fixpoint exec_all (l : list statement) (d : Database) : bool * Database :=
  match l with
  | [] => (true, d)
  | s :: l => match exec s d with Some d => exec_all l d | None => (false, d) end
  end.
Definition set_version (v : Z) (d : Database) : Database :=
  mkDatabase (d_tables d) (d_indexes d) (d_rows d) v.

(** ** The schema *)
Definition plain_col (n : string) (t : coltype) : Column := mkColumn n t false NoDefault false false None.
Definition notnull (c : Column) : Column :=
  mkColumn (c_name c) (c_type c) true (c_default c) (c_unique c) (c_primary c) (c_references c).
Definition with_default (v : default_value) (c : Column) : Column :=
  mkColumn (c_name c) (c_type c) (c_notnull c) v (c_unique c) (c_primary c) (c_references c).
Definition unique (c : Column) : Column :=
  mkColumn (c_name c) (c_type c) (c_notnull c) (c_default c) true (c_primary c) (c_references c).
Definition primary_key (c : Column) : Column :=
  mkColumn (c_name c) (c_type c) (c_notnull c) (c_default c) (c_unique c) true (c_references c).
Definition references (t : string) (a : action) (c : Column) : Column :=
  mkColumn (c_name c) (c_type c) (c_notnull c) (c_default c) (c_unique c) (c_primary c) (Some (t, a)).
Definition int (n : string) : Column := plain_col n INTEGER.
Definition txt (n : string) : Column := plain_col n TEXT.
Definition id_column : Column := primary_key (int "id").
Definition peer_ref (n : string) : Column := references "peers" CASCADE (int n).
Definition index_on (t c : string) : Index := mkIndex t c false false.

Definition schemaSQL : list statement :=
  [CreateTable "setup_keys" (mkTable
     [id_column; unique (notnull (txt "key")); with_default DefNow (notnull (txt "created_at")); txt "expires_at";
      txt "revoked_at"; int "max_uses"; with_default (DefInt 0) (notnull (int "uses_consumed"))] []
     [NullOrAtLeast "max_uses" 0; AtLeast "uses_consumed" 0; NullOrAtMost "uses_consumed" "max_uses"]);
   CreateTable "peers" (mkTable
     [id_column; unique (notnull (txt "public_key")); unique (notnull (txt "assigned_ip")); txt "hostname";
      int "listen_port"; txt "last_seen_at"; with_default DefNow (notnull (txt "created_at")); txt "revoked_at";
      references "setup_keys" RESTRICT (notnull (int "setup_key_id"))] []
     [NullOrBetween "listen_port" 1 65535]);
   CreateIndex "idx_peers_setup_key_id" (index_on "peers" "setup_key_id");
   CreateIndex "idx_peers_last_seen_at" (index_on "peers" "last_seen_at");
   CreateIndex "idx_setup_keys_expires_at" (index_on "setup_keys" "expires_at")].

Definition migrationV2 : list statement :=
  [AddColumn "peers" (txt "auth_token_hash");
   CreateIndex "idx_peers_auth_token_hash" (index_on "peers" "auth_token_hash");
   CreateTable "link_stats" (mkTable
     [notnull (peer_ref "peer_id"); notnull (peer_ref "remote_peer_id");
      with_default (DefInt 0) (notnull (int "rx_bytes")); with_default (DefInt 0) (notnull (int "tx_bytes"));
      txt "last_handshake_at"; notnull (txt "updated_at")] ["peer_id"; "remote_peer_id"] []);
   CreateTable "flows" (mkTable
     [id_column; notnull (peer_ref "peer_id"); notnull (int "protocol"); notnull (txt "src_ip"); notnull (int "src_port");
      notnull (txt "dst_ip"); notnull (int "dst_port"); notnull (int "tx_bytes"); notnull (int "rx_bytes");
      notnull (int "tx_packets"); notnull (int "rx_packets"); notnull (txt "reported_at")] [] []);
   CreateIndex "idx_flows_reported_at" (index_on "flows" "reported_at");
   CreateIndex "idx_flows_peer_id" (index_on "flows" "peer_id")].
Definition migrationV3 : list statement :=
  [AddColumn "peers" (txt "observed_ip"); AddColumn "peers" (txt "public_endpoint")].
Definition migrationV4 : list statement :=
  [CreateTable "acl_rules" (mkTable
     [id_column; peer_ref "src_peer_id"; peer_ref "dst_peer_id"; with_default DefNow (notnull (txt "created_at"))] [] [])].
Definition migrationV5 : list statement :=
  [AddColumn "peers" (txt "auth_token_issued_at");
   CreateTable "audit_log" (mkTable
     [id_column; with_default DefNow (notnull (txt "at")); notnull (txt "event");
      references "peers" SET_NULL (int "peer_id"); txt "overlay_ip"; txt "remote_ip"; txt "forwarded_for";
      txt "user_agent"; txt "method"; txt "path"; int "status"; txt "detail"] [] []);
   CreateIndex "idx_audit_log_at" (index_on "audit_log" "at");
   CreateIndex "idx_audit_log_event" (index_on "audit_log" "event");
   CreateIndex "idx_audit_log_peer" (index_on "audit_log" "peer_id")].
Definition migrationV6 : list statement :=
  [AddColumn "peers" (txt "assigned_ip6");
   CreateIndex "idx_peers_assigned_ip6" (mkIndex "peers" "assigned_ip6" true true)].
Definition migrationV7 : list statement :=
  [CreateTable "settings" (mkTable [primary_key (txt "key"); notnull (txt "value")] [] [])].
Definition migrationV8 : list statement :=
  [CreateTable "peer_paths" (mkTable
     [notnull (peer_ref "peer_id"); notnull (peer_ref "remote_peer_id"); notnull (txt "state"); txt "endpoint";
      notnull (txt "updated_at")] ["peer_id"; "remote_peer_id"] [])].
Definition migrationV9 : list statement :=
  [AddColumn "setup_keys" (txt "name"); AddColumn "acl_rules" (txt "name");
   AddColumn "acl_rules" (with_default (DefText "any") (notnull (txt "protocol")));
   AddColumn "acl_rules" (int "port_min"); AddColumn "acl_rules" (int "port_max")].
Definition migrationV10 : list statement :=
  [CreateTable "connection_events" (mkTable
     [id_column; with_default DefNow (notnull (txt "at")); notnull (peer_ref "reporter_peer_id");
      notnull (peer_ref "remote_peer_id"); notnull (txt "kind"); txt "from_state"; notnull (txt "to_state")] [] []);
   CreateIndex "idx_connection_events_at" (index_on "connection_events" "at")].
Definition migrationV11 : list statement :=
  [CreateTable "proxy_events" (mkTable
     [id_column; references "peers" SET_NULL (int "peer_id"); notnull (txt "at"); txt "method"; txt "host"; txt "path";
      int "status"; int "duration_ms"; int "req_bytes"; int "resp_bytes"; txt "client_ip"; txt "service"] [] []);
   CreateIndex "idx_proxy_events_at" (index_on "proxy_events" "at")].
Definition migrationV12 : list statement :=
  [AddColumn "peers" (with_default (DefText "agent") (notnull (txt "peer_type"))); MarkStatic].
Definition migrationV13 : list statement :=
  [AddColumn "peers" (references "peers" SET_NULL (int "gateway_peer_id"))].
Definition migrationV14 : list statement :=
  [CreateTable "users" (mkTable
     [id_column; unique (notnull (txt "username")); with_default (DefText "") (notnull (txt "password_hash"));
      with_default (DefText "local") (notnull (txt "auth_source")); with_default (DefInt 0) (notnull (int "session_epoch"));
      notnull (txt "created_at"); notnull (txt "updated_at")] [] [])].
Definition migrationV15 : list statement :=
  [AddColumn "peers" (txt "private_key_enc"); AddColumn "peers" (txt "gateway_endpoint")].
Definition migrationV16 : list statement :=
  [AddColumn "peers" (txt "candidates"); AddColumn "peers" (txt "nat_type")].
Definition migrationV17 : list statement :=
  [AddColumn "peers" (with_default (DefInt 0) (notnull (int "advertise_exit_node")));
   AddColumn "peers" (references "peers" SET_NULL (int "exit_node_peer_id"))].
Definition migrationV18 : list statement :=
  [AddColumn "peers" (txt "agent_version")].

Definition schemaVersion : Z := 18.
Definition migrations : gmap Z (list statement) :=
  list_to_map (zip (seqZ 2 17)
    [migrationV2; migrationV3; migrationV4; migrationV5; migrationV6; migrationV7; migrationV8; migrationV9;
     migrationV10; migrationV11; migrationV12; migrationV13; migrationV14; migrationV15; migrationV16; migrationV17;
     migrationV18]).

(** ** Opening *)

(** The loop over the missing versions. *)
Fixpoint upgrade (vs : list Z) (d : Database) : bool * Database :=
  match vs with
  | [] => (true, d)
  | v :: vs =>
      match migrations !! v with
      | None => (false, d)
      | Some sql =>
          let '(ok, d) := exec_all sql d in
          if ok then upgrade vs (set_version v d) else (false, d)
      end
  end.
Definition ensureSchema (d : Database) : bool * Database :=
  let '(ok, d) :=
    if d_version d =? 0 then
      let '(ok, d) := if decide (is_Some (d_tables d !! "peers")) then (true, d) else exec_all schemaSQL d in
      if ok then (true, set_version 1 d) else (false, d)
    else (true, d) in
  if negb ok then (false, d)
  else upgrade (seqZ (d_version d + 1) (schemaVersion - d_version d)) d.

(** [os.Chmod(f, 0600)] of the file and its sidecars; a missing one is skipped.
    [refused]: the files whose mode cannot be changed. *)
Fixpoint secure_files (refused : string → bool) (fs : list string) (modes : gmap string Z) : bool * gmap string Z :=
  match fs with
  | [] => (true, modes)
  | f :: fs =>
      match modes !! f with
      | None => secure_files refused fs modes
      | Some _ => if refused f then (false, modes) else secure_files refused fs (<[f := 384]> modes)
      end
  end.
Definition secureDBFiles (refused : string → bool) (path : string) : gmap string Z → bool * gmap string Z :=
  secure_files refused [path; path +:+ "-wal"; path +:+ "-shm"].
(** [Open]: the network of the store, or none on an error. *)
Definition store_Open (refused : string → bool) (path : string) (network : Prefix) (modes : gmap string Z) (d : Database)
  : option Prefix * gmap string Z * Database :=
  let '(ok, d) := ensureSchema d in
  if negb ok then (None, modes, d)
  else
    let '(ok, modes) := secureDBFiles refused path modes in
    if negb ok then (None, modes, d) else (Some (Masked network), modes, d).

Definition fresh : Database := mkDatabase ∅ ∅ ∅ 0.
Example fresh_opens : (ensureSchema fresh).1 = true.
Proof. vm_compute. reflexivity. Qed.

(** ** What a database of a version is *)
Definition value_ok (c : Column) (v : Value) : Prop :=
  match v with VNull => c_notnull c = false | VInt _ => c_type c = INTEGER | VText _ => c_type c = TEXT end.
Definition check_columns (k : check) : list string :=
  match k with
  | NullOrAtLeast c _ | AtLeast c _ | NullOrBetween c _ _ => [c]
  | NullOrAtMost c b => [c; b]
  end.
(** A CHECK holds unless it is false: a NULL passes. *)
Definition check_ok (r : row) (k : check) : Prop :=
  match k with
  | NullOrAtLeast c z | AtLeast c z => match r !! c with Some (VInt x) => z ≤ x | _ => True end
  | NullOrAtMost c b => match r !! c, r !! b with Some (VInt x), Some (VInt m) => x ≤ m | _, _ => True end
  | NullOrBetween c lo hi => match r !! c with Some (VInt x) => lo ≤ x ≤ hi | _ => True end
  end.
Record row_ok (t : Table) (r : row) : Prop := {
  row_values : Forall (λ c, ∃ v, r !! c_name c = Some v ∧ value_ok c v) (t_columns t);
  row_names : ∀ c, is_Some (r !! c) → c ∈ column_names t;
  row_checks : Forall (λ k, Forall (.∈ column_names t) (check_columns k) ∧ check_ok r k) (t_checks t)
}.
(** Every table has its rows. *)
Definition conform (d : Database) : Prop :=
  (∀ n t, d_tables d !! n = Some t → ∃ rs, d_rows d !! n = Some rs ∧ Forall (row_ok t) rs)
  ∧ (∀ n, is_Some (d_rows d !! n) → is_Some (d_tables d !! n)).
(** Nothing stored is changed or lost. *)
Definition kept (d d' : Database) : Prop :=
  ∀ n rs, d_rows d !! n = Some rs → ∃ rs', d_rows d' !! n = Some rs' ∧ Forall2 (⊆) rs rs'.
Definition same_schema (d e : Database) : Prop := d_tables d = d_tables e ∧ d_indexes d = d_indexes e.
(** The schema of version [n + 1]. *)
Fixpoint schema_at (n : nat) : Database :=
  match n with
  | O => (exec_all schemaSQL fresh).2
  | S m => (exec_all (default [] (migrations !! (Z.of_nat m + 2))) (schema_at m)).2
  end.
Definition at_version (n : nat) (d : Database) : Prop :=
  d_version d = Z.of_nat n + 1 ∧ same_schema d (schema_at n) ∧ conform d.
(** Peers are static when their setup key is named so. *)
Definition marked (d : Database) : Prop :=
  Forall (λ r : row, r !! "peer_type" = Some (VText
    (if decide (default VNull (r !! "setup_key_id") ∈ static_keys d) then "static" else "agent"))) (rows_of "peers" d).

(** ** One statement *)

(** The default of a column has its type. *)
Definition typed (c : Column) : bool :=
  match c_default c, c_type c with DefInt _, TEXT | DefText _, INTEGER => false | _, _ => true end.
(** Statements that succeed whatever the tables contain. *)
Definition regular (s : statement) : bool :=
  match s with
  | CreateTable _ _ => true
  | AddColumn _ c => typed c
  | CreateIndex _ i => negb (i_unique i)
  | MarkStatic => false
  end.

#[export] Instance kept_preorder : PreOrder kept.
Proof.
  split.
  - intros d n rs H. exists rs. split; [done|]. reflexivity.
  - intros a b c Hab Hbc n rs H. apply Hab in H as (rs' & H & H1). apply Hbc in H as (rs'' & H & H2).
    exists rs''. split; [done|]. by etrans.
Qed.
Lemma kept_set_version v d : kept d (set_version v d).
Proof. intros n rs H. by apply (reflexivity (R := kept) d). Qed.

Lemma added_value_ok c v : typed c = true → added_value c = Some v → value_ok c v.
Proof.
  unfold typed, added_value. intros Ht. destruct (c_unique c || c_primary c); [done|].
  destruct (c_default c) as [|z|s|]; [destruct (c_notnull c) eqn:E| case_decide | case_decide|]; try done; intros [= <-];
    simpl; try done; by destruct (c_type c).
Qed.
Lemma check_ok_insert r c v k : c ∉ check_columns k → check_ok r k → check_ok (<[c := v]> r) k.
Proof.
  destruct k; cbn [check_columns check_ok]; rewrite ?not_elem_of_cons; intros H;
    rewrite !lookup_insert_ne by (intros ->; tauto); done.
Qed.
Lemma row_ok_add t c v r : c_name c ∉ column_names t → value_ok c v → row_ok t r →
  row_ok (mkTable (t_columns t ++ [c]) (t_key t) (t_checks t)) (<[c_name c := v]> r) ∧ r ⊆ <[c_name c := v]> r.
Proof.
  intros Hn Hv [H1 H2 H3].
  assert (r !! c_name c = None) as Hr.
  { apply eq_None_not_Some. intros H. by apply Hn, H2. }
  split; [|by apply insert_subseteq]. split.
  - cbn [t_columns]. apply Forall_app. split; [|apply Forall_singleton; exists v; by rewrite lookup_insert_eq].
    eapply Forall_impl; [exact H1|]. intros x (w & Hw & Ho). exists w. split; [|done].
    rewrite lookup_insert_ne; [done|]. intros E. rewrite E in Hr. congruence.
  - unfold column_names in *. cbn [t_columns]. rewrite fmap_app. intros x Hx. apply elem_of_app.
    destruct (decide (x = c_name c)) as [->|Hne]; [right; by apply list_elem_of_singleton|left].
    apply H2. by rewrite lookup_insert_ne in Hx.
  - cbn [t_checks]. eapply Forall_impl; [exact H3|]. intros k [Hc Hk]. split.
    + eapply Forall_impl; [exact Hc|]. intros x Hx. unfold column_names in *. cbn [t_columns]. rewrite fmap_app.
      apply elem_of_app. by left.
    + apply check_ok_insert; [|done]. intros Hin. rewrite Forall_forall in Hc. by apply Hn, Hc.
Qed.

Lemma conform_alter d n t f : conform d → d_tables d !! n = Some t →
  (∀ r, row_ok t r → r ⊆ f r) → kept d (mkDatabase (d_tables d) (d_indexes d) (alter (fmap f) n (d_rows d)) (d_version d)).
Proof.
  intros [Hc _] Ht Hf m rs H. cbn [d_rows]. destruct (decide (m = n)) as [->|Hne].
  - exists (f <$> rs). rewrite lookup_alter_eq, H. split; [done|]. destruct (Hc n t Ht) as (rs' & Hr & Ho).
    assert (rs' = rs) as -> by congruence. clear H Hr. induction Ho; cbn; constructor; auto.
  - exists rs. rewrite lookup_alter_ne by done. split; [done|]. reflexivity.
Qed.

Lemma exec_regular s d e e' : same_schema d e → exec s e = Some e' → regular s = true → conform d →
  ∃ d', exec s d = Some d' ∧ same_schema d' e' ∧ d_version d' = d_version d ∧ conform d' ∧ kept d d'.
Proof.
  intros [HT HI] He Hr Hc. destruct s as [n t|n c|n i|]; cbn [exec regular] in *; unfold name_taken in *; rewrite ?HT, ?HI.
  - destruct (_ || _) eqn:E; [done|]. injection He as <-. eexists. split; [reflexivity|].
    apply orb_false_elim in E as [E _]. apply bool_decide_eq_false, eq_None_not_Some in E. rewrite <- HT in E.
    split; [by split; cbn; rewrite ?HT, ?HI|]. split; [done|]. destruct Hc as [H1 H2]. split; [split|]; cbn [d_tables d_rows].
    + intros m t'. destruct (decide (m = n)) as [->|Hne].
      * rewrite !lookup_insert_eq. intros [= <-]. eexists. split; [done|constructor].
      * rewrite !lookup_insert_ne by done. rewrite <- HT. apply H1.
    + intros m. destruct (decide (m = n)) as [->|Hne]; [rewrite !lookup_insert_eq; eauto|].
      rewrite !lookup_insert_ne by done. rewrite <- HT. apply H2.
    + intros m rs Hm. exists rs. cbn [d_rows]. rewrite lookup_insert_ne; [split; [done|reflexivity]|]. intros ->.
      destruct (H2 m) as [t' Ht']; [eauto|congruence].
  - destruct (d_tables e !! n) as [t|] eqn:Et; [|done]. cbn [mbind option_bind] in *. case_decide as Hn; [done|].
    destruct (added_value c) as [v|] eqn:Ev; [|done]. cbn [mbind option_bind] in *. injection He as <-.
    pose proof (added_value_ok c v Hr Ev) as Hv. rewrite <- HT in Et. eexists. split; [reflexivity|].
    split; [by split; cbn; rewrite ?HT, ?HI|]. split; [done|]. split; [|apply (conform_alter d n t); [done..|]].
    2:{ intros r Ho. by eapply row_ok_add. }
    destruct Hc as [H1 H2]. split; cbn [d_tables d_rows].
    + intros m t'. destruct (decide (m = n)) as [->|Hne].
      * rewrite lookup_insert_eq, lookup_alter_eq. intros [= <-]. destruct (H1 n t Et) as (rs & -> & Ho).
        eexists. split; [reflexivity|]. apply Forall_fmap. eapply Forall_impl; [exact Ho|]. intros r Hro. by eapply row_ok_add.
      * rewrite lookup_insert_ne, lookup_alter_ne by done. rewrite <- HT. apply H1.
    + intros m [x Hm]. destruct (decide (m = n)) as [->|Hne]; [rewrite lookup_insert_eq; eauto|].
      rewrite lookup_insert_ne by done. rewrite lookup_alter_ne in Hm by done. rewrite <- HT. apply H2. eauto.
  - destruct (d_tables e !! i_table i) as [t|]; [|done]. cbn [mbind option_bind] in *. destruct (i_unique i); [done|].
    cbn [andb] in *. destruct (_ || _); [done|]. injection He as <-. eexists. split; [reflexivity|].
    split; [by split; cbn; rewrite ?HT, ?HI|]. split; [done|]. rewrite <- HT. split; [done|]. apply (reflexivity (R := kept) d).
  - done.
Qed.
Lemma exec_all_regular l : ∀ d e e', same_schema d e → exec_all l e = (true, e') → forallb regular l = true → conform d →
  ∃ d', exec_all l d = (true, d') ∧ same_schema d' e' ∧ d_version d' = d_version d ∧ conform d' ∧ kept d d'.
Proof.
  induction l as [|s l IH]; intros d e e' Hs He Hr Hc; cbn [exec_all forallb] in *.
  - injection He as <-. exists d. done.
  - apply andb_prop in Hr as [Hr1 Hr]. destruct (exec s e) as [e1|] eqn:E1; [|done].
    destruct (exec_regular s d e e1) as (d1 & -> & Hs1 & Hv1 & Hc1 & Hk1); [done..|].
    destruct (IH d1 e1 e') as (d' & Hd & Hs' & Hv' & Hc' & Hk'); [done..|]. exists d'. split; [done|]. split; [done|].
    split; [congruence|]. split; [done|]. by etrans.
Qed.

(** ** The two migrations that look at rows *)

Lemma column_values_added c (rs : list row) : column_values c (<[c := VNull]> <$> rs) = [].
Proof.
  unfold column_values. induction rs as [|r rs IH]; [done|]. rewrite !fmap_cons, filter_cons, lookup_insert_eq.
  cbn [default from_option id]. rewrite decide_False by (intros H'; by apply H'). exact IH.
Qed.
(** A column that was just added has no values two rows could share. *)
Lemma exec_add_unique n c name i d e e' : same_schema d e →
  exec_all [AddColumn n c; CreateIndex name i] e = (true, e') → typed c = true → added_value c = Some VNull →
  i_table i = n → i_column i = c_name c → conform d →
  ∃ d', exec_all [AddColumn n c; CreateIndex name i] d = (true, d') ∧ same_schema d' e'
    ∧ d_version d' = d_version d ∧ conform d' ∧ kept d d'.
Proof.
  intros Hs He Ht Hv Hit Hic Hc. cbn [exec_all] in He |- *. destruct (exec (AddColumn n c) e) as [e1|] eqn:E1; [|done].
  destruct (exec_regular (AddColumn n c) d e e1) as (d1 & Ed1 & Hs1 & Hv1 & Hc1 & Hk1); [done..|].
  rewrite Ed1. destruct (exec (CreateIndex name i) e1) as [e2|] eqn:E2; [|done]. injection He as <-.
  assert (column_values (i_column i) (rows_of (i_table i) d1) = []) as Hn.
  { cbn [exec] in Ed1. destruct (d_tables d !! n); [|done]. cbn [mbind option_bind] in Ed1. case_decide; [done|].
    rewrite Hv in Ed1. cbn [mbind option_bind] in Ed1. injection Ed1 as <-. unfold rows_of. cbn [d_rows].
    rewrite Hit, Hic, lookup_alter_eq. destruct (d_rows d !! n) as [rs|]; [|done]. apply column_values_added. }
  destruct Hs1 as [HT HI]. cbn [exec] in *. unfold name_taken in *. rewrite HT, HI, Hn.
  destruct (d_tables e1 !! i_table i); [|done]. cbn [mbind option_bind] in *. destruct (_ || _); [done|].
  destruct (i_unique i && _); [done|]. injection E2 as <-. rewrite (bool_decide_eq_true_2 (NoDup [])) by constructor.
  rewrite andb_false_r. eexists. split; [reflexivity|]. split; [by split; cbn; rewrite ?HT, ?HI|]. rewrite <- HT. done.
Qed.

(** Giving an existing column a new value. *)
Lemma row_ok_set t c v r : Forall (λ k, c_name k = c → value_ok k v) (t_columns t) → c ∈ column_names t →
  Forall (λ k, c ∉ check_columns k) (t_checks t) → row_ok t r → row_ok t (<[c := v]> r).
Proof.
  intros Hv Hin Hk [H1 H2 H3]. split.
  - rewrite Forall_forall in Hv, H1 |- *. intros x Hx. destruct (decide (c_name x = c)) as [<-|Hne].
    + exists v. rewrite lookup_insert_eq. auto.
    + rewrite lookup_insert_ne by congruence. auto.
  - intros x Hx. destruct (decide (x = c)) as [->|Hne]; [done|]. rewrite lookup_insert_ne in Hx by done. auto.
  - rewrite Forall_forall in H3, Hk |- *. intros k Hx. destruct (H3 k Hx) as [Hc Ho]. split; [done|].
    apply check_ok_insert; auto.
Qed.
Definition peers_v12 : Table := default (mkTable [] [] []) (d_tables (schema_at 11) !! "peers").
Lemma peers_v12_row r : row_ok peers_v12 r → row_ok peers_v12 (<["peer_type" := VText "static"]> r)
  ∧ (∃ k, r !! "setup_key_id" = Some k ∧ k ≠ VNull).
Proof.
  intros H. split.
  - apply row_ok_set; [| | |done].
    + vm_compute. repeat constructor; discriminate.
    + vm_compute. repeat first [apply list_elem_of_here|apply list_elem_of_further].
    + replace (t_checks peers_v12) with [NullOrBetween "listen_port" 1 65535] by (vm_compute; reflexivity).
      apply Forall_singleton. cbn [check_columns]. by rewrite list_elem_of_singleton.
  - destruct H as [H _ _]. rewrite Forall_forall in H.
    destruct (H (references "setup_keys" RESTRICT (notnull (int "setup_key_id")))) as (k & Hk & Hv).
    { vm_compute. repeat first [apply list_elem_of_here|apply list_elem_of_further]. }
    exists k. split; [done|]. by intros ->.
Qed.
Lemma mark_added ids (r : row) : r !! "peer_type" = None →
  r ⊆ mark_static ids (<["peer_type" := VText "agent"]> r).
Proof.
  intros H. unfold mark_static. case_decide; [rewrite insert_insert_eq|]; by apply insert_subseteq.
Qed.
Lemma mark_kind ids (r : row) k : r !! "setup_key_id" = Some k → k ≠ VNull → r !! "peer_type" = Some (VText "agent") →
  mark_static ids r !! "setup_key_id" = Some k
  ∧ mark_static ids r !! "peer_type" = Some (VText (if decide (k ∈ ids) then "static" else "agent")).
Proof.
  intros Hk Hn Ht. unfold mark_static. rewrite Hk. cbn [default from_option id]. destruct (decide (k ∈ ids)).
  - rewrite decide_True by done. rewrite lookup_insert_eq, lookup_insert_ne by done. done.
  - rewrite decide_False by tauto. done.
Qed.
Definition peer_type_column : Column := with_default (DefText "agent") (notnull (txt "peer_type")).
Lemma exec_V12 d e e1 : same_schema d e → exec (AddColumn "peers" peer_type_column) e = Some e1 →
  d_tables e1 !! "peers" = Some peers_v12 → conform d →
  ∃ d', exec_all [AddColumn "peers" peer_type_column; MarkStatic] d = (true, d') ∧ same_schema d' e1
    ∧ d_version d' = d_version d ∧ conform d' ∧ kept d d' ∧ marked d'.
Proof.
  intros Hs E Hp Hc.
  destruct (exec_regular _ d _ _ Hs E eq_refl Hc) as (d1 & E1 & [HT HI] & Hv1 & Hc1 & Hk1).
  cbn [exec_all]. rewrite E1. cbn [exec].
  eexists. split; [reflexivity|]. split; [done|]. split; [done|].
  rewrite <- HT in Hp.
  destruct Hc1 as [H1 H2]. destruct (H1 _ _ Hp) as (rs1 & Hrs1 & Hok1).
  assert (∃ rs, d_rows d !! "peers" = Some rs ∧ rs1 = <["peer_type" := VText "agent"]> <$> rs
            ∧ Forall (λ r : row, r !! "peer_type" = None) rs) as (rs & Hrs & -> & Hnone).
  { cbn [exec] in E1. destruct (d_tables d !! "peers") as [t|] eqn:Et; [|done]. cbn [mbind option_bind] in E1.
    case_decide as Hin; [done|]. injection E1 as <-. destruct (proj1 Hc _ _ Et) as (rs & Hrs & Hok).
    exists rs. split; [done|]. cbn [d_rows] in Hrs1. rewrite lookup_alter_eq, Hrs in Hrs1.
    injection Hrs1 as <-. split; [done|]. eapply Forall_impl; [exact Hok|]. intros r [_ Hn _]. apply eq_None_not_Some.
    by intros Hx%Hn. }
  assert (Forall (λ r : row, r !! "peer_type" = Some (VText "agent")) (<["peer_type" := VText "agent"]> <$> rs)) as Hag.
  { apply Forall_fmap, Forall_true. intros r. apply lookup_insert_eq. }
  split; [split|split]; cbn [d_tables d_rows].
  - intros n t Ht. destruct (decide (n = "peers")) as [->|Hne]; [|rewrite lookup_alter_ne by done; by apply H1].
    assert (t = peers_v12) as -> by congruence. rewrite lookup_alter_eq, Hrs1. eexists. split; [reflexivity|].
    apply Forall_fmap. eapply Forall_impl; [exact Hok1|]. intros r Hr. cbn. unfold mark_static.
    case_decide; [by apply peers_v12_row|done].
  - intros n [x Hn]. apply H2. destruct (decide (n = "peers")) as [->|Hne]; [eauto|]. rewrite lookup_alter_ne in Hn by done. eauto.
  - intros n rs' Hn. cbn [d_rows]. destruct (decide (n = "peers")) as [->|Hne].
    + rewrite lookup_alter_eq, Hrs1. eexists. split; [reflexivity|]. assert (rs' = rs) as -> by congruence.
      rewrite <- list_fmap_compose. apply Forall2_fmap_r. rewrite Forall_forall in Hnone.
      apply Forall_Forall2_diag, Forall_forall. intros r Hr. apply mark_added. auto.
    + rewrite lookup_alter_ne by done. by apply Hk1.
  - unfold marked, rows_of, static_keys, rows_of. cbn [d_rows]. rewrite lookup_alter_eq, Hrs1, lookup_alter_ne by done.
    cbn [default from_option id]. fold (rows_of "setup_keys" d1). fold (static_keys d1).
    change (default [] (mark_static (static_keys d1) <$> ?x)) with x. apply Forall_fmap.
    rewrite Forall_forall in Hok1, Hag |- *. intros r Hr. destruct (peers_v12_row r (Hok1 r Hr)) as [_ (k & Hk & Hn)].
    destruct (mark_kind (static_keys d1) r k Hk Hn (Hag r Hr)) as [Ha Hb]. cbn. rewrite Ha, Hb. done.
Qed.

(** ** From version to version *)
Lemma conform_has d n t c : conform d → d_tables d !! n = Some t → c ∈ column_names t →
  Forall (λ r : row, is_Some (r !! c)) (rows_of n d).
Proof.
  intros [H _] Ht Hc. destruct (H n t Ht) as (rs & Hrs & Hok). unfold rows_of. rewrite Hrs. cbn [default from_option id].
  eapply Forall_impl; [exact Hok|]. intros r [Hv _ _]. apply list_elem_of_fmap in Hc as (k & -> & Hk).
  rewrite Forall_forall in Hv. destruct (Hv k Hk) as (v & -> & _). eauto.
Qed.
Lemma kept_rows d d' n : kept d d' → is_Some (d_rows d !! n) → Forall2 (⊆) (rows_of n d) (rows_of n d').
Proof. intros H [rs Hrs]. destruct (H n rs Hrs) as (rs' & Hrs' & Hf). unfold rows_of. by rewrite Hrs, Hrs'. Qed.
Lemma kept_value (r r' : row) c : r ⊆ r' → is_Some (r !! c) → r' !! c = r !! c.
Proof. intros H [v Hv]. rewrite Hv. by eapply lookup_weaken. Qed.
Lemma static_keys_kept d d' : kept d d' → is_Some (d_rows d !! "setup_keys") →
  Forall (λ r : row, is_Some (r !! "id") ∧ is_Some (r !! "name")) (rows_of "setup_keys" d) → static_keys d' = static_keys d.
Proof.
  intros Hk Hs Hh. pose proof (kept_rows d d' _ Hk Hs) as Hf. unfold static_keys.
  induction Hf as [|r r' rs rs' Hr Hf IH]; [done|]. apply Forall_cons in Hh as [[Hi Hn] Hh].
  rewrite !filter_cons, (kept_value r r' "name") by done. case_decide; [|by apply IH].
  rewrite !fmap_cons, (kept_value r r' "id") by done. f_equal. by apply IH.
Qed.
(** The columns the marks depend on are there. *)
Definition mark_columns (d : Database) : bool :=
  match d_tables d !! "peers", d_tables d !! "setup_keys" with
  | Some p, Some k => bool_decide ("peer_type" ∈ column_names p) && bool_decide ("setup_key_id" ∈ column_names p)
                      && bool_decide ("id" ∈ column_names k) && bool_decide ("name" ∈ column_names k)
  | _, _ => false
  end.
Lemma marked_kept d d' : conform d → mark_columns d = true → kept d d' → marked d → marked d'.
Proof.
  unfold mark_columns. intros Hc Hm Hk H. destruct (d_tables d !! "peers") as [p|] eqn:Ep; [|done].
  destruct (d_tables d !! "setup_keys") as [k|] eqn:Ek; [|done].
  apply andb_prop in Hm as [[[H1 H2]%andb_prop H3]%andb_prop H4]. apply bool_decide_eq_true in H1, H2, H3, H4.
  pose proof (conform_has d _ _ _ Hc Ep H2) as Hsk. pose proof (proj1 Hc _ _ Ep) as (rp & Hrp & _).
  pose proof (proj1 Hc _ _ Ek) as (rk & Hrk & _).
  assert (static_keys d' = static_keys d) as Hst.
  { apply static_keys_kept; [done|eauto|]. apply Forall_and. split; by eapply conform_has. }
  unfold marked in *. rewrite Hst. pose proof (kept_rows d d' "peers" Hk ltac:(eauto)) as Hf.
  induction Hf as [|r r' rs rs' Hr Hf IH]; [constructor|]. apply Forall_cons in H as [Hr1 H], Hsk as [Hr2 Hsk].
  constructor; [|by apply IH]. rewrite (kept_value r r' "setup_key_id") by done.
  rewrite (kept_value r r' "peer_type") by (rewrite ?Hr1; eauto). done.
Qed.

Lemma regular_steps : forallb (λ n,
  (n =? 4)%nat || (n =? 10)%nat
  || match migrations !! (Z.of_nat n + 2) with
     | Some sql => forallb regular sql && (exec_all sql (schema_at n)).1
     | None => false
     end) (seq 0 17) = true.
Proof. vm_compute. reflexivity. Qed.
Lemma mark_columns_kept : forallb (λ n, mark_columns (schema_at n)) (seq 11 7) = true.
Proof. vm_compute. reflexivity. Qed.

Lemma migrate_regular n sql d : n ≠ 4%nat → n ≠ 10%nat → (n < 17)%nat → migrations !! (Z.of_nat n + 2) = Some sql →
  at_version n d → ∃ d', exec_all sql d = (true, d') ∧ same_schema d' (schema_at (S n)) ∧ conform d' ∧ kept d d'.
Proof.
  intros H4 H10 Hn Hm (_ & Hs & Hc). pose proof regular_steps as Hr. rewrite forallb_forall in Hr.
  specialize (Hr n ltac:(apply in_seq; lia)). rewrite Hm in Hr.
  rewrite (proj2 (Nat.eqb_neq n 4)), (proj2 (Nat.eqb_neq n 10)) in Hr by done. cbn [orb] in Hr.
  apply andb_prop in Hr as [Hr He]. destruct (exec_all sql (schema_at n)) as [ok e'] eqn:E. cbn [fst] in He. subst ok.
  destruct (exec_all_regular sql d (schema_at n) e') as (d' & Hd & Hs' & _ & Hc' & Hk'); [done..|].
  exists d'. split; [done|]. split; [|done]. cbn [schema_at]. rewrite Hm. cbn [default from_option id]. by rewrite E.
Qed.
Lemma migrate_step n d : (n < 17)%nat → at_version n d →
  ∃ sql d', migrations !! (Z.of_nat n + 2) = Some sql ∧ exec_all sql d = (true, d')
    ∧ at_version (S n) (set_version (Z.of_nat n + 2) d') ∧ kept d d' ∧ (n = 10%nat → marked d').
Proof.
  intros Hn Ha.
  assert (∀ d', same_schema d' (schema_at (S n)) → conform d' → at_version (S n) (set_version (Z.of_nat n + 2) d')) as Hat.
  { intros d' Hs Hc. split; [cbn; lia|done]. }
  destruct (decide (n = 4%nat)) as [->|H4]; [|destruct (decide (n = 10%nat)) as [->|H10]].
  - destruct Ha as (_ & Hs & Hc). exists migrationV6.
    destruct (exec_add_unique "peers" (txt "assigned_ip6") "idx_peers_assigned_ip6" (mkIndex "peers" "assigned_ip6" true true)
      d (schema_at 4) (schema_at 5)) as (d' & Hd & Hs' & _ & Hc' & Hk');
      [exact Hs|vm_compute; reflexivity|reflexivity..|exact Hc|].
    exists d'. split; [vm_compute; reflexivity|]. split; [exact Hd|]. split; [by apply Hat|]. done.
  - destruct Ha as (_ & Hs & Hc). exists migrationV12.
    destruct (exec_V12 d (schema_at 10) (schema_at 11)) as (d' & Hd & Hs' & _ & Hc' & Hk' & Hm');
      [exact Hs|vm_compute; reflexivity|vm_compute; reflexivity|exact Hc|].
    exists d'. split; [vm_compute; reflexivity|]. split; [exact Hd|]. split; [by apply Hat|]. done.
  - destruct (migrations !! (Z.of_nat n + 2)) as [sql|] eqn:E.
    + destruct (migrate_regular n sql d) as (d' & Hd & Hs' & Hc' & Hk'); [done..|].
      exists sql, d'. split; [done|]. split; [done|]. split; [by apply Hat|]. done.
    + exfalso. assert (bool_decide (is_Some (migrations !! (Z.of_nat n + 2))) = true) as Hb.
      { do 17 (destruct n as [|n]; [vm_compute; reflexivity|]). lia. }
      apply bool_decide_eq_true in Hb as [? ?]. congruence.
Qed.
Lemma upgrade_ok k : ∀ n d, (n + k ≤ 17)%nat → at_version n d →
  ∃ d', upgrade (seqZ (Z.of_nat n + 2) (Z.of_nat k)) d = (true, d') ∧ at_version (n + k) d' ∧ kept d d'
    ∧ ((n < 11 ≤ n + k)%nat ∨ (11 ≤ n)%nat ∧ marked d → marked d').
Proof.
  induction k as [|k IH]; intros n d Hk Ha.
  - exists d. rewrite Nat.add_0_r. split; [done|]. split; [done|]. split; [done|]. intros [?|[_ ?]]; [lia|done].
  - rewrite seqZ_cons by lia. cbn [upgrade].
    destruct (migrate_step n d) as (sql & d1 & -> & -> & Ha1 & Hk1 & Hm1); [lia|done|].
    destruct (IH (S n) _ ltac:(lia) Ha1) as (d' & Hd & Ha' & Hk' & Hm'). exists d'.
    replace (Z.succ (Z.of_nat n + 2)) with (Z.of_nat (S n) + 2) by lia. replace (Z.pred (Z.of_nat (S k))) with (Z.of_nat k) by lia.
    replace (n + S k)%nat with (S n + k)%nat by lia.
    split; [done|]. split; [done|]. split; [by etrans; [exact Hk1|]|]. intros H.
    destruct (decide (n < 10)%nat); [apply Hm'; left; lia|]. apply Hm'. right. split; [lia|].
    destruct (decide (n = 10%nat)) as [->|Hne]; [by apply Hm1|]. destruct H as [?|[_ H]]; [lia|].
    destruct Ha as (_ & [HT _] & Hc). apply (marked_kept d d1); [done| |done..].
    pose proof mark_columns_kept as Hmc. rewrite forallb_forall in Hmc. specialize (Hmc n ltac:(apply in_seq; lia)).
    unfold mark_columns in *. by rewrite HT.
Qed.

(** The databases a server may find: a new one, one from before versions were
    recorded, one of any version. *)
Definition supported (d : Database) : Prop :=
  d = fresh ∨ (d_version d = 0 ∧ at_version 0 (set_version 1 d)) ∨ (∃ n, (n ≤ 17)%nat ∧ at_version n d).
Lemma kept_fresh d : kept fresh d.
Proof. intros n rs H. unfold fresh in H. cbn [d_rows] in H. rewrite lookup_empty in H. discriminate. Qed.
Lemma fresh_base : exec_all schemaSQL fresh = (true, schema_at 0).
Proof. vm_compute. reflexivity. Qed.
Lemma base_conform : conform (schema_at 0).
Proof.
  destruct (exec_all_regular schemaSQL fresh fresh (schema_at 0)) as (d & Hd & _ & _ & Hc & _);
    [done|apply fresh_base|reflexivity|split; [done|by intros n [? ?]]|].
  rewrite fresh_base in Hd. injection Hd as <-. done.
Qed.
Lemma ensureSchema_at n d : (n ≤ 17)%nat → at_version n d →
  ensureSchema d = upgrade (seqZ (Z.of_nat n + 2) (Z.of_nat (17 - n))) d.
Proof.
  intros Hn (Hv & _). unfold ensureSchema. rewrite Hv. destruct (Z.eqb_spec (Z.of_nat n + 1) 0); [lia|]. cbn [negb].
  rewrite Hv. unfold schemaVersion. f_equal. f_equal; lia.
Qed.
Lemma at_last d : at_version 17 d → ensureSchema d = (true, d).
Proof. intros H. rewrite (ensureSchema_at 17) by done. done. Qed.
Lemma upgraded d : supported d →
  ∃ d', ensureSchema d = (true, d') ∧ at_version 17 d' ∧ kept d d' ∧ (d_version d < 12 → marked d').
Proof.
  intros [->|[[Hv Ha]|(n & Hn & Ha)]].
  - assert (at_version 0 (set_version 1 (schema_at 0))) as Ha by (split; [done|split; [done|apply base_conform]]).
    destruct (upgrade_ok 17 0 _ (le_n 17) Ha) as (d' & Hd & Ha' & Hk' & Hm'). exists d'.
    unfold ensureSchema. cbn [d_version fresh Z.eqb]. rewrite decide_False by (by intros [? ?]). rewrite fresh_base. cbn [negb].
    split; [exact Hd|]. split; [done|]. split; [apply kept_fresh|]. intros _. apply Hm'. left. lia.
  - destruct (upgrade_ok 17 0 _ (le_n 17) Ha) as (d' & Hd & Ha' & Hk' & Hm'). exists d'.
    unfold ensureSchema. rewrite Hv. cbn [Z.eqb]. rewrite decide_True.
    2:{ destruct Ha as (_ & [HT _] & _). cbn [d_tables set_version] in HT. rewrite HT. vm_compute. eauto. }
    cbn [negb]. split; [exact Hd|]. split; [done|]. split; [done|]. intros _. apply Hm'. left. lia.
  - rewrite (ensureSchema_at n) by done. destruct (upgrade_ok (17 - n) n d) as (d' & Hd & Ha' & Hk' & Hm'); [lia|done|].
    exists d'. split; [done|]. split; [by replace (n + (17 - n))%nat with 17%nat in Ha' by lia|]. split; [done|]. destruct Ha as (Hv & _). intros H. apply Hm'. left. lia.
Qed.

Lemma secure_files_ok fs : ∀ modes, let r := secure_files (λ _, false) fs modes in
  r.1 = true ∧ ∀ f, r.2 !! f = if decide (f ∈ fs) then (λ _, 384) <$> modes !! f else modes !! f.
Proof.
  induction fs as [|x fs IH]; intros modes; cbn [secure_files]; [split; [done|]; intros f; by rewrite decide_False by apply not_elem_of_nil|].
  destruct (modes !! x) as [m|] eqn:E.
  - destruct (IH (<[x := 384]> modes)) as [H1 H2]. split; [done|]. intros f. rewrite H2.
    destruct (decide (f = x)) as [->|Hne].
    + rewrite lookup_insert_eq, E, (decide_True (P := x ∈ x :: fs)) by apply list_elem_of_here. by case_decide.
    + rewrite lookup_insert_ne by done. destruct (decide (f ∈ fs)); [rewrite decide_True by (by apply list_elem_of_further)|
        rewrite decide_False by (by rewrite not_elem_of_cons)]; done.
  - destruct (IH modes) as [H1 H2]. split; [done|]. intros f. rewrite H2. destruct (decide (f = x)) as [->|Hne].
    + rewrite E, (decide_True (P := x ∈ x :: fs)) by apply list_elem_of_here. by case_decide.
    + destruct (decide (f ∈ fs)); [rewrite decide_True by (by apply list_elem_of_further)|
        rewrite decide_False by (by rewrite not_elem_of_cons)]; done.
Qed.

(** C12: Every database an earlier release left is brought to the current schema
    without losing anything: whichever version it has (or none), opening it
    succeeds, the tables and indexes are exactly those of version 18, every row
    is still there with every value it had and satisfies the constraints of the
    new tables, peers of static keys are marked, the file and its sidecars are
    readable by the owner only, and opening it again changes nothing. *)
Theorem schema_upgraded d path network modes :
  supported d →
  ∃ d' modes', store_Open (λ _, false) path network modes d = (Some (Masked network), modes', d')
    ∧ at_version 17 d' ∧ kept d d' ∧ (d_version d < 12 → marked d')
    ∧ (∀ f, modes' !! f = if decide (f ∈ [path; path +:+ "-wal"; path +:+ "-shm"])
                          then (λ _, 384) <$> modes !! f else modes !! f)
    ∧ ensureSchema d' = (true, d').
Proof.
  intros H. destruct (upgraded d H) as (d' & Hd & Ha & Hk & Hm). unfold store_Open, secureDBFiles. rewrite Hd. cbn [negb].
  destruct (secure_files_ok [path; path +:+ "-wal"; path +:+ "-shm"] modes) as [H1 H2].
  destruct (secure_files _ _ modes) as [ok modes']. cbn [fst snd] in H1, H2. subst ok. exists d', modes'. cbn [negb].
  split; [done|]. split; [done|]. split; [done|]. split; [done|]. split; [exact H2|]. by apply at_last.
Qed.

(** ** The records of the model are rows of the current tables *)
Definition v_opt_text (o : option string) : Value := from_option VText VNull o.
Definition v_opt_int (o : option Z) : Value := from_option VInt VNull o.
Definition named (l : list (string * Value)) : row := list_to_map l.
Definition key_row (k : SetupKey) : row := named
  [("id", VInt (k_id k)); ("key", VText (k_key k)); ("created_at", VText (k_created_at k));
   ("expires_at", v_opt_text (k_expires_at k)); ("revoked_at", v_opt_text (k_revoked_at k));
   ("max_uses", v_opt_int (k_max_uses k)); ("uses_consumed", VInt (k_uses_consumed k)); ("name", v_opt_text (k_name k))].
Definition peer_row (p : Peer) : row := named
  [("id", VInt (p_id p)); ("public_key", VText (p_public_key p)); ("assigned_ip", VText (p_assigned_ip p));
   ("hostname", v_opt_text (p_hostname p)); ("listen_port", v_opt_int (p_listen_port p));
   ("last_seen_at", v_opt_text (p_last_seen_at p)); ("created_at", VText (p_created_at p));
   ("revoked_at", v_opt_text (p_revoked_at p)); ("setup_key_id", VInt (p_setup_key_id p));
   ("auth_token_hash", v_opt_text (p_auth_token_hash p)); ("observed_ip", v_opt_text (p_observed_ip p));
   ("public_endpoint", v_opt_text (p_public_endpoint p)); ("auth_token_issued_at", v_opt_text (p_auth_token_issued_at p));
   ("assigned_ip6", v_opt_text (p_assigned_ip6 p)); ("peer_type", VText (p_peer_type p));
   ("gateway_peer_id", v_opt_int (p_gateway_peer_id p)); ("private_key_enc", v_opt_text (p_private_key_enc p));
   ("gateway_endpoint", v_opt_text (p_gateway_endpoint p)); ("candidates", v_opt_text (p_candidates p));
   ("nat_type", v_opt_text (p_nat_type p)); ("advertise_exit_node", VInt (if p_advertise_exit_node p then 1 else 0));
   ("exit_node_peer_id", v_opt_int (p_exit_node_peer_id p)); ("agent_version", v_opt_text (p_agent_version p))].
Definition rule_row (r : AclRow) : row := named
  [("id", VInt (r_id r)); ("src_peer_id", v_opt_int (r_src_peer_id r)); ("dst_peer_id", v_opt_int (r_dst_peer_id r));
   ("created_at", VText (r_created_at r)); ("name", v_opt_text (r_name r)); ("protocol", VText (r_protocol r));
   ("port_min", v_opt_int (r_port_min r)); ("port_max", v_opt_int (r_port_max r))].
Definition user_row (u : UserRow) : row := named
  [("id", VInt (u_id u)); ("username", VText (u_username u)); ("password_hash", VText (u_password_hash u));
   ("auth_source", VText (u_auth_source u)); ("session_epoch", VInt (u_session_epoch u));
   ("created_at", VText (u_created_at u)); ("updated_at", VText (u_updated_at u))].
Definition current_table (n : string) : Table := default (mkTable [] [] []) (d_tables (schema_at 17) !! n).
Lemma row_ok_listed t (l : list (string * Value)) : (l.*1 = column_names t) → NoDup (l.*1) →
  Forall2 (λ x c, value_ok c x.2) l (t_columns t) →
  Forall (λ k, Forall (.∈ column_names t) (check_columns k) ∧ check_ok (named l) k) (t_checks t) → row_ok t (named l).
Proof.
  intros Hn Hd Hv Hk. split; [| |done].
  - apply Forall_forall. intros c Hc. unfold column_names in Hn.
    apply list_elem_of_lookup in Hc as (i & Hi). destruct (Forall2_lookup_r _ _ _ _ _ Hv Hi) as ([n v] & Hl & Hvo).
    exists v. split; [|done]. apply elem_of_list_to_map; [done|].
    assert (n = c_name c) as ->. { assert (l.*1 !! i = Some n) by (by rewrite list_lookup_fmap, Hl).
      rewrite Hn, list_lookup_fmap, Hi in H. cbn in H. congruence. }
    by eapply list_elem_of_lookup_2.
  - intros c [v Hc]. rewrite <- Hn. apply elem_of_list_to_map in Hc; [|done]. apply list_elem_of_fmap. by exists (c, v).
Qed.
Ltac listed n :=
  let t := eval vm_compute in (current_table n) in
  replace (current_table n) with t by (vm_compute; reflexivity);
  apply row_ok_listed; [reflexivity|apply (bool_decide_unpack _); vm_compute; exact I| |cbn [t_checks]];
  [repeat (constructor; [cbn [snd]; first [reflexivity | match goal with |- value_ok _ (_ ?o) => destruct o; reflexivity end]|]);
   constructor|].
Ltac checks :=
  repeat (apply Forall_cons; split; [split; [apply (bool_decide_unpack _); vm_compute; exact I|]|]); [..|apply Forall_nil_2].
(** What Schema.v calls a row with its constraints is a row of the current
    tables: the setup keys that pass [key_check], the peers that pass
    [port_check], and all rules and accounts. *)
Lemma records_conform k p r u : key_check k = true → port_check p = true →
  row_ok (current_table "setup_keys") (key_row k) ∧ row_ok (current_table "peers") (peer_row p)
  ∧ row_ok (current_table "acl_rules") (rule_row r) ∧ row_ok (current_table "users") (user_row u).
Proof.
  intros Hk Hp. split_and!.
  - unfold key_row. listed "setup_keys". unfold key_check, null_or in Hk.
    checks; destruct (k_max_uses k) as [m|]; try exact I.
    + change (0 ≤ m). lia.
    + change (0 ≤ k_uses_consumed k). lia.
    + change (0 ≤ k_uses_consumed k). lia.
    + change (k_uses_consumed k ≤ m). lia.
  - unfold peer_row. listed "peers". unfold port_check, null_or in Hp.
    checks. destruct (p_listen_port p) as [m|]; [|exact I]. change (1 ≤ m ≤ 65535). lia.
  - unfold rule_row. listed "acl_rules". constructor.
  - unfold user_row. listed "users". constructor.
Qed.

(** A database from before versions were recorded, with one peer. *)
Definition old_key : list (string * Value) :=
  [("id", VInt 1); ("key", VText "k"); ("created_at", VText "2025-01-01T00:00:00.000Z"); ("expires_at", VNull);
   ("revoked_at", VNull); ("max_uses", VInt 3); ("uses_consumed", VInt 1)].
Definition old_peer : list (string * Value) :=
  [("id", VInt 1); ("public_key", VText "pub"); ("assigned_ip", VText "100.64.0.1"); ("hostname", VText "a");
   ("listen_port", VInt 51820); ("last_seen_at", VNull); ("created_at", VText "2025-01-01T00:00:00.000Z");
   ("revoked_at", VNull); ("setup_key_id", VInt 1)].
Definition ex_old : Database :=
  mkDatabase (d_tables (schema_at 0)) (d_indexes (schema_at 0))
    {["setup_keys" := [named old_key]; "peers" := [named old_peer]]} 0.
Lemma ex_old_at : at_version 0 (set_version 1 ex_old).
Proof.
  split; [done|]. split; [done|].
  assert (d_tables (schema_at 0) = list_to_map (omap (λ s, match s with CreateTable n t => Some (n, t) | _ => None end) schemaSQL))
    as E by (vm_compute; reflexivity).
  split; cbn [d_tables d_rows set_version ex_old]; rewrite E; cbn [omap list_omap schemaSQL list_to_map foldr].
  - intros n t. rewrite !lookup_insert_Some, lookup_empty. intros [[<- <-]|[Hn [[<- <-]|[_ ?]]]]; [..|done];
      cbn [fst snd]; [exists [named old_key]|exists [named old_peer]]; (split; [reflexivity|]);
      apply Forall_singleton, row_ok_listed;
      try reflexivity; try (apply (bool_decide_unpack _); vm_compute; exact I); try (repeat constructor; done);
      cbn [t_checks]; checks; vm_compute; try (split; discriminate); discriminate.
  - intros n [x Hx]. rewrite lookup_insert_Some, lookup_singleton_Some in Hx. destruct Hx as [[<- _]|[_ [<- _]]];
      vm_compute; eauto.
Qed.
Lemma schema_upgraded_witness :
  ∃ d' modes', store_Open (λ _, false) "mesh.db" (mkPrefix (V4 1681915905) 16) {["mesh.db" := 420]} ex_old
    = (Some (mkPrefix (V4 1681915904) 16), modes', d')
    ∧ kept ex_old d' ∧ marked d' ∧ modes' !! "mesh.db" = Some 384.
Proof.
  destruct (schema_upgraded ex_old "mesh.db" (mkPrefix (V4 1681915905) 16) {["mesh.db" := 420]}) as (d' & m' & H & _ & Hk & Hm & Hf & _).
  - right. left. split; [reflexivity|exact ex_old_at].
  - exists d', m'. split; [exact H|]. split; [exact Hk|]. split; [apply Hm; reflexivity|]. rewrite Hf. vm_compute. reflexivity.
Defined.

(** A migration is not one transaction: a server stopped after the first of its
    statements finds the column there at the next start, and never starts again. *)
Definition ex_v17 : Database := (upgrade (seqZ 2 16) (set_version 1 ex_old)).2.
Definition cut_short (d : Database) : Database := default d (exec (AddColumn "peers" (txt "agent_version")) d).
Lemma migration_crash_stuck :
  at_version 16 ex_v17 ∧ (ensureSchema ex_v17).1 = true ∧ ensureSchema (cut_short ex_v17) = (false, cut_short ex_v17).
Proof.
  split; [|split; vm_compute; reflexivity].
  destruct (upgrade_ok 16 0 (set_version 1 ex_old)) as (d' & Hd & Ha & _); [lia|apply ex_old_at|].
  unfold ex_v17. change (seqZ 2 16) with (seqZ (Z.of_nat 0 + 2) (Z.of_nat 16)). by rewrite Hd.
Qed.
