(* ===== verification/Serve.v ===== *)
(** * Starting the control server

    cmd/server/main.go [runServe]: the checks of the flags, loading or creating
    the mesh's networks, names, keys and the first account, the choice of relay,
    and of certificates (acme.go, relayquic.go); and the table of routes.

    A start works on the database, of which Migrate.v says how it is opened, and
    on the disk with the keys.  What the system decides (a port that can be bound,
    random bytes, the files' modes) is the record [ServeEnv].  The host's firewall
    never decides anything: [open_api_port] and [open_relay_ports] are what is
    asked of it.

    [server_restarts] puts starts and requests together: whatever the flags of
    later starts are, the mesh stays the one the first start made. *)
From S2P Require Import Prelude GoText TimeText NetAddr NetFacts Codec Json Sha256 Schema SchemaFacts Alloc Enroll EnrollFacts Visibility Admin Acl ExitNode Invariants Network Dns Users Telemetry TelemetryFacts Reports StoreMachine HostPort ClientIP Candidates Punch PeerEntries RelayUdp Handlers HandlerFacts AdminApi Session Mobile AdminFacts Signal Firewall Secrets RelayControl Stun.
From Stdlib Require Import Ascii.

(** ** Flags *)
Record ServeFlags : Type := mkFlags {
  fl_listen : string; fl_network : string; fl_network6 : string; fl_pskFile : string; fl_keepalive : Z;
  fl_noTLS : bool; fl_tlsHosts : string; fl_adminTokenFile : string; fl_sessionKeyFile : string; fl_adminUser : string;
  fl_trustProxy : bool; fl_trustedProxies : string; fl_proxyProtocol : bool; fl_acmeDomain : string;
  fl_relayHost : string; fl_relayHost6 : string; fl_relayEmbedded : bool; fl_relayPortMin : Z; fl_relayPortMax : Z;
  fl_relayQUICPort : Z; fl_stunPort : Z; fl_relaySecretFile : string; fl_defaultPolicy : string;
  fl_dnsEnabled : bool; fl_dnsNameservers : string; fl_dnsDomain : string; fl_dnsSearchDomains : string; fl_dnsMagic : bool;
  fl_tokenTTL : Z; fl_accessLog : string; fl_accessLogSize : Z
}.
Definition minKeepaliveSeconds : Z := 5.
Definition maxKeepaliveSeconds : Z := 120.

(** What is refused before anything is touched. *)
Definition check_flags (f : ServeFlags) : result (list Prefix * accessLogMode * Prefix * Prefix) :=
  if fl_trustProxy f && bool_decide (fl_trustedProxies f ≠ "")
  then Err (ErrMsg "--trust-proxy and --trusted-proxies are mutually exclusive")
  else
    proxies ← parseTrustedProxies (fl_trustedProxies f);
    if fl_proxyProtocol f && bool_decide (proxies = []) then Err (ErrMsg "--proxy-protocol requires --trusted-proxies")
    else if (fl_keepalive f <? minKeepaliveSeconds) || (maxKeepaliveSeconds <? fl_keepalive f)
    then Err (ErrMsg "--keepalive")
    else if bool_decide (fl_acmeDomain f ≠ "") && fl_noTLS f
    then Err (ErrMsg "--acme-domain and --no-tls are mutually exclusive")
    else
      mode ← parseAccessLogMode (fl_accessLog f);
      prefix ← parseNetwork4 (fl_network f);
      prefix6 ← parseNetwork6 (fl_network6 f);
      Ok (proxies, mode, prefix, prefix6).

(** [now], the two salts for the first account, the generated keys, and which UDP
    ports can be bound. *)
Record ServeEnv : Type := mkServeEnv {
  en_now : Z; en_salt : list Z; en_salt' : list Z; en_psk : option string; en_token : option (list Z);
  en_session : option (list Z); en_bind : Z → bool
}.
Definition parse_policy (s : string) : option bool :=
  if decide (s = "allow") then Some true else if decide (s = "deny") then Some false else None.
(** The names of the flags; a domain given alone is also the search domain. *)
Definition dns_flags (f : ServeFlags) : DNSConfig :=
  let search := splitCSV (fl_dnsSearchDomains f) in
  mkDNS (fl_dnsEnabled f) (fl_dnsMagic f) (fl_dnsDomain f) (splitCSV (fl_dnsNameservers f))
    (if fl_dnsEnabled f && bool_decide (search = []) && bool_decide (TrimSpace (fl_dnsDomain f) ≠ "")
     then [fl_dnsDomain f] else search).

(** ** The relay *)
Inductive relay_kind : Type := NoRelay | Embedded (pairs : gmap string pair) | External (secret : string).
Definition relay_observes (k : relay_kind) : relay_observed :=
  match k with
  | NoRelay => None
  | Embedded pairs => Some (λ id, Observed id pairs)
  | External _ => Some (λ id, client_observed id tt)
  end.
(** [strings.Trim(s, "[]")] *)
Definition bracket (c : ascii) : bool := bool_decide (c = "["%char) || bool_decide (c = "]"%char).
Fixpoint drop_brackets (l : list ascii) : list ascii :=
  match l with [] => [] | c :: l' => if bracket c then drop_brackets l' else l end.
Definition relayEndpointHost (raw : string) : string :=
  match SplitHostPort raw with
  | Some (host, _) => host
  | None => text (reverse (drop_brackets (reverse (drop_brackets (chars raw)))))
  end.
Record RelaySetup : Type := mkRelaySetup {
  rs_kind : relay_kind; rs_host : string; rs_wsHub : bool; rs_quicEndpoint : option string; rs_stun : list string
}.
Definition stun_pair (host : string) (port : Z) : list string :=
  [JoinHostPort host (Itoa port); JoinHostPort host (Itoa (port + 1))].
Definition setup_relay (f : ServeFlags) (e : ServeEnv) (d : Disk) : result RelaySetup :=
  if fl_relayEmbedded f then
    if decide (fl_relayHost f = "") then Err (ErrMsg "--relay-embedded requires --relay-host")
    else
      pairs ← relay_New (mkRelayConfig (fl_relayPortMin f) (fl_relayPortMax f));
      let quic := if 0 <? fl_relayQUICPort f
                  then Some (JoinHostPort (relayEndpointHost (fl_relayHost f)) (Itoa (fl_relayQUICPort f))) else None in
      let stun :=
        if 0 <? fl_stunPort f then
          match NewSTUNResponder (en_bind e) (fl_stunPort f) with
          | None => []
          | Some _ => stun_pair (fl_relayHost f) (fl_stunPort f)
                      ++ (if decide (fl_relayHost6 f = "") then [] else stun_pair (fl_relayHost6 f) (fl_stunPort f))
          end
        else [] in
      Ok (mkRelaySetup (Embedded pairs) (fl_relayHost f) true quic stun)
  else if decide (fl_relayHost f ≠ "") then
    match newRelayClient (fl_relaySecretFile f) d with
    | None => Err (ErrMsg "read relay secret")
    | Some secret =>
        Ok (mkRelaySetup (External secret) (fl_relayHost f) false None
              (if 0 <? fl_stunPort f then stun_pair (fl_relayHost f) (fl_stunPort f) else []))
    end
  else Ok (mkRelaySetup NoRelay "" false None []).

(** ** Certificates *)

(** [acmeManagedDomains] *)
Fixpoint acme_names (l seen : list string) : list string :=
  match l with
  | [] => []
  | d :: l =>
      let d := ToLower (TrimSpace d) in
      if bool_decide (d = "") || bool_decide (d ∈ seen) then acme_names l seen else d :: acme_names l (d :: seen)
  end.
Definition acmeManagedDomains (domainFlag : string) (quicRelay : bool) (relayHost : string) : result (list string) :=
  match acme_names (Split domainFlag ",") [] with
  | [] => Err (ErrMsg "--acme-domain contains no domain names")
  | domains =>
      if quicRelay then
        let host := ToLower (relayEndpointHost relayHost) in
        match ParseAddr host with
        | Some _ => Err (ErrMsg "--relay-host is an IP address")
        | None => Ok (if decide (host ∈ domains) then domains else domains ++ [host])
        end
      else Ok domains
  end.
(** The names a certificate is made for, if one is used; [plain]: HTTP is served
    without it. *)
Inductive certificate : Type := NoCert | SelfSigned (hosts : list string) | Acme (domains : list string).
Definition tls_plan (f : ServeFlags) (quic : bool) : result (bool * certificate) :=
  if decide (fl_acmeDomain f ≠ "") then
    domains ← acmeManagedDomains (fl_acmeDomain f) quic (fl_relayHost f); Ok (false, Acme domains)
  else
    let hosts := (TrimSpace <$> Split (fl_tlsHosts f) ",")
                 ++ (if quic then [relayEndpointHost (fl_relayHost f)] else []) in
    Ok (fl_noTLS f, if negb (fl_noTLS f) || quic then SelfSigned hosts else NoCert).

(** ** The start *)
Record Serving : Type := mkServing {
  sg_api : Api; sg_adminToken : string; sg_sessionKey : list Z; sg_deviceKeys : Sealer; sg_accessLog : accessLogMode * Z;
  sg_relay : RelaySetup; sg_plain : bool; sg_certificate : certificate
}.
Section start.
Context (IDKey : list Z → list Z → Z → Z → Z → Z → list Z) (ParseKey : string → option string).

(** From the opened database to the first account: networks, policy, names, keys.
    The error, or the networks and the three keys; the store and the disk in
    either case. *)
Definition load_state (f : ServeFlags) (e : ServeEnv) (prefix prefix6 : Prefix) (s : Store) (d : Disk)
  : result (NetworkConfig * string * string * list Z) * Store * Disk :=
  match LoadOrInitNetworkConfig prefix prefix6 s with
  | (Err err, s) => (Err err, s, d)
  | (Ok nets, s) =>
      match parse_policy (fl_defaultPolicy f) with
      | None => (Err (ErrMsg "default-policy must be allow or deny"), s, d)
      | Some allow =>
          let s := mkStore (mkConfig (network (cfg s)) (Network6 (cfg s)) allow (fl_tokenTTL f)) (sdb s) in
          match run_tx (LoadOrInitDNSConfig (dns_flags f)) (sdb s) with
          | (Err err, _) => (Err err, s, d)
          | (Ok _, db) =>
              let s := mkStore (cfg s) db in
              let '(psk, d) := LoadOrGenerate ParseKey (fl_pskFile f) (en_psk e) d in
              match psk with
              | None => (Err (ErrMsg "psk file"), s, d)
              | Some psk =>
                  let '(token, d) := loadOrGenerateAdminToken (fl_adminTokenFile f) (en_token e) d in
                  match token with
                  | None => (Err (ErrMsg "admin token file"), s, d)
                  | Some token =>
                      let '(key, d) := loadOrGenerateSessionKey (fl_sessionKeyFile f) (en_session e) d in
                      match key with
                      | None => (Err (ErrMsg "session key file"), s, d)
                      | Some key =>
                          match run_tx (EnsureSeedUser IDKey (en_now e) (en_salt e) (en_salt' e) (fl_adminUser f) token) (sdb s) with
                          | (Err err, _) => (Err err, s, d)
                          | (Ok _, db) => (Ok (nets, psk, token, key), mkStore (cfg s) db, d)
                          end
                      end
                  end
              end
          end
      end
  end.

(** [opened]: the database file could be opened and brought up to date.
    [listening]: the listeners could be opened. *)
Definition runServe (opened listening : bool) (f : ServeFlags) (e : ServeEnv) (db : DB) (d : Disk)
  : result Serving * DB * Disk :=
  match check_flags f with
  | Err err => (Err err, db, d)
  | Ok (proxies, mode, prefix, prefix6) =>
      if negb opened then (Err (ErrMsg "open database"), db, d)
      else
        let '(r, s, d) := load_state f e prefix prefix6 (mkStore (mkConfig (Masked prefix) no_prefix false 0) db) d in
        let answer := r ≫= λ '(nets, psk, token, key),
          relay ← setup_relay f e d;
          tls ← tls_plan f (bool_decide (is_Some (rs_quicEndpoint relay)));
          if negb listening then Err (ErrMsg "listen")
          else
            let master := default [] (b64_std_decode psk) in
            let srv := mkServer (nc_NetworkCIDR nets) (nc_NetworkCIDR6 nets) master (fl_keepalive f)
                         (relay_observes (rs_kind relay)) (rs_stun relay)
                         (mkProxyTrust (fl_trustProxy f) proxies) ∅ in
            Ok (mkServing (mkApi (mkWorld srv s []) []) token key (keyseal_New master) (mode, fl_accessLogSize f)
                  relay tls.1 tls.2) in
        (answer, sdb s, d)
  end.
End start.

(** ** The host's firewall *)
Section ports.
Context {H : Type} `{FwHost H}.
(** The manager to close at the end, when its rule went in. *)
Definition open_api_port (f : ServeFlags) (stateFile : string) (sf : state_file) (h : H) : option Manager * state_file * H :=
  match SplitHostPort (fl_listen f) with
  | Some (_, port) =>
      match ParseInt port with
      | Some port =>
          let '(ok, m, sf, h) := OpenWithReconcile "wgmesh-server" stateFile sf h in
          if negb ok then (None, sf, h)
          else let '(ok, m, sf, h) := AllowTCP port m sf h in ((if ok : bool then Some m else None), sf, h)
      | None => (None, sf, h)
      end
  | None => (None, sf, h)
  end.
Definition open_relay_ports (f : ServeFlags) (stun : list string) (stateFile : string) (sf : state_file) (h : H)
  : option Manager * state_file * H :=
  let '(ok, m, sf, h) := OpenWithReconcile "wgmesh-server-relay" stateFile sf h in
  if negb ok then (None, sf, h)
  else
    let '(ok, m, sf, h) := AllowUDPRange (fl_relayPortMin f) (fl_relayPortMax f) m sf h in
    if negb ok then (None, sf, h)
    else
      let '(_, m, sf, h) := if 0 <? fl_relayQUICPort f
                            then AllowUDPRange (fl_relayQUICPort f) (fl_relayQUICPort f) m sf h else (true, m, sf, h) in
      let '(_, m, sf, h) := if decide (stun = []) then (true, m, sf, h)
                            else AllowUDPRange (fl_stunPort f) (fl_stunPort f + 1) m sf h in
      (Some m, sf, h).
End ports.

(** ** Routes *)
Inductive method : Type := GET | HEAD | POST | OtherMethod.
#[export] Instance method_eq_dec : EqDecision method.
Proof. solve_decision. Defined.
(** A segment of a pattern: a text, or [{id}]. *)
Inductive segment : Type := Lit (s : string) | Id.
Inductive guard : Type := Open_ | Limited | AdminOnly | SessionOnly | Ui.
#[export] Instance guard_eq_dec : EqDecision guard.
Proof. solve_decision. Defined.
(** [None]: the pattern "/", which matches every path. *)
Record route : Type := mkRoute { rt_method : method; rt_pattern : option (list segment); rt_guard : guard; rt_handler : string }.
Definition api (m : method) (l : list segment) (h : string) : route := mkRoute m (Some (Lit "api" :: l)) AdminOnly h.
Definition routes : list route :=
  [mkRoute POST (Some [Lit "enroll"]) Limited "handleEnroll"; mkRoute POST (Some [Lit "report"]) Limited "handleReport";
   mkRoute GET (Some [Lit "signal"]) Limited "handleSignalWS"; mkRoute POST (Some [Lit "relay-pair"]) Limited "handleRelayPair";
   mkRoute GET (Some [Lit "relay-ws"]) Limited "handleRelayWS"; mkRoute POST (Some [Lit "relay-quic"]) Limited "handleRelayQUICInfo";
   mkRoute POST (Some [Lit "ui-login"]) Limited "handleUILogin"; mkRoute GET None Ui "uiHandler";
   api GET [Lit "peers"] "handleListPeers"; api POST [Lit "mobile-peers"] "handleCreateMobilePeer";
   api GET [Lit "peers"; Id; Lit "config"] "handleStaticPeerConfig"; api GET [Lit "peers"; Id; Lit "ping"] "handlePingPeer";
   api POST [Lit "peers"; Id; Lit "address"] "handleUpdatePeerAddress"; api POST [Lit "peers"; Id; Lit "exit-node"] "handleSetExitNode";
   api POST [Lit "peers"; Id; Lit "revoke"] "handleRevokePeer"; api POST [Lit "peers"; Id; Lit "remove"] "handleRemovePeer";
   api GET [Lit "setup-keys"] "handleListSetupKeys"; api POST [Lit "setup-keys"] "handleCreateSetupKey";
   api POST [Lit "setup-keys"; Id; Lit "revoke"] "handleRevokeSetupKey"; api GET [Lit "link-stats"] "handleListLinkStats";
   api GET [Lit "flows"] "handleListFlows"; api GET [Lit "access-log"] "handleListAccessLog";
   api GET [Lit "server-info"] "handleServerInfo"; api GET [Lit "network"] "handleGetNetwork";
   api POST [Lit "network"; Lit "preview"] "handlePreviewNetworkMigration"; api POST [Lit "network"; Lit "apply"] "handleApplyNetworkMigration";
   api GET [Lit "dns"] "handleGetDNS"; api POST [Lit "dns"] "handleUpdateDNS"; api GET [Lit "acl"] "handleListACL";
   api GET [Lit "acl"; Lit "export"] "handleExportACL"; api POST [Lit "acl"; Lit "import"] "handleImportACL";
   api POST [Lit "acl"] "handleCreateACL"; api POST [Lit "acl"; Id; Lit "delete"] "handleDeleteACL";
   api GET [Lit "audit"] "handleListAudit"; api GET [Lit "connection-events"] "handleListConnectionEvents";
   api GET [Lit "proxy-events"] "handleListProxyEvents"; mkRoute POST (Some [Lit "api"; Lit "logout"]) Open_ "handleLogout";
   mkRoute GET (Some [Lit "api"; Lit "account"]) SessionOnly "handleAccount";
   mkRoute POST (Some [Lit "api"; Lit "account"; Lit "password"]) SessionOnly "handleChangePassword";
   api GET [Lit "users"] "handleListUsers"; api POST [Lit "users"] "handleCreateUser"; api POST [Lit "users"; Id; Lit "delete"] "handleDeleteUser";
   mkRoute GET (Some [Lit "healthz"]) Open_ "handleHealthz"].

Fixpoint matches (p : list segment) (path : list string) : bool :=
  match p, path with
  | [], [] => true
  | Lit s :: p, x :: path => bool_decide (x = s) && matches p path
  | Id :: p, x :: path => bool_decide (x ≠ "") && matches p path
  | _, _ => false
  end.
Definition route_matches (m : method) (path : list string) (r : route) : bool :=
  bool_decide (rt_method r = match m with HEAD => GET | _ => m end) && match rt_pattern r with None => true | Some p => matches p path end.
(** A pattern for GET also serves HEAD.  The mux takes the most specific pattern: one with a path before "/".  No two
    other patterns match the same request ([routes_disjoint]). *)
Definition dispatch (m : method) (path : list string) : option route :=
  match List.find (λ r, route_matches m path r && bool_decide (is_Some (rt_pattern r))) routes with
  | Some r => Some r
  | None => List.find (route_matches m path) routes
  end.
(** What a request meets before its handler: the answer of the guard, or [None]
    for the handler itself.  [limited]: over the rate limit. *)
Definition route_guard (sessionKey : list Z) (adminToken : string) (now : Z) (limited : bool) (r : Request) (cookie : option string)
    (db : DB) (g : guard) (path : list string) : option Z :=
  match g with
  | Open_ => None
  | Limited => if limited then Some 429 else None
  | AdminOnly => if requireAdmin sessionKey adminToken now r cookie db then None else Some 401
  | SessionOnly => match sessionUser sessionKey now cookie db with Some _ => None | None => Some 401 end
  | Ui => if validUISession sessionKey now cookie db then None
          else Some (if decide (path = [""]) then 200 else 404)
  end.

(** ** What a transaction leaves alone *)
Definition keeps {A} (m : tx DB A) : Prop := ∀ db a db', m db = Ok (a, db') → settings db' = settings db.
Create HintDb keeps.
Lemma keeps_bind {A B} (m : tx DB A) (g : A → tx DB B) : keeps m → (∀ a, keeps (g a)) → keeps (m ≫= g).
Proof. intros Hm Hg db b db' (a & s & H1 & H2)%tx_bind_Ok. rewrite (Hg _ _ _ _ H2). by eapply Hm. Qed.
Lemma keeps_ret {A} (a : A) : keeps (mret a : tx DB A).
Proof. by intros db b db' [= _ <-]. Qed.
Lemma keeps_fail {A} e : keeps (tx_fail e : tx DB A).
Proof. done. Qed.
Lemma keeps_get {A} (g : DB → A) : keeps (tx_get g).
Proof. by intros db b db' [= _ <-]. Qed.
Lemma keeps_put g : (∀ db, settings (g db) = settings db) → keeps (tx_put g).
Proof. intros Hg db b db' [= _ <-]. apply Hg. Qed.
Lemma keeps_lift {A} (r : result A) : keeps (tx_lift r : tx DB A).
Proof. intros db b db'. unfold tx_lift. destruct r; [|done]. by intros [= _ <-]. Qed.
Lemma keeps_query {A} (g : DB → result A) : keeps (tx_query g).
Proof. intros db b db'. unfold tx_query. destruct (g db); [|done]. by intros [= _ <-]. Qed.
Lemma keeps_iter {A} (g : A → tx DB unit) l : (∀ x, keeps (g x)) → keeps (tx_iter g l).
Proof. intros Hg. induction l as [|x l IH]; [apply keeps_ret|]. apply keeps_bind; [apply Hg|]. intros []. exact IH. Qed.
#[export] Hint Resolve keeps_ret keeps_fail keeps_get keeps_lift keeps_query : keeps.
(** Steps through a transaction; what remains are its direct definitions. *)
Ltac keeps_step :=
  first [ solve [eauto with keeps]
        | apply keeps_bind; [|intros ?]
        | apply keeps_iter; intros ?
        | apply keeps_put; intros ?; reflexivity
        | case_match ].
Ltac keeps_direct := intros ? ? ? HH; repeat (case_match; try discriminate); injection HH as <- <-; reflexivity.

Lemma keeps_put_peers l : keeps (put_peers l).
Proof. unfold put_peers. keeps_direct. Qed.
Lemma keeps_put_keys l : keeps (put_keys l).
Proof. unfold put_keys. keeps_direct. Qed.
#[export] Hint Resolve keeps_put_peers keeps_put_keys : keeps.
Lemma keeps_insert_peer mk : keeps (insert_peer mk).
Proof. by intros db a db' (_ & -> & _)%insert_peer_Ok. Qed.
Lemma keeps_insert_key mk : keeps (insert_key mk).
Proof. by intros db a db' (_ & -> & _)%insert_key_Ok. Qed.
Lemma keeps_insert_user n h t e : keeps (insert_user n h t e).
Proof. by intros db a db' (_ & _ & ->)%insert_user_Ok. Qed.
Lemma keeps_insertACLRule now rule : keeps (insertACLRule now rule).
Proof. by intros db a db' (r & _ & _ & _ & _ & _ & -> & _)%insertACLRule_Ok. Qed.
Lemma keeps_allocate c : keeps (allocate_overlay c).
Proof. by intros db [ip ip6] db' (_ & -> & _)%allocate_overlay_Ok. Qed.
Lemma keeps_address n col c : keeps (λ db, tx_lift (allocateAddr n col c db) db).
Proof. intros db a db' H. by apply keeps_lift in H. Qed.
#[export] Hint Resolve keeps_insert_peer keeps_insert_key keeps_insert_user keeps_insertACLRule keeps_allocate keeps_address : keeps.
Lemma keeps_link a b rx tx h t : keeps (upsert_link a b rx tx h t).
Proof. unfold upsert_link. keeps_direct. Qed.
Lemma keeps_event a b k f t u : keeps (insert_event a b k f t u).
Proof. unfold insert_event. keeps_direct. Qed.
Lemma keeps_path a b st e t : keeps (upsert_path a b st e t).
Proof. unfold upsert_path. keeps_direct. Qed.
Lemma keeps_flow a t f : keeps (apply_flow a t f).
Proof. unfold apply_flow. keeps_direct. Qed.
Lemma keeps_proxy a t e : keeps (apply_proxy a t e).
Proof. unfold apply_proxy. keeps_direct. Qed.
#[export] Hint Resolve keeps_link keeps_event keeps_path keeps_flow keeps_proxy : keeps.

Lemma keeps_create_user IDKey now salt u p : keeps (CreateLocalUser IDKey now salt u p).
Proof. unfold CreateLocalUser. repeat keeps_step. Qed.
Lemma keeps_seed IDKey now s1 s2 u p : keeps (EnsureSeedUser IDKey now s1 s2 u p).
Proof.
  intros db a db'. unfold EnsureSeedUser. case_match; [by intros [= _ <-]|].
  destruct (CreateLocalUser _ _ _ _ _ db) as [[x d1]|] eqn:E1; [intros [= _ <-]; by eapply keeps_create_user|].
  destruct (insert_user _ _ _ _ db) as [[x d1]|] eqn:E2; [|done]. intros [= _ <-]. by eapply keeps_insert_user.
Qed.
Lemma keeps_enroll c now raw sk pk hn lp oip pep : keeps (Enroll c now raw sk pk hn lp oip pep).
Proof. unfold Enroll, reEnroll. repeat keeps_step. Qed.
Lemma keeps_address_update c id a b : keeps (UpdatePeerAddress c id a b).
Proof. unfold UpdatePeerAddress. repeat keeps_step. Qed.
Lemma keeps_exit id e : keeps (SetExitNode id e).
Proof. unfold SetExitNode. repeat keeps_step. Qed.
Lemma keeps_static c now rk rt spec : keeps (CreateStaticPeer c now rk rt spec).
Proof. unfold CreateStaticPeer. repeat keeps_step. Qed.
Lemma keeps_report now id ip rq : keeps (ApplyReport now id ip rq).
Proof. unfold ApplyReport, apply_counter, apply_path. repeat keeps_step. Qed.
Lemma keeps_import now rules b : keeps (ImportACLRules now rules b).
Proof. unfold ImportACLRules. repeat keeps_step. Qed.
Lemma keeps_password IDKey now salt id p : keeps (SetPassword IDKey now salt id p).
Proof. unfold SetPassword. repeat keeps_step. Qed.
#[export] Hint Resolve keeps_create_user keeps_seed keeps_enroll keeps_address_update keeps_exit keeps_static keeps_report
  keeps_import keeps_password : keeps.

(** ** The networks of the mesh are those in the database *)
Definition nets_of (db : DB) : option string * option string :=
  (settings db !! settingNetworkCIDR, settings db !! settingNetworkCIDR6).
Definition named_nets (n4 n6 : Prefix) : option string * option string := (Some (prefix_string n4), Some (prefix_string n6)).
Definition stored (s : Store) : Prop :=
  nets_of (sdb s) = named_nets (network (cfg s)) (Network6 (cfg s))
  ∧ parseNetworkConfig (prefix_string (network (cfg s))) (prefix_string (Network6 (cfg s)))
    = Ok (network (cfg s), Network6 (cfg s)).
Lemma parsed_printed raw4 raw6 t4 t6 : parseNetworkConfig raw4 raw6 = Ok (t4, t6) →
  parseNetworkConfig (prefix_string t4) (prefix_string t6) = Ok (t4, t6) ∧ Masked t4 = t4 ∧ Masked t6 = t6
  ∧ net_ok t4 = true ∧ net_ok t6 = true.
Proof.
  unfold parseNetworkConfig at 1. destruct (ParsePrefix raw4) as [n4|] eqn:P4; [|done].
  destruct (Is4 (paddr n4)) eqn:F4; [|done]. destruct (ParsePrefix raw6) as [n6|] eqn:P6; [|done].
  destruct (Is6 (paddr n6)) eqn:F6; [|done]. cbn [negb]. intros [= <- <-].
  destruct (ParsePrefix_ok _ _ P4) as [V4 W4], (ParsePrefix_ok _ _ P6) as [V6 W6].
  destruct (parse_masked n4 V4 W4) as (_ & M4 & N4), (parse_masked n6 V6 W6) as (_ & M6 & N6).
  split; [|done]. apply parseNetworkConfig_masked. done.
Qed.
Lemma saveDNSConfig_nets c db u db' : saveDNSConfig c db = Ok (u, db') → nets_of db' = nets_of db.
Proof.
  unfold saveDNSConfig, upsertSetting, mbind, tx_bind, tx_put. intros [= _ <-]. unfold nets_of. cbn [settings set_settings].
  by rewrite !lookup_insert_ne by done.
Qed.
Lemma UpdateDNSConfig_nets c db x db' : UpdateDNSConfig c db = Ok (x, db') → nets_of db' = nets_of db.
Proof.
  unfold UpdateDNSConfig. intros (c1 & s1 & H1 & H)%tx_bind_Ok. apply tx_bind_Ok in H as (u & s2 & H2 & H).
  injection H as _ <-. unfold tx_lift in H1. destruct (NormalizeDNSConfig c); [|done]. injection H1 as _ <-.
  by eapply saveDNSConfig_nets.
Qed.
Lemma keeps_nets {A} (m : tx DB A) db a db' : keeps m → m db = Ok (a, db') → nets_of db' = nets_of db.
Proof. intros Hm H. unfold nets_of. by rewrite (Hm _ _ _ H). Qed.
Lemma run_db_nets {A} (m : tx DB A) s : (∀ a db', m (sdb s) = Ok (a, db') → nets_of db' = nets_of (sdb s)) →
  nets_of (sdb (run_db m s)) = nets_of (sdb s) ∧ cfg (run_db m s) = cfg s.
Proof.
  intros H. unfold run_db, run_tx. cbn [sdb cfg]. split; [|done]. destruct (m (sdb s)) as [[a db']|] eqn:E; [|done]. by eapply H.
Qed.
Lemma exec_nets IDKey o s : nets_of (sdb (exec IDKey o s)) = nets_of (sdb s) ∧ cfg (exec IDKey o s) = cfg s.
Proof.
  destruct o; cbn [exec]; apply run_db_nets; intros x db' H;
    lazymatch type of H with
    | UpdateDNSConfig _ _ = _ => by eapply UpdateDNSConfig_nets
    | _ => eapply keeps_nets; [|exact H]; first
        [ solve [eauto with keeps]
        | unfold CreateNamedSetupKey, UpdatePeerCandidates, CreateACLRuleDetailed, SetAdvertiseExitNode; solve [repeat keeps_step]
        | unfold RevokePeer, RevokeSetupKey, RemovePeer, DeleteACLRule, Audit, PruneFlows, PruneConnectionEvents,
            PruneProxyEvents, PruneAuditLog, DeleteUser; keeps_direct ]
    end.
Qed.
Lemma step_stored IDKey s s' : step IDKey s s' → stored s → stored s'.
Proof.
  intros [o t|raw4 raw6 t4 t6 t Hp] [Hn Hs].
  - unfold stored. destruct (exec_nets IDKey o t) as [-> ->]. done.
  - apply parsed_printed in Hp as (Hp & M4 & M6 & _). unfold ApplyNetworkMigration, run_store. rewrite M4, M6.
    match goal with |- context [match ?m (sdb t) with _ => _ end] => set (body := m) end.
    destruct (body (sdb t)) as [[x db]|e] eqn:E; [|done]. unfold body in E. clear body.
    apply tx_bind_Ok in E as (pl & s1 & _ & E). apply tx_bind_Ok in E as (u1 & s2 & _ & E).
    apply tx_bind_Ok in E as (u2 & s3 & _ & E). apply tx_bind_Ok in E as (u3 & s4 & H4 & E).
    apply tx_bind_Ok in E as (u4 & s5 & H5 & E). injection E as _ <-. injection H4 as _ <-. injection H5 as _ <-.
    unfold stored, nets_of, setNetworks. cbn [cfg sdb snd network Network6 settings set_settings]. rewrite M4, M6. split; [|done].
    rewrite lookup_insert_eq, lookup_insert_ne by done. by rewrite lookup_insert_eq.
Qed.
Lemma steps_stored IDKey s s' : rtc (step IDKey) s s' → stored s → mesh_ok s → stored s' ∧ mesh_ok s'.
Proof. induction 1 as [|x y z Hxy _ IH]; [done|]. intros Hs Hm. apply IH; [by eapply step_stored|by eapply step_mesh]. Qed.

Lemma mesh_ok_cfg c c' db : network c' = network c → Network6 c' = Network6 c → mesh_ok (mkStore c db) → mesh_ok (mkStore c' db).
Proof.
  destruct c as [n4 n6 al ttl], c' as [m4 m6 al' ttl']. cbn [network Network6]. intros -> -> [H1 H2 H3 H4 H5 H6].
  constructor; [exact H1|exact H2|exact H3|exact H4|exact H5|exact H6].
Qed.
Lemma mesh_ok_settings c x db : mesh_ok (mkStore c db) → mesh_ok (mkStore c (set_settings x db)).
Proof. intros H. apply (mesh_ok_peers_eq (mkStore c db)); [done|..|done|done|done]. destruct (m_db _ H). by constructor. Qed.

(** A database between two runs of the server: new, or with networks of its own. *)
Definition at_rest (db : DB) : Prop :=
  (nets_of db = (None, None) ∧ ∀ c, nets_ok c → mesh_ok (mkStore c db))
  ∨ ∃ c, stored (mkStore c db) ∧ mesh_ok (mkStore c db).
Lemma empty_at_rest : at_rest empty_db.
Proof. left. split; [done|]. intros c Hc. by apply fresh_mesh. Qed.

Lemma tx_lift_Ok {S A} (r : result A) (s s' : S) a : tx_lift r s = Ok (a, s') → r = Ok a ∧ s' = s.
Proof. unfold tx_lift. destruct r; [|done]. by intros [= <- <-]. Qed.
(** The networks of a start are the stored ones, or the flags' when there are none. *)
Lemma load_networks p p6 c db : defaults_ok p p6 → Masked p = p → Masked p6 = p6 → at_rest db →
  ∃ nets s, LoadOrInitNetworkConfig p p6 (mkStore c db) = (Ok nets, s) ∧ stored s ∧ mesh_ok s
    ∧ nets = mkNetworkConfig (prefix_string (network (cfg s))) (prefix_string (Network6 (cfg s)))
    ∧ (nets_of db = (None, None) ∨ nets_of db = nets_of (sdb s)).
Proof.
  intros Hd M4 M6 [[Hn Hm]|(c0 & [Hn Hp] & Hm)]; unfold nets_of in Hn.
  - injection Hn as E4 E6. pose proof (parseNetworkConfig_masked p p6 Hd) as Hp. rewrite M4, M6 in Hp.
    unfold LoadOrInitNetworkConfig, run_store, mbind, tx_bind, tx_get, loadNetworkConfig.
    cbn [sdb nc_NetworkCIDR nc_NetworkCIDR6]. rewrite E4, E6. cbn [default]. rewrite !decide_True by done.
    unfold upsertSetting, tx_put, tx_lift, mret, tx_ret. rewrite M4, M6, Hp. eexists _, _. split; [reflexivity|].
    unfold stored, nets_of, setNetworks. cbn [cfg sdb network Network6 fst snd settings set_settings]. rewrite M4, M6.
    split; [|split; [|split; [done|left; by rewrite E4, E6]]].
    + split; [|done]. rewrite lookup_insert_eq, lookup_insert_ne by done. by rewrite lookup_insert_eq.
    + apply mesh_ok_settings, (mesh_ok_settings _ _ db), Hm. apply parsed_printed in Hp as (_ & _ & _ & N4 & N6). by split.
  - injection Hn as E4 E6. apply parsed_printed in Hp as (Hp & K4 & K6 & N4 & N6). cbn [cfg sdb] in *.
    unfold LoadOrInitNetworkConfig, run_store, mbind, tx_bind, tx_get, loadNetworkConfig.
    cbn [sdb nc_NetworkCIDR nc_NetworkCIDR6]. rewrite E4, E6. cbn [default from_option id].
    rewrite (decide_False (P := prefix_string (network c0) = "")) by (intros E; rewrite E in Hp; discriminate Hp).
    rewrite (decide_False (P := prefix_string (Network6 c0) = ""))
      by (intros E; rewrite E in Hp; unfold parseNetworkConfig in Hp; repeat case_match; discriminate).
    unfold tx_lift, mret, tx_ret. rewrite Hp. eexists _, _.
    split; [reflexivity|]. unfold stored, nets_of, setNetworks. cbn [cfg sdb network Network6 fst snd]. rewrite K4, K6, E4, E6.
    split; [done|]. split; [by apply (mesh_ok_cfg c0)|]. split; [done|by right].
Qed.
Lemma LoadOrInitDNSConfig_only d db c db' : LoadOrInitDNSConfig d db = Ok (c, db') →
  nets_of db' = nets_of db ∧ ∃ x, db' = set_settings x db.
Proof.
  unfold LoadOrInitDNSConfig. intros (c0 & s0 & [_ ->]%tx_query_Ok & H)%tx_bind_Ok.
  apply tx_bind_Ok in H as (en & s1 & H1 & H). injection H1 as _ <-. apply tx_bind_Ok in H as (m & s2 & H2 & H). injection H2 as _ <-.
  apply tx_bind_Ok in H as (c1 & s3 & [_ ->]%tx_lift_Ok & H). apply tx_bind_Ok in H as (u & s4 & H4 & H). injection H as _ <-.
  split; [by eapply saveDNSConfig_nets|]. unfold saveDNSConfig, upsertSetting, mbind, tx_bind, tx_put in H4. injection H4 as _ <-.
  by eexists.
Qed.

(** What a start makes of the database, whether it succeeds or not. *)
Record started_from (db : DB) (nets : NetworkConfig) (s : Store) : Prop := {
  st_stored : stored s;
  st_mesh : mesh_ok s;
  st_nets : nets = mkNetworkConfig (prefix_string (network (cfg s))) (prefix_string (Network6 (cfg s)));
  st_kept : nets_of db = (None, None) ∨ nets_of db = nets_of (sdb s)
}.
Lemma started_policy db nets s a t : started_from db nets s →
  started_from db nets (mkStore (mkConfig (network (cfg s)) (Network6 (cfg s)) a t) (sdb s)).
Proof. intros [H1 H2 H3 H4]. destruct s as [c sd]. split; try done. by apply (mesh_ok_cfg c). Qed.
Lemma started_db db nets s db' : nets_of db' = nets_of (sdb s) → mesh_ok (mkStore (cfg s) db') → started_from db nets s →
  started_from db nets (mkStore (cfg s) db').
Proof.
  intros Hn Hm [[H1 H1'] H2 H3 H4]. split; [|done|done|cbn [sdb]; by rewrite Hn]. split; [|done]. cbn [sdb]. by rewrite Hn.
Qed.
Lemma started_dns db nets s d x db' : run_tx (LoadOrInitDNSConfig d) (sdb s) = (Ok x, db') → started_from db nets s →
  started_from db nets (mkStore (cfg s) db').
Proof.
  unfold run_tx. destruct (LoadOrInitDNSConfig d (sdb s)) as [[y d1]|] eqn:E; [|done]. intros [= _ <-] H.
  destruct (LoadOrInitDNSConfig_only _ _ _ _ E) as (Hn & x' & ->). destruct s as [c sd].
  apply started_db; [done| |done]. apply mesh_ok_settings, H.
Qed.
Lemma started_seed IDKey now s1 s2 u p db nets s x db' :
  run_tx (EnsureSeedUser IDKey now s1 s2 u p) (sdb s) = (Ok x, db') → started_from db nets s →
  started_from db nets (mkStore (cfg s) db').
Proof.
  intros E H. assert (mkStore (cfg s) db' = exec IDKey (OpSeedUser now s1 s2 u p) s) as Hx
    by (cbn [exec]; unfold run_db; by rewrite E).
  apply started_db; [|rewrite Hx; by apply exec_mesh, H|done]. pose proof (exec_nets IDKey (OpSeedUser now s1 s2 u p) s) as [Hn _].
  by rewrite <- Hx in Hn.
Qed.

Lemma load_state_started IDKey ParseKey f e p p6 c db d r s d' :
  defaults_ok p p6 → Masked p = p → Masked p6 = p6 → at_rest db →
  load_state IDKey ParseKey f e p p6 (mkStore c db) d = (r, s, d') →
  ∃ nets, started_from db nets s ∧ ∀ x, r = Ok x → x.1.1.1 = nets.
Proof.
  intros Hd M4 M6 Hr. unfold load_state.
  destruct (load_networks p p6 c db Hd M4 M6 Hr) as (nets & s0 & -> & H1 & H2 & H3 & H4).
  assert (started_from db nets s0) as Hs by done. clear H1 H2 H3 H4.
  destruct (parse_policy _) as [allow|]; [|by intros [= <- <- <-]; eexists].
  apply (started_policy _ _ _ allow (fl_tokenTTL f)) in Hs. set (s1 := mkStore _ (sdb s0)) in *.
  destruct (run_tx (LoadOrInitDNSConfig _) _) as [[x|err] db1] eqn:E1; [|by intros [= <- <- <-]; eexists].
  apply (started_dns _ _ _ _ _ _ E1) in Hs.
  destruct (LoadOrGenerate _ _ _ d) as [[psk|] d1]; [|by intros [= <- <- <-]; eexists].
  destruct (loadOrGenerateAdminToken _ _ d1) as [[token|] d2]; [|by intros [= <- <- <-]; eexists].
  destruct (loadOrGenerateSessionKey _ _ d2) as [[key|] d3]; [|by intros [= <- <- <-]; eexists].
  destruct (run_tx (EnsureSeedUser _ _ _ _ _ _) _) as [[y|err] db2] eqn:E2; [|by intros [= <- <- <-]; eexists].
  apply (started_seed _ _ _ _ _ _ _ _ _ _ _ E2) in Hs. intros [= <- <- <-]. eexists. split; [exact Hs|]. by intros x' [= <-].
Qed.

(** ** Lives of a server *)
Section lives.
Context (Quote : string → string) (ParseDuration : string → option Z).
Context (IDKey : list Z → list Z → Z → Z → Z → Z → list Z).
Context (KeyBytes : string → option (list Z)) (ParseKey : string → option string) (PublicKey : list Z → list Z)
  (KeyString : list Z → string) (KeyOk ResolveUDPAddr : string → bool).
(** A start with its flags and, if it succeeds, the requests until the end. *)
Record life : Type := mkLife {
  lf_opened : bool; lf_listening : bool; lf_flags : ServeFlags; lf_env : ServeEnv; lf_requests : list request
}.
(** What a started server is after [qs]. *)
Definition answers (sg : Serving) (qs : list request) : Api :=
  foldl (λ a q, serve Quote ParseDuration IDKey KeyBytes PublicKey KeyString (sg_sessionKey sg) (sg_adminToken sg)
                  KeyOk ResolveUDPAddr q a) (sg_api sg) qs.
Definition start (l : life) (st : DB * Disk) : result Serving * DB * Disk :=
  runServe IDKey ParseKey (lf_opened l) (lf_listening l) (lf_flags l) (lf_env l) st.1 st.2.
Definition live (st : DB * Disk) (l : life) : DB * Disk :=
  match start l st with
  | (Err _, db, d) => (db, d)
  | (Ok sg, _, d) => (w_db (ap_world (answers sg (lf_requests l))), d)
  end.

Lemma answers_moves sg qs : moves IDKey (ap_world (sg_api sg)) (ap_world (answers sg qs)).
Proof using.
  unfold answers. generalize (sg_api sg). induction qs as [|q qs IH]; intros a; [apply moves_refl|].
  eapply moves_trans; [|apply IH]. apply serve_moves.
Qed.
Lemma parse4_ok raw p : parseNetwork4 raw = Ok p →
  prefix_valid p = true ∧ addr_wf (paddr p) = true ∧ Is4 (paddr p) = true ∧ Masked p = p.
Proof using.
  unfold parseNetwork4. destruct (ParsePrefix raw) as [n|] eqn:P; [|done]. destruct (Is4 (paddr n)) eqn:F; [|done].
  intros [= <-]. destruct (ParsePrefix_ok _ _ P) as [V W]. destruct (parse_masked n V W) as (_ & M & N).
  destruct (Masked_family n V) as [E _]. unfold net_ok in N. rewrite !andb_true_iff in N. rewrite E. destruct N as [[[N1 N2] N3] N4]. done.
Qed.
Lemma parse6_ok raw p : parseNetwork6 raw = Ok p →
  prefix_valid p = true ∧ addr_wf (paddr p) = true ∧ Is6 (paddr p) = true ∧ Masked p = p.
Proof using.
  unfold parseNetwork6. destruct (ParsePrefix raw) as [n|] eqn:P; [|done]. destruct (Is6 (paddr n)) eqn:F; [|done].
  intros [= <-]. destruct (ParsePrefix_ok _ _ P) as [V W]. destruct (parse_masked n V W) as (_ & M & N).
  destruct (Masked_family n V) as [_ E]. unfold net_ok in N. rewrite !andb_true_iff in N. rewrite E. destruct N as [[[N1 N2] N3] N4]. done.
Qed.
Lemma check_flags_Ok f proxies mode p p6 : check_flags f = Ok (proxies, mode, p, p6) →
  defaults_ok p p6 ∧ Masked p = p ∧ Masked p6 = p6 ∧ minKeepaliveSeconds ≤ fl_keepalive f ≤ maxKeepaliveSeconds
  ∧ (fl_trustProxy f = true → proxies = []).
Proof using.
  unfold check_flags. destruct (fl_trustProxy f && _) eqn:E1; [done|]. unfold mbind, result_bind.
  destruct (parseTrustedProxies _) as [ps|] eqn:E2; [|done]. destruct (fl_proxyProtocol f && _); [done|].
  destruct (_ || _) eqn:E3; [done|]. destruct (bool_decide _ && fl_noTLS f); [done|].
  destruct (parseAccessLogMode _); [|done]. destruct (parseNetwork4 _) as [q|] eqn:E4; [|done].
  destruct (parseNetwork6 _) as [q6|] eqn:E6; [|done]. intros [= <- <- <- <-].
  apply parse4_ok in E4 as (V4 & W4 & F4 & M4). apply parse6_ok in E6 as (V6 & W6 & F6 & M6).
  split; [done|]. split; [done|]. split; [done|]. split; [lia|]. intros Ht. rewrite Ht in E1. cbn [andb] in E1.
  apply bool_decide_eq_false in E1. assert (fl_trustedProxies f = "") as Hp by (destruct (decide (fl_trustedProxies f = "")) as [?|n]; [done|by destruct (E1 n)]).
  rewrite Hp in E2. by injection E2 as <-.
Qed.

(** Every start leaves a database at rest, and one that succeeds has the mesh it
    found there. *)
Lemma start_ok l db d r db' d' : at_rest db → start l (db, d) = (r, db', d') →
  at_rest db' ∧ ∀ sg, r = Ok sg →
    let w := ap_world (sg_api sg) in
    w_db w = db' ∧ stored (w_store w) ∧ mesh_ok (w_store w) ∧ network_agrees w
    ∧ (nets_of db = (None, None) ∨ nets_of db = nets_of db')
    ∧ minKeepaliveSeconds ≤ sv_keepalive (w_server w) ≤ maxKeepaliveSeconds
    ∧ (trustProxy (sv_trust (w_server w)) = true → trustedProxies (sv_trust (w_server w)) = []).
Proof using.
  intros Hr. unfold start, runServe. cbn [fst snd].
  destruct (check_flags (lf_flags l)) as [[[[proxies mode] p] p6]|e] eqn:Ef; [|by intros [= <- <- <-]].
  apply check_flags_Ok in Ef as (Hd & M4 & M6 & Hk & Ht).
  destruct (lf_opened l); cbn [negb]; [|by intros [= <- <- <-]].
  destruct (load_state _ _ _ _ _ _ _ _) as [[r0 s] d0] eqn:El.
  destruct (load_state_started _ _ _ _ _ _ _ _ _ _ _ _ Hd M4 M6 Hr El) as (nets & [H1 H2 H3 H4] & Hn).
  intros [= <- <- <-]. split; [right; exists (cfg s); by destruct s|].
  intros sg. unfold mbind, result_bind. destruct r0 as [[[[nets' psk] token] key]|]; [|done].
  specialize (Hn _ eq_refl). cbn [fst snd] in Hn. subst nets'.
  destruct (setup_relay _ _ _); [|done]. destruct (tls_plan _ _); [|done]. destruct (lf_listening l); [|done]. intros [= <-].
  cbn [sg_api ap_world w_store w_server sv_keepalive sv_trust trustProxy trustedProxies]. unfold w_db. cbn [w_store].
  split; [done|]. split; [done|]. split; [done|]. split; [|done]. unfold network_agrees, currentNetworkConfig. cbn. by rewrite H3.
Qed.
Lemma live_at_rest ls : ∀ st, at_rest st.1 → at_rest (foldl live st ls).1.
Proof using.
  induction ls as [|l ls IH]; intros [db d] Hr; [done|]. cbn [foldl]. apply IH. unfold live.
  destruct (start l (db, d)) as [[r db'] d'] eqn:E. destruct (start_ok _ _ _ _ _ _ Hr E) as [Hr' Hs].
  destruct r as [sg|e]; [|done]. destruct (Hs sg eq_refl) as (_ & H1 & H2 & _). cbn [fst].
  destruct (answers_moves sg (lf_requests l)) as [Hm _]. destruct (steps_stored _ _ _ Hm H1 H2) as [H1' H2'].
  right. exists (cfg (w_store (ap_world (answers sg (lf_requests l))))). unfold w_db.
  destruct (w_store (ap_world (answers sg (lf_requests l)))). done.
Qed.

(** C11: a mesh that began with an empty database outlives its server.  Let the
    server be started any number of times on it, each time with flags of its own,
    failing at any point of the start or serving any requests until it ends: those
    of operators through their guards, login and change of password included,
    enrollments, reports, relay allocations, relay and signalling connections,
    passes of the retention loops, the command that makes a setup key.  Then in
    every later run that comes up, after whatever such requests: the invariants
    of the mesh hold, the networks announced are the ones addresses are taken
    from, and at the start they are exactly those the database recorded, whatever
    the flags say; the keepalive is within its bounds, and X-Forwarded-For is
    believed from everyone or from listed proxies, never both. *)
Theorem server_restarts ls l d sg db' d' :
  let '(db, d0) := foldl live (empty_db, d) ls in
  start l (db, d0) = (Ok sg, db', d') →
  (∀ qs, let w := ap_world (answers sg qs) in mesh_ok (w_store w) ∧ network_agrees w ∧ stored (w_store w))
  ∧ (∀ n4 n6, nets_of db = (Some n4, Some n6) →
       currentNetworkConfig (ap_world (sg_api sg)) = mkNetworkConfig n4 n6)
  ∧ minKeepaliveSeconds ≤ sv_keepalive (w_server (ap_world (sg_api sg))) ≤ maxKeepaliveSeconds
  ∧ (trustProxy (sv_trust (w_server (ap_world (sg_api sg)))) = true →
       trustedProxies (sv_trust (w_server (ap_world (sg_api sg)))) = []).
Proof using.
  pose proof (live_at_rest ls (empty_db, d) empty_at_rest) as Hr. destruct (foldl live _ ls) as [db d0]. cbn [fst] in Hr.
  intros E. destruct (start_ok _ _ _ _ _ _ Hr E) as [_ Hs]. destruct (Hs sg eq_refl) as (Hdb & H1 & H2 & H3 & H4 & H5 & H6).
  split; [|split; [|done]].
  - intros qs w. destruct (answers_moves sg qs) as [Hm Hn]. destruct (steps_stored _ _ _ Hm H1 H2). auto.
  - intros n4 n6 En. destruct H4 as [H4|H4]; [congruence|]. rewrite En, <- Hdb in H4. destruct H1 as [H1 _].
    unfold network_agrees in H3. rewrite H3. unfold w_db, w_cfg in *. rewrite H1 in H4. unfold named_nets in H4. congruence.
Qed.
End lives.

(** ** Routes and certificates *)
Fixpoint clash (p q : list segment) : bool :=
  match p, q with
  | [], [] => true
  | Lit a :: p, Lit b :: q => bool_decide (a = b) && clash p q
  | Lit a :: p, Id :: q | Id :: p, Lit a :: q => bool_decide (a ≠ "") && clash p q
  | Id :: p, Id :: q => clash p q
  | _, _ => false
  end.
Lemma matches_clash p : ∀ q path, matches p path = true → matches q path = true → clash p q = true.
Proof.
  induction p as [|[a|] p IH]; intros [|[b|] q] [|x path]; cbn [matches clash]; try done;
    rewrite ?andb_true_iff, ?bool_decide_eq_true; intros [H1 H2] [H3 H4]; subst; rewrite ?andb_true_iff, ?bool_decide_eq_true; eauto.
Qed.
Definition rivals (r r' : route) : bool :=
  bool_decide (rt_method r = rt_method r')
  && match rt_pattern r, rt_pattern r' with Some p, Some q => clash p q | _, _ => false end.
(** No request has two routes with a path. *)
Lemma routes_disjoint i j r r' m path : routes !! i = Some r → routes !! j = Some r' → i ≠ j →
  is_Some (rt_pattern r) → is_Some (rt_pattern r') → route_matches m path r = true → route_matches m path r' = true → False.
Proof.
  intros Hi Hj Hne [p Hp] [q Hq] H1 H2.
  assert (forallb (λ ir : nat * route, forallb (λ jr : nat * route, (ir.1 =? jr.1)%nat || negb (rivals ir.2 jr.2))
            (imap (λ k x, (k, x)) routes)) (imap (λ k x, (k, x)) routes) = true) as Hall by (vm_compute; reflexivity).
  rewrite forallb_forall in Hall.
  specialize (Hall (i, r) ltac:(apply list_elem_of_In, elem_of_lookup_imap; eauto)). rewrite forallb_forall in Hall.
  specialize (Hall (j, r') ltac:(apply list_elem_of_In, elem_of_lookup_imap; eauto)). cbn [fst snd] in Hall.
  rewrite (proj2 (Nat.eqb_neq i j) Hne) in Hall. cbn [orb] in Hall. apply negb_true_iff in Hall. unfold rivals, route_matches in *.
  rewrite Hp, Hq in *. apply andb_prop in H1 as [E1 M1], H2 as [E2 M2]. apply bool_decide_eq_true in E1, E2.
  rewrite (matches_clash p q path M1 M2), (bool_decide_eq_true_2 _ (eq_trans E1 (eq_sym E2))) in Hall. done.
Qed.
(** Nothing below /api is handled without credentials, save the end of a session. *)
Lemma api_guarded sessionKey token now limited q cookie db m rest r :
  dispatch m ("api" :: rest) = Some r →
  requireAdmin sessionKey token now q cookie db = false → sessionUser sessionKey now cookie db = None →
  rt_handler r = "handleLogout"
  ∨ route_guard sessionKey token now limited q cookie db (rt_guard r) ("api" :: rest) ∈ [Some 401; Some 404].
Proof.
  intros Hd Ha Hs.
  assert (r ∈ routes ∧ route_matches m ("api" :: rest) r = true) as [Hin Hm].
  { unfold dispatch in Hd. destruct (List.find _ routes) as [r0|] eqn:E.
    - injection Hd as ->. apply List.find_some in E as [E H]. apply andb_prop in H as [H _]. split; [by apply list_elem_of_In|done].
    - apply List.find_some in Hd as [E' H]. split; [by apply list_elem_of_In|done]. }
  unfold route_matches in Hm. apply andb_prop in Hm as [_ Hm]. unfold route_guard, validUISession. rewrite Ha, Hs.
  assert (Forall (λ r, match rt_pattern r with Some (Lit s :: _) => s ≠ "api" ∨ rt_handler r = "handleLogout"
             ∨ rt_guard r = AdminOnly ∨ rt_guard r = SessionOnly | Some _ => False | None => rt_guard r = Ui end) routes) as Hall.
  { repeat (apply Forall_cons; split; [cbn; first [left; discriminate | right; tauto | tauto]|]). apply Forall_nil_2. }
  rewrite Forall_forall in Hall. specialize (Hall r Hin). destruct (rt_pattern r) as [[|[s|] p]|]; try done.
  - cbn [matches] in Hm. apply andb_prop in Hm as [Hm _]. apply bool_decide_eq_true in Hm. subst s.
    destruct Hall as [?|[?|[-> | ->]]]; [done|by left|right; left..].
  - rewrite Hall. right. rewrite bool_decide_eq_false_2 by (by intros [? ?]). rewrite decide_False by done. right. left.
Qed.
(** With a QUIC relay the certificate always names the host agents dial. *)
Lemma relay_host_certified f plain cert : tls_plan f true = Ok (plain, cert) →
  match cert with
  | NoCert => False
  | SelfSigned hosts => relayEndpointHost (fl_relayHost f) ∈ hosts
  | Acme domains => ToLower (relayEndpointHost (fl_relayHost f)) ∈ domains
  end.
Proof.
  unfold tls_plan. destruct (decide (fl_acmeDomain f ≠ "")).
  - unfold mbind, result_bind, acmeManagedDomains. destruct (acme_names _ _) as [|d ds]; [done|].
    destruct (ParseAddr _); [done|]. intros [= <- <-]. destruct (decide (_ ∈ d :: ds)) as [?|]; [done|].
    apply elem_of_cons. right. apply elem_of_app. right. by apply list_elem_of_singleton.
  - rewrite orb_true_r. intros [= <- <-]. apply elem_of_app. right. by apply list_elem_of_singleton.
Qed.

(** ** Witness *)
Definition ex_flags (network policy : string) : ServeFlags :=
  mkFlags "127.0.0.1:8080" network "fd00:64::/64" "mesh-psk.key" 25 false "localhost,127.0.0.1" "admin-token" "session.key" "admin"
    false "" false "" "relay.example.org" "" true 51900 51999 51890 3478 "relay-secret" policy
    false "" "vpn" "" true 0 "memory" 1000.
Definition ex_env : ServeEnv :=
  mkServeEnv 0 [1] [2] (Some (StdEncode (replicate 32 7))) (Some (replicate 32 8)) (Some (replicate 32 9)) (λ _, true).
Definition ex_operator : Request :=
  mkRequest "192.0.2.7:4000" [] "curl" ("Bearer " +:+ hex_encode (replicate 32 8)) "POST" "/api/setup-keys".
Definition ex_lives : list life :=
  [mkLife true true (ex_flags "100.64.0.0/16" "allow") ex_env
     [RqAdmin 0 0 ex_operator None (AoCreateKey [9; 9; 9] (Decoded (mkKeyReq "ci" 2 "")));
      RqEnroll 0 0 [1] ex_post (Decoded (mkEnrollRequest "CQkJ" "pubA" "a" 51820 "" [] false))];
   mkLife true true (ex_flags "100.64.0.0/16" "maybe") ex_env []].
Definition ex_later : life := mkLife true true (ex_flags "10.0.0.0/8" "deny") ex_env [].
Definition ex_disk : Disk := mkDisk ∅ (λ _, false) (λ _, false).
Definition ex_rest : DB * Disk :=
  foldl (live id (λ _, Some 0) pad_key ex_parse_key Some id ex_key_string (λ _, true) (λ _, true)) (empty_db, ex_disk) ex_lives.
Lemma ex_rest_nets : nets_of ex_rest.1 = (Some "100.64.0.0/16", Some "fd00:64::/64").
Proof. vm_compute. reflexivity. Qed.
Lemma ex_rest_peers : p_assigned_ip <$> peers ex_rest.1 = ["100.64.0.1"].
Proof. vm_compute. reflexivity. Qed.
Lemma ex_later_starts : match start pad_key Some ex_later ex_rest with (Ok _, _, _) => true | _ => false end = true.
Proof. vm_compute. reflexivity. Qed.
Lemma server_restarts_witness : ∃ sg db' d',
  start pad_key Some ex_later ex_rest = (Ok sg, db', d')
  ∧ currentNetworkConfig (ap_world (sg_api sg)) = mkNetworkConfig "100.64.0.0/16" "fd00:64::/64".
Proof.
  pose proof ex_later_starts as Hs. pose proof ex_rest_nets as Hn.
  pose proof (server_restarts id (λ _, Some 0) pad_key ex_parse_key Some id ex_key_string (λ _, true) (λ _, true)
    ex_lives ex_later ex_disk) as H. change (foldl _ (empty_db, ex_disk) ex_lives) with ex_rest in H.
  destruct ex_rest as [db d0]. destruct (start pad_key Some ex_later (db, d0)) as [[[sg|e] db'] d'] eqn:E; [|discriminate Hs].
  destruct (H sg db' d' eq_refl) as (_ & Hc & _). exists sg, db', d'. split; [reflexivity|]. apply Hc. exact Hn.
Defined.

(** ** The stand-alone relay

    cmd/relay/main.go [run]: a process that ends when its listener fails or when
    it is killed; no signal is handled, so that only the first runs what was
    deferred. *)
Record RelayFlags : Type := mkRelayFlags {
  rf_dataIP : string; rf_secretFile : string; rf_portMin : Z; rf_portMax : Z; rf_stunPort : Z; rf_manageFirewall : bool
}.
Record RelayProcess : Type := mkRelayProcess { rp_secret : string; rp_pairs : gmap string pair; rp_stun : list Z }.
Section relay_process.
Context {H : Type} `{FwHost H}.
Definition open_forwarding (f : RelayFlags) (sf : state_file) (h : H) : option Manager * state_file * H :=
  if rf_manageFirewall f && (0 <? rf_portMin f) then
    let '(ok, m, sf, h) := OpenWithReconcile "wgmesh-relay" (rf_secretFile f +:+ ".fw") sf h in
    if negb ok then (None, sf, h)
    else
      let '(ok, m, sf, h) := AllowUDPRange (rf_portMin f) (rf_portMax f) m sf h in
      if negb ok then (None, sf, h)
      else
        let '(_, m, sf, h) := if 0 <? rf_stunPort f
                              then AllowUDPRange (rf_stunPort f) (rf_stunPort f + 1) m sf h else (true, m, sf, h) in
        (Some m, sf, h)
  else (None, sf, h).
Definition relay_start (f : RelayFlags) (raw : option (list Z)) (bind : Z → bool) (d : Disk) : result RelayProcess * Disk :=
  match ParseAddr (rf_dataIP f) with
  | None => (Err (ErrMsg "parse data-ip"), d)
  | Some a =>
      if decide (addr_zone a ≠ "") then (Err (ErrMsg "parse data-ip"), d)
      else
        let '(secret, d) := loadOrGenerateSecret (rf_secretFile f) raw d in
        match secret with
        | None => (Err (ErrMsg "relay secret"), d)
        | Some secret =>
            (pairs ← relay_New (mkRelayConfig (rf_portMin f) (rf_portMax f));
             Ok (mkRelayProcess secret pairs
                   (if 0 <? rf_stunPort f then default [] (NewSTUNResponder bind (rf_stunPort f)) else [])), d)
        end
  end.
(** A whole run, and what it leaves on the host. *)
Definition relay_run (f : RelayFlags) (raw : option (list Z)) (bind : Z → bool) (killed : bool) (d : Disk) (sf : state_file) (h : H)
  : result RelayProcess * Disk * state_file * H :=
  match relay_start f raw bind d with
  | (Err e, d) => (Err e, d, sf, h)
  | (Ok p, d) =>
      let '(m, sf, h) := open_forwarding f sf h in
      match m with
      | Some m => if killed then (Ok p, d, sf, h) else let '(_, _, sf, h) := Close m sf h in (Ok p, d, sf, h)
      | None => (Ok p, d, sf, h)
      end
  end.
End relay_process.
(** A run that starts has a port range the relay accepts and the secret that is
    in its file, which a server on this disk reads too. *)
Lemma relay_start_ok f raw bind d p d' : relay_start f raw bind d = (Ok p, d') →
  relay_New (mkRelayConfig (rf_portMin f) (rf_portMax f)) = Ok (rp_pairs p)
  ∧ (loadOrGenerateSecret (rf_secretFile f) raw d) = (Some (rp_secret p), d')
  ∧ Forall (λ port, 0 < port ≤ 65535) (rp_stun p).
Proof.
  unfold relay_start. destruct (ParseAddr _) as [a|]; [|done]. case_decide; [done|].
  destruct (loadOrGenerateSecret _ _ _) as [[secret|] d1]; [|done]. destruct (relay_New _) as [pairs|e]; [|done].
  cbn [mbind]. intros [= <- <-]. split; [done|]. split; [done|]. cbn. destruct (Z.ltb_spec 0 (rf_stunPort f)); [|by constructor].
  unfold NewSTUNResponder. destruct (_ || _) eqn:E; [by constructor|]. apply orb_false_iff in E as [E1 E2].
  destruct (_ && _); [|by constructor]. cbn. repeat constructor; lia.
Qed.
(** Stopped the way a service is, a relay leaves its ports open; only a listener
    that fails closes them. *)
Definition ex_relay_flags : RelayFlags := mkRelayFlags "0.0.0.0" "relay-secret" 40000 40100 3478 true.
Lemma relay_killed_leaves_ports :
  let left killed := (relay_run ex_relay_flags (Some [1; 2]) (λ _, true) killed (mkDisk ∅ (λ _, false) (λ _, false)) no_state ex_input).2 in
  ipt_ours "wgmesh-relay" (left true)
  = [rule_text iptablesBackend "wgmesh-relay" (mkRule "udp" 3478 3479);
     rule_text iptablesBackend "wgmesh-relay" (mkRule "udp" 40000 40100)]
  ∧ left false !! input_chain = ex_input !! input_chain.
Proof. split; vm_compute; reflexivity. Qed.
