(* ===== verification/AgentRelay.v ===== *)
(** * Opening a relay transport

    cmd/agent/relay.go, relayws.go and relayquic.go: asking the control plane for
    an endpoint ([requestRelayEndpoint], [requestQUICEndpoint]), opening a
    websocket or QUIC proxy for a peer ([startWSRelay], [startQUICRelay]) with
    everything that has to be given back when a step fails, the pumps of the
    websocket proxy, and its end.

    What the network, the control plane and the device say is the record of an
    attempt; [Net] is what the agent holds open for which peer and where the
    device sends the packets of each of its peers. *)
From S2P Require Import Prelude GoText TimeText NetAddr NetFacts Codec Json Schema Enroll Visibility HostPort ClientIP RelayUdp RelayFacts Handlers HandlerFacts Path ProxyTail RelayControl.
From Stdlib Require Import Ascii.

(** ** Asking the control plane *)
Fixpoint endpoint_field (ms : list (list Z * J)) (old : string) : option string :=
  match ms with
  | [] => Some old
  | (k, v) :: ms => if key_is "endpoint" k then x ← string_field v old; endpoint_field ms x else endpoint_field ms old
  end.
Definition read_endpoint (v : option J) : option string :=
  match v with Some (JObj ms) => endpoint_field ms "" | Some JNull => Some "" | _ => None end.
(** [None]: an error; the empty text: the control plane has no relay.  The
    answer is the status and the text, if any arrived. *)
Definition requestRelayEndpoint (answer : option (Z * string)) : option string :=
  match answer with
  | None => None
  | Some (status, raw) =>
      if status =? 503 then Some ""
      else if negb (status =? 200) then None
      else read_endpoint (parse_json (limited raw))
  end.
Definition requestQUICEndpoint (answer : option (Z * string)) : option string :=
  match answer with
  | None => None
  | Some (status, raw) =>
      if status =? 503 then Some ""
      else if negb (status =? 200) then None
      else read_endpoint (decode_first (limited raw))
  end.
(** What [writeJSON] and [writeError] make of a handler's reply. *)
Definition answer_text (rep : reply string) : Z * string :=
  match rep with
  | Status code msg => (code, json_reply [("error", json_str msg)])
  | Good endpoint => (200, json_reply [("endpoint", json_str endpoint)])
  end.

(** ** What is held open *)
Inductive handle : Type := HContext | HWebSocket | HLoopback | HSocket | HTransport | HQuic.
#[export] Instance handle_eq_dec : EqDecision handle.
Proof. solve_decision. Defined.
#[export] Instance handle_countable : Countable handle.
Proof.
  apply (inj_countable' (λ h, match h with HContext => 0 | HWebSocket => 1 | HLoopback => 2 | HSocket => 3 | HTransport => 4 | HQuic => 5 end)%nat
    (λ n, match n with 0 => HContext | 1 => HWebSocket | 2 => HLoopback | 3 => HSocket | 4 => HTransport | _ => HQuic end)%nat).
  by intros [].
Defined.
Record Net : Type := mkNet { nt_open : gset (string * handle); nt_endpoint : gmap string (option Z) }.
Definition opens (peer : string) (h : handle) (s : Net) : Net := mkNet ({[(peer, h)]} ∪ nt_open s) (nt_endpoint s).
Definition closes (peer : string) (hs : list handle) (s : Net) : Net :=
  mkNet (nt_open s ∖ list_to_set ((λ h, (peer, h)) <$> hs)) (nt_endpoint s).
(** [ConfigureDevice] with the endpoint of one peer and [UpdateOnly]: a key the
    device does not have is left out. *)
Definition points (peer : string) (port : Z) (s : Net) : Net := mkNet (nt_open s) (alter (λ _, Some port) peer (nt_endpoint s)).

Inductive start_error : Type := errNoWSRelay | StartFailed.
(** The local port of a proxy and WireGuard's. *)
Record Proxy : Type := mkProxyPorts { px_local : Z; px_wg : Z }.

(** ** The websocket proxy *)
Record WsAttempt : Type := mkWsAttempt {
  wa_url : option string;
  wa_dial : option Z + unit;
  wa_device : option Z;
  wa_listen : option Z;
  wa_configure : bool
}.
(** [wa_dial]: the status of a refusal, if there was an answer, or success. *)
Definition startWSRelay (a : WsAttempt) (peer : string) (s : Net) : (start_error + Proxy) * Net :=
  match wa_url a with
  | None => (inl StartFailed, s)
  | Some _ =>
      let s := opens peer HContext s in
      match wa_dial a with
      | inl status =>
          (inl (if decide (status = Some 503) then errNoWSRelay else StartFailed), closes peer [HContext] s)
      | inr _ =>
          let s := opens peer HWebSocket s in
          match wa_device a with
          | None => (inl StartFailed, closes peer [HWebSocket; HContext] s)
          | Some wg =>
              if wg =? 0 then (inl StartFailed, closes peer [HWebSocket; HContext] s)
              else match wa_listen a with
                   | None => (inl StartFailed, closes peer [HWebSocket; HContext] s)
                   | Some local =>
                       let s := opens peer HLoopback s in
                       if wa_configure a then (inr (mkProxyPorts local wg), points peer local s)
                       else (inl StartFailed, closes peer [HLoopback; HWebSocket; HContext] s)
                   end
          end
      end
  end.
(** [wsRelayProxy.close] *)
Definition close_ws (peer : string) (s : Net) : Net := closes peer [HContext; HLoopback; HWebSocket] s.

(** The pumps: what WireGuard's side brings ([None]: the read fails; else the
    port, whether the address is a loopback one, and the datagram), what the
    websocket brings ([None]: an error; else whether the message is a binary one),
    and which writes succeed.  The result is what was passed on and how the pump
    stands. *)
Inductive pump : Type := Running | Stopped | Closed.
Fixpoint udpToWS (wgPort : Z) (write : list Z → bool) (reads : list (option (Z * bool * list Z))) : list (list Z) * pump :=
  match reads with
  | [] => ([], Running)
  | None :: _ => ([], Stopped)
  | Some (port, loopback, data) :: reads =>
      if negb (port =? wgPort) || negb loopback then udpToWS wgPort write reads
      else if write data then let '(sent, e) := udpToWS wgPort write reads in (data :: sent, e) else ([], Closed)
  end.
Fixpoint wsToUDP (write : list Z → bool) (messages : list (option (bool * list Z))) : list (list Z) * pump :=
  match messages with
  | [] => ([], Running)
  | None :: _ => ([], Closed)
  | Some (binary, data) :: messages =>
      if negb binary then wsToUDP write messages
      else if write data then let '(sent, e) := wsToUDP write messages in (data :: sent, e) else ([], Stopped)
  end.
(** [p.stop] and [p.close], and [alive]. *)
Definition pump_ends (peer : string) (e : pump) (s : Net) : Net :=
  match e with Running => s | Stopped => closes peer [HContext] s | Closed => close_ws peer s end.
Definition alive (peer : string) (s : Net) : bool := bool_decide ((peer, HContext) ∈ nt_open s).

(** ** The QUIC proxy *)
Record QuicAttempt : Type := mkQuicAttempt {
  qa_answer : option (Z * string);
  qa_tls : bool; qa_resolve : bool; qa_bind : bool; qa_dial : bool; qa_datagrams : bool; qa_stream : bool; qa_sent : bool;
  qa_ack : option string; qa_device : option Z; qa_listen : option Z; qa_configure : bool
}.
Definition closeDial (peer : string) (s : Net) : Net := closes peer [HQuic; HContext; HTransport; HSocket] s.
Definition ok_line : string := "ok" +:+ String "010" "".
Definition startQUICRelay (a : QuicAttempt) (peer : string) (s : Net) : (start_error + Proxy) * Net :=
  match requestQUICEndpoint (qa_answer a) with
  | None | Some "" => (inl StartFailed, s)
  | Some _ =>
      if negb (qa_tls a) || negb (qa_resolve a) || negb (qa_bind a) then (inl StartFailed, s)
      else
        let s := opens peer HContext (opens peer HTransport (opens peer HSocket s)) in
        if negb (qa_dial a) then (inl StartFailed, closes peer [HContext; HTransport; HSocket] s)
        else
          let s := opens peer HQuic s in
          if negb (qa_datagrams a) || negb (qa_stream a) || negb (qa_sent a) then (inl StartFailed, closeDial peer s)
          else if decide (qa_ack a ≠ Some ok_line) then (inl StartFailed, closeDial peer s)
          else match qa_device a with
               | None => (inl StartFailed, closeDial peer s)
               | Some wg =>
                   if wg =? 0 then (inl StartFailed, closeDial peer s)
                   else match qa_listen a with
                        | None => (inl StartFailed, closeDial peer s)
                        | Some local =>
                            let s := opens peer HLoopback s in
                            if qa_configure a then (inr (mkProxyPorts local wg), points peer local s)
                            else (inl StartFailed, closeDial peer (closes peer [HLoopback] s))
                        end
               end
  end.
(** [quicRelayProxy.close] *)
Definition close_quic (peer : string) (s : Net) : Net := closes peer [HContext; HLoopback; HQuic; HTransport; HSocket] s.

(** ** Nothing is left open *)
Definition idle (peer : string) (s : Net) : Prop := ∀ h, (peer, h) ∉ nt_open s.
(** [s'] holds [hs] for the peer and is otherwise as [s]. *)
Definition holds (peer : string) (hs : list handle) (s s' : Net) : Prop :=
  ∀ q h, (q, h) ∈ nt_open s' ↔ (q, h) ∈ nt_open s ∨ q = peer ∧ h ∈ hs.
Lemma holds_nil peer s : holds peer [] s s.
Proof. intros q h. set_solver. Qed.
Lemma holds_opens peer h hs s s' : holds peer hs s s' → holds peer (h :: hs) s (opens peer h s').
Proof. intros H q k. unfold opens. cbn [nt_open]. rewrite elem_of_union, elem_of_singleton, (H q k). set_solver. Qed.
Lemma holds_closes peer cs hs s s' : idle peer s → holds peer hs s s' → (∀ h, h ∈ hs → h ∈ cs) → holds peer [] s (closes peer cs s').
Proof.
  intros Hi H Hc q k. unfold closes. cbn [nt_open]. rewrite elem_of_difference, elem_of_list_to_set, list_elem_of_fmap, (H q k).
  split.
  - intros [[?|[-> Hk]] Hn]; [by left|]. destruct Hn. exists k. split; [done|by apply Hc].
  - intros [Hk|[_ Hk]]; [|by apply elem_of_nil in Hk]. split; [by left|]. intros (h & [= -> ->] & _). by destruct (Hi h).
Qed.
Lemma holds_nothing peer s s' : holds peer [] s s' → nt_endpoint s' = nt_endpoint s → s' = s.
Proof.
  intros H E. destruct s as [o e], s' as [o' e']. cbn in *. subst e'. f_equal. apply set_eq. intros [q h]. rewrite (H q h).
  cbn. set_solver.
Qed.
Lemma holds_points peer p hs s s' : holds peer hs s s' → holds peer hs s (points peer p s').
Proof. done. Qed.
Lemma holds_released peer cs hs s s' :
  idle peer s → holds peer hs s s' → (∀ h, h ∈ hs → h ∈ cs) → nt_open (closes peer cs s') = nt_open s.
Proof. intros Hi H Hc. apply set_eq. intros [q h]. rewrite (holds_closes peer cs hs s s' Hi H Hc q h). set_solver. Qed.
Lemma closes_closes peer cs ds s : closes peer cs (closes peer ds s) = closes peer (cs ++ ds) s.
Proof. unfold closes. cbn. f_equal. apply set_eq. intros [q h]. rewrite fmap_app, list_to_set_app_L. set_solver. Qed.
Create HintDb relay.
#[export] Hint Resolve holds_nil holds_opens holds_points : relay.
Ltac given_back := eapply holds_nothing; [eapply holds_closes; [eassumption|eauto 12 with relay|set_solver]|reflexivity].

Lemma startWSRelay_balanced a peer s : idle peer s →
  match startWSRelay a peer s with
  | (inl _, s') => s' = s
  | (inr p, s') => holds peer [HLoopback; HWebSocket; HContext] s s' ∧ nt_endpoint s' = alter (λ _, Some (px_local p)) peer (nt_endpoint s)
      ∧ wa_device a = Some (px_wg p) ∧ px_wg p ≠ 0
  end.
Proof.
  intros Hi. unfold startWSRelay. destruct (wa_url a); [|done]. destruct (wa_dial a); [given_back|].
  destruct (wa_device a) as [wg|]; [|given_back]. destruct (Z.eqb_spec wg 0); [given_back|].
  destruct (wa_listen a) as [local|]; [|given_back]. destruct (wa_configure a); [|given_back].
  split; [eauto 12 with relay|done].
Qed.
Lemma startQUICRelay_balanced a peer s : idle peer s →
  match startQUICRelay a peer s with
  | (inl _, s') => s' = s
  | (inr p, s') => holds peer [HLoopback; HQuic; HContext; HTransport; HSocket] s s'
      ∧ nt_endpoint s' = alter (λ _, Some (px_local p)) peer (nt_endpoint s) ∧ qa_device a = Some (px_wg p) ∧ px_wg p ≠ 0
  end.
Proof.
  intros Hi. unfold startQUICRelay. destruct (requestQUICEndpoint _) as [[|c t]|]; [done| |done].
  destruct (_ || _); [done|]. destruct (qa_dial a); cbn [negb]; [|given_back].
  destruct (_ || _); [given_back|]. destruct (decide _); [given_back|].
  destruct (qa_device a) as [wg|]; [|given_back]. destruct (Z.eqb_spec wg 0); [given_back|].
  destruct (qa_listen a) as [local|]; [|given_back]. destruct (qa_configure a); [split; [eauto 12 with relay|done]|].
  unfold closeDial. rewrite closes_closes. given_back.
Qed.

(** Closing a proxy gives everything back; the second close of [sync.Once]
    changes nothing. *)
Lemma proxies_closed peer s s' : idle peer s →
  (holds peer [HLoopback; HWebSocket; HContext] s s' → nt_open (close_ws peer s') = nt_open s)
  ∧ (holds peer [HLoopback; HQuic; HContext; HTransport; HSocket] s s' → nt_open (close_quic peer s') = nt_open s).
Proof.
  intros Hi. split; intros H; eapply holds_released; eauto; set_solver.
Qed.

(** Only what WireGuard's own socket sent goes out, in order. *)
Lemma udpToWS_pinned wgPort write reads d :
  d ∈ (udpToWS wgPort write reads).1 → Some (wgPort, true, d) ∈ reads.
Proof.
  induction reads as [|[[[port lo] data]|] reads IH]; cbn; [set_solver| |set_solver].
  destruct (Z.eqb_spec port wgPort), lo; cbn; [|set_solver..]. subst.
  destruct (write data), (udpToWS wgPort write reads); set_solver.
Qed.
(** A pump that has ended makes its proxy count as dead, and retiring it gives
    back everything it held. *)
Lemma pump_ended peer e s s' : idle peer s → holds peer [HLoopback; HWebSocket; HContext] s s' → e ≠ Running →
  alive peer s' = true ∧ alive peer (pump_ends peer e s') = false
  ∧ nt_open (close_ws peer (pump_ends peer e s')) = nt_open s.
Proof.
  intros Hi H He. unfold alive. rewrite bool_decide_eq_true, bool_decide_eq_false, (H peer HContext).
  destruct e; [done| |]; cbn [pump_ends]; unfold close_ws; rewrite closes_closes;
    (split_and!; [set_solver|cbn; set_solver|]); eapply holds_released; eauto; set_solver.
Qed.

(** ** The answer travels *)
Lemma limited_fits s : Z.of_nat (String.length s) ≤ 2 ^ 16 → limited s = s.
Proof.
  intros Hs. unfold limited. rewrite take_ge; [apply text_chars|].
  assert (length (chars s) = String.length s) as -> by (unfold chars; clear; induction s; simpl; lia).
  apply Nat2Z.inj_le. rewrite Nat2Z.inj_pow. exact Hs.
Qed.
(** An endpoint in printable text, in an answer of at most 64 kilobytes, is what
    the agent reads, with either decoder. *)
Lemma endpoint_read e : printable_text e → Z.of_nat (String.length (answer_text (Good e)).2) ≤ 2 ^ 16 →
  requestRelayEndpoint (Some (answer_text (Good e))) = Some e
  ∧ requestQUICEndpoint (Some (answer_text (Good e))) = Some e.
Proof.
  intros He Hs. cbn [answer_text snd] in *. unfold requestRelayEndpoint, requestQUICEndpoint.
  change (200 =? 503) with false. change (negb (200 =? 200)) with false. cbv iota. rewrite !limited_fits by done.
  set (l := json_obj [("endpoint", json_str e)] ++ [10]).
  assert (str_bytes (string_of_bytes l) = l) as Hl.
  { apply bytes_of_string. unfold l. rewrite forallb_app, json_obj_bytes; [done|].
    repeat constructor. apply quote_bytes, bytes_of_is_byte. }
  assert (parse_value (S (S (2 * length l))) l
          = Some (JObj [(str_bytes "endpoint", JStr (str_bytes e))], [10])) as Hp.
  { set (fuel := (2 * length l)%nat). assert (1 < fuel)%nat as Hf.
    { unfold fuel, l, json_obj. rewrite !length_app. simpl length. lia. }
    unfold l, json_obj. cbn [fmap list_fmap join_bytes fst snd]. rewrite <- !app_assoc. cbn [app]. rewrite open_object.
    destruct fuel as [|[|fuel]]; [lia..|].
    pose proof (parse_member_value (S (S fuel)) (str_bytes "endpoint") (json_str e) (JStr (str_bytes e)) [10] 125) as P.
    cbn [app] in P. rewrite P; [done|by apply printable_key|by apply parse_quote|by right]. }
  unfold json_reply. fold l. unfold parse_json, decode_first. rewrite Hl. cbv zeta. rewrite Hp. cbn. by rewrite str_bytes_back.
Qed.

(** ** What the path selection sees *)
Definition udp_answer_of (resolve : string → option string) (answer : option string) : udp_answer :=
  match answer with None => UdpFail | Some "" => UdpNone | Some e => UdpEndpoint (resolve e) end.

(** A relay whose ports are all taken answers as one that is not there: the
    agent stops relaying for every peer and for good, although the same request
    is answered once another pair has gone idle. *)
Definition ex_two_ports : RelayConfig := mkRelayConfig 40000 40001.
Definition ex_ask (pairs : gmap string pair) : reply string :=
  (handleRelayPair (λ _, false) no_ephemeral ex_two_ports "relay.example" sample_now sample_now
     (ex_request "BAUG") (Decoded "phone") (Some pairs) ex_world).1.1.
Definition ex_taken : gmap string pair :=
  (embedded_allocate (λ _, false) no_ephemeral ex_two_ports sample_now "another pair" ∅).2.
Lemma exhausted_ports_end_relaying resolve x :
  ex_ask ex_taken = Status 503 "relay port range exhausted"
  ∧ ex_ask ∅ = Good "relay.example:40001"
  ∧ switchToRelay relayUDP
      (mkAnswers None WsFail (udp_answer_of resolve (requestRelayEndpoint (Some (answer_text (ex_ask ex_taken))))) true)
      x false = (false, x, true).
Proof. split_and!; [vm_compute; reflexivity..|]. assert (ex_ask ex_taken = Status 503 "relay port range exhausted") as -> by (vm_compute; reflexivity). reflexivity. Qed.
