(* ===== verification/Iface.v ===== *)
(** * The overlay interface

    cmd/agent/iface_linux.go over the class [NetLink] of what it asks of the
    kernel, and iface_windows.go over the class [Netsh] of the command line tool
    it runs.  The reporter's [applySelfAssignment] is put together with the Linux
    operations: the interface carries what the agent believes it carries. *)
From S2P Require Import Prelude GoText NetAddr NetFacts NetCidr Schema Dns Telemetry Candidates PeerEntries Handlers Path Sync AgentSync.
From Stdlib Require Import Ascii.

(** ** Links *)
Record Link : Type := mkLink { lk_mtu : Z; lk_up : bool; lk_addrs : gset string }.
Definition with_mtu (m : Z) (l : Link) : Link := mkLink m (lk_up l) (lk_addrs l).
Definition with_up (l : Link) : Link := mkLink (lk_mtu l) true (lk_addrs l).
Definition with_addrs (s : gset string) (l : Link) : Link := mkLink (lk_mtu l) (lk_up l) s.
Inductive link_lookup : Type := LinkFound | LinkNotFound | LookupFailed.

(** github.com/vishvananda/netlink, a link known by its name; [false] is an
    error.  [nl_parse] is its [ParseAddr]. *)
Class NetLink (T : Type) : Type := {
  nl_parse : string → option string;
  nl_by_name : string → T → link_lookup;
  nl_link_add : string → Z → T → bool * T;
  nl_set_mtu : string → Z → T → bool * T;
  nl_addr_add : string → string → T → bool * T;
  nl_addr_del : string → string → T → bool * T;
  nl_set_up : string → T → bool * T;
  nl_link_del : string → T → bool * T;
  nl_view : T → gmap string Link
}.
(** What the kernel documents: a failed call changes nothing; an address is
    added once and deleted only where it is; the size of a new link may be any. *)
Class NetLinkLaws (T : Type) `{NetLink T} : Prop := {
  nl_find n t : match nl_by_name n t with
                | LinkFound => is_Some (nl_view t !! n)
                | LinkNotFound => nl_view t !! n = None
                | LookupFailed => True
                end;
  nl_added n m t : if ((nl_link_add n m t).1 : bool)
    then nl_view t !! n = None ∧ ∃ m', nl_view (nl_link_add n m t).2 = <[n := mkLink m' false ∅]> (nl_view t)
    else nl_view (nl_link_add n m t).2 = nl_view t;
  nl_mtu_set n m t : nl_view (nl_set_mtu n m t).2
    = if (nl_set_mtu n m t).1 then alter (with_mtu m) n (nl_view t) else nl_view t;
  nl_address n a t : if (nl_addr_add n a t).1
    then ∃ l, nl_view t !! n = Some l ∧ (a ∉ lk_addrs l)
         ∧ nl_view (nl_addr_add n a t).2 = <[n := with_addrs ({[a]} ∪ lk_addrs l) l]> (nl_view t)
    else nl_view (nl_addr_add n a t).2 = nl_view t;
  nl_no_address n a t : if (nl_addr_del n a t).1
    then ∃ l, nl_view t !! n = Some l ∧ a ∈ lk_addrs l
         ∧ nl_view (nl_addr_del n a t).2 = <[n := with_addrs (lk_addrs l ∖ {[a]}) l]> (nl_view t)
    else nl_view (nl_addr_del n a t).2 = nl_view t;
  nl_up n t : nl_view (nl_set_up n t).2 = if (nl_set_up n t).1 then alter with_up n (nl_view t) else nl_view t;
  nl_deleted n t : nl_view (nl_link_del n t).2 = if (nl_link_del n t).1 then delete n (nl_view t) else nl_view t
}.

Definition wireGuardMTU : Z := 1420.
(** [true] is a nil error. *)
Definition ensurePrivileged (euid : Z) : bool := euid =? 0.

Section linux.
Context {T : Type} `{NetLink T}.

Definition createInterface (name : string) (t : T) : bool * T :=
  let '(ok, t) := nl_link_add name wireGuardMTU t in
  if negb ok then (false, t)
  else (true, match nl_by_name name t with LinkFound => (nl_set_mtu name wireGuardMTU t).2 | _ => t end).
Definition assignIPAddress (iface cidr : string) (t : T) : bool * T :=
  match nl_by_name iface t with
  | LinkFound => match nl_parse cidr with None => (false, t) | Some addr => nl_addr_add iface addr t end
  | _ => (false, t)
  end.
(** The new address goes on before the old one comes off. *)
Definition replace_linux (iface old new : string) (t : T) : bool * T :=
  if decide (old = new) then (true, t)
  else match nl_by_name iface t with
       | LinkFound =>
           let '(ok, t) := if decide (new = "") then (true, t)
                           else match nl_parse new with None => (false, t) | Some a => nl_addr_add iface a t end in
           if negb ok then (false, t)
           else if decide (old = "") then (true, t)
           else match nl_parse old with None => (false, t) | Some a => nl_addr_del iface a t end
       | _ => (false, t)
       end.
Definition bringInterfaceUp (iface : string) (t : T) : bool * T :=
  match nl_by_name iface t with LinkFound => nl_set_up iface t | _ => (false, t) end.
Definition deleteInterface (iface : string) (t : T) : bool * T :=
  match nl_by_name iface t with
  | LinkNotFound => (true, t)
  | LookupFailed => (false, t)
  | LinkFound => nl_link_del iface t
  end.

(** ** What they leave *)
Context `{!NetLinkLaws T}.
Definition addrs (iface : string) (t : T) : gset string := from_option lk_addrs ∅ (nl_view t !! iface).
(** The address a text stands for; the empty text and a bad one for none. *)
Definition addr_of (cidr : string) : gset string :=
  if decide (cidr = "") then ∅ else from_option singleton ∅ (nl_parse cidr).

Lemma link_add_addrs iface a t :
  if (nl_addr_add iface a t).1
  then (a ∉ addrs iface t) ∧ addrs iface (nl_addr_add iface a t).2 = {[a]} ∪ addrs iface t
  else nl_view (nl_addr_add iface a t).2 = nl_view t.
Proof.
  pose proof (nl_address iface a t) as L. destruct (nl_addr_add iface a t) as [[] t']; cbn in *; [|done].
  destruct L as (l & Hl & Ha & E). unfold addrs. rewrite E, Hl, lookup_insert, decide_True by done. done.
Qed.
Lemma link_del_addrs iface a t :
  if (nl_addr_del iface a t).1
  then a ∈ addrs iface t ∧ addrs iface (nl_addr_del iface a t).2 = addrs iface t ∖ {[a]}
  else nl_view (nl_addr_del iface a t).2 = nl_view t.
Proof.
  pose proof (nl_no_address iface a t) as L. destruct (nl_addr_del iface a t) as [[] t']; cbn in *; [|done].
  destruct L as (l & Hl & Ha & E). unfold addrs. rewrite E, Hl, lookup_insert, decide_True by done. done.
Qed.

(** After a success the interface has exactly the new address in place of the
    old one, and both texts stood for what they should. *)
Lemma replace_exact iface old new t t' :
  replace_linux iface old new t = (true, t') → old ≠ new →
  addrs iface t' = (addr_of new ∪ addrs iface t) ∖ addr_of old
  ∧ (new ≠ "" → is_Some (nl_parse new)) ∧ addr_of new ∩ addrs iface t = ∅
  ∧ addr_of old ⊆ addr_of new ∪ addrs iface t.
Proof.
  unfold replace_linux. intros E Hne. rewrite decide_False in E by done. destruct (nl_by_name iface t); [|done..].
  unfold addr_of. destruct (decide (new = "")) as [->|Hn].
  - cbn [negb] in E. destruct (decide (old = "")) as [->|Ho]; [done|].
    destruct (nl_parse old) as [o|]; [|done]. pose proof (link_del_addrs iface o t) as L.
    rewrite E in L. cbn in *. destruct L as [? ->]. set_solver.
  - destruct (nl_parse new) as [a|] eqn:Pn; [|done]. pose proof (link_add_addrs iface a t) as La.
    destruct (nl_addr_add iface a t) as [[] t1]; [|done]. cbn in *. destruct La as [Hna Ea].
    destruct (decide (old = "")) as [->|Ho].
    + injection E as <-. rewrite Ea. set_solver.
    + destruct (nl_parse old) as [o|]; [|done]. pose proof (link_del_addrs iface o t1) as L.
      rewrite E in L. cbn in *. destruct L as [? ->]. rewrite Ea in *. set_solver.
Qed.
(** A failure takes nothing away: the address the agent had stays. *)
Lemma replace_failed iface old new t t' :
  replace_linux iface old new t = (false, t') →
  nl_view t' = nl_view t ∨ addrs iface t' = addr_of new ∪ addrs iface t ∧ ¬ addr_of new ⊆ addrs iface t.
Proof.
  unfold replace_linux. intros E. destruct (decide (old = new)) as [|Hne]; [done|].
  destruct (nl_by_name iface t); [|by injection E as <-; left..].
  unfold addr_of. destruct (decide (new = "")) as [->|Hn].
  - cbn [negb] in E. left. destruct (decide (old = "")) as [->|Ho]; [done|].
    destruct (nl_parse old) as [o|]; [|by injection E as <-]. pose proof (link_del_addrs iface o t) as L. by rewrite E in L.
  - destruct (nl_parse new) as [a|]; [|by injection E as <-; left]. pose proof (link_add_addrs iface a t) as La.
    destruct (nl_addr_add iface a t) as [[] t1]; cbn in *; [|by injection E as <-; left].
    destruct La as [Hna Ea]. right. assert (addrs iface t' = addrs iface t1) as ->; [|set_solver].
    destruct (decide (old = "")) as [->|Ho]; [done|]. destruct (nl_parse old) as [o|]; [|by injection E as <-].
    pose proof (link_del_addrs iface o t1) as L. rewrite E in L. cbn in L. unfold addrs. by rewrite L.
Qed.
(** An interface that already has the new address can never be brought over. *)
Lemma replace_stuck iface old new a t :
  old ≠ new → new ≠ "" → nl_parse new = Some a → a ∈ addrs iface t →
  (replace_linux iface old new t).1 = false ∧ nl_view (replace_linux iface old new t).2 = nl_view t.
Proof.
  intros Hne Hn Hp Ha. destruct (replace_linux iface old new t) as [[] t'] eqn:E; cbn.
  - destruct (replace_exact _ _ _ _ _ E Hne) as (_ & _ & Hd & _). unfold addr_of in Hd.
    rewrite decide_False, Hp in Hd by done. cbn in Hd. set_solver.
  - split; [done|]. destruct (replace_failed _ _ _ _ _ E) as [|[_ Hd]]; [done|]. destruct Hd. unfold addr_of.
    rewrite decide_False, Hp by done. cbn. set_solver.
Qed.

(** A created interface is new and bare, and of the right size where the kernel
    takes it; a deleted one is gone. *)
Lemma create_fresh name t t' : createInterface name t = (true, t') →
  nl_view t !! name = None ∧ ∃ m, nl_view t' = <[name := mkLink m false ∅]> (nl_view t)
    ∧ ((∀ t, nl_by_name name t = LinkFound) → (∀ t, (nl_set_mtu name wireGuardMTU t).1 = true) → m = wireGuardMTU).
Proof.
  unfold createInterface. pose proof (nl_added name wireGuardMTU t) as L.
  destruct (nl_link_add name wireGuardMTU t) as [[] t1]; cbn in *; [|done]. destruct L as (Hn & m & E). intros [= <-].
  split; [done|]. pose proof (nl_mtu_set name wireGuardMTU t1) as M.
  destruct (nl_set_mtu name wireGuardMTU t1) as [ok t2] eqn:Em. cbn in M.
  destruct (nl_by_name name t1) eqn:Eb.
  2,3: exists m; split; [done|]; intros Hf; by rewrite Hf in Eb.
  destruct ok.
  - exists wireGuardMTU. split; [|done]. cbn. by rewrite M, E, alter_insert, decide_True.
  - exists m. cbn. split; [by rewrite M|]. intros _ Hs. specialize (Hs t1). by rewrite Em in Hs.
Qed.
Lemma delete_gone name t t' : deleteInterface name t = (true, t') → nl_view t' = delete name (nl_view t).
Proof.
  unfold deleteInterface. pose proof (nl_find name t) as F. destruct (nl_by_name name t); [|intros [= <-]; by rewrite delete_id|done].
  intros E. pose proof (nl_deleted name t) as D. by rewrite E in D.
Qed.

(** ** The agent's own addresses *)
Context {D : Type} `{WgBackend D} `{HostOps T} (iface : string).
Context (Hhost : ∀ old new h, replaceIPAddress old new h = replace_linux iface old new h).
Definition believed (a : Agent D T) : gset string := addr_of (ag_selfAddr a) ∪ addr_of (ag_selfAddr6 a).
(** The interface has the two addresses the agent believes in and no other. *)
Definition carries (a : Agent D T) : Prop :=
  addr_of (ag_selfAddr a) ∩ addr_of (ag_selfAddr6 a) = ∅ ∧ addrs iface (ag_host a) = believed a.

Lemma replaced_self old new other h h' :
  replace_linux iface old new h = (true, h') →
  addr_of old ∩ addr_of other = ∅ → addrs iface h = addr_of old ∪ addr_of other →
  addr_of new ∩ addr_of other = ∅ ∧ addrs iface h' = addr_of new ∪ addr_of other.
Proof.
  intros E Hd Hh. destruct (decide (old = new)) as [->|Hne].
  - unfold replace_linux in E. rewrite decide_True in E by done. by injection E as <-.
  - destruct (replace_exact _ _ _ _ _ E Hne) as (-> & _ & Hi & _). rewrite Hh in *. set_solver.
Qed.
Lemma replaced_covers old new h ok h' :
  replace_linux iface old new h = (ok, h') → ok = false → addrs iface h ⊆ addrs iface h'.
Proof.
  intros E ->. destruct (replace_failed _ _ _ _ _ E) as [V|[-> _]]; [|set_solver]. unfold addrs. by rewrite V.
Qed.
Lemma adopt_address_carries next next6 n n6 (a a' : Agent D T) ok :
  adopt_address next next6 n n6 a = (ok, a') → carries a →
  believed a' ⊆ addrs iface (ag_host a') ∧ (ok = true → carries a').
Proof.
  unfold adopt_address. intros E [Hd Hc].
  assert (∃ h, replace_linux iface (ag_selfAddr a) next (ag_host a) = h
    ∧ (if decide (next = ag_selfAddr a) then (true, a)
       else let '(ok, h) := replaceIPAddress (ag_selfAddr a) next (ag_host a) in
         (ok, set_self (if ok then next else ag_selfAddr a) (ag_selfAddr6 a) h a))
      = (h.1, set_self (if h.1 then next else ag_selfAddr a) (ag_selfAddr6 a) h.2 a)) as (h & Eh & E1).
  { eexists. split; [done|]. rewrite Hhost. case_decide as Hn; [|by destruct (replace_linux _ _ _ _)].
    subst. unfold replace_linux. rewrite decide_True by done. by destruct a. }
  rewrite E1 in E. clear E1. destruct h as [[] h]; cbn [fst snd negb] in E.
  2:{ injection E as <- <-. split; [|done]. cbn. pose proof (replaced_covers _ _ _ _ _ Eh eq_refl). set_solver. }
  destruct (replaced_self _ _ (ag_selfAddr6 a) _ _ Eh Hd Hc) as [Hd1 Hc1]. cbn [ag_selfAddr6 ag_selfAddr ag_host set_self] in E.
  case_decide as Hn; cbn [negb] in E.
  - injection E as <- <-. unfold carries, believed. cbn. set_solver.
  - rewrite Hhost in E. destruct (replace_linux iface (ag_selfAddr6 a) next6 h) as [[] h2] eqn:E2; cbn [negb] in E; injection E as <- <-.
    + assert (addr_of (ag_selfAddr6 a) ∩ addr_of next = ∅) as Hd2 by set_solver.
      assert (addrs iface h = addr_of (ag_selfAddr6 a) ∪ addr_of next) as Hc2 by set_solver.
      destruct (replaced_self _ _ next _ _ E2 Hd2 Hc2). unfold carries, believed. cbn. set_solver.
    + split; [|done]. unfold believed. cbn. pose proof (replaced_covers _ _ _ _ _ E2 eq_refl). set_solver.
Qed.

(** After a sync the interface carries exactly the agent's addresses; one that
    fails half-way never takes away an address the agent believes it has. *)
Lemma self_address_carried r (a a' : Agent D T) ok :
  applySelfAssignment r a = (ok, a') → carries a →
  believed a' ⊆ addrs iface (ag_host a') ∧ (ok = true → carries a').
Proof.
  unfold applySelfAssignment. intros E Hc.
  assert (believed a ⊆ addrs iface (ag_host a)) as Hb by (destruct Hc as [_ ->]; done).
  case_decide; [by injection E as <- <-|]. destruct (assigned4 r) as [[n x]|]; [|by injection E as <- <-].
  destruct (assigned6 r) as [[n6 x6]|]; [|by injection E as <- <-]. by eapply adopt_address_carries.
Qed.
End linux.

(** ** Windows *)

(** netsh with its arguments; [false] is a non-zero exit. *)
Class Netsh (T : Type) : Type := { netsh : list string → T → bool * T }.

(** [net.ParseCIDR]: the address and the length of the mask, with the printed
    forms of [net.IP]: an IPv4 address mapped into IPv6 is one of IPv4. *)
Definition cidr_parts (s : string) : option (Addr * Z) :=
  '(x, y) ← cut "/" s;
  a ← ParseAddr x;
  if decide (addr_zone a = "") then
    n ← digits y;
    if n <=? addr_width a then Some (a, n) else None
  else None.
Lemma cidr_parts_network s : ParseCIDR s = (λ '(a, n), ipnet_string a n) <$> cidr_parts s.
Proof.
  unfold ParseCIDR, cidr_parts. destruct (cut "/" s) as [[x y]|]; [|done]. cbn. destruct (ParseAddr x) as [a|]; [|done]. cbn.
  case_decide; [|done]. destruct (digits y) as [n|]; [|done]. cbn. by case_match.
Qed.
Definition is4 (a : Addr) : bool := match a with NoAddr => false | V4 _ => true | V6 z _ => Is4In6 z end.
Definition ip_text (a : Addr) : string :=
  match a with NoAddr => "<nil>" | V4 z => string4 z | V6 z _ => if Is4In6 z then string4 (z mod 2 ^ 32) else string6 z end.
Definition mask_text (a : Addr) (n : Z) : string :=
  match a with V6 _ _ => string6 (2 ^ 128 - 2 ^ (128 - n)) | _ => string4 (2 ^ 32 - 2 ^ (32 - n)) end.
Definition set_address (iface ip mask : string) : list string :=
  ["interface"; "ipv4"; "set"; "address"; "name=" +:+ iface; "static"; ip; mask].
Definition delete_address (family iface ip : string) : list string :=
  ["interface"; family; "delete"; "address"; "name=" +:+ iface; ip].

Section windows.
Context {T : Type} `{Netsh T}.
Definition assign_windows (iface cidr : string) (t : T) : bool * T :=
  match cidr_parts cidr with
  | None => (false, t)
  | Some (a, n) =>
      if negb (is4 a)
      then netsh ["interface"; "ipv6"; "add"; "address"; "interface=" +:+ iface; ip_text a +:+ "/" +:+ Itoa n] t
      else netsh (set_address iface (ip_text a) (mask_text a n)) t
  end.
Definition replace_windows (iface old new : string) (t : T) : bool * T :=
  if decide (old = new) then (true, t)
  else
    let '(ok, t) := if decide (new = "") then (true, t) else assign_windows iface new t in
    if negb ok then (false, t)
    else if decide (old = "") then (true, t)
    else match cidr_parts old with
         | None => (false, t)
         | Some (a, _) => netsh (delete_address (if is4 a then "ipv4" else "ipv6") iface (ip_text a)) t
         end.
End windows.

(** The embedded device owns its adapter: closing it removes the adapter.
    [wt_device] is the variable [wgDevice]. *)
Record Wintun : Type := mkWintun { wt_adapters : nat; wt_device : bool }.
Definition create_windows (created up : bool) (w : Wintun) : bool * Wintun :=
  if negb created then (false, w)
  else
    let w := mkWintun (S (wt_adapters w)) (wt_device w) in
    if negb up then (false, mkWintun (pred (wt_adapters w)) (wt_device w)) else (true, mkWintun (wt_adapters w) true).
Definition delete_windows (w : Wintun) : bool * Wintun :=
  if wt_device w then (true, mkWintun (pred (wt_adapters w)) false) else (true, w).
Lemma windows_adapter_returned created up w : wt_device w = false →
  let '(ok, w') := create_windows created up w in if ok then (delete_windows w').2 = w else w' = w.
Proof. destruct w as [n d]. cbn. intros ->. by destruct created, up. Qed.

(** What netsh documents: [set address] makes the address the only static one of
    its family, [delete address] takes away one that is there. *)
Class NetshLaws (T : Type) `{Netsh T} (v4 : string → T → gset string) : Prop := {
  ns_set iface ip mask t : (netsh (set_address iface ip mask) t).1 = true →
    v4 iface (netsh (set_address iface ip mask) t).2 = {[ip]};
  ns_delete iface ip t : (netsh (delete_address "ipv4" iface ip) t).1 = true → ip ∈ v4 iface t
}.
(** Moving from one IPv4 address to another always ends in an error: [set
    address] has already replaced the old address, which can then not be
    deleted. *)
Lemma windows_replace_fails {T} `{NetshLaws T v4} iface old new a n b m t :
  cidr_parts old = Some (a, n) → cidr_parts new = Some (b, m) → is4 a = true → is4 b = true →
  ip_text a ≠ ip_text b → (replace_windows iface old new t).1 = false.
Proof.
  intros Ho Hn Ha Hb Hne. unfold replace_windows.
  rewrite decide_False by (intros ->; rewrite Ho in Hn; by simplify_eq).
  rewrite decide_False by (by intros ->). unfold assign_windows. rewrite Hn, Hb. cbn [negb].
  pose proof (ns_set iface (ip_text b) (mask_text b m) t) as Hset.
  destruct (netsh (set_address _ _ _) t) as [[] t1]; cbn in *; [|done].
  rewrite decide_False by (by intros ->). rewrite Ho, Ha.
  pose proof (ns_delete iface (ip_text a) t1) as Hdel.
  destruct (netsh (delete_address _ _ _) t1) as [[] t2]; cbn in *; [|done].
  rewrite (Hset eq_refl) in Hdel. set_solver.
Qed.
(** A host of one interface with its static IPv4 addresses. *)
#[export] Instance one_netsh : Netsh (gset string) := {
  netsh args s := match args with
                  | ["interface"; "ipv4"; "set"; "address"; _; "static"; ip; _] => (true, {[ip]})
                  | ["interface"; "ipv4"; "delete"; "address"; _; ip] => (bool_decide (ip ∈ s), s ∖ {[ip]})
                  | _ => (true, s)
                  end
}.
#[export] Instance one_netsh_laws : NetshLaws (gset string) (λ _, id).
Proof. split; cbn; [done|]. intros _ ip t. by rewrite bool_decide_eq_true. Qed.
Example windows_renumbered :
  replace_windows "wg-int" "100.64.0.1/10" "100.80.0.1/10" ({["100.64.0.1"]} : gset string)
  = (false, {["100.80.0.1"]}).
Proof. vm_compute. reflexivity. Qed.

(** ** A concrete kernel *)
Definition kernel : Type := gmap string Link.
Definition on_link (n : string) (ok : Link → bool) (f : Link → Link) (t : kernel) : bool * kernel :=
  match t !! n with Some l => if ok l then (true, <[n := f l]> t) else (false, t) | None => (false, t) end.
#[export] Instance kernel_links : NetLink kernel := {
  nl_parse s := s ← (if decide (is_Some (ParseCIDR s)) then Some s else None); Some s;
  nl_by_name n t := if decide (is_Some (t !! n)) then LinkFound else LinkNotFound;
  nl_link_add n m t := if decide (is_Some (t !! n)) then (false, t) else (true, <[n := mkLink 1500 false ∅]> t);
  nl_set_mtu n m t := on_link n (λ _, true) (with_mtu m) t;
  nl_addr_add n a t := on_link n (λ l, bool_decide (a ∉ lk_addrs l)) (λ l, with_addrs ({[a]} ∪ lk_addrs l) l) t;
  nl_addr_del n a t := on_link n (λ l, bool_decide (a ∈ lk_addrs l)) (λ l, with_addrs (lk_addrs l ∖ {[a]}) l) t;
  nl_set_up n t := on_link n (λ _, true) with_up t;
  nl_link_del n t := if decide (is_Some (t !! n)) then (true, delete n t) else (false, t);
  nl_view := id
}.
Lemma alter_present (f : Link → Link) n l (t : gmap string Link) : t !! n = Some l → alter f n t = <[n := f l]> t.
Proof. intros E. apply map_eq. intros k. rewrite lookup_alter, lookup_insert. case_decide; [subst; by rewrite E|done]. Qed.
#[export] Instance kernel_links_laws : NetLinkLaws kernel.
Proof.
  split; intros; cbn; unfold on_link, id.
  - case_decide as Hn; [done|]. by rewrite <- eq_None_not_Some in Hn.
  - case_decide as Hn; cbn; [done|]. rewrite <- eq_None_not_Some in Hn. eauto.
  - destruct (t !! n) as [l|] eqn:E; cbn; [|done]. by rewrite (alter_present _ _ _ _ E).
  - destruct (t !! n) as [l|] eqn:E; cbn; [|done]. case_bool_decide; cbn; eauto.
  - destruct (t !! n) as [l|] eqn:E; cbn; [|done]. case_bool_decide; cbn; eauto.
  - destruct (t !! n) as [l|] eqn:E; cbn; [|done]. by rewrite (alter_present _ _ _ _ E).
  - by case_decide.
Qed.
(** An agent on this kernel; what else a sync asks of the system succeeds. *)
Definition kernel_host (iface : string) : HostOps kernel := {|
  replaceIPAddress := replace_linux iface;
  applyDNSConfig _ h := (DnsApplied, h);
  applyOverlayACL _ h := (true, h);
  refreshGatewayNAT _ h := (true, h);
  applyGatewayRoutes l _ h := (true, bool_decide (l ≠ []), h);
  applyExitRoutes b _ _ h := (true, b, h);
  applyExitNodeNAT b _ _ _ h := (true, b, h)
|}.
Definition iface_answer : ReportResponse :=
  mkReportResponse "100.80.0.1" "" "100.80.0.0/10" "" (mkDNS false true "vpn" [] []) [] (mkPolicy "deny" []) [] false [].
Definition iface_agent (held : gset string) : Agent device kernel :=
  mkAgent (∅ : device) {["wg-int" := mkLink 1420 true held]} ∅ ∅ [] "100.64.0.1/10" "" no_prefix
    no_prefix "" false false false false false.
Definition iface_sync (a : Agent device kernel) : bool * Agent device kernel :=
  @applySelfAssignment device kernel (kernel_host "wg-int") iface_answer a.
Example iface_moved :
  let '(ok, a) := iface_sync (iface_agent {["100.64.0.1/10"]}) in
  (ok, ag_selfAddr a, addrs "wg-int" (ag_host a)) = (true, "100.80.0.1/10", {["100.80.0.1/10"]}).
Proof. vm_compute. reflexivity. Qed.
(** Where somebody has taken the old address off the interface, the first sync
    adds the new one and fails on the old, and every later one fails on the new
    one, which is already there: the agent never applies an answer again. *)
Lemma address_never_adopted n :
  let a := (iface_sync (iface_agent ∅)).2 in
  (iface_sync (iface_agent ∅)).1 = false ∧ addrs "wg-int" (ag_host a) = {["100.80.0.1/10"]}
  ∧ Nat.iter n (λ a, (iface_sync a).2) a = a ∧ (iface_sync a).1 = false.
Proof.
  cbv zeta. assert (iface_sync (iface_sync (iface_agent ∅)).2 = (false, (iface_sync (iface_agent ∅)).2)) as E
    by (vm_compute; reflexivity).
  split; [vm_compute; reflexivity|]. split; [vm_compute; reflexivity|]. rewrite E. split; [|done].
  remember (iface_sync (iface_agent ∅)).2 as a eqn:Ea. clear Ea. induction n as [|n IH]; [done|]. change (snd (iface_sync (Nat.iter n (λ a, (iface_sync a).2) a)) = a). by rewrite IH, E.
Qed.
