(* ===== verification/Gui.v ===== *)
(** * The desktop program

    cmd/agent/status.go, gui_windows.go and gui_settings_windows.go, with the
    parts of telemetry.go that publish: the status hub and the log ring between
    the agent's loop and the window, the order of the peer list, the controller
    that starts and stops the loop, and the settings. *)
From S2P Require Import Prelude GoText NumText TimeText NetAddr NetFacts NetCidr HostPort ClientIP Schema Telemetry Collect CollectFacts Path LocalCandidates Startup Iface.
From Stdlib Require Import Ascii.

(** ** Status *)
Definition stateStopped : string := "stopped".
Definition stateStarting : string := "starting".
Definition stateRunning : string := "running".
Definition stateStopping : string := "stopping".
Definition stateError : string := "error".

(** A time is [None] when it is zero. *)
Record peerStatus : Type := mkPeerStatus {
  s_PublicKey : string; s_Hostname : string; s_AllowedIPs : list string; s_Endpoint : string; s_PathState : string;
  s_LastHandshake : option Z; s_RxBytes : Z; s_TxBytes : Z
}.
Record agentStatus : Type := mkAgentStatus {
  a_State : string; a_Err : string; a_PublicKey : string; a_ListenPort : Z; a_Server : string;
  a_OverlayAddr : string; a_OverlayAddr6 : string; a_Peers : list peerStatus
}.
Definition no_status : agentStatus := mkAgentStatus "" "" "" 0 "" "" "" [].
Record statusHub : Type := mkHub { h_on : bool; h_version : Z; h_status : agentStatus }.
Definition enable (h : statusHub) : statusHub := mkHub true (h_version h) (h_status h).
Definition update (fn : agentStatus → agentStatus) (h : statusHub) : statusHub :=
  if negb (h_on h) then h else mkHub true ((h_version h + 1) mod 2 ^ 64) (fn (h_status h)).
Definition hub_snapshot (h : statusHub) : agentStatus * Z := (h_status h, h_version h).

(** ** The log ring *)
Definition newline : ascii := "010".
Definition logRingMax : nat := 500.
Record logRing : Type := mkRing { r_lines : list string; r_partial : string; r_version : Z }.
Definition last_n {A} (n : nat) (l : list A) : list A := drop (length l - n) l.
Definition ring_write (p : string) (r : logRing) : logRing :=
  let text := r_partial r +:+ p in
  match cut_last newline text with
  | None => mkRing (r_lines r) text (r_version r)
  | Some (complete, rest) =>
      let lines := r_lines r ++ ((λ line, TrimSuffixChar line "013") <$> Split complete newline) in
      mkRing (if (logRingMax <? length lines)%nat then drop (length lines - logRingMax) lines else lines) rest
        ((r_version r + 1) mod 2 ^ 64)
  end.
Definition ring_snapshot (r : logRing) : string * Z := (Join (r_lines r) (String newline ""), r_version r).
Definition ring_clear (r : logRing) : logRing := mkRing [] (r_partial r) ((r_version r + 1) mod 2 ^ 64).
Definition empty_ring : logRing := mkRing [] "" 0.

(** [timestampLine] with the clock's text. *)
Fixpoint timestampLine (stamp s : string) : string :=
  match s with
  | EmptyString => ""
  | String c rest => if decide (c = newline) then String c (timestampLine stamp rest) else stamp +:+ s
  end.

(** What the ring shows of all that was written: the last complete lines, an
    unfinished one kept back. *)
Definition complete_lines (s : string) : list string :=
  (λ line, TrimSuffixChar line "013") <$> match cut_last newline s with None => [] | Some (c, _) => Split c newline end.
Definition unfinished (s : string) : string := match cut_last newline s with None => s | Some (_, r) => r end.

Lemma last_n_app {A} n (l k : list A) : last_n n (last_n n l ++ k) = last_n n (l ++ k).
Proof.
  unfold last_n. rewrite !length_app, length_drop. destruct (decide (length l ≤ n)%nat) as [Hn|Hn].
  - replace (length l - n)%nat with 0%nat by lia. rewrite drop_0. f_equal. lia.
  - rewrite !drop_app, !drop_drop, !length_drop. f_equal; f_equal; lia.
Qed.
Lemma cut_last_spec c s :
  match cut_last c s with
  | None => no_char c s = true
  | Some (h, r) => s = h +:+ String c r ∧ no_char c r = true
  end.
Proof.
  induction s as [|a s IH]; [done|]. cbn [cut_last]. destruct (cut_last c s) as [[h r]|].
  - destruct IH as [-> ?]. by rewrite str_app_cons.
  - case_decide as Ha; [by subst|]. rewrite no_char_cons, IH. by rewrite bool_decide_eq_true_2.
Qed.
Lemma cut_last_free c s : no_char c s = true → cut_last c s = None.
Proof.
  intros H. pose proof (cut_last_spec c s) as C. destruct (cut_last c s) as [[h r]|]; [|done]. destruct C as [-> _].
  rewrite no_char_app, no_char_cons in H. rewrite bool_decide_eq_false_2, andb_false_r in H by naive_solver. done.
Qed.
Lemma Split_app_any c a b : Split (a +:+ String c b) c = Split a c ++ Split b c.
Proof.
  induction a as [|x a IH]; [rewrite str_app_nil_l; cbn [Split]; by rewrite decide_True|]. rewrite str_app_cons. cbn [Split]. rewrite IH.
  case_decide; [done|]. pose proof (Split_ne_nil a c). by destruct (Split a c).
Qed.
Lemma lines_after s p :
  complete_lines (s +:+ p) = complete_lines s ++ complete_lines (unfinished s +:+ p)
  ∧ unfinished (s +:+ p) = unfinished (unfinished s +:+ p).
Proof.
  unfold complete_lines, unfinished. pose proof (cut_last_spec newline s) as Cs.
  destruct (cut_last newline s) as [[h r]|]; [|by rewrite app_nil_l]. destruct Cs as [-> Hr].
  rewrite str_app_assoc, str_app_cons. pose proof (cut_last_spec newline (r +:+ p)) as Ct.
  destruct (cut_last newline (r +:+ p)) as [[h' r']|] eqn:Et.
  - destruct Ct as [Ep Hr']. rewrite Ep. rewrite <- (str_app_cons newline h'), <- str_app_assoc, cut_last_app by done.
    by rewrite Split_app_any, fmap_app.
  - rewrite cut_last_app by done. by rewrite app_nil_r.
Qed.
(** Whatever the writes were cut into, the ring has the last 500 complete lines
    of everything written since it was empty. *)
Definition written (ws : list string) : string := foldl (λ s p, s +:+ p) "" ws.
Lemma ring_write_lines p s r : r_lines r = last_n logRingMax (complete_lines s) → r_partial r = unfinished s →
  r_lines (ring_write p r) = last_n logRingMax (complete_lines (s +:+ p)) ∧ r_partial (ring_write p r) = unfinished (s +:+ p).
Proof.
  intros Hl Hp. destruct (lines_after s p) as [-> ->]. unfold ring_write. rewrite Hp. generalize (unfinished s +:+ p). intros t.
  rewrite <- last_n_app, <- Hl. unfold complete_lines, unfinished.
  destruct (cut_last newline t) as [[c rest]|]; cbn [r_lines r_partial]; (split; [|done]).
  - unfold last_n. case_match eqn:Hn; [done|]. apply Nat.ltb_ge in Hn.
    replace (length _ - logRingMax)%nat with 0%nat; [done|]. lia.
  - cbn [fmap list_fmap]. rewrite app_nil_r, Hl. pose proof (last_n_app logRingMax (complete_lines s) []) as E.
    by rewrite !app_nil_r in E.
Qed.
Lemma ring_last_lines ws :
  let r := foldl (λ r p, ring_write p r) empty_ring ws in
  r_lines r = last_n logRingMax (complete_lines (written ws)) ∧ r_partial r = unfinished (written ws).
Proof.
  induction ws as [|p ws [IHl IHp]] using rev_ind; [done|]. unfold written. rewrite !foldl_app. by apply ring_write_lines.
Qed.

(** ** The list of peers *)
Definition less (a b : peerStatus) : bool :=
  if decide (bool_decide (s_Hostname a = "") ≠ bool_decide (s_Hostname b = "")) then bool_decide (s_Hostname a ≠ "")
  else if decide (s_Hostname a ≠ s_Hostname b) then str_lt (s_Hostname a) (s_Hostname b)
  else str_lt (s_PublicKey a) (s_PublicKey b).
Definition status_le (a b : peerStatus) : Prop := less b a = false.
#[export] Instance status_le_dec : RelDecision status_le := λ a b, decide (less b a = false).
(** [sort.Slice]: the keys of a device are distinct, so that the order leaves no
    choice ([sorted_unique]). *)
Definition sortPeerStatus (peers : list peerStatus) : list peerStatus := merge_sort status_le peers.

(** The order as one of texts: the name, last when empty, and then the key. *)
Definition rank (a : peerStatus) : string :=
  if decide (s_Hostname a = "") then String "001" "" else String "000" (s_Hostname a).
Lemma less_rank a b :
  less a b = str_lt (rank a) (rank b) || bool_decide (rank a = rank b) && str_lt (s_PublicKey a) (s_PublicKey b).
Proof.
  unfold less, rank. destruct (decide (s_Hostname a = "")) as [Ea|Ea], (decide (s_Hostname b = "")) as [Eb|Eb].
  - rewrite decide_False, decide_False by (rewrite Ea, Eb; by intros []). done.
  - rewrite decide_True by (rewrite Ea; by rewrite (bool_decide_eq_false_2 (s_Hostname b = ""))).
    rewrite Ea. by rewrite bool_decide_eq_false_2 by naive_solver.
  - rewrite decide_True by (rewrite Eb; by rewrite (bool_decide_eq_false_2 (s_Hostname a = ""))).
    by rewrite bool_decide_eq_true_2.
  - rewrite decide_False by (rewrite !bool_decide_eq_false_2 by done; by intros []). rewrite str_lt_same.
    case_decide as E.
    + rewrite (bool_decide_eq_false_2 (String _ _ = _)) by congruence. by rewrite orb_false_r.
    + rewrite E, str_lt_irrefl. by rewrite bool_decide_eq_true_2.
Qed.
#[export] Instance status_le_trans : Transitive status_le.
Proof.
  intros a b c. unfold status_le. rewrite !less_rank, !orb_false_iff, !andb_false_iff, !bool_decide_eq_false.
  intros [H1 K1] [H2 K2]. split; [by eapply str_le_trans|].
  destruct (decide (rank c = rank a)) as [E|E]; [right|by left].
  assert (rank a = rank b) as E1. { apply str_lt_total; [|done]. by rewrite <- E. }
  destruct K1 as [K1|K1]; [by destruct K1|]. destruct K2 as [K2|K2]; [by destruct K2; rewrite <- E1|].
  by eapply str_le_trans.
Qed.
#[export] Instance status_le_total : Total status_le.
Proof.
  intros a b. unfold status_le. destruct (less b a) eqn:E; [right|by left]. revert E. rewrite !less_rank.
  destruct (str_lt (rank b) (rank a)) eqn:E1; cbn [orb].
  - intros _. rewrite (str_lt_antisym _ _ E1). rewrite bool_decide_eq_false_2; [done|]. intros E2. rewrite E2 in E1.
    by rewrite str_lt_irrefl in E1.
  - intros [E2%bool_decide_eq_true E3]%andb_prop. rewrite E2, str_lt_irrefl, (str_lt_antisym _ _ E3). by rewrite andb_false_r.
Qed.
Lemma status_le_antisym a b : status_le a b → status_le b a → s_PublicKey a = s_PublicKey b.
Proof.
  unfold status_le. rewrite !less_rank, !orb_false_iff, !andb_false_iff, !bool_decide_eq_false. intros [H1 K1] [H2 K2].
  pose proof (str_lt_total _ _ H1 H2) as E. apply str_lt_total; naive_solver.
Qed.
(** Any sort by [less] gives this list. *)
Lemma sorted_unique peers l : NoDup (s_PublicKey <$> peers) → l ≡ₚ peers → Sorted status_le l → l = sortPeerStatus peers.
Proof.
  intros Hk Hp Hs. apply (Sorted_unique_strong status_le); [|done|apply Sorted_merge_sort, _|by rewrite Hp; symmetry; apply merge_sort_Permutation].
  intros x y Hx Hy H1 H2. unfold sortPeerStatus in Hy. rewrite merge_sort_Permutation in Hy. rewrite Hp in Hx.
  apply list_elem_of_lookup in Hx as [i Hi], Hy as [j Hj]. assert (i = j) as ->; [|congruence].
  eapply (NoDup_lookup (s_PublicKey <$> peers)); [done| |].
  - rewrite list_lookup_fmap, Hi. done.
  - rewrite list_lookup_fmap, Hj. cbn. by rewrite (status_le_antisym x y).
Qed.

(** ** What the reporter publishes *)

(** A peer of the device; a network is its masked address and the length. *)
Record GPeer : Type := mkGPeer {
  g_PublicKey : string; g_Endpoint : option string; g_AllowedIPs : list (Addr * Z);
  g_LastHandshake : option Z; g_ReceiveBytes : Z; g_TransmitBytes : Z
}.
Section publish.
Context (transport : relayTransport) (hostnames : gmap string string) (paths : gmap string PeerPath).
Definition state_of (key : string) : string := pathState transport (default new_path (paths !! key)).
Definition allowed_text (net : Addr * Z) : string :=
  if net.2 =? addr_width net.1 then ip_text net.1 else ipnet_string net.1 net.2.
Definition status_of (p : GPeer) : peerStatus :=
  mkPeerStatus (g_PublicKey p) (default "" (hostnames !! g_PublicKey p)) (allowed_text <$> g_AllowedIPs p)
    (default "" (g_Endpoint p)) (state_of (g_PublicKey p)) (g_LastHandshake p) (g_ReceiveBytes p) (g_TransmitBytes p).
Definition with_peers (peers : list peerStatus) (addr addr6 : string) (s : agentStatus) : agentStatus :=
  mkAgentStatus (a_State s) (a_Err s) (a_PublicKey s) (a_ListenPort s) (a_Server s) addr addr6 peers.
Definition publishPeers (device : option (list GPeer)) (selfAddr selfAddr6 : string) (h : statusHub) : statusHub :=
  if negb (h_on h) then h
  else match device with
       | None => h
       | Some peers => update (with_peers (sortPeerStatus (status_of <$> peers)) selfAddr selfAddr6) h
       end.
(** [currentPathStates] of the report. *)
Definition report_path_states (device : option (list GPeer)) : list PeerPathState :=
  match device with
  | None => []
  | Some peers => (λ p, mkPathState (g_PublicKey p) (state_of (g_PublicKey p)) (default "" (g_Endpoint p))) <$> peers
  end.

(** The window shows the peers of the device, each once and in the one order of
    the list, with the states the control plane is told. *)
Lemma published_peers peers addr addr6 h : h_on h = true → NoDup (g_PublicKey <$> peers) →
  let st := h_status (publishPeers (Some peers) addr addr6 h) in
  a_Peers st ≡ₚ status_of <$> peers ∧ Sorted status_le (a_Peers st) ∧ a_State st = a_State (h_status h)
  ∧ ((λ s, (s_PublicKey s, s_PathState s, s_Endpoint s)) <$> a_Peers st)
    ≡ₚ ((λ r, (ps_PeerPublicKey r, ps_State r, ps_Endpoint r)) <$> report_path_states (Some peers)).
Proof.
  intros Hon Hk. unfold publishPeers, update. rewrite Hon. cbn. split_and!; [apply merge_sort_Permutation| |done|].
  - apply Sorted_merge_sort, _.
  - unfold sortPeerStatus. rewrite merge_sort_Permutation, <- !list_fmap_compose. done.
Qed.
End publish.

(** ** What the window says of them *)
Definition peerSummary (peers : list peerStatus) : nat * nat * nat :=
  (length peers, length (filter (λ p, s_PathState p = "direct") peers),
   length (filter (λ p, s_PathState p ∈ ["ws-relay"; "udp-relay"]) peers)).
Definition peerSummaryText (peers : list peerStatus) : string :=
  let '(n, direct, relayed) := peerSummary peers in
  Itoa (Z.of_nat n) +:+ " peers · " +:+ Itoa (Z.of_nat direct) +:+ " direct · " +:+ Itoa (Z.of_nat relayed) +:+ " relayed".
(** A peer on the QUIC relay is counted nowhere. *)
Lemma quic_relay_not_counted t x key : x_relayed x = true → x_probe x = None → x_pathKind x = "quic-relay" →
  peerSummary [mkPeerStatus key "" [] "" (pathState t x) None 0 0] = (1, 0, 0)%nat.
Proof. intros Hr Hp Hk. unfold pathState. by rewrite Hp, Hr, Hk. Qed.

(** [shortAgo] of a time [d] nanoseconds ago. *)
Definition shortAgo (d : option Z) : string :=
  match d with
  | None => "never"
  | Some d =>
      if d <? 60 * Second then Itoa (Z.quot d Second) +:+ "s ago"
      else if d <? 3600 * Second then Itoa (Z.quot d (60 * Second)) +:+ "m ago"
      else Itoa (Z.quot d (3600 * Second)) +:+ "h ago"
  end.
(** The unit of [humanBytes]: the divisor and the index into "KMGTPE". *)
Fixpoint human_loop (fuel : nat) (m div exp : Z) : option (Z * Z) :=
  match fuel with
  | O => None
  | S fuel => if 1024 <=? m then human_loop fuel (Z.quot m 1024) (i64 (div * 1024)) (exp + 1) else Some (div, exp)
  end.
Definition human_unit (n : Z) : option (Z * Z) := human_loop 7 (Z.quot n 1024) 1024 0.
Lemma human_loop_ok fuel n k : 0 ≤ k ≤ 5 → 1024 ^ (k + 1) ≤ n < 2 ^ 63 → (5 - k < Z.of_nat fuel) →
  ∃ e, human_loop fuel (n / 1024 ^ (k + 1)) (1024 ^ (k + 1)) k = Some (1024 ^ (e + 1), e)
    ∧ 0 ≤ e ≤ 5 ∧ 1024 ^ (e + 1) ≤ n < 1024 ^ (e + 2).
Proof.
  revert k. induction fuel as [|fuel IH]; intros k Hk Hn Hf; [lia|]. cbn [human_loop].
  assert (0 < 1024 ^ (k + 1)) as Hp by (apply Z.pow_pos_nonneg; lia).
  assert (1024 ^ (k + 2) = 1024 ^ (k + 1) * 1024) as Hpow by (rewrite <- (Z.pow_1_r 1024) at 3; rewrite <- Z.pow_add_r by lia; f_equal; lia).
  destruct (Z.leb_spec 1024 (n / 1024 ^ (k + 1))) as [Hm|Hm].
  - assert (1024 ^ (k + 2) ≤ n) as Hge. { rewrite Hpow. pose proof (Z.mul_div_le n (1024 ^ (k + 1)) ltac:(lia)). nia. }
    assert (k < 5) as Hk5.
    { destruct (decide (k = 5)) as [->|]; [|lia]. change (1024 ^ (5 + 2)) with (2 ^ 70) in Hge.
      assert (2 ^ 63 < 2 ^ 70) by (apply Z.pow_lt_mono_r; lia). lia. }
    specialize (IH (k + 1) ltac:(lia)). rewrite <- Z.add_assoc in IH. change (1 + 1) with 2 in IH.
    destruct IH as (e & E & He); [lia|lia|]. exists e. split; [|done].
    rewrite Z.quot_div_nonneg, Z.div_div by (try apply Z.div_pos; lia). rewrite <- Hpow.
    rewrite i64_id; [done|]. unfold int64_min, int64_max. lia.
  - exists k. split; [done|]. split; [lia|]. split; [lia|]. rewrite Hpow.
    pose proof (Z.mod_pos_bound n (1024 ^ (k + 1)) Hp). pose proof (Z.div_mod n (1024 ^ (k + 1)) ltac:(lia)). nia.
Qed.
(** The divisor is the greatest power of 1024 that fits, and the index stays
    inside the six unit letters, for every count an int64 can hold. *)
Lemma human_unit_fits n : 1024 ≤ n < 2 ^ 63 →
  ∃ e, human_unit n = Some (1024 ^ (e + 1), e) ∧ 0 ≤ e ≤ 5 ∧ 1024 ^ (e + 1) ≤ n < 1024 ^ (e + 2).
Proof.
  intros Hn. unfold human_unit. rewrite Z.quot_div_nonneg by lia.
  destruct (human_loop_ok 7 n 0) as (e & E & He); [lia|cbn; lia|lia|]. exists e. by rewrite <- E.
Qed.

(** ** The controller

    A start of the agent makes a pair of channels, known by a number; [ct_cur] is
    the pair the controller holds.  A loop is started, running or stopping, and
    has finished once its last status is out; then its [done] is closed. *)
Inductive phase : Type := PStarting | PRunning | PStopping | PFinished.
Record Desk : Type := mkDesk {
  ct_cur : option nat; ct_stopped : gset nat; ct_done : gset nat; ct_next : nat;
  ct_loops : gmap nat phase; ct_hub : statusHub
}.
Definition set_state (state : string) (s : agentStatus) : agentStatus :=
  mkAgentStatus state (a_Err s) (a_PublicKey s) (a_ListenPort s) (a_Server s) (a_OverlayAddr s) (a_OverlayAddr6 s) (a_Peers s).
Definition ended (err : option string) (s : agentStatus) : agentStatus :=
  match err with
  | Some e => mkAgentStatus stateError e (a_PublicKey s) (a_ListenPort s) (a_Server s) (a_OverlayAddr s) (a_OverlayAddr6 s) []
  | None => mkAgentStatus stateStopped "" (a_PublicKey s) (a_ListenPort s) (a_Server s) (a_OverlayAddr s) (a_OverlayAddr6 s) []
  end.
Definition running (d : Desk) : bool :=
  match ct_cur d with None => false | Some g => bool_decide (g ∉ ct_done d) end.
Definition start (server : string) (d : Desk) : bool * Desk :=
  if running d then (false, d)
  else
    let g := ct_next d in
    (true, mkDesk (Some g) (ct_stopped d) (ct_done d) (S g) (<[g := PStarting]> (ct_loops d))
             (update (λ _, mkAgentStatus stateStarting "" "" 0 server "" "" []) (ct_hub d))).
Definition requestStop (d : Desk) : Desk :=
  match ct_cur d with
  | None => d
  | Some g => mkDesk (ct_cur d) ({[g]} ∪ ct_stopped d) (ct_done d) (ct_next d) (ct_loops d) (ct_hub d)
  end.
(** [stopAndWait]: what it asks, and whether it then waits for a loop to end. *)
Definition stopAndWait (d : Desk) : Desk * bool :=
  match ct_cur d with None => (d, false) | Some _ => (requestStop d, running d) end.
Definition moves (g : nat) (p : phase) (h : statusHub) (d : Desk) : Desk :=
  mkDesk (ct_cur d) (ct_stopped d) (ct_done d) (ct_next d) (<[g := p]> (ct_loops d)) h.

(** What can happen: the user's two buttons, the loop's progress, and a reporter,
    which may still publish when its loop has ended. *)
Inductive desk_step : Desk → Desk → Prop :=
| ds_start server d : desk_step d (start server d).2
| ds_stop d : desk_step d (requestStop d)
| ds_up g addr addr6 d : ct_loops d !! g = Some PStarting →
    desk_step d (moves g PRunning
      (update (λ s, set_state stateRunning (with_peers (a_Peers s) addr addr6 s)) (ct_hub d)) d)
| ds_stopping g d : ct_loops d !! g = Some PRunning → g ∈ ct_stopped d →
    desk_step d (moves g PStopping (update (set_state stateStopping) (ct_hub d)) d)
| ds_finish g p err d : ct_loops d !! g = Some p → p ≠ PFinished → p ≠ PRunning →
    desk_step d (moves g PFinished (update (ended err) (ct_hub d)) d)
| ds_closed g d : ct_loops d !! g = Some PFinished →
    desk_step d (mkDesk (ct_cur d) (ct_stopped d) ({[g]} ∪ ct_done d) (ct_next d) (delete g (ct_loops d)) (ct_hub d))
| ds_publish t hs ps device addr addr6 d :
    desk_step d (mkDesk (ct_cur d) (ct_stopped d) (ct_done d) (ct_next d) (ct_loops d)
      (publishPeers t hs ps device addr addr6 (ct_hub d))).
Definition launched : Desk := mkDesk None ∅ ∅ 0 ∅ (enable (mkHub false 0 no_status)).

Definition shows (o : option phase) (state : string) : Prop :=
  match o with
  | Some PStarting => state = stateStarting
  | Some PRunning => state = stateRunning
  | Some PStopping => state = stateStopping
  | Some PFinished => state = stateStopped ∨ state = stateError
  | None => state = "" ∨ state = stateStopped ∨ state = stateError
  end.
(** The only loop is the controller's own; the status is about it. *)
Record desk_ok (d : Desk) : Prop := {
  do_on : h_on (ct_hub d) = true;
  do_fresh : (∀ g, g ∈ ct_done d → (g < ct_next d)%nat) ∧ (∀ g, ct_cur d = Some g → (g < ct_next d)%nat);
  do_own : ∀ g p, ct_loops d !! g = Some p → ct_cur d = Some g ∧ g ∉ ct_done d;
  do_live : ∀ g, ct_cur d = Some g → g ∉ ct_done d → is_Some (ct_loops d !! g);
  do_shows : shows (g ← ct_cur d; ct_loops d !! g) (a_State (h_status (ct_hub d)))
}.
Lemma running_live d : desk_ok d → running d = true ↔ ∃ g p, ct_loops d !! g = Some p.
Proof.
  intros H. unfold running. split.
  - destruct (ct_cur d) as [g|] eqn:E; [|done]. rewrite bool_decide_eq_true. intros Hg.
    destruct (do_live _ H g E Hg) as [p ?]. eauto.
  - intros (g & p & Hp). destruct (do_own _ H _ _ Hp) as [-> ?]. by apply bool_decide_eq_true.
Qed.
Lemma idle_no_loop d g : desk_ok d → running d = false → ct_loops d !! g = None.
Proof.
  intros H Hr. destruct (ct_loops d !! g) eqn:E; [|done].
  assert (running d = true) by (apply running_live; eauto). congruence.
Qed.
Lemma moves_ok g p p' h d : desk_ok d → ct_loops d !! g = Some p → h_on h = true → shows (Some p') (a_State (h_status h)) →
  desk_ok (moves g p' h d).
Proof.
  intros H Hp Hon Hs. destruct (do_own _ H _ _ Hp) as [Hc Hd]. split; cbn; [done|apply H| | |].
  - intros k q. rewrite lookup_insert. case_decide; [by subst|apply H].
  - intros k Hk Hkd. rewrite lookup_insert. case_decide; [by eexists|]. by apply H.
  - rewrite Hc. cbn. by rewrite lookup_insert, decide_True.
Qed.
Lemma desk_step_ok d d' : desk_ok d → desk_step d d' → desk_ok d'.
Proof.
  intros H Hs. pose proof (do_on _ H) as Hon.
  assert (∀ fn, h_on (update fn (ct_hub d)) = true) as Hup by (intros; unfold update; by rewrite Hon).
  assert (∀ fn, h_status (update fn (ct_hub d)) = fn (h_status (ct_hub d))) as Hst by (intros; unfold update; by rewrite Hon).
  destruct Hs as [server d|d|g addr addr6 d Hg|g d Hg Hstop|g p err d Hg Hp Hr|g d Hg|t hs ps device addr addr6 d].
  - unfold start. destruct (running d) eqn:Er; [done|]. cbn. destruct (do_fresh _ H) as [Hf1 Hf2]. split; cbn; [apply Hup| | | |].
    + split; [intros g Hg; specialize (Hf1 g Hg); lia|intros g [= <-]; lia].
    + intros g p. rewrite lookup_insert. case_decide as E; [|by rewrite idle_no_loop]. subst. intros _. split; [done|].
      intros Hd. specialize (Hf1 _ Hd). lia.
    + intros g [= <-] _. rewrite lookup_insert, decide_True by done. by eexists.
    + rewrite lookup_insert, decide_True by done. by rewrite Hst.
  - unfold requestStop. destruct (ct_cur d) as [g|] eqn:E; [|done]. destruct H as [? ? H3 H4 H5].
    split; cbn; rewrite ?E in *; done.
  - eapply moves_ok; [done..|]. rewrite Hst. done.
  - eapply moves_ok; [done..|]. rewrite Hst. done.
  - eapply moves_ok; [done..|]. rewrite Hst. destruct err; cbn; auto.
  - destruct (do_own _ H _ _ Hg) as [Hc Hd]. pose proof (do_shows _ H) as Hsh. rewrite Hc in Hsh. cbn in Hsh. rewrite Hg in Hsh.
    destruct (do_fresh _ H) as [Hf1 Hf2]. split; cbn; [done| | | |].
    + split; [|done]. intros k [->%elem_of_singleton|Hk]%elem_of_union; auto.
    + intros k p. rewrite lookup_delete. case_decide; [done|]. intros Hk. destruct (do_own _ H _ _ Hk) as [? ?]. set_solver.
    + intros k Hk. rewrite Hc in Hk. injection Hk as <-. set_solver.
    + rewrite Hc. cbn. rewrite lookup_delete, decide_True by done. cbn in *. tauto.
  - assert (h_on (publishPeers t hs ps device addr addr6 (ct_hub d)) = true
      ∧ a_State (h_status (publishPeers t hs ps device addr addr6 (ct_hub d))) = a_State (h_status (ct_hub d))) as [E1 E2].
    { unfold publishPeers. rewrite Hon. cbn. destruct device; [|done]. by rewrite Hup, Hst. }
    destruct H as [? ? H3 H4 H5]. split; cbn; [done..|]. by rewrite E2.
Qed.
(** However the buttons are pressed: at most one loop of the agent runs, the
    button is right about whether one does, and the status is the loop's. *)
Lemma desk_reachable d : rtc desk_step launched d → desk_ok d.
Proof.
  assert (desk_ok launched) as H0 by (split; cbn; [done|split; [set_solver|done]|done|done|by left]).
  intros Hr. revert H0. induction Hr as [|x y z Hxy _ IH]; [done|]. intros H0. apply IH. by eapply desk_step_ok.
Qed.
Lemma one_loop d : rtc desk_step launched d →
  (∀ g g' p p', ct_loops d !! g = Some p → ct_loops d !! g' = Some p' → g = g')
  ∧ (∀ server, (start server d).1 = false ↔ ∃ g p, ct_loops d !! g = Some p).
Proof.
  intros H%desk_reachable. split.
  - intros g g' p p' [E _]%(do_own _ H) [E' _]%(do_own _ H). congruence.
  - intros server. rewrite <- running_live by done. unfold start. by destruct (running d).
Qed.

(** ** Labels and buttons *)
Definition stateLook (state : string) : string :=
  if decide (state = stateStarting) then "Connecting…"
  else if decide (state = stateRunning) then "Connected"
  else if decide (state = stateStopping) then "Disconnecting…"
  else if decide (state = stateError) then "Error" else "Disconnected".
(** The button's text and whether it can be pressed. *)
Definition applyToggle (state : string) : string * bool :=
  if decide (state ∈ [stateStarting; stateRunning]) then ("Disconnect", true)
  else if decide (state = stateStopping) then ("Disconnect", false) else ("Connect", true).
(** Which of the tray's two entries are disabled. *)
Definition applyTray (state : string) : bool * bool :=
  let busy := bool_decide (state ∈ [stateStarting; stateRunning; stateStopping]) in
  (busy, negb busy || bool_decide (state = stateStopping)).
(** The notice of a change of state. *)
Definition notifyTransition (lastState : string) (st : agentStatus) : option string :=
  if decide (a_State st = lastState) then None
  else if decide (a_State st = stateRunning) then Some ("Connected to " +:+ a_Server st)
  else if decide (a_State st = stateError) then Some ("Agent stopped: " +:+ a_Err st) else None.
(** A window that shows the current status offers to disconnect exactly while
    the loop has not finished, and the tray agrees. *)
Lemma buttons_match d : desk_ok d →
  let state := a_State (h_status (ct_hub d)) in
  ((applyToggle state).1 = "Disconnect" ↔ ∃ g p, ct_loops d !! g = Some p ∧ p ≠ PFinished)
  ∧ ((applyTray state).1 = true ↔ (applyToggle state).1 = "Disconnect")
  ∧ (applyTray state).2 = negb (bool_decide ((applyToggle state).1 = "Disconnect") && (applyToggle state).2).
Proof.
  intros H. pose proof (do_shows _ H) as Hs. cbv zeta.
  assert (∀ g p, ct_loops d !! g = Some p → (k ← ct_cur d; ct_loops d !! k) = Some p) as Hown.
  { intros g p Hp. destruct (do_own _ H _ _ Hp) as [-> _]. exact Hp. }
  assert ((∃ g p, ct_loops d !! g = Some p ∧ p ≠ PFinished)
    ↔ ∃ p, (k ← ct_cur d; ct_loops d !! k) = Some p ∧ p ≠ PFinished) as ->.
  { split; [naive_solver|]. intros (p & Hp & Hn). destruct (ct_cur d) as [g|]; [|done]. naive_solver. }
  destruct (g ← ct_cur d; ct_loops d !! g) as [[]|]; cbn in Hs; [subst..| |]; repeat destruct Hs as [Hs|Hs];
    rewrite ?Hs; (split; [|done]); vm_compute; split; naive_solver.
Qed.

(** ** Settings *)
Record guiSettings : Type := mkSettings {
  gs_Server : string; gs_SetupKey : string; gs_Hostname : string; gs_ListenPort : Z; gs_KeyFile : string;
  gs_ServerCA : string; gs_RelayTransport : string; gs_LogLevel : string; gs_STUNServer : string;
  gs_ManageFirewall : bool; gs_DirectProbe : bool
}.
Definition defaultGUIListenPort : Z := 51820.
Definition defaultSTUNServer : string := "stun.l.google.com:19302".
(** Fyne's preferences: what was set under a key is found there. *)
Class Preferences (P : Type) : Type := {
  pf_string : string → P → option string; pf_int : string → P → option Z; pf_bool : string → P → option bool;
  pf_set_string : string → string → P → P; pf_set_int : string → Z → P → P; pf_set_bool : string → bool → P → P
}.
Class PreferencesLaws (P : Type) `{Preferences P} : Prop := {
  pf_get_string k k' v p : pf_string k (pf_set_string k' v p) = if String.eqb k k' then Some v else pf_string k p;
  pf_get_int k k' v p : pf_int k (pf_set_int k' v p) = if String.eqb k k' then Some v else pf_int k p;
  pf_get_bool k k' v p : pf_bool k (pf_set_bool k' v p) = if String.eqb k k' then Some v else pf_bool k p;
  pf_int_string k k' v p : String.eqb k k' = false → pf_string k (pf_set_int k' v p) = pf_string k p;
  pf_bool_string k k' v p : String.eqb k k' = false → pf_string k (pf_set_bool k' v p) = pf_string k p;
  pf_string_int k k' v p : String.eqb k k' = false → pf_int k (pf_set_string k' v p) = pf_int k p;
  pf_bool_int k k' v p : String.eqb k k' = false → pf_int k (pf_set_bool k' v p) = pf_int k p
}.
Section settings.
Context {P : Type} `{Preferences P} (defaultKeyFile : string).
Definition loadSettings (p : P) : guiSettings :=
  let str k := TrimSpace (default "" (pf_string k p)) in
  mkSettings (str "server") (str "setup-key") (str "hostname")
    (default defaultGUIListenPort (pf_int "listen-port" p))
    (TrimSpace (default defaultKeyFile (pf_string "key-file" p))) (str "server-ca")
    (default "auto" (pf_string "relay-transport" p)) (default "info" (pf_string "log-level" p))
    (TrimSpace (default defaultSTUNServer (pf_string "stun-server" p)))
    (default true (pf_bool "manage-firewall" p)) (default true (pf_bool "direct-probe" p)).
Definition save (s : guiSettings) (p : P) : P :=
  let p := pf_set_string "server" (gs_Server s) p in
  let p := pf_set_string "setup-key" (gs_SetupKey s) p in
  let p := pf_set_string "hostname" (gs_Hostname s) p in
  let p := pf_set_int "listen-port" (gs_ListenPort s) p in
  let p := pf_set_string "key-file" (gs_KeyFile s) p in
  let p := pf_set_string "server-ca" (gs_ServerCA s) p in
  let p := pf_set_string "relay-transport" (gs_RelayTransport s) p in
  let p := pf_set_string "log-level" (gs_LogLevel s) p in
  let p := pf_set_string "stun-server" (gs_STUNServer s) p in
  let p := pf_set_bool "manage-firewall" (gs_ManageFirewall s) p in
  pf_set_bool "direct-probe" (gs_DirectProbe s) p.
Definition advancedCustomized (s : guiSettings) : bool :=
  bool_decide (gs_Hostname s ≠ "") || bool_decide (gs_ListenPort s ≠ defaultGUIListenPort)
  || bool_decide (gs_KeyFile s ≠ defaultKeyFile) || bool_decide (gs_ServerCA s ≠ "")
  || bool_decide (gs_RelayTransport s ≠ "auto") || bool_decide (gs_LogLevel s ≠ "info")
  || bool_decide (gs_STUNServer s ≠ defaultSTUNServer) || negb (gs_ManageFirewall s) || negb (gs_DirectProbe s).
(** [url]: the scheme and host [url.Parse] finds; [stat]: whether a file is there. *)
Definition validate (url : string → option (string * string)) (stat : string → bool) (s : guiSettings) : bool :=
  bool_decide (gs_Server s ≠ "")
  && match url (gs_Server s) with
     | None => false
     | Some (scheme, host) => bool_decide (host ≠ "") && bool_decide (scheme ∈ ["http"; "https"])
     end
  && bool_decide (gs_SetupKey s ≠ "") && (0 <=? gs_ListenPort s) && (gs_ListenPort s <=? 65535)
  && bool_decide (gs_KeyFile s ≠ "") && (bool_decide (gs_ServerCA s = "") || stat (gs_ServerCA s)).
(** [agentConfig]: what is not a setting stays at its zero value. *)
Definition gui_agentConfig (s : guiSettings) : agentConfig :=
  mkAgentConfig "100.64.0.1/16" "" "" "" "" "" "" (gs_Server s) (gs_SetupKey s) (gs_Hostname s) (gs_ServerCA s)
    (30 * Second) (gs_STUNServer s) false (gs_RelayTransport s) (gs_DirectProbe s) "" "" "" false (gs_ManageFirewall s)
    false false (gs_KeyFile s) (gs_LogLevel s) "" (gs_ListenPort s).

(** The form: the entries as texts. *)
Record Form : Type := mkForm {
  fm_server : string; fm_setupKey : string; fm_hostname : string; fm_listenPort : string; fm_keyFile : string;
  fm_serverCA : string; fm_relay : string; fm_logLevel : string; fm_stun : string; fm_manageFW : bool; fm_directProbe : bool
}.
Definition fill_form (s : guiSettings) : Form :=
  mkForm (gs_Server s) (gs_SetupKey s) (gs_Hostname s) (Itoa (gs_ListenPort s)) (gs_KeyFile s) (gs_ServerCA s)
    (gs_RelayTransport s) (gs_LogLevel s) (gs_STUNServer s) (gs_ManageFirewall s) (gs_DirectProbe s).
(** [None]: a port that is no number. *)
Definition collect_form (f : Form) : option guiSettings :=
  let text := TrimSpace (fm_listenPort f) in
  port ← (if decide (text = "") then Some defaultGUIListenPort else ParseInt text);
  Some (mkSettings (TrimSpace (fm_server f)) (TrimSpace (fm_setupKey f)) (TrimSpace (fm_hostname f)) port
          (TrimSpace (fm_keyFile f)) (TrimSpace (fm_serverCA f)) (fm_relay f) (fm_logLevel f) (TrimSpace (fm_stun f))
          (fm_manageFW f) (fm_directProbe f)).
Definition resetAdvanced (f : Form) : Form :=
  mkForm (fm_server f) (fm_setupKey f) "" (Itoa defaultGUIListenPort) defaultKeyFile "" "websocket" "info" defaultSTUNServer
    true true.
(** The save button. *)
Definition save_button (url : string → option (string * string)) (stat : string → bool) (f : Form) (p : P) : option P :=
  s ← collect_form f; if validate url stat s then Some (save s p) else None.

Context `{!PreferencesLaws P}.
Lemma settings_read_back s p : loadSettings (save s p) =
  mkSettings (TrimSpace (gs_Server s)) (TrimSpace (gs_SetupKey s)) (TrimSpace (gs_Hostname s)) (gs_ListenPort s)
    (TrimSpace (gs_KeyFile s)) (TrimSpace (gs_ServerCA s)) (gs_RelayTransport s) (gs_LogLevel s) (TrimSpace (gs_STUNServer s))
    (gs_ManageFirewall s) (gs_DirectProbe s).
Proof.
  unfold loadSettings, save. cbv zeta.
  repeat first [rewrite pf_int_string by reflexivity|rewrite pf_bool_string by reflexivity|rewrite pf_string_int by reflexivity
    |rewrite pf_bool_int by reflexivity|rewrite pf_get_string|rewrite pf_get_int|rewrite pf_get_bool].
  reflexivity.
Qed.
(** What a press of the button saves is what the next start loads, and the form
    shows, whatever was stored before. *)
Lemma settings_kept url stat f p p' : save_button url stat f p = Some p' →
  ∃ s, collect_form f = Some s ∧ loadSettings p' = s ∧ collect_form (fill_form s) = Some s
    ∧ validate url stat s = true ∧ 0 ≤ c_ListenPort (gui_agentConfig s) ≤ 65535
    ∧ parseDNSMode (c_DNSMode (gui_agentConfig s)) = Some dnsModeAuto.
Proof.
  unfold save_button. destruct (collect_form f) as [s|] eqn:Ec; [|done]. cbn. destruct (validate url stat s) eqn:Ev; [|done].
  intros [= <-]. exists s. unfold collect_form in Ec. cbv zeta in Ec.
  destruct (if decide _ then _ else _) as [port|]; [|done]. cbn in Ec. injection Ec as <-.
  assert (0 ≤ port ≤ 65535) as Hport.
  { unfold validate in Ev. cbn in Ev. rewrite !andb_true_iff, !Z.leb_le in Ev. tauto. }
  split; [done|]. split; [|split; [|done]].
  - rewrite settings_read_back. f_equal; apply TrimSpace_idem.
  - unfold collect_form, fill_form. cbn [fm_listenPort gs_ListenPort]. cbv zeta. rewrite (TrimSpace_plain (Itoa port)).
    2:{ eapply str_forall_impl; [|apply (Itoa_digits port); lia]. intros c [z Hz]%bool_decide_eq_true. unfold digit in Hz.
        unfold plain. repeat case_match; try done; lia. }
    rewrite decide_False by apply Itoa_nonempty. rewrite ParseInt_Itoa by (unfold in_int64, int64_min, int64_max; lia).
    cbn [mbind option_bind]. do 2 f_equal; apply TrimSpace_idem.
Qed.
End settings.
(** Resetting the advanced options does not give the defaults: the window takes
    them for customized again. *)
Lemma reset_not_default key f s : collect_form (resetAdvanced key f) = Some s →
  gs_RelayTransport s = "websocket" ∧ advancedCustomized key s = true.
Proof.
  unfold collect_form, resetAdvanced. cbn [fm_listenPort]. cbv zeta.
  assert (TrimSpace (Itoa defaultGUIListenPort) = "51820") as -> by (vm_compute; reflexivity).
  rewrite decide_False by done. assert (ParseInt "51820" = Some 51820) as -> by (vm_compute; reflexivity).
  cbn [mbind option_bind]. intros [= <-]. split; [done|]. unfold advancedCustomized.
  rewrite (bool_decide_eq_true_2 (gs_RelayTransport _ ≠ "auto")) by done. by rewrite !orb_true_r.
Qed.

(** Preferences in a file. *)
Definition pref_file : Type := gmap string string * gmap string Z * gmap string bool.
#[export] Instance pref_file_ops : Preferences pref_file := {
  pf_string k p := p.1.1 !! k; pf_int k p := p.1.2 !! k; pf_bool k p := p.2 !! k;
  pf_set_string k v p := (<[k := v]> p.1.1, p.1.2, p.2);
  pf_set_int k v p := (p.1.1, <[k := v]> p.1.2, p.2);
  pf_set_bool k v p := (p.1, <[k := v]> p.2)
}.
#[export] Instance pref_file_laws : PreferencesLaws pref_file.
Proof.
  split; intros; cbn; try done; rewrite lookup_insert; destruct (String.eqb_spec k k'), (decide _); congruence.
Qed.

(** ** Connecting

    One window at a time holds the mutex [Local\wgmesh-agent-gui]; the flag is
    this process's handle. *)
Definition acquireSingleInstance (taken held : bool) : bool * bool := if taken then (false, held) else (true, true).
Inductive connected : Type := Declined | RelaunchFailed | Relaunched | ServiceOwns | BadSettings | NoKeyDir | Started (ok : bool).
(** What the user and the system say: elevated already, agreed to restart, the
    restart worked, the service is active, the settings are valid, the directory
    of the key file is there. *)
Definition connect (elevated agreed relaunched service valid mkdir : bool) (server : string) (held : bool) (d : Desk)
  : connected * bool * Desk :=
  if negb elevated then
    if negb agreed then (Declined, held, d)
    else if relaunched then (Relaunched, false, d) else (RelaunchFailed, false, d)
  else if service then (ServiceOwns, held, d)
  else if negb valid then (BadSettings, held, d)
  else if negb mkdir then (NoKeyDir, held, d)
  else let '(ok, d) := start server d in (Started ok, held, d).
Definition onToggle (elevated agreed relaunched service valid mkdir : bool) (server : string) (held : bool) (d : Desk)
  : option connected * bool * Desk :=
  if running d then (None, held, requestStop d)
  else let '(r, held, d) := connect elevated agreed relaunched service valid mkdir server held d in (Some r, held, d).
(** The button starts a loop only for an administrator, with valid settings, no
    service active and no other loop; else the loops are as they were. *)
Lemma toggle_guarded elevated agreed relaunched service valid mkdir server held d r held' d' :
  desk_ok d → onToggle elevated agreed relaunched service valid mkdir server held d = (r, held', d') →
  ct_loops d' = ct_loops d
  ∨ elevated = true ∧ service = false ∧ valid = true ∧ mkdir = true ∧ (∀ g, ct_loops d !! g = None)
    ∧ ct_loops d' = {[ct_next d := PStarting]}.
Proof.
  intros H. unfold onToggle. destruct (running d) eqn:Er.
  - intros [= _ _ <-]. left. unfold requestStop. by destruct (ct_cur d).
  - unfold connect, start. rewrite Er. destruct elevated, agreed, relaunched, service, valid, mkdir; cbn; intros [= <- <- <-]; auto.
    all: right; do 4 (split; [done|]); split; [intros g; by apply idle_no_loop|].
    all: cbn [ct_loops]; rewrite <- insert_empty; f_equal; apply map_empty; intros g; by apply idle_no_loop.
Qed.
(** A restart that fails leaves this window open without the mutex: a second
    window gets it. *)
Lemma relaunch_failed_unguarded server d :
  connect false true false false true true server true d = (RelaunchFailed, false, d)
  ∧ acquireSingleInstance false false = (true, true).
Proof. done. Qed.

(** ** The window follows the hub *)

(** Once a second; the versions of the first look are ones nothing has yet. *)
Record Window : Type := mkWindow { w_lastStatus : Z; w_lastLog : Z; w_shown : agentStatus; w_log : string }.
Definition poll (h : statusHub) (r : logRing) (w : Window) : Window :=
  let '(st, v) := hub_snapshot h in
  let w := if decide (v = w_lastStatus w) then w else mkWindow v (w_lastLog w) st (w_log w) in
  let '(text, v) := ring_snapshot r in
  if decide (v = w_lastLog w) then w else mkWindow (w_lastStatus w) v (w_shown w) text.
Definition new_window : Window := mkWindow (2 ^ 64 - 1) (2 ^ 64 - 1) no_status "".
Inductive gui_event : Type := EStatus (fn : agentStatus → agentStatus) | ELog (p : string) | EClear | EPoll.
Definition gui_run (s : statusHub * logRing * Window) (e : gui_event) : statusHub * logRing * Window :=
  let '(h, r, w) := s in
  match e with
  | EStatus fn => (update fn h, r, w)
  | ELog p => (h, ring_write p r, w)
  | EClear => (h, ring_clear r, w)
  | EPoll => (h, r, poll h r w)
  end.
(** At most [n] changes so far, and a version the window knows is one it shows. *)
Record follows (n : Z) (s : statusHub * logRing * Window) : Prop := {
  fo_on : h_on s.1.1 = true;
  fo_status : 0 ≤ h_version s.1.1 ≤ n ∧ (w_lastStatus s.2 = 2 ^ 64 - 1
    ∨ w_lastStatus s.2 < h_version s.1.1 ∨ w_lastStatus s.2 = h_version s.1.1 ∧ w_shown s.2 = h_status s.1.1);
  fo_log : 0 ≤ r_version s.1.2 ≤ n ∧ (w_lastLog s.2 = 2 ^ 64 - 1
    ∨ w_lastLog s.2 < r_version s.1.2 ∨ w_lastLog s.2 = r_version s.1.2 ∧ w_log s.2 = (ring_snapshot s.1.2).1)
}.
Lemma poll_follows n h r w : n < 2 ^ 64 - 1 → follows n (h, r, w) →
  follows n (h, r, poll h r w) ∧ w_shown (poll h r w) = h_status h ∧ w_log (poll h r w) = (ring_snapshot r).1.
Proof.
  intros Hn [Hon [Hv Hs] [Hr Hl]]. cbn in *. unfold poll. cbn [hub_snapshot ring_snapshot fst snd].
  destruct (decide (h_version h = w_lastStatus w)) as [E1|E1]; destruct (decide (r_version r = w_lastLog _)) as [E2|E2];
    cbn in *; (split; [split; cbn; [done|split; [done|]..]|]); try (right; right; split; [done|]); naive_solver lia.
Qed.
Lemma gui_run_follows n s e : n + 1 < 2 ^ 64 - 1 → follows n s → follows (n + 1) (gui_run s e).
Proof.
  intros Hn H. destruct s as [[h r] w]. destruct e; cbn [gui_run].
  - destruct H as [Hon [Hv Hs] Hl]. cbn in *. unfold update. rewrite Hon. cbn [negb].
    split; cbn; [done| |split; [lia|apply Hl]]. rewrite Z.mod_small by lia. split; [lia|]. lia.
  - destruct H as [Hon Hs [Hr Hl]]. cbn in *. split; cbn; [done|split; [lia|apply Hs]|]. unfold ring_write.
    destruct (cut_last _ _) as [[c rest]|]; cbn; [rewrite Z.mod_small by lia|]; split; try lia. exact Hl.
  - destruct H as [Hon Hs [Hr Hl]]. cbn in *. split; cbn; [done|split; [lia|apply Hs]|]. rewrite Z.mod_small by lia. lia.
  - destruct (poll_follows n h r w ltac:(lia) H) as [[Hon [Hv Hs] [Hr Hl]] _]. cbn in *.
    split; cbn; [done|split; [lia|done]|split; [lia|done]].
Qed.
(** A look at the hub shows the window its current status and log, however the
    changes and looks before it were interleaved. *)
Lemma poll_shows events : Z.of_nat (length events) < 2 ^ 64 - 1 →
  let '(h, r, w) := foldl gui_run (enable (mkHub false 0 no_status), empty_ring, new_window) events in
  w_shown (poll h r w) = h_status h ∧ w_log (poll h r w) = (ring_snapshot r).1.
Proof.
  intros Hlen. assert (∀ es s n, n + Z.of_nat (length es) < 2 ^ 64 - 1 → follows n s →
    follows (n + Z.of_nat (length es)) (foldl gui_run s es)) as Hrun.
  { induction es as [|e es IH]; intros s n Hn Hf; cbn [foldl length].
    - by rewrite Nat2Z.inj_0, Z.add_0_r.
    - rewrite Nat2Z.inj_succ in *. replace (n + Z.succ (Z.of_nat (length es))) with ((n + 1) + Z.of_nat (length es)) by lia.
      cbn [length] in Hn. apply IH; [lia|]. apply gui_run_follows; [lia|done]. }
  specialize (Hrun events (enable (mkHub false 0 no_status), empty_ring, new_window) 0 ltac:(lia)).
  destruct (foldl _ _ _) as [[h r] w]. apply (poll_follows (0 + Z.of_nat (length events))); [lia|]. apply Hrun.
  split; cbn; [done|split; [lia|by left]..].
Qed.

(** ** Texts of a peer and of the agent *)
Definition upper1 (c : ascii) : ascii := if (97 <=? byte_of c) && (byte_of c <=? 122) then chr (byte_of c - 32) else c.
(** [strings.ToUpper] of a path state, which is ASCII. *)
Definition ToUpper (s : string) : string := text (upper1 <$> chars s).
Definition pathBadge (state : string) : string :=
  if decide (state = "direct") then "DIRECT"
  else if decide (state = "ws-relay") then "RELAY (ws)"
  else if decide (state = "udp-relay") then "RELAY (udp)"
  else if decide (state = "probing-direct") then "PROBING"
  else if decide (state = "") then "?" else ToUpper state.
Definition peerTitle (p : peerStatus) : string :=
  let ips := Join (s_AllowedIPs p) ", " in
  let ips := if decide (ips = "") then "(no allowed IPs)" else ips in
  if decide (s_Hostname p ≠ "") then s_Hostname p +:+ "   ·   " +:+ ips +:+ "   ·   " +:+ pathBadge (s_PathState p)
  else ips +:+ "   ·   " +:+ pathBadge (s_PathState p).
(** The labels for server, key, addresses and port. *)
Definition applyInfo (st : agentStatus) : string * string * string * string :=
  let or_dash s := if decide (s = "") then "—" else s in
  let overlay := if decide (a_OverlayAddr6 st ≠ "")
                 then (if decide (a_OverlayAddr st ≠ "") then a_OverlayAddr st +:+ ", " else "") +:+ a_OverlayAddr6 st
                 else a_OverlayAddr st in
  (or_dash (a_Server st), or_dash (a_PublicKey st), or_dash overlay,
   or_dash (if 0 <? a_ListenPort st then Itoa (a_ListenPort st) +:+ "/udp" else "")).
(** Every state a path can have has a badge of its own. *)
Lemma badges_differ : NoDup (pathBadge <$> ["direct"; "ws-relay"; "udp-relay"; "quic-relay"; "probing-direct"; ""]).
Proof. apply (bool_decide_eq_true_1 (NoDup _)). vm_compute. reflexivity. Qed.
