(* ===== verification/WinHost.v ===== *)
(** * Windows: name servers and the service

    cmd/agent/dns_windows.go over the class [WinDns] (netsh and PowerShell), and
    service_windows.go over the class [Scm] of the service manager: the commands
    of [agent.exe service], the replacement of the binary, and the service's own
    loop.  Paths are ASCII texts. *)
From S2P Require Import Prelude GoText TimeText NetAddr NetFacts Schema Dns Telemetry Candidates PeerEntries Handlers Path Sync AgentSync Startup.
From Stdlib Require Import Ascii.

#[export] Instance dnsMode_eq_dec : EqDecision dnsMode.
Proof. solve_decision. Defined.

(** ** Split DNS *)

(** A rule of the name resolution policy table. *)
Record NrptRule : Type := mkRule { nr_namespace : string; nr_servers : list string; nr_comment : string }.
(** The commands; a PowerShell script gets its input as environment variables. *)
Class WinDns (T : Type) : Type := {
  wd_netsh : list string → T → bool * T;
  wd_powershell : string → list (string * string) → T → bool * T;
  wd_rules : T → list NrptRule
}.
Definition dquote : string := String "034" "".
Definition suffix_script : string :=
  "Set-DnsClient -InterfaceAlias $env:WGMESH_IFACE -ConnectionSpecificSuffix " +:+ dquote +:+ "$env:WGMESH_SUFFIX" +:+ dquote.
Definition clear_script : string :=
  "Get-DnsClientNrptRule | Where-Object { $_.Comment -eq $env:WGMESH_COMMENT } | Remove-DnsClientNrptRule -Force -ErrorAction SilentlyContinue".
Definition add_script : string :=
  "Add-DnsClientNrptRule -Namespace $env:WGMESH_NAMESPACE -NameServers ($env:WGMESH_NS -split ',') -Comment $env:WGMESH_COMMENT | Out-Null".
Definition comment_of (iface : string) : string := "wgmesh:" +:+ iface.

(** [strings.Trim] with one character. *)
Fixpoint trim_left_char (c : ascii) (s : string) : string :=
  match s with String a s' => if decide (a = c) then trim_left_char c s' else s | EmptyString => "" end.
Definition trim_char (c : ascii) (s : string) : string :=
  let rev_string x := text (rev (chars x)) in rev_string (trim_left_char c (rev_string (trim_left_char c s))).
Definition trim_domain (d : string) : string := trim_char "." (TrimSpace d).
Definition add_namespace (out : list string) (d : string) : list string :=
  if decide (trim_domain d = "") then out
  else let n := "." +:+ trim_domain d in if decide (n ∈ out) then out else out ++ [n].
Definition windowsSplitDNSNamespaces (cfg : DNSConfig) : list string :=
  foldl add_namespace [] (dc_SearchDomains cfg ++ (if dc_MagicDNS cfg then [dc_Domain cfg] else [])).

Section dns.
Context {T : Type} `{WinDns T}.
Definition setDNSSuffix (iface suffix : string) (t : T) : bool * T :=
  wd_powershell suffix_script [("WGMESH_IFACE", iface); ("WGMESH_SUFFIX", suffix)] t.
Definition clearWindowsSplitDNS (iface : string) (t : T) : bool * T :=
  wd_powershell clear_script [("WGMESH_COMMENT", comment_of iface)] t.
Definition addWindowsSplitDNSRule (iface namespace : string) (nameservers : list string) (t : T) : bool * T :=
  wd_powershell add_script
    [("WGMESH_NAMESPACE", namespace); ("WGMESH_NS", Join nameservers ","); ("WGMESH_COMMENT", comment_of iface)] t.
Fixpoint add_rules (iface : string) (nameservers namespaces : list string) (t : T) : bool * T :=
  match namespaces with
  | [] => (true, t)
  | n :: namespaces =>
      let '(ok, t) := addWindowsSplitDNSRule iface n nameservers t in
      if ok then add_rules iface nameservers namespaces t else (false, t)
  end.
(** Both families back to what the host had; errors are ignored. *)
Definition reset_servers (iface : string) (t : T) : T :=
  (wd_netsh ["interface"; "ipv6"; "set"; "dnsservers"; "name=" +:+ iface; "dhcp"]
    (wd_netsh ["interface"; "ipv4"; "set"; "dnsservers"; "name=" +:+ iface; "dhcp"] t).2).2.
Definition addr_is4 (a : Addr) : bool := match a with V4 _ => true | _ => false end.
(** The texts of the IPv4 addresses, then those of the others. *)
Definition nameserver_texts (cfg : DNSConfig) : option (list string) :=
  addrs ← mapM ParseAddr (dc_Nameservers cfg);
  Some ((addr_string <$> filter (λ a, addr_is4 a = true) addrs) ++ (addr_string <$> filter (λ a, addr_is4 a = false) addrs)).
Definition dns_suffix (cfg : DNSConfig) : string :=
  if dc_MagicDNS cfg && bool_decide (dc_Domain cfg ≠ "") then dc_Domain cfg else default "" (head (dc_SearchDomains cfg)).
Definition applyDNSConfig_windows (mode : dnsMode) (iface : string) (cfg : DNSConfig) (t : T) : dns_answer * T :=
  if decide (mode = dnsModeOff) then (DnsUnsupported, t)
  else
    let '(ok, t) := clearWindowsSplitDNS iface t in
    if negb ok then (DnsFailed, t)
    else if negb (dc_Enabled cfg) then
      let '(ok, t) := setDNSSuffix iface "" (reset_servers iface t) in (if ok then DnsApplied else DnsFailed, t)
    else match nameserver_texts cfg with
         | None => (DnsFailed, t)
         | Some nameservers =>
             let '(ok, t) := setDNSSuffix iface (dns_suffix cfg) (reset_servers iface t) in
             if negb ok then (DnsFailed, t)
             else if decide (nameservers = []) then (DnsApplied, t)
             else let '(ok, t) := add_rules iface nameservers (windowsSplitDNSNamespaces cfg) t in
                  (if ok then DnsApplied else DnsFailed, t)
         end.

(** *** What is left in the table *)
Class WinDnsLaws : Prop := {
  wl_netsh args t : wd_rules (wd_netsh args t).2 = wd_rules t;
  wl_suffix env t : wd_rules (wd_powershell suffix_script env t).2 = wd_rules t;
  wl_clear c t : let '(ok, t') := wd_powershell clear_script [("WGMESH_COMMENT", c)] t in
    filter (λ r, nr_comment r ≠ c) (wd_rules t') = filter (λ r, nr_comment r ≠ c) (wd_rules t)
    ∧ (ok = true → filter (λ r, nr_comment r = c) (wd_rules t') = []);
  wl_add n servers c t :
    let '(ok, t') := wd_powershell add_script [("WGMESH_NAMESPACE", n); ("WGMESH_NS", servers); ("WGMESH_COMMENT", c)] t in
    wd_rules t' = wd_rules t ++ (if ok : bool then [mkRule n (Split servers ",") c] else [])
}.
Context `{!WinDnsLaws}.
Definition own_rules (iface : string) (t : T) : list NrptRule := filter (λ r, nr_comment r = comment_of iface) (wd_rules t).
Definition foreign_rules (iface : string) (t : T) : list NrptRule := filter (λ r, nr_comment r ≠ comment_of iface) (wd_rules t).

Lemma nrpt_added iface servers namespaces t :
  let '(ok, t') := add_rules iface servers namespaces t in
  foreign_rules iface t' = foreign_rules iface t
  ∧ (ok = true → own_rules iface t' = own_rules iface t ++ ((λ n, mkRule n (Split (Join servers ",") ",") (comment_of iface)) <$> namespaces)).
Proof.
  revert t. induction namespaces as [|n ns IH]; intros t; cbn [add_rules fmap list_fmap]; [by rewrite app_nil_r|].
  unfold addWindowsSplitDNSRule. pose proof (wl_add n (Join servers ",") (comment_of iface) t) as L.
  destruct (wd_powershell _ _ t) as [ok t1]. unfold own_rules, foreign_rules in *. destruct ok.
  - specialize (IH t1). destruct (add_rules iface servers ns t1) as [ok2 t2]. destruct IH as [-> IH2]. rewrite L, !filter_app in *.
    split.
    + rewrite filter_cons_False by (cbn; tauto). by rewrite app_nil_r.
    + intros ->. rewrite (IH2 eq_refl), filter_cons_True by done. by rewrite <- app_assoc.
  - rewrite L, app_nil_r. done.
Qed.
Lemma reset_rules iface t : wd_rules (reset_servers iface t) = wd_rules t.
Proof. unfold reset_servers. by rewrite !wl_netsh. Qed.
Lemma suffix_rules iface suffix t : wd_rules (setDNSSuffix iface suffix t).2 = wd_rules t.
Proof. apply wl_suffix. Qed.
Lemma add_namespace_spec out d n : n ∈ add_namespace out d ↔ n ∈ out ∨ trim_domain d ≠ "" ∧ n = "." +:+ trim_domain d.
Proof. unfold add_namespace. repeat case_decide; set_solver. Qed.
Lemma add_namespace_NoDup out d : NoDup out → NoDup (add_namespace out d).
Proof.
  intros Hd. unfold add_namespace. repeat case_decide; try done. apply NoDup_app. split; [done|]. split; [set_solver|].
  apply NoDup_singleton.
Qed.
(** Exactly the domains of the configuration, each once. *)
Lemma namespaces_spec cfg : NoDup (windowsSplitDNSNamespaces cfg) ∧ ∀ n, n ∈ windowsSplitDNSNamespaces cfg ↔
  ∃ d, (d ∈ dc_SearchDomains cfg ∨ dc_MagicDNS cfg = true ∧ d = dc_Domain cfg) ∧ trim_domain d ≠ "" ∧ n = "." +:+ trim_domain d.
Proof.
  unfold windowsSplitDNSNamespaces.
  assert (∀ l out, NoDup out → NoDup (foldl add_namespace out l)
    ∧ ∀ n, n ∈ foldl add_namespace out l ↔ n ∈ out ∨ ∃ d, d ∈ l ∧ trim_domain d ≠ "" ∧ n = "." +:+ trim_domain d) as Hf.
  { induction l as [|d l IH]; intros out Ho; cbn [foldl]; [split; [done|set_solver]|].
    destruct (IH (add_namespace out d) (add_namespace_NoDup _ _ Ho)) as [H1 H2]. split; [done|]. intros n.
    rewrite H2, add_namespace_spec. set_solver. }
  destruct (Hf (dc_SearchDomains cfg ++ (if dc_MagicDNS cfg then [dc_Domain cfg] else [])) [] (NoDup_nil_2)) as [H1 H2].
  split; [done|]. intros n. rewrite H2. destruct (dc_MagicDNS cfg); set_solver.
Qed.

Definition wanted_rules (iface : string) (cfg : DNSConfig) (servers : list string) : list NrptRule :=
  if dc_Enabled cfg && bool_decide (servers ≠ [])
  then (λ n, mkRule n servers (comment_of iface)) <$> windowsSplitDNSNamespaces cfg else [].
(** A change of DNS settings leaves the rules of others alone, also when it
    fails; after a success the agent's own rules send exactly the mesh's
    namespaces to exactly the configured servers. *)
Lemma windows_dns_exact mode iface cfg t servers :
  nameserver_texts cfg = Some servers → Forall (λ s, no_char "," s = true) servers →
  let '(answer, t') := applyDNSConfig_windows mode iface cfg t in
  foreign_rules iface t' = foreign_rules iface t ∧ (answer = DnsApplied → own_rules iface t' = wanted_rules iface cfg servers).
Proof.
  intros Hs Hc. unfold applyDNSConfig_windows, wanted_rules. case_decide; [done|]. unfold clearWindowsSplitDNS.
  pose proof (wl_clear (comment_of iface) t) as L. destruct (wd_powershell _ _ t) as [ok t1]. destruct L as [Lf Lo].
  destruct ok; cbn [negb]; [|done]. specialize (Lo eq_refl).
  assert (∀ suffix t2, (setDNSSuffix iface suffix (reset_servers iface t1)).2 = t2 →
    foreign_rules iface t2 = foreign_rules iface t ∧ own_rules iface t2 = []) as Hkeep.
  { intros suffix t2 <-. unfold foreign_rules, own_rules. rewrite suffix_rules, reset_rules. done. }
  destruct (dc_Enabled cfg) eqn:En; cbn [negb andb].
  - rewrite Hs. specialize (Hkeep (dns_suffix cfg)). destruct (setDNSSuffix _ _ _) as [[] t2]; cbn [negb fst snd] in *.
    2:{ split; [by apply Hkeep|done]. }
    destruct (Hkeep _ eq_refl) as [Kf Ko]. case_decide as Hn; [subst; by rewrite bool_decide_eq_false_2 by tauto|].
    rewrite bool_decide_eq_true_2 by done. pose proof (nrpt_added iface servers (windowsSplitDNSNamespaces cfg) t2) as A.
    destruct (add_rules _ _ _ t2) as [ok3 t3]. destruct A as [-> A]. split; [done|]. destruct ok3; [|done]. intros _.
    rewrite (A eq_refl), Ko. cbn [app]. change "," with (String "," ""). by rewrite (Split_Join "," servers Hn Hc).
  - specialize (Hkeep ""). destruct (setDNSSuffix _ _ _) as [ok2 t2]. cbn [snd] in *. destruct (Hkeep _ eq_refl). done.
Qed.
End dns.
Arguments WinDnsLaws T {_}.

(** A table of rules. *)
#[export] Instance nrpt_table : WinDns (list NrptRule) := {
  wd_netsh _ t := (true, t);
  wd_powershell script env t :=
    match env with
    | [(_, c)] => if decide (script = clear_script) then (true, filter (λ r, nr_comment r ≠ c) t) else (true, t)
    | [(_, n); (_, servers); (_, c)] =>
        if decide (script = add_script) then (true, t ++ [mkRule n (Split servers ",") c]) else (true, t)
    | _ => (true, t)
    end;
  wd_rules := id
}.
#[export] Instance nrpt_table_laws : WinDnsLaws (list NrptRule).
Proof.
  split; intros; cbn [wd_netsh wd_powershell wd_rules nrpt_table]; unfold id.
  - done.
  - repeat case_match; cbn; try done; by rewrite decide_False in * by done.
  - rewrite decide_True by done. split.
    + rewrite list_filter_filter. f_equal. apply list_filter_iff. tauto.
    + intros _. rewrite list_filter_filter. induction t as [|r t IH]; [done|]. rewrite filter_cons_False by tauto. done.
  - by rewrite decide_True by done.
Qed.
Example split_dns_example :
  applyDNSConfig_windows dnsModeAuto "wg-int" (mkDNS true true "vpn." ["fd00::1"; "100.64.0.7"] ["corp"; ".vpn"; ""])
    [mkRule ".home" ["10.0.0.1"] ""; mkRule ".old" ["10.0.0.2"] "wgmesh:wg-int"]
  = (DnsApplied, [mkRule ".home" ["10.0.0.1"] ""; mkRule ".corp" ["100.64.0.7"; "fd00::1"] "wgmesh:wg-int";
                  mkRule ".vpn" ["100.64.0.7"; "fd00::1"] "wgmesh:wg-int"]).
Proof. vm_compute. reflexivity. Qed.

(** ** The service manager *)
Inductive svc_state : Type := SvcStopped | StartPending | StopPending | SvcRunning | ContinuePending | PausePending | Paused | SvcOther (n : Z).
#[export] Instance svc_state_eq_dec : EqDecision svc_state.
Proof. solve_decision. Defined.
Definition serviceStateName (s : svc_state) : string :=
  match s with
  | SvcStopped => "stopped" | StartPending => "start-pending" | StopPending => "stop-pending" | SvcRunning => "running"
  | ContinuePending => "continue-pending" | PausePending => "pause-pending" | Paused => "paused"
  | SvcOther n => "unknown(" +:+ Itoa n +:+ ")"
  end.
(** golang.org/x/sys/windows/svc/mgr for the one service, and its files.  Time
    passes between two calls, so that every one gives a new state.  A rename
    that finds no source says so. *)
Inductive rename_result : Type := Renamed | NoSource | RenameFailed.
Class Scm (T : Type) : Type := {
  sc_open : T → bool * T;
  sc_create : string → list string → T → bool * T;
  sc_delete : T → bool * T;
  sc_start : T → bool * T;
  sc_query : T → option svc_state * T;
  sc_stop : T → option svc_state * T;
  sc_binary : T → option string * T;
  sc_mkdir : string → T → bool * T;
  sc_copy : string → string → T → bool * T;
  sc_remove : string → T → T;
  sc_rename : string → string → T → rename_result * T;
  sc_files : T → gmap string string
}.

(** *** The path of the binary *)
Fixpoint first_field (l : list ascii) : list ascii :=
  match l with
  | [] => []
  | c :: l' => if space1 c then [] else c :: first_field l'
  end.
(** [strings.Index]. *)
Fixpoint index_of (pat s : string) : option nat :=
  match CutPrefix s pat with
  | Some _ => Some 0%nat
  | None => match s with EmptyString => None | String _ s => S <$> index_of pat s end
  end.
Definition serviceExecutablePath (binaryPath : string) : option string :=
  let binaryPath := TrimSpace binaryPath in
  if decide (binaryPath = "") then None
  else match CutPrefix binaryPath dquote with
       | Some rest =>
           match cut "034" rest with
           | Some (path, _) => if decide (TrimSpace path = "") then None else Some path
           | None => None
           end
       | None =>
           match index_of ".exe" (ToLower binaryPath) with
           | Some idx => Some (text (take (idx + 4) (chars binaryPath)))
           | None => Some (text (first_field (chars binaryPath)))
           end
       end.
(** How [CreateService] writes the command line ([syscall.EscapeArg] for a path,
    which has no quotation mark and does not end in a backslash). *)
Definition escape_path (path : string) : string :=
  if str_exists (λ c, bool_decide (c = " "%char) || bool_decide (c = "009"%char)) path
  then dquote +:+ path +:+ dquote else path.
Example path_quoted : serviceExecutablePath (escape_path "C:\Program Files\agent.exe" +:+ " --server x") = Some "C:\Program Files\agent.exe".
Proof. vm_compute. reflexivity. Qed.
Example path_bare : serviceExecutablePath (escape_path "C:\wg\Agent.EXE" +:+ " --server x") = Some "C:\wg\Agent.EXE".
Proof. vm_compute. reflexivity. Qed.
(** A directory whose name has ".exe" in it cuts the path short. *)
Lemma path_cut_short :
  serviceExecutablePath (escape_path "C:\wg.exec\agent.exe" +:+ " --server x") = Some "C:\wg.exe".
Proof. vm_compute. reflexivity. Qed.

(** *** The commands

    [None] of a command is a nil error. *)
Section service.
Context {T : Type} `{Scm T}.
Definition failed (what : string) (t : T) : option string * T := (Some what, t).
Definition installService (exe : string) (args : list string) (t : T) : option string * T :=
  let '(existing, t) := sc_open t in
  if existing then failed "already exists" t
  else let '(ok, t) := sc_create exe args t in if ok then (None, t) else failed "create service" t.
Definition with_service (body : T → option string * T) (t : T) : option string * T :=
  let '(ok, t) := sc_open t in if ok then body t else failed "open service" t.
Definition removeService : T → option string * T :=
  with_service (λ t, let '(ok, t) := sc_delete t in if ok then (None, t) else failed "delete service" t).
Definition startService : T → option string * T :=
  with_service (λ t, let '(ok, t) := sc_start t in if ok then (None, t) else failed "start service" t).

(** The wait: [late k] is how much longer than half a second the k-th round
    took.  Without fuel the result is [None]. *)
Definition poll_every : Z := Second / 2.
Definition stop_timeout : Z := 30 * Second.
Fixpoint wait_stopped (fuel : nat) (late : nat → Z) (k : nat) (elapsed : Z) (state : svc_state) (t : T)
  : option (option string * T) :=
  if decide (state = SvcStopped) then Some (None, t)
  else if stop_timeout <? elapsed then Some (failed "timed out" t)
  else match fuel with
       | O => None
       | S fuel =>
           let '(next, t) := sc_query t in
           match next with
           | None => Some (failed "query service" t)
           | Some state => wait_stopped fuel late (S k) (elapsed + poll_every + late k) state t
           end
       end.
Definition waitForServiceStopped (late : nat → Z) (state : svc_state) (t : T) : option (option string * T) :=
  wait_stopped 61 late 0 0 state t.
(** The flag: it was not stopped before. *)
Definition stopManagedService (late : nat → Z) (t : T) : option (bool * option string * T) :=
  let '(status, t) := sc_query t in
  match status with
  | None => Some (false, Some "query service", t)
  | Some SvcStopped => Some (false, None, t)
  | Some StopPending => '(e, t) ← waitForServiceStopped late StopPending t; Some (true, e, t)
  | Some _ =>
      let '(status, t) := sc_stop t in
      match status with
      | None => Some (false, Some "stop service", t)
      | Some state => '(e, t) ← waitForServiceStopped late state t; Some (true, e, t)
      end
  end.
Definition stopService (late : nat → Z) (t : T) : option (option string * T) :=
  let '(ok, t) := sc_open t in
  if negb ok then Some (failed "open service" t) else '(_, e, t) ← stopManagedService late t; Some (e, t).
Definition restartService (late : nat → Z) (t : T) : option (option string * T) :=
  let '(ok, t) := sc_open t in
  if negb ok then Some (failed "open service" t)
  else
    '(_, e, t) ← stopManagedService late t;
    match e with
    | Some e => Some (Some e, t)
    | None => let '(ok, t) := sc_start t in Some (if ok then (None, t) else failed "start service" t)
    end.
Definition statusService (t : T) : option (svc_state * string) * T :=
  let '(ok, t) := sc_open t in
  if negb ok then (None, t)
  else
    let '(status, t) := sc_query t in
    match status with
    | None => (None, t)
    | Some status =>
        let '(binary, t) := sc_binary t in
        (match binary with Some b => Some (status, b) | None => None end, t)
    end.

(** The last step: the copy takes the binary's name, or the old one goes back. *)
Definition swap_in (tmp backup target : string) (t : T) : bool * T :=
  let '(r, t) := sc_rename tmp target t in
  match r with
  | Renamed => (true, sc_remove backup t)
  | _ => (false, (sc_rename backup target t).2)
  end.
(** The directory of the target is an argument ([filepath.Dir]). *)
Definition replaceFile (dir source target : string) (t : T) : bool * T :=
  let '(ok, t) := sc_mkdir dir t in
  if negb ok then (false, t)
  else
    let tmp := target +:+ ".new" in
    let backup := target +:+ ".old" in
    let '(ok, t) := sc_copy source tmp (sc_remove tmp t) in
    if negb ok then (false, t)
    else
      let '(r, t) := sc_rename target backup (sc_remove backup t) in
      match r with
      | RenameFailed => (false, sc_remove tmp t)
      | _ => swap_in tmp backup target t
      end.
Definition restarts (s : svc_state) : bool := bool_decide (s ∈ [SvcRunning; StartPending; PausePending; Paused]).
(** [source] is the running program; the paths are absolute, as [filepath.Abs]
    leaves them. *)
Definition updateServiceBinary (late : nat → Z) (dir source : string) (t : T) : option (option string * T) :=
  let '(ok, t) := sc_open t in
  if negb ok then Some (failed "open service" t)
  else
    let '(binary, t) := sc_binary t in
    match binary ≫= serviceExecutablePath with
    | None => Some (failed "service binary" t)
    | Some target =>
        if decide (ToLower source = ToLower target) then Some (failed "already the installed binary" t)
        else
          let '(status, t) := sc_query t in
          match status with
          | None => Some (failed "query service" t)
          | Some status =>
              '(_, e, t) ← stopManagedService late t;
              match e with
              | Some e => Some (Some e, t)
              | None =>
                  let '(ok, t) := replaceFile dir source target t in
                  if negb ok then Some (failed "replace binary" t)
                  else if restarts status then
                    let '(ok, t) := sc_start t in Some (if ok then (None, t) else failed "start after update" t)
                  else Some (None, t)
              end
          end
    end.
Inductive service_command : Type := CInstall (args : list string) | CRemove | CStart | CStop | CRestart | CStatus | CUpdate | CUsage.
Definition handleServiceCommand (args : list string) : service_command :=
  match args with
  | [] => CUsage
  | cmd :: rest =>
      if decide (cmd = "install") then CInstall rest
      else if decide (cmd ∈ ["remove"; "uninstall"]) then CRemove
      else if decide (cmd = "start") then CStart
      else if decide (cmd = "stop") then CStop
      else if decide (cmd = "restart") then CRestart
      else if decide (cmd = "status") then CStatus
      else if decide (cmd = "update") then CUpdate else CUsage
  end.

(** The wait ends: at most 61 rounds fit into its thirty seconds. *)
Lemma wait_stopped_total fuel late k elapsed state t : (∀ j, 0 ≤ late j) →
  stop_timeout < elapsed + Z.of_nat fuel * poll_every → is_Some (wait_stopped fuel late k elapsed state t).
Proof.
  intros Hl. revert k elapsed state t. induction fuel as [|fuel IH]; intros k elapsed state t He; cbn [wait_stopped].
  - case_decide; [by eexists|]. destruct (Z.ltb_spec stop_timeout elapsed); [by eexists|lia].
  - case_decide; [by eexists|]. case_match; [by eexists|]. destruct (sc_query t) as [[s|] t1]; [|by eexists].
    apply IH. specialize (Hl k). lia.
Qed.
Lemma stop_total late t : (∀ j, 0 ≤ late j) → is_Some (stopManagedService late t).
Proof.
  intros Hl. assert (∀ s t, is_Some (waitForServiceStopped late s t)) as Hw.
  { intros s t'. apply wait_stopped_total; [done|]. vm_compute. done. }
  unfold stopManagedService. destruct (sc_query t) as [[[]|] t1]; try (by eexists).
  all: try (destruct (Hw StopPending t1) as [[e t2] ->]; by eexists).
  all: destruct (sc_stop t1) as [[s|] t2]; [|by eexists]; destruct (Hw s t2) as [[e t3] ->]; by eexists.
Qed.
End service.

(** *** The binary is never lost *)
Class ScmLaws (T : Type) `{Scm T} : Prop := {
  sf_open t : sc_files (sc_open t).2 = sc_files t;
  sf_start t : sc_files (sc_start t).2 = sc_files t;
  sf_query t : sc_files (sc_query t).2 = sc_files t;
  sf_stop t : sc_files (sc_stop t).2 = sc_files t;
  sf_binary t : sc_files (sc_binary t).2 = sc_files t;
  sf_mkdir d t : sc_files (sc_mkdir d t).2 = sc_files t;
  sf_copy a b t : let '(ok, t') := sc_copy a b t in
    if ok : bool then ∃ v, sc_files t !! a = Some v ∧ sc_files t' = <[b := v]> (sc_files t)
    else ∀ p, p ≠ b → sc_files t' !! p = sc_files t !! p;
  sf_remove p t : sc_files (sc_remove p t) = delete p (sc_files t) ∨ sc_files (sc_remove p t) = sc_files t;
  sf_rename a b t : let '(r, t') := sc_rename a b t in
    match r with
    | Renamed => ∃ v, sc_files t !! a = Some v ∧ sc_files t' = <[b := v]> (delete a (sc_files t))
    | NoSource => sc_files t !! a = None ∧ sc_files t' = sc_files t
    | RenameFailed => sc_files t' = sc_files t
    end
}.
Lemma other_suffix s x y : String.length x ≠ String.length y ∨ x ≠ y → s +:+ x ≠ s +:+ y.
Proof. intros Hxy E. apply (inj (String.append s)) in E. subst. tauto. Qed.
Lemma suffix_differs s x : x ≠ "" → s +:+ x ≠ s.
Proof. intros Hx E. rewrite <- (str_app_nil_r s) in E at 2. apply (inj (String.append s)) in E. done. Qed.

Section binary.
Context {T : Type} `{ScmLaws T}.
Lemma removed_other p q t : p ≠ q → sc_files (sc_remove p t) !! q = sc_files t !! q.
Proof. intros Hp. destruct (sf_remove p t) as [->| ->]; [|done]. by rewrite lookup_delete, decide_False. Qed.

Section paths.
Context (target tmp backup : string) (Ht : tmp ≠ target) (Hb : backup ≠ target) (Htb : tmp ≠ backup).
Definition elsewhere (t t' : T) : Prop :=
  ∀ p, p ≠ target → p ≠ tmp → p ≠ backup → sc_files t' !! p = sc_files t !! p.
(** The new binary is there as [tmp] and the old one, if any, as [backup]. *)
Definition staged (n : string) (t t' : T) : Prop :=
  elsewhere t t' ∧ sc_files t' !! tmp = Some n ∧ sc_files t' !! target = None
  ∧ ∀ v, sc_files t !! target = Some v → sc_files t' !! backup = Some v.
(** The old binary is under its name or, at worst, the backup's. *)
Definition survives (t t' : T) : Prop :=
  ∀ v, sc_files t !! target = Some v →
    sc_files t' !! target = Some v ∨ sc_files t' !! target = None ∧ sc_files t' !! backup = Some v.
Lemma swap_in_safe n t t2 : staged n t t2 →
  let '(ok, t') := swap_in tmp backup target t2 in
  elsewhere t t' ∧ (if ok : bool then sc_files t' !! target = Some n else survives t t').
Proof.
  intros (Mp & Mt & Mn & Mb). unfold swap_in. pose proof (sf_rename tmp target t2) as R2.
  destruct (sc_rename tmp target t2) as [r2 t3]. pose proof (sf_rename backup target t3) as B.
  assert (sc_files t3 = sc_files t2 → elsewhere t (sc_rename backup target t3).2 ∧ survives t (sc_rename backup target t3).2) as Hback.
  { intros E. destruct (sc_rename backup target t3) as [[] t4]; cbn [snd]; rewrite E in B.
    - destruct B as (v & Hv & E4). split.
      + intros p ? ? ?. rewrite E4, lookup_insert, decide_False, lookup_delete, decide_False by done. by apply Mp.
      + intros w Hw. left. rewrite E4, lookup_insert, decide_True by done. rewrite (Mb w Hw) in Hv. by simplify_eq.
    - destruct B as [B0 B]. split; [intros p ? ? ?; rewrite B; by apply Mp|]. intros w Hw. by rewrite (Mb w Hw) in B0.
    - split; [intros p ? ? ?; rewrite B; by apply Mp|]. intros w Hw. right. rewrite B. auto. }
  destruct r2; [|by apply Hback, R2|by apply Hback].
  destruct R2 as (v & Hv & E3). rewrite Mt in Hv. injection Hv as <-. split.
  - intros p ? ? ?. rewrite removed_other, E3, lookup_insert, decide_False, lookup_delete, decide_False by done. by apply Mp.
  - by rewrite removed_other, E3, lookup_insert, decide_True by done.
Qed.
(** Moving the old binary aside once the copy is there. *)
Lemma set_aside n t t1 : (∀ p, p ≠ tmp → p ≠ backup → sc_files t1 !! p = sc_files t !! p) → sc_files t1 !! tmp = Some n →
  let '(r, t2) := sc_rename target backup t1 in
  match r with RenameFailed => elsewhere t t2 ∧ sc_files t2 !! target = sc_files t !! target | _ => staged n t t2 end.
Proof.
  intros Hp Htmp. pose proof (sf_rename target backup t1) as R. destruct (sc_rename target backup t1) as [[] t2].
  - destruct R as (v & Hv & E). rewrite Hp in Hv by done. unfold staged, elsewhere. rewrite E. split_and!.
    + intros p ? ? ?. rewrite lookup_insert, decide_False, lookup_delete, decide_False by done. by apply Hp.
    + by rewrite lookup_insert, decide_False, lookup_delete, decide_False by done.
    + by rewrite lookup_insert, decide_False, lookup_delete, decide_True by done.
    + intros w Hw. rewrite lookup_insert, decide_True by done. congruence.
  - destruct R as [R0 R]. rewrite Hp in R0 by done. unfold staged, elsewhere. rewrite R.
    split_and!; [auto|done|by rewrite Hp|]. intros w Hw. congruence.
  - unfold elsewhere. rewrite R. split; [auto|by apply Hp].
Qed.
End paths.
(** After a success the new binary is in place.  After a failure the old one is,
    or, where even putting it back failed, under the backup's name.  No other
    file is touched. *)
Lemma replaceFile_safe dir source target t n :
  let tmp := target +:+ ".new" in let backup := target +:+ ".old" in
  sc_files t !! source = Some n → source ∉ [target; tmp; backup] →
  let '(ok, t') := replaceFile dir source target t in
  elsewhere target tmp backup t t'
  ∧ (if ok : bool then sc_files t' !! target = Some n else survives target backup t t').
Proof.
  intros tmp backup Hn Hs. rewrite !not_elem_of_cons in Hs. destruct Hs as (Hst & Hsn & Hso & _).
  assert (tmp ≠ target) as H1 by by apply suffix_differs.
  assert (backup ≠ target) as H2 by by apply suffix_differs.
  assert (tmp ≠ backup) as H3 by (apply other_suffix; by right).
  unfold replaceFile. fold tmp backup. unfold survives, elsewhere.
  pose proof (sf_mkdir dir t) as M. destruct (sc_mkdir dir t) as [[] t0]; cbn [negb snd] in *; [|by rewrite M; auto].
  pose proof (sf_copy source tmp (sc_remove tmp t0)) as C. destruct (sc_copy source tmp _) as [[] t1]; cbn [negb].
  2:{ split; [intros p ? ? ?|intros v Hv; left]; rewrite C, removed_other, M by done; done. }
  destruct C as (v & Hv & E1). rewrite removed_other, M, Hn in Hv by done. injection Hv as <-.
  assert (∀ p, p ≠ tmp → p ≠ backup → sc_files (sc_remove backup t1) !! p = sc_files t !! p) as Hp.
  { intros p Hp Hb. by rewrite removed_other, E1, lookup_insert, decide_False, removed_other, M by done. }
  assert (sc_files (sc_remove backup t1) !! tmp = Some n) as Htmp by
    by rewrite removed_other, E1, lookup_insert, decide_True by done.
  pose proof (set_aside target tmp backup H1 H2 H3 n t _ Hp Htmp) as A. destruct (sc_rename target backup _) as [r1 t2].
  destruct r1; [by apply (swap_in_safe target tmp backup)..|]. destruct A as [A1 A2].
  split; [intros p ? ? ?|intros v Hv; left]; rewrite removed_other by done; [by apply A1|by rewrite A2].
Qed.

Lemma wait_files fuel late k elapsed state t e t' : wait_stopped fuel late k elapsed state t = Some (e, t') → sc_files t' = sc_files t.
Proof.
  revert k elapsed state t. induction fuel as [|fuel IH]; intros k elapsed state t; cbn [wait_stopped].
  - repeat case_match; intros; simplify_eq; try done; by unfold failed in *; simplify_eq.
  - pose proof (sf_query t) as Q. destruct (sc_query t) as [next t1]. cbn in Q.
    repeat case_match; intros Hw; unfold failed in *; simplify_eq; try done. by rewrite (IH _ _ _ _ Hw).
Qed.
Lemma stop_files late t b e t' : stopManagedService late t = Some (b, e, t') → sc_files t' = sc_files t.
Proof.
  unfold stopManagedService, waitForServiceStopped. pose proof (sf_query t) as Q. destruct (sc_query t) as [status t1]. cbn in Q.
  pose proof (sf_stop t1) as S. destruct (sc_stop t1) as [s2 t2]. cbn in S.
  assert (∀ s t x b' e', sc_files t = sc_files x → ('(e, t) ← wait_stopped 61 late 0 0 s t; Some (true, e, t)) = Some (b', e', t') →
    sc_files t' = sc_files x) as Hw.
  { intros s u x b' e' Hu. destruct (wait_stopped 61 late 0 0 s u) as [[e2 u2]|] eqn:E; [|done]. cbn. intros [= _ _ <-].
    by rewrite (wait_files _ _ _ _ _ _ _ _ E). }
  assert (sc_files t2 = sc_files t) as Q2 by congruence.
  destruct status as [[]|]; [| |by eapply Hw|..]; try destruct s2; intros E; try (by simplify_eq); by eapply Hw.
Qed.
(** However an update ends, the service's binary is the new program or the old
    one, at worst under the backup's name; without an error it is the new one. *)
Lemma update_safe late dir source target t e t' n :
  updateServiceBinary late dir source t = Some (e, t') →
  (sc_binary (sc_open t).2).1 ≫= serviceExecutablePath = Some target →
  sc_files t !! source = Some n → source ∉ [target +:+ ".new"; target +:+ ".old"] →
  (e = None → sc_files t' !! target = Some n)
  ∧ (sc_files t' !! target = Some n ∨ survives target (target +:+ ".old") t t').
Proof.
  unfold updateServiceBinary. intros U Hb Hn Hs. pose proof (sf_open t) as O. destruct (sc_open t) as [ok t0]. cbn [snd] in *.
  assert (∀ x, sc_files x = sc_files t → survives target (target +:+ ".old") t x) as Hsame.
  { intros x E v Hv. left. by rewrite E. }
  destruct ok; cbn [negb] in U; [|unfold failed in U; simplify_eq; split; [done|right; by apply Hsame]].
  pose proof (sf_binary t0) as B. destruct (sc_binary t0) as [binary t1]. cbn [fst snd] in *. rewrite Hb in U.
  case_decide as Hst; [unfold failed in U; simplify_eq; split; [done|right; apply Hsame; congruence]|].
  pose proof (sf_query t1) as Q. destruct (sc_query t1) as [[status|] t2]; cbn [snd] in *.
  2:{ unfold failed in U; simplify_eq. split; [done|right; apply Hsame; congruence]. }
  destruct (stopManagedService late t2) as [[[b e3] t3]|] eqn:Est; [|done]. apply stop_files in Est. cbn [mbind option_bind] in U.
  assert (sc_files t3 = sc_files t) as E3 by congruence.
  destruct e3; [simplify_eq; split; [done|right; by apply Hsame]|].
  pose proof (replaceFile_safe dir source target t3 n) as R. destruct (replaceFile dir source target t3) as [ok4 t4].
  destruct R as [_ R]; [by rewrite E3|rewrite not_elem_of_cons; split; [by intros ->|done]|].
  destruct ok4; cbn [negb] in U.
  - pose proof (sf_start t4) as S. destruct (restarts status), (sc_start t4) as [[] t5]; unfold failed in U; simplify_eq; cbn [snd] in S;
      rewrite ?S; auto.
  - unfold failed in U. simplify_eq. split; [done|right]. intros v Hv. apply R. by rewrite E3.
Qed.
Lemma update_total late dir source t : (∀ j, 0 ≤ late j) → is_Some (updateServiceBinary late dir source t).
Proof.
  intros Hl. unfold updateServiceBinary. destruct (sc_open t) as [[] t0]; cbn [negb]; [|by eexists].
  destruct (sc_binary t0) as [binary t1]. destruct (binary ≫= _); [|by eexists]. case_decide; [by eexists|].
  destruct (sc_query t1) as [[status|] t2]; [|by eexists]. destruct (stop_total late t2 Hl) as [[[b e] t3] ->]. cbn.
  destruct e; [by eexists|]. destruct (replaceFile _ _ _ _) as [[] t4]; cbn; [|by eexists].
  destruct (restarts status); [|by eexists]. destruct (sc_start t4). by eexists.
Qed.
End binary.

(** *** A machine with the service *)
Record machine : Type := mkMachine {
  mc_installed : option (string * list string); mc_state : svc_state; mc_files : gmap string string; mc_full : bool
}.
Definition with_state (s : svc_state) (m : machine) : machine := mkMachine (mc_installed m) s (mc_files m) (mc_full m).
Definition with_files (f : gmap string string) (m : machine) : machine := mkMachine (mc_installed m) (mc_state m) f (mc_full m).
(** A stop takes effect with the next query; [mc_full]: the disk is full. *)
#[export] Instance machine_scm : Scm machine := {
  sc_open m := (bool_decide (is_Some (mc_installed m)), m);
  sc_create exe args m := (true, mkMachine (Some (escape_path exe, args)) SvcStopped (mc_files m) (mc_full m));
  sc_delete m := (true, mkMachine None SvcStopped (mc_files m) (mc_full m));
  sc_start m := (true, with_state SvcRunning m);
  sc_query m := (Some (mc_state m), if decide (mc_state m = StopPending) then with_state SvcStopped m else m);
  sc_stop m := (Some StopPending, with_state StopPending m);
  sc_binary m := (fst <$> mc_installed m, m);
  sc_mkdir _ m := (true, m);
  sc_copy a b m := match mc_files m !! a with
                   | Some v => if mc_full m then (false, with_files (<[b := ""]> (mc_files m)) m)
                               else (true, with_files (<[b := v]> (mc_files m)) m)
                   | None => (false, m)
                   end;
  sc_remove p m := with_files (delete p (mc_files m)) m;
  sc_rename a b m := match mc_files m !! a with
                     | Some v => (Renamed, with_files (<[b := v]> (delete a (mc_files m))) m)
                     | None => (NoSource, m)
                     end;
  sc_files := mc_files
}.
#[export] Instance machine_scm_laws : ScmLaws machine.
Proof.
  split; intros; cbn; try done.
  - by case_decide.
  - destruct (mc_files t !! a) eqn:E; cbn; [|done]. destruct (mc_full t); cbn; [|eauto].
    intros p Hp. by rewrite lookup_insert, decide_False.
  - by left.
  - destruct (mc_files t !! a) eqn:E; cbn; eauto.
Qed.
Definition ex_machine (full : bool) : machine :=
  mkMachine (Some ("C:\wg\agent.exe", ["--server"; "x"])) SvcRunning
    (<["C:\wg\agent.exe" := "v1"]> {["C:\dl\agent.exe" := "v2"]}) full.
Example update_example :
  (λ r, (fst r, mc_state (snd r), mc_files (snd r) !! "C:\wg\agent.exe"))
    <$> updateServiceBinary (λ _, 0) "C:\wg" "C:\dl\agent.exe" (ex_machine false) = Some (None, SvcRunning, Some "v2").
Proof. vm_compute. reflexivity. Qed.
(** An update that fails leaves a service that was running stopped, although its
    binary is as it was. *)
Lemma failed_update_stays_stopped :
  (λ r, (fst r, mc_state (snd r), mc_files (snd r) !! "C:\wg\agent.exe"))
    <$> updateServiceBinary (λ _, 0) "C:\wg" "C:\dl\agent.exe" (ex_machine true)
  = Some (Some "replace binary", SvcStopped, Some "v1").
Proof. vm_compute. reflexivity. Qed.

(** ** The service's own loop *)
Inductive svc_event : Type := Interrogate (current : svc_state) | SvcStop | SvcShutdown | OtherControl | AgentDone (err : bool).
(** What is told the manager, the exit code if the loop has ended, and whether
    the agent was told to stop; [result] is how the agent then ends. *)
Fixpoint execute_loop (result : bool) (events : list svc_event) : list svc_state * option Z * bool :=
  match events with
  | [] => ([], None, false)
  | Interrogate current :: events => let '(out, code, stop) := execute_loop result events in (current :: out, code, stop)
  | SvcStop :: _ | SvcShutdown :: _ => ([StopPending], Some (if result then 1 else 0), true)
  | OtherControl :: events => let '(out, code, stop) := execute_loop result events in (SvcRunning :: out, code, stop)
  | AgentDone err :: _ => ([], Some (if err then 1 else 0), false)
  end.
Definition Execute (result : bool) (events : list svc_event) : list svc_state * option Z * bool :=
  let '(out, code, stop) := execute_loop result events in ([StartPending; SvcRunning] ++ out, code, stop).
Definition goes_on (e : svc_event) : bool := match e with Interrogate _ | OtherControl => true | _ => false end.
(** The service ends exactly with a stop, a shutdown or the end of its agent: it
    goes on after everything else.  Only the first two tell the agent to stop,
    and then the code is that of the agent's own end. *)
Lemma execute_ends result events :
  ((execute_loop result events).1.2 = None ↔ Forall (λ e, goes_on e = true) events)
  ∧ ((execute_loop result events).2 = true → (execute_loop result events).1.2 = Some (if result then 1 else 0)).
Proof.
  induction events as [|e events [IH1 IH2]]; [by cbn; rewrite Forall_nil|]. cbn [execute_loop]. rewrite Forall_cons.
  destruct e; try destruct (execute_loop result events) as [[out code] stop]; cbn in *; rewrite ?IH1; (split; [|done]);
    split; try done; by intros [? ?].
Qed.
